(* ===== verification/_CoqProject ===== *)
-Q . S2P
Prelude.v
CString.v
Libc.v
Double.v
Printf.v
Scanf.v
Pmm.v
Paging.v
Ramfs.v
Elf.v
Fs.v
Proc.v
Syscall.v
Script.v
Devfs.v
Net.v
Dhcp.v
Hid.v
Service.v
Boot.v
Pci.v
Fb.v
Font.v
Acpi.v
Smbios.v
Smp.v
Platform.v
Loader.v
E1000.v
Storage.v
Ata.v
Usb.v
UsbHid.v
UsbMsc.v
Xhci.v
UsbHub.v
DmaPool.v
XhciPipe.v
Uhci.v
