(* ===== verification/Prelude.v ===== *)
(** * xkern: a verification development of the kernel's core logic

    xkern is an x86_64 kernel in C.  It boots through GRUB, takes its memory
    map from the firmware, builds page tables, unpacks a cpio archive as its
    root file system, runs ELF programs and scripts as tasks under a
    round-robin scheduler, serves their system calls, and drives keyboards and
    mice, disks, a frame buffer, USB, a device tree and a polling network stack.
    This library models those parts as executable definitions that follow the
    source function by function, and proves what makes them correct.

    ** How the parts fit together

    - The frame allocator (Pmm) promises distinct, page-aligned frames; the
      promise is the class [FrameAllocator].  Paging, the ELF loader, the file
      layer's argument vectors and the tasks are proved against the class.
    - The file layer reads the archive that the RAM file system has unpacked;
      tasks own descriptor tables, which vfork copies; system calls and the
      script interpreter act on the state of the task table.
    - The interpreter reaches the kernel through a record of calls ([gate] in
      Script.v), instantiated with the file layer.
    - The network stack is driven by the frames that the card delivers; the
      handlers of UDP ports, the DHCP client among them, are part of its state.
    - Drivers meet the hardware through interfaces.  A device that only answers
      is a class of operations on a state ([Ports] of Ata, [Transport] of
      UsbMsc, [Bus] of UsbHub), and what a working device does is a class of laws
      over it ([AtaDisk], [BotDisk], [BusLaws]), stated in the layouts of the
      device's specification and not with the driver's encoders, with an
      instance that computes for each.  A device that shares memory with the driver
      (the rings of E1000 and Xhci) is a second set of definitions for the
      device's side, written from its specification, and the theorems relate
      what one side wrote to what the other side reads.
    - The memory pool of Usb implements [DmaPool] and its laws, which the pipes
      of XhciPipe are proved against, for any controller that keeps to the
      event protocol ([Controller]).
    - The block devices of Storage are what ATA and USB disks register as.

    ** Files and what they model (paths under src/)

    - Prelude: machine integers, outcomes of C code, loops, byte lists.
    - CString: libkern/libkern/string.c on a byte-addressed memory.
    - Libc: ctype.c, stdlib.c, udivdi3.c.   - Double: math.c, float.c.
    - Printf: printf.c and klog.c.          - Scanf: scanf.c.
    - Pmm: osfmk/vm/pmm.c and pexpert/x86_64/e820.c.
    - Paging: osfmk/vm/paging.c; the walk of the processor is specified
      separately ([walk], [translate]).
    - Ramfs: bsd/fs/ramfs/src/compat.cpp.   - Elf: bsd/kern/elf/elf.c.
    - Fs, Proc, Syscall, Script: bsd/kern/init_ram_getty/ (fs.c; proc.c; valid.c,
      syscall.c and the spawning half of script.c; script.c and init.c), with
      the stubs of osfmk/x86_64/isr.asm that build and pop task frames.
    - Devfs: bsd/devfs/devfs.c.
    - Net: iokit/IONetFamily (ionet.c, ether.c, arp.c, ipv4.c, icmp.c, udp.c,
      dhcp.c, and the receive loop of e1000.c); Dhcp: the client's theorems.
    - Hid: iokit/IOHIDFamily (atkbd.c, atmouse.c) and the tick arithmetic of
      osfmk/x86_64/pit.c.
    - Service: iokit/IOServiceFamily/io_service.c, the services' functions being
      an oracle.
    - Boot: pexpert/x86_64/multiboot2.c and the boot arguments and shell of
      pexpert/x86_64/loader_config.c.
    - Pci: iokit/IOPCIFamily/pci.c over an arbitrary configuration space.
    - Fb, Font: iokit/IOGraphicsFamily (fb.c, buffer.c; font.c and its tables).
    - Acpi: osfmk/x86_64/acpi.  Smbios: pexpert/x86_64/smbios.c.
    - Smp: osfmk/x86_64 smp.c, lapic.c, ioapic.c, spinlock.c.
    - Platform: the text console and the serial line (osfmk/console), the
      interrupt controller, the interrupt table and the clocks (osfmk/x86_64
      pic.c, idt.c, tsc.c, pit.c), a Module each.
    - Loader: the console, splash screen and countdown of loader_config.c.
    - E1000: iokit/IONetFamily/e1000.c, the rings of the network card.
    - Storage, Ata: iokit/IOStorageFamily (devfs/devfs.c, ssd/ssd.c, main.c;
      ata/ata_pio.c).
    - Usb, UsbHid, UsbMsc, Xhci, UsbHub, XhciPipe, Uhci: iokit/IOUSBFamily
      (core/usb.c up to the configuration of a device, dev/usbdev.c,
      core/usb_irq.c; hid/usbhid.c; msc/usbmsc.c; rings, events, commands and
      transfers of usb3/xhci.c; the enumeration of core/usb.c and hub/usbhub.c;
      pipes and contexts of usb3/xhci.c; usb1/uhci.c).  DmaPool is the interface
      of the memory pool of Usb to the drivers of the host controllers.

    Each C function is one definition of the same name; a loop or a branch that
    needed a name of its own is a helper next to it.  Structures are records,
    enumerations inductive types, arrays lists (an index outside is a [Fault]),
    pointers into shared data are kept as pointers or indices where two parts
    can reach the same object: a descriptor points into the archive or into a
    task's buffer, a script is interpreted in the archive it overwrites.

    ** Outcomes and fuel

    Code that can go wrong has type [run A]: [Ret a] when it returns, [Fault]
    when it leaves the memory it may touch or does what the language leaves
    undefined (signed overflow included), [Spin] when a loop has used up its
    fuel.  Loops are run with 2^66 rounds of fuel ([FUEL], a binary number that
    costs nothing to carry): each loop of the code is bounded by a counter of at
    most 64 bits, so that a loop that is still running then never ends.
    Termination is always proved: theorems state [Ret], never "if it returns".
    Four recursions that are not loops take a [nat]: the interpreter with its
    shell and the shell of the boot loader (one unit per line read), the dump of
    the device tree (its number of nodes, shown to be enough), and the hubs
    behind USB hubs (128 deep, shown to be enough since each took an address).
    Waits for a time read the clock as the code does: the USB drivers' has 32
    bits and starts over, and theorems say how far from that they start.

    ** What is shown

    - Memory: frames are handed out once, only real memory, and reservation
      removes exactly the range; mapping a page changes one translation and
      keeps the table tree well formed also when a large page is split or
      memory runs out; cloned address spaces translate as they should.
    - Files: an archive unpacks to its files; open, seek and read give their
      bytes; no call of the file layer leaves the archive;
      directories are enumerated without duplicates; device nodes form a tree in
      every reachable state and are found where they were added.
    - Programs: the loader places every byte of every segment; argument vectors
      arrive; the tokenizers split lines into their words.
    - Tasks: scheduling decisions, fairness, vfork, exit and the invariant of
      the task table over every sequence of calls; start-up.
    - Library: printed numbers, truncation, division, reading back.
    - Network: no frame can break the stack; datagrams arrive as sent; the
      checksum is RFC 1071's; the cache learns; the DHCP handshake binds.
    - Input: the keyboard ring is a bounded queue; waiting for the controller
      ends; mouse packets are summed.
    - Screen: rectangles and scrolling change the picture as they should and
      nothing else, and the screen shows it after a flush; text cannot leave the
      frame buffer; the text console refines a grid of characters that scrolls.
    - Processors: mutual exclusion of the spin lock over any interleaving; a
      processor is on line after start-up if and only if one has come through
      the trampoline while it was waited for; the tables of the
      firmware are searched within their bounds, and the search ends.
    - Devices: enumeration ends and lists once every function that the code's
      reading of the header type shows, on every bus that is reached; the network
      card's rings and the request and event rings of xHCI are queues, over any
      number of laps; an opened pipe has a ring of its own and a context that
      describes its endpoint; a bulk transfer over UHCI is the buffer in packets
      with alternating toggles; device memory is handed out without overlap; each
      interface of a USB device is offered to a driver once; the devices of a
      tree of hubs get distinct addresses whatever fails; key presses and mouse moves arrive once
      and in order.
    - Disks: reads of ATA disks and reads and writes of USB disks are those of an
      array of blocks, over several commands where the transfer is long; the ATA
      write is shown as the sequence of what is sent.
    - Start: the tags of a boot loader are read back as they were written; boot
      arguments are kept and found by the kernel's queries; the loader's console
      stays on the screen and its countdown ends as it should; services have
      unique names, are entered and left in turn and stopped in reverse order.
    - Defects, as theorems about the code as it is: the frame of a new task and
      the switch code disagree, the trap and the dispatcher disagree about the
      order of arguments, ARP replies are malformed, UDP checksums are wrong
      except at lengths congruent to 240 modulo 257, size checks of cpio and ELF
      wrap, a script is destroyed by running it, and others named in the files.

    ** Not modelled

    The bring-up of the xHCI controller, the PCI set-up of the UHCI controller
    and the other USB controllers (ohci.c, ehci.c), whose code is dominated by
    the layout of descriptors that hardware walks; the audio driver; the AHCI and NVMe probes, which print; the
    hardware report and the order of initialisation; the desktop with the
    vendored LVGL library; games; and the C++ file systems and cryptography that
    the modelled core does not call.  Log messages are modelled where their text
    is the point (Printf, Devfs' dump) and otherwise left out, and so are the
    routines that only print a state (the dumps of page tables and ports).
    Interleaving is modelled at the grain of whole calls and timer ticks, and of
    single atomic operations for the spin lock. *)

From stdpp Require Export base numbers list list_numbers gmap strings.
From Stdlib Require Export ZArith Lia.
From Stdlib Require Ascii String.

Export (notations) Stdlib.Strings.Ascii.

#[global] Open Scope Z_scope.

(** ** Machine integers

    An unsigned C integer of width [w] is a [Z] in [[0, 2^w)]; every
    arithmetic result of the code is passed through the conversion of its
    type.  [s32]/[s64] are gcc's two's-complement reinterpretations. *)
Definition u8 (x : Z) : Z := x mod 2 ^ 8.
Definition u16 (x : Z) : Z := x mod 2 ^ 16.
Definition u32 (x : Z) : Z := x mod 2 ^ 32.
Definition u64 (x : Z) : Z := x mod 2 ^ 64.
Definition s8 (x : Z) : Z := (x + 2 ^ 7) mod 2 ^ 8 - 2 ^ 7.
Definition s32 (x : Z) : Z := (x + 2 ^ 31) mod 2 ^ 32 - 2 ^ 31.
Definition s64 (x : Z) : Z := (x + 2 ^ 63) mod 2 ^ 64 - 2 ^ 63.

Definition byte_ok (b : Z) : Prop := 0 <= b < 256.
Definition char_ok (b : Z) : Prop := 0 < b < 256.

#[global] Instance byte_ok_dec b : Decision (byte_ok b).
Proof. unfold byte_ok. apply _. Defined.
#[global] Instance char_ok_dec b : Decision (char_ok b).
Proof. unfold char_ok. apply _. Defined.

(** Literal powers of two, so that [lia] sees constants. *)
Ltac pow2_consts :=
  change (2 ^ 7) with 128 in *; change (2 ^ 8) with 256 in *;
  change (2 ^ 16) with 65536 in *;
  change (2 ^ 31) with 2147483648 in *; change (2 ^ 32) with 4294967296 in *;
  change (2 ^ 63) with 9223372036854775808 in *;
  change (2 ^ 64) with 18446744073709551616 in *.

(** Linear arithmetic over the conversions. *)
Ltac ilia :=
  unfold byte_ok, char_ok, u8, u16, u32, u64, s8, s32, s64 in *; pow2_consts;
  Z.div_mod_to_equations; lia.

Lemma u8_small x : 0 <= x < 2 ^ 8 -> u8 x = x.
Proof. apply Z.mod_small. Qed.
Lemma u16_small x : 0 <= x < 2 ^ 16 -> u16 x = x.
Proof. apply Z.mod_small. Qed.
Lemma u32_small x : 0 <= x < 2 ^ 32 -> u32 x = x.
Proof. apply Z.mod_small. Qed.
Lemma u64_small x : 0 <= x < 2 ^ 64 -> u64 x = x.
Proof. apply Z.mod_small. Qed.
Lemma u8_range x : 0 <= u8 x < 2 ^ 8.
Proof. apply Z.mod_pos_bound. lia. Qed.
Lemma u16_range x : 0 <= u16 x < 2 ^ 16.
Proof. apply Z.mod_pos_bound. lia. Qed.
Lemma u32_range x : 0 <= u32 x < 2 ^ 32.
Proof. apply Z.mod_pos_bound. lia. Qed.
Lemma u64_range x : 0 <= u64 x < 2 ^ 64.
Proof. apply Z.mod_pos_bound. lia. Qed.
Lemma s32_small x : - 2 ^ 31 <= x < 2 ^ 31 -> s32 x = x.
Proof. intros. unfold s32. rewrite Z.mod_small; lia. Qed.
Lemma s64_small x : - 2 ^ 63 <= x < 2 ^ 63 -> s64 x = x.
Proof. intros. unfold s64. rewrite Z.mod_small; lia. Qed.

(** Masking off the low [n] bits of a 64-bit word. *)
Lemma mask_down n x :
  0 <= n -> 0 <= x < 2 ^ 64 -> Z.land x (u64 (Z.lnot (Z.ones n))) = x / 2 ^ n * 2 ^ n.
Proof.
  intros Hn Hx. unfold u64. rewrite <- Z.land_ones by lia.
  rewrite Z.land_comm, <- Z.land_assoc, (Z.land_comm (Z.ones 64)), Z.land_ones, Z.mod_small by lia.
  rewrite Z.land_comm, <- Z.ldiff_land, Z.ldiff_ones_r by lia.
  by rewrite Z.shiftl_mul_pow2, Z.shiftr_div_pow2 by lia.
Qed.

(** A single-bit test. *)
Lemma land_bit x k : 0 <= k -> (Z.land x (2 ^ k) =? 0) = negb (Z.testbit x k).
Proof.
  intros Hk. destruct (Z.testbit x k) eqn:E.
  - apply Z.eqb_neq. intros H0. assert (Z.testbit (Z.land x (2 ^ k)) k = false) as Hf
      by (by rewrite H0, Z.bits_0).
    rewrite Z.land_spec, E, Z.pow2_bits_true in Hf by lia. done.
  - apply Z.eqb_eq, Z.bits_inj'. intros i Hi.
    rewrite Z.land_spec, Z.bits_0, Z.pow2_bits_eqb by lia.
    destruct (Z.eqb_spec k i) as [->|]; [by rewrite E | apply andb_false_r].
Qed.

Lemma lor_bound a b n :
  0 <= n -> 0 <= a < 2 ^ n -> 0 <= b < 2 ^ n -> 0 <= Z.lor a b < 2 ^ n.
Proof.
  intros Hn Ha Hb. replace (Z.lor a b) with (Z.lor a b mod 2 ^ n).
  { apply Z.mod_pos_bound. lia. }
  rewrite <- Z.land_ones, Z.land_lor_distr_l, !Z.land_ones, !Z.mod_small by lia. done.
Qed.

Lemma land_bound a b n : 0 <= n -> 0 <= b < 2 ^ n -> 0 <= Z.land a b < 2 ^ n.
Proof.
  intros Hn Hb. replace (Z.land a b) with (Z.land a b mod 2 ^ n).
  { apply Z.mod_pos_bound. lia. }
  rewrite <- Z.land_ones, <- Z.land_assoc, Z.land_ones, Z.mod_small by lia. done.
Qed.

(** A field joined to the bits below it. *)
Lemma lor_shiftl a b n : 0 <= n -> 0 <= b < 2 ^ n -> Z.lor (Z.shiftl a n) b = a * 2 ^ n + b.
Proof.
  intros Hn Hb. rewrite <- Z.shiftl_mul_pow2 by lia. symmetry. apply Z.add_nocarry_lor.
  apply Z.bits_inj'. intros i Hi. rewrite Z.land_spec, Z.bits_0.
  destruct (decide (i < n)).
  - by rewrite Z.shiftl_spec_low by lia.
  - destruct (decide (b = 0)) as [->|]; [by rewrite Z.bits_0, andb_false_r|].
    rewrite (Z.bits_above_log2 b), andb_false_r; [done|lia|].
    assert (Z.log2 b < n) by (apply Z.log2_lt_pow2; lia). lia.
Qed.

Create HintDb xkern discriminated.
#[export] Hint Resolve u8_range u16_range u32_range u64_range : xkern.

(** ** Characters and C strings

    A character is a byte; a string held in a C array is the list of its
    bytes before the terminating NUL. *)
Definition ch (a : Ascii.ascii) : Z := Z.of_N (Ascii.N_of_ascii a).
#[global] Arguments ch a%_char_scope.
Definition str (s : string) : list Z := ch <$> String.list_ascii_of_string s.

Ltac ch_consts :=
  repeat match goal with
  | |- context [ch ?a] =>
      let v := eval vm_compute in (ch a) in change (ch a) with v
  | H : context [ch ?a] |- _ =>
      let v := eval vm_compute in (ch a) in change (ch a) with v in H
  end.

(** ** Outcomes of C code

    [Ret]: the code returns.  [Fault]: it performs an access outside the
    memory it may touch, or another operation the language leaves undefined.
    [Spin]: the fuel given to a loop did not suffice. *)
Inductive run (A : Type) : Type :=
  | Ret (a : A)
  | Fault
  | Spin.
Arguments Ret {A} a.
Arguments Fault {A}.
Arguments Spin {A}.

#[global] Instance run_ret : MRet run := @Ret.
#[global] Instance run_bind : MBind run := fun A B f m =>
  match m with Ret a => f a | Fault => Fault | Spin => Spin end.
#[global] Instance run_fmap : FMap run := fun A B f m =>
  match m with Ret a => Ret (f a) | Fault => Fault | Spin => Spin end.

Lemma bind_ret {A B} (a : A) (f : A -> run B) : (x ← Ret a; f x) = f a.
Proof. done. Qed.
Lemma bind_fault {A B} (f : A -> run B) : (x ← Fault; f x) = Fault.
Proof. done. Qed.

Lemma bind_assoc {A B C} (m : run A) (f : A -> run B) (g : B -> run C) :
  (y ← (x ← m; f x); g y) = (x ← m; y ← f x; g y).
Proof. by destruct m. Qed.

Definition of_option {A} (o : option A) : run A :=
  match o with Some a => Ret a | None => Fault end.

(** Signed arithmetic: a result outside the type's range is undefined. *)
Definition int32 (x : Z) : run Z :=
  if (- 2 ^ 31 <=? x) && (x <? 2 ^ 31) then Ret x else Fault.
Definition int64 (x : Z) : run Z :=
  if (- 2 ^ 63 <=? x) && (x <? 2 ^ 63) then Ret x else Fault.

Lemma int32_ok x : - 2 ^ 31 <= x < 2 ^ 31 -> int32 x = Ret x.
Proof. intros. unfold int32. by rewrite (proj2 (Z.leb_le _ _)), (proj2 (Z.ltb_lt _ _)) by lia. Qed.
Lemma int64_ok x : - 2 ^ 63 <= x < 2 ^ 63 -> int64 x = Ret x.
Proof. intros. unfold int64. by rewrite (proj2 (Z.leb_le _ _)), (proj2 (Z.ltb_lt _ _)) by lia. Qed.

(** The C loop: [body] either goes round again with a new state ([inl]) or
    leaves the loop with a result ([inr]).  The fuel is a binary number, so
    that a bound such as [2^66] costs nothing: [rounds p] runs at most [p]
    rounds and stops at the first one that leaves the loop. *)
Fixpoint rounds {S A} (p : positive) (body : S -> run (S + A)) (s : S)
    : run (S + A) :=
  let again (q : positive) (r : run (S + A)) :=
    x ← r; match x with inl s' => rounds q body s' | inr a => Ret (inr a) end in
  match p with
  | xH => body s
  | xO q => again q (rounds q body s)
  | xI q => again q (again q (body s))
  end.

(** Every loop of the code runs fewer than [2^66] rounds. *)
Definition FUEL : positive := (2 ^ 66)%positive.

Definition loop {S A} (body : S -> run (S + A)) (s : S) : run A :=
  x ← rounds FUEL body s;
  match x with inl _ => Spin | inr a => Ret a end.

(** Equations between states: split the tuples, close the integer parts. *)
Ltac tuple_eq :=
  repeat match goal with
  | |- Ret _ = Ret _ => f_equal
  | |- inl _ = inl _ => f_equal
  | |- inr _ = inr _ => f_equal
  | |- Some _ = Some _ => f_equal
  | |- (_, _) = (_, _) => apply (f_equal2 pair)
  end; try lia; try done.

(** How a round can end a loop: with a result, or with a fault. *)
Definition leave {S A} (o : option A) : run (S + A) :=
  match o with Some a => Ret (inr a) | None => Fault end.

(** The rounds of a loop whose body keeps [P], decreases the measure [m] when
    it goes round again and establishes [Q] when it leaves. *)
Lemma rounds_leave {S A} (P : S -> Prop) (Q : option A -> Prop) (m : S -> Z) body :
  (forall s, P s ->
     (exists s', body s = Ret (inl s') /\ P s' /\ 0 <= m s' < m s) \/
     (exists o, body s = leave o /\ Q o)) ->
  forall p s, P s ->
    (exists s', rounds p body s = Ret (inl s') /\ P s' /\
                0 <= m s' <= m s - Z.pos p) \/
    (exists o, rounds p body s = leave o /\ Q o).
Proof.
  intros Hbody p. induction p as [p IH|p IH|]; intros s HP; cbn [rounds].
  - destruct (Hbody s HP) as [(s1 & -> & HP1 & ?) | ([] & -> & ?)]; cbn;
      [| right; eexists (Some _); eauto | right; exists None; eauto].
    destruct (IH s1 HP1) as [(s2 & -> & HP2 & ?) | ([] & -> & ?)]; cbn;
      [| right; eexists (Some _); eauto | right; exists None; eauto].
    destruct (IH s2 HP2) as [(s3 & -> & HP3 & ?) | ?]; [|eauto].
    left. exists s3. repeat split; try done; lia.
  - destruct (IH s HP) as [(s1 & -> & HP1 & ?) | ([] & -> & ?)]; cbn;
      [| right; eexists (Some _); eauto | right; exists None; eauto].
    destruct (IH s1 HP1) as [(s2 & -> & HP2 & ?) | ?]; [|eauto].
    left. exists s2. repeat split; try done; lia.
  - destruct (Hbody s HP) as [(s1 & -> & HP1 & ?) | ?]; [|eauto].
    left. exists s1. repeat split; try done; lia.
Qed.

Lemma loop_leave {S A} (P : S -> Prop) (Q : option A -> Prop) (m : S -> Z) body s :
  (forall s, P s ->
     (exists s', body s = Ret (inl s') /\ P s' /\ 0 <= m s' < m s) \/
     (exists o, body s = leave o /\ Q o)) ->
  P s -> m s < 2 ^ 66 ->
  exists o, loop body s = of_option o /\ Q o.
Proof.
  intros Hbody HP Hm. unfold loop.
  destruct (rounds_leave P Q m body Hbody FUEL s HP)
    as [(s' & -> & _ & ?) | (o & -> & ?)].
  - change (Z.pos FUEL) with (2 ^ 66) in *. lia.
  - exists o. destruct o; eauto.
Qed.

(** Total correctness of [loop]. *)
Lemma loop_total {S A} (P : S -> Prop) (Q : A -> Prop) (m : S -> Z) body s :
  (forall s, P s ->
     (exists s', body s = Ret (inl s') /\ P s' /\ 0 <= m s' < m s) \/
     (exists a, body s = Ret (inr a) /\ Q a)) ->
  P s -> m s < 2 ^ 66 ->
  exists a, loop body s = Ret a /\ Q a.
Proof.
  intros Hbody HP Hm.
  destruct (loop_leave P (fun o => exists a, o = Some a /\ Q a) m body s)
    as (o & -> & a & -> & ?); [|done..|eauto].
  intros s0 HP0. destruct (Hbody s0 HP0) as [?|(a & -> & ?)]; [auto|].
  right. exists (Some a). eauto.
Qed.

(** Apply [loop_total] to the loop of the goal, with the invariant [P], the
    exit condition [Q] and the measure [m]. *)
Tactic Notation "loop_with" uconstr(P) uconstr(Q) uconstr(m)
    "as" simple_intropattern(pat) :=
  lazymatch goal with
  | |- context [loop ?b ?s] => destruct (loop_total P Q m b s) as pat
  end.

(** A loop that can only go round again or fault, faults. *)
Lemma loop_fault {S A} (P : S -> Prop) (m : S -> Z) (body : S -> run (S + A)) s :
  (forall s, P s ->
     (exists s', body s = Ret (inl s') /\ P s' /\ 0 <= m s' < m s) \/
     body s = Fault) ->
  P s -> m s < 2 ^ 66 -> loop body s = Fault.
Proof.
  intros Hbody HP Hm.
  destruct (loop_leave P (fun o => o = None) m body s) as (o & -> & ->); [|done..].
  intros s0 HP0. destruct (Hbody s0 HP0) as [?| ->]; [auto|].
  right. exists None. eauto.
Qed.

(** Rounds that go on by [step] until one of them leaves. *)
Lemma rounds_step {S A} (step : S -> S) (body : S -> run (S + A)) :
  (forall s, body s = Ret (inl (step s)) \/ exists a, body s = Ret (inr a)) ->
  forall p s, (rounds p body s = Ret (inl (Nat.iter (Pos.to_nat p) step s)) /\ forall n, (n < Pos.to_nat p)%nat -> body (Nat.iter n step s) = Ret (inl (Nat.iter (n + 1) step s))) \/
    exists a, rounds p body s = Ret (inr a).
Proof.
  intros Hb p.
  assert (one : forall s, (body s = Ret (inl (Nat.iter 1 step s)) /\ forall n, (n < 1)%nat -> body (Nat.iter n step s) = Ret (inl (Nat.iter (n + 1) step s))) \/ exists a, body s = Ret (inr a)).
  { intros s. destruct (Hb s) as [E|]; [left|by right]. split; [exact E|]. intros n Hn. replace n with 0%nat by lia. exact E. }
  assert (join : forall i j s s1, s1 = Nat.iter i step s -> (forall n, (n < i)%nat -> body (Nat.iter n step s) = Ret (inl (Nat.iter (n + 1) step s))) ->
    (forall n, (n < j)%nat -> body (Nat.iter n step s1) = Ret (inl (Nat.iter (n + 1) step s1))) ->
    forall n, (n < j + i)%nat -> body (Nat.iter n step s) = Ret (inl (Nat.iter (n + 1) step s))).
  { intros i j s s1 -> H1 H2 n Hn. destruct (decide (n < i)%nat); [by apply H1|]. specialize (H2 (n - i)%nat ltac:(lia)). rewrite <- !Nat.iter_add in H2.
    replace (n - i + i)%nat with n in H2 by lia. by replace (n - i + 1 + i)%nat with (n + 1)%nat in H2 by lia. }
  induction p as [p IH|p IH|]; intros s; cbn [rounds].
  - rewrite Pos2Nat.inj_xI. destruct (one s) as [[-> H1]|[a ->]]; [|right; by eexists]. cbn [mbind run_bind]. set (s1 := Nat.iter 1 step s) in *.
    destruct (IH s1) as [[-> H2]|[a ->]]; [|right; by eexists]. cbn [mbind run_bind]. set (s2 := Nat.iter _ step s1) in *.
    destruct (IH s2) as [[-> H3]|[a ->]]; [|right; by eexists]. left. subst s2 s1. rewrite <- !Nat.iter_add. replace (Datatypes.S (2 * Pos.to_nat p)) with (Pos.to_nat p + (Pos.to_nat p + 1))%nat by lia. split; [by rewrite ?Nat.add_assoc|].
    apply (join (Pos.to_nat p + 1)%nat (Pos.to_nat p) s _ eq_refl); [by apply (join 1%nat (Pos.to_nat p) s _ eq_refl)|]. by rewrite Nat.iter_add.
  - rewrite Pos2Nat.inj_xO. destruct (IH s) as [[-> H1]|[a ->]]; [|right; by eexists]. cbn [mbind run_bind]. destruct (IH (Nat.iter (Pos.to_nat p) step s)) as [[-> H2]|[a ->]]; [|right; by eexists].
    left. rewrite <- Nat.iter_add. replace (2 * Pos.to_nat p)%nat with (Pos.to_nat p + Pos.to_nat p)%nat by lia. split; [done|]. by apply (join (Pos.to_nat p) (Pos.to_nat p) s _ eq_refl).
  - apply one.
Qed.

Lemma loop_leaves {S A} (step : S -> S) (body : S -> run (S + A)) s n :
  (forall s, body s = Ret (inl (step s)) \/ exists a, body s = Ret (inr a)) -> Z.of_nat n < 2 ^ 66 -> (exists a, body (Nat.iter n step s) = Ret (inr a)) -> exists a, loop body s = Ret a.
Proof.
  intros Hb Hn [a Ha]. unfold loop. destruct (rounds_step step body Hb FUEL s) as [[_ H]|[b ->]]; [|by exists b].
  rewrite H in Ha; [done|]. apply Nat2Z.inj_lt. rewrite positive_nat_Z. exact Hn.
Qed.

(** A loop whose body always goes round again, from [s] to an [R]-state. *)
Lemma rounds_forever {S A} (R : S -> Prop) (body : S -> run (S + A)) :
  (forall s, R s -> exists s', body s = Ret (inl s') /\ R s') ->
  forall p s, R s -> exists s', rounds p body s = Ret (inl s') /\ R s'.
Proof.
  intros Hbody p. induction p as [p IH|p IH|]; intros s Hs; cbn [rounds].
  - destruct (Hbody s Hs) as (s1 & -> & H1). cbn. destruct (IH s1 H1) as (s2 & -> & H2). cbn. auto.
  - destruct (IH s Hs) as (s1 & -> & H1). cbn. auto.
  - auto.
Qed.

Lemma loop_forever {S A} (R : S -> Prop) (body : S -> run (S + A)) s :
  (forall s, R s -> exists s', body s = Ret (inl s') /\ R s') -> R s -> loop body s = Spin.
Proof. intros Hb Hs. unfold loop. by destruct (rounds_forever R body Hb FUEL s Hs) as (s' & -> & _). Qed.

(** Conversion never unrolls a loop, nor computes in [Z], before everything
    else. *)
Strategy opaque [loop rounds].
Strategy 1000 [Z.add Z.sub Z.mul Z.div Z.modulo Z.min Z.max Z.pow Z.land Z.lor
  Z.shiftl Z.shiftr Z.opp Z.of_nat Z.to_nat Z.eqb Z.ltb Z.leb Z.compare].
#[global] Arguments loop : simpl never.
#[global] Arguments rounds : simpl never.

(** ** Lists *)

Lemma filter_all {A} (P : A -> Prop) `{!forall x, Decision (P x)} (l : list A) :
  (forall x, x ∈ l -> P x) -> filter P l = l.
Proof.
  induction l as [|x l IH]; intros Hl; [done|].
  rewrite filter_cons_True by (apply Hl; left). f_equal.
  apply IH. intros y Hy. apply Hl. by right.
Qed.

Lemma filter_length_le {A} (P Q : A -> Prop) `{!forall x, Decision (P x)} `{!forall x, Decision (Q x)} (l : list A) :
  (forall x, x ∈ l -> P x -> Q x) -> (length (filter P l) <= length (filter Q l))%nat.
Proof.
  induction l as [|x l IH]; intros HPQ; [done|]. specialize (IH (fun y Hy => HPQ y (list_elem_of_further _ _ _ Hy))).
  rewrite !filter_cons. pose proof (HPQ x (list_elem_of_here _ _)). repeat case_decide; cbn; try lia. tauto.
Qed.

Lemma filter_length_lt {A} (P Q : A -> Prop) `{!forall x, Decision (P x)} `{!forall x, Decision (Q x)} (l : list A) a :
  (forall x, x ∈ l -> P x -> Q x) -> a ∈ l -> Q a -> ~ P a -> (length (filter P l) < length (filter Q l))%nat.
Proof.
  induction l as [|x l IH]; intros HPQ Ha HQ HP; [by apply elem_of_nil in Ha|].
  assert (forall y, y ∈ l -> P y -> Q y) as H' by (intros; apply HPQ; [by right|done]).
  rewrite !filter_cons. apply elem_of_cons in Ha as [->|Ha].
  - rewrite decide_False, decide_True by done. pose proof (filter_length_le P Q l H'). cbn. lia.
  - specialize (IH H' Ha HQ HP). pose proof (HPQ x (list_elem_of_here _ _)). repeat case_decide; cbn; try lia. tauto.
Qed.

Lemma take_seqZ (n : nat) m : Z.of_nat n <= m -> take n (seqZ 0 m) = seqZ 0 (Z.of_nat n).
Proof.
  intros Hle. replace m with (Z.of_nat n + (m - Z.of_nat n)) by lia.
  rewrite seqZ_app by lia. apply take_app_length'. rewrite length_seqZ. lia.
Qed.

(** ** Little-endian words in byte lists *)
Fixpoint le_bytes (n : nat) (v : Z) : list Z :=
  match n with
  | O => []
  | S n => u8 v :: le_bytes n (v / 256)
  end.

Fixpoint le_val (l : list Z) : Z :=
  match l with
  | [] => 0
  | b :: l => b + 256 * le_val l
  end.

Lemma length_le_bytes n v : length (le_bytes n v) = n.
Proof. revert v. induction n; cbn; auto. Qed.

Lemma le_bytes_ok n v : Forall byte_ok (le_bytes n v).
Proof.
  revert v. induction n as [|n IH]; cbn; intros v; constructor; [|apply IH].
  ilia.
Qed.

Lemma le_val_bound l :
  Forall byte_ok l -> 0 <= le_val l < 256 ^ Z.of_nat (length l).
Proof.
  induction 1 as [|b l Hb _ IH]; cbn [le_val length]; [lia|].
  rewrite Nat2Z.inj_succ, Z.pow_succ_r by lia. unfold byte_ok in Hb. lia.
Qed.

Lemma le_val_bytes n v : le_val (le_bytes n v) = v mod 256 ^ Z.of_nat n.
Proof.
  revert v. induction n as [|n IH]; intros v; cbn [le_val le_bytes].
  { by rewrite Z.mod_1_r. }
  rewrite IH, Nat2Z.inj_succ, Z.pow_succ_r by lia.
  rewrite Z.rem_mul_r by lia. unfold u8. done.
Qed.

Lemma le_bytes_val l : Forall byte_ok l -> le_bytes (length l) (le_val l) = l.
Proof.
  induction 1 as [|b l Hb _ IH]; cbn [le_val le_bytes length]; [done|].
  f_equal; [ilia|].
  replace ((b + 256 * le_val l) / 256) with (le_val l) by ilia. exact IH.
Qed.

(** ** Bytes of a buffer *)

(** [bs] in place of the bytes from [off] on. *)
Definition splice (off : nat) (bs l : list Z) : list Z := take off l ++ bs ++ drop (off + length bs) l.

Definition buf_store (off : Z) (bs buf : list Z) : run (list Z) :=
  if (0 <=? off) && (off + Z.of_nat (length bs) <=? Z.of_nat (length buf)) then Ret (splice (Z.to_nat off) bs buf) else Fault.

Definition buf_slice (off n : Z) (buf : list Z) : run (list Z) :=
  if (0 <=? off) && (0 <=? n) && (off + n <=? Z.of_nat (length buf)) then Ret (take (Z.to_nat n) (drop (Z.to_nat off) buf)) else Fault.

Lemma length_splice o bs l : (o + length bs <= length l)%nat -> length (splice o bs l) = length l.
Proof. intros. unfold splice. rewrite !length_app, length_take, length_drop. lia. Qed.

Lemma splice_nil o l : splice o [] l = l.
Proof. unfold splice. cbn. rewrite Nat.add_0_r. apply take_drop. Qed.

Lemma splice_splice o a b l :
  (o + length a + length b <= length l)%nat -> splice (o + length a) b (splice o a l) = splice o (a ++ b) l.
Proof.
  intros Hl. assert (length (take o l ++ a) = (o + length a)%nat) as Ht by (rewrite length_app, length_take; lia).
  unfold splice at 2. rewrite app_assoc. unfold splice at 1. rewrite <- Ht at 1. rewrite take_app_length.
  rewrite drop_app_ge by lia. rewrite Ht, drop_drop. unfold splice. rewrite <- !app_assoc, length_app. do 4 f_equal. lia.
Qed.

Lemma buf_store_ok off bs buf :
  0 <= off -> off + Z.of_nat (length bs) <= Z.of_nat (length buf) -> buf_store off bs buf = Ret (splice (Z.to_nat off) bs buf).
Proof. intros. unfold buf_store. by rewrite !(proj2 (Z.leb_le _ _)) by lia. Qed.

Lemma buf_slice_ok off n buf :
  0 <= off -> 0 <= n -> off + n <= Z.of_nat (length buf) -> buf_slice off n buf = Ret (take (Z.to_nat n) (drop (Z.to_nat off) buf)).
Proof. intros. unfold buf_slice. by rewrite !(proj2 (Z.leb_le _ _)) by lia. Qed.
