(* ===== verification/CString.v ===== *)
(** * libkern/libkern/string.c: the kernel's memory and string routines

    The routines run on a byte-addressed memory, a finite map from addresses
    to bytes; an access to an address outside the map is a [Fault].  Pointers
    are addresses.  [MemOps] holds the memory primitives; then one definition
    per C function.  The theorems give the exact
    final memory or result of each routine on C strings and byte regions,
    including what [strncpy] and [strncat] do at their limits. *)

From S2P Require Import Prelude.

Abbreviation mem := (gmap Z Z).

(** ** Memory primitives *)
Module MemOps.

Definition load (m : mem) (a : Z) : run Z := of_option (m !! a).

Definition store (m : mem) (a v : Z) : run mem :=
  match m !! a with Some _ => Ret (<[a := u8 v]> m) | None => Fault end.

Fixpoint load_bytes (k : nat) (m : mem) (a : Z) : run (list Z) :=
  match k with
  | O => Ret []
  | S k => b ← load m a; l ← load_bytes k m (a + 1); Ret (b :: l)
  end.

Fixpoint store_bytes (m : mem) (a : Z) (l : list Z) : run mem :=
  match l with
  | [] => Ret m
  | b :: l => m' ← store m a b; store_bytes m' (a + 1) l
  end.

(** A [k]-byte little-endian word access. *)
Definition load_word (k : nat) (m : mem) (a : Z) : run Z :=
  le_val <$> load_bytes k m a.
Definition store_word (k : nat) (m : mem) (a v : Z) : run mem :=
  store_bytes m a (le_bytes k v).

(** The memory after the bytes [l] were written at [a]. *)
Fixpoint poke (m : mem) (a : Z) (l : list Z) : mem :=
  match l with
  | [] => m
  | b :: l => poke (<[a := b]> m) (a + 1) l
  end.

(** [l] is what the memory holds at [a]. *)
Definition region (m : mem) (a : Z) (l : list Z) : Prop :=
  forall i b, l !! i = Some b -> m !! (a + Z.of_nat i) = Some b.

(** The [n] bytes at [a] may be accessed. *)
Definition mapped (m : mem) (a n : Z) : Prop :=
  forall x, a <= x < a + n -> is_Some (m !! x).

(** A NUL-terminated string with contents [l] lies at [a]. *)
Definition cstr_at (m : mem) (a : Z) (l : list Z) : Prop :=
  region m a (l ++ [0]) /\ Forall char_ok l.

End MemOps.
Import MemOps.

(** ** The routines *)

(** [while (n >= k) { *dw++ = *sw++; n -= k; }] with [k]-byte words. *)
Definition copy_words (k : Z) (st : mem * Z * Z * Z) : run (mem * Z * Z * Z) :=
  loop (fun '(m, d, s, n) =>
    if k <=? n then
      v ← load_word (Z.to_nat k) m s;
      m' ← store_word (Z.to_nat k) m d v;
      Ret (inl (m', d + k, s + k, u32 (n - k)))
    else Ret (inr (m, d, s, n))) st.

(** [while (n--) *d++ = *s++;] *)
Definition copy_bytes (st : mem * Z * Z * Z) : run (mem * Z * Z * Z) :=
  loop (fun '(m, d, s, n) =>
    if n =? 0 then Ret (inr (m, d, s, n))
    else b ← load m s; m' ← store m d b;
         Ret (inl (m', d + 1, s + 1, u32 (n - 1)))) st.

(** [if ((d | s) & (k - 1)) == 0)] copy by [k]-byte words. *)
Definition copy_aligned (k : Z) (st : mem * Z * Z * Z) : run (mem * Z * Z * Z) :=
  let '(_, d, s, _) := st in
  if Z.land (Z.lor d s) (k - 1) =? 0 then copy_words k st else Ret st.

Definition memcpy (m : mem) (dest src n : Z) : run (Z * mem) :=
  st ← copy_aligned 8 (m, dest, src, n);
  st ← copy_aligned 4 st;
  '(m, _, _, _) ← copy_bytes st;
  Ret (dest, m).

Definition memmove (m : mem) (dest src n : Z) : run (Z * mem) :=
  if dest =? src then Ret (dest, m)
  else if dest <? src then memcpy m dest src n
  else
    m ← loop (fun '(m, d, s, n) =>
      if n =? 0 then Ret (inr m)
      else b ← load m (s - 1); m' ← store m (d - 1) b;
           Ret (inl (m', d - 1, s - 1, u32 (n - 1))))
      (m, dest + n, src + n, n);
    Ret (dest, m).

(** [while (n >= 4) { *(u32 * )p = (u32)c8; p += 4; n -= 4; }] *)
Definition fill_words (c : Z) (st : mem * Z * Z) : run (mem * Z * Z) :=
  loop (fun '(m, p, n) =>
    if 4 <=? n then
      m' ← store_word 4 m p (u32 (u64 (u8 c * 0x0101010101010101)));
      Ret (inl (m', p + 4, u32 (n - 4)))
    else Ret (inr (m, p, n))) st.

(** [while (n--) *p++ = (unsigned char)c;] *)
Definition fill_bytes (c : Z) (st : mem * Z * Z) : run mem :=
  loop (fun '(m, p, n) =>
    if n =? 0 then Ret (inr m)
    else m' ← store m p c; Ret (inl (m', p + 1, u32 (n - 1)))) st.

Definition memset (m : mem) (s c n : Z) : run (Z * mem) :=
  st ← (if Z.land s 3 =? 0 then fill_words c (m, s, n) else Ret (m, s, n));
  m ← fill_bytes c st;
  Ret (s, m).

Definition memcmp (m : mem) (s1 s2 n : Z) : run Z :=
  loop (fun i =>
    if i <? n then
      a ← load m (s1 + i); b ← load m (s2 + i);
      if a =? b then Ret (inl (u32 (i + 1))) else Ret (inr (a - b))
    else Ret (inr 0)) 0.

Definition memchr (m : mem) (s c n : Z) : run (option Z) :=
  loop (fun i =>
    if i <? n then
      b ← load m (s + i);
      if b =? u8 c then Ret (inr (Some (s + i))) else Ret (inl (u32 (i + 1)))
    else Ret (inr None)) 0.

Definition strlen (m : mem) (s : Z) : run Z :=
  loop (fun n =>
    b ← load m (s + n);
    if b =? 0 then Ret (inr n) else Ret (inl (u32 (n + 1)))) 0.

Definition strcmp (m : mem) (s1 s2 : Z) : run Z :=
  loop (fun '(s1, s2) =>
    a ← load m s1; b ← load m s2;
    if negb (a =? 0) && (a =? b) then Ret (inl (s1 + 1, s2 + 1))
    else Ret (inr (a - b))) (s1, s2).

Definition strncmp (m : mem) (s1 s2 n : Z) : run Z :=
  loop (fun i =>
    if i <? n then
      a ← load m (s1 + i); b ← load m (s2 + i);
      if negb (a =? b) || (a =? 0) then Ret (inr (a - b))
      else Ret (inl (u32 (i + 1)))
    else Ret (inr 0)) 0.

(** [while (( *d++ = *src++));] *)
Definition copy_str (m : mem) (d src : Z) : run mem :=
  loop (fun '(m, d, s) =>
    b ← load m s; m' ← store m d b;
    if b =? 0 then Ret (inr m') else Ret (inl (m', d + 1, s + 1))) (m, d, src).

(** [while ( *d) d++;] *)
Definition str_end (m : mem) (d : Z) : run Z :=
  loop (fun d => b ← load m d; if b =? 0 then Ret (inr d) else Ret (inl (d + 1))) d.

Definition strcpy (m : mem) (dest src : Z) : run (Z * mem) :=
  m ← copy_str m dest src; Ret (dest, m).

(** The first loop's test [n--] decrements [n] also when it ends the loop;
    [n] is unsigned, so it is then [2^32 - 1]. *)
Definition copy_nstr (st : mem * Z * Z * Z) : run (mem * Z * Z) :=
  loop (fun '(m, d, s, n) =>
    if n =? 0 then Ret (inr (m, d, u32 (n - 1)))
    else b ← load m s; m' ← store m d b;
         if b =? 0 then Ret (inr (m', d + 1, u32 (n - 1)))
         else Ret (inl (m', d + 1, s + 1, u32 (n - 1)))) st.

Definition strncpy (m : mem) (dest src n : Z) : run (Z * mem) :=
  '(m, d, n) ← copy_nstr (m, dest, src, n);
  m ← (if n =? 0 then Ret m else fill_bytes 0 (m, d, n));
  Ret (dest, m).

Definition strcat (m : mem) (dest src : Z) : run (Z * mem) :=
  d ← str_end m dest; m ← copy_str m d src; Ret (dest, m).

Definition strncat (m : mem) (dest src n : Z) : run (Z * mem) :=
  d ← str_end m dest;
  m ← loop (fun '(m, i) =>
    if i <? n then
      b ← load m (src + i);
      if b =? 0 then Ret (inr m)
      else m' ← store m (d + i) b; Ret (inl (m', u32 (i + 1)))
    else Ret (inr m)) (m, 0);
  m ← store m (d + n) 0;
  Ret (dest, m).

Definition strchr (m : mem) (s c : Z) : run (option Z) :=
  loop (fun s =>
    b ← load m s;
    if b =? 0 then Ret (inr (if c =? 0 then Some s else None))
    else if b =? u8 c then Ret (inr (Some s)) else Ret (inl (s + 1))) s.

Definition strrchr (m : mem) (s c : Z) : run (option Z) :=
  loop (fun '(s, last) =>
    b ← load m s;
    if b =? 0 then Ret (inr (if c =? 0 then Some s else last))
    else Ret (inl (s + 1, if b =? u8 c then Some s else last))) (s, None).

(** [while ( *h && *n && *h == *n) { h++; n++; }], giving [!*n]. *)
Definition match_here (m : mem) (h n : Z) : run bool :=
  loop (fun '(h, n) =>
    a ← load m h; b ← load m n;
    if negb (a =? 0) && negb (b =? 0) && (a =? b) then Ret (inl (h + 1, n + 1))
    else Ret (inr (b =? 0))) (h, n).

Definition strstr (m : mem) (haystack needle : Z) : run (option Z) :=
  b ← load m needle;
  if b =? 0 then Ret (Some haystack)
  else loop (fun h =>
    a ← load m h;
    if a =? 0 then Ret (inr None)
    else found ← match_here m h needle;
      if (found : bool) then Ret (inr (Some h)) else Ret (inl (h + 1))) haystack.


(** ** Lemmas on the memory primitives *)

Lemma poke_lookup m a l x :
  poke m a l !! x =
  if decide (a <= x < a + Z.of_nat (length l))
  then l !! Z.to_nat (x - a) else m !! x.
Proof.
  revert m a. induction l as [|b l IH]; intros m a; cbn [poke length].
  { rewrite decide_False by lia. done. }
  rewrite IH. destruct (decide (x = a)) as [->|Hne].
  - rewrite decide_False, decide_True by lia.
    rewrite Z.sub_diag. apply lookup_insert_eq.
  - rewrite lookup_insert_ne by done.
    case_decide; case_decide; try lia; [|done].
    replace (Z.to_nat (x - a)) with (S (Z.to_nat (x - (a + 1)))) by lia. done.
Qed.

Lemma poke_app m a l1 l2 :
  poke m a (l1 ++ l2) = poke (poke m a l1) (a + Z.of_nat (length l1)) l2.
Proof.
  revert m a. induction l1 as [|b l1 IH]; intros m a; cbn.
  - by rewrite Z.add_0_r.
  - rewrite IH. f_equal. lia.
Qed.

Lemma mapped_poke m a l x n : mapped m x n -> mapped (poke m a l) x n.
Proof.
  intros Hm y Hy. rewrite poke_lookup. case_decide; [|by apply Hm].
  apply lookup_lt_is_Some. lia.
Qed.

Lemma mapped_sub m a n a' n' :
  mapped m a n -> a <= a' -> a' + n' <= a + n -> mapped m a' n'.
Proof. intros Hm ?? x ?. apply Hm. lia. Qed.

Lemma region_poke m a l : region (poke m a l) a l.
Proof.
  intros i b Hi. pose proof (lookup_lt_Some _ _ _ Hi).
  rewrite poke_lookup, decide_True by lia.
  by replace (Z.to_nat (a + Z.of_nat i - a)) with i by lia.
Qed.

Lemma region_poke_ne m a l x l' :
  region m x l' ->
  (x + Z.of_nat (length l') <= a \/ a + Z.of_nat (length l) <= x) ->
  region (poke m a l) x l'.
Proof.
  intros Hr Hdis i b Hi. pose proof (lookup_lt_Some _ _ _ Hi).
  rewrite poke_lookup, decide_False by lia. by apply Hr.
Qed.

Lemma region_app m a l1 l2 :
  region m a (l1 ++ l2) <->
  region m a l1 /\ region m (a + Z.of_nat (length l1)) l2.
Proof.
  split.
  - intros H. split; intros i b Hi.
    + apply H. by apply lookup_app_l_Some.
    + replace (a + Z.of_nat (length l1) + Z.of_nat i)
        with (a + Z.of_nat (length l1 + i)) by lia.
      apply H. rewrite lookup_app_r by lia.
      by replace (length l1 + i - length l1)%nat with i by lia.
  - intros [H1 H2] i b [Hi|[Hl Hi]]%lookup_app_Some; [by apply H1|].
    apply H2 in Hi. by replace (a + Z.of_nat i)
      with (a + Z.of_nat (length l1) + Z.of_nat (i - length l1)) by lia.
Qed.

Lemma region_cons m a b l :
  region m a (b :: l) <-> m !! a = Some b /\ region m (a + 1) l.
Proof.
  rewrite (region_app m a [b] l). cbn. split; intros [H1 H2]; split; try done.
  - specialize (H1 O b eq_refl). by rewrite Z.add_0_r in H1.
  - intros [|i] c; cbn; [|done]. intros [= <-]. by rewrite Z.add_0_r.
Qed.

Lemma load_region m a b l : region m a (b :: l) -> load m a = Ret b.
Proof. intros [H _]%region_cons. unfold load. by rewrite H. Qed.

Lemma region_drop m a l i :
  (i <= length l)%nat -> region m a l -> region m (a + Z.of_nat i) (drop i l).
Proof.
  intros Hi H. rewrite <- (take_drop i l) in H.
  apply region_app in H as [_ H]. by rewrite length_take_le in H by done.
Qed.

Lemma load_at m a l i b :
  region m a l -> l !! i = Some b -> load m (a + Z.of_nat i) = Ret b.
Proof. intros H Hi. unfold load. by rewrite (H i b Hi). Qed.

Lemma load_bytes_region m a l :
  region m a l -> load_bytes (length l) m a = Ret l.
Proof.
  revert a. induction l as [|b l IH]; intros a H; [done|]. cbn [load_bytes length].
  rewrite (load_region _ _ _ _ H). apply region_cons in H as [_ H].
  cbn. by rewrite IH.
Qed.

Lemma store_mapped m a b :
  is_Some (m !! a) -> byte_ok b -> store m a b = Ret (<[a := b]> m).
Proof.
  intros [c Hc] Hb. unfold store. rewrite Hc, u8_small by done. done.
Qed.

Lemma store_bytes_poke m a l :
  mapped m a (Z.of_nat (length l)) -> Forall byte_ok l ->
  store_bytes m a l = Ret (poke m a l).
Proof.
  intros Hm Hl. revert m a Hm. induction Hl as [|b l Hb Hl IH]; intros m a Hm; [done|].
  cbn [store_bytes poke].
  rewrite store_mapped by (try done; apply Hm; cbn; lia). cbn. apply IH.
  intros x Hx. destruct (decide (a = x)) as [->|]; [by rewrite lookup_insert_eq|].
  rewrite lookup_insert_ne by done. apply Hm. cbn in *. lia.
Qed.

(** ** Forward copying: memcpy

    [fwd i] is the state of the copying loops after [i] bytes. *)
Section Forward.
Context (m : mem) (d s : Z) (l : list Z).
Context (Hsrc : region m s l) (Hok : Forall byte_ok l).
Context (Hdst : mapped m d (Z.of_nat (length l))).
Context (Hlen : Z.of_nat (length l) < 2 ^ 32).
Context (Hdir : d <= s \/ s + Z.of_nat (length l) <= d).

Definition fwd (i : nat) : mem * Z * Z * Z :=
  (poke m d (take i l), d + Z.of_nat i, s + Z.of_nat i,
   Z.of_nat (length l) - Z.of_nat i).

Lemma fwd_src i :
  (i <= length l)%nat ->
  region (poke m d (take i l)) (s + Z.of_nat i) (drop i l).
Proof.
  intros Hi. apply region_poke_ne; [by apply region_drop|].
  rewrite length_drop, length_take_le by done. lia.
Qed.

Lemma fwd_step k i :
  (i + k <= length l)%nat ->
  load_word k (poke m d (take i l)) (s + Z.of_nat i)
    = Ret (le_val (take k (drop i l))) /\
  store_word k (poke m d (take i l)) (d + Z.of_nat i) (le_val (take k (drop i l)))
    = Ret (poke m d (take (i + k) l)).
Proof.
  intros Hi.
  assert (Hk : length (take k (drop i l)) = k)
    by (rewrite length_take_le; [done | rewrite length_drop; lia]).
  pose proof (fwd_src i ltac:(lia)) as Hr.
  rewrite <- (take_drop k (drop i l)) in Hr. apply region_app in Hr as [Hr _].
  assert (Hb : Forall byte_ok (take k (drop i l)))
    by (by apply Forall_take, Forall_drop).
  split.
  - unfold load_word. rewrite <- Hk at 1. by rewrite load_bytes_region.
  - unfold store_word. rewrite <- Hk at 1. rewrite le_bytes_val by done.
    rewrite store_bytes_poke; [|apply mapped_poke | done].
    + f_equal. rewrite <- take_take_drop, poke_app. f_equal.
      rewrite length_take_le by lia. done.
    + rewrite Hk. eapply mapped_sub; [done | lia | lia].
Qed.

Lemma fwd_words k i :
  (0 < k <= 8)%nat -> (i <= length l)%nat ->
  exists j, copy_words (Z.of_nat k) (fwd i) = Ret (fwd j) /\
    (i <= j <= length l)%nat /\ Z.of_nat (length l) - Z.of_nat j < Z.of_nat k.
Proof.
  intros Hk Hi. unfold copy_words.
  edestruct (loop_total
    (fun st => exists j, (i <= j <= length l)%nat /\ st = fwd j)
    (fun st => exists j, (i <= j <= length l)%nat /\ st = fwd j /\
       Z.of_nat (length l) - Z.of_nat j < Z.of_nat k)
    (fun st => let '(_, _, _, n) := st in n)) as (st & Hst & j & Hj & -> & Hlt);
    [| by exists i | cbn; lia | eauto].
  intros st (j & Hj & ->). unfold fwd at 1 4. cbn -[fwd].
  destruct (Z.leb_spec (Z.of_nat k) (Z.of_nat (length l) - Z.of_nat j)).
  - left. exists (fwd (j + k)). rewrite Nat2Z.id.
    destruct (fwd_step k j ltac:(lia)) as [-> H2]. cbn. rewrite H2. cbn.
    rewrite u32_small by lia. split_and!; [|exists (j + k)%nat; split; [lia|done] | |];
      [| unfold fwd; lia..].
    unfold fwd. tuple_eq.
  - right. exists (fwd j). split; [done|]. exists j. auto.
Qed.

Lemma fwd_bytes i :
  (i <= length l)%nat -> copy_bytes (fwd i) = Ret (fwd (length l)).
Proof.
  intros Hi.
  enough (exists st, copy_bytes (fwd i) = Ret st /\ st = fwd (length l))
    as (st & -> & ->) by done.
  unfold copy_bytes.
  apply (loop_total (fun st => exists j, (j <= length l)%nat /\ st = fwd j) _
           (fun st => let '(_, _, _, n) := st in n));
    [| by exists i | cbn; lia].
  intros st (j & Hj & ->). unfold fwd at 1 4. cbn -[fwd].
  destruct (Z.eqb_spec (Z.of_nat (length l) - Z.of_nat j) 0).
  - right. exists (fwd j). split; [done|]. f_equal. lia.
  - left. destruct (lookup_lt_is_Some_2 l j ltac:(lia)) as [b Hb].
    exists (fwd (S j)). pose proof (fwd_src j Hj) as Hr.
    rewrite (drop_S _ _ _ Hb) in Hr. rewrite (load_region _ _ _ _ Hr). cbn.
    assert (byte_ok b) by (by apply (Forall_lookup_1 _ _ _ _ Hok Hb)).
    rewrite store_mapped;
      [| apply mapped_poke with d (Z.of_nat (length l)); [done | lia] | done].
    cbn. rewrite u32_small by lia. split_and!; [|exists (S j); split; [lia|done] | |];
      [| unfold fwd; lia..].
    unfold fwd. rewrite (take_S_r _ _ _ Hb), poke_app, length_take_le by done. cbn [poke].
    tuple_eq.
Qed.

Lemma fwd_aligned k i :
  (0 < k <= 8)%nat -> (i <= length l)%nat ->
  exists j, copy_aligned (Z.of_nat k) (fwd i) = Ret (fwd j) /\
    (i <= j <= length l)%nat.
Proof.
  intros Hk Hi. unfold copy_aligned, fwd at 1. case_match; [|by exists i].
  destruct (fwd_words k i Hk Hi) as (j & Hj & ? & _). by exists j.
Qed.

Lemma memcpy_poke :
  memcpy m d s (Z.of_nat (length l)) = Ret (d, poke m d l).
Proof.
  unfold memcpy.
  replace (m, d, s, Z.of_nat (length l)) with (fwd 0)
    by (unfold fwd; cbn; tuple_eq).
  destruct (fwd_aligned 8 0 ltac:(lia) ltac:(lia)) as (i & Hi & ?).
  change (Z.of_nat 8) with 8 in Hi. rewrite Hi, bind_ret.
  destruct (fwd_aligned 4 i ltac:(lia) ltac:(lia)) as (j & Hj & ?).
  change (Z.of_nat 4) with 4 in Hj. rewrite Hj, bind_ret.
  rewrite fwd_bytes, bind_ret by lia. unfold fwd. by rewrite take_ge.
Qed.
End Forward.

(** ** Backward copying: memmove *)
Section Backward.
Context (m : mem) (d s : Z) (l : list Z).
Context (Hsrc : region m s l) (Hok : Forall byte_ok l).
Context (Hdst : mapped m d (Z.of_nat (length l))).
Context (Hlen : Z.of_nat (length l) < 2 ^ 32).
Context (Hdir : s < d).

(** The state of the loop when [i] bytes are left. *)
Definition bwd (i : nat) : mem * Z * Z * Z :=
  (poke m (d + Z.of_nat i) (drop i l), d + Z.of_nat i, s + Z.of_nat i, Z.of_nat i).

Lemma bwd_step i b :
  l !! i = Some b ->
  load (poke m (d + Z.of_nat (S i)) (drop (S i) l)) (s + Z.of_nat i) = Ret b /\
  store (poke m (d + Z.of_nat (S i)) (drop (S i) l)) (d + Z.of_nat i) b
    = Ret (poke m (d + Z.of_nat i) (drop i l)).
Proof.
  intros Hb. pose proof (lookup_lt_Some _ _ _ Hb). split.
  - unfold load. rewrite poke_lookup, length_drop, decide_False by lia.
    by rewrite (Hsrc i b Hb).
  - rewrite store_mapped.
    + f_equal. rewrite (drop_S _ _ _ Hb). cbn [poke]. apply map_eq. intros x.
      rewrite poke_lookup, length_drop. destruct (decide (x = d + Z.of_nat i)) as [->|].
      * rewrite decide_False, lookup_insert_eq by lia. by rewrite lookup_insert_eq.
      * rewrite !lookup_insert_ne by done. rewrite poke_lookup, length_drop.
        replace (d + Z.of_nat (S i)) with (d + Z.of_nat i + 1) by lia. done.
    + apply mapped_poke with d (Z.of_nat (length l)); [done | lia].
    + by apply (Forall_lookup_1 _ _ _ _ Hok Hb).
Qed.

Lemma memmove_back : memmove m d s (Z.of_nat (length l)) = Ret (d, poke m d l).
Proof.
  unfold memmove. rewrite (proj2 (Z.eqb_neq d s)), (proj2 (Z.ltb_ge d s)) by lia.
  edestruct (loop_total (fun st => exists i, (i <= length l)%nat /\ st = bwd i)
    (fun m' => m' = poke m d l) (fun st => let '(_, _, _, n) := st in n))
    as (m' & -> & ->); [| | |by rewrite bind_ret]; cycle 1.
  { exists (length l). split; [lia|]. unfold bwd. by rewrite drop_ge by lia. }
  { lia. }
  intros st (i & Hi & ->). unfold bwd. destruct i as [|i].
  - right. exists (poke m d l). split; [|done]. cbn. by rewrite Z.add_0_r.
  - left. exists (bwd i). rewrite (proj2 (Z.eqb_neq _ 0)) by lia.
    destruct (lookup_lt_is_Some_2 l i ltac:(lia)) as [b Hb].
    replace (s + Z.of_nat (S i) - 1) with (s + Z.of_nat i) by lia.
    replace (d + Z.of_nat (S i) - 1) with (d + Z.of_nat i) by lia.
    destruct (bwd_step i b Hb) as [-> H2]. rewrite bind_ret, H2, bind_ret.
    rewrite u32_small by lia. unfold bwd. split_and!; [tuple_eq | | lia..].
    exists i. split; [lia|]. tuple_eq.
Qed.
End Backward.

Lemma poke_id m a l : region m a l -> poke m a l = m.
Proof.
  revert m a. induction l as [|b l IH]; intros m a H; [done|].
  apply region_cons in H as [Ha H]. cbn. rewrite insert_id by done. by apply IH.
Qed.

Lemma memmove_poke m d s l :
  region m s l -> Forall byte_ok l -> mapped m d (Z.of_nat (length l)) ->
  Z.of_nat (length l) < 2 ^ 32 ->
  memmove m d s (Z.of_nat (length l)) = Ret (d, poke m d l).
Proof.
  intros Hs Hok Hd Hlen. destruct (Z.lt_trichotomy d s) as [Hlt|[->|Hgt]].
  - unfold memmove. rewrite (proj2 (Z.eqb_neq d s)), (proj2 (Z.ltb_lt d s)) by lia.
    apply memcpy_poke; auto. lia.
  - unfold memmove. rewrite Z.eqb_refl. by rewrite poke_id.
  - by apply memmove_back.
Qed.

(** ** Filling: memset *)
Lemma memset_word c : le_bytes 4 (u32 (u64 (u8 c * 0x0101010101010101))) = replicate 4 (u8 c).
Proof.
  pose proof (u8_range c). assert (0 <= u8 c < 256) as Hr by (pow2_consts; lia).
  assert (Hall : forallb (fun b =>
    bool_decide (le_bytes 4 (u32 (u64 (b * 0x0101010101010101))) = replicate 4 b))
    (seqZ 0 256) = true) by (vm_compute; reflexivity).
  rewrite forallb_forall in Hall.
  specialize (Hall (u8 c)). rewrite bool_decide_eq_true in Hall. apply Hall.
  apply list_elem_of_In, elem_of_seqZ. lia.
Qed.

Section Fill.
Context (m : mem) (s c : Z) (n : nat).
Context (Hdst : mapped m s (Z.of_nat n)) (Hlen : Z.of_nat n < 2 ^ 32).

Definition filled (i : nat) : mem * Z * Z :=
  (poke m s (replicate i (u8 c)), s + Z.of_nat i, Z.of_nat n - Z.of_nat i).

Lemma fill_step k i :
  (i + k <= n)%nat ->
  store_bytes (poke m s (replicate i (u8 c))) (s + Z.of_nat i) (replicate k (u8 c))
    = Ret (poke m s (replicate (i + k) (u8 c))).
Proof.
  intros Hik. rewrite store_bytes_poke.
  - by rewrite replicate_add, poke_app, length_replicate.
  - rewrite length_replicate.
    eapply mapped_poke, mapped_sub; [exact Hdst | lia | lia].
  - apply Forall_replicate. pose proof (u8_range c). unfold byte_ok. pow2_consts. lia.
Qed.

Lemma filled_words i :
  (i <= n)%nat -> exists j, fill_words c (filled i) = Ret (filled j) /\ (j <= n)%nat.
Proof.
  intros Hi. unfold fill_words.
  edestruct (loop_total (fun st => exists i, (i <= n)%nat /\ st = filled i)
    (fun st => exists i, (i <= n)%nat /\ st = filled i)
    (fun st => let '(_, _, n) := st in n)) as (st & Hst & j & Hj & ->);
    [| by exists i | cbn; lia | by exists j].
  intros st (j & Hj & ->). unfold filled. unfold store_word. rewrite memset_word.
  destruct (Z.leb_spec 4 (Z.of_nat n - Z.of_nat j)); [left|right; eauto].
  exists (filled (j + 4)). rewrite fill_step, bind_ret by lia.
  rewrite u32_small by lia. unfold filled. split_and!; [tuple_eq | | lia..].
  exists (j + 4)%nat. split; [lia|]. tuple_eq.
Qed.

Lemma filled_bytes i :
  (i <= n)%nat -> fill_bytes c (filled i) = Ret (poke m s (replicate n (u8 c))).
Proof.
  intros Hi. unfold fill_bytes.
  edestruct (loop_total (fun st => exists i, (i <= n)%nat /\ st = filled i)
    (fun m' => m' = poke m s (replicate n (u8 c)))
    (fun st => let '(_, _, n) := st in n)) as (m' & Hm & ->);
    [| by exists i | cbn; lia | exact Hm].
  intros st (j & Hj & ->). unfold filled.
  destruct (Z.eqb_spec (Z.of_nat n - Z.of_nat j) 0).
  - right. eexists. split; [done|]. by replace j with n by lia.
  - left. exists (filled (j + 1)). pose proof (fill_step 1 j ltac:(lia)) as Hf.
    cbn [store_bytes replicate] in Hf.
    assert (Hst : store (poke m s (replicate j (u8 c))) (s + Z.of_nat j) c
      = Ret (poke m s (replicate (j + 1) (u8 c)))).
    { rewrite <- Hf. unfold store.
      rewrite (u8_small (u8 c)) by apply u8_range. by case_match. }
    rewrite Hst, bind_ret, u32_small by lia. unfold filled.
    split_and!; [tuple_eq | | lia..]. exists (j + 1)%nat. split; [lia|]. tuple_eq.
Qed.

Lemma memset_poke :
  memset m s c (Z.of_nat n) = Ret (s, poke m s (replicate n (u8 c))).
Proof.
  unfold memset.
  replace (m, s, Z.of_nat n) with (filled 0) by (unfold filled; cbn; tuple_eq).
  case_match.
  - destruct (filled_words 0 ltac:(lia)) as (j & Hj & ?). rewrite Hj, bind_ret.
    by rewrite filled_bytes, bind_ret by lia.
  - by rewrite bind_ret, filled_bytes, bind_ret by lia.
Qed.
End Fill.

(** ** C strings as lists

    The routines on string contents; the components that only pass strings to
    [strcmp] and its kin use these, and the theorems below show that the
    memory-level routines compute them. *)
Module Ref.

Fixpoint strcmp (l1 l2 : list Z) : Z :=
  match l1, l2 with
  | [], [] => 0
  | [], b :: _ => 0 - b
  | a :: _, [] => a - 0
  | a :: l1, b :: l2 => if a =? b then strcmp l1 l2 else a - b
  end.

Fixpoint strncmp (l1 l2 : list Z) (n : nat) {struct n} : Z :=
  match n, l1, l2 with
  | O, _, _ => 0
  | S _, [], [] => 0
  | S _, [], b :: _ => 0 - b
  | S _, a :: _, [] => a - 0
  | S n, a :: l1, b :: l2 => if a =? b then strncmp l1 l2 n else a - b
  end.

(** The index of the first [c] of the string, the terminator included. *)
Fixpoint strchr (l : list Z) (c : Z) : option nat :=
  match l with
  | [] => if c =? 0 then Some 0%nat else None
  | b :: l => if b =? u8 c then Some 0%nat else S <$> strchr l c
  end.

Lemma strcmp_eq l1 l2 :
  Forall char_ok l1 -> Forall char_ok l2 -> strcmp l1 l2 = 0 <-> l1 = l2.
Proof.
  intros H1. revert l2. induction H1 as [|a l1 Ha _ IH]; intros [|b l2] H2;
    try apply Forall_cons in H2 as [Hb H2]; cbn; unfold char_ok in *;
    try (split; first [done | lia]; fail).
  destruct (Z.eqb_spec a b) as [->|].
  - rewrite IH by done. split; congruence.
  - split; [lia|congruence].
Qed.

Lemma strcmp_refl l : strcmp l l = 0.
Proof. induction l; cbn; [done|]. by rewrite Z.eqb_refl. Qed.

(** With all of [l2] compared, [strncmp] tests for a prefix. *)
Lemma strncmp_prefix l1 l2 :
  Forall char_ok l1 -> Forall char_ok l2 ->
  strncmp l1 l2 (length l2) = 0 <-> l2 `prefix_of` l1.
Proof.
  intros H1 H2. revert l1 H1. induction H2 as [|b l2 Hb _ IH]; intros l1 H1;
    cbn [length strncmp].
  { split; [intros _; apply prefix_nil | by destruct l1]. }
  destruct H1 as [|a l1 Ha H1]; unfold char_ok in *; cbn [strncmp].
  { split; [lia|]. intros ?%prefix_nil_inv. done. }
  destruct (Z.eqb_spec a b) as [->|].
  - rewrite IH by done. split; [apply prefix_cons | apply prefix_cons_inv_2].
  - split; [lia|]. intros ?%prefix_cons_inv_1. congruence.
Qed.

Lemma strchr_Some l c i :
  strchr l c = Some i -> (i <= length l)%nat.
Proof.
  revert i. induction l as [|b l IH]; intros i; cbn.
  - case_match; [|done]. intros [= <-]. lia.
  - case_match; [intros [= <-]; lia|].
    destruct (strchr l c); cbn; [|done]. intros [= <-].
    specialize (IH _ eq_refl). lia.
Qed.

End Ref.

(** The character at index [i], the terminator included. *)
Definition cget (l : list Z) (i : nat) : Z := default 0 (l !! i).

Lemma cstr_load m a l i :
  cstr_at m a l -> (i <= length l)%nat -> load m (a + Z.of_nat i) = Ret (cget l i).
Proof.
  intros [Hr _] Hi. apply load_at with (l ++ [0]); [done|]. unfold cget.
  destruct (decide (i = length l)) as [->|].
  - rewrite list_lookup_middle by done. by rewrite lookup_ge_None_2.
  - rewrite lookup_app_l by lia.
    destruct (lookup_lt_is_Some_2 l i ltac:(lia)) as [b ->]. done.
Qed.

Lemma cget_end l i : (length l <= i)%nat -> cget l i = 0.
Proof. intros. unfold cget. by rewrite lookup_ge_None_2. Qed.

Lemma cget_char l i b : Forall char_ok l -> l !! i = Some b -> cget l i = b /\ b <> 0.
Proof.
  intros Hl Hb. unfold cget. rewrite Hb. split; [done|].
  pose proof (Forall_lookup_1 _ _ _ _ Hl Hb) as H. unfold char_ok in H. lia.
Qed.

(** Case split on being at the end of the string. *)
Lemma cget_cases l i :
  Forall char_ok l -> (i <= length l)%nat ->
  (i = length l /\ cget l i = 0 /\ drop i l = []) \/
  (exists b, l !! i = Some b /\ cget l i = b /\ 0 < b < 256 /\ (i < length l)%nat /\
             drop i l = b :: drop (S i) l).
Proof.
  intros Hl Hi. destruct (decide (i = length l)) as [->|].
  - left. split_and!; [done | by apply cget_end | by apply drop_ge].
  - right. destruct (lookup_lt_is_Some_2 l i ltac:(lia)) as [b Hb].
    exists b. destruct (cget_char l i b Hl Hb). split_and!; try done; try lia.
    + by apply (Forall_lookup_1 _ _ _ _ Hl Hb).
    + by apply (Forall_lookup_1 _ _ _ _ Hl Hb).
    + by apply drop_S.
Qed.

Lemma char_byte l : Forall char_ok l -> Forall byte_ok l.
Proof. intros H. eapply Forall_impl; [exact H|]. unfold char_ok, byte_ok. lia. Qed.

Lemma strlen_spec m a l :
  cstr_at m a l -> Z.of_nat (length l) < 2 ^ 32 ->
  strlen m a = Ret (Z.of_nat (length l)).
Proof.
  intros Hc Hlen. unfold strlen.
  edestruct (loop_total
    (fun n => exists i, n = Z.of_nat i /\ (i <= length l)%nat)
    (fun n => n = Z.of_nat (length l))
    (fun n => Z.of_nat (length l) - n)) as (n & Hn & ->);
    [| by exists 0%nat; split; [|lia] | lia | exact Hn].
  intros n (i & -> & Hi). rewrite (cstr_load _ _ _ _ Hc Hi), bind_ret.
  destruct (cget_cases l i (proj2 Hc) Hi) as [(-> & -> & _)|(b & _ & -> & ? & ? & _)].
  - right. eauto.
  - left. rewrite (proj2 (Z.eqb_neq b 0)), u32_small by lia.
    eexists. split_and!; [done | exists (S i); lia | lia..].
Qed.

Lemma strcmp_spec m a1 a2 l1 l2 :
  cstr_at m a1 l1 -> cstr_at m a2 l2 -> Z.of_nat (length l1) < 2 ^ 64 ->
  strcmp m a1 a2 = Ret (Ref.strcmp l1 l2).
Proof.
  intros H1 H2 Hlen. unfold strcmp.
  loop_with
    (fun '(p, q) => exists i, p = a1 + Z.of_nat i /\ q = a2 + Z.of_nat i /\
       (i <= length l1)%nat /\ (i <= length l2)%nat /\
       Ref.strcmp l1 l2 = Ref.strcmp (drop i l1) (drop i l2))
    (fun r => r = Ref.strcmp l1 l2)
    (fun '(p, _) => a1 + Z.of_nat (length l1) - p) as (n & Hn & ->);
    [| exists 0%nat; split_and!; [lia..|done] | lia | exact Hn].
  intros [p q] (i & -> & -> & Hi1 & Hi2 & ->).
  rewrite (cstr_load _ _ _ _ H1 Hi1), bind_ret, (cstr_load _ _ _ _ H2 Hi2), bind_ret.
  destruct (cget_cases l1 i (proj2 H1) Hi1) as [(_ & -> & E1)|(a & _ & -> & ? & ? & E1)];
  destruct (cget_cases l2 i (proj2 H2) Hi2) as [(_ & -> & E2)|(b & _ & -> & ? & ? & E2)];
    rewrite E1, E2; cbn [Ref.strcmp].
  - right. eauto.
  - right. eauto.
  - right. rewrite (proj2 (Z.eqb_neq a 0)) by lia. eauto.
  - rewrite (proj2 (Z.eqb_neq a 0)) by lia. cbn [negb andb].
    destruct (Z.eqb_spec a b) as [->|]; [left | right; eauto].
    eexists. split_and!; [done | | lia | lia].
    exists (S i). split_and!; lia || done.
Qed.

Lemma strncmp_spec m a1 a2 l1 l2 n :
  cstr_at m a1 l1 -> cstr_at m a2 l2 -> Z.of_nat n < 2 ^ 32 ->
  strncmp m a1 a2 (Z.of_nat n) = Ret (Ref.strncmp l1 l2 n).
Proof.
  intros H1 H2 Hlen. unfold strncmp.
  edestruct (loop_total
    (fun p => exists i, p = Z.of_nat i /\ (i <= n)%nat /\
       (i <= length l1)%nat /\ (i <= length l2)%nat /\
       Ref.strncmp l1 l2 n = Ref.strncmp (drop i l1) (drop i l2) (n - i))
    (fun r => r = Ref.strncmp l1 l2 n)
    (fun p => Z.of_nat n - p)) as (r & Hr & ->);
    [| exists 0%nat; rewrite Nat.sub_0_r; split_and!; lia || done | lia | exact Hr].
  intros p (i & -> & Hin & Hi1 & Hi2 & ->).
  destruct (Z.ltb_spec (Z.of_nat i) (Z.of_nat n)); cycle 1.
  { right. exists 0. replace (n - i)%nat with 0%nat by lia. done. }
  rewrite (cstr_load _ _ _ _ H1 Hi1), bind_ret, (cstr_load _ _ _ _ H2 Hi2), bind_ret.
  destruct (n - i)%nat as [|k] eqn:Hk; [lia|].
  destruct (cget_cases l1 i (proj2 H1) Hi1) as [(_ & -> & E1)|(a & _ & -> & ? & ? & E1)];
  destruct (cget_cases l2 i (proj2 H2) Hi2) as [(_ & -> & E2)|(b & _ & -> & ? & ? & E2)];
    rewrite E1, E2; cbn [Ref.strncmp].
  - right. eauto.
  - right. rewrite (proj2 (Z.eqb_neq 0 b)) by lia. eauto.
  - right. rewrite (proj2 (Z.eqb_neq a 0)) by lia. eauto.
  - destruct (Z.eqb_spec a b) as [->|]; cbn [negb orb]; [|right; eauto].
    rewrite (proj2 (Z.eqb_neq b 0)) by lia. left.
    eexists. split_and!; [done | | rewrite u32_small; lia..].
    exists (S i). rewrite u32_small by lia. split_and!; try lia.
    by replace (n - S i)%nat with k by lia.
Qed.

(** ** Copying strings *)
Section CopyStr.
Context (m : mem) (d s : Z) (l : list Z).
Context (Hsrc : cstr_at m s l).
Context (Hdir : d <= s \/ s + Z.of_nat (length l) + 1 <= d).
Context (Hlen : Z.of_nat (length l) < 2 ^ 32).

(** The source byte at [i] is still there after the first [i] were copied. *)
Lemma copied_load i :
  (i <= length l)%nat ->
  load (poke m d (take i l)) (s + Z.of_nat i) = Ret (cget l i).
Proof.
  intros Hi. rewrite <- (cstr_load m s l i Hsrc Hi). unfold load.
  rewrite poke_lookup, length_take_le, decide_False by lia. done.
Qed.

Lemma copied_store i b :
  mapped m d (Z.of_nat (S i)) -> (i <= length l)%nat -> byte_ok b ->
  store (poke m d (take i l)) (d + Z.of_nat i) b = Ret (poke m d (take i l ++ [b])).
Proof.
  intros Hm Hi Hb. rewrite store_mapped; [| |done].
  - by rewrite poke_app, length_take_le by done.
  - apply mapped_poke with d (Z.of_nat (S i)); [done | lia].
Qed.

Lemma copy_str_poke :
  mapped m d (Z.of_nat (S (length l))) ->
  copy_str m d s = Ret (poke m d (l ++ [0])).
Proof.
  intros Hm. unfold copy_str.
  loop_with
    (fun st => exists i, (i <= length l)%nat /\
       st = (poke m d (take i l), d + Z.of_nat i, s + Z.of_nat i))
    (fun m' => m' = poke m d (l ++ [0]))
    (fun '(_, p, _) => d + Z.of_nat (length l) - p) as (m' & -> & ->);
    [| exists 0%nat; split; [lia|]; cbn; tuple_eq | lia | done].
  intros st (i & Hi & ->). rewrite copied_load, bind_ret by done.
  destruct (cget_cases l i (proj2 Hsrc) Hi) as [(-> & -> & _)|(b & Hb & -> & ? & ? & _)];
    rewrite copied_store, bind_ret;
    try (unfold byte_ok; lia); try (eapply mapped_sub; [exact Hm|lia..]).
  - right. eexists. split; [done|]. by rewrite take_ge.
  - left. rewrite (proj2 (Z.eqb_neq b 0)) by lia. eexists. split_and!; [done| |lia..].
    exists (S i). split; [lia|]. rewrite (take_S_r _ _ _ Hb). tuple_eq.
Qed.

(** The state of strncpy's first loop after [i] characters. *)
Lemma copy_nstr_poke n :
  mapped m d (Z.min (Z.of_nat n) (Z.of_nat (S (length l)))) -> Z.of_nat n < 2 ^ 32 ->
  copy_nstr (m, d, s, Z.of_nat n) =
  Ret (if decide (length l < n)%nat
       then (poke m d (l ++ [0]), d + Z.of_nat (S (length l)),
             Z.of_nat n - Z.of_nat (S (length l)))
       else (poke m d (take n l), d + Z.of_nat n, 2 ^ 32 - 1)).
Proof.
  intros Hm Hn. unfold copy_nstr.
  loop_with
    (fun st => exists i, (i <= length l)%nat /\ (i <= n)%nat /\
       st = (poke m d (take i l), d + Z.of_nat i, s + Z.of_nat i,
             Z.of_nat n - Z.of_nat i))
    (fun st => st = if decide (length l < n)%nat
       then (poke m d (l ++ [0]), d + Z.of_nat (S (length l)),
             Z.of_nat n - Z.of_nat (S (length l)))
       else (poke m d (take n l), d + Z.of_nat n, 2 ^ 32 - 1))
    (fun '(_, _, _, n) => n) as (m' & -> & ->);
    [| exists 0%nat; split_and!; [lia..|]; cbn; tuple_eq | lia | done].
  intros st (i & Hi & Hin & ->).
  destruct (Z.eqb_spec (Z.of_nat n - Z.of_nat i) 0) as [E|E].
  { right. eexists. split; [done|]. rewrite decide_False by lia.
    replace i with n by lia. tuple_eq. unfold u32. replace (Z.of_nat n - Z.of_nat n - 1)
      with (-1) by lia. done. }
  rewrite copied_load, bind_ret by done.
  destruct (cget_cases l i (proj2 Hsrc) Hi) as [(-> & -> & _)|(b & Hb & -> & ? & ? & _)];
    rewrite copied_store, bind_ret;
    try (unfold byte_ok; lia); try (eapply mapped_sub; [exact Hm|lia..]).
  - right. eexists. split; [done|]. rewrite decide_True, u32_small by lia.
    rewrite take_ge by done. tuple_eq.
  - left. rewrite (proj2 (Z.eqb_neq b 0)), u32_small by lia. eexists.
    split_and!; [done| |lia..].
    exists (S i). split_and!; [lia..|]. rewrite (take_S_r _ _ _ Hb). tuple_eq.
Qed.
End CopyStr.

(** A fill that reaches an unmapped address faults. *)
Lemma fill_bytes_fault m c p n x :
  m !! x = None -> p <= x < p + n -> n < 2 ^ 32 -> fill_bytes c (m, p, n) = Fault.
Proof.
  intros Hx Hr Hn. unfold fill_bytes.
  apply (loop_fault (fun '(m', p', n') =>
    m' !! x = None /\ p' <= x < p' + n' /\ n' < 2 ^ 32) (fun '(_, _, n') => n'));
    [| done | lia].
  intros [[m' p'] n'] (Hx' & Hr' & Hn').
  rewrite (proj2 (Z.eqb_neq n' 0)) by lia.
  unfold store. destruct (m' !! p') as [b|] eqn:Hp; [left|right; done].
  assert (p' <> x) by congruence.
  eexists. split_and!; [done| |rewrite u32_small; lia..].
  rewrite u32_small, lookup_insert_ne by (lia || done). split_and!; lia || done.
Qed.

(** A string shorter than the limit is copied and padded with NULs. *)
Lemma strncpy_short m d s l n :
  cstr_at m s l -> (length l < n)%nat -> Z.of_nat n < 2 ^ 32 ->
  mapped m d (Z.of_nat n) ->
  d <= s \/ s + Z.of_nat (length l) + 1 <= d ->
  strncpy m d s (Z.of_nat n) =
    Ret (d, poke m d (l ++ replicate (n - length l) 0)).
Proof.
  intros Hs Hl Hn Hm Hdir. unfold strncpy.
  rewrite (copy_nstr_poke m d s l Hs Hdir n
    ltac:(eapply mapped_sub; [exact Hm|lia..]) Hn), bind_ret, decide_True by done.
  assert (Hz : replicate (n - length l) 0 = [0] ++ replicate (n - S (length l)) 0).
  { replace (n - length l)%nat with (S (n - S (length l))) by lia. done. }
  rewrite Hz, app_assoc, (poke_app m d (l ++ [0])), length_app. cbn [length].
  destruct (Z.eqb_spec (Z.of_nat n - Z.of_nat (S (length l))) 0).
  - replace (n - S (length l))%nat with 0%nat by lia. done.
  - replace (Z.of_nat n - Z.of_nat (S (length l)))
      with (Z.of_nat (n - S (length l))) by lia.
    pose proof (filled_bytes (poke m d (l ++ [0])) (d + Z.of_nat (S (length l))) 0
      (n - S (length l))) as Hf. unfold filled in Hf.
    specialize (Hf ltac:(eapply mapped_poke, mapped_sub; [exact Hm|lia..]) ltac:(lia)
      0%nat ltac:(lia)). cbn [replicate poke] in Hf. change (u8 0) with 0 in Hf.
    rewrite Z.add_0_r, Z.sub_0_r in Hf. rewrite Hf, bind_ret.
    tuple_eq. f_equal. lia.
Qed.

(** A string that reaches the limit makes [strncpy] go on to write [2^32 - 1]
    NULs behind the destination: it faults unless all of those addresses are
    mapped. *)
Lemma strncpy_overrun m d s l n x :
  cstr_at m s l -> (n <= length l)%nat -> Z.of_nat (length l) < 2 ^ 32 ->
  mapped m d (Z.of_nat n) ->
  d <= s \/ s + Z.of_nat (length l) + 1 <= d ->
  m !! x = None -> d + Z.of_nat n <= x < d + Z.of_nat n + (2 ^ 32 - 1) ->
  strncpy m d s (Z.of_nat n) = Fault.
Proof.
  intros Hs Hl Hn Hm Hdir Hx Hr. unfold strncpy.
  rewrite (copy_nstr_poke m d s l Hs Hdir n
    ltac:(eapply mapped_sub; [exact Hm|lia..]) ltac:(lia)), bind_ret, decide_False
    by lia.
  cbv iota beta. change (2 ^ 32 - 1 =? 0) with false. cbv iota.
  rewrite (fill_bytes_fault _ _ _ _ x); [done | | lia | lia].
  rewrite poke_lookup, length_take_le, decide_False by lia. done.
Qed.

Lemma str_end_spec m a l :
  cstr_at m a l -> Z.of_nat (length l) < 2 ^ 64 ->
  str_end m a = Ret (a + Z.of_nat (length l)).
Proof.
  intros Hc Hlen. unfold str_end.
  loop_with (fun p => exists i, (i <= length l)%nat /\ p = a + Z.of_nat i)
    (fun p => p = a + Z.of_nat (length l))
    (fun p => a + Z.of_nat (length l) - p) as (p & -> & ->);
    [| exists 0%nat; lia | lia | done].
  intros p (i & Hi & ->). rewrite (cstr_load _ _ _ _ Hc Hi), bind_ret.
  destruct (cget_cases l i (proj2 Hc) Hi) as [(-> & -> & _)|(b & _ & -> & ? & ? & _)].
  - right. eauto.
  - left. rewrite (proj2 (Z.eqb_neq b 0)) by lia.
    eexists. split_and!; [done | exists (S i); lia | lia..].
Qed.

(** [strcat] appends the source and its terminator to the destination. *)
Lemma strcat_spec m d s l1 l2 :
  cstr_at m d l1 -> cstr_at m s l2 ->
  Z.of_nat (length l1) < 2 ^ 64 -> Z.of_nat (length l2) < 2 ^ 32 ->
  mapped m d (Z.of_nat (length l1 + length l2 + 1)) ->
  s + Z.of_nat (length l2) + 1 <= d \/ d + Z.of_nat (length l1 + length l2 + 1) <= s ->
  strcat m d s = Ret (d, poke m d (l1 ++ l2 ++ [0])).
Proof.
  intros Hd Hs Hl1 Hl2 Hm Hdis. unfold strcat.
  rewrite (str_end_spec m d l1), bind_ret by done.
  rewrite (copy_str_poke m _ s l2 Hs), bind_ret;
    [| lia | lia | eapply mapped_sub; [exact Hm | lia..]].
  rewrite (poke_app m d l1). f_equal. f_equal. f_equal. symmetry. apply poke_id.
  destruct Hd as [Hd _]. by apply region_app in Hd as [Hd _].
Qed.

(** [strncat] copies up to [n] characters behind the destination string and
    then writes the terminator at offset [n], wherever the copy ended. *)
Lemma strncat_spec m d s l1 l2 n :
  cstr_at m d l1 -> cstr_at m s l2 ->
  Z.of_nat (length l1) < 2 ^ 64 -> Z.of_nat n < 2 ^ 32 ->
  mapped m d (Z.of_nat (length l1 + n + 1)) ->
  s + Z.of_nat (length l2) + 1 <= d \/ d + Z.of_nat (length l1 + n + 1) <= s ->
  strncat m d s (Z.of_nat n) =
    Ret (d, <[d + Z.of_nat (length l1) + Z.of_nat n := 0]>
            (poke m (d + Z.of_nat (length l1)) (take n l2))).
Proof.
  intros Hd Hs Hl1 Hn Hm Hdis. unfold strncat.
  rewrite (str_end_spec m d l1), bind_ret by done.
  set (e := d + Z.of_nat (length l1)).
  loop_with (fun st => exists i, (i <= n)%nat /\ (i <= length l2)%nat /\
       st = (poke m e (take i l2), Z.of_nat i))
    (fun m' => m' = poke m e (take n l2))
    (fun '(_, i) => Z.of_nat n - i) as (m' & -> & ->);
    [| exists 0%nat; split_and!; [lia..|]; done | lia |].
  - intros st (i & Hin & Hi & ->).
    destruct (Z.ltb_spec (Z.of_nat i) (Z.of_nat n)); cycle 1.
    { right. eexists. split; [done|]. by replace i with n by lia. }
    rewrite (copied_load m e s l2 Hs), bind_ret by (unfold e; lia).
    destruct (cget_cases l2 i (proj2 Hs) Hi) as [(-> & -> & _)|(b & Hb & -> & ? & ? & _)].
    + right. eexists. split; [done|]. by rewrite !take_ge by lia.
    + left. rewrite (proj2 (Z.eqb_neq b 0)) by lia.
      rewrite copied_store, bind_ret, u32_small;
        [| lia | eapply mapped_sub; [exact Hm | unfold e; lia..] | done | unfold byte_ok; lia].
      eexists. split_and!; [done | | lia..].
      exists (S i). split_and!; [lia..|]. rewrite (take_S_r _ _ _ Hb). tuple_eq.
  - rewrite bind_ret, store_mapped; [done | | done].
    apply mapped_poke with d (Z.of_nat (length l1 + n + 1)); [done | unfold e; lia].
Qed.

(** [strchr] finds the first occurrence, the terminator included. *)
Lemma strchr_spec m a l c :
  cstr_at m a l -> Z.of_nat (length l) < 2 ^ 64 ->
  strchr m a c = Ret ((fun i => a + Z.of_nat i) <$> Ref.strchr l c).
Proof.
  intros Hc Hlen. unfold strchr.
  loop_with (fun p => exists i, (i <= length l)%nat /\ p = a + Z.of_nat i /\
      (fun i => a + Z.of_nat i) <$> Ref.strchr l c =
      (fun j => p + Z.of_nat j) <$> Ref.strchr (drop i l) c)
    (fun r => r = (fun i => a + Z.of_nat i) <$> Ref.strchr l c)
    (fun p => a + Z.of_nat (length l) - p) as (p & -> & ->);
    [| exists 0%nat; split_and!; [lia..|]; done | lia | done].
  intros p (i & Hi & -> & ->). rewrite (cstr_load _ _ _ _ Hc Hi), bind_ret.
  destruct (cget_cases l i (proj2 Hc) Hi) as [(-> & -> & ->)|(b & _ & -> & ? & ? & ->)];
    cbn [Ref.strchr].
  - right. eexists. split; [done|]. destruct (c =? 0); cbn; [|done]. tuple_eq.
  - rewrite (proj2 (Z.eqb_neq b 0)) by lia.
    destruct (b =? u8 c); [right; eexists; split; [done|]; cbn; tuple_eq|left].
    eexists. split_and!; [done | | lia..].
    exists (S i). split_and!; [lia..|].
    destruct (Ref.strchr (drop (S i) l) c); cbn; [|done]. tuple_eq.
Qed.

(** ** strstr *)
Lemma match_here_spec m h n lh ln i :
  cstr_at m h lh -> cstr_at m n ln -> (i <= length lh)%nat ->
  Z.of_nat (length ln) < 2 ^ 64 ->
  match_here m (h + Z.of_nat i) n = Ret (bool_decide (ln `prefix_of` drop i lh)).
Proof.
  intros Hh Hn Hi Hlen. unfold match_here.
  loop_with (fun '(p, q) => exists j, (i + j <= length lh)%nat /\ (j <= length ln)%nat /\
      p = h + Z.of_nat (i + j) /\ q = n + Z.of_nat j /\
      (ln `prefix_of` drop i lh <-> drop j ln `prefix_of` drop (i + j) lh))
    (fun r => r = bool_decide (ln `prefix_of` drop i lh))
    (fun '(_, q) => n + Z.of_nat (length ln) - q) as (r & -> & ->);
    [| exists 0%nat; rewrite Nat.add_0_r; split_and!; [lia..|]; done | lia | done].
  intros [p q] (j & Hij & Hj & -> & -> & Hiff).
  rewrite (cstr_load _ _ _ _ Hh Hij), bind_ret, (cstr_load _ _ _ _ Hn Hj), bind_ret.
  rewrite (bool_decide_ext _ _ Hiff).
  destruct (cget_cases lh (i + j) (proj2 Hh) Hij) as [(_ & -> & E1)|(a & _ & -> & ? & ? & E1)];
  destruct (cget_cases ln j (proj2 Hn) Hj) as [(_ & -> & E2)|(b & _ & -> & ? & ? & E2)];
    rewrite E1, E2 in Hiff |- *.
  - right. exists true. split; [done|]. symmetry. apply bool_decide_eq_true, prefix_nil.
  - right. rewrite (proj2 (Z.eqb_neq b 0)) by lia. exists false. split; [done|].
    symmetry. apply bool_decide_eq_false. intros ?%prefix_nil_inv. done.
  - right. rewrite andb_false_r. exists true. split; [done|].
    symmetry. apply bool_decide_eq_true, prefix_nil.
  - rewrite (proj2 (Z.eqb_neq a 0)), (proj2 (Z.eqb_neq b 0)) by lia. cbn [negb andb].
    destruct (Z.eqb_spec a b) as [->|Hne].
    + left. eexists. split_and!; [done | | lia..]. exists (S j).
      rewrite <- plus_n_Sm. split_and!; [lia..|]. rewrite Hiff.
      split; [apply prefix_cons_inv_2 | apply prefix_cons].
    + right. exists false. split; [done|]. symmetry. apply bool_decide_eq_false.
      intros ?%prefix_cons_inv_1. congruence.
Qed.

(** The least index of [l] where [P] holds of the suffix. *)
Fixpoint first_suffix (P : list Z -> bool) (l : list Z) : option nat :=
  match l with
  | [] => None
  | _ :: l' => if P l then Some 0%nat else S <$> first_suffix P l'
  end.

(** [strstr] returns the first occurrence of the needle. *)
Lemma strstr_spec m h n lh ln :
  cstr_at m h lh -> cstr_at m n ln ->
  Z.of_nat (length lh) < 2 ^ 64 -> Z.of_nat (length ln) < 2 ^ 64 ->
  strstr m h n = Ret (
    if decide (ln = []) then Some h
    else (fun i => h + Z.of_nat i) <$>
         first_suffix (fun l => bool_decide (ln `prefix_of` l)) lh).
Proof.
  intros Hh Hn Hl1 Hl2. unfold strstr.
  pose proof (cstr_load m n ln 0 Hn ltac:(lia)) as H0. rewrite Z.add_0_r in H0.
  rewrite H0, bind_ret.
  destruct ln as [|b0 ln']; [done|]. rewrite decide_False by done.
  destruct (cget_char (b0 :: ln') 0 b0 (proj2 Hn) eq_refl) as [-> ?].
  rewrite (proj2 (Z.eqb_neq b0 0)) by done. set (ln := b0 :: ln') in *.
  set (P := fun l => bool_decide (ln `prefix_of` l)).
  loop_with (fun p => exists i, (i <= length lh)%nat /\ p = h + Z.of_nat i /\
      (fun i => h + Z.of_nat i) <$> first_suffix P lh =
      (fun j => p + Z.of_nat j) <$> first_suffix P (drop i lh))
    (fun r => r = (fun i => h + Z.of_nat i) <$> first_suffix P lh)
    (fun p => h + Z.of_nat (length lh) - p) as (p & -> & ->);
    [| exists 0%nat; split_and!; [lia..|]; done | lia | done].
  intros p (i & Hi & -> & ->). rewrite (cstr_load _ _ _ _ Hh Hi), bind_ret.
  destruct (cget_cases lh i (proj2 Hh) Hi) as [(-> & -> & ->)|(b & _ & -> & ? & ? & E)].
  - right. eauto.
  - rewrite (proj2 (Z.eqb_neq b 0)) by lia.
    rewrite (match_here_spec m h n lh ln i), bind_ret by done.
    fold (P (drop i lh)). rewrite E. cbn [first_suffix].
    destruct (P (b :: drop (S i) lh)); [right; eexists; split; [done|]; cbn; tuple_eq|left].
    eexists. split_and!; [done | | lia..]. exists (S i). split_and!; [lia..|].
    destruct (first_suffix P (drop (S i) lh)); cbn; [|done]. tuple_eq.
Qed.
