(* ===== verification/Libc.v ===== *)
(** * libkern: ctype.c, stdlib.c and the 64-bit division of udivdi3.c

    Character classes, decimal parsing and the software division that the
    compiler calls for 64-bit operands.  The division is shown to compute the
    quotient and the remainder; [atoi] to compute the value of a decimal
    numeral and to be undefined beyond the range of [int]. *)

From S2P Require Import Prelude.

(** ** ctype.c *)
Module Ctype.

Definition isdigit (c : Z) : bool := (ch "0" <=? c) && (c <=? ch "9").
Definition isalpha (c : Z) : bool :=
  ((ch "A" <=? c) && (c <=? ch "Z")) || ((ch "a" <=? c) && (c <=? ch "z")).
Definition isalnum (c : Z) : bool := isalpha c || isdigit c.
Definition isupper (c : Z) : bool := (ch "A" <=? c) && (c <=? ch "Z").
Definition islower (c : Z) : bool := (ch "a" <=? c) && (c <=? ch "z").
Definition isspace (c : Z) : bool :=
  (c =? 32) || (c =? 9) || (c =? 10) || (c =? 13) || (c =? 12) || (c =? 11).
Definition isprint (c : Z) : bool := (0x20 <=? c) && (c <=? 0x7E).
Definition isxdigit (c : Z) : bool :=
  isdigit c || ((ch "a" <=? c) && (c <=? ch "f")) || ((ch "A" <=? c) && (c <=? ch "F")).
Definition toupper (c : Z) : Z := if islower c then c - 0x20 else c.
Definition tolower (c : Z) : Z := if isupper c then c + 0x20 else c.

End Ctype.
Import Ctype.

(** ** stdlib.c

    A string argument is the list of its bytes; a [char] is promoted to [int]
    with its sign ([s8]).  Overflow of the accumulator is undefined. *)
Module Stdlib.

Fixpoint skip_space (s : list Z) : list Z :=
  match s with
  | c :: s' => if isspace (s8 c) then skip_space s' else s
  | [] => []
  end.

(** [while (isdigit( *s)) n = n * 10 + ( *s++ - '0');] with the range check of
    the accumulator's type. *)
Fixpoint digits (chk : Z -> run Z) (n : Z) (s : list Z) : run Z :=
  match s with
  | c :: s' =>
      if isdigit (s8 c) then
        t ← chk (n * 10); n ← chk (t + (s8 c - ch "0")); digits chk n s'
      else Ret n
  | [] => Ret n
  end.

Definition sign (s : list Z) : bool * list Z :=
  match s with
  | c :: s' => if s8 c =? ch "-" then (true, s')
               else if s8 c =? ch "+" then (false, s') else (false, s)
  | [] => (false, [])
  end.

Definition atoi (s : list Z) : run Z :=
  let '(neg, s) := sign (skip_space s) in
  n ← digits int32 0 s;
  if (neg : bool) then int32 (- n) else Ret n.

Definition atol (s : list Z) : run Z :=
  let '(neg, s) := sign (skip_space s) in
  n ← digits int64 0 s;
  if (neg : bool) then int64 (- n) else Ret n.

Definition abs (n : Z) : run Z := if n <? 0 then int32 (- n) else Ret n.
Definition labs (n : Z) : run Z := if n <? 0 then int64 (- n) else Ret n.

End Stdlib.
Import Stdlib.

(** ** udivdi3.c *)
Module Udivdi3.

(** [while ((long long)den >= 0 && den < num) { den <<= 1; qbit <<= 1; }] *)
Definition scale_up (num : Z) (st : Z * Z) : run (Z * Z) :=
  loop (fun '(den, qbit) =>
    if (0 <=? s64 den) && (den <? num)
    then Ret (inl (u64 (den * 2), u64 (qbit * 2)))
    else Ret (inr (den, qbit))) st.

(** [while (qbit != 0) { ... den >>= 1; qbit >>= 1; }] *)
Definition scale_down (st : Z * Z * Z * Z) : run (Z * Z) :=
  loop (fun '(num, den, quot, qbit) =>
    if qbit =? 0 then Ret (inr (num, quot))
    else
      let '(num, quot) :=
        if den <=? num then (u64 (num - den), Z.lor quot qbit) else (num, quot) in
      Ret (inl (num, Z.shiftr den 1, quot, Z.shiftr qbit 1))) st.

Definition udivmoddi4 (num den : Z) (mod_ : bool) : run Z :=
  if den =? 0 then Ret 0
  else
    '(den, qbit) ← scale_up num (den, 1);
    '(num, quot) ← scale_down (num, den, 0, qbit);
    Ret (if mod_ then num else quot).

Definition udivdi3 (num den : Z) : run Z := udivmoddi4 num den false.
Definition umoddi3 (num den : Z) : run Z := udivmoddi4 num den true.

Definition divdi3 (num den : Z) : run Z :=
  '(num, neg) ← (if num <? 0 then n ← int64 (- num); Ret (n, true) else Ret (num, false));
  '(den, neg) ← (if den <? 0 then d ← int64 (- den); Ret (d, negb neg) else Ret (den, neg));
  q ← udivdi3 (u64 num) (u64 den);
  if (neg : bool) then int64 (- s64 q) else Ret (s64 q).

Definition moddi3 (num den : Z) : run Z :=
  '(num, neg) ← (if num <? 0 then n ← int64 (- num); Ret (n, true) else Ret (num, false));
  den ← (if den <? 0 then int64 (- den) else Ret den);
  r ← umoddi3 (u64 num) (u64 den);
  if (neg : bool) then int64 (- s64 r) else Ret (s64 r).

End Udivdi3.
Import Udivdi3.

(** ** The division computes quotient and remainder *)

Lemma scale_up_spec num den :
  0 < den < 2 ^ 64 -> 0 <= num < 2 ^ 64 ->
  exists k, 0 <= k < 64 /\ scale_up num (den, 1) = Ret (den * 2 ^ k, 2 ^ k) /\
    den * 2 ^ k < 2 ^ 64 /\ num < 2 * (den * 2 ^ k).
Proof.
  intros Hd Hn. unfold scale_up.
  loop_with
    (fun st => exists k, 0 <= k /\ st = (den * 2 ^ k, 2 ^ k) /\ den * 2 ^ k < 2 ^ 64)
    (fun st => exists k, 0 <= k /\ st = (den * 2 ^ k, 2 ^ k) /\ den * 2 ^ k < 2 ^ 64 /\
       num < 2 * (den * 2 ^ k))
    (fun '(d, _) => 2 ^ 64 - d) as (st & Hst & k & Hk & -> & Hb & Hlt);
    [| exists 0; rewrite Z.mul_1_r; split_and!; try lia; done | lia |].
  - intros st (k & Hk & -> & Hb).
    assert (Hp : 0 < 2 ^ k) by (apply Z.pow_pos_nonneg; lia).
    assert (Hpd : 2 ^ k <= den * 2 ^ k) by nia.
    destruct (decide (den * 2 ^ k < 2 ^ 63)) as [Hs|Hs].
    + rewrite s64_small, (proj2 (Z.leb_le 0 _)) by lia. cbn [andb].
      destruct (Z.ltb_spec (den * 2 ^ k) num); [left|right].
      * rewrite !u64_small by lia.
        exists (den * 2 ^ k * 2, 2 ^ k * 2). split_and!; [done| |lia..].
        exists (k + 1). rewrite Z.pow_add_r, Z.pow_1_r by lia.
        split_and!; [lia | tuple_eq | lia].
      * eexists. split; [done|]. exists k. split_and!; try done; lia.
    + right. eexists. rewrite (proj2 (Z.leb_gt 0 _)) by ilia. split; [done|].
      exists k. split_and!; try done; lia.
  - exists k. split_and!; try done. destruct (Z.lt_ge_cases k 64); [done|].
    assert (2 ^ 64 <= 2 ^ k) by (apply Z.pow_le_mono_r; lia). nia.
Qed.

(** Adding the next lower quotient bit. *)
Lemma lor_low_bit q k : 0 <= k -> q mod 2 ^ (k + 1) = 0 -> Z.lor q (2 ^ k) = q + 2 ^ k.
Proof.
  intros Hk Hq. rewrite <- Z.add_lor_land, Z.add_comm.
  enough (Z.land q (2 ^ k) = 0) as -> by lia.
  apply Z.bits_inj'. intros i Hi. rewrite Z.land_spec, Z.bits_0, Z.pow2_bits_eqb by lia.
  destruct (Z.eqb_spec k i) as [->|]; [|apply andb_false_r].
  rewrite andb_true_r. rewrite <- (Z.mod_pow2_bits_low q (i + 1) i) by lia.
  by rewrite Hq, Z.bits_0.
Qed.

(** The remainder and the quotient after the bit [j]. *)
Lemma quotient_bit num den j n q :
  0 < den -> 0 <= j -> den * 2 ^ j < 2 ^ 64 -> 0 <= n < 2 * (den * 2 ^ j) -> num = q * den + n -> q mod 2 ^ (j + 1) = 0 ->
  exists n' q', (if den * 2 ^ j <=? n then (u64 (n - den * 2 ^ j), Z.lor q (2 ^ j)) else (n, q)) = (n', q') /\
    0 <= n' < den * 2 ^ j /\ num = q' * den + n' /\ q' mod 2 ^ j = 0.
Proof.
  intros Hd Hj Hb Hn Hnum Hq. assert (Hp : 0 < 2 ^ j) by (apply Z.pow_pos_nonneg; lia).
  assert (Hm : q mod 2 ^ j = 0).
  { apply Z.mod_divide in Hq as [z ->]; [|apply Z.pow_nonzero; lia].
    rewrite Z.pow_add_r by lia. apply Z.mod_divide; [lia|]. exists (z * 2 ^ 1). lia. }
  destruct (Z.leb_spec (den * 2 ^ j) n).
  - rewrite lor_low_bit, u64_small by (lia || done).
    eexists _, _. split; [done|]. split_and!; try nia.
    rewrite Z.add_mod, Hm, Z.mod_same, Z.mod_0_l by lia. done.
  - eexists _, _. split; [done|]. split_and!; nia || done.
Qed.

Lemma scale_down_spec num den k :
  0 < den -> 0 <= k < 64 -> 0 <= num < 2 ^ 64 -> den * 2 ^ k < 2 ^ 64 ->
  num < 2 * (den * 2 ^ k) ->
  scale_down (num, den * 2 ^ k, 0, 2 ^ k) = Ret (num mod den, num / den).
Proof.
  intros Hd Hk Hn Hb Hlt. unfold scale_down.
  loop_with
    (fun '(n, d, q, b) => 0 <= n /\ num = q * den + n /\
       ((exists j, 0 <= j <= k /\ d = den * 2 ^ j /\ b = 2 ^ j /\ n < 2 * d /\
           q mod 2 ^ (j + 1) = 0) \/
        (b = 0 /\ n < den)))
    (fun '(n, q) => (n, q) = (num mod den, num / den))
    (fun '(_, _, _, b) => b) as ([n q] & -> & ->); [| | |done].
  - intros [[[n d] q] b] (Hn0 & Hnum & [(j & Hj & -> & -> & Hlt' & Hq)|[-> Hlt']]).
    + assert (Hp : 0 < 2 ^ j) by (apply Z.pow_pos_nonneg; lia).
      rewrite (proj2 (Z.eqb_neq (2 ^ j) 0)) by lia. left.
      rewrite !Z.shiftr_div_pow2, Z.pow_1_r by lia.
      destruct (quotient_bit num den j n q) as (n' & q' & -> & Hn' & Hnum' & Hq'); [lia|lia| |lia|done..|].
      { enough (den * 2 ^ j <= den * 2 ^ k) by lia. apply Z.mul_le_mono_nonneg_l, Z.pow_le_mono_r; lia. }
      eexists. split; [done|]. destruct (decide (j = 0)) as [->|Hj0].
      * change (2 ^ 0 / 2) with 0. rewrite Z.pow_0_r, Z.mul_1_r in *.
        split_and!; lia.
      * replace (den * 2 ^ j / 2) with (den * 2 ^ (j - 1)); cycle 1.
        { replace j with (j - 1 + 1) at 2 by lia.
          rewrite Z.pow_add_r, Z.pow_1_r, Z.mul_assoc, Z.div_mul by lia. done. }
        replace (2 ^ j / 2) with (2 ^ (j - 1)); cycle 1.
        { replace j with (j - 1 + 1) at 2 by lia.
          rewrite Z.pow_add_r, Z.pow_1_r, Z.div_mul by lia. done. }
        assert (2 ^ (j - 1) * 2 = 2 ^ j)
          by (rewrite <- (Z.pow_1_r 2) at 2; rewrite <- Z.pow_add_r by lia; f_equal; lia).
        split_and!; try lia. left. exists (j - 1).
        split_and!; try done; try lia; try nia.
        by replace (j - 1 + 1) with j by lia.
    + right. eexists. split; [done|].
      cbn. rewrite Hnum, Z.add_comm, Z.mod_add, Z.div_add by lia.
      rewrite Z.mod_small, Z.div_small by lia. tuple_eq.
  - split_and!; try lia. left. exists k. rewrite Z.mod_0_l by (apply Z.pow_nonzero; lia).
    split_and!; try done; lia.
  - assert (2 ^ k <= 2 ^ 64) by (apply Z.pow_le_mono_r; lia). lia.
Qed.

(** The software division on unsigned operands. *)
Lemma udivmoddi4_spec num den mod_ :
  0 <= num < 2 ^ 64 -> 0 < den < 2 ^ 64 ->
  udivmoddi4 num den mod_ = Ret (if mod_ then num mod den else num / den).
Proof.
  intros Hn Hd. unfold udivmoddi4. rewrite (proj2 (Z.eqb_neq den 0)) by lia.
  destruct (scale_up_spec num den Hd Hn) as (k & Hk & -> & Hb & Hlt).
  rewrite bind_ret, scale_down_spec, bind_ret by lia. done.
Qed.

Lemma quot_bounds a b :
  0 <= a < 2 ^ 63 -> 0 < b < 2 ^ 63 -> 0 <= a / b < 2 ^ 63 /\ 0 <= a mod b < 2 ^ 63.
Proof.
  intros Ha Hb. pose proof (Z.mod_pos_bound a b).
  split; [|lia]. split; [apply Z.div_pos; lia|].
  apply Z.le_lt_trans with a; [apply Z.div_le_upper_bound; nia | lia].
Qed.

(** C38: The signed 64-bit division and remainder routines return the quotient
    truncated towards zero and the remainder with the sign of the dividend,
    for all operands above [-2^63] (whose negation overflows); a zero divisor
    gives 0 for both. *)
Theorem divdi3_moddi3_correct num den :
  - 2 ^ 63 < num < 2 ^ 63 -> - 2 ^ 63 < den < 2 ^ 63 ->
  divdi3 num den = Ret (if den =? 0 then 0 else Z.quot num den) /\
  moddi3 num den = Ret (if den =? 0 then 0 else Z.rem num den).
Proof.
  intros Hn Hd. unfold divdi3, moddi3, udivdi3, umoddi3.
  destruct (Z.eqb_spec den 0) as [->|Hd0].
  { destruct (Z.ltb_spec num 0); rewrite ?(int64_ok (- num)) by lia;
      cbn -[u64]; rewrite ?u64_small by lia; done. }
  destruct (Z.ltb_spec num 0), (Z.ltb_spec den 0);
    rewrite ?(int64_ok (- num)), ?(int64_ok (- den)), ?bind_ret by lia;
    rewrite ?(u64_small num), ?(u64_small den), ?(u64_small (- num)),
      ?(u64_small (- den)) by lia;
    rewrite !udivmoddi4_spec, !bind_ret by lia; cbn [negb].
  - destruct (quot_bounds (- num) (- den)) as [? ?]; [lia..|].
    rewrite !s64_small, int64_ok by lia.
    rewrite Z.quot_div, Z.rem_mod, Z.sgn_neg, Z.sgn_neg, !Z.abs_neq by lia.
    split; f_equal; lia.
  - destruct (quot_bounds (- num) den) as [? ?]; [lia..|].
    rewrite !s64_small, !int64_ok by lia.
    rewrite Z.quot_div, Z.rem_mod, Z.sgn_neg, Z.sgn_pos, Z.abs_neq, Z.abs_eq by lia.
    split; f_equal; lia.
  - destruct (quot_bounds num (- den)) as [? ?]; [lia..|].
    rewrite !s64_small, !int64_ok by lia.
    rewrite Z.quot_div, Z.rem_mod by lia.
    rewrite (Z.abs_neq den), (Z.abs_eq num), (Z.sgn_neg den) by lia.
    destruct (Z.eq_dec num 0) as [->|]; [done|]. rewrite Z.sgn_pos by lia.
    split; f_equal; lia.
  - destruct (quot_bounds num den) as [? ?]; [lia..|].
    rewrite !s64_small by lia. rewrite Z.quot_div_nonneg, Z.rem_mod_nonneg by lia. done.
Qed.

Lemma divdi3_moddi3_correct_witness :
  divdi3 (-7) 2 = Ret (-3) /\ moddi3 (-7) 2 = Ret (-1).
Proof. apply (divdi3_moddi3_correct (-7) 2); lia. Defined.

(** ** Decimal parsing *)

Definition digit_char (c : Z) : Prop := isdigit (s8 c) = true.
Definition space_char (c : Z) : Prop := isspace (s8 c) = true.

(** The value of a decimal numeral, most significant digit first. *)
Definition dec_from (n : Z) (ds : list Z) : Z :=
  fold_left (fun n c => n * 10 + (s8 c - ch "0")) ds n.
Definition dec_val : list Z -> Z := dec_from 0.

Lemma digit_value c : digit_char c -> 0 <= s8 c - ch "0" <= 9.
Proof. unfold digit_char, isdigit. ch_consts. lia. Qed.

Lemma dec_from_grows n ds : 0 <= n -> Forall digit_char ds -> n <= dec_from n ds.
Proof.
  intros Hn H. revert n Hn. induction H as [|c ds Hc _ IH]; intros n Hn; cbn; [lia|].
  pose proof (digit_value c Hc). specialize (IH (n * 10 + (s8 c - ch "0"))).
  unfold dec_from in *. cbn. lia.
Qed.

(** The accumulation of digits, with a range check on every step that
    rejects exactly the values from [2^w] on. *)
Lemma digits_spec (chk : Z -> run Z) w n ds rest :
  (forall x, 0 <= x -> chk x = if x <? w then Ret x else Fault) ->
  0 <= n < w -> Forall digit_char ds ->
  match rest with c :: _ => ~ digit_char c | [] => True end ->
  digits chk n (ds ++ rest) =
    if dec_from n ds <? w then Ret (dec_from n ds) else Fault.
Proof.
  intros Hchk Hn H Hrest. revert n Hn. induction H as [|c ds Hc Hds IH]; intros n Hn.
  { cbn [app dec_from fold_left]. rewrite (proj2 (Z.ltb_lt n w)) by lia.
    destruct rest as [|c rest]; [done|]. cbn. unfold digit_char in Hrest.
    by destruct (isdigit (s8 c)). }
  cbn [app digits]. rewrite (Hc : isdigit (s8 c) = true). pose proof (digit_value c Hc).
  pose proof (dec_from_grows (n * 10 + (s8 c - ch "0")) ds ltac:(lia) Hds) as Hgrow.
  change (dec_from n (c :: ds)) with (dec_from (n * 10 + (s8 c - ch "0")) ds).
  rewrite Hchk by lia. destruct (Z.ltb_spec (n * 10) w).
  - rewrite bind_ret, Hchk by lia. destruct (Z.ltb_spec (n * 10 + (s8 c - ch "0")) w).
    + rewrite bind_ret. apply IH. lia.
    + rewrite bind_fault, (proj2 (Z.ltb_ge _ _)) by lia. done.
  - rewrite bind_fault, (proj2 (Z.ltb_ge _ _)) by lia. done.
Qed.

Lemma int32_nonneg x : 0 <= x -> int32 x = if x <? 2 ^ 31 then Ret x else Fault.
Proof.
  intros. unfold int32. by rewrite (proj2 (Z.leb_le _ _)) by lia.
Qed.

Lemma skip_space_app ws s :
  Forall space_char ws -> match s with c :: _ => ~ space_char c | [] => True end ->
  skip_space (ws ++ s) = s.
Proof.
  induction 1 as [|c ws Hc _ IH]; intros Hs; cbn.
  - destruct s as [|c s]; [done|]. cbn. unfold space_char in Hs. by destruct isspace.
  - rewrite (Hc : isspace (s8 c) = true). auto.
Qed.

Lemma digit_not_space c : digit_char c -> ~ space_char c.
Proof. unfold digit_char, space_char, isdigit, isspace. ch_consts. lia. Qed.

(** [atoi] skips white space, takes an optional sign and returns the value
    of the numeral up to the first other character; a numeral of value [2^31]
    or more overflows its accumulator, also in the case of [-2147483648]. *)
Theorem atoi_numeral ws sgn ds rest :
  Forall space_char ws -> sgn ∈ [[]; str "-"; str "+"] ->
  ds <> [] -> Forall digit_char ds ->
  match rest with c :: _ => ~ digit_char c | [] => True end ->
  atoi (ws ++ sgn ++ ds ++ rest) =
    if dec_val ds <? 2 ^ 31
    then Ret (if bool_decide (sgn = str "-") then - dec_val ds else dec_val ds)
    else Fault.
Proof.
  intros Hws Hsgn Hne Hds Hrest. unfold atoi.
  destruct ds as [|d ds]; [done|]. pose proof (Forall_inv Hds) as Hd.
  assert (Hsign : sign (skip_space (ws ++ sgn ++ (d :: ds) ++ rest)) =
            (bool_decide (sgn = str "-"), (d :: ds) ++ rest)).
  { pose proof (digit_value d Hd) as Hv. ch_consts.
    repeat (apply elem_of_cons in Hsgn as [->|Hsgn]);
      [| | |by apply not_elem_of_nil in Hsgn];
      rewrite skip_space_app by (done || by apply digit_not_space); [|done..].
    cbn [sign app]. ch_consts.
    rewrite (proj2 (Z.eqb_neq _ 45)), (proj2 (Z.eqb_neq _ 43)) by lia. done. }
  rewrite Hsign, (digits_spec int32 (2 ^ 31)) by (done || lia || apply int32_nonneg).
  fold (dec_val (d :: ds)).
  pose proof (dec_from_grows 0 (d :: ds) ltac:(lia) Hds) as Hpos. fold (dec_val (d :: ds)) in Hpos.
  destruct (Z.ltb_spec (dec_val (d :: ds)) (2 ^ 31)); [|by rewrite bind_fault].
  rewrite bind_ret. destruct (bool_decide _); [|done]. by rewrite int32_ok by lia.
Qed.

Lemma atoi_numeral_witness : atoi (str " -42 kB") = Ret (-42).
Proof.
  refine (atoi_numeral (str " ") (str "-") (str "42") (str " kB") _ _ _ _ _).
  - repeat constructor.
  - right. left.
  - done.
  - repeat constructor.
  - done.
Defined.
