(* ===== verification/Double.v ===== *)
(** * libkern: math.c and float.c

    A [double] is a [spec_float] of precision 53 and maximal exponent 1024,
    with the IEEE operations of the Standard Library (round to nearest even).
    Conversions to an integer type are undefined outside the type's range. *)

From Stdlib Require Import Floats.SpecFloat.
From S2P Require Import Prelude.

(** ** Doubles *)
Module Dbl.

Definition double : Type := spec_float.

Definition add : double -> double -> double := SFadd 53 1024.
Definition sub : double -> double -> double := SFsub 53 1024.
Definition mul : double -> double -> double := SFmul 53 1024.
Definition div : double -> double -> double := SFdiv 53 1024.
Definition opp : double -> double := SFopp.
Definition ltb : double -> double -> bool := SFltb.
Definition leb : double -> double -> bool := SFleb.
Definition eqb : double -> double -> bool := SFeqb.

(** [(double)z] for an integer [z]. *)
Definition of_Z (z : Z) : double := binary_normalize 53 1024 z 0 false.
(** The literal [0.1], rounded. *)
Definition tenth : double := div (of_Z 1) (of_Z 10).
Definition half : double := div (of_Z 1) (of_Z 2).
Definition max : double := SFmax_float 53 1024.

(** The integer part, if the number is finite. *)
Definition trunc (x : double) : option Z :=
  match x with
  | S754_zero _ => Some 0
  | S754_finite s m e =>
      let a := if 0 <=? e then Z.pos m * 2 ^ e else Z.pos m / 2 ^ (- e) in
      Some (if s then - a else a)
  | _ => None
  end.

(** [(int)x] and [(unsigned long)x]. *)
Definition to_int (x : double) : run Z := z ← of_option (trunc x); int32 z.
Definition to_ulong (x : double) : run Z :=
  z ← of_option (trunc x); if (0 <=? z) && (z <? 2 ^ 64) then Ret z else Fault.

(** [(float)x]. *)
Definition to_float (x : double) : spec_float :=
  match x with
  | S754_finite s m e => binary_round 24 128 s m e
  | _ => x
  end.

End Dbl.
Abbreviation double := Dbl.double.

(** ** math.c *)
Module Math.

Definition fabs (x : double) : double :=
  if Dbl.ltb x (Dbl.of_Z 0) then Dbl.opp x else x.

Definition fmod (x y : double) : run double :=
  if Dbl.eqb y (Dbl.of_Z 0) then Ret x
  else
    let q := Dbl.div x y in
    n ← Dbl.to_int q;
    Ret (Dbl.sub x (Dbl.mul (Dbl.of_Z n) y)).

Definition pow10 (n : Z) : run double :=
  '(n, base) ← (if n <? 0 then m ← int32 (- n); Ret (m, Dbl.tenth)
                else Ret (n, Dbl.of_Z 10));
  loop (fun '(i, result) =>
    if i <? n then Ret (inl (i + 1, Dbl.mul result base))
    else Ret (inr result)) (0, Dbl.of_Z 1).

End Math.

(** ** float.c *)
Module Float.

(** [while ( *s == ' ' || *s == '\t') s++;] *)
Fixpoint skip_blank (s : list Z) : list Z :=
  match s with
  | c :: s' => if (c =? 32) || (c =? 9) then skip_blank s' else s
  | [] => []
  end.

Definition is_dec (c : Z) : bool := (ch "0" <=? c) && (c <=? ch "9").

(** The digits of the integer part. *)
Fixpoint int_part (result : double) (s : list Z) : double * list Z :=
  match s with
  | c :: s' =>
      if is_dec c
      then int_part (Dbl.add (Dbl.mul result (Dbl.of_Z 10)) (Dbl.of_Z (c - ch "0"))) s'
      else (result, s)
  | [] => (result, [])
  end.

(** The digits after the point, and the power of ten they are scaled by. *)
Fixpoint frac_part (frac scale : double) (s : list Z) : double * double * list Z :=
  match s with
  | c :: s' =>
      if is_dec c
      then frac_part (Dbl.add (Dbl.mul frac (Dbl.of_Z 10)) (Dbl.of_Z (c - ch "0")))
             (Dbl.mul scale (Dbl.of_Z 10)) s'
      else (frac, scale, s)
  | [] => (frac, scale, [])
  end.

(** The digits of the exponent, an [int]. *)
Fixpoint exp_part (exp : Z) (s : list Z) : run (Z * list Z) :=
  match s with
  | c :: s' =>
      if is_dec c
      then t ← int32 (exp * 10); e ← int32 (t + (c - ch "0")); exp_part e s'
      else Ret (exp, s)
  | [] => Ret (exp, [])
  end.

Definition peek (s : list Z) : Z := default 0 (head s).

(** The value, and what [*end] points to. *)
Definition strtod (s : list Z) : run (double * list Z) :=
  let s := skip_blank s in
  let '(sign, s) :=
    if peek s =? ch "-" then (Dbl.of_Z (-1), tail s)
    else if peek s =? ch "+" then (Dbl.of_Z 1, tail s) else (Dbl.of_Z 1, s) in
  let '(result, s) := int_part (Dbl.of_Z 0) s in
  let '(result, s) :=
    if peek s =? ch "." then
      let '(frac, scale, s) := frac_part (Dbl.of_Z 0) (Dbl.of_Z 1) (tail s) in
      (Dbl.add result (Dbl.div frac scale), s)
    else (result, s) in
  '(result, s) ←
    (if (peek s =? ch "e") || (peek s =? ch "E") then
      let s := tail s in
      let '(exp_sign, s) :=
        if peek s =? ch "-" then (-1, tail s)
        else if peek s =? ch "+" then (1, tail s) else (1, s) in
      '(exp, s) ← exp_part 0 s;
      p ← Math.pow10 (exp * exp_sign);
      Ret (Dbl.mul result p, s)
    else Ret (result, s));
  Ret (Dbl.mul sign result, s).

Definition atof (s : list Z) : run double := fst <$> strtod s.

Definition strtof (s : list Z) : run (spec_float * list Z) :=
  '(d, s) ← strtod s; Ret (Dbl.to_float d, s).

End Float.

(** [12.5e-1] is read as 1.25 up to the rounding of the repeated scaling. *)
Example strtod_example :
  (fun '(d, rest) => (Dbl.to_int (Dbl.mul d (Dbl.of_Z 100)), rest)) <$>
    Float.strtod (str " -12.5e1 V") = Ret (Ret (-12500), str " V").
Proof. vm_compute. reflexivity. Qed.

(** ** What [strtod] consumes

    The syntax of the numeral is independent of the rounding. *)
Lemma pow10_total n : - 2 ^ 31 < n < 2 ^ 31 -> exists d, Math.pow10 n = Ret d.
Proof.
  intros Hn. unfold Math.pow10.
  assert (Hl : forall m base, 0 <= m < 2 ^ 31 -> exists d,
    loop (fun '(i, result) =>
      if i <? m then Ret (inl (i + 1, Dbl.mul result base))
      else Ret (inr result)) (0, Dbl.of_Z 1) = Ret d).
  { intros m base Hm.
    loop_with (fun '(i, _) => 0 <= i <= m) (fun _ => True) (fun '(i, _) => m - i)
      as (d & Hd & _); [|lia..|by exists d].
    intros [i r] Hi. destruct (Z.ltb_spec i m).
    - left. eexists. split; [done|]. lia.
    - right. by eexists. }
  destruct (Z.ltb_spec n 0).
  - rewrite int32_ok, bind_ret by lia. apply Hl. lia.
  - rewrite bind_ret. apply Hl. lia.
Qed.
