(* ===== verification/Printf.v ===== *)
(** * libkern: printf.c

    The formatter behind every message of the kernel.  Its output goes to a
    buffer of [n] bytes or, with a null buffer, to the console devices; both
    sinks are explicit.  Variadic arguments are the 64-bit slots they are
    passed in.  Shown: the text printed for a number, that the buffer sink
    receives exactly the truncated and terminated console text whatever the
    format, that the scratch arrays are never overrun, and two defects of the
    number conversions. *)

From Stdlib Require Import Floats.SpecFloat.
From S2P Require Import Prelude Libc Double.

(** ** Sinks *)

Inductive device := Lvgl | Font | Serial | Vga.
#[global] Instance device_eq_dec : EqDecision device.
Proof. solve_decision. Defined.

(** [Buf]: the array behind [buf].  [Console]: which console is active, and
    what has been sent to the devices so far. *)
Inductive target :=
  | Buf (b : list Z)
  | Console (lv_active fb_ready : bool) (trace : list (device * Z)).

(** The target, and [*pos]. *)
Definition sink : Type := target * Z.

Definition console_char (lv fb : bool) (c : Z) : list (device * Z) :=
  if lv then [(Lvgl, c); (Serial, c)]
  else if fb then [(Font, c); (Serial, c)]
  else [(Vga, c)].

Definition print_char (n c : Z) (o : sink) : run sink :=
  let '(t, pos) := o in
  match t with
  | Buf b =>
      if pos <? n then
        if pos <? Z.of_nat (length b)
        then Ret (Buf (<[Z.to_nat pos := c]> b), u32 (pos + 1))
        else Fault
      else Ret o
  | Console lv fb tr => Ret (Console lv fb (tr ++ console_char lv fb c), u32 (pos + 1))
  end.

Fixpoint print_bytes (n : Z) (s : list Z) (o : sink) : run sink :=
  match s with
  | c :: s => o ← print_char n c o; print_bytes n s o
  | [] => Ret o
  end.

(** [None] is the null pointer. *)
Definition print_str (n : Z) (s : option (list Z)) (o : sink) : run sink :=
  print_bytes n (default (str "(null)") s) o.

(** [while (pad-- > 0) print_char(buf, pos, n, c);] *)
Fixpoint print_pad (n c : Z) (pad : nat) (o : sink) : run sink :=
  match pad with
  | S pad => o ← print_char n c o; print_pad n c pad o
  | O => Ret o
  end.

(** ** Numbers *)

(** [tmp[idx++] = c;] in an array of [cap] bytes. *)
Definition push (cap : nat) (c : Z) (tmp : list Z) : run (list Z) :=
  if (length tmp <? cap)%nat then Ret (tmp ++ [c]) else Fault.

Definition digit (upper : bool) (d : Z) : run Z :=
  of_option ((if upper then str "0123456789ABCDEF" else str "0123456789abcdef")
               !! Z.to_nat d).

(** [while (val64 > 0) { tmp[idx++] = digits[val64 % base]; val64 /= base; }] *)
Definition num_digits (upper : bool) (base v : Z) (tmp : list Z) : run (list Z) :=
  loop (fun '(v, tmp) =>
    if 0 <? v then
      d ← digit upper (v mod base); tmp ← push 72 d tmp;
      Ret (inl (v / base, tmp))
    else Ret (inr tmp)) (v, tmp).

Definition print_num64 (n val64 base : Z) (upper sign : bool) (width : Z) (zero : bool)
    (o : sink) : run sink :=
  let neg := sign && (s64 val64 <? 0) in
  let val64 := if neg then u64 (- s64 val64) else val64 in
  tmp ← (if val64 =? 0 then push 72 (ch "0") [] else num_digits upper base val64 []);
  let idx := Z.of_nat (length tmp) in
  let pad := if idx <? width then width - idx - Z.b2z neg else 0 in
  if zero && (0 <? pad) then
    o ← (if neg then print_char n (ch "-") o else Ret o);
    o ← print_pad n (ch "0") (Z.to_nat pad) o;
    print_bytes n (rev tmp) o
  else
    o ← print_pad n (ch " ") (Z.to_nat pad) o;
    o ← (if neg then print_char n (ch "-") o else Ret o);
    print_bytes n (rev tmp) o.

(** ** Floating point *)

Definition ftoa_pow10 : list double := Dbl.of_Z <$>
  [1; 10; 100; 1000; 10000; 100000; 1000000; 10000000; 100000000; 1000000000].

(** [int count = prec; while (count--) { tmp[idx++] = ...; frac_part /= 10; }] *)
Fixpoint frac_digits (count : nat) (frac : Z) (tmp : list Z) : run (list Z) :=
  match count with
  | S count => tmp ← push 48 (ch "0" + frac mod 10) tmp; frac_digits count (frac / 10) tmp
  | O => Ret tmp
  end.

(** [while (whole > 0) { tmp[idx++] = ...; whole /= 10; }] *)
Definition whole_digits (whole : Z) (tmp : list Z) : run (list Z) :=
  loop (fun '(w, tmp) =>
    if 0 <? w then tmp ← push 48 (ch "0" + w mod 10) tmp; Ret (inl (w / 10, tmp))
    else Ret (inr tmp)) (whole, tmp).

(** The rounding and the digits of a non-negative value, last digit first:
    lines 46-78 and, with the same text, 122-123 and 128-157. *)
Definition round_digits (value : double) (prec : Z) : run (list Z) :=
  '(value, tmp) ←
    (if prec =? 0 then
       let t := Dbl.add value Dbl.half in
       i ← Dbl.to_int t;
       let diff := Dbl.sub value (Dbl.of_Z i) in
       if negb (Dbl.ltb diff Dbl.half) && Dbl.ltb Dbl.half diff
       then Ret (Dbl.add value (Dbl.of_Z 1), [])
       else if Dbl.eqb diff Dbl.half && Z.odd i
       then Ret (Dbl.add value (Dbl.of_Z 1), [])
       else Ret (value, [])
     else
       whole_part ← Dbl.to_int value;
       let frac := Dbl.sub value (Dbl.of_Z whole_part) in
       p ← of_option (ftoa_pow10 !! Z.to_nat prec);
       frac_part ← Dbl.to_ulong (Dbl.add (Dbl.mul frac p) Dbl.half);
       lim ← Dbl.to_ulong p;
       '(frac_part, whole_part) ←
         (if lim <=? frac_part then w ← int32 (whole_part + 1); Ret (0, w)
          else Ret (frac_part, whole_part));
       tmp ← frac_digits (Z.to_nat prec) frac_part [];
       tmp ← push 48 (ch ".") tmp;
       Ret (Dbl.of_Z whole_part, tmp));
  whole ← Dbl.to_ulong value;
  if whole =? 0 then push 48 (ch "0") tmp else whole_digits whole tmp.

(** The sign and the padding in front of the digits. *)
Definition print_lead (n : Z) (neg zero plus space : bool) (pad : Z) (o : sink) : run sink :=
  o ← (if negb zero || (pad <=? 0) then print_pad n (ch " ") (Z.to_nat pad) o else Ret o);
  o ← (if neg then print_char n (ch "-") o
       else if plus then print_char n (ch "+") o
       else if space then print_char n (ch " ") o
       else Ret o);
  if zero && (0 <? pad) then print_pad n (ch "0") (Z.to_nat pad) o else Ret o.

Definition clamp_prec (prec : Z) : Z :=
  let prec := if prec <? 0 then 6 else prec in if 9 <? prec then 9 else prec.

(** NaN and the infinities are printed without padding. *)
Definition special (value : double) : option (list Z) :=
  if negb (Dbl.eqb value value) then Some (str "nan")
  else if Dbl.ltb value (Dbl.opp Dbl.max) then Some (str "-inf")
  else if Dbl.ltb Dbl.max value then Some (str "+inf")
  else None.

Definition print_float (n : Z) (value : double) (prec width : Z) (zero plus space : bool)
    (o : sink) : run sink :=
  match special value with
  | Some s => print_str n (Some s) o
  | None =>
      let neg := Dbl.ltb value (Dbl.of_Z 0) in
      let value := if neg then Dbl.opp value else value in
      let prec := clamp_prec prec in
      tmp ← round_digits value prec;
      let total := Z.of_nat (length tmp) + Z.b2z neg
                   + Z.b2z (negb neg && (plus || space)) in
      let pad := if total <? width then width - total else 0 in
      o ← print_lead n neg zero plus space pad o;
      print_bytes n (rev tmp) o
  end.

(** [while (value >= 10.0) { value /= 10.0; exp++; }] *)
Definition scale_10 (value : double) (exp : Z) : run (double * Z) :=
  loop (fun '(value, exp) =>
    if Dbl.leb (Dbl.of_Z 10) value
    then e ← int32 (exp + 1); Ret (inl (Dbl.div value (Dbl.of_Z 10), e))
    else Ret (inr (value, exp))) (value, exp).

(** [while (value < 1.0 && value != 0.0) { value *= 10.0; exp--; }] *)
Definition scale_1 (value : double) (exp : Z) : run (double * Z) :=
  loop (fun '(value, exp) =>
    if Dbl.ltb value (Dbl.of_Z 1) && negb (Dbl.eqb value (Dbl.of_Z 0))
    then e ← int32 (exp - 1); Ret (inl (Dbl.mul value (Dbl.of_Z 10), e))
    else Ret (inr (value, exp))) (value, exp).

(** [exp_buf]: the decimal digits of the exponent. *)
Definition exp_digits (exp : Z) : run (list Z) :=
  t ← (if 100 <=? exp then push 8 (u8 (ch "0" + exp / 100)) [] else Ret []);
  t ← (if 10 <=? exp then push 8 (ch "0" + (exp / 10) mod 10) t else Ret t);
  push 8 (ch "0" + exp mod 10) t.

Definition print_scientific (n : Z) (value : double) (prec width : Z)
    (zero plus space upper : bool) (o : sink) : run sink :=
  match special value with
  | Some s => print_str n (Some s) o
  | None =>
      let neg := Dbl.ltb value (Dbl.of_Z 0) in
      let value := if neg then Dbl.opp value else value in
      let prec := clamp_prec prec in
      '(value, exp) ← scale_10 value 0;
      '(value, exp) ← scale_1 value exp;
      tmp ← round_digits value prec;
      let exp_neg := exp <? 0 in
      exp ← (if exp_neg then int32 (- exp) else Ret exp);
      exp_buf ← exp_digits exp;
      let total := Z.of_nat (length tmp) + Z.b2z neg + 2 + Z.of_nat (length exp_buf)
                   + Z.b2z (negb neg && (plus || space)) in
      let pad := if total <? width then width - total else 0 in
      o ← print_lead n neg zero plus space pad o;
      o ← print_bytes n (rev tmp) o;
      o ← print_str n (Some (if upper then str "E" else str "e")) o;
      o ← print_char n (if exp_neg then ch "-" else ch "+") o;
      (* [exp_idx = 0; while (exp_idx-- > 0) ...] *)
      print_bytes n (rev (take 0 exp_buf)) o
  end.

(** ** Variadic arguments and the formatter *)

(** One argument slot: an integer or pointer register, a string, a double. *)
Inductive arg :=
  | AWord (w : Z)
  | AStr (s : option (list Z))
  | ADbl (d : double).

Definition va_list : Type := list arg.

(** [va_arg] of a 64-bit integer, of [u32]/[int] (the low half of the slot),
    of a string and of a double; an argument of another kind is undefined. *)
Definition va_u64 (ap : va_list) : run (Z * va_list) :=
  match ap with AWord w :: ap => Ret (u64 w, ap) | _ => Fault end.
Definition va_u32 (ap : va_list) : run (Z * va_list) :=
  match ap with AWord w :: ap => Ret (u32 w, ap) | _ => Fault end.
Definition va_str (ap : va_list) : run (option (list Z) * va_list) :=
  match ap with AStr s :: ap => Ret (s, ap) | _ => Fault end.
Definition va_dbl (ap : va_list) : run (double * va_list) :=
  match ap with ADbl d :: ap => Ret (d, ap) | _ => Fault end.

(** [lng >= 1 ? va_arg(long) : (u32)va_arg(int)]: [long] and [long long] are
    both 64 bits wide. *)
Definition va_num (lng : Z) (ap : va_list) : run (Z * va_list) :=
  if 1 <=? lng then va_u64 ap else va_u32 ap.

(** [while ( *fmt >= '0' && *fmt <= '9') { w = w * 10 + ( *fmt - '0'); fmt++; }] *)
Fixpoint fmt_number (w : Z) (fmt : list Z) : run (Z * list Z) :=
  match fmt with
  | c :: fmt' =>
      if Float.is_dec c
      then t ← int32 (w * 10); w ← int32 (t + (c - ch "0")); fmt_number w fmt'
      else Ret (w, fmt)
  | [] => Ret (w, [])
  end.

(** [while ( *fmt == 'l' || *fmt == 'z' || *fmt == 'h')] *)
Fixpoint fmt_length (lng : Z) (fmt : list Z) : Z * list Z :=
  match fmt with
  | c :: fmt' =>
      if c =? ch "l" then fmt_length (lng + 1) fmt'
      else if (c =? ch "z") || (c =? ch "h") then fmt_length lng fmt'
      else (lng, fmt)
  | [] => (lng, [])
  end.

(** The fields between ['%'] and the conversion character. *)
Record spec := mkSpec { sp_width : Z; sp_zero : bool; sp_prec : Z; sp_lng : Z }.

Definition fmt_spec (fmt : list Z) : run (spec * list Z) :=
  let '(zero, fmt) := if Float.peek fmt =? ch "0" then (true, tail fmt) else (false, fmt) in
  '(width, fmt) ← fmt_number 0 fmt;
  '(prec, fmt) ←
    (if Float.peek fmt =? ch "." then fmt_number 0 (tail fmt) else Ret (-1, fmt));
  let '(lng, fmt) := fmt_length 0 fmt in
  Ret (mkSpec width zero prec lng, fmt).

(** The decimal exponent that [%g] looks at. *)
Definition g_exponent (val : double) : run Z :=
  let tmp := if Dbl.ltb val (Dbl.of_Z 0) then Dbl.opp val else val in
  if negb (Dbl.eqb tmp (Dbl.of_Z 0)) then
    '(tmp, exp) ← scale_10 tmp 0;
    '(_, exp) ← loop (fun '(tmp, exp) =>
      if Dbl.ltb tmp (Dbl.of_Z 1)
      then e ← int32 (exp - 1); Ret (inl (Dbl.mul tmp (Dbl.of_Z 10), e))
      else Ret (inr (tmp, exp))) (tmp, exp);
    Ret exp
  else Ret 0.

(** The [switch] on the conversion character. *)
Definition convert (n : Z) (sp : spec) (c : Z) (ap : va_list) (o : sink)
    : run (sink * va_list) :=
  let '(mkSpec width zero prec lng) := sp in
  let prec' := if prec <? 0 then 6 else prec in
  if (c =? ch "d") || (c =? ch "i") then
    '(v, ap) ← va_num lng ap;
    o ← print_num64 n v 10 false true width zero o; Ret (o, ap)
  else if c =? ch "u" then
    '(v, ap) ← va_num lng ap;
    o ← print_num64 n v 10 false false width zero o; Ret (o, ap)
  else if (c =? ch "x") || (c =? ch "X") then
    '(v, ap) ← va_num lng ap;
    o ← print_num64 n v 16 (c =? ch "X") false width zero o; Ret (o, ap)
  else if c =? ch "o" then
    '(v, ap) ← va_num lng ap;
    o ← print_num64 n v 8 false false width zero o; Ret (o, ap)
  else if c =? ch "b" then
    '(v, ap) ← va_u32 ap;
    o ← print_num64 n v 2 false false width zero o; Ret (o, ap)
  else if c =? ch "p" then
    o ← print_str n (Some (str "0x")) o;
    '(v, ap) ← va_u32 ap;
    o ← print_num64 n v 16 false false 8 true o; Ret (o, ap)
  else if c =? ch "s" then
    '(s, ap) ← va_str ap; o ← print_str n s o; Ret (o, ap)
  else if c =? ch "c" then
    '(v, ap) ← va_u32 ap; o ← print_char n (u8 v) o; Ret (o, ap)
  else if (c =? ch "f") || (c =? ch "F") then
    '(v, ap) ← va_dbl ap;
    o ← print_float n v prec' width zero false false o; Ret (o, ap)
  else if (c =? ch "e") || (c =? ch "E") then
    '(v, ap) ← va_dbl ap;
    o ← print_scientific n v prec' width zero false false (c =? ch "E") o; Ret (o, ap)
  else if (c =? ch "g") || (c =? ch "G") then
    '(v, ap) ← va_dbl ap;
    exp ← g_exponent v;
    if (-4 <=? exp) && (exp <? 6) then
      fp ← int32 (prec' - exp - 1);
      o ← print_float n v (if fp <? 0 then 0 else fp) width zero false false o; Ret (o, ap)
    else
      o ← print_scientific n v (if 0 <? prec' then prec' - 1 else 0) width zero
            false false (c =? ch "G") o; Ret (o, ap)
  else if c =? ch "%" then
    o ← print_char n (ch "%") o; Ret (o, ap)
  else
    o ← print_char n (ch "%") o; o ← print_char n c o; Ret (o, ap).

(** The [for] loop over the format.  Every round consumes a character, so the
    length of the format is enough fuel. *)
Fixpoint format (fuel : nat) (n : Z) (fmt : list Z) (ap : va_list) (o : sink) : run sink :=
  match fuel with
  | O => Spin
  | S fuel =>
      match fmt with
      | [] => Ret o
      | c :: fmt =>
          if negb (c =? ch "%") then o ← print_char n c o; format fuel n fmt ap o
          else
            '(sp, fmt) ← fmt_spec fmt;
            match fmt with
            | [] => Ret o
            | c :: fmt => '(o, ap) ← convert n sp c ap o; format fuel n fmt ap o
            end
      end
  end.

(** [buf[i] = c] in the buffer. *)
Definition put (b : list Z) (i c : Z) : run (list Z) :=
  if (0 <=? i) && (i <? Z.of_nat (length b)) then Ret (<[Z.to_nat i := c]> b) else Fault.

Definition vsnprintf (t : target) (n : Z) (fmt : list Z) (ap : va_list) : run (target * Z) :=
  '(t, pos) ← format (S (length fmt)) n fmt ap (t, 0);
  t ← match t with
      | Buf b =>
          if pos <? n then b ← put b pos 0; Ret (Buf b)
          else if 0 <? n then b ← put b (n - 1) 0; Ret (Buf b)
          else Ret t
      | Console _ _ _ => Ret t
      end;
  Ret (t, s32 pos).

Definition snprintf (b : list Z) (n : Z) (fmt : list Z) (ap : va_list) : run (list Z * Z) :=
  '(t, ret) ← vsnprintf (Buf b) n fmt ap;
  match t with Buf b => Ret (b, ret) | Console _ _ _ => Fault end.

(** The two flags select the console: an active LVGL terminal, a framebuffer. *)
Definition printf (lv fb : bool) (fmt : list Z) (ap : va_list) : run (target * Z) :=
  vsnprintf (Console lv fb []) 0 fmt ap.

Definition sprintf (b : list Z) (fmt : list Z) (ap : va_list) : run (list Z * Z) :=
  snprintf b 0xFFFFFFFF fmt ap.

Definition putchar (c : Z) : list (device * Z) * Z := ([(Vga, u8 c)], u8 c).
Definition puts (s : list Z) : list (device * Z) * Z :=
  (pair Vga <$> (s ++ [10]), 0).

Example printf_example :
  printf false false (str "%s: %04x %5u %ld|%.2f")
    [AStr (Some (str "pmm")); AWord 0xBEE; AWord 42; AWord (-7);
     ADbl (Dbl.div (Dbl.of_Z 5) (Dbl.of_Z 4))]
  = Ret (Console false false (pair Vga <$> str "pmm: 0bee    42 -7|1.25"), 23).
Proof. vm_compute. reflexivity. Qed.

(** ** klog.c and logger.c *)
Module Klog.

(** The string in an array: its bytes before the first NUL. *)
Fixpoint c_str (b : list Z) : run (list Z) :=
  match b with
  | c :: b => if c =? 0 then Ret [] else s ← c_str b; Ret (c :: s)
  | [] => Fault
  end.

Definition klog_prio : list (list Z) := str <$>
  ["Emergency"; "Alert"; "Critical"; "Error"; "Warning"; "Notice"; "Info"; "Debug"].
Definition KLOG_NOTICE : Z := 5.

Definition line_format : list Z :=
  str "%02u:%02u:%02u.%03u xkern kernel<0> <%s>: com.xkern.%s: %s" ++ [10].

(** [line0] is the initial content of the local array, [ms] the clock. *)
Definition klog_emit (lv fb : bool) (line0 : list Z) (ms prio : Z) (driver buf : list Z)
    : run (target * Z) :=
  level ← of_option (klog_prio !! Z.to_nat
    (if (0 <=? prio) && (prio <=? 7) then prio else KLOG_NOTICE));
  '(line, _) ← snprintf line0 352 line_format
    [AWord (ms / 3600000); AWord ((ms / 60000) mod 60); AWord ((ms / 1000) mod 60);
     AWord (ms mod 1000); AStr (Some level); AStr (Some driver); AStr (Some buf)];
  s ← c_str line;
  printf lv fb (str "%s") [AStr (Some s)].

Definition klog_vlvl (lv fb : bool) (buf0 line0 : list Z) (ms prio : Z)
    (driver fmt : list Z) (ap : va_list) : run (target * Z) :=
  '(buf, _) ← snprintf buf0 256 fmt ap;
  s ← c_str buf;
  klog_emit lv fb line0 ms prio driver s.

Definition klog (lv fb : bool) (buf0 line0 : list Z) (ms : Z) (driver fmt : list Z)
    (ap : va_list) : run (target * Z) :=
  klog_vlvl lv fb buf0 line0 ms KLOG_NOTICE driver fmt ap.

Definition vklog (driver did : list Z) : list (device * Z) :=
  pair Vga <$> (str "com.xkern." ++ driver ++ str ": " ++ did).

End Klog.

(** ** What reaches the sink does not depend on the sink

    [writes f]: [f] either sends one fixed text to every sink or returns on
    none.  The formatter is shown to be of this kind, by closure of the
    property under the combinators it is built from. *)

Definition writes (f : Z -> sink -> run sink) : Prop :=
  (exists t, forall n o, f n o = print_bytes n t o) \/ (forall n o o', f n o <> Ret o').

Definition writes_with {B} (f : Z -> sink -> run (sink * B)) : Prop :=
  (exists t b, forall n o, f n o = (o ← print_bytes n t o; Ret (o, b))) \/
  (forall n o r, f n o <> Ret r).

Lemma print_bytes_app n s t o :
  print_bytes n (s ++ t) o = (o ← print_bytes n s o; print_bytes n t o).
Proof.
  revert o. induction s as [|c s IH]; intros o; [done|]. cbn.
  destruct (print_char n c o); cbn; auto.
Qed.

Lemma print_pad_bytes n c k o : print_pad n c k o = print_bytes n (replicate k c) o.
Proof.
  revert o. induction k as [|k IH]; intros o; [done|]. cbn.
  destruct (print_char n c o); cbn; auto.
Qed.

Lemma writes_text t : writes (fun n o => print_bytes n t o).
Proof. left. by exists t. Qed.
Lemma writes_nothing : writes (fun n o => Ret o).
Proof. left. by exists []. Qed.
Lemma writes_char c : writes (fun n o => print_char n c o).
Proof. left. exists [c]. intros n o. cbn. by destruct print_char. Qed.
Lemma writes_pad c k : writes (fun n o => print_pad n c k o).
Proof. left. exists (replicate k c). intros. apply print_pad_bytes. Qed.

Lemma writes_seq f g :
  writes f -> writes g -> writes (fun n o => o ← f n o; g n o).
Proof.
  intros [[s Hs]|Hf] Hg.
  - destruct Hg as [[t Ht]|Hg].
    + left. exists (s ++ t). intros n o. rewrite print_bytes_app, Hs.
      destruct (print_bytes n s o); cbn; auto.
    + right. intros n o o'. rewrite Hs. destruct (print_bytes n s o); [apply Hg|done..].
  - right. intros n o o'. destruct (f n o) eqn:E; [by apply Hf in E|done..].
Qed.

Lemma writes_after {A} (m : run A) (k : A -> Z -> sink -> run sink) :
  (forall a, writes (k a)) -> writes (fun n o => a ← m; k a n o).
Proof. intros Hk. destruct m as [a| |]; [apply Hk|right; done..]. Qed.

Lemma writes_if (c : bool) f g : writes f -> writes g ->
  writes (fun n o => if c then f n o else g n o).
Proof. by destruct c. Qed.

Lemma writes_with_ret {B} f (b : B) :
  writes f -> writes_with (fun n o => o ← f n o; Ret (o, b)).
Proof.
  intros [[t Ht]|Hf]; [left; exists t, b; intros n o; by rewrite Ht|].
  right. intros n o r. destruct (f n o) eqn:E; [by apply Hf in E|done..].
Qed.

Lemma writes_with_seq {B} f (g : Z -> sink -> run (sink * B)) :
  writes f -> writes_with g -> writes_with (fun n o => o ← f n o; g n o).
Proof.
  intros [[s Hs]|Hf] Hg.
  - destruct Hg as [(t & b & Ht)|Hg].
    + left. exists (s ++ t), b. intros n o. rewrite print_bytes_app, Hs.
      destruct (print_bytes n s o); cbn; [apply Ht|done..].
    + right. intros n o r. rewrite Hs. destruct (print_bytes n s o); [apply Hg|done..].
  - right. intros n o r. destruct (f n o) eqn:E; [by apply Hf in E|done..].
Qed.

Lemma writes_with_after {A B} (m : run A) (k : A -> Z -> sink -> run (sink * B)) :
  (forall a, writes_with (k a)) -> writes_with (fun n o => a ← m; k a n o).
Proof. intros Hk. destruct m as [a| |]; [apply Hk|right; done..]. Qed.

Lemma writes_with_if {B} (c : bool) (f g : Z -> sink -> run (sink * B)) :
  writes_with f -> writes_with g -> writes_with (fun n o => if c then f n o else g n o).
Proof. by destruct c. Qed.

Lemma writes_bind {B} (f : Z -> sink -> run (sink * B)) (g : B -> Z -> sink -> run sink) :
  writes_with f -> (forall b, writes (g b)) ->
  writes (fun n o => '(o, b) ← f n o; g b n o).
Proof.
  intros [(s & b & Hs)|Hf] Hg.
  - destruct (Hg b) as [[t Ht]|Hgb].
    + left. exists (s ++ t). intros n o. rewrite print_bytes_app, Hs.
      destruct (print_bytes n s o); cbn; auto.
    + right. intros n o o'. rewrite Hs. destruct (print_bytes n s o); [apply Hgb|done..].
  - right. intros n o o'. destruct (f n o) as [[]| |] eqn:E; [by apply Hf in E|done..].
Qed.

#[export] Hint Resolve writes_text writes_nothing writes_char writes_pad : xkern.

Ltac writes_solve :=
  repeat first
    [ progress cbn beta iota zeta
    | solve [eauto with xkern]
    | apply writes_if | apply writes_with_if
    | apply writes_with_ret
    | apply writes_seq | apply writes_with_seq
    | apply writes_after; intros ? | apply writes_with_after; intros ?
    | match goal with |- context [let '(_, _) := ?p in _] => destruct p end
    | match goal with |- context [match ?p with pair _ _ => _ end] => destruct p end ].

Lemma writes_str s : writes (fun n o => print_str n s o).
Proof. apply writes_text. Qed.
#[export] Hint Resolve writes_str : xkern.

Lemma writes_num64 v base upper sign width zero :
  writes (fun n o => print_num64 n v base upper sign width zero o).
Proof. unfold print_num64. writes_solve. Qed.

Lemma writes_lead neg zero plus space pad :
  writes (fun n o => print_lead n neg zero plus space pad o).
Proof. unfold print_lead. writes_solve. Qed.
#[export] Hint Resolve writes_num64 writes_lead : xkern.

Lemma writes_float v prec width zero plus space :
  writes (fun n o => print_float n v prec width zero plus space o).
Proof. unfold print_float. destruct (special v); writes_solve. Qed.

Lemma writes_scientific v prec width zero plus space upper :
  writes (fun n o => print_scientific n v prec width zero plus space upper o).
Proof. unfold print_scientific. destruct (special v); writes_solve. Qed.
#[export] Hint Resolve writes_float writes_scientific : xkern.

Lemma writes_convert sp c ap : writes_with (fun n o => convert n sp c ap o).
Proof. destruct sp as [width zero prec lng]. unfold convert. writes_solve. Qed.

Lemma writes_format fuel fmt ap : writes (fun n o => format fuel n fmt ap o).
Proof.
  revert fmt ap. induction fuel as [|fuel IH]; intros fmt ap; [right; done|].
  cbn [format]. destruct fmt as [|c fmt]; [apply writes_nothing|].
  destruct (negb (c =? ch "%")).
  - apply writes_seq; [apply writes_char | apply IH].
  - apply writes_after. intros [sp fmt']. destruct fmt' as [|c' fmt']; [apply writes_nothing|].
    apply (writes_bind (fun n o => convert n sp c' ap o) (fun b n o => format fuel n fmt' b o));
      [apply writes_convert | auto].
Qed.

(** ** The two sinks *)

(** The characters shown by the devices of a console trace: every character
    once, whichever devices echo it. *)
Definition shown (tr : list (device * Z)) : list Z :=
  snd <$> filter (fun e => fst e <> Serial) tr.

Lemma shown_console_char lv fb tr c :
  shown (tr ++ console_char lv fb c) = shown tr ++ [c].
Proof. unfold shown. rewrite filter_app, fmap_app. by destruct lv, fb. Qed.

Lemma print_bytes_console n lv fb t tr pos :
  exists tr', print_bytes n t (Console lv fb tr, pos) =
    Ret (Console lv fb tr', if bool_decide (t = []) then pos
                            else u32 (pos + Z.of_nat (length t))) /\
    shown tr' = shown tr ++ t.
Proof.
  revert tr pos. induction t as [|c t IH]; intros tr pos.
  { exists tr. cbn. by rewrite app_nil_r. }
  cbn [print_bytes print_char]. rewrite bind_ret.
  destruct (IH (tr ++ console_char lv fb c) (u32 (pos + 1))) as (tr' & -> & Htr).
  exists tr'. rewrite Htr, shown_console_char, <- app_assoc. split; [|done].
  rewrite (bool_decide_false (c :: t = [])) by done. do 2 f_equal.
  case_bool_decide; subst; cbn [length]; [done|].
  unfold u32. rewrite Zplus_mod_idemp_l. f_equal. lia.
Qed.

Lemma print_bytes_buf n t b pos :
  0 <= pos <= n -> n < 2 ^ 32 -> n <= Z.of_nat (length b) ->
  print_bytes n t (Buf b, pos) =
    Ret (Buf (list_inserts (Z.to_nat pos) (take (Z.to_nat (n - pos)) t) b),
         Z.min n (pos + Z.of_nat (length t))).
Proof.
  revert b pos. induction t as [|c t IH]; intros b pos Hpos Hn Hb.
  { cbn [print_bytes]. rewrite take_nil. cbn. tuple_eq. }
  cbn [print_bytes print_char]. destruct (Z.ltb_spec pos n).
  - rewrite (proj2 (Z.ltb_lt pos (Z.of_nat (length b)))), u32_small, bind_ret by lia.
    rewrite IH by (rewrite ?length_insert; lia).
    replace (Z.to_nat (n - pos)) with (S (Z.to_nat (n - (pos + 1)))) by lia.
    cbn [take list_inserts length]. rewrite list_insert_inserts_lt by lia.
    replace (Z.to_nat (pos + 1)) with (S (Z.to_nat pos)) by lia. tuple_eq.
  - rewrite bind_ret, IH by lia. replace (Z.to_nat (n - pos)) with 0%nat by lia.
    cbn [take]. rewrite take_0. cbn [length]. tuple_eq.
Qed.

Lemma list_inserts_0 {A} (k l : list A) :
  (length k <= length l)%nat -> list_inserts 0 k l = k ++ drop (length k) l.
Proof.
  intros Hle. apply list_eq. intros i.
  destruct (decide (i < length k)%nat).
  - rewrite list_lookup_inserts, lookup_app_l by lia. f_equal. lia.
  - rewrite list_lookup_inserts_ge, lookup_app_r, lookup_drop by lia. f_equal. lia.
Qed.

(** The array after [vsnprintf] of the text [t] with limit [n]. *)
Definition buffer_after (t b : list Z) (n : nat) : list Z :=
  if (length t <? n)%nat then t ++ 0 :: drop (S (length t)) b
  else take (n - 1) t ++ 0 :: drop n b.

Lemma terminate_short (t b : list Z) n :
  (length t < n)%nat -> (n <= length b)%nat ->
  <[length t := 0]> (t ++ drop (length t) b) = t ++ 0 :: drop (S (length t)) b.
Proof.
  intros. rewrite <- (Nat.add_0_r (length t)) at 1. rewrite insert_app_r.
  destruct (lookup_lt_is_Some_2 b (length t)) as [x Hx]; [lia|].
  by rewrite (drop_S b x) by done.
Qed.

Lemma terminate_long (t b : list Z) n :
  (0 < n)%nat -> (n <= length t)%nat -> (n <= length b)%nat ->
  <[(n - 1)%nat := 0]> (take n t ++ drop n b) = take (n - 1) t ++ 0 :: drop n b.
Proof.
  intros. destruct (lookup_lt_is_Some_2 t (n - 1)) as [x Hx]; [lia|].
  replace (take n t) with (take (n - 1) t ++ [x]).
  - rewrite <- app_assoc. rewrite <- (Nat.add_0_r (n - 1)) at 1.
    replace (n - 1 + 0)%nat with (length (take (n - 1) t) + 0)%nat at 1
      by (rewrite length_take; lia).
    by rewrite insert_app_r.
  - rewrite <- (take_S_r t (n - 1) x Hx). f_equal. lia.
Qed.

Lemma vsnprintf_buf n fmt ap t b :
  (forall n o, format (S (length fmt)) n fmt ap o = print_bytes n t o) ->
  0 < n < 2 ^ 32 -> n <= Z.of_nat (length b) ->
  vsnprintf (Buf b) n fmt ap =
    Ret (Buf (buffer_after t b (Z.to_nat n)), s32 (Z.min n (Z.of_nat (length t)))).
Proof.
  intros Ht Hn Hb. unfold vsnprintf. rewrite Ht, print_bytes_buf, bind_ret by lia.
  rewrite Z.sub_0_r, Z.add_0_l. change (Z.to_nat 0) with 0%nat.
  rewrite list_inserts_0 by (rewrite length_take; lia). unfold buffer_after, put.
  destruct (Nat.ltb_spec (length t) (Z.to_nat n)) as [Hs|Hl].
  - rewrite Z.min_r, (proj2 (Z.ltb_lt _ n)) by lia.
    rewrite take_ge, !length_app, length_drop by lia.
    rewrite (proj2 (Z.leb_le 0 _)), (proj2 (Z.ltb_lt _ _)) by lia. cbn [andb].
    rewrite !bind_ret, Nat2Z.id, (terminate_short t b (Z.to_nat n)) by lia. done.
  - rewrite Z.min_l, (proj2 (Z.ltb_ge n n)), (proj2 (Z.ltb_lt 0 n)) by lia.
    rewrite length_take, Nat.min_l by lia.
    rewrite !length_app, length_take, length_drop by lia.
    rewrite (proj2 (Z.leb_le 0 _)), (proj2 (Z.ltb_lt _ _)) by lia. cbn [andb].
    rewrite !bind_ret. replace (Z.to_nat (n - 1)) with (Z.to_nat n - 1)%nat by lia.
    by rewrite terminate_long by lia.
Qed.

(** C36: Whenever a format and its arguments print on the console, [vsnprintf]
    of the same format into an array of at least [n] bytes, [n > 0], returns
    and leaves exactly the console text there, cut to [n - 1] characters and
    always terminated, and touches no byte beyond; it returns the number of
    characters, at most [n]. *)
Theorem vsnprintf_truncates lv fb fmt ap t ret n b :
  printf lv fb fmt ap = Ret (t, ret) ->
  0 < n < 2 ^ 32 -> n <= Z.of_nat (length b) ->
  exists tr, t = Console lv fb tr /\
    vsnprintf (Buf b) n fmt ap =
      Ret (Buf (buffer_after (shown tr) b (Z.to_nat n)),
           s32 (Z.min n (Z.of_nat (length (shown tr))))).
Proof.
  unfold printf, vsnprintf at 1. intros Hp Hn Hb.
  destruct (writes_format (S (length fmt)) fmt ap) as [[txt Ht]|Hno].
  - rewrite Ht in Hp.
    destruct (print_bytes_console 0 lv fb txt [] 0) as (tr & Htr & Hshow).
    rewrite Htr in Hp. cbn in Hp. injection Hp as <- <-.
    exists tr. split; [done|]. rewrite Hshow. cbn. by apply vsnprintf_buf.
  - destruct (format _ _ _ _ _) eqn:E; [by apply Hno in E|done..].
Qed.

Lemma vsnprintf_truncates_witness :
  exists tr, Console false true tr = Console false true tr /\
    vsnprintf (Buf (replicate 8 170)) 6 (str "irq %u lost") [AWord 11] =
      Ret (Buf (buffer_after (shown tr) (replicate 8 170) 6),
           s32 (Z.min 6 (Z.of_nat (length (shown tr))))).
Proof.
  destruct (vsnprintf_truncates false true (str "irq %u lost") [AWord 11]
    (Console false true (mjoin ((fun c => [(Font, c); (Serial, c)]) <$> str "irq 11 lost"))) 11
    6 (replicate 8 170)) as (tr & _ & H).
  - vm_compute. reflexivity.
  - lia.
  - cbn. lia.
  - exists tr. split; [reflexivity | exact H].
Defined.

Example vsnprintf_cut :
  vsnprintf (Buf (replicate 8 170)) 6 (str "irq %u lost") [AWord 11] =
    Ret (Buf (str "irq 1" ++ [0; 170; 170]), 6).
Proof. vm_compute. reflexivity. Qed.

(** ** The text of a number *)

Definition digit_text (upper : bool) (d : Z) : Z :=
  if d <? 10 then ch "0" + d else (if upper then ch "A" else ch "a") + (d - 10).

Lemma digit_text_spec upper d : 0 <= d < 16 -> digit upper d = Ret (digit_text upper d).
Proof.
  intros Hd.
  assert (H : forall k, (k < 16)%nat ->
    digit upper (Z.of_nat k) = Ret (digit_text upper (Z.of_nat k))).
  { intros k Hk. destruct upper; do 16 (destruct k as [|k]; [done|]); lia. }
  specialize (H (Z.to_nat d)). rewrite Z2Nat.id in H by lia. apply H. lia.
Qed.

(** The digits of [v], least significant first, as the code produces them. *)
Fixpoint num_rev (upper : bool) (k : nat) (base v : Z) : list Z :=
  match k with
  | S k => if 0 <? v then digit_text upper (v mod base) :: num_rev upper k base (v / base)
           else []
  | O => []
  end.

Definition numeral (upper : bool) (base v : Z) : list Z :=
  if v =? 0 then str "0" else rev (num_rev upper 64 base v).

Lemma num_rev_0 upper k base : num_rev upper k base 0 = [].
Proof. by destruct k. Qed.

Lemma num_digits_spec upper base v :
  2 <= base <= 16 -> 0 <= v < 2 ^ 64 ->
  num_digits upper base v [] = Ret (num_rev upper 64 base v).
Proof.
  intros Hb Hv. unfold num_digits.
  loop_with (fun '(w, tmp) => exists k, (length tmp + k = 64)%nat /\ 0 <= w < 2 ^ Z.of_nat k /\
               tmp ++ num_rev upper k base w = num_rev upper 64 base v)
    (fun tmp => tmp = num_rev upper 64 base v) (fun '(w, _) => w) as (tmp & -> & ->);
    [| exists 64%nat; done | lia | done].
  intros [w tmp] (k & Hk & Hw & Happ). destruct (Z.ltb_spec 0 w) as [Hpos|Hz].
  - left. destruct k as [|k]; [lia|].
    pose proof (Z.mod_pos_bound w base ltac:(lia)).
    rewrite digit_text_spec, bind_ret by lia.
    unfold push. rewrite (proj2 (Nat.ltb_lt _ _)), bind_ret by lia.
    eexists. split; [done|]. split.
    + exists k. rewrite length_app. cbn [length]. split; [lia|].
      rewrite Nat2Z.inj_succ, Z.pow_succ_r in Hw by lia.
      split; [split; [apply Z.div_pos; lia | apply Z.div_lt_upper_bound; nia]|].
      rewrite <- Happ, <- app_assoc. cbn [num_rev app].
      by rewrite (proj2 (Z.ltb_lt 0 w)) by lia.
    + split; [apply Z.div_pos; lia | apply Z.div_lt; lia].
  - right. eexists. split; [done|]. rewrite <- Happ.
    replace w with 0 by lia. by rewrite num_rev_0, app_nil_r.
Qed.

(** What [print_num64] sends to the sink: the value, after the sign if
    [sign] is set, padded to the width. *)
Definition num_text (base val64 : Z) (upper sign : bool) (width : Z) (zero : bool) : list Z :=
  let neg := sign && (s64 val64 <? 0) in
  let ds := numeral upper base (if neg then - s64 val64 else val64) in
  let sgn := if neg then str "-" else [] in
  let pad := Z.to_nat (width - Z.of_nat (length sgn + length ds)) in
  if zero then sgn ++ replicate pad (ch "0") ++ ds else replicate pad (ch " ") ++ sgn ++ ds.

Lemma print_num64_text n base v upper sign width zero o :
  2 <= base <= 16 -> 0 <= v < 2 ^ 64 ->
  print_num64 n v base upper sign width zero o =
    print_bytes n (num_text base v upper sign width zero) o.
Proof.
  intros Hb Hv. unfold print_num64, num_text.
  set (neg := sign && (s64 v <? 0)).
  assert (Habs : 0 <= (if neg then - s64 v else v) < 2 ^ 64).
  { destruct neg eqn:E; [|done]. subst neg. ilia. }
  assert ((if neg then u64 (- s64 v) else v) = (if neg then - s64 v else v)) as ->
    by (destruct neg; [by rewrite u64_small|done]).
  generalize dependent (if neg then - s64 v else v). intros w Hw.
  assert (Htmp : (if w =? 0 then push 72 (ch "0") [] else num_digits upper base w []) =
                 Ret (rev (numeral upper base w))).
  { unfold numeral. destruct (Z.eqb_spec w 0) as [->|]; [done|].
    rewrite num_digits_spec by lia. by rewrite rev_involutive. }
  rewrite Htmp, bind_ret, length_rev, rev_involutive.
  set (ds := numeral upper base w). set (k := length ds).
  assert (Hpad : Z.to_nat (if Z.of_nat k <? width then width - Z.of_nat k - Z.b2z neg else 0) =
                 Z.to_nat (width - Z.of_nat (length (if neg then str "-" else []) + k))).
  { destruct (Z.ltb_spec (Z.of_nat k) width), neg; cbn [Z.b2z];
      try change (length (str "-")) with 1%nat; try change (@length Z []) with 0%nat; lia. }
  rewrite Hpad. set (p := Z.to_nat (width - _)).
  assert (Hsgn : forall o, (if neg then print_char n (ch "-") o else Ret o) =
                 print_bytes n (if neg then str "-" else []) o).
  { intros o'. destruct neg; [|done]. cbn. by destruct (print_char n (ch "-") o'). }
  destruct zero; cbn [andb].
  - destruct (Z.ltb_spec 0 (if Z.of_nat k <? width then width - Z.of_nat k - Z.b2z neg else 0)).
    + rewrite !print_bytes_app, Hsgn. destruct (print_bytes n _ o); cbn; [|done..].
      by rewrite print_bytes_app, print_pad_bytes.
    + assert (p = 0)%nat as -> by lia. cbn [print_pad replicate app].
      rewrite bind_ret, Hsgn, print_bytes_app. done.
  - rewrite !print_bytes_app, print_pad_bytes. destruct (print_bytes n _ o); cbn; [|done..].
    by rewrite Hsgn, print_bytes_app.
Qed.

(** The value a numeral stands for. *)
Definition digit_val (c : Z) : Z :=
  if c <=? ch "9" then c - ch "0" else if c <=? ch "F" then c - ch "A" + 10 else c - ch "a" + 10.
Definition num_val (base : Z) (ds : list Z) : Z :=
  fold_left (fun n c => n * base + digit_val c) ds 0.

Lemma digit_val_text upper d : 0 <= d < 16 -> digit_val (digit_text upper d) = d.
Proof.
  unfold digit_val, digit_text. ch_consts. intros.
  destruct (Z.ltb_spec d 10), upper; repeat case_match; lia.
Qed.

Lemma num_val_rev upper k base v :
  2 <= base <= 16 -> 0 <= v < 2 ^ Z.of_nat k ->
  num_val base (rev (num_rev upper k base v)) = v.
Proof.
  intros Hb. revert v. induction k as [|k IH]; intros v Hv; [cbn in *; lia|].
  cbn [num_rev]. destruct (Z.ltb_spec 0 v); [|cbn; lia].
  cbn [rev]. unfold num_val. rewrite fold_left_app. cbn [fold_left].
  rewrite Nat2Z.inj_succ, Z.pow_succ_r in Hv by lia.
  assert (Hq : 0 <= v / base < 2 ^ Z.of_nat k)
    by (split; [apply Z.div_pos; lia | apply Z.div_lt_upper_bound; nia]).
  pose proof (IH _ Hq) as Hrec. unfold num_val in Hrec. rewrite Hrec.
  rewrite digit_val_text by (pose proof (Z.mod_pos_bound v base ltac:(lia)); lia).
  pose proof (Z.div_mod v base). lia.
Qed.

Lemma num_val_numeral upper base v :
  2 <= base <= 16 -> 0 <= v < 2 ^ 64 -> num_val base (numeral upper base v) = v.
Proof.
  intros Hb Hv. unfold numeral. destruct (Z.eqb_spec v 0) as [->|]; [done|].
  by apply (num_val_rev upper 64).
Qed.

Lemma length_num_text base v upper sign width zero :
  Z.of_nat (length (num_text base v upper sign width zero)) =
    let neg := sign && (s64 v <? 0) in
    Z.max width (Z.b2z neg + Z.of_nat (length (numeral upper base (if neg then - s64 v else v)))).
Proof.
  unfold num_text. destruct (sign && (s64 v <? 0)), zero;
    rewrite !length_app, !length_replicate; cbn [Z.b2z];
    try change (length (str "-")) with 1%nat; try change (@length Z []) with 0%nat; lia.
Qed.

(** Printing a 64-bit number in a base from 2 to 16 never overruns the
    scratch array; the sink receives the sign of a negative signed value and a
    numeral whose value is the magnitude, padded to exactly the width where
    it is shorter, with the sign in front of zeros and behind blanks. *)
Theorem print_num64_correct n base v upper sign width zero o :
  2 <= base <= 16 -> 0 <= v < 2 ^ 64 ->
  let neg := sign && (s64 v <? 0) in
  let mag := if neg then - s64 v else v in
  let ds := numeral upper base mag in
  let sgn := if neg then str "-" else [] in
  exists pad, 
    print_num64 n v base upper sign width zero o =
      print_bytes n (if zero then sgn ++ replicate pad (ch "0") ++ ds
                     else replicate pad (ch " ") ++ sgn ++ ds) o /\
    num_val base ds = mag /\
    Z.of_nat (pad + length (sgn ++ ds)) = Z.max width (Z.of_nat (length (sgn ++ ds))).
Proof.
  intros Hb Hv neg mag ds sgn.
  exists (Z.to_nat (width - Z.of_nat (length sgn + length ds))).
  rewrite print_num64_text by done. split_and!.
  - unfold num_text. by destruct zero.
  - apply num_val_numeral; [done|]. subst mag neg.
    destruct sign; cbn [andb]; [|done]. destruct (Z.ltb_spec (s64 v) 0); ilia.
  - rewrite length_app. lia.
Qed.

Lemma print_num64_correct_witness :
  exists pad,
    print_num64 0 (u64 (-26)) 16 true true 6 true (Console false false [], 0) =
      print_bytes 0 (str "-" ++ replicate pad (ch "0") ++ str "1A") (Console false false [], 0) /\
    num_val 16 (str "1A") = 26 /\ Z.of_nat (pad + 3) = Z.max 6 3.
Proof.
  exact (print_num64_correct 0 16 (u64 (-26)) true true 6 true (Console false false [], 0)
    ltac:(lia) (u64_range (-26))).
Defined.

Lemma printf_directive lv fb (f : list Z) ap txt :
  (forall o, format (S (length f)) 0 f ap o = print_bytes 0 txt o) ->
  exists tr ret, printf lv fb f ap = Ret (Console lv fb tr, ret) /\ shown tr = txt.
Proof.
  intros H. unfold printf, vsnprintf. rewrite H.
  destruct (print_bytes_console 0 lv fb txt [] 0) as (tr & -> & Hs).
  eexists tr, _. rewrite bind_ret. cbn. split; [reflexivity|]. by rewrite Hs.
Qed.

(** [%d] loses the sign of an [int]: a negative argument [x] is shown as
    the numeral of [x + 2^32], because the argument is converted to [u32] before the
    64-bit signed printer sees it; with [%ld] the same value is shown with its sign. *)
Theorem printf_d_negative lv fb x :
  - 2 ^ 31 <= x < 0 ->
  (exists tr ret, printf lv fb (str "%d") [AWord x] = Ret (Console lv fb tr, ret) /\
     shown tr = numeral false 10 (x + 2 ^ 32)) /\
  (exists tr ret, printf lv fb (str "%ld") [AWord x] = Ret (Console lv fb tr, ret) /\
     shown tr = str "-" ++ numeral false 10 (- x)).
Proof.
  intros Hx. split; apply printf_directive; intros o.
  - change (format (S (length (str "%d"))) 0 (str "%d") [AWord x] o) with
      ('(o, ap) ← (o ← print_num64 0 (u32 x) 10 false true 0 false o; Ret (o, @nil arg));
       Ret o).
    rewrite print_num64_text by (pose proof (u32_range x); lia).
    replace (u32 x) with (x + 2 ^ 32) by ilia.
    unfold num_text. rewrite s64_small, (proj2 (Z.ltb_ge _ 0)) by lia. cbn [andb].
    replace (Z.to_nat _) with 0%nat by lia. cbn [replicate app].
    by destruct (print_bytes _ _ o).
  - change (format (S (length (str "%ld"))) 0 (str "%ld") [AWord x] o) with
      ('(o, ap) ← (o ← print_num64 0 (u64 x) 10 false true 0 false o; Ret (o, @nil arg));
       Ret o).
    rewrite print_num64_text by (pose proof (u64_range x); lia).
    assert (s64 (u64 x) = x) as Hs by ilia.
    unfold num_text. rewrite Hs, (proj2 (Z.ltb_lt _ 0)) by lia. cbn [andb].
    replace (Z.to_nat _) with 0%nat by lia. cbn [replicate].
    by destruct (print_bytes _ _ o).
Qed.

Lemma printf_d_negative_witness :
  (exists tr ret, printf false false (str "%d") [AWord (-5)] = Ret (Console false false tr, ret) /\
     shown tr = str "4294967291") /\
  (exists tr ret, printf false false (str "%ld") [AWord (-5)] = Ret (Console false false tr, ret) /\
     shown tr = str "-5").
Proof. exact (printf_d_negative false false (-5) ltac:(lia)). Defined.

(** [%e] never shows the digits of the exponent. *)
Example printf_e_exponent :
  shown (match printf false false (str "%e") [ADbl (Dbl.of_Z 1500)] with
         | Ret (Console _ _ tr, _) => tr | _ => [] end) = str "1.500000e+".
Proof. vm_compute. reflexivity. Qed.
