(* ===== verification/Scanf.v ===== *)
(** * libkern: scanf.c

    The input side: conversion of a line by a format.  A destination pointer
    is the array behind it; the model records what is stored, and faults on a
    store beyond the array.  Shown: a number printed by the formatter is read
    back, and the line editor of [scanf] stays inside its array. *)

From S2P Require Import Prelude Libc Double Printf.

(** ** Destinations and results *)

(** What an argument of the call points to: an integer object, or an array of
    [cap] characters. *)
Inductive dest := DNum | DChars (cap : nat).

Inductive stored :=
  | StNum (lng : bool) (v : Z)
  | StStr (s : list Z)
  | StChr (c : Z).

Definition va_num_ptr (ap : list dest) : run (list dest) :=
  match ap with DNum :: ap => Ret ap | _ => Fault end.
Definition va_chars (ap : list dest) : run (nat * list dest) :=
  match ap with DChars cap :: ap => Ret (cap, ap) | _ => Fault end.

(** The input left, the destinations left, what was stored, the count. *)
Record scan := mkScan
  { sc_in : list Z; sc_ap : list dest; sc_out : list stored; sc_count : Z }.

(** ** Conversions *)

Fixpoint skip_ws (p : list Z) : list Z :=
  match p with
  | c :: p' => if Ctype.isspace (s8 c) then skip_ws p' else p
  | [] => []
  end.

(** The digits of [%d]; [n] characters have been taken, [neg] of them a minus. *)
Fixpoint d_digits (width neg val n : Z) (p : list Z) : run (Z * Z * list Z) :=
  match p with
  | c :: p' =>
      if Float.is_dec c && ((width =? 0) || (n - neg <? width)) then
        t ← int32 (val * 10); val ← int32 (t + (c - ch "0"));
        d_digits width neg val (n + 1) p'
      else Ret (val, n, p)
  | [] => Ret (val, n, [])
  end.

(** The digits of [%u]; unsigned arithmetic wraps. *)
Fixpoint u_digits (width val n : Z) (p : list Z) : Z * Z * list Z :=
  match p with
  | c :: p' =>
      if Float.is_dec c && ((width =? 0) || (n <? width))
      then u_digits width (u32 (u32 (val * 10) + (c - ch "0"))) (n + 1) p'
      else (val, n, p)
  | [] => (val, n, [])
  end.

Definition hex_digit (c : Z) : option Z :=
  if Float.is_dec c then Some (c - ch "0")
  else if (ch "a" <=? c) && (c <=? ch "f") then Some (c - ch "a" + 10)
  else if (ch "A" <=? c) && (c <=? ch "F") then Some (c - ch "A" + 10)
  else None.

Fixpoint x_digits (val n : Z) (p : list Z) : Z * Z * list Z :=
  match p with
  | c :: p' =>
      match hex_digit c with
      | Some d => x_digits (u32 (u32 (val * 16) + d)) (n + 1) p'
      | None => (val, n, p)
      end
  | [] => (val, n, [])
  end.

(** The characters taken by [%s] and [%[...]]: the longest prefix that [ok]
    accepts, at most [width] of them if [width] is not 0. *)
Fixpoint take_while (ok : Z -> bool) (width n : Z) (p : list Z) : list Z * list Z :=
  match p with
  | c :: p' =>
      if ok c && ((width =? 0) || (n <? width)) then
        let '(s, rest) := take_while ok width (n + 1) p' in (c :: s, rest)
      else ([], p)
  | [] => ([], [])
  end.

(** [s[n] = *p] for the taken characters, then the terminator. *)
Definition store_str (cap : nat) (s : list Z) (sc : scan) : run scan :=
  if bool_decide (s = []) then Ret sc
  else if (S (length s) <=? cap)%nat
  then Ret (mkScan (sc_in sc) (sc_ap sc) (sc_out sc ++ [StStr s]) (sc_count sc + 1))
  else Fault.

Definition store_num (noassign lng got : bool) (v : Z) (sc : scan) : run scan :=
  if got && negb noassign then
    ap ← va_num_ptr (sc_ap sc);
    Ret (mkScan (sc_in sc) ap (sc_out sc ++ [StNum lng v]) (sc_count sc + 1))
  else Ret sc.

(** A scanset is the table [set[256]]. *)
Definition set_range (lo hi : Z) (set : gset Z) : gset Z :=
  list_to_set (seqZ lo (hi - lo + 1)) ∪ set.

Fixpoint scanset (fmt : list Z) (set : gset Z) : gset Z * list Z :=
  match fmt with
  | [] => (set, [])
  | c :: fmt1 =>
      if c =? ch "]" then (set, fmt)
      else
        match fmt1 with
        | d :: e :: fmt3 =>
            if (d =? ch "-") && negb (e =? ch "]") then scanset fmt3 (set_range c e set)
            else scanset fmt1 ({[c]} ∪ set)
        | _ => scanset fmt1 ({[c]} ∪ set)
        end
  end.

Definition peek : list Z -> Z := Float.peek.
Definition set_in (p : list Z) (sc : scan) : scan :=
  mkScan p (sc_ap sc) (sc_out sc) (sc_count sc).
Definition set_ap (ap : list dest) (sc : scan) : scan :=
  mkScan (sc_in sc) ap (sc_out sc) (sc_count sc).

(** The sign of [%d]: [neg], the characters taken, the rest. *)
Definition d_sign (p : list Z) : Z * Z * list Z :=
  if peek p =? ch "-" then (1, 1, tail p)
  else if peek p =? ch "+" then (0, 1, tail p) else (0, 0, p).

(** One conversion: [fmt] points at the conversion character.  Returns where
    [fmt] points after the [switch]. *)
Definition conversion (width : Z) (lng noassign : bool) (fmt : list Z) (sc : scan)
    : run (list Z * scan) :=
  let c := peek fmt in
  if c =? ch "d" then
    let p := skip_ws (sc_in sc) in
    let '(neg, n, p) := d_sign p in
    '(val, n, p) ← d_digits width neg 0 n p;
    let val := if neg =? 1 then - val else val in
    sc ← store_num noassign lng (neg <? n) val (set_in p sc);
    Ret (fmt, sc)
  else if c =? ch "u" then
    let '(val, n, p) := u_digits width 0 0 (skip_ws (sc_in sc)) in
    sc ← store_num noassign lng (0 <? n) val (set_in p sc);
    Ret (fmt, sc)
  else if (c =? ch "x") || (c =? ch "X") then
    let p := skip_ws (sc_in sc) in
    let '(n, p) := if peek p =? ch "0" then (1, tail p) else (0, p) in
    let '(n, p) := if (peek p =? ch "x") || (peek p =? ch "X") then (n + 1, tail p)
                   else (n, p) in
    let '(val, n, p) := x_digits 0 n p in
    sc ← store_num noassign lng (0 <? n) val (set_in p sc);
    Ret (fmt, sc)
  else if c =? ch "s" then
    '(cap, ap) ← (if noassign then Ret (0%nat, sc_ap sc) else va_chars (sc_ap sc));
    let '(s, p) := take_while (fun c => negb (Ctype.isspace (s8 c))) width 0
                     (skip_ws (sc_in sc)) in
    let sc := set_in p (set_ap ap sc) in
    sc ← (if noassign then Ret sc else store_str cap s sc);
    Ret (fmt, sc)
  else if c =? ch "c" then
    match sc_in sc with
    | [] => Ret (fmt, sc)
    | x :: p =>
        if noassign then Ret (fmt, set_in p sc)
        else
          '(cap, ap) ← va_chars (sc_ap sc);
          if (1 <=? cap)%nat
          then Ret (fmt, mkScan p ap (sc_out sc ++ [StChr x]) (sc_count sc + 1))
          else Fault
    end
  else if c =? ch "[" then
    '(cap, ap) ← (if noassign then Ret (0%nat, sc_ap sc) else va_chars (sc_ap sc));
    let sc := set_ap ap sc in
    let fmt := tail fmt in
    let '(invert, fmt) := if peek fmt =? ch "^" then (true, tail fmt) else (false, fmt) in
    let '(set, fmt) := if peek fmt =? ch "]" then ({[ch "]"]}, tail fmt) else (∅, fmt) in
    let '(set, fmt) := scanset fmt set in
    if negb (peek fmt =? ch "]") then Ret (fmt, sc)
    else
      let '(s, p) := take_while (fun c => xorb (bool_decide (c ∈ set)) invert) width 0
                       (sc_in sc) in
      let sc := set_in p sc in
      sc ← (if noassign then Ret sc else store_str cap s sc);
      Ret (fmt, sc)
  else if c =? ch "%" then
    Ret (fmt, if peek (sc_in sc) =? ch "%" then set_in (tail (sc_in sc)) sc else sc)
  else Ret (fmt, sc).

(** The loop over the format; every round consumes a character of it. *)
Fixpoint vsscanf_loop (fuel : nat) (fmt : list Z) (sc : scan) : run scan :=
  match fuel with
  | O => Spin
  | S fuel =>
      match fmt with
      | [] => Ret sc
      | c :: fmt' =>
          if Ctype.isspace (s8 c) then vsscanf_loop fuel fmt' (set_in (skip_ws (sc_in sc)) sc)
          else if negb (c =? ch "%") then
            if peek (sc_in sc) =? c
            then vsscanf_loop fuel fmt' (set_in (tail (sc_in sc)) sc)
            else Ret sc
          else
            '(width, fmt) ← fmt_number 0 fmt';
            let '(lng, fmt) := if peek fmt =? ch "l" then (true, tail fmt) else (false, fmt) in
            let '(noassign, fmt) :=
              if peek fmt =? ch "*" then (true, tail fmt) else (false, fmt) in
            if bool_decide (fmt = []) then Ret sc
            else
              '(fmt, sc) ← conversion width lng noassign fmt sc;
              vsscanf_loop fuel (tail fmt) sc
      end
  end.

Definition vsscanf (buf fmt : list Z) (ap : list dest) : run (Z * list stored) :=
  sc ← vsscanf_loop (S (length fmt)) fmt (mkScan buf ap [] 0);
  Ret (sc_count sc, sc_out sc).

Definition sscanf : list Z -> list Z -> list dest -> run (Z * list stored) := vsscanf.

(** [getchar]: the keyboard is polled first, then USB is serviced and polled.
    The two sources answer with a character or -1. *)
Definition getchar (atkbd_pollchar usb_getchar : Z) : Z :=
  if 0 <=? atkbd_pollchar then atkbd_pollchar else usb_getchar.

(** The line editor of [scanf]: [keys] are the answers of successive
    [getchar] calls; [line] is the content of [line[0..i)].  [None]: still
    waiting for the end of the line. *)
Fixpoint edit_line (keys line : list Z) : option (list Z) :=
  match keys with
  | [] => None
  | c :: keys =>
      if c <? 0 then edit_line keys line
      else if (c =? 10) || (c =? 13) then Some line
      else if (c =? 8) || (c =? 0x7F) then edit_line keys (take (length line - 1) line)
      else if (length line <? 255)%nat then edit_line keys (line ++ [u8 c])
      else edit_line keys line
  end.

(** [line[i] = 0] is inside the array of 256 bytes when [i <= 255]. *)
Definition scanf (keys fmt : list Z) (ap : list dest) : run (option (Z * list stored)) :=
  match edit_line keys [] with
  | None => Ret None
  | Some line =>
      if (length line <=? 255)%nat then
        r ← vsscanf (fst (take_while (fun c => negb (c =? 0)) 0 0 line)) fmt ap;
        Ret (Some r)
      else Fault
  end.

Example sscanf_example :
  sscanf (str "  ip 10.0 [eth0] ff") (str " ip %d.%u [%[^]]] %x") [DNum; DNum; DChars 8; DNum]
  = Ret (4, [StNum false 10; StNum false 0; StStr (str "eth0"); StNum false 255]).
Proof. vm_compute. reflexivity. Qed.

(** ** Reading back what was printed *)

Definition num_from (base v : Z) (ds : list Z) : Z :=
  fold_left (fun n c => n * base + digit_val c) ds v.

Definition based (base c : Z) : Prop :=
  exists d, 0 <= d < base /\ c = digit_text false d.

Lemma num_from_grows base v ds :
  2 <= base <= 16 -> 0 <= v -> Forall (based base) ds -> v <= num_from base v ds.
Proof.
  intros Hb Hv H. revert v Hv. induction H as [|c ds (d & Hd & ->) _ IH]; intros v Hv; cbn; [lia|].
  rewrite digit_val_text by lia. specialize (IH (v * base + d)). unfold num_from in IH. nia.
Qed.

Lemma numeral_based base v :
  2 <= base <= 16 -> 0 <= v -> Forall (based base) (numeral false base v).
Proof.
  intros Hb Hv. unfold numeral. destruct (Z.eqb_spec v 0).
  { constructor; [|done]. exists 0. by split; [lia|]. }
  apply Forall_rev. generalize 64%nat as k. intros k. revert v Hv n.
  induction k as [|k IH]; intros v Hv Hne; cbn [num_rev]; [done|].
  destruct (Z.ltb_spec 0 v); [|done]. constructor.
  - eexists. split; [|done]. apply Z.mod_pos_bound. lia.
  - destruct (decide (v / base = 0)) as [->|]; [by rewrite num_rev_0|].
    apply IH; [apply Z.div_pos; lia|done].
Qed.

Lemma based_dec c : based 10 c -> Float.is_dec c = true /\ digit_val c = c - ch "0".
Proof.
  intros (d & Hd & ->). rewrite digit_val_text by lia.
  unfold Float.is_dec, digit_text. ch_consts. rewrite (proj2 (Z.ltb_lt d 10)) by lia. lia.
Qed.

Lemma based_hex c : based 16 c -> hex_digit c = Some (digit_val c).
Proof.
  intros (d & Hd & ->). rewrite digit_val_text by lia.
  unfold hex_digit, Float.is_dec, digit_text. ch_consts.
  destruct (Z.ltb_spec d 10); repeat case_match; f_equal; lia.
Qed.

Definition stops (ok : Z -> bool) (rest : list Z) : Prop :=
  match rest with c :: _ => ok c = false | [] => True end.

Lemma u_digits_read v n ds rest :
  0 <= v -> Forall (based 10) ds -> stops Float.is_dec rest ->
  num_from 10 v ds < 2 ^ 32 ->
  u_digits 0 v n (ds ++ rest) = (num_from 10 v ds, n + Z.of_nat (length ds), rest).
Proof.
  intros Hv H Hr. revert v n Hv. induction H as [|c ds Hc Hds IH]; intros v n Hv Hlt.
  { cbn. destruct rest as [|c rest]; cbn in Hr |- *; [|rewrite Hr; cbn]; tuple_eq. }
  destruct (based_dec c Hc) as [Hdec Hval].
  assert (0 <= digit_val c < 10) by (destruct Hc as (d & ? & ->); rewrite digit_val_text; lia).
  pose proof (num_from_grows 10 (v * 10 + digit_val c) ds ltac:(lia) ltac:(lia) Hds) as Hg.
  change (num_from 10 v (c :: ds)) with (num_from 10 (v * 10 + digit_val c) ds) in *.
  cbn [app u_digits]. rewrite Hdec, <- Hval. cbn [andb orb Z.eqb].
  rewrite (u32_small (v * 10)), u32_small, IH by lia. cbn [length]. tuple_eq.
Qed.

Lemma d_digits_read neg v n ds rest :
  0 <= v -> Forall (based 10) ds -> stops Float.is_dec rest ->
  num_from 10 v ds < 2 ^ 31 ->
  d_digits 0 neg v n (ds ++ rest) = Ret (num_from 10 v ds, n + Z.of_nat (length ds), rest).
Proof.
  intros Hv H Hr. revert v n Hv. induction H as [|c ds Hc Hds IH]; intros v n Hv Hlt.
  { cbn. destruct rest as [|c rest]; cbn in Hr |- *; [|rewrite Hr; cbn]; tuple_eq. }
  destruct (based_dec c Hc) as [Hdec Hval].
  assert (0 <= digit_val c < 10) by (destruct Hc as (d & ? & ->); rewrite digit_val_text; lia).
  pose proof (num_from_grows 10 (v * 10 + digit_val c) ds ltac:(lia) ltac:(lia) Hds) as Hg.
  change (num_from 10 v (c :: ds)) with (num_from 10 (v * 10 + digit_val c) ds) in *.
  cbn [app d_digits]. rewrite Hdec, <- Hval. cbn [andb orb Z.eqb].
  rewrite (int32_ok (v * 10)), bind_ret, int32_ok, bind_ret, IH by lia. cbn [length]. tuple_eq.
Qed.

Lemma x_digits_read v n ds rest :
  0 <= v -> Forall (based 16) ds ->
  stops (fun c => bool_decide (is_Some (hex_digit c))) rest ->
  num_from 16 v ds < 2 ^ 32 ->
  x_digits v n (ds ++ rest) = (num_from 16 v ds, n + Z.of_nat (length ds), rest).
Proof.
  intros Hv H Hr. revert v n Hv. induction H as [|c ds Hc Hds IH]; intros v n Hv Hlt.
  { cbn. destruct rest as [|c rest]; cbn in Hr |- *; [tuple_eq|].
    destruct (hex_digit c); [by rewrite bool_decide_true in Hr by eauto | tuple_eq]. }
  assert (0 <= digit_val c < 16) by (destruct Hc as (d & ? & ->); rewrite digit_val_text; lia).
  pose proof (num_from_grows 16 (v * 16 + digit_val c) ds ltac:(lia) ltac:(lia) Hds) as Hg.
  change (num_from 16 v (c :: ds)) with (num_from 16 (v * 16 + digit_val c) ds) in *.
  cbn [app x_digits]. rewrite (based_hex c Hc).
  rewrite (u32_small (v * 16)), u32_small, IH by lia. cbn [length]. tuple_eq.
Qed.

(** The first character of a numeral. *)
Lemma numeral_head base v :
  2 <= base <= 16 -> 0 <= v < 2 ^ 64 ->
  exists c ds, numeral false base v = c :: ds /\ based base c.
Proof.
  intros Hb Hv. pose proof (numeral_based base v Hb ltac:(lia)) as H.
  pose proof (num_val_numeral false base v Hb Hv) as Hval.
  destruct (numeral false base v) as [|c ds] eqn:E.
  - unfold numeral in E. destruct (Z.eqb_spec v 0); [done|]. cbn in Hval. lia.
  - exists c, ds. split; [done|]. by apply Forall_inv in H.
Qed.

Lemma based_visible base c :
  base <= 16 -> based base c ->
  Ctype.isspace (s8 c) = false /\ c <> ch "-" /\ c <> ch "+" /\ c <> ch "x" /\ c <> ch "X".
Proof.
  intros Hb (d & Hd & ->). unfold Ctype.isspace, digit_text. ch_consts.
  destruct (Z.ltb_spec d 10); split_and!; ilia.
Qed.

Lemma skip_ws_stop p : stops (fun c => Ctype.isspace (s8 c)) p -> skip_ws p = p.
Proof. destruct p as [|c p]; cbn; [done|]. by intros ->. Qed.

Lemma num_from_numeral base v :
  2 <= base <= 16 -> 0 <= v < 2 ^ 64 -> num_from base 0 (numeral false base v) = v.
Proof. apply num_val_numeral. Qed.

Lemma numeral_visible base v rest :
  2 <= base <= 16 -> 0 <= v < 2 ^ 64 ->
  skip_ws (numeral false base v ++ rest) = numeral false base v ++ rest.
Proof.
  intros Hb Hv. destruct (numeral_head base v) as (c & ds & -> & Hc); [lia..|].
  apply skip_ws_stop, (based_visible base); [lia|done].
Qed.

Lemma numeral_length_pos base v :
  2 <= base <= 16 -> 0 <= v < 2 ^ 64 -> 0 < Z.of_nat (length (numeral false base v)).
Proof.
  intros Hb Hv. destruct (numeral_head base v) as (c & ds & -> & Hc); [lia..|]. cbn. lia.
Qed.

(** A format that is one conversion. *)
Lemma sscanf_conversion c p ap :
  c = ch "d" \/ c = ch "u" \/ c = ch "x" ->
  sscanf p [ch "%"; c] ap =
    ('(fmt, sc) ← conversion 0 false false [c] (mkScan p ap [] 0);
     sc ← vsscanf_loop 2 (tail fmt) sc; Ret (sc_count sc, sc_out sc)).
Proof.
  intros Hc. unfold sscanf, vsscanf.
  assert (vsscanf_loop 3 [ch "%"; c] (mkScan p ap [] 0) =
      ('(fmt, sc) ← conversion 0 false false [c] (mkScan p ap [] 0);
       vsscanf_loop 2 (tail fmt) sc)) as Hloop
    by (destruct Hc as [->|[->| ->]]; reflexivity).
  cbn [length]. rewrite Hloop.
  by destruct (conversion _ _ _ _ _) as [[fmt sc]| |].
Qed.

Lemma sscanf_u v rest :
  0 <= v < 2 ^ 32 -> stops Float.is_dec rest ->
  sscanf (numeral false 10 v ++ rest) (str "%u") [DNum] = Ret (1, [StNum false v]).
Proof.
  intros Hv Hr. unfold str. cbn [String.list_ascii_of_string fmap list_fmap].
  rewrite sscanf_conversion by auto.
  assert (forall p sc, conversion 0 false false [ch "u"] (set_in p sc) =
    (let '(val, n, p) := u_digits 0 0 0 (skip_ws p) in
     sc ← store_num false false (0 <? n) val (set_in p sc); Ret ([ch "u"], sc))) as Hconv
    by reflexivity.
  change (mkScan ?p ?a ?o ?c) with (set_in p (mkScan [] a o c)).
  rewrite Hconv, numeral_visible by lia.
  rewrite u_digits_read by (lia || done || (apply numeral_based; lia) ||
    (rewrite num_from_numeral; lia)).
  pose proof (numeral_length_pos 10 v ltac:(lia) ltac:(lia)).
  rewrite (proj2 (Z.ltb_lt 0 _)), num_from_numeral by lia. reflexivity.
Qed.

Lemma sscanf_x v rest :
  0 <= v < 2 ^ 32 -> stops (fun c => bool_decide (is_Some (hex_digit c))) rest ->
  sscanf (str "0x" ++ numeral false 16 v ++ rest) (str "%x") [DNum] = Ret (1, [StNum false v]).
Proof.
  intros Hv Hr. unfold str at 2. cbn [String.list_ascii_of_string fmap list_fmap].
  rewrite sscanf_conversion by auto.
  assert (forall p sc, conversion 0 false false [ch "x"] (set_in (str "0x" ++ p) sc) =
    (let '(val, n, p) := x_digits 0 2 p in
     sc ← store_num false false (0 <? n) val (set_in p sc); Ret ([ch "x"], sc))) as Hconv
    by reflexivity.
  change (mkScan ?p ?a ?o ?c) with (set_in p (mkScan [] a o c)).
  rewrite Hconv, x_digits_read by (lia || done || (apply numeral_based; lia) ||
    (rewrite num_from_numeral; lia)).
  rewrite (proj2 (Z.ltb_lt 0 _)), num_from_numeral by lia. reflexivity.
Qed.

Lemma sscanf_d v rest :
  - 2 ^ 31 < v < 2 ^ 31 -> stops Float.is_dec rest ->
  sscanf (num_text 10 (u64 v) false true 0 false ++ rest) (str "%d") [DNum] =
    Ret (1, [StNum false v]).
Proof.
  intros Hv Hr. unfold str. cbn [String.list_ascii_of_string fmap list_fmap].
  rewrite sscanf_conversion by auto.
  assert (forall p sc, conversion 0 false false [ch "d"] (set_in p sc) =
    (let '(neg, n, p) := d_sign (skip_ws p) in
     '(val, n, p) ← d_digits 0 neg 0 n p;
     let val := if neg =? 1 then - val else val in
     sc ← store_num false false (neg <? n) val (set_in p sc); Ret ([ch "d"], sc))) as Hconv
    by reflexivity.
  change (mkScan ?p ?a ?o ?c) with (set_in p (mkScan [] a o c)). rewrite Hconv. clear Hconv.
  unfold num_text. assert (s64 (u64 v) = v) as -> by ilia. cbn [andb].
  replace (Z.to_nat (0 - _)) with 0%nat by lia. cbn [replicate app].
  set (neg := Z.b2z (v <? 0)).
  assert (d_sign (skip_ws (((if v <? 0 then str "-" else []) ++
            numeral false 10 (if v <? 0 then - v else u64 v)) ++ rest)) =
          (neg, neg, numeral false 10 (Z.abs v) ++ rest)) as ->.
  { subst neg. rewrite <- app_assoc. destruct (Z.ltb_spec v 0).
    - rewrite skip_ws_stop, Z.abs_neq by (done || lia). reflexivity.
    - cbn [app]. rewrite u64_small, numeral_visible, Z.abs_eq by lia. unfold d_sign.
      destruct (numeral_head 10 v) as (c & ds & -> & Hc); [lia..|].
      destruct (based_visible 10 c ltac:(lia) Hc) as (_ & ? & ? & _).
      change (peek ((c :: ds) ++ rest)) with c.
      rewrite (proj2 (Z.eqb_neq c (ch "-"))), (proj2 (Z.eqb_neq c (ch "+"))) by done. done. }
  rewrite d_digits_read by (lia || done || (apply numeral_based; lia) ||
    (rewrite num_from_numeral; lia)).
  pose proof (numeral_length_pos 10 (Z.abs v) ltac:(lia) ltac:(lia)).
  rewrite bind_ret, num_from_numeral, (proj2 (Z.ltb_lt neg _)) by lia.
  replace (if neg =? 1 then - Z.abs v else Z.abs v) with v; [reflexivity|].
  subst neg. destruct (Z.ltb_spec v 0); cbn; lia.
Qed.

Lemma plain_text base v : num_text base v false false 0 false = numeral false base v.
Proof. unfold num_text. cbn [andb]. by replace (Z.to_nat _) with 0%nat by lia. Qed.

(** C37: [sscanf] reads back what [printf] wrote: an unsigned number below 2^32
    printed by %u and read by %u, or printed by 0x%x and read by %x, and a
    signed number above -2^31 and below 2^31 printed by %ld and read by %d, each
    up to the first character that cannot continue the numeral. *)
Theorem sscanf_reads_numbers lv fb rest :
  stops (fun c => bool_decide (is_Some (hex_digit c))) rest ->
  (forall v, 0 <= v < 2 ^ 32 -> exists tr ret, printf lv fb (str "%u") [AWord v] = Ret (Console lv fb tr, ret) /\
     sscanf (shown tr ++ rest) (str "%u") [DNum] = Ret (1, [StNum false v])) /\
  (forall v, 0 <= v < 2 ^ 32 -> exists tr ret, printf lv fb (str "0x%x") [AWord v] = Ret (Console lv fb tr, ret) /\
     sscanf (shown tr ++ rest) (str "%x") [DNum] = Ret (1, [StNum false v])) /\
  (forall v, - 2 ^ 31 < v < 2 ^ 31 -> exists tr ret, printf lv fb (str "%ld") [AWord v] = Ret (Console lv fb tr, ret) /\
     sscanf (shown tr ++ rest) (str "%d") [DNum] = Ret (1, [StNum false v])).
Proof.
  intros Hr.
  assert (Hr' : stops Float.is_dec rest).
  { destruct rest as [|c rest]; [done|]. cbn in Hr |- *. unfold hex_digit in Hr.
    destruct (Float.is_dec c); [by rewrite bool_decide_true in Hr by eauto|done]. }
  split_and!; intros v Hv.
  - destruct (printf_directive lv fb (str "%u") [AWord v] (num_text 10 v false false 0 false)) as (tr & ret & Hp & Hs).
    { intros o. change (format (S (length (str "%u"))) 0 (str "%u") [AWord v] o) with ('(o, ap) ← (o ← print_num64 0 (u32 v) 10 false false 0 false o; Ret (o, @nil arg)); Ret o).
      rewrite u32_small, print_num64_text by lia. by destruct (print_bytes _ _ o). }
    exists tr, ret. split; [done|]. rewrite Hs, plain_text. by apply sscanf_u.
  - destruct (printf_directive lv fb (str "0x%x") [AWord v] (str "0x" ++ num_text 16 v false false 0 false)) as (tr & ret & Hp & Hs).
    { intros o. change (format (S (length (str "0x%x"))) 0 (str "0x%x") [AWord v] o) with
        (o ← print_char 0 (ch "0") o; o ← print_char 0 (ch "x") o; '(o, ap) ← (o ← print_num64 0 (u32 v) 16 false false 0 false o; Ret (o, @nil arg)); Ret o).
      rewrite print_bytes_app. change (print_bytes 0 (str "0x") o) with (o ← print_char 0 (ch "0") o; o ← print_char 0 (ch "x") o; Ret o).
      destruct (print_char 0 (ch "0") o) as [o1| |]; [|done..]. rewrite !bind_ret. destruct (print_char 0 (ch "x") o1) as [o2| |]; [|done..]. rewrite !bind_ret, u32_small, print_num64_text by lia. by destruct (print_bytes _ _ o2). }
    exists tr, ret. split; [done|]. rewrite Hs, plain_text, <- app_assoc. by apply sscanf_x.
  - destruct (printf_directive lv fb (str "%ld") [AWord v] (num_text 10 (u64 v) false true 0 false)) as (tr & ret & Hp & Hs).
    { intros o. change (format (S (length (str "%ld"))) 0 (str "%ld") [AWord v] o) with ('(o, ap) ← (o ← print_num64 0 (u64 v) 10 false true 0 false o; Ret (o, @nil arg)); Ret o).
      rewrite print_num64_text by (pose proof (u64_range v); lia). by destruct (print_bytes _ _ o). }
    exists tr, ret. split; [done|]. rewrite Hs. by apply sscanf_d.
Qed.

Lemma sscanf_reads_numbers_witness :
  exists tr ret, printf false false (str "%ld") [AWord (-42)] = Ret (Console false false tr, ret) /\
    sscanf (shown tr ++ str " rest") (str "%d") [DNum] = Ret (1, [StNum false (-42)]).
Proof. exact (proj2 (proj2 (sscanf_reads_numbers false false (str " rest") eq_refl)) (-42) ltac:(lia)). Defined.

(** Longer numbers are cut to 32 bits, with %lu too: 2^32 + 5, as %lu prints it,
    is read back as 5. *)
Lemma long_numbers_cut :
  exists tr ret, printf false false (str "%lu") [AWord (2 ^ 32 + 5)] = Ret (Console false false tr, ret) /\
    shown tr = str "4294967301" /\ sscanf (shown tr) (str "%lu") [DNum] = Ret (1, [StNum true 5]).
Proof. eexists _, _. split; [vm_compute; reflexivity|]. by vm_compute. Qed.

(** The line editor keeps [i] inside the array, so that the terminator fits. *)
Lemma edit_line_bound keys line l :
  (length line <= 255)%nat -> edit_line keys line = Some l -> (length l <= 255)%nat.
Proof.
  revert line. induction keys as [|c keys IH]; intros line Hlen; cbn [edit_line]; [done|].
  repeat case_match; intros; simplify_eq; eauto.
  - eapply IH; [|done]. rewrite length_take. lia.
  - eapply IH; [|done]. rewrite length_app. cbn.
    destruct (Nat.ltb_spec (length line) 255); [lia|done].
Qed.
