(* ===== verification/Pmm.v ===== *)
(** * osfmk/vm/pmm.c and pexpert/x86_64/e820.c: physical memory

    The frame allocator is a stack of physical addresses, filled from the
    memory map of the firmware.  Shown: the frames it holds are exactly those
    of the available ranges outside the kernel and the guard, without
    duplicates; allocation and release; the reservation of a range; and that a
    range too small for a page fills the allocator with frames that are not
    memory.  The promise made to the paging layer is the class
    [FrameAllocator], which the allocator implements. *)

From S2P Require Import Prelude Libc Printf.

Definition PAGE_SIZE : Z := 4096.
Definition PMM_STACK_SIZE : Z := 65536.
Definition PMM_MAX_ADDR : Z := 0xC0000000.
(** [(u64)16 << 20] *)
Definition PMM_TOP_GUARD : Z := 0x1000000.
Definition MULTIBOOT_MEMORY_AVAILABLE : Z := 1.

(** [x & ~(PAGE_SIZE - 1)] on 64 bits. *)
Definition page_down (x : Z) : Z := Z.land x (u64 (Z.lnot (PAGE_SIZE - 1))).

(** The attribute word of an entry is not read by the kernel. *)
Record e820_entry := mkE820 { e_base : Z; e_length : Z; e_type : Z }.

(** ** e820.c *)
Module E820.

Definition E820_MAX_ENTRIES : Z := 128.

Definition type_str (ty : Z) : list Z :=
  if ty =? 1 then str "usable" else if ty =? 2 then str "reserved"
  else if ty =? 3 then str "acpi" else if ty =? 4 then str "nvs" else str "unknown".

Definition entry_line (lv fb : bool) (e : e820_entry) : run (target * Z) :=
  printf lv fb (str "base: <0x%016llx> len: <0x%016llx> type: %s" ++ [10])
    [AWord (e_base e); AWord (e_length e); AStr (Some (type_str (e_type e)))].

(** The lines printed for the map, each by its own call. *)
Fixpoint e820_print (lv fb : bool) (m : list e820_entry) : run (list (target * Z)) :=
  match m with
  | e :: m => l ← entry_line lv fb e; ls ← e820_print lv fb m; Ret (l :: ls)
  | [] => Ret []
  end.

(** [mem_e820_main]: the copy kept by the kernel.  [map] are the entries at
    the pointer; reading past them is a fault. *)
Definition mem_e820_main (map : list e820_entry) (count : Z) : run (list e820_entry) :=
  let count := if E820_MAX_ENTRIES <? count then E820_MAX_ENTRIES else count in
  if count <=? Z.of_nat (length map) then Ret (take (Z.to_nat count) map) else Fault.

End E820.

(** ** pmm.c *)
Module Pmm.

(** [pmm_stack[0..pmm_stack_top)] and [pmm_total_memory]. *)
Record pmm := mkPmm { stack : list Z; total : Z }.

Definition top (s : pmm) : Z := Z.of_nat (length (stack s)).

Definition pmm_free (addr : Z) (s : pmm) : pmm :=
  if addr =? 0 then s
  else if top s <? PMM_STACK_SIZE then mkPmm (stack s ++ [addr]) (total s)
  else s.

Definition pmm_alloc (s : pmm) : Z * pmm :=
  match last (stack s) with
  | None => (0, s)
  | Some a => (a, mkPmm (take (length (stack s) - 1) (stack s)) (total s))
  end.

(** [for (i = 0; i < pmm_stack_top; i++) if (pmm_stack[i] == a) { ... }] *)
Fixpoint find_frame (a : Z) (l : list Z) : option nat :=
  match l with
  | x :: l => if x =? a then Some 0%nat else S <$> find_frame a l
  | [] => None
  end.

(** [pmm_stack[i] = pmm_stack[--pmm_stack_top]] for the first match. *)
Definition drop_frame (a : Z) (l : list Z) : list Z :=
  match find_frame a l, last l with
  | Some i, Some x => take (length l - 1) (<[i := x]> l)
  | _, _ => l
  end.

Definition pmm_reserve (addr size : Z) (s : pmm) : run pmm :=
  let start := page_down addr in
  let end_ := u64 (addr + size) in
  l ← loop (fun '(a, l) =>
    if a <? end_ then Ret (inl (u64 (a + PAGE_SIZE), drop_frame a l))
    else Ret (inr l)) (start, stack s);
  Ret (mkPmm l (total s)).

Section Init.
(** The linker symbols that delimit the kernel image. *)
Variables kernel_start kernel_end : Z.

Definition pmm_is_kernel_region (addr : Z) : bool :=
  (kernel_start <=? addr) && (addr <? kernel_end).

(** [for (addr = start; addr < stop; addr += PAGE_SIZE)] *)
Definition free_range (start stop : Z) (s : pmm) : run pmm :=
  loop (fun '(addr, s) =>
    if addr <? stop then
      Ret (inl (u64 (addr + PAGE_SIZE),
                if pmm_is_kernel_region addr then s else pmm_free addr s))
    else Ret (inr s)) (start, s).

(** The part of an entry below [PMM_MAX_ADDR]. *)
Definition clip_length (e : e820_entry) : Z :=
  if PMM_MAX_ADDR <? u64 (e_base e + e_length e) then u64 (PMM_MAX_ADDR - e_base e)
  else e_length e.

Definition range_start (e : e820_entry) : Z := page_down (u64 (e_base e + PAGE_SIZE - 1)).
Definition range_stop (e : e820_entry) : Z :=
  page_down (u64 (e_base e + clip_length e)).

(** The top of the range after the guard has been taken off. *)
Definition guarded_stop (e : e820_entry) : Z :=
  if PMM_TOP_GUARD * 2 <? u64 (range_stop e - range_start e)
  then u64 (range_stop e - PMM_TOP_GUARD) else range_stop e.

Definition init_entry (e : e820_entry) (s : pmm) : run pmm :=
  if PMM_MAX_ADDR <=? e_base e then Ret s
  else if e_type e =? MULTIBOOT_MEMORY_AVAILABLE then
    s ← free_range (range_start e) (guarded_stop e) s;
    Ret (mkPmm (stack s) (u64 (total s + clip_length e)))
  else Ret s.

Fixpoint init_entries (m : list e820_entry) (s : pmm) : run pmm :=
  match m with
  | e :: m => s ← init_entry e s; init_entries m s
  | [] => Ret s
  end.

Definition pmm_init (map : list e820_entry) : run pmm := init_entries map (mkPmm [] 0).

End Init.

Definition pmm_get_total_memory : pmm -> Z := total.
Definition pmm_get_free_pages : pmm -> Z := top.

End Pmm.
Import Pmm.

Example pmm_init_example :
  (fun s => (length (stack s), fst (pmm_alloc s), total s)) <$>
    pmm_init 0x100000 0x180000
      [mkE820 0 0x9FC00 1; mkE820 0xF0000 0x10000 2; mkE820 0x100000 0x200800 1]
  = Ret (542%nat, 0x2FF000, 0x9FC00 + 0x200800).
Proof. vm_compute. reflexivity. Qed.

(** ** Frames of a range *)

Lemma page_down_spec x : 0 <= x < 2 ^ 64 -> page_down x = x / 4096 * 4096.
Proof. apply (mask_down 12). lia. Qed.

Definition aligned (a : Z) : Prop := a mod PAGE_SIZE = 0.

(** The first [n] page frames from [start]. *)
Definition pages (start n : Z) : list Z := (fun k => start + 4096 * k) <$> seqZ 0 n.

Lemma pages_snoc start n : 0 <= n -> pages start (n + 1) = pages start n ++ [start + 4096 * n].
Proof.
  intros Hn. unfold pages. rewrite seqZ_app by lia. rewrite fmap_app. done.
Qed.

Lemma elem_of_pages a start n :
  a ∈ pages start n <-> exists k, 0 <= k < n /\ a = start + 4096 * k.
Proof.
  unfold pages. rewrite list_elem_of_fmap. setoid_rewrite elem_of_seqZ.
  split; intros (k & H1 & H2); exists k; split; (done || lia).
Qed.

Lemma NoDup_pages start n : NoDup (pages start n).
Proof. apply NoDup_fmap_2; [intros ??; lia | apply NoDup_seqZ]. Qed.

Section Frames.
Context (kernel_start kernel_end : Z).
(** The capacity of the stack, kept abstract. *)
Context (N : nat) (HN : Z.of_nat N = PMM_STACK_SIZE).

(** A frame the allocator takes: not the null address, not in the kernel. *)
Definition usable (a : Z) : Prop :=
  a <> 0 /\ pmm_is_kernel_region kernel_start kernel_end a = false.
#[global] Instance usable_dec a : Decision (usable a).
Proof. unfold usable. apply _. Defined.

(** The stack after the frames [l] have been offered. *)
Definition push_frames (stk l : list Z) : list Z :=
  take N (stk ++ filter usable l).

Lemma push_frames_length stk l : (length (push_frames stk l) <= N)%nat.
Proof. unfold push_frames. rewrite length_take. lia. Qed.

Lemma push_frames_snoc stk l a s :
  stack s = push_frames stk l ->
  (if pmm_is_kernel_region kernel_start kernel_end a then s else pmm_free a s) =
    mkPmm (push_frames stk (l ++ [a])) (total s).
Proof.
  intros Hs. unfold push_frames. rewrite filter_app, app_assoc.
  set (x := stk ++ filter usable l).
  assert (Hx : stack s = take N x) by done. clearbody x. clear Hs.
  assert (Hsame : s = mkPmm (take N (x ++ [])) (total s))
    by (rewrite app_nil_r, <- Hx; by destruct s).
  destruct (decide (usable a)) as [[Hne Hk]|Hnu].
  - rewrite filter_cons_True, Hk by done. cbn [filter list_filter]. unfold pmm_free.
    rewrite (proj2 (Z.eqb_neq a 0)) by done. unfold top. rewrite Hx, length_take.
    unfold PMM_STACK_SIZE in *.
    destruct (Z.ltb_spec (Z.of_nat (N `min` length x)) 65536).
    + rewrite !take_ge by (rewrite ?length_app; cbn; lia). done.
    + rewrite take_app_le by lia. rewrite Hsame at 1. by rewrite app_nil_r.
  - rewrite filter_cons_False by done. change (filter usable []) with (@nil Z).
    rewrite <- Hsame. unfold usable in Hnu. unfold pmm_free.
    destruct (pmm_is_kernel_region kernel_start kernel_end a); [done|].
    destruct (Z.eqb_spec a 0); [done|]. naive_solver.
Qed.

Lemma free_range_spec start stop s :
  0 <= start -> 0 <= stop < 2 ^ 64 -> aligned start -> aligned stop ->
  top s <= PMM_STACK_SIZE ->
  free_range kernel_start kernel_end start stop s =
    Ret (mkPmm (push_frames (stack s) (pages start ((stop - start) / 4096))) (total s)).
Proof.
  intros H0 Hstop Ha1 Ha2 Htop. unfold free_range.
  destruct (decide (start < stop)) as [Hlt|Hge].
  2:{ replace (pages start ((stop - start) / 4096)) with (@nil Z);
        [|unfold pages; rewrite seqZ_nil; [done|]; apply Z.div_le_upper_bound; lia].
      loop_with (fun '(a, t) => a = start /\ t = s) (fun t => t = s) (fun _ => 0)
        as (t & -> & ->); [|done..|].
      - intros [a t] [-> ->]. rewrite (proj2 (Z.ltb_ge start stop)) by lia. right. eauto.
      - unfold push_frames, top in *. cbn. rewrite app_nil_r, take_ge by lia. by destruct s. }
  unfold aligned, PAGE_SIZE in *.
  set (K := (stop - start) / 4096). assert (HK : stop = start + 4096 * K) by (subst K; ilia).
  loop_with (fun '(a, t) => exists k, 0 <= k <= K /\ a = start + 4096 * k /\
               t = mkPmm (push_frames (stack s) (pages start k)) (total s))
    (fun t => t = mkPmm (push_frames (stack s) (pages start K)) (total s))
    (fun '(a, _) => stop - a) as (t & -> & ->); [| | lia | done].
  - intros [a t] (k & Hk & -> & ->). destruct (Z.ltb_spec (start + 4096 * k) stop).
    + left. eexists. split; [done|]. rewrite u64_small by lia. split; [|lia].
      exists (k + 1). split_and!; [lia..|].
      erewrite push_frames_snoc by done. by rewrite pages_snoc by lia.
    + right. assert (k = K) as -> by lia. eauto.
  - exists 0. split_and!; [lia..|]. unfold push_frames, pages, top, PMM_STACK_SIZE in *. cbn.
    rewrite app_nil_r, take_ge by lia. by destruct s.
Qed.

End Frames.

(** ** The frames of a memory map *)

(** What an entry offers, in unbounded arithmetic: its whole pages below
    [PMM_MAX_ADDR], less the top 16 MiB where more than 32 MiB remain. *)
Definition lo (e : e820_entry) : Z := (e_base e + 4095) / 4096 * 4096.
Definition hi (e : e820_entry) : Z :=
  Z.min (e_base e + e_length e) PMM_MAX_ADDR / 4096 * 4096.
Definition usable_top (e : e820_entry) : Z :=
  if 2 * PMM_TOP_GUARD <? hi e - lo e then hi e - PMM_TOP_GUARD else hi e.

Definition available (e : e820_entry) : Prop :=
  e_type e = MULTIBOOT_MEMORY_AVAILABLE /\ e_base e < PMM_MAX_ADDR.
#[global] Instance available_dec e : Decision (available e).
Proof. unfold available. apply _. Defined.

(** An entry in the address space. *)
Definition in_range (e : e820_entry) : Prop :=
  0 <= e_base e /\ 0 <= e_length e /\ e_base e + e_length e < 2 ^ 64.
(** An available entry reaches from one page boundary to another. *)
Definition has_boundary (e : e820_entry) : Prop := available e -> lo e <= hi e.

Definition offered (e : e820_entry) : list Z :=
  if decide (available e) then pages (lo e) ((usable_top e - lo e) / 4096) else [].

Lemma pages_eqb_type e : available e -> (e_type e =? MULTIBOOT_MEMORY_AVAILABLE) = true.
Proof. intros [-> _]. done. Qed.

Lemma range_start_lo e : in_range e -> e_base e < PMM_MAX_ADDR -> range_start e = lo e.
Proof.
  unfold in_range, PMM_MAX_ADDR, range_start, lo, PAGE_SIZE. intros H1 H2.
  rewrite u64_small, page_down_spec by lia. do 2 f_equal. lia.
Qed.

Lemma range_stop_hi e : in_range e -> e_base e < PMM_MAX_ADDR -> range_stop e = hi e.
Proof.
  unfold in_range, PMM_MAX_ADDR, range_stop, hi, clip_length, PMM_MAX_ADDR. intros H1 H2.
  rewrite (u64_small (e_base e + e_length e)) by lia.
  destruct (Z.ltb_spec 0xC0000000 (e_base e + e_length e)).
  - rewrite Z.min_r, (u64_small (_ - _)), u64_small, page_down_spec by lia. do 2 f_equal. lia.
  - rewrite Z.min_l, u64_small, page_down_spec by lia. done.
Qed.

Lemma lo_hi_bounds e :
  in_range e -> e_base e < PMM_MAX_ADDR ->
  aligned (lo e) /\ aligned (hi e) /\ 0 <= lo e < 2 ^ 32 /\ 0 <= hi e < 2 ^ 32.
Proof.
  unfold in_range, aligned, lo, hi, PMM_MAX_ADDR, PAGE_SIZE. intros.
  rewrite !Z.mod_mul by lia. split_and!; try done; ilia.
Qed.

Lemma guarded_stop_top e :
  in_range e -> e_base e < PMM_MAX_ADDR -> lo e <= hi e -> guarded_stop e = usable_top e.
Proof.
  intros Hr Hb Hle. destruct (lo_hi_bounds e Hr Hb) as (_ & _ & ? & ?).
  unfold guarded_stop, usable_top. rewrite range_start_lo, range_stop_hi by done.
  rewrite (u64_small (hi e - lo e)) by lia.
  rewrite Z.mul_comm. destruct (Z.ltb_spec (2 * PMM_TOP_GUARD) (hi e - lo e)) as [Hg|]; [|done].
  unfold PMM_TOP_GUARD in *. rewrite u64_small by lia. done.
Qed.

Lemma usable_top_aligned e :
  in_range e -> e_base e < PMM_MAX_ADDR -> aligned (usable_top e).
Proof.
  intros Hr Hb. destruct (lo_hi_bounds e Hr Hb) as (_ & Ha & _).
  unfold usable_top, aligned, PMM_TOP_GUARD, PAGE_SIZE in *. case_match; [ilia|done].
Qed.

Lemma usable_top_bounds e :
  in_range e -> e_base e < PMM_MAX_ADDR -> lo e <= hi e ->
  lo e <= usable_top e <= hi e.
Proof. intros. unfold usable_top, PMM_TOP_GUARD. case_match; lia. Qed.

Section Map.
Context (kernel_start kernel_end : Z) (N : nat) (HN : Z.of_nat N = PMM_STACK_SIZE).

Lemma init_entry_spec e s :
  in_range e -> has_boundary e -> top s <= PMM_STACK_SIZE ->
  exists s', init_entry kernel_start kernel_end e s = Ret s' /\
    stack s' = push_frames kernel_start kernel_end N (stack s) (offered e).
Proof using HN.
  intros Hr Hb Htop.
  assert (Hsame : stack s = push_frames kernel_start kernel_end N (stack s) []).
  { unfold push_frames, top in *. cbn. rewrite app_nil_r, take_ge by lia. done. }
  unfold init_entry, offered. destruct (decide (available e)) as [Hav|Hna].
  - destruct (lo_hi_bounds e Hr (proj2 Hav)) as (? & ? & ? & ?).
    pose proof (usable_top_bounds e Hr (proj2 Hav) (Hb Hav)).
    rewrite (proj2 (Z.leb_gt _ _)), pages_eqb_type by (done || apply Hav).
    rewrite range_start_lo, guarded_stop_top by (done || apply Hav || auto).
    rewrite (free_range_spec _ _ N HN) by
      (lia || done || (apply usable_top_aligned; [done|apply Hav])).
    rewrite bind_ret. eexists. split; [reflexivity|]. done.
  - unfold available in Hna. destruct (Z.leb_spec PMM_MAX_ADDR (e_base e)); [by exists s|].
    rewrite (proj2 (Z.eqb_neq _ _)); [by exists s|]. intros Ht. by apply Hna.
Qed.

Lemma push_frames_app stk l1 l2 :
  push_frames kernel_start kernel_end N (push_frames kernel_start kernel_end N stk l1) l2 =
  push_frames kernel_start kernel_end N stk (l1 ++ l2).
Proof.
  unfold push_frames. rewrite filter_app, app_assoc.
  generalize (stk ++ filter (usable kernel_start kernel_end) l1) as x. intros x.
  destruct (decide (length x <= N)%nat); [by rewrite (take_ge x) by lia|].
  rewrite !take_app_le by (rewrite ?length_take; lia).
  by rewrite take_take, Nat.min_id.
Qed.

Lemma init_entries_spec m s :
  Forall in_range m -> Forall has_boundary m -> top s <= PMM_STACK_SIZE ->
  exists s', init_entries kernel_start kernel_end m s = Ret s' /\
    stack s' = push_frames kernel_start kernel_end N (stack s) (mjoin (offered <$> m)).
Proof using HN.
  intros Hr. revert s. induction Hr as [|e m He _ IH]; intros s Hb Htop; cbn [init_entries].
  { exists s. split; [done|]. unfold push_frames, top in *. cbn. rewrite app_nil_r, take_ge by lia. done. }
  apply Forall_cons in Hb as [Hbe Hbm].
  destruct (init_entry_spec e s He Hbe Htop) as (s1 & -> & Hs1). rewrite bind_ret.
  destruct (IH s1 Hbm) as (s2 & -> & Hs2).
  { unfold top. rewrite Hs1. pose proof (push_frames_length kernel_start kernel_end N
      (stack s) (offered e)). lia. }
  exists s2. split; [done|]. rewrite Hs2, Hs1, push_frames_app. done.
Qed.

End Map.

(** Two available entries do not share memory. *)
Definition disjoint_entries (e1 e2 : e820_entry) : Prop :=
  available e1 -> available e2 ->
  e_base e1 + e_length e1 <= e_base e2 \/ e_base e2 + e_length e2 <= e_base e1.

(** [a] is a page frame that the map makes available. *)
Definition map_frame (kernel_start kernel_end : Z) (m : list e820_entry) (a : Z) : Prop :=
  a <> 0 /\ aligned a /\ ~ (kernel_start <= a < kernel_end) /\
  exists e, e ∈ m /\ available e /\ e_base e <= a /\ a + PAGE_SIZE <= usable_top e.

Lemma elem_of_offered e a :
  in_range e -> has_boundary e ->
  a ∈ offered e <-> available e /\ aligned a /\ e_base e <= a /\ a + PAGE_SIZE <= usable_top e.
Proof.
  intros Hr Hb. unfold offered. destruct (decide (available e)) as [Hav|]; cycle 1.
  { split; [by intros ?%elem_of_nil | by intros []]. }
  destruct (lo_hi_bounds e Hr (proj2 Hav)) as (Hal & _ & _).
  pose proof (usable_top_aligned e Hr (proj2 Hav)) as Hat.
  rewrite elem_of_pages. unfold aligned, PAGE_SIZE in *. split.
  - intros (k & Hk & ->). split_and!; [done| | |]; unfold lo in *; ilia.
  - intros (_ & Ha & Hlo & Hhi). exists ((a - lo e) / 4096). unfold lo in *. ilia.
Qed.

Lemma usable_top_end e :
  in_range e -> available e -> has_boundary e -> usable_top e <= e_base e + e_length e.
Proof.
  intros Hr Hav Hb. pose proof (usable_top_bounds e Hr (proj2 Hav) (Hb Hav)).
  unfold hi in *. ilia.
Qed.

Lemma NoDup_offered m :
  Forall in_range m -> Forall has_boundary m -> ForallOrdPairs disjoint_entries m ->
  NoDup (mjoin (offered <$> m)).
Proof.
  intros Hr Hb Hd. induction Hd as [|e m He Hd IH]; [constructor|].
  apply Forall_cons in Hr as [Hre Hrm]. apply Forall_cons in Hb as [Hbe Hbm].
  cbn. apply NoDup_app. split_and!; [| |auto].
  - unfold offered. destruct (decide _); [apply NoDup_pages | constructor].
  - intros a Ha Hj. apply list_elem_of_join in Hj as (l & Hl & (e2 & -> & He2)%list_elem_of_fmap).
    rewrite Forall_forall in Hrm, Hbm, He.
    apply elem_of_offered in Ha as (Ha1 & _ & Ha2 & Ha3); [|done..].
    apply elem_of_offered in Hl as (Hl1 & _ & Hl2 & Hl3); [|auto..].
    pose proof (usable_top_end e Hre Ha1 Hbe).
    pose proof (usable_top_end e2 (Hrm _ He2) Hl1 (Hbm _ He2)).
    unfold PAGE_SIZE in *. destruct (He e2 He2 Ha1 Hl1); lia.
Qed.

Lemma elem_of_map_frames kernel_start kernel_end m a :
  Forall in_range m -> Forall has_boundary m ->
  a ∈ filter (usable kernel_start kernel_end) (mjoin (offered <$> m)) <->
  map_frame kernel_start kernel_end m a.
Proof.
  intros Hr Hb. rewrite list_elem_of_filter, list_elem_of_join. rewrite Forall_forall in Hr, Hb.
  unfold usable, pmm_is_kernel_region, map_frame. split.
  - intros ((Hne & Hk) & l & Hl & (e & -> & He)%list_elem_of_fmap).
    apply elem_of_offered in Hl as (? & ? & ? & ?); [|auto..].
    split_and!; [done|done|lia|eauto].
  - intros (Hne & Hal & Hk & e & He & Hav & Hlo & Hhi). split; [split; [done|lia]|].
    exists (offered e). split; [apply elem_of_offered; auto|].
    apply list_elem_of_fmap. eauto.
Qed.

Lemma stack_capacity : exists N, Z.of_nat N = PMM_STACK_SIZE.
Proof. exists (Z.to_nat PMM_STACK_SIZE). apply Z2Nat.id. done. Qed.

(** Given a memory map whose available entries do not overlap and each
    reach a page boundary, [pmm_init] returns with a stack that holds no frame
    twice, only frames of available entries (whole pages below 3 GiB, below the
    16 MiB guard of a large range, outside the kernel, never the null frame)
    and, unless the stack is full, all of them. *)
Theorem pmm_init_frames kernel_start kernel_end m :
  Forall in_range m -> Forall has_boundary m -> ForallOrdPairs disjoint_entries m ->
  exists s, pmm_init kernel_start kernel_end m = Ret s /\
    NoDup (stack s) /\ top s <= PMM_STACK_SIZE /\
    (forall a, a ∈ stack s -> map_frame kernel_start kernel_end m a) /\
    (top s < PMM_STACK_SIZE -> forall a, map_frame kernel_start kernel_end m a -> a ∈ stack s).
Proof.
  intros Hr Hb Hd.
  destruct stack_capacity as [N HN].
  destruct (init_entries_spec kernel_start kernel_end N HN m (mkPmm [] 0)) as (s & Hs & Hstk);
    [done..|]. cbn [stack] in Hstk. unfold push_frames in Hstk. cbn [app] in Hstk.
  pose proof (fun a => elem_of_map_frames kernel_start kernel_end m a Hr Hb) as Hel.
  pose proof (NoDup_filter (usable kernel_start kernel_end) _ (NoDup_offered m Hr Hb Hd)) as Hnd.
  revert Hel Hnd Hstk. generalize (filter (usable kernel_start kernel_end) (mjoin (offered <$> m))).
  intros l Hel Hnd Hstk. exists s. unfold top. rewrite Hstk, length_take.
  split_and!; [done | | lia | |].
  - eapply sublist_NoDup; [done | apply sublist_take].
  - intros a Ha. apply Hel. by apply (subseteq_take N).
  - intros Hlt a Ha. rewrite take_ge by lia. by apply Hel.
Qed.

Lemma pmm_init_frames_witness :
  exists s, pmm_init 0x100000 0x180000
      [mkE820 0 0x9FC00 1; mkE820 0xF0000 0x10000 2; mkE820 0x100000 0x200800 1] = Ret s /\
    NoDup (stack s) /\ top s <= PMM_STACK_SIZE /\
    (forall a, a ∈ stack s -> map_frame 0x100000 0x180000
      [mkE820 0 0x9FC00 1; mkE820 0xF0000 0x10000 2; mkE820 0x100000 0x200800 1] a) /\
    (top s < PMM_STACK_SIZE -> forall a, map_frame 0x100000 0x180000
      [mkE820 0 0x9FC00 1; mkE820 0xF0000 0x10000 2; mkE820 0x100000 0x200800 1] a ->
      a ∈ stack s).
Proof.
  apply (pmm_init_frames 0x100000 0x180000).
  - repeat constructor; cbn; lia.
  - repeat constructor; intros _; vm_compute; done.
  - repeat first [apply FOP_nil | apply FOP_cons | apply Forall_nil_2 | apply Forall_cons_2];
      intros [? ?] [? ?]; cbn in *; lia.
Defined.

(** A long enough run of frames above the kernel fills the stack. *)
Lemma push_frames_fill kernel_start kernel_end N start M :
  Z.of_nat N <= M -> 0 < start -> kernel_end <= start ->
  push_frames kernel_start kernel_end N [] (pages start M) = pages start (Z.of_nat N).
Proof.
  intros HM Hs Hk. unfold push_frames. cbn [app]. rewrite filter_all.
  - unfold pages. rewrite <- fmap_take. f_equal. by apply take_seqZ.
  - intros a (k & Hka & ->)%elem_of_pages. unfold usable, pmm_is_kernel_region. lia.
Qed.

Lemma tiny_arith b l :
  0 <= b -> 0 <= l ->
  Z.min (b + l) 3221225472 / 4096 * 4096 < (b + 4095) / 4096 * 4096 ->
  0 < Z.min (b + l) 3221225472 / 4096 * 4096 < 16777216 ->
  (b + 4095) / 4096 * 4096 = Z.min (b + l) 3221225472 / 4096 * 4096 + 4096 /\
  b + l <= (b + 4095) / 4096 * 4096.
Proof. intros. Z.div_mod_to_equations. lia. Qed.

Lemma tiny_range_bounds e :
  in_range e -> available e -> hi e < lo e -> 0 < hi e < PMM_TOP_GUARD ->
  lo e = hi e + 4096 /\ e_base e + e_length e <= lo e /\
  guarded_stop e = 2 ^ 64 + hi e - PMM_TOP_GUARD.
Proof.
  intros Hr Hav Hlt Hhi.
  assert (lo e = hi e + 4096 /\ e_base e + e_length e <= lo e) as [Hlo Hend].
  { unfold in_range, hi, lo, PMM_MAX_ADDR, PMM_TOP_GUARD in *. apply tiny_arith; tauto. }
  split_and!; [done..|].
  unfold guarded_stop. rewrite range_start_lo, range_stop_hi by (done || apply Hav).
  unfold PMM_TOP_GUARD in *.
  assert (u64 (hi e - lo e) = 2 ^ 64 - 4096) as -> by (rewrite Hlo; ilia).
  rewrite (proj2 (Z.ltb_lt _ _)) by done. generalize dependent (hi e). intros h **. ilia.
Qed.

(** A single available entry that contains no page boundary range (its
    first page boundary lies above its last one), in the first 16 MiB, wraps
    the guard computation: [pmm_init] fills the whole stack with 65536
    consecutive frames from that boundary on, none of them in the entry. *)
Theorem pmm_init_tiny_range kernel_start kernel_end e :
  in_range e -> available e -> hi e < lo e -> 0 < hi e < PMM_TOP_GUARD ->
  kernel_end <= lo e ->
  exists s, pmm_init kernel_start kernel_end [e] = Ret s /\
    stack s = pages (lo e) PMM_STACK_SIZE /\
    (forall a, a ∈ stack s -> e_base e + e_length e <= a).
Proof.
  intros Hr Hav Hlt Hhi Hk.
  destruct (lo_hi_bounds e Hr (proj2 Hav)) as (Hal & Hah & Hl & Hh).
  destruct (tiny_range_bounds e Hr Hav Hlt Hhi) as (Hlo & Hend & Hg).
  destruct stack_capacity as [N HN].
  unfold pmm_init, init_entries, init_entry.
  rewrite (proj2 (Z.leb_gt _ _)), pages_eqb_type by (done || apply Hav).
  rewrite range_start_lo, Hg by (done || apply Hav).
  rewrite (free_range_spec _ _ N HN) by
    (unfold aligned, PMM_TOP_GUARD, PAGE_SIZE in *; ilia || done).
  rewrite !bind_ret. eexists. split; [reflexivity|]. cbn [stack].
  rewrite push_frames_fill by (unfold PMM_TOP_GUARD, PMM_STACK_SIZE in *; ilia).
  rewrite HN. split; [done|]. intros a (k & Hka & ->)%elem_of_pages. lia.
Qed.

Lemma pmm_init_tiny_range_witness :
  exists s, pmm_init 0x1000 0x2000 [mkE820 0x7C00 0x200 1] = Ret s /\
    stack s = pages 0x8000 PMM_STACK_SIZE /\
    (forall a, a ∈ stack s -> 0x7C00 + 0x200 <= a).
Proof.
  apply (pmm_init_tiny_range 0x1000 0x2000 (mkE820 0x7C00 0x200 1)); cbv; done || lia || idtac.
Defined.

(** ** Allocation, release and reservation *)

(** A frame as the rest of the kernel may rely on it. *)
Definition frame_ok (a : Z) : Prop := 0 < a < PMM_MAX_ADDR /\ aligned a.

Definition pmm_inv (s : pmm) : Prop :=
  NoDup (stack s) /\ Forall frame_ok (stack s) /\ top s <= PMM_STACK_SIZE.

Definition free_frames (s : pmm) : gset Z := list_to_set (stack s).

Lemma pmm_init_inv kernel_start kernel_end m s :
  Forall in_range m -> Forall has_boundary m -> ForallOrdPairs disjoint_entries m ->
  pmm_init kernel_start kernel_end m = Ret s -> pmm_inv s.
Proof.
  intros Hr Hb Hd Hs. destruct stack_capacity as [N HN].
  destruct (init_entries_spec kernel_start kernel_end N HN m (mkPmm [] 0)) as (s1 & Hs1 & Hstk);
    [done..|]. unfold pmm_init in Hs. rewrite Hs1 in Hs. injection Hs as ->.
  unfold push_frames in Hstk. cbn [stack app] in Hstk. unfold pmm_inv, top. rewrite Hstk.
  split_and!.
  - eapply sublist_NoDup; [|apply sublist_take]. by apply NoDup_filter, NoDup_offered.
  - apply Forall_take, Forall_forall. intros a Ha.
    apply elem_of_map_frames in Ha as (Hne & Hal & _ & e & He & Hav & Hlo & Hhi); [|done..].
    rewrite Forall_forall in Hr, Hb. specialize (Hr e He). specialize (Hb e He).
    pose proof (usable_top_bounds e Hr (proj2 Hav) (Hb Hav)).
    split; [|done]. unfold in_range, hi, PAGE_SIZE in *. ilia.
  - rewrite length_take. lia.
Qed.

Lemma pmm_alloc_spec s :
  pmm_inv s ->
  (stack s = [] /\ pmm_alloc s = (0, s)) \/
  (exists f s', pmm_alloc s = (f, s') /\ pmm_inv s' /\ frame_ok f /\
     stack s = stack s' ++ [f] /\ f ∈ free_frames s /\
     free_frames s' = free_frames s ∖ {[f]}).
Proof.
  intros (Hnd & Hok & Htop). unfold pmm_alloc, pmm_inv, free_frames, top in *.
  destruct (stack s) as [|f l _] eqn:E using rev_ind; [by left|right].
  rewrite last_snoc, length_app. cbn [length].
  rewrite take_app_length' by lia. eexists f, _. split; [done|]. cbn [stack].
  apply NoDup_app in Hnd as (Hnd & Hdis & _). apply Forall_app in Hok as [Hok Hf].
  rewrite length_app in Htop. cbn in Htop.
  split_and!; [done|done|lia|by apply Forall_inv in Hf|done|set_solver|].
  apply set_eq. intros x. rewrite elem_of_difference, !elem_of_list_to_set, elem_of_app.
  rewrite elem_of_singleton, list_elem_of_singleton.
  specialize (Hdis x). rewrite list_elem_of_singleton in Hdis. naive_solver.
Qed.

Lemma pmm_free_spec a s :
  pmm_inv s -> frame_ok a -> a ∉ free_frames s ->
  pmm_inv (pmm_free a s) /\
  free_frames (pmm_free a s) =
    (if top s <? PMM_STACK_SIZE then {[a]} ∪ free_frames s else free_frames s).
Proof.
  intros (Hnd & Hok & Htop) Ha Hfresh. unfold pmm_free, pmm_inv, free_frames, top in *.
  rewrite (proj2 (Z.eqb_neq a 0)) by (unfold frame_ok in Ha; lia).
  destruct (Z.ltb_spec (Z.of_nat (length (stack s))) PMM_STACK_SIZE); cbn [stack]; [|done].
  rewrite elem_of_list_to_set in Hfresh. split_and!.
  - apply NoDup_app. split_and!; [done| |apply NoDup_singleton].
    intros x Hx. rewrite list_elem_of_singleton. by intros ->.
  - apply Forall_app. by split; [|constructor].
  - rewrite length_app. cbn. lia.
  - rewrite list_to_set_app_L. set_solver.
Qed.

Lemma find_frame_spec a l :
  match find_frame a l with Some i => l !! i = Some a | None => a ∉ l end.
Proof.
  induction l as [|x l IH]; cbn; [apply not_elem_of_nil|].
  destruct (Z.eqb_spec x a) as [->|]; [done|].
  destruct (find_frame a l); cbn; [done|]. apply not_elem_of_cons. done.
Qed.

(** The removal moves the last frame into the hole. *)
Lemma drop_frame_perm a l :
  NoDup l -> if decide (a ∈ l) then a :: drop_frame a l ≡ₚ l else drop_frame a l = l.
Proof.
  intros Hnd. unfold drop_frame. pose proof (find_frame_spec a l) as Hf.
  destruct (find_frame a l) as [i|].
  - rewrite decide_True by (by eapply list_elem_of_lookup_2).
    destruct l as [|x l _] using rev_ind; [done|].
    rewrite last_snoc, length_app. cbn [length].
    apply lookup_app_Some in Hf as [Hl|[Hge Hs]].
    + pose proof (lookup_lt_Some _ _ _ Hl) as Hi.
      rewrite insert_app_l by done. rewrite take_app_length' by (rewrite length_insert; lia).
      rewrite insert_take_drop by done. rewrite <- (take_drop_middle l i a Hl) at 3.
      rewrite <- (Permutation_cons_append (take i l ++ a :: drop (S i) l)).
      rewrite <- (Permutation_middle _ _ x), <- (Permutation_middle _ _ a). apply perm_swap.
    + destruct (decide (i = length l)) as [->|]; cycle 1.
      { rewrite lookup_ge_None_2 in Hs by (cbn; lia). done. }
      rewrite Nat.sub_diag in Hs. injection Hs as ->.
      rewrite <- (Nat.add_0_r (length l)) at 2. rewrite insert_app_r. cbn.
      rewrite take_app_length' by lia. by rewrite Permutation_cons_append.
  - rewrite decide_False by done. by destruct l.
Qed.

Lemma drop_frame_spec a l :
  NoDup l ->
  NoDup (drop_frame a l) /\ (length (drop_frame a l) <= length l)%nat /\
  forall x, x ∈ drop_frame a l <-> x ∈ l /\ x <> a.
Proof.
  intros Hnd. pose proof (drop_frame_perm a l Hnd) as Hp.
  destruct (decide (a ∈ l)) as [Hin|Hout].
  - assert (Hnd' : NoDup (a :: drop_frame a l)) by (by rewrite Hp).
    apply NoDup_cons in Hnd' as [Hna Hnd']. split_and!; [done| |].
    + apply Permutation_length in Hp. cbn in Hp. lia.
    + intros x. assert (x ∈ l <-> x ∈ a :: drop_frame a l) as -> by (by rewrite Hp).
      rewrite elem_of_cons. naive_solver.
  - rewrite Hp. split_and!; [done..|]. naive_solver.
Qed.

(** A page frame overlaps the bytes from [addr] to [addr + size], the page of
    [addr] included. *)
Definition overlaps (addr size a : Z) : Prop := page_down addr <= a < addr + size.

Lemma pmm_reserve_spec addr size s :
  pmm_inv s -> 0 <= addr -> 0 <= size -> addr + size <= 2 ^ 64 - PAGE_SIZE ->
  exists s', pmm_reserve addr size s = Ret s' /\ pmm_inv s' /\
    forall a, a ∈ free_frames s' <-> a ∈ free_frames s /\ ~ overlaps addr size a.
Proof.
  intros (Hnd & Hok & Htop) Ha Hs Hend. unfold pmm_reserve, overlaps, PAGE_SIZE in *.
  rewrite (u64_small (addr + size)), page_down_spec by lia.
  set (start := addr / 4096 * 4096).
  assert (Hstart : 0 <= start <= addr /\ start mod 4096 = 0)
    by (subst start; rewrite Z.mod_mul by lia; split; [ilia|done]).
  loop_with (fun '(a, l) => start <= a /\ a mod 4096 = 0 /\ a < 2 ^ 64 /\
      (a = start \/ a - 4096 < addr + size) /\
      NoDup l /\ (length l <= length (stack s))%nat /\
      (forall x, x ∈ l <-> x ∈ stack s /\ ~ (start <= x < a)))
    (fun l => NoDup l /\ (length l <= length (stack s))%nat /\
      (forall x, x ∈ l <-> x ∈ stack s /\ ~ (start <= x < addr + size)))
    (fun '(a, _) => Z.max 0 (addr + size + 4096 - a)) as (l & -> & Hl & Hlen & Hel);
    [| split_and!; try done; try lia; try (by left); naive_solver lia | lia |].
  - intros [a l] (Hsa & Hal & Hb & Hnear & Hl & Hlen & Hel).
    assert (Halx : forall x, x ∈ stack s -> x mod 4096 = 0).
    { intros x Hx. rewrite Forall_forall in Hok. apply (Hok x Hx). }
    destruct (Z.ltb_spec a (addr + size)).
    + left. destruct (drop_frame_spec a l Hl) as (Hl' & Hlen' & Hel').
      eexists. split; [done|]. rewrite u64_small by lia. split; [|lia].
      split_and!; [lia|ilia|lia|lia|done|lia|]. intros x. rewrite Hel', Hel.
      split; [intros [[Hx ?] ?]|intros [Hx ?]]; specialize (Halx x Hx);
        split_and?; try done; ilia.
    + right. eexists. split; [done|]. split_and!; [done..|]. intros x. rewrite Hel.
      split; intros [Hx ?]; (split; [done|]); specialize (Halx x Hx); ilia.
  - rewrite bind_ret. eexists. split; [done|]. unfold pmm_inv, free_frames, top in *. cbn [stack].
    split_and!; [done| |lia|].
    + apply Forall_forall. intros x Hx. rewrite Forall_forall in Hok.
      apply Hok. by apply Hel.
    + intros x. rewrite !elem_of_list_to_set. apply Hel.
Qed.

(** C1: The allocator's operations on its set of free frames: [pmm_alloc]
    removes and returns a frame, or returns 0 when there is none; [pmm_free]
    puts a frame back, which is lost when the stack is full; [pmm_reserve]
    removes exactly the frames that overlap the range; a frame given back is
    the next one handed out.  All keep the invariant that no frame is held
    twice and every frame is a page below 3 GiB other than the null page. *)
Theorem pmm_operations s :
  pmm_inv s ->
  (let '(f, s') := pmm_alloc s in
   pmm_inv s' /\
   ((free_frames s = ∅ /\ f = 0 /\ s' = s) \/
    (f ∈ free_frames s /\ frame_ok f /\ free_frames s' = free_frames s ∖ {[f]}))) /\
  (forall a, frame_ok a -> a ∉ free_frames s ->
     pmm_inv (pmm_free a s) /\
     (top s < PMM_STACK_SIZE -> free_frames (pmm_free a s) = {[a]} ∪ free_frames s /\
        pmm_alloc (pmm_free a s) = (a, s)) /\
     (top s = PMM_STACK_SIZE -> pmm_free a s = s)) /\
  (forall addr size, 0 <= addr -> 0 <= size -> addr + size <= 2 ^ 64 - PAGE_SIZE ->
     exists s', pmm_reserve addr size s = Ret s' /\ pmm_inv s' /\
       forall a, a ∈ free_frames s' <-> a ∈ free_frames s /\ ~ overlaps addr size a).
Proof.
  intros Hinv. split_and!.
  - destruct (pmm_alloc_spec s Hinv) as [[Hnil ->]|(f & s' & -> & ? & ? & _ & ? & ?)].
    + split; [done|left]. unfold free_frames. by rewrite Hnil.
    + split; [done|by right].
  - intros a Ha Hfresh. destruct (pmm_free_spec a s Hinv Ha Hfresh) as [Hinv' Hset].
    split_and!; [done| |].
    + intros Hlt. rewrite (proj2 (Z.ltb_lt _ _)) in Hset by done. split; [done|].
      unfold pmm_free, pmm_alloc. rewrite (proj2 (Z.eqb_neq a 0)) by (unfold frame_ok in Ha; lia).
      rewrite (proj2 (Z.ltb_lt _ _)) by done. cbn [stack]. rewrite last_snoc, length_app.
      cbn [length]. rewrite take_app_length' by lia. by destruct s.
    + intros Hfull. unfold pmm_free. rewrite Hfull, Z.ltb_irrefl. by destruct (a =? 0).
  - intros addr size. by apply pmm_reserve_spec.
Qed.

Lemma pmm_operations_witness :
  pmm_alloc (mkPmm [0x2000; 0x5000] 0) = (0x5000, mkPmm [0x2000] 0) /\
  pmm_alloc (pmm_free 0x9000 (mkPmm [0x2000; 0x5000] 0)) = (0x9000, mkPmm [0x2000; 0x5000] 0).
Proof.
  assert (Hinv : pmm_inv (mkPmm [0x2000; 0x5000] 0)).
  { split_and!; [|repeat constructor|done].
    apply (bool_decide_unpack _). reflexivity. }
  split; [reflexivity|].
  refine (proj2 (proj1 (proj2 (proj1 (proj2 (pmm_operations _ Hinv)) 0x9000 _ _)) _)).
  - split; [done|reflexivity].
  - apply (bool_decide_unpack _). reflexivity.
  - reflexivity.
Defined.

(** ** The promise to the paging layer

    What a client may rely on: an allocation removes one frame from a set of
    frames that nobody else holds, and fails only when the set is empty. *)
Class FrameAllocator (A : Type) := {
  fa_alloc : A -> Z * A;
  fa_frames : A -> gset Z;
  fa_inv : A -> Prop;
  fa_alloc_some s f s' : fa_inv s -> fa_alloc s = (f, s') -> f <> 0 ->
    fa_inv s' /\ f ∈ fa_frames s /\ fa_frames s' = fa_frames s ∖ {[f]};
  fa_alloc_none s s' : fa_inv s -> fa_alloc s = (0, s') -> fa_frames s = ∅ /\ s' = s;
  fa_frame_ok s f : fa_inv s -> f ∈ fa_frames s -> frame_ok f }.

#[export, refine] Instance pmm_frame_allocator : FrameAllocator pmm :=
  {| fa_alloc := pmm_alloc; fa_frames := free_frames; fa_inv := pmm_inv |}.
Proof.
  - intros s f s' Hinv Ha Hf.
    destruct (pmm_alloc_spec s Hinv) as [[Hnil Heq]|(g & t & Heq & ? & ? & _ & ? & ?)];
      rewrite Heq in Ha; by simplify_eq.
  - intros s s' Hinv Ha.
    destruct (pmm_alloc_spec s Hinv) as [[Hnil Heq]|(g & t & Heq & ? & [? ?] & _ & ? & ?)];
      rewrite Heq in Ha; simplify_eq; [|lia].
    unfold free_frames. by rewrite Hnil.
  - intros s f (_ & Hok & _). unfold free_frames. rewrite elem_of_list_to_set.
    rewrite Forall_forall in Hok. apply Hok.
Defined.
