(* ===== verification/Paging.v ===== *)
(** * osfmk/vm/paging.c: four-level page tables

    Page tables are arrays of 512 64-bit entries in physical memory, reached
    through the identity map; frames for new tables come from any
    [FrameAllocator].  The walk the processor performs is specified
    separately, and the operations are shown to change the translation of the
    mapped page and of no other, to preserve the shape of the table tree, and
    to build address spaces that share what they are meant to share. *)

From S2P Require Import Prelude Libc Printf Pmm.

Definition PAGE_PRESENT : Z := 0x1.
Definition PAGE_WRITE : Z := 0x2.
Definition PAGE_USER : Z := 0x4.
Definition PAGE_PWT : Z := 0x8.
Definition PAGE_PCD : Z := 0x10.
Definition PAGE_PS : Z := 0x80.

Definition PML4_INDEX (v : Z) : Z := Z.land (Z.shiftr v 39) 0x1FF.
Definition PDPT_INDEX (v : Z) : Z := Z.land (Z.shiftr v 30) 0x1FF.
Definition PD_INDEX (v : Z) : Z := Z.land (Z.shiftr v 21) 0x1FF.
Definition PT_INDEX (v : Z) : Z := Z.land (Z.shiftr v 12) 0x1FF.

(** [~x] on 64 bits. *)
Definition not64 (x : Z) : Z := u64 (Z.lnot x).

(** Recursive-window address of an index path. *)
Definition recva (a b c d : Z) : Z :=
  let v := Z.lor (Z.lor (Z.shiftl (Z.land a 0x1FF) 39) (Z.shiftl (Z.land b 0x1FF) 30))
                 (Z.lor (Z.shiftl (Z.land c 0x1FF) 21) (Z.shiftl (Z.land d 0x1FF) 12)) in
  if negb (Z.land v (2 ^ 47) =? 0) then Z.lor v 0xFFFF000000000000 else v.

(** ** Operations *)
Module Vm.

(** Physical memory as 64-bit words by address; no entry: not memory. *)
Abbreviation pmem := (gmap Z Z).

Definition rd (m : pmem) (a : Z) : run Z := of_option (m !! a).
Definition wr (m : pmem) (a v : Z) : run pmem :=
  match m !! a with Some _ => Ret (<[a := v]> m) | None => Fault end.

(** [pt_ptr(x)]: the table an entry or CR3 points to. *)
Definition pt_ptr (x : Z) : Z := Z.land x (not64 0xFFF).
(** The address of [t[i]] for a [u64 *t]. *)
Definition slot (t i : Z) : Z := t + 8 * i.

Definition present (e : Z) : bool := negb (Z.land e PAGE_PRESENT =? 0).
Definition large (e : Z) : bool := negb (Z.land e PAGE_PS =? 0).

(** [for (i : ix) t[i] = f(i);] *)
Fixpoint fill (t : Z) (f : Z -> Z) (ix : list Z) (m : pmem) : run pmem :=
  match ix with
  | i :: ix => m ← wr m (slot t i) (f i); fill t f ix m
  | [] => Ret m
  end.

(** [for (i : ix) dst[i] = src[i];] *)
Fixpoint copy (src dst : Z) (ix : list Z) (m : pmem) : run pmem :=
  match ix with
  | i :: ix => e ← rd m (slot src i); m ← wr m (slot dst i) e; copy src dst ix m
  | [] => Ret m
  end.

Definition zero_page_table (phys : Z) (m : pmem) : run pmem :=
  fill (pt_ptr phys) (fun _ => 0) (seqZ 0 512) m.

Section Ops.
Context {A : Type} `{!FrameAllocator A}.

Record vm := mkVm { mem : pmem; alloc : A; cr3 : Z }.

Definition set_mem (m : pmem) (s : vm) : vm := mkVm m (alloc s) (cr3 s).

(** [pmm_alloc()] on the machine state. *)
Definition new_frame (s : vm) : Z * vm :=
  let '(t, a) := fa_alloc (alloc s) in (t, mkVm (mem s) a (cr3 s)).

(** [if (!(tbl[i] & PAGE_PRESENT)) { allocate, clear and link a table }].
    [false]: out of frames, the caller returns. *)
Definition need_table (tbl i : Z) (s : vm) : run (bool * vm) :=
  e ← rd (mem s) (slot tbl i);
  if present e then Ret (true, s)
  else
    let '(t, s) := new_frame s in
    if t =? 0 then Ret (false, s)
    else
      m ← zero_page_table t (mem s);
      m ← wr m (slot tbl i) (Z.lor (Z.lor t PAGE_PRESENT) PAGE_WRITE);
      Ret (true, set_mem m s).

(** The entries of the table that replaces a 2 MiB leaf. *)
Definition split_entry (leaf flags i : Z) : Z :=
  let two_mb_base := Z.land leaf (not64 (2 ^ 21 - 1)) in
  let leaf_flags := Z.land leaf
    (Z.lor PAGE_PRESENT (Z.lor PAGE_WRITE (Z.lor PAGE_USER (Z.lor PAGE_PWT PAGE_PCD)))) in
  let mmio := Z.land flags (Z.lor PAGE_PWT PAGE_PCD) in
  let e := Z.lor (u64 (two_mb_base + Z.shiftl i 12)) leaf_flags in
  if negb (mmio =? 0)
  then Z.lor (Z.land e (not64 (Z.lor PAGE_PWT PAGE_PCD))) mmio else e.

(** Lines 132-161: split an existing 2 MiB leaf. *)
Definition split_leaf (pd c flags leaf : Z) (s : vm) : run (bool * vm) :=
  let '(t, s) := new_frame s in
  let leaf_flags := Z.land leaf
    (Z.lor PAGE_PRESENT (Z.lor PAGE_WRITE (Z.lor PAGE_USER (Z.lor PAGE_PWT PAGE_PCD)))) in
  if t =? 0 then Ret (false, s)
  else
    m ← zero_page_table t (mem s);
    m ← fill (pt_ptr t) (split_entry leaf flags) (seqZ 0 512) m;
    m ← wr m (slot pd c)
          (Z.lor (Z.lor (Z.lor t PAGE_PRESENT) PAGE_WRITE)
                 (Z.land leaf_flags (not64 PAGE_PRESENT)));
    Ret (true, set_mem m s).

(** Lines 122-161: the page table, made or split out of a leaf if need be. *)
Definition need_pt (pd c flags : Z) (s : vm) : run (bool * vm) :=
  e ← rd (mem s) (slot pd c);
  if negb (present e) then need_table pd c s
  else if large e then split_leaf pd c flags e s
  else Ret (true, s).

Definition leaf_entry (phys flags : Z) : Z :=
  Z.lor (Z.lor (Z.land phys (not64 0xFFF))
               (Z.land (Z.land flags 0xFFF) (not64 PAGE_PS))) PAGE_PRESENT.

(** Lines 93-163: the page table for an address, with the tables above it made
    as needed.  [None]: out of frames. *)
Definition table_path (virtual_addr flags : Z) (s : vm) : run (option Z * vm) :=
  let a := PML4_INDEX virtual_addr in
  let b := PDPT_INDEX virtual_addr in
  let c := PD_INDEX virtual_addr in
  let pml4 := pt_ptr (Z.land (cr3 s) (not64 0xFFF)) in
  '(ok, s) ← need_table pml4 a s;
  if negb ok then Ret (None, s) else
  e ← rd (mem s) (slot pml4 a);
  let pdpt := pt_ptr e in
  '(ok, s) ← need_table pdpt b s;
  if negb ok then Ret (None, s) else
  e ← rd (mem s) (slot pdpt b);
  let pd := pt_ptr e in
  '(ok, s) ← need_pt pd c flags s;
  if negb ok then Ret (None, s) else
  e ← rd (mem s) (slot pd c);
  Ret (Some (pt_ptr e), s).

Definition paging_map_page (virtual_addr physical_addr flags : Z) (s : vm) : run vm :=
  '(o, s) ← table_path virtual_addr flags s;
  match o with
  | None => Ret s
  | Some pt =>
      let d := PT_INDEX virtual_addr in
      m ← wr (mem s) (slot pt d) (leaf_entry physical_addr flags);
      Ret (set_mem m s)
  end.

(** The diagnostic reads of [paging_map_region]; their result is not used. *)
Definition region_pde (virtual_addr : Z) (s : vm) : run Z :=
  let pml4 := pt_ptr (cr3 s) in
  e ← rd (mem s) (slot pml4 (PML4_INDEX virtual_addr));
  if present e then
    f ← rd (mem s) (slot (pt_ptr e) (PDPT_INDEX virtual_addr));
    if present f then rd (mem s) (slot (pt_ptr f) (PD_INDEX virtual_addr))
    else Ret 0xDEAD0000
  else Ret 0xDEAD0000.

Definition paging_map_region (virtual_addr physical_addr size flags : Z) (s : vm) : run vm :=
  let end_ := u64 (virtual_addr + size) in
  _ ← region_pde virtual_addr s;
  loop (fun '(v, p, s) =>
    if v <? end_ then
      s ← paging_map_page v p flags s;
      Ret (inl (u64 (v + PAGE_SIZE), u64 (p + PAGE_SIZE), s))
    else Ret (inr s)) (virtual_addr, physical_addr, s).

Definition paging_alloc_and_map (virtual_addr flags : Z) (s : vm) : run (Z * vm) :=
  let '(phys, s) := new_frame s in
  if phys =? 0 then Ret (0, s)
  else s ← paging_map_page virtual_addr phys flags s; Ret (phys, s).

(** The kernel half and the identity tree are shared, the rest is empty. *)
Definition paging_clone_pd (s : vm) : run (Z * vm) :=
  let '(new_pml4, s) := new_frame s in
  if new_pml4 =? 0 then Ret (0, s)
  else
    let dst := pt_ptr new_pml4 in
    let src := pt_ptr (cr3 s) in
    m ← zero_page_table new_pml4 (mem s);
    m ← copy src dst (seqZ 256 255) m;
    m ← copy src dst [0] m;
    m ← wr m (slot dst 511) (Z.lor (Z.lor new_pml4 PAGE_PRESENT) PAGE_WRITE);
    Ret (new_pml4, set_mem m s).

Definition paging_vfork_clone (s : vm) : run (Z * vm) :=
  let '(new_pml4, s) := new_frame s in
  if new_pml4 =? 0 then Ret (0, s)
  else
    let dst := pt_ptr new_pml4 in
    let src := pt_ptr (cr3 s) in
    m ← copy src dst (seqZ 0 511) (mem s);
    m ← wr m (slot dst 511) (Z.lor (Z.lor new_pml4 PAGE_PRESENT) PAGE_WRITE);
    Ret (new_pml4, set_mem m s).

(** The new table is not checked for null. *)
Definition paging_init (s : vm) : run vm :=
  let '(new_pml4, s) := new_frame s in
  m ← zero_page_table new_pml4 (mem s);
  let src := pt_ptr (cr3 s) in
  let dst := pt_ptr new_pml4 in
  m ← copy src dst [0] m;
  m ← copy src dst (seqZ 256 255) m;
  m ← wr m (slot dst 511) (Z.lor (Z.lor new_pml4 PAGE_PRESENT) PAGE_WRITE);
  Ret (mkVm m (alloc s) new_pml4).

End Ops.
Arguments vm A : clear implicits.
End Vm.
Import Vm.

(** ** The walk of the processor *)

Definition vindex (va : Z) : list Z :=
  [PML4_INDEX va; PDPT_INDEX va; PD_INDEX va; PT_INDEX va].

(** The entry that ends the walk along an index path, with the indices it
    leaves to the page offset: none for a 4 KiB page, one for a 2 MiB leaf, two
    for a 1 GiB leaf. *)
Fixpoint walk (m : pmem) (t : Z) (ix : list Z) : option (Z * list Z) :=
  match ix with
  | [] => None
  | i :: ix =>
      match m !! slot t i with
      | None => None
      | Some e =>
          if negb (present e) then None
          else if bool_decide (ix = []) || (large e && (length ix <=? 2)%nat)
          then Some (e, ix)
          else walk m (pt_ptr e) ix
      end
  end.

(** The frame of the 4 KiB page that the walk ends at. *)
Definition page_of (r : Z * list Z) : Z :=
  match r with
  | (e, [d]) => Z.land e (not64 (2 ^ 21 - 1)) + d * 2 ^ 12
  | (e, [c; d]) => Z.land e (not64 (2 ^ 30 - 1)) + c * 2 ^ 21 + d * 2 ^ 12
  | (e, _) => pt_ptr e
  end.

Definition translate (m : pmem) (root va : Z) : option Z :=
  page_of <$> walk m (pt_ptr root) (vindex va).

(** ** Entries *)

Definition idx (i : Z) : Prop := 0 <= i < 512.

Lemma present_bit e : present e = Z.testbit e 0.
Proof. unfold present, PAGE_PRESENT. change 1 with (2 ^ 0). rewrite land_bit by lia. apply negb_involutive. Qed.
Lemma large_bit e : large e = Z.testbit e 7.
Proof. unfold large, PAGE_PS. change 0x80 with (2 ^ 7). rewrite land_bit by lia. apply negb_involutive. Qed.

Lemma pt_ptr_spec e : 0 <= e < 2 ^ 64 -> pt_ptr e = e / 4096 * 4096.
Proof. apply (mask_down 12). lia. Qed.

Lemma pt_ptr_aligned t : 0 <= t < 2 ^ 64 -> aligned t -> pt_ptr t = t.
Proof. intros Ht Ha. rewrite pt_ptr_spec by done. unfold aligned, PAGE_SIZE in Ha. ilia. Qed.

Lemma slot_inj t t' i i' :
  aligned t -> aligned t' -> idx i -> idx i' -> slot t i = slot t' i' -> t = t' /\ i = i'.
Proof. unfold aligned, PAGE_SIZE, idx, slot. intros. ilia. Qed.

Lemma index_idx v k : idx (Z.land (Z.shiftr v k) 0x1FF).
Proof.
  change 0x1FF with (Z.ones 9). rewrite Z.land_ones by lia. unfold idx.
  change 512 with (2 ^ 9). apply Z.mod_pos_bound. lia.
Qed.

Lemma vindex_idx va : Forall idx (vindex va).
Proof. repeat constructor; apply index_idx. Qed.

(** A table pointer with flag bits below the page offset. *)
Lemma lor_frame t f : aligned t -> 0 <= f < 4096 -> Z.lor t f = t + f.
Proof.
  intros Ha Hf. rewrite <- Z.add_lor_land. enough (Z.land t f = 0) as -> by lia.
  unfold aligned, PAGE_SIZE in Ha.
  apply Z.bits_inj'. intros i Hi. rewrite Z.land_spec, Z.bits_0.
  destruct (Z.lt_ge_cases i 12).
  - rewrite <- (Z.mod_pow2_bits_low t 12) by lia. change (2 ^ 12) with 4096.
    by rewrite Ha, Z.bits_0.
  - rewrite andb_comm. destruct (decide (f = 0)) as [->|]; [by rewrite Z.bits_0|].
    rewrite Z.bits_above_log2; [done|lia|].
    apply Z.log2_lt_pow2; [lia|]. apply Z.lt_le_trans with (2 ^ 12); [lia|].
    apply Z.pow_le_mono_r; lia.
Qed.

Lemma flag_bit t f k : aligned t -> 0 <= f < 4096 -> 0 <= k < 12 ->
  Z.testbit (t + f) k = Z.testbit f k.
Proof.
  intros Ha Hf Hk. unfold aligned, PAGE_SIZE in Ha.
  rewrite <- (Z.mod_pow2_bits_low (t + f) 12), <- (Z.mod_pow2_bits_low f 12) by lia.
  change (2 ^ 12) with 4096. replace ((t + f) mod 4096) with (f mod 4096) by ilia. done.
Qed.

(** The entry that links a new table. *)
Lemma link_entry_spec t f :
  frame_ok t -> 0 <= f < 4096 -> Z.testbit f 7 = false -> 
  let e := Z.lor (Z.lor (Z.lor t PAGE_PRESENT) PAGE_WRITE) f in
  0 <= e < 2 ^ 64 /\ present e = true /\ large e = false /\ pt_ptr e = t.
Proof.
  intros [Ht Ha] Hf Hf7. cbv zeta. rewrite <- !Z.lor_assoc.
  assert (Hlow : 0 <= Z.lor PAGE_PRESENT (Z.lor PAGE_WRITE f) < 4096).
  { by repeat apply (lor_bound _ _ 12). }
  rewrite lor_frame by done. unfold PMM_MAX_ADDR in Ht.
  rewrite present_bit, large_bit, !flag_bit by (done || lia).
  rewrite !Z.lor_spec, Hf7. split_and!; [lia|lia|done|done|].
  rewrite pt_ptr_spec by lia. unfold aligned, PAGE_SIZE in Ha. ilia.
Qed.

Lemma link_entry_plain t : frame_ok t ->
  let e := Z.lor (Z.lor t PAGE_PRESENT) PAGE_WRITE in
  0 <= e < 2 ^ 64 /\ present e = true /\ large e = false /\ pt_ptr e = t.
Proof.
  intros Ht. pose proof (link_entry_spec t 0 Ht ltac:(lia) eq_refl) as H.
  by rewrite Z.lor_0_r in H.
Qed.

(** The flag part of an entry does not reach into its frame. *)
Lemma pt_ptr_lor_flags e f k : Z.land k (not64 0xFFF) = 0 ->
  pt_ptr (Z.lor e (Z.land f k)) = pt_ptr e.
Proof.
  intros Hk. unfold pt_ptr. by rewrite Z.land_lor_distr_l, <- Z.land_assoc, Hk, Z.land_0_r, Z.lor_0_r.
Qed.

Lemma pt_ptr_mask_flags e k : Z.land k (not64 0xFFF) = not64 0xFFF ->
  pt_ptr (Z.land e k) = pt_ptr e.
Proof. intros Hk. unfold pt_ptr. by rewrite <- Z.land_assoc, Hk. Qed.

Lemma not64_bound k : 0 <= not64 k < 2 ^ 64.
Proof. apply u64_range. Qed.

Lemma leaf_entry_spec phys flags :
  0 <= leaf_entry phys flags < 2 ^ 64 /\ present (leaf_entry phys flags) = true /\
  pt_ptr (leaf_entry phys flags) = pt_ptr phys.
Proof.
  unfold leaf_entry. split; [|split].
  - apply (lor_bound _ _ 64); [done| |done].
    apply (lor_bound _ _ 64); [done|apply (land_bound _ _ 64); [done|apply not64_bound]..].
  - rewrite present_bit, Z.lor_spec. apply orb_true_r.
  - change PAGE_PRESENT with (Z.land PAGE_PRESENT PAGE_PRESENT).
    rewrite pt_ptr_lor_flags by reflexivity.
    rewrite <- Z.land_assoc, pt_ptr_lor_flags by reflexivity.
    by rewrite pt_ptr_mask_flags by reflexivity.
Qed.

(** Splitting a leaf maps every page where the leaf mapped it. *)
Lemma split_entry_spec leaf flags j :
  0 <= leaf < 2 ^ 64 -> present leaf = true -> idx j ->
  0 <= split_entry leaf flags j < 2 ^ 64 /\ present (split_entry leaf flags j) = true /\
  pt_ptr (split_entry leaf flags j) = page_of (leaf, [j]).
Proof.
  intros Hl Hp Hj. unfold split_entry, page_of.
  set (lf := Z.land leaf (Z.lor PAGE_PRESENT _)).
  assert (Hlf : 0 <= lf < 4096).
  { apply (land_bound leaf _ 12); done. }
  assert (Hlf0 : Z.testbit lf 0 = true)
    by (subst lf; rewrite Z.land_spec, <- present_bit, Hp; done).
  change (2 ^ 21 - 1) with (Z.ones 21).
  assert (Z.land leaf (not64 (Z.ones 21)) = leaf / 2 ^ 21 * 2 ^ 21) as ->
    by (apply (mask_down 21); lia).
  set (X := leaf / 2 ^ 21 * 2 ^ 21 + j * 2 ^ 12).
  assert (HX : 0 <= X < 2 ^ 64 /\ aligned X).
  { subst X. unfold idx, aligned, PAGE_SIZE in *. change (2 ^ 21) with 2097152. change (2 ^ 12) with 4096. ilia. }
  rewrite Z.shiftl_mul_pow2 by done. fold X.
  rewrite u64_small, (lor_frame X lf) by (done || apply HX).
  assert (He : 0 <= X + lf < 2 ^ 64 /\ present (X + lf) = true /\ pt_ptr (X + lf) = X).
  { destruct HX as [HX Ha]. assert (X + 4096 <= 2 ^ 64) by (unfold aligned, PAGE_SIZE in Ha; ilia).
    rewrite present_bit, flag_bit, pt_ptr_spec by (done || lia).
    split_and!; [lia|lia|done|]. unfold aligned, PAGE_SIZE in Ha. ilia. }
  destruct He as (He & Hep & Hef).
  destruct (negb (Z.land flags (Z.lor PAGE_PWT PAGE_PCD) =? 0)); [|done]. split; [|split].
  - apply (lor_bound _ _ 64); [done|apply (land_bound _ _ 64); [done|apply not64_bound]|].
    apply (land_bound _ _ 64); done.
  - rewrite present_bit, Z.lor_spec, !Z.land_spec, <- present_bit, Hep. done.
  - rewrite pt_ptr_lor_flags, pt_ptr_mask_flags by reflexivity. done.
Qed.

(** ** Writing tables *)

Lemma wr_ok m a v : is_Some (m !! a) -> wr m a v = Ret (<[a := v]> m).
Proof. intros [x Hx]. unfold wr. by rewrite Hx. Qed.

Lemma fill_spec t f ix m :
  (forall i, i ∈ ix -> is_Some (m !! slot t i)) ->
  exists m', fill t f ix m = Ret m' /\
    (forall i, i ∈ ix -> m' !! slot t i = Some (f i)) /\
    (forall k, (forall i, i ∈ ix -> k <> slot t i) -> m' !! k = m !! k) /\
    (forall k, is_Some (m !! k) -> is_Some (m' !! k)).
Proof.
  revert m. induction ix as [|i ix IH]; intros m Hm; cbn [fill].
  { exists m. split_and!; [done| |done|done]. intros i Hi. by apply elem_of_nil in Hi. }
  rewrite wr_ok, bind_ret by (apply Hm; left).
  destruct (IH (<[slot t i := f i]> m)) as (m' & -> & Hin & Hout & Hdom).
  { intros j Hj. destruct (decide (i = j)) as [->|].
    - rewrite lookup_insert_eq. eauto.
    - rewrite lookup_insert_ne by (unfold slot; lia). apply Hm. by right. }
  exists m'. split_and!; [done| | |].
  - intros j Hj. destruct (decide (j ∈ ix)) as [Hjx|Hjx]; [by apply Hin|].
    apply elem_of_cons in Hj as [->|]; [|done].
    rewrite Hout, lookup_insert_eq; [done|]. intros k Hk Heq. unfold slot in Heq.
    assert (i = k) as -> by lia. done.
  - intros k Hk. rewrite Hout by (intros j Hj; apply Hk; by right).
    apply lookup_insert_ne. intros <-. eapply Hk; [left|done].
  - intros k Hk. apply Hdom. destruct (decide (slot t i = k)) as [<-|].
    + rewrite lookup_insert_eq. eauto.
    + by rewrite lookup_insert_ne.
Qed.

(** ** The table tree

    [own] gives every table page the index path at which it hangs; a page
    hangs at one path only, so writes through one path are invisible on the
    others.  Entry 511 of the root is the self-map and is exempt. *)
Section Tree.
Context {A : Type} `{!FrameAllocator A}.

Abbreviation owners := (gmap Z (list Z)).

Definition self_map (p : list Z) (i : Z) : Prop := p = [] /\ i = 511.

Definition entry_ok (own : owners) (p : list Z) (i e : Z) : Prop :=
  0 <= e < 2 ^ 64 /\
  ((length p <= 2)%nat -> present e = true -> ~ self_map p i ->
   if large e then length p = 2%nat else own !! pt_ptr e = Some (p ++ [i])).

Record vm_ok (s : vm A) (own : owners) : Prop := {
  ok_inv : fa_inv (alloc s);
  ok_root : own !! pt_ptr (cr3 s) = Some [];
  ok_table : forall t p, own !! t = Some p ->
    aligned t /\ (t ∉ fa_frames (alloc s)) /\ (length p <= 3)%nat /\
    forall i, idx i -> exists e, mem s !! slot t i = Some e /\ entry_ok own p i e;
  ok_free : forall f i, f ∈ fa_frames (alloc s) -> idx i -> is_Some (mem s !! slot f i) }.

(** A path to walk from a table at path [p]: in range and not through the
    self-map. *)
Definition path_ok (p ix : list Z) : Prop :=
  (length p + length ix = 4)%nat /\ Forall idx ix /\
  match ix with i :: _ => ~ self_map p i | [] => True end.

Lemma path_ok_step p i ix : path_ok p (i :: ix) -> idx i /\ path_ok (p ++ [i]) ix.
Proof.
  intros (Hlen & Hix & _). apply Forall_cons in Hix as [Hi Hix]. split; [done|].
  split_and!; [rewrite length_app; cbn in *; lia|done|].
  destruct ix; [done|]. intros [Hp _]. by destruct p.
Qed.

Lemma ok_entry s own t p i :
  vm_ok s own -> own !! t = Some p -> idx i ->
  exists e, mem s !! slot t i = Some e /\ entry_ok own p i e.
Proof. intros Hok Ht Hi. destruct (ok_table s own Hok t p Ht) as (_ & _ & _ & H). auto. Qed.

Lemma ok_slot_inj s own t p t' p' i i' :
  vm_ok s own -> own !! t = Some p -> own !! t' = Some p' -> idx i -> idx i' ->
  slot t i = slot t' i' -> t = t' /\ i = i'.
Proof.
  intros Hok Ht Ht'. destruct (ok_table s own Hok t p Ht) as (? & _).
  destruct (ok_table s own Hok t' p' Ht') as (? & _). by apply slot_inj.
Qed.

(** Two states whose memories agree on the owned tables except for one entry
    walk alike, provided the walks through that entry end alike. *)
Lemma walk_agree s own (m' : pmem) tbl p i :
  vm_ok s own -> own !! tbl = Some p -> idx i ->
  (forall t q j, own !! t = Some q -> idx j -> (t, j) <> (tbl, i) ->
     m' !! slot t j = mem s !! slot t j) ->
  (forall ix, path_ok p (i :: ix) ->
     page_of <$> walk m' tbl (i :: ix) = page_of <$> walk (mem s) tbl (i :: ix)) ->
  forall ix t q, own !! t = Some q -> path_ok q ix ->
    page_of <$> walk m' t ix = page_of <$> walk (mem s) t ix.
Proof.
  intros Hok Htbl Hi Hagree Hhere ix.
  induction ix as [|j ix IH]; intros t q Ht Hpath; [done|].
  destruct (path_ok_step q j ix Hpath) as [Hj Hpath'].
  destruct (decide ((t, j) = (tbl, i))) as [Heq|Hne].
  { injection Heq as -> ->. apply Hhere. by simplify_eq. }
  destruct (ok_entry s own t q j Hok Ht Hj) as (e & He & Hrange & Hent).
  cbn [walk]. rewrite (Hagree t q j Ht Hj Hne), He.
  destruct (present e) eqn:Hp; cbn [negb]; [|done].
  destruct (bool_decide (ix = [])) eqn:Hnil; [done|]. cbn [orb].
  apply bool_decide_eq_false in Hnil.
  assert (Hlen : (length q <= 2)%nat).
  { destruct Hpath as (Hl & _). destruct ix; [done|]. cbn in Hl. lia. }
  specialize (Hent Hlen eq_refl). destruct Hpath as (Hl & _ & Hself).
  specialize (Hent Hself). destruct (large e).
  - rewrite (proj2 (Nat.leb_le _ _)) by (cbn in Hl; lia). done.
  - cbn [andb]. eapply IH; done.
Qed.

(** The state after a new table [f] with entries [g] has been linked at entry
    [i] of [tbl]. *)
Definition linked (s : vm A) (tbl i f e' : Z) (g : Z -> Z) (s' : vm A) : Prop :=
  cr3 s' = cr3 s /\
  fa_inv (alloc s') /\ fa_frames (alloc s') = fa_frames (alloc s) ∖ {[f]} /\
  f ∈ fa_frames (alloc s) /\ frame_ok f /\
  (0 <= e' < 2 ^ 64 /\ present e' = true /\ large e' = false /\ pt_ptr e' = f) /\
  mem s' !! slot tbl i = Some e' /\
  (forall j, idx j -> mem s' !! slot f j = Some (g j)) /\
  (forall k, (forall j, idx j -> k <> slot f j) -> k <> slot tbl i -> mem s' !! k = mem s !! k).

Section Linked.
Context (s s' : vm A) (own : owners) (tbl i f e' : Z) (p : list Z) (g : Z -> Z).
Context (Hok : vm_ok s own) (Htbl : own !! tbl = Some p) (Hi : idx i).
Context (Hlen : (length p <= 2)%nat) (Hself : ~ self_map p i).
Context (Hlink : linked s tbl i f e' g s').

Lemma linked_fresh : own !! f = None.
Proof using Hok Hlink.
  destruct Hlink as (_ & _ & _ & Hf & _). destruct (own !! f) as [q|] eqn:E; [|done].
  by destruct (ok_table s own Hok f q E) as (_ & ? & _).
Qed.

Lemma linked_agree t q j :
  own !! t = Some q -> idx j -> (t, j) <> (tbl, i) -> mem s' !! slot t j = mem s !! slot t j.
Proof using Hok Hlink Htbl Hi.
  intros Ht Hj Hne. pose proof linked_fresh as Hfresh.
  destruct Hlink as (_ & _ & _ & _ & [_ Haf] & _ & _ & _ & Hout). apply Hout.
  - intros k Hk Heq. destruct (ok_table s own Hok t q Ht) as (Hat & _).
    destruct (slot_inj t f j k Hat Haf Hj Hk Heq) as [-> ->]. congruence.
  - intros Heq. destruct (ok_slot_inj s own t q tbl p j i) as [-> ->]; done.
Qed.

Lemma linked_ok :
  (forall j, idx j -> entry_ok (<[f := p ++ [i]]> own) (p ++ [i]) j (g j)) ->
  vm_ok s' (<[f := p ++ [i]]> own).
Proof using Hok Hlink Htbl Hi Hlen Hself.
  intros Hg. pose proof linked_fresh as Hfresh. pose proof linked_agree as Hagree.
  destruct Hlink as (Hcr3 & Hinv & Hfr & Hf & [Hfr0 Haf] & (He0 & Hep & Hel & Hptr) & Hhere & Hnew & Hout).
  assert (Hweak : forall q j e, entry_ok own q j e -> entry_ok (<[f := p ++ [i]]> own) q j e).
  { intros q j e [Hr Ho]. split; [done|]. intros H1 H2 H3. specialize (Ho H1 H2 H3).
    destruct (large e); [done|]. rewrite lookup_insert_ne; [done|].
    intros Heq. rewrite <- Heq in Ho. congruence. }
  constructor.
  - done.
  - rewrite Hcr3, lookup_insert_ne; [apply (ok_root s own Hok)|].
    intros ->. pose proof (ok_root s own Hok). congruence.
  - intros t q Ht. destruct (decide (t = f)) as [->|Hne].
    + rewrite lookup_insert_eq in Ht. injection Ht as <-.
      split_and!; [done|rewrite Hfr; set_solver|rewrite length_app; cbn; lia|].
      intros j Hj. eauto.
    + rewrite lookup_insert_ne in Ht by done.
      destruct (ok_table s own Hok t q Ht) as (Hat & Hnf & Hlq & Hents).
      split_and!; [done|rewrite Hfr; set_solver|done|]. intros j Hj.
      destruct (decide ((t, j) = (tbl, i))) as [Heq|Hd].
      * injection Heq as -> ->. exists e'. split; [done|]. split; [done|].
        intros _ _ _. rewrite Hel, Hptr, lookup_insert_eq. by simplify_eq.
      * destruct (Hents j Hj) as (e & He & Ho). exists e.
        rewrite (Hagree t q j Ht Hj Hd). auto.
  - intros h j Hh Hj. rewrite Hfr in Hh. apply elem_of_difference in Hh as [Hh Hhf].
    destruct (fa_frame_ok _ _ (ok_inv s own Hok) Hh) as [_ Hah].
    rewrite Hout; [by apply (ok_free s own Hok)| |].
    + intros k Hk Heq. destruct (slot_inj h f j k Hah Haf Hj Hk Heq). set_solver.
    + destruct (ok_table s own Hok tbl p Htbl) as (Hat & Hnf & _).
      intros Heq. destruct (slot_inj h tbl j i Hah Hat Hj Hi Heq) as [-> _]. done.
Qed.

(** The new table leaves every translation as it was, if its entries
    reproduce what the old entry meant. *)
Lemma linked_walk e :
  mem s !! slot tbl i = Some e ->
  (forall ix, path_ok p (i :: ix) -> ix <> [] ->
     page_of <$> walk (mem s') f ix =
     (if present e then if large e then Some (page_of (e, ix)) else None else None)) ->
  (present e = true -> large e = true /\ length p = 2%nat) ->
  forall va, ~ self_map [] (PML4_INDEX va) ->
    translate (mem s') (cr3 s') va = translate (mem s) (cr3 s) va.
Proof using Hok Hlink Htbl Hi Hlen.
  intros He Hnew Hold va Hva. unfold translate.
  destruct Hlink as (-> & _ & _ & _ & _ & (He0 & Hep & Hel & Hptr) & Hhere & _ & _).
  eapply (walk_agree s own (mem s') tbl p i Hok Htbl Hi linked_agree); cycle 1.
  - apply (ok_root s own Hok).
  - split_and!; [done|apply vindex_idx|done].
  - intros ix Hpath. cbn [walk]. rewrite Hhere, He, Hep. cbn [negb].
    assert (ix <> []) as Hne.
    { intros ->. destruct Hpath as (Hl & _). cbn in Hl. lia. }
    rewrite (bool_decide_false (ix = [])), Hel by done. cbn [orb andb].
    rewrite Hptr, (Hnew ix Hpath Hne). destruct (present e) eqn:Hp; cbn [negb]; [|done].
    destruct (Hold eq_refl) as [Hl Hl2]. rewrite Hl. cbn [andb].
    rewrite (proj2 (Nat.leb_le _ _)); [done|]. destruct Hpath as (Hlp & _). cbn in Hlp. lia.
Qed.

End Linked.
End Tree.

Section Steps.
Context {A : Type} `{!FrameAllocator A}.
Implicit Types s : vm A.

Lemma elem_of_entries j : j ∈ seqZ 0 512 <-> idx j.
Proof. rewrite elem_of_seqZ. unfold idx. lia. Qed.

(** Clearing or filling a fresh frame and linking it. *)
Lemma link_frame s own tbl i p t s1 g e' (m0 : pmem) :
  vm_ok s own -> own !! tbl = Some p -> idx i ->
  new_frame s = (t, s1) -> t <> 0 ->
  (frame_ok t -> 0 <= e' < 2 ^ 64 /\ present e' = true /\ large e' = false /\ pt_ptr e' = t) ->
  (forall k, (forall j, idx j -> k <> slot t j) -> m0 !! k = mem s !! k) ->
  (forall k, is_Some (mem s !! k) -> is_Some (m0 !! k)) ->
  exists s', (m ← fill (pt_ptr t) g (seqZ 0 512) m0; m ← wr m (slot tbl i) e';
              Ret (true, set_mem m s1)) = Ret (true, s') /\
    linked s tbl i t e' g s'.
Proof.
  intros Hok Htbl Hi Hnew Hne He' Hm0 Hdom. unfold new_frame in Hnew.
  destruct (fa_alloc (alloc s)) as [t' a] eqn:Ha. injection Hnew as -> <-.
  destruct (fa_alloc_some _ _ _ (ok_inv s own Hok) Ha Hne) as (Hinv & Hin & Hfr).
  pose proof (fa_frame_ok _ _ (ok_inv s own Hok) Hin) as Hfok.
  assert (Ht : pt_ptr t = t).
  { destruct Hfok as [Hb Hal]. unfold PMM_MAX_ADDR in Hb. apply pt_ptr_aligned; [lia|done]. }
  rewrite Ht.
  destruct (fill_spec t g (seqZ 0 512) m0) as (m & -> & Hin_m & Hout & Hdom').
  { intros j Hj%elem_of_entries. apply Hdom. by apply (ok_free s own Hok). }
  destruct (ok_table s own Hok tbl p Htbl) as (Hat & Hnf & _ & Hents).
  assert (Hslot : forall j, idx j -> slot tbl i <> slot t j).
  { intros j Hj Heq. destruct (slot_inj tbl t i j Hat (proj2 Hfok) Hi Hj Heq) as [-> _]. done. }
  rewrite bind_ret, wr_ok, bind_ret.
  2:{ apply Hdom', Hdom. destruct (Hents i Hi) as (e & He & _). eauto. }
  eexists. split; [reflexivity|]. unfold linked. cbn [mem alloc cr3 set_mem].
  split_and!; try done; try (by apply He').
  - by rewrite lookup_insert_eq.
  - intros j Hj. rewrite lookup_insert_ne by (by apply Hslot).
    by apply Hin_m, elem_of_entries.
  - intros k Hk Hk'. rewrite lookup_insert_ne by done. rewrite Hout; [by apply Hm0|].
    intros j Hj%elem_of_entries. auto.
Qed.

(** The frames that were taken are exactly the tables that were added. *)
Definition accounted (s : vm A) (own : gmap Z (list Z)) (s' : vm A) (own' : gmap Z (list Z)) : Prop :=
  own ⊆ own' /\ fa_frames (alloc s) = fa_frames (alloc s') ∪ (dom own' ∖ dom own).

Lemma accounted_refl s own : accounted s own s own.
Proof. split; [done|]. set_solver. Qed.

Lemma accounted_trans s own s1 own1 s2 own2 :
  accounted s own s1 own1 -> accounted s1 own1 s2 own2 -> accounted s own s2 own2.
Proof.
  intros [S1 F1] [S2 F2]. split; [by etrans|]. rewrite F1, F2.
  pose proof (subseteq_dom _ _ S1). pose proof (subseteq_dom _ _ S2).
  apply set_eq. intros x. destruct (decide (x ∈ dom own1)); set_solver.
Qed.

(** What a step at entry [i] of [tbl] may change. *)
Definition grows (s : vm A) (own : gmap Z (list Z)) (tbl i : Z) (s' : vm A)
    (own' : gmap Z (list Z)) : Prop :=
  vm_ok s' own' /\ accounted s own s' own' /\ cr3 s' = cr3 s /\
  fa_frames (alloc s') ⊆ fa_frames (alloc s) /\
  (size (fa_frames (alloc s)) <= size (fa_frames (alloc s')) + 1)%nat /\
  (forall va, ~ self_map [] (PML4_INDEX va) ->
     translate (mem s') (cr3 s') va = translate (mem s) (cr3 s) va) /\
  (forall t q j, own !! t = Some q -> idx j -> (t, j) <> (tbl, i) ->
     mem s' !! slot t j = mem s !! slot t j).

Lemma grows_refl s own tbl i : vm_ok s own -> grows s own tbl i s own.
Proof. intros. unfold grows. split; [done|]. split; [apply accounted_refl|]. split_and!; try done. lia. Qed.

Lemma grows_linked s own tbl i p f e e' g s' :
  vm_ok s own -> own !! tbl = Some p -> idx i -> (length p <= 2)%nat -> ~ self_map p i ->
  linked s tbl i f e' g s' -> mem s !! slot tbl i = Some e ->
  (forall j, idx j -> entry_ok (<[f := p ++ [i]]> own) (p ++ [i]) j (g j)) ->
  (forall ix, path_ok p (i :: ix) -> ix <> [] ->
     page_of <$> walk (mem s') f ix =
     (if present e then if large e then Some (page_of (e, ix)) else None else None)) ->
  (present e = true -> large e = true /\ length p = 2%nat) ->
  grows s own tbl i s' (<[f := p ++ [i]]> own).
Proof.
  intros Hok Htbl Hi Hlen Hself Hlink He Hg Hwalk Hold.
  pose proof (linked_fresh s s' own tbl i f e' g Hok Hlink) as Hfresh.
  pose proof Hlink as (Hcr3 & Hinv & Hfr & Hf & _).
  unfold grows. split; [by eapply linked_ok|]. split; [|split_and!; [done| | | |]].
  - split; [by apply insert_subseteq|]. rewrite dom_insert_L, Hfr. apply not_elem_of_dom in Hfresh.
    apply set_eq. intros x. destruct (decide (x = f)) as [->|]; set_solver.
  - rewrite Hfr. set_solver.
  - rewrite Hfr. rewrite (size_difference_alt (fa_frames (alloc s)) {[f]}).
    assert (size (fa_frames (alloc s) ∩ {[f]}) <= 1)%nat; [|lia].
    rewrite <- (size_singleton (C := gset Z) f). apply subseteq_size. set_solver.
  - by eapply linked_walk.
  - intros t q j. by eapply linked_agree.
Qed.

(** The child table at entry [i], after a step that succeeded. *)
Definition child (s' : vm A) (own' : gmap Z (list Z)) (tbl i : Z) (p : list Z) (e : Z)
    : Prop :=
  mem s' !! slot tbl i = Some e /\ present e = true /\ large e = false /\
    own' !! pt_ptr e = Some (p ++ [i]).

Lemma new_frame_none s own s1 :
  vm_ok s own -> new_frame s = (0, s1) -> s1 = s /\ fa_frames (alloc s) = ∅.
Proof.
  intros Hok Hnew. unfold new_frame in Hnew.
  destruct (fa_alloc (alloc s)) as [t a] eqn:Ha. injection Hnew as -> <-.
  destruct (fa_alloc_none _ _ (ok_inv s own Hok) Ha) as [? ->]. by destruct s.
Qed.

Lemma zero_entry_ok own p i : entry_ok own p i 0.
Proof. split; [lia|]. done. Qed.

Lemma walk_zero_table (m : pmem) f ix :
  (forall j, idx j -> m !! slot f j = Some 0) -> Forall idx ix -> walk m f ix = None.
Proof.
  intros Hz Hix. destruct ix as [|j ix]; [done|]. apply Forall_cons in Hix as [Hj _].
  cbn [walk]. by rewrite Hz.
Qed.

Lemma need_table_spec s own tbl i p :
  vm_ok s own -> own !! tbl = Some p -> idx i -> (length p <= 2)%nat -> ~ self_map p i ->
  (forall e, mem s !! slot tbl i = Some e -> present e = true -> large e = false) ->
  exists (ok : bool) s' own', need_table tbl i s = Ret (ok, s') /\
    grows s own tbl i s' own' /\
    (if ok then exists e, child s' own' tbl i p e else s' = s /\ fa_frames (alloc s) = ∅).
Proof.
  intros Hok Htbl Hi Hlen Hself Hsmall. unfold need_table.
  destruct (ok_entry s own tbl p i Hok Htbl Hi) as (e & He & Her & Hent).
  unfold rd. rewrite He. cbn [of_option]. rewrite bind_ret.
  destruct (present e) eqn:Hp.
  { specialize (Hsmall e He Hp). specialize (Hent Hlen eq_refl Hself). rewrite Hsmall in Hent.
    exists true, s, own. split_and!; [done|by apply grows_refl|]. exists e. done. }
  destruct (new_frame s) as [t s1] eqn:Hnew. destruct (Z.eqb_spec t 0) as [->|Hne].
  { destruct (new_frame_none s own s1 Hok Hnew) as [-> Hempty].
    exists false, s, own. split_and!; [done|by apply grows_refl|done|done]. }
  destruct (link_frame s own tbl i p t s1 (fun _ => 0)
              (Z.lor (Z.lor t PAGE_PRESENT) PAGE_WRITE) (mem s)) as (s' & Hrun & Hlink);
    [done..|apply link_entry_plain|done|done|].
  assert (mem s1 = mem s) as Hmem.
  { unfold new_frame in Hnew. destruct (fa_alloc (alloc s)). by injection Hnew as _ <-. }
  exists true, s', (<[t := p ++ [i]]> own). split_and!.
  - unfold zero_page_table. rewrite Hmem. exact Hrun.
  - eapply grows_linked; [done..| | |by rewrite Hp].
    + intros j Hj. apply zero_entry_ok.
    + intros ix (_ & Hix & _) _. rewrite Hp. destruct Hlink as (_ & _ & _ & _ & _ & _ & _ & Hz & _).
      apply Forall_cons in Hix as [_ Hix]. by rewrite walk_zero_table.
  - destruct Hlink as (_ & _ & _ & _ & _ & (_ & ? & ? & Hptr) & Hhere & _).
    eexists. unfold child. split_and!; [done..|]. by rewrite Hptr, lookup_insert_eq.
Qed.

(** A new frame is cleared before it is linked. *)
Lemma zero_new_frame s own t s1 :
  vm_ok s own -> new_frame s = (t, s1) -> t <> 0 ->
  exists m0, zero_page_table t (mem s) = Ret m0 /\
    (forall k, (forall j, idx j -> k <> slot t j) -> m0 !! k = mem s !! k) /\
    (forall k, is_Some (mem s !! k) -> is_Some (m0 !! k)).
Proof.
  intros Hok Hnew Hne. unfold new_frame in Hnew. destruct (fa_alloc (alloc s)) as [t' a] eqn:Ha.
  injection Hnew as -> <-.
  destruct (fa_alloc_some _ _ _ (ok_inv s own Hok) Ha Hne) as (_ & Hin & _).
  destruct (fa_frame_ok _ _ (ok_inv s own Hok) Hin) as [Hb Hal]. unfold PMM_MAX_ADDR in Hb.
  unfold zero_page_table. rewrite pt_ptr_aligned by (lia || done).
  destruct (fill_spec t (fun _ => 0) (seqZ 0 512) (mem s)) as (m0 & -> & _ & Hout & Hd).
  { intros j Hj%elem_of_entries. by apply (ok_free s own Hok). }
  exists m0. split_and!; [done| |done]. intros k Hk. apply Hout.
  intros j Hj%elem_of_entries. auto.
Qed.

Lemma split_leaf_spec s own pd c p flags e :
  vm_ok s own -> own !! pd = Some p -> idx c -> length p = 2%nat ->
  mem s !! slot pd c = Some e -> present e = true -> large e = true ->
  exists (ok : bool) s' own', split_leaf pd c flags e s = Ret (ok, s') /\
    grows s own pd c s' own' /\
    (if ok then exists e, child s' own' pd c p e else s' = s /\ fa_frames (alloc s) = ∅).
Proof.
  intros Hok Htbl Hi Hlen He Hp Hl. unfold split_leaf.
  destruct (ok_entry s own pd p c Hok Htbl Hi) as (e0 & He0 & Her & _). simplify_eq.
  assert (Hself : ~ self_map p c) by (intros [-> _]; done).
  destruct (new_frame s) as [t s1] eqn:Hnew. destruct (Z.eqb_spec t 0) as [->|Hne].
  { destruct (new_frame_none s own s1 Hok Hnew) as [-> Hempty].
    exists false, s, own. split_and!; [done|by apply grows_refl|done|done]. }
  assert (mem s1 = mem s) as Hmem.
  { unfold new_frame in Hnew. destruct (fa_alloc (alloc s)). by injection Hnew as _ <-. }
  set (lf := Z.land (Z.land e _) _).
  assert (Hlf : 0 <= lf < 4096 /\ Z.testbit lf 7 = false).
  { subst lf. rewrite <- Z.land_assoc. split; [by apply (land_bound e _ 12)|].
    rewrite Z.land_spec. apply andb_false_r. }
  destruct (zero_new_frame s own t s1 Hok Hnew Hne) as (m0 & Hzero & Hm0 & Hdom).
  destruct (link_frame s own pd c p t s1 (split_entry e flags)
              (Z.lor (Z.lor (Z.lor t PAGE_PRESENT) PAGE_WRITE) lf) m0) as (s' & Hrun & Hlink);
    [done..|intros Ht; apply (link_entry_spec t lf Ht); apply Hlf|done|done|].
  exists true, s', (<[t := p ++ [c]]> own). split_and!.
  - rewrite Hmem, Hzero. exact Hrun.
  - eapply grows_linked; [done..|lia|done|done|done| | |done].
    + intros j Hj. split; [apply (split_entry_spec e flags j Her Hp Hj)|].
      rewrite length_app, Hlen. cbn. lia.
    + intros ix (Hlx & Hix & _) Hnil. rewrite Hp, Hl.
      destruct Hlink as (_ & _ & _ & _ & _ & _ & _ & Hents & _).
      rewrite Hlen in Hlx. destruct ix as [|j [|]]; [done| |cbn in Hlx; lia].
      apply Forall_cons in Hix as [_ Hix]. apply Forall_inv in Hix.
      destruct (split_entry_spec e flags j Her Hp Hix) as (_ & Hsp & Hpage).
      cbn [walk]. rewrite Hents, Hsp by done. cbn [negb].
      rewrite bool_decide_true by done. cbn [orb fmap option_fmap option_map].
      by rewrite <- Hpage.
  - destruct Hlink as (_ & _ & _ & _ & _ & (_ & ? & ? & Hptr) & Hhere & _).
    eexists. unfold child. split_and!; [done..|]. by rewrite Hptr, lookup_insert_eq.
Qed.

Lemma need_pt_spec s own pd c p flags :
  vm_ok s own -> own !! pd = Some p -> idx c -> length p = 2%nat ->
  exists (ok : bool) s' own', need_pt pd c flags s = Ret (ok, s') /\
    grows s own pd c s' own' /\
    (if ok then exists e, child s' own' pd c p e else s' = s /\ fa_frames (alloc s) = ∅).
Proof.
  intros Hok Htbl Hi Hlen. unfold need_pt.
  destruct (ok_entry s own pd p c Hok Htbl Hi) as (e & He & Her & Hent).
  assert (Hself : ~ self_map p c) by (intros [-> _]; done).
  unfold rd. rewrite He. cbn [of_option]. rewrite bind_ret.
  destruct (present e) eqn:Hp; cbn [negb].
  - destruct (large e) eqn:Hl; [by eapply split_leaf_spec|].
    specialize (Hent ltac:(lia) eq_refl Hself). exists true, s, own.
    split_and!; [done|by apply grows_refl|]. exists e. done.
  - apply need_table_spec; try done; [lia|]. intros e' He' Hp'. congruence.
Qed.

Lemma grows_child s own tbl i s' own' t j p q e :
  grows s own tbl i s' own' -> child s own t j q e -> own !! t = Some q ->
  own !! tbl = Some p -> idx j -> q <> p -> child s' own' t j q e.
Proof.
  intros (_ & [Hsub _] & _ & _ & _ & _ & Hagree) (He & Hp & Hl & Ho) Ht Htbl Hj Hne.
  unfold child. rewrite (Hagree t q j Ht Hj) by congruence.
  split_and!; [done..|]. by eapply lookup_weaken.
Qed.

Lemma walk_child (m : pmem) t i e ix :
  m !! slot t i = Some e -> present e = true -> large e = false -> ix <> [] ->
  walk m t (i :: ix) = walk m (pt_ptr e) ix.
Proof.
  intros He Hp Hl Hne. cbn [walk]. rewrite He, Hp, Hl. cbn [negb andb].
  by rewrite bool_decide_false, orb_false_r by done.
Qed.

Lemma write_leaf s own pt d p v :
  vm_ok s own -> own !! pt = Some p -> length p = 3%nat -> idx d -> 0 <= v < 2 ^ 64 ->
  wr (mem s) (slot pt d) v = Ret (<[slot pt d := v]> (mem s)) /\
  vm_ok (set_mem (<[slot pt d := v]> (mem s)) s) own /\
  forall ix t q, own !! t = Some q -> path_ok q ix -> q ++ ix <> p ++ [d] ->
    page_of <$> walk (<[slot pt d := v]> (mem s)) t ix = page_of <$> walk (mem s) t ix.
Proof.
  intros Hok Hpt Hlen Hd Hv.
  assert (Hagree : forall t q j, own !! t = Some q -> idx j -> (t, j) <> (pt, d) ->
            <[slot pt d := v]> (mem s) !! slot t j = mem s !! slot t j).
  { intros t q j Ht Hj Hne. apply lookup_insert_ne. intros Heq.
    destruct (ok_slot_inj s own pt p t q d j) as [-> ->]; done. }
  split_and!.
  - apply wr_ok. destruct (ok_entry s own pt p d Hok Hpt Hd) as (e & He & _). eauto.
  - constructor; cbn [alloc cr3 mem set_mem].
    + apply (ok_inv s own Hok).
    + apply (ok_root s own Hok).
    + intros t q Ht. destruct (ok_table s own Hok t q Ht) as (? & ? & ? & Hents).
      split_and!; [done..|]. intros j Hj. destruct (decide ((t, j) = (pt, d))) as [Heq|Hne].
      * injection Heq as -> ->. exists v. rewrite lookup_insert_eq. split; [done|].
        split; [done|]. simplify_eq. lia.
      * rewrite (Hagree t q j Ht Hj Hne). auto.
    + intros f j Hf Hj. destruct (decide (slot pt d = slot f j)) as [->|].
      * rewrite lookup_insert_eq. eauto.
      * rewrite lookup_insert_ne by done. by apply (ok_free s own Hok).
  - intros ix. induction ix as [|j ix IH]; intros t q Ht Hpath Hne; [done|].
    destruct (path_ok_step q j ix Hpath) as [Hj Hpath'].
    assert ((t, j) <> (pt, d)) as Hd'.
    { intros [= -> ->]. simplify_eq. destruct Hpath as (Hl & _). cbn in Hl.
      destruct ix; [done|cbn in Hl; lia]. }
    destruct (ok_entry s own t q j Hok Ht Hj) as (e & He & Hrange & Hent).
    cbn [walk]. rewrite (Hagree t q j Ht Hj Hd'), He.
    destruct (present e) eqn:Hp; cbn [negb]; [|done].
    destruct (bool_decide (ix = [])) eqn:Hnil; [done|]. cbn [orb].
    apply bool_decide_eq_false in Hnil. destruct Hpath as (Hl & _ & Hself).
    assert (Hlen' : (length q <= 2)%nat) by (destruct ix; [done|cbn in Hl; lia]).
    specialize (Hent Hlen' eq_refl Hself). destruct (large e).
    + rewrite (proj2 (Nat.leb_le _ _)) by (cbn in Hl; lia). done.
    + cbn [andb]. eapply IH; [done..|]. by rewrite <- app_assoc.
Qed.

(** Several steps: what [grows] says, without the place. *)
Definition grows_far (k : nat) (s : vm A) (own : gmap Z (list Z)) (s' : vm A) (own' : gmap Z (list Z)) : Prop :=
  vm_ok s' own' /\ accounted s own s' own' /\ cr3 s' = cr3 s /\ fa_frames (alloc s') ⊆ fa_frames (alloc s) /\
  (size (fa_frames (alloc s)) <= size (fa_frames (alloc s')) + k)%nat /\
  (forall va, ~ self_map [] (PML4_INDEX va) ->
     translate (mem s') (cr3 s') va = translate (mem s) (cr3 s) va).

Lemma grows_far_step k s own s1 own1 tbl i s2 own2 :
  grows_far k s own s1 own1 -> grows s1 own1 tbl i s2 own2 -> grows_far (S k) s own s2 own2.
Proof.
  intros (_ & Ha & Hc & Hf & Hs & Ht) (Hok & Ha' & Hc' & Hf' & Hs' & Ht' & _).
  unfold grows_far. split; [done|]. split; [by eapply accounted_trans|]. split_and!; [congruence|set_solver|lia|].
  intros va Hva. by rewrite Ht', Ht.
Qed.

Lemma grows_far_0 s own : vm_ok s own -> grows_far 0 s own s own.
Proof. intros. unfold grows_far. split; [done|]. split; [apply accounted_refl|]. split_and!; try done. lia. Qed.

Lemma grows_far_weaken k k' s own s' own' :
  grows_far k s own s' own' -> (k <= k')%nat -> grows_far k' s own s' own'.
Proof. intros (? & ? & ? & ? & ? & ?) Hk. unfold grows_far. split; [done|]. split; [done|]. split_and!; try done. lia. Qed.

Lemma rd_child s own tbl i p e : child s own tbl i p e -> rd (mem s) (slot tbl i) = Ret e.
Proof. intros (He & _). unfold rd. by rewrite He. Qed.

Lemma small_above s own t p i e :
  vm_ok s own -> own !! t = Some p -> idx i -> (length p <= 1)%nat -> ~ self_map p i ->
  mem s !! slot t i = Some e -> present e = true -> large e = false.
Proof.
  intros Hok Ht Hi Hlen Hself He Hp.
  destruct (ok_entry s own t p i Hok Ht Hi) as (e' & He' & _ & Hent). simplify_eq.
  specialize (Hent ltac:(lia) Hp Hself). destruct (large e); [lia|done].
Qed.

(** The outcome of the walk to the last table. *)
Definition path_spec (va : Z) (s : vm A) (o : option Z) (s' : vm A) (own' : gmap Z (list Z)) : Prop :=
  match o with
  | None => fa_frames (alloc s') = ∅ /\ (size (fa_frames (alloc s)) < 3)%nat
  | Some pt => exists e1 e2 e3,
      child s' own' (pt_ptr (cr3 s)) (PML4_INDEX va) [] e1 /\
      child s' own' (pt_ptr e1) (PDPT_INDEX va) [PML4_INDEX va] e2 /\
      child s' own' (pt_ptr e2) (PD_INDEX va) [PML4_INDEX va; PDPT_INDEX va] e3 /\
      own' !! pt_ptr (cr3 s) = Some [] /\
      own' !! pt_ptr e1 = Some [PML4_INDEX va] /\
      own' !! pt_ptr e2 = Some [PML4_INDEX va; PDPT_INDEX va] /\
      pt = pt_ptr e3
  end.

Lemma grows_far_stop k s own s' own' va :
  grows_far k s own s' own' -> (k < 3)%nat -> fa_frames (alloc s') = ∅ ->
  exists o s'' own'', Ret (None, s') = Ret (o, s'') /\ grows_far 3 s own s'' own'' /\ path_spec va s o s'' own''.
Proof.
  intros G Hk He. exists None, s', own'. split_and!; [done|eapply grows_far_weaken; [exact G|lia]|].
  destruct G as (_ & _ & _ & _ & Hsz & _). split; [done|]. rewrite He, size_empty in Hsz. lia.
Qed.

Lemma table_path_spec s own va flags :
  vm_ok s own -> PML4_INDEX va <> 511 ->
  exists o s' own', table_path va flags s = Ret (o, s') /\ grows_far 3 s own s' own' /\ path_spec va s o s' own'.
Proof.
  intros Hok Ha. unfold table_path. rewrite pt_ptr_mask_flags by reflexivity.
  set (a := PML4_INDEX va) in *. set (b := PDPT_INDEX va). set (c := PD_INDEX va).
  assert (idx a /\ idx b /\ idx c) as (Hia & Hib & Hic) by (split_and!; apply index_idx).
  assert (Hself : ~ self_map [] a) by (by intros [_ ?]).
  pose proof (ok_root s own Hok) as Hroot. pose proof (grows_far_0 s own Hok) as G0.
  destruct (need_table_spec s own _ a [] Hok Hroot Hia ltac:(cbn; lia) Hself)
    as (ok1 & s1 & own1 & -> & G1 & H1);
    [intros e; by apply (small_above s own _ [] a e Hok Hroot Hia ltac:(cbn; lia))|].
  pose proof (grows_far_step _ _ _ _ _ _ _ _ _ G0 G1) as F1.
  rewrite bind_ret. destruct ok1; cbn [negb]; cycle 1.
  { destruct H1 as [-> Hemp]. by apply (grows_far_stop 0 s own s own); [|lia|]. }
  destruct H1 as [e1 C1]. rewrite (rd_child _ _ _ _ _ _ C1), bind_ret.
  assert (O1 : own1 !! pt_ptr e1 = Some [a]) by apply C1.
  destruct F1 as (Hok1 & F1'). pose proof (conj Hok1 F1') as F1.
  destruct (need_table_spec s1 own1 _ b [a] Hok1 O1 Hib ltac:(cbn; lia) ltac:(by intros []))
    as (ok2 & s2 & own2 & -> & G2 & H2);
    [intros e; by apply (small_above s1 own1 _ [a] b e Hok1 O1 Hib ltac:(cbn; lia) ltac:(by intros []))|].
  pose proof (grows_far_step _ _ _ _ _ _ _ _ _ F1 G2) as F2.
  rewrite bind_ret. destruct ok2; cbn [negb]; cycle 1.
  { destruct H2 as [-> Hemp]. by apply (grows_far_stop 1 s own s1 own1); [|lia|]. }
  destruct H2 as [e2 C2]. rewrite (rd_child _ _ _ _ _ _ C2), bind_ret.
  assert (O2 : own2 !! pt_ptr e2 = Some [a; b]) by apply C2.
  destruct F2 as (Hok2 & F2'). pose proof (conj Hok2 F2') as F2.
  assert (S1 : own ⊆ own1) by apply G1. assert (S2 : own1 ⊆ own2) by apply G2.
  assert (R1 : own1 !! pt_ptr (cr3 s) = Some []) by (by eapply lookup_weaken).
  assert (R2 : own2 !! pt_ptr (cr3 s) = Some []) by (by eapply lookup_weaken).
  assert (O1' : own2 !! pt_ptr e1 = Some [a]) by (by eapply lookup_weaken).
  pose proof (grows_child _ _ _ _ _ _ _ _ _ _ _ G2 C1 R1 O1 Hia ltac:(done)) as C1'.
  destruct (need_pt_spec s2 own2 _ c [a; b] flags Hok2 O2 Hic eq_refl)
    as (ok3 & s3 & own3 & -> & G3 & H3).
  pose proof (grows_far_step _ _ _ _ _ _ _ _ _ F2 G3) as F3.
  rewrite bind_ret. destruct ok3; cbn [negb]; cycle 1.
  { destruct H3 as [-> Hemp]. by apply (grows_far_stop 2 s own s2 own2); [|lia|]. }
  destruct H3 as [e3 C3]. rewrite (rd_child _ _ _ _ _ _ C3), bind_ret.
  exists (Some (pt_ptr e3)), s3, own3. split_and!; [done|exact F3|].
  assert (S3 : own2 ⊆ own3) by apply G3.
  exists e1, e2, e3. split_and!; try done; try (by eapply lookup_weaken).
  - by eapply (grows_child _ _ _ _ _ _ _ _ _ _ _ G3 C1').
  - by eapply (grows_child _ _ _ _ _ _ _ _ _ _ _ G3 C2).
Qed.

Lemma paging_map_page_spec s own va pa flags :
  vm_ok s own -> PML4_INDEX va <> 511 ->
  exists s' own', paging_map_page va pa flags s = Ret s' /\ vm_ok s' own' /\ accounted s own s' own' /\
    cr3 s' = cr3 s /\ fa_frames (alloc s') ⊆ fa_frames (alloc s) /\
    (size (fa_frames (alloc s)) <= size (fa_frames (alloc s')) + 3)%nat /\
    ((walk (mem s') (pt_ptr (cr3 s')) (vindex va) = Some (leaf_entry pa flags, []) /\
      (forall va', PML4_INDEX va' <> 511 -> vindex va' <> vindex va ->
         translate (mem s') (cr3 s') va' = translate (mem s) (cr3 s) va')) \/
     (fa_frames (alloc s') = ∅ /\ (size (fa_frames (alloc s)) < 3)%nat /\
      forall va', PML4_INDEX va' <> 511 ->
        translate (mem s') (cr3 s') va' = translate (mem s) (cr3 s) va')).
Proof.
  intros Hok Ha. unfold paging_map_page.
  destruct (table_path_spec s own va flags Hok Ha) as (o & s1 & own1 & -> & F & Ho).
  destruct F as (Hok1 & Hacc & Hcr3 & Hfr & Hsz & Htr). rewrite bind_ret.
  assert (Hns : forall va', PML4_INDEX va' <> 511 -> ~ self_map [] (PML4_INDEX va'))
    by (by intros va' ? [_ ?]).
  destruct o as [pt|]; cycle 1.
  { destruct Ho as [? ?]. exists s1, own1. split; [done|]. split; [done|]. split; [done|]. split_and!; try done. right. split_and!; auto. }
  destruct Ho as (e1 & e2 & e3 & C1 & C2 & C3 & R & O1 & O2 & ->).
  pose proof (index_idx va 12 : idx (PT_INDEX va)) as Hid.
  set (d := PT_INDEX va) in *. set (pt := pt_ptr e3) in *.
  assert (O3 : own1 !! pt = Some [PML4_INDEX va; PDPT_INDEX va; PD_INDEX va]) by apply C3.
  destruct (leaf_entry_spec pa flags) as (Hv & Hvp & _). set (v := leaf_entry pa flags) in *.
  destruct (write_leaf s1 own1 pt d _ v Hok1 O3 eq_refl Hid Hv) as (-> & Hok2 & Hwalk).
  rewrite bind_ret. eexists _, own1. split; [reflexivity|]. cbn [cr3 alloc mem set_mem].
  split; [done|]. split; [exact Hacc|]. split_and!; [done..|]. left. split.
  - (* the path to the page table is not touched by the last write *)
    assert (Hkeep : forall t q i p e, own1 !! t = Some q -> idx i -> (length q < 3)%nat ->
              child s1 own1 t i p e -> <[slot pt d := v]> (mem s1) !! slot t i = Some e).
    { intros t q i p e Ht Hi Hq (He & _). rewrite lookup_insert_ne; [done|]. intros Heq.
      destruct (ok_slot_inj s1 own1 pt _ t q d i Hok1 O3 Ht Hid Hi Heq) as [<- _].
      simplify_eq. cbn in Hq. lia. }
    rewrite Hcr3. unfold vindex.
    rewrite (walk_child _ _ _ e1), (walk_child _ _ _ e2), (walk_child _ _ _ e3)
      by (done || apply C1 || apply C2 || apply C3 ||
          (eapply Hkeep; [done|apply index_idx|cbn; lia|done])).
    cbn [walk]. fold pt. fold d. rewrite lookup_insert_eq, Hvp. done.
  - intros va' Ha' Hne. rewrite <- (Htr va') by auto. unfold translate. rewrite Hcr3.
    apply (Hwalk (vindex va') _ [] R); [|done].
    split_and!; [done|apply vindex_idx|by apply Hns].
Qed.

(** ** Cloning an address space *)

Lemma copy_spec src dst ix (m : pmem) :
  aligned src -> aligned dst -> src <> dst -> Forall idx ix ->
  (forall i, idx i -> is_Some (m !! slot src i)) ->
  (forall i, idx i -> is_Some (m !! slot dst i)) ->
  exists m', copy src dst ix m = Ret m' /\
    (forall i, i ∈ ix -> m' !! slot dst i = m !! slot src i) /\
    (forall k, (forall i, i ∈ ix -> k <> slot dst i) -> m' !! k = m !! k).
Proof.
  intros Has Had Hne Hix Hsrc Hdst. revert m Hsrc Hdst.
  induction Hix as [|i ix Hi Hix IH]; intros m Hsrc Hdst; cbn [copy].
  { exists m. split_and!; [done| |done]. intros i Hi. by apply elem_of_nil in Hi. }
  destruct (Hsrc i Hi) as [e He]. unfold rd. rewrite He. cbn [of_option].
  rewrite bind_ret, wr_ok, bind_ret by auto.
  assert (Hsd : forall j, idx j -> slot dst i <> slot src j).
  { intros j Hj Heq. by destruct (slot_inj dst src i j Had Has Hi Hj Heq) as [? _]. }
  destruct (IH (<[slot dst i := e]> m)) as (m' & -> & Hin & Hout).
  { intros j Hj. rewrite lookup_insert_ne by auto. auto. }
  { intros j Hj. destruct (decide (i = j)) as [->|]; [rewrite lookup_insert_eq; eauto|].
    rewrite lookup_insert_ne by (unfold slot; lia). auto. }
  exists m'. split_and!; [done| |].
  - intros j Hj. rewrite Forall_forall in Hix. destruct (decide (j ∈ ix)) as [Hjx|Hjx].
    + rewrite Hin, lookup_insert_ne by auto. done.
    + apply elem_of_cons in Hj as [->|]; [|done].
      rewrite Hout; [by rewrite lookup_insert_eq|].
      intros k Hk Heq. unfold slot in Heq. assert (i = k) as -> by lia. done.
  - intros k Hk. rewrite Hout by (intros j Hj; apply Hk; by right).
    apply lookup_insert_ne. intros <-. eapply Hk; [left|done].
Qed.

(** The state after frame [f] has been taken and only its words written. *)
Definition took_frame (s : vm A) (f : Z) (s' : vm A) : Prop :=
  cr3 s' = cr3 s /\ fa_inv (alloc s') /\ f ∈ fa_frames (alloc s) /\ frame_ok f /\
  fa_frames (alloc s') = fa_frames (alloc s) ∖ {[f]} /\
  (forall k, (forall j, idx j -> k <> slot f j) -> mem s' !! k = mem s !! k).

Lemma took_frame_agree s own f s' t q j :
  vm_ok s own -> took_frame s f s' -> own !! t = Some q -> idx j ->
  mem s' !! slot t j = mem s !! slot t j.
Proof.
  intros Hok (_ & _ & Hf & [_ Haf] & _ & Hout) Ht Hj. apply Hout. intros k Hk Heq.
  destruct (ok_table s own Hok t q Ht) as (Hat & Hnf & _).
  by destruct (slot_inj t f j k Hat Haf Hj Hk Heq) as [-> _].
Qed.

Lemma took_frame_ok s own f s' : vm_ok s own -> took_frame s f s' -> vm_ok s' own.
Proof.
  intros Hok Htook. pose proof Htook as (Hcr3 & Hinv & Hf & [_ Haf] & Hfr & Hout).
  constructor.
  - done.
  - rewrite Hcr3. apply (ok_root s own Hok).
  - intros t q Ht. destruct (ok_table s own Hok t q Ht) as (? & ? & ? & Hents).
    split_and!; [done|rewrite Hfr; set_solver|done|].
    intros j Hj. rewrite (took_frame_agree s own f s' t q j) by done. auto.
  - intros g j Hg Hj. rewrite Hfr in Hg. apply elem_of_difference in Hg as [Hg Hgf].
    destruct (fa_frame_ok _ _ (ok_inv s own Hok) Hg) as [_ Hag].
    rewrite Hout; [by apply (ok_free s own Hok)|].
    intros k Hk Heq. destruct (slot_inj g f j k Hag Haf Hj Hk Heq). set_solver.
Qed.

Lemma took_frame_walk s own f s' ix t q :
  vm_ok s own -> took_frame s f s' -> own !! t = Some q -> path_ok q ix ->
  page_of <$> walk (mem s') t ix = page_of <$> walk (mem s) t ix.
Proof.
  intros Hok Htook. revert ix t q.
  apply (walk_agree s own (mem s') (pt_ptr (cr3 s)) [] 511 Hok (ok_root s own Hok)).
  - unfold idx. lia.
  - intros t q j Ht Hj _. by eapply took_frame_agree.
  - intros ix (_ & _ & Hself). by destruct Hself.
Qed.

(** The translations of a new root whose entries are those of the current
    root where [keep] holds, and empty elsewhere. *)
Lemma new_root_translate s own f s' (keep : Z -> bool) va :
  vm_ok s own -> took_frame s f s' ->
  (forall i, idx i -> i <> 511 ->
     mem s' !! slot f i = if keep i then mem s !! slot (pt_ptr (cr3 s)) i else Some 0) ->
  PML4_INDEX va <> 511 ->
  translate (mem s') f va =
    if keep (PML4_INDEX va) then translate (mem s) (cr3 s) va else None.
Proof.
  intros Hok Htook Hents Ha. pose proof (index_idx va 39 : idx (PML4_INDEX va)) as Hi.
  assert (pt_ptr f = f) as Hf.
  { destruct Htook as (_ & _ & _ & [Hb Hal] & _). unfold PMM_MAX_ADDR in Hb.
    apply pt_ptr_aligned; [lia|done]. }
  assert (Hself : ~ self_map [] (PML4_INDEX va)) by (by intros [_ ?]).
  pose proof (ok_root s own Hok) as Hroot.
  destruct (ok_entry s own _ [] _ Hok Hroot Hi) as (e & He & Her & Hent).
  unfold translate. rewrite Hf. unfold vindex.
  assert (Hpath : path_ok [PML4_INDEX va] [PDPT_INDEX va; PD_INDEX va; PT_INDEX va]).
  { split_and!; [done| |by intros []]. repeat constructor; apply index_idx. }
  revert Hpath. generalize [PDPT_INDEX va; PD_INDEX va; PT_INDEX va]. intros ix Hpath.
  assert (ix <> []) by (destruct Hpath as (Hl & _); by destruct ix).
  cbn [walk]. rewrite (Hents _ Hi Ha).
  destruct (keep (PML4_INDEX va)); [|done]. rewrite He.
  destruct (present e) eqn:Hp; cbn [negb]; [|done].
  specialize (Hent ltac:(cbn; lia) eq_refl Hself). destruct (large e); [done|].
  cbn [andb]. rewrite !bool_decide_false by done. cbn [orb].
  by apply (took_frame_walk s own f s' _ _ [PML4_INDEX va] Hok Htook Hent).
Qed.

(** Reading one's own entries back after the writes of a clone. *)
Definition shared (i : Z) : bool := (i =? 0) || (256 <=? i).

Lemma new_frame_some s own :
  vm_ok s own -> fa_frames (alloc s) <> ∅ ->
  exists f s1, new_frame s = (f, s1) /\ f <> 0 /\ took_frame s f s1 /\ mem s1 = mem s.
Proof.
  intros Hok Hne. unfold new_frame. destruct (fa_alloc (alloc s)) as [f a] eqn:Ha.
  destruct (decide (f = 0)) as [->|Hf0].
  { by destruct (fa_alloc_none _ _ (ok_inv s own Hok) Ha). }
  destruct (fa_alloc_some _ _ _ (ok_inv s own Hok) Ha Hf0) as (Hinv & Hin & Hfr).
  pose proof (fa_frame_ok _ _ (ok_inv s own Hok) Hin) as Hfok.
  eexists f, _. split_and!; [done..| |done]. unfold took_frame. by split_and!.
Qed.

(** The words of a root table being built in frame [f]. *)
Definition building (s : vm A) (f : Z) (g : Z -> option Z) (m : pmem) : Prop :=
  (forall i, idx i -> m !! slot f i = g i) /\
  (forall k, (forall j, idx j -> k <> slot f j) -> m !! k = mem s !! k).

Lemma building_copy s own f g m ix :
  vm_ok s own -> f ∈ fa_frames (alloc s) -> building s f g m ->
  (forall i, idx i -> is_Some (g i)) -> Forall idx ix ->
  exists m', copy (pt_ptr (cr3 s)) f ix m = Ret m' /\
    building s f (fun i => if decide (i ∈ ix) then mem s !! slot (pt_ptr (cr3 s)) i else g i) m'.
Proof.
  intros Hok Hf [Hin Hout] Hg Hix.
  destruct (fa_frame_ok _ _ (ok_inv s own Hok) Hf) as [_ Haf].
  pose proof (ok_root s own Hok) as Hroot.
  destruct (ok_table s own Hok _ _ Hroot) as (Har & Hnf & _ & Hents).
  assert (Hrf : pt_ptr (cr3 s) <> f) by (by intros <-).
  assert (Hroot_out : forall i, idx i -> m !! slot (pt_ptr (cr3 s)) i =
                        mem s !! slot (pt_ptr (cr3 s)) i).
  { intros i Hi. apply Hout. intros k Hk Heq.
    by destruct (slot_inj _ _ _ _ Har Haf Hi Hk Heq). }
  destruct (copy_spec (pt_ptr (cr3 s)) f ix m Har Haf Hrf Hix) as (m' & -> & Hin' & Hout').
  { intros i Hi. rewrite Hroot_out by done. destruct (Hents i Hi) as (e & -> & _). eauto. }
  { intros i Hi. rewrite Hin; auto. }
  rewrite Forall_forall in Hix. exists m'. split; [done|]. split.
  - intros i Hi. destruct (decide (i ∈ ix)) as [Hx|Hx].
    + rewrite Hin', Hroot_out by auto. done.
    + rewrite Hout', Hin; [done|done|]. intros k Hk Heq. unfold slot in Heq.
      assert (i = k) as -> by lia. done.
  - intros k Hk. rewrite Hout' by auto. auto.
Qed.

Lemma building_wr s f g m i v :
  building s f g m -> idx i -> is_Some (g i) ->
  exists m', wr m (slot f i) v = Ret m' /\
    building s f (fun j => if decide (j = i) then Some v else g j) m'.
Proof.
  intros [Hin Hout] Hi Hg. exists (<[slot f i := v]> m).
  rewrite wr_ok by (by rewrite Hin). split; [done|]. split.
  - intros j Hj. destruct (decide (j = i)) as [->|]; [by rewrite lookup_insert_eq|].
    rewrite lookup_insert_ne by (unfold slot; lia). auto.
  - intros k Hk. rewrite lookup_insert_ne by (intros <-; by eapply Hk). auto.
Qed.

Lemma building_zero s own f :
  vm_ok s own -> f ∈ fa_frames (alloc s) ->
  exists m', zero_page_table f (mem s) = Ret m' /\ building s f (fun _ => Some 0) m'.
Proof.
  intros Hok Hf. destruct (fa_frame_ok _ _ (ok_inv s own Hok) Hf) as [Hb Hal].
  unfold PMM_MAX_ADDR in Hb. unfold zero_page_table. rewrite pt_ptr_aligned by (lia || done).
  destruct (fill_spec f (fun _ => 0) (seqZ 0 512) (mem s)) as (m' & -> & Hin & Hout & _).
  { intros j Hj%elem_of_entries. by apply (ok_free s own Hok). }
  exists m'. split; [done|]. split.
  - intros i Hi. by apply Hin, elem_of_entries.
  - intros k Hk. apply Hout. intros j Hj%elem_of_entries. auto.
Qed.

Lemma building_took s f s1 g m c :
  took_frame s f s1 -> building s f g m -> c = cr3 s ->
  took_frame s f (mkVm m (alloc s1) c).
Proof.
  intros (Hcr & Hinv & Hf & Hok & Hfr & _) [_ Hout] ->. unfold took_frame. by split_and!.
Qed.

Lemma paging_clone_pd_spec s own :
  vm_ok s own -> fa_frames (alloc s) <> ∅ ->
  exists f s', paging_clone_pd s = Ret (f, s') /\ took_frame s f s' /\
    forall i, idx i -> mem s' !! slot f i =
      if decide (i = 511) then Some (Z.lor (Z.lor f PAGE_PRESENT) PAGE_WRITE)
      else if shared i then mem s !! slot (pt_ptr (cr3 s)) i else Some 0.
Proof.
  intros Hok Hne. unfold paging_clone_pd.
  destruct (new_frame_some s own Hok Hne) as (f & s1 & -> & Hf0 & Htook & Hmem).
  pose proof Htook as (Hcr3 & _ & Hf & [Hb Hal] & _). unfold PMM_MAX_ADDR in Hb.
  rewrite (proj2 (Z.eqb_neq f 0)), (pt_ptr_aligned f), Hmem, Hcr3 by (done || lia).
  pose proof (ok_table s own Hok _ _ (ok_root s own Hok)) as (_ & _ & _ & Hents).
  assert (Hsrc : forall i, idx i -> is_Some (mem s !! slot (pt_ptr (cr3 s)) i))
    by (intros i Hi; destruct (Hents i Hi) as (e & -> & _); eauto).
  destruct (building_zero s own f Hok Hf) as (m1 & -> & B1). rewrite bind_ret.
  destruct (building_copy s own f _ m1 (seqZ 256 255) Hok Hf B1) as (m2 & -> & B2);
    [eauto|apply Forall_seqZ; unfold idx; lia|]. rewrite bind_ret.
  destruct (building_copy s own f _ m2 [0] Hok Hf B2) as (m3 & -> & B3);
    [intros i Hi; destruct (decide _); eauto|repeat constructor; unfold idx; lia|].
  rewrite bind_ret.
  destruct (building_wr s f _ m3 511 (Z.lor (Z.lor f PAGE_PRESENT) PAGE_WRITE) B3)
    as (m4 & -> & B4); [unfold idx; lia|repeat destruct (decide _); eauto|].
  1,2: apply Hsrc; unfold idx; lia.
  rewrite bind_ret. eexists f, _. split; [reflexivity|].
  split; [by eapply building_took|]. cbn [mem set_mem]. intros i Hi.
  rewrite (proj1 B4 i Hi). destruct (decide (i = 511)); [done|]. unfold shared.
  destruct (decide (i ∈ [0])) as [H0|H0].
  { apply list_elem_of_singleton in H0 as ->. done. }
  assert (i <> 0) by (intros ->; apply H0; left). rewrite (proj2 (Z.eqb_neq i 0)) by done.
  unfold idx in Hi. destruct (decide (i ∈ seqZ 256 255)) as [Hs|Hs];
    rewrite elem_of_seqZ in Hs; destruct (Z.leb_spec 256 i); done || lia.
Qed.

Lemma paging_vfork_clone_spec s own :
  vm_ok s own -> fa_frames (alloc s) <> ∅ ->
  exists f s', paging_vfork_clone s = Ret (f, s') /\ took_frame s f s' /\
    forall i, idx i -> mem s' !! slot f i =
      if decide (i = 511) then Some (Z.lor (Z.lor f PAGE_PRESENT) PAGE_WRITE)
      else mem s !! slot (pt_ptr (cr3 s)) i.
Proof.
  intros Hok Hne. unfold paging_vfork_clone.
  destruct (new_frame_some s own Hok Hne) as (f & s1 & -> & Hf0 & Htook & Hmem).
  pose proof Htook as (Hcr3 & _ & Hf & [Hb Hal] & _). unfold PMM_MAX_ADDR in Hb.
  rewrite (proj2 (Z.eqb_neq f 0)), (pt_ptr_aligned f), Hmem, Hcr3 by (done || lia).
  assert (B0 : building s f (fun i => mem s !! slot f i) (mem s)) by done.
  destruct (building_copy s own f _ (mem s) (seqZ 0 511) Hok Hf B0) as (m2 & -> & B2);
    [intros; by apply (ok_free s own Hok)|apply Forall_seqZ; unfold idx; lia|].
  rewrite bind_ret.
  destruct (building_wr s f _ m2 511 (Z.lor (Z.lor f PAGE_PRESENT) PAGE_WRITE) B2)
    as (m4 & -> & B4); [unfold idx; lia|rewrite decide_False|].
  { apply (ok_free s own Hok); [done|unfold idx; lia]. }
  { rewrite elem_of_seqZ. lia. }
  rewrite bind_ret. eexists f, _. split; [reflexivity|].
  split; [by eapply building_took|]. cbn [mem set_mem]. intros i Hi.
  rewrite (proj1 B4 i Hi). destruct (decide (i = 511)); [done|].
  rewrite decide_True; [done|]. unfold idx in Hi. rewrite elem_of_seqZ. lia.
Qed.

End Steps.

Lemma paging_alloc_and_map_spec {A} `{!FrameAllocator A} (s : vm A) own va flags :
  vm_ok s own -> PML4_INDEX va <> 511 -> fa_frames (alloc s) <> ∅ ->
  exists phys s' own', paging_alloc_and_map va flags s = Ret (phys, s') /\
    phys <> 0 /\ phys ∈ fa_frames (alloc s) /\ vm_ok s' own' /\ cr3 s' = cr3 s /\
    fa_frames (alloc s') ⊆ fa_frames (alloc s) ∖ {[phys]} /\
    (size (fa_frames (alloc s)) <= size (fa_frames (alloc s')) + 4)%nat /\
    ((4 <= size (fa_frames (alloc s)))%nat ->
       translate (mem s') (cr3 s') va = Some phys) /\
    (forall va', PML4_INDEX va' <> 511 -> vindex va' <> vindex va ->
       translate (mem s') (cr3 s') va' = translate (mem s) (cr3 s) va').
Proof.
  intros Hok Ha Hne. unfold paging_alloc_and_map.
  destruct (new_frame_some s own Hok Hne) as (f & s1 & -> & Hf0 & Htook & Hmem).
  rewrite (proj2 (Z.eqb_neq f 0)) by done.
  pose proof (took_frame_ok s own f s1 Hok Htook) as Hok1.
  destruct Htook as (Hcr3 & _ & Hf & [Hb Hal] & Hfr & _).
  assert (Hsz : size (fa_frames (alloc s)) = S (size (fa_frames (alloc s1)))).
  { rewrite Hfr, size_difference, size_singleton by set_solver.
    assert (size (fa_frames (alloc s)) <> 0)%nat; [|lia]. intros H0%size_empty_iff. set_solver. }
  destruct (paging_map_page_spec s1 own va f flags Hok1 Ha)
    as (s' & own' & -> & Hok' & _ & Hcr3' & Hfr' & Hsz' & Hmap).
  rewrite bind_ret. eexists f, s', own'. rewrite Hcr3' in *. rewrite Hcr3, Hmem in *.
  split_and!; [done..|set_solver|lia| |].
  - intros Hfour. destruct Hmap as [[Hw _]|(_ & Hfew & _)]; [|lia].
    unfold translate. rewrite Hw. cbn [fmap option_fmap option_map page_of].
    destruct (leaf_entry_spec f flags) as (_ & _ & ->).
    unfold PMM_MAX_ADDR in Hb. rewrite pt_ptr_aligned by (lia || done). done.
  - destruct Hmap as [[_ Hoth]|(_ & _ & Hsame)]; auto.
Qed.

(** C40: [paging_alloc_and_map] does not notice that its page was not mapped:
    with one free frame and no table for the top-level entry of [va] (which is
    not that of the self-map), it returns the address of that frame as if the
    page were mapped, [va] is still without translation, and no frame is free
    any more. *)
Theorem alloc_and_map_unmapped {A} `{!FrameAllocator A} (s : vm A) own va flags e :
  vm_ok s own -> PML4_INDEX va <> 511 -> size (fa_frames (alloc s)) = 1%nat ->
  mem s !! slot (pt_ptr (cr3 s)) (PML4_INDEX va) = Some e -> present e = false ->
  exists phys s', paging_alloc_and_map va flags s = Ret (phys, s') /\ phys <> 0 /\ fa_frames (alloc s) = {[phys]} /\
    translate (mem s') (cr3 s') va = None /\ fa_frames (alloc s') = ∅.
Proof.
  intros Hok Ha Hsz He Hp. unfold paging_alloc_and_map.
  destruct (new_frame_some s own Hok) as (f & s1 & -> & Hf0 & Htook & Hmem).
  { intros H0. by rewrite H0, size_empty in Hsz. }
  rewrite (proj2 (Z.eqb_neq f 0)) by done.
  pose proof (took_frame_ok s own f s1 Hok Htook) as Hok1.
  destruct Htook as (Hcr3 & _ & Hf & _ & Hfr & _).
  assert (Hemp : fa_frames (alloc s1) = ∅).
  { rewrite Hfr. apply leibniz_equiv, size_empty_inv. rewrite size_difference, size_singleton by set_solver. lia. }
  assert (Hmap : paging_map_page va f flags s1 = Ret s1).
  { unfold paging_map_page, table_path. rewrite pt_ptr_mask_flags by reflexivity.
    unfold need_table, rd. rewrite Hmem, Hcr3, He. cbn [of_option]. rewrite bind_ret, Hp.
    destruct (new_frame s1) as [t s2] eqn:Hnew. destruct (Z.eqb_spec t 0) as [->|Ht].
    - by destruct (new_frame_none s1 own s2 Hok1 Hnew) as [-> _].
    - unfold new_frame in Hnew. destruct (fa_alloc (alloc s1)) as [t' a] eqn:Ha'.
      injection Hnew as -> <-.
      destruct (fa_alloc_some _ _ _ (ok_inv s1 own Hok1) Ha' Ht) as (_ & Hin & _). set_solver. }
  rewrite Hmap, bind_ret. exists f, s1. split_and!; [done..| | |done].
  { apply size_1_elem_of in Hsz as [x Hx%leibniz_equiv]. rewrite Hx in Hf |- *. set_solver. }
  unfold translate, vindex. cbn [walk]. by rewrite Hmem, Hcr3, He, Hp.
Qed.


(** C2: Mapping a page.  In a machine state whose table tree is well formed, and
    for an address outside the self-map, [paging_map_page] returns and keeps the
    tree well formed; the frames it has taken, at most three, are exactly the
    tables that the tree has more than before.  Either the page of [va] is now
    mapped to the frame of [pa] by an entry with exactly the requested flags, or
    the frames have run out, fewer than three were free, and [va] translates as
    before; the translation of every other page outside the self-map is
    unchanged, also where a 2 MiB leaf had to be split. *)
Theorem paging_map_page_correct {A} `{!FrameAllocator A} (s : vm A) own va pa flags :
  vm_ok s own -> PML4_INDEX va <> 511 ->
  exists s' own', paging_map_page va pa flags s = Ret s' /\ vm_ok s' own' /\
    cr3 s' = cr3 s /\ own ⊆ own' /\ fa_frames (alloc s) = fa_frames (alloc s') ∪ (dom own' ∖ dom own) /\
    (size (fa_frames (alloc s)) <= size (fa_frames (alloc s')) + 3)%nat /\
    (walk (mem s') (pt_ptr (cr3 s')) (vindex va) = Some (leaf_entry pa flags, []) /\
       translate (mem s') (cr3 s') va = Some (pt_ptr pa) \/
     fa_frames (alloc s') = ∅ /\ (size (fa_frames (alloc s)) < 3)%nat /\
       translate (mem s') (cr3 s') va = translate (mem s) (cr3 s) va) /\
    (forall va', PML4_INDEX va' <> 511 -> vindex va' <> vindex va ->
       translate (mem s') (cr3 s') va' = translate (mem s) (cr3 s) va').
Proof.
  intros Hok Ha.
  destruct (paging_map_page_spec s own va pa flags Hok Ha)
    as (s' & own' & -> & Hok' & [Hsub Hfr] & Hcr3 & _ & Hsz & [[Hw Hoth]|(He & Hfew & Hsame)]).
  - assert (Htr : translate (mem s') (cr3 s') va = Some (pt_ptr pa)).
    { unfold translate. rewrite Hw. cbn [fmap option_fmap option_map page_of].
      by destruct (leaf_entry_spec pa flags) as (_ & _ & ->). }
    exists s', own'. split_and!; auto.
  - exists s', own'. split_and!; auto 6.
Qed.

(** C3: Cloning an address space.  With a free frame, [paging_clone_pd]
    returns a new root that translates the low identity tree and the kernel
    half like the current space and nothing else, [paging_vfork_clone] one
    that translates everything like the current space; both contain their own
    self-map, and neither changes a translation of the current space. *)
Theorem paging_clone_correct {A} `{!FrameAllocator A} (s : vm A) own :
  vm_ok s own -> fa_frames (alloc s) <> ∅ ->
  (exists new s', paging_clone_pd s = Ret (new, s') /\ vm_ok s' own /\ cr3 s' = cr3 s /\
     mem s' !! slot new 511 = Some (Z.lor (Z.lor new PAGE_PRESENT) PAGE_WRITE) /\
     forall va, PML4_INDEX va <> 511 ->
       translate (mem s') (cr3 s') va = translate (mem s) (cr3 s) va /\
       translate (mem s') new va =
         if shared (PML4_INDEX va) then translate (mem s) (cr3 s) va else None) /\
  (exists new s', paging_vfork_clone s = Ret (new, s') /\ vm_ok s' own /\ cr3 s' = cr3 s /\
     mem s' !! slot new 511 = Some (Z.lor (Z.lor new PAGE_PRESENT) PAGE_WRITE) /\
     forall va, PML4_INDEX va <> 511 ->
       translate (mem s') (cr3 s') va = translate (mem s) (cr3 s) va /\
       translate (mem s') new va = translate (mem s) (cr3 s) va).
Proof.
  intros Hok Hne.
  assert (Hold : forall f s' va, took_frame s f s' -> PML4_INDEX va <> 511 ->
            translate (mem s') (cr3 s') va = translate (mem s) (cr3 s) va).
  { intros f s' va Htook Ha. unfold translate. pose proof Htook as (-> & _).
    eapply took_frame_walk; [done..|apply (ok_root s own Hok)|].
    split_and!; [done|apply vindex_idx|by intros [_ ?]]. }
  split.
  - destruct (paging_clone_pd_spec s own Hok Hne) as (f & s' & -> & Htook & Hents).
    exists f, s'. split_and!; [done|by eapply took_frame_ok|apply Htook| |].
    + rewrite Hents by (unfold idx; lia). done.
    + intros va Ha. split; [by eapply Hold|].
      apply (new_root_translate s own f s' shared va Hok Htook); [|done].
      intros i Hi Hi'. rewrite Hents, decide_False by done. done.
  - destruct (paging_vfork_clone_spec s own Hok Hne) as (f & s' & -> & Htook & Hents).
    exists f, s'. split_and!; [done|by eapply took_frame_ok|apply Htook| |].
    + rewrite Hents by (unfold idx; lia). done.
    + intros va Ha. split; [by eapply Hold|].
      apply (new_root_translate s own f s' (fun _ => true) va Hok Htook); [|done].
      intros i Hi Hi'. rewrite Hents, decide_False by done. done.
Qed.

(** ** A concrete machine: 15 pages of memory with a root table at 0x1000,
    its self-map, and free frames above it *)
Module Demo.

Definition word (k : Z) : Z := if k =? 511 then 0x1003 else 0.
Definition demo_mem : pmem :=
  list_to_map ((fun k => (0x1000 + 8 * k, word k)) <$> seqZ 0 7680).
Definition demo (frames : list Z) : vm Pmm.pmm := mkVm demo_mem (Pmm.mkPmm frames 0) 0x1000.

Definition frames_ok (frames : list Z) : Prop :=
  NoDup frames /\ Forall (fun f => f mod 4096 = 0 /\ 0x2000 <= f <= 0xF000) frames.

Lemma demo_word k : 0 <= k < 7680 -> demo_mem !! (0x1000 + 8 * k) = Some (word k).
Proof.
  intros Hk. apply elem_of_list_to_map_1.
  - rewrite <- list_fmap_compose. apply NoDup_fmap_2; [intros ??; cbn; lia|apply NoDup_seqZ].
  - apply list_elem_of_fmap. exists k. split; [done|]. apply elem_of_seqZ. lia.
Qed.

Lemma demo_ok frames :
  frames_ok frames -> (length frames <= 14)%nat -> vm_ok (demo frames) {[0x1000 := []]}.
Proof.
  intros [Hnd Hfr] Hlen. rewrite Forall_forall in Hfr. constructor.
  - split_and!; [done| |].
    + apply Forall_forall. intros f Hf. destruct (Hfr f Hf).
      split; [unfold PMM_MAX_ADDR; lia|done].
    + unfold Pmm.top, PMM_STACK_SIZE. cbn [alloc demo Pmm.stack]. lia.
  - done.
  - intros t p Ht. apply lookup_singleton_Some in Ht as [<- <-].
    split_and!; [done| |cbn; lia|].
    + change (0x1000 ∉ (list_to_set frames : gset Z)). rewrite elem_of_list_to_set.
      intros Hf. destruct (Hfr _ Hf). lia.
    + intros i Hi. unfold idx in Hi. exists (word i). split; [apply demo_word; lia|].
      unfold word. destruct (Z.eqb_spec i 511) as [->|]; [|apply zero_entry_ok].
      split; [done|]. intros _ _ Hs. by destruct Hs.
  - intros f i Hf Hi. unfold idx in Hi.
    change (f ∈ (list_to_set frames : gset Z)) in Hf. rewrite elem_of_list_to_set in Hf.
    destruct (Hfr f Hf). exists (word ((f - 0x1000) / 8 + i)). unfold slot.
    replace (f + 8 * i) with (0x1000 + 8 * ((f - 0x1000) / 8 + i)) by ilia.
    apply demo_word. ilia.
Qed.

Lemma demo3_ok : vm_ok (demo [0x2000; 0x3000; 0x4000]) {[0x1000 := []]}.
Proof.
  apply demo_ok; [|cbn; lia].
  split; [by apply (bool_decide_unpack _)|repeat constructor; done].
Qed.

Lemma demo1_ok : vm_ok (demo [0x2000]) {[0x1000 := []]}.
Proof.
  apply demo_ok; [|cbn; lia].
  split; [by apply (bool_decide_unpack _)|repeat constructor; done].
Qed.

End Demo.

Lemma paging_map_page_correct_witness :
  exists s' own', paging_map_page 0x400000 0xABC123 7 (Demo.demo [0x2000; 0x3000; 0x4000])
      = Ret s' /\ vm_ok s' own' /\ cr3 s' = 0x1000 /\ {[0x1000 := []]} ⊆ own' /\
    fa_frames (alloc (Demo.demo [0x2000; 0x3000; 0x4000])) = fa_frames (alloc s') ∪ (dom own' ∖ dom ({[0x1000 := []]} : gmap Z (list Z))) /\
    (3 <= size (fa_frames (alloc s')) + 3)%nat /\
    (walk (mem s') (pt_ptr (cr3 s')) [0; 0; 2; 0] = Some (0xABC007, []) /\
       translate (mem s') (cr3 s') 0x400000 = Some 0xABC000 \/
     fa_frames (alloc s') = ∅ /\ (3 < 3)%nat /\
       translate (mem s') (cr3 s') 0x400000 = translate Demo.demo_mem 0x1000 0x400000) /\
    (forall va', PML4_INDEX va' <> 511 -> vindex va' <> [0; 0; 2; 0] ->
       translate (mem s') (cr3 s') va' = translate Demo.demo_mem 0x1000 va').
Proof.
  exact (paging_map_page_correct _ _ 0x400000 0xABC123 7 Demo.demo3_ok ltac:(done)).
Defined.

Lemma paging_clone_correct_witness :
  exists new s', paging_vfork_clone (Demo.demo [0x2000]) = Ret (new, s') /\
    vm_ok s' {[0x1000 := []]} /\ cr3 s' = 0x1000 /\
    mem s' !! slot new 511 = Some (Z.lor (Z.lor new PAGE_PRESENT) PAGE_WRITE) /\
    forall va, PML4_INDEX va <> 511 ->
      translate (mem s') (cr3 s') va = translate Demo.demo_mem 0x1000 va /\
      translate (mem s') new va = translate Demo.demo_mem 0x1000 va.
Proof.
  exact (proj2 (paging_clone_correct _ _ Demo.demo1_ok ltac:(by apply (bool_decide_unpack _)))).
Defined.

Lemma alloc_and_map_unmapped_witness :
  exists phys s', paging_alloc_and_map 0x400000 7 (Demo.demo [0x2000]) = Ret (phys, s') /\
    phys <> 0 /\ fa_frames (alloc (Demo.demo [0x2000])) = {[phys]} /\ translate (mem s') (cr3 s') 0x400000 = None /\ fa_frames (alloc s') = ∅.
Proof.
  apply (alloc_and_map_unmapped (Demo.demo [0x2000]) {[0x1000 := []]} 0x400000 7 0 Demo.demo1_ok).
  - done.
  - vm_compute. reflexivity.
  - exact (Demo.demo_word 0 ltac:(lia)).
  - reflexivity.
Defined.
