(* ===== verification/Ramfs.v ===== *)
(** * bsd/fs/ramfs/src/compat.cpp: the initial RAM file system

    Files are slices of the cpio archive that the boot loader has placed in
    memory.  Shown: unpacking an archive recovers the files it was made from,
    a lookup finds the first file of a name, and an archive whose size field
    wraps the 32-bit arithmetic keeps the unpacker in its loop for ever. *)

From S2P Require Import Prelude Libc Printf.

Definition RAMFS_MAX_FILES : Z := 32.
Definition RAMFS_NAME_MAX : Z := 64.

(** [name] is the string in the array; [data] points at offset [f_off] of the
    archive. *)
Record ramfs_file := mkFile { f_name : list Z; f_off : Z; f_size : Z }.
Abbreviation ramfs := (list ramfs_file).

(** [while ( *p == '/') p++;] *)
Fixpoint skip_slash (p : list Z) : list Z :=
  match p with
  | c :: p' => if c =? ch "/" then skip_slash p' else p
  | [] => []
  end.

(** [while (p[0] == '.' && p[1] == '/') p += 2;] *)
Fixpoint skip_dots (p : list Z) : list Z :=
  match p with
  | c :: d :: p' => if (c =? ch ".") && (d =? ch "/") then skip_dots p' else p
  | _ => p
  end.

(** [strncpy(dst, s, n)] into an array of [n + 1] bytes whose last byte is then
    cleared: a string shorter than [n] arrives; a longer one overruns the array
    (see [strncpy_overrun]). *)
Definition copy_name (n : Z) (s : list Z) : run (list Z) :=
  if Z.of_nat (length s) <? n then Ret s else Fault.

Definition ramfs_add (fs : ramfs) (name : list Z) (off size : Z) : run ramfs :=
  if RAMFS_MAX_FILES <=? Z.of_nat (length fs) then Ret fs
  else
    name ← copy_name (RAMFS_NAME_MAX - 1) (skip_slash (skip_dots (skip_slash name)));
    Ret (fs ++ [mkFile name off size]).

(** The index of the first file of that name. *)
Fixpoint find_file (fs : ramfs) (name : list Z) : option nat :=
  match fs with
  | f :: fs => if decide (f_name f = name) then Some 0%nat else S <$> find_file fs name
  | [] => None
  end.

Definition ramfs_lookup (fs : ramfs) (path : list Z) : option nat :=
  find_file fs (skip_slash path).

Definition ramfs_list (fs : ramfs) : list (list Z * Z) := (fun f => (f_name f, f_size f)) <$> fs.

(** ** cpio *)

Definition CPIO_NEWC_HDR : Z := 110.

(** [arc[i]]; the archive is [len] bytes long. *)
Definition byte_at (arc : list Z) (i : Z) : run Z :=
  if 0 <=? i then of_option (arc !! Z.to_nat i) else Fault.

(** [n] bytes from [i] on. *)
Fixpoint bytes_at (arc : list Z) (i : Z) (n : nat) : run (list Z) :=
  match n with
  | S n => b ← byte_at arc i; bs ← bytes_at arc (i + 1) n; Ret (b :: bs)
  | O => Ret []
  end.

(** A little-endian load of [n] bytes at [i]. *)
Definition get (bs : list Z) (i : Z) (n : nat) : run Z := v ← bytes_at bs i n; Ret (le_val v).

Definition hex_value (b : Z) : Z :=
  let c := s8 b in
  if (ch "0" <=? c) && (c <=? ch "9") then c - ch "0" else Z.lor c 0x20 - ch "a" + 10.

Definition hex (bs : list Z) : Z := fold_left (fun v b => u32 (v * 16 + hex_value b)) bs 0.

(** The string in an array of bytes that ends with a NUL. *)
Fixpoint cut (bs : list Z) : list Z :=
  match bs with
  | b :: bs => if b =? 0 then [] else b :: cut bs
  | [] => []
  end.

Definition align4 (x : Z) : Z := Z.land (u32 (x + 3)) (u32 (Z.lnot 3)).

(** [name[0] == '.' && (name[1] == 0 || name[1] == '/')] *)
Definition dot_entry (name : list Z) : bool :=
  match name with
  | [c] => c =? ch "."
  | c :: d :: _ => (c =? ch ".") && (d =? ch "/")
  | [] => false
  end.

(** One round of the [while]: [inl] the next offset, [inr] the result. *)
Definition cpio_entry (arc : list Z) (len : Z) (st : Z * ramfs)
    : run ((Z * ramfs) + (Z * ramfs)) :=
  let '(offset, fs) := st in
  if u32 (offset + CPIO_NEWC_HDR) <=? len then
    filesize ← hex <$> bytes_at arc (offset + 54) 8;
    namesize ← hex <$> bytes_at arc (offset + 94) 8;
    if (namesize <? 2) || (RAMFS_NAME_MAX <=? namesize) then Ret (inr (-1, fs))
    else
      name ← cut <$> bytes_at arc (offset + CPIO_NEWC_HDR) (Z.to_nat (namesize - 1));
      if decide (name = str "TRAILER!!!") then Ret (inr (0, fs))
      else
        let data_off := align4 (u32 (offset + CPIO_NEWC_HDR + namesize)) in
        if len <? u32 (data_off + filesize) then Ret (inr (-1, fs))
        else
          fs ← (if dot_entry name then Ret fs else ramfs_add fs name data_off filesize);
          Ret (inl (align4 (u32 (data_off + filesize)), fs))
  else Ret (inr (0, fs)).

Definition cpio_unpack (arc : list Z) (len : Z) : run (Z * ramfs) :=
  loop (cpio_entry arc len) (0, []).

Definition valid_cpio_magic (h : list Z) : bool := bool_decide (take 6 h = str "070701").

(** ** The archive format, as a reference *)

Definition hex8 (v : Z) : list Z :=
  (fun k => digit_text false (v / 16 ^ k mod 16)) <$> [7; 6; 5; 4; 3; 2; 1; 0].

(** Zero bytes up to the next multiple of four after [n] bytes. *)
Definition padding (n : Z) : list Z := replicate (Z.to_nat ((- n) mod 4)) 0.

Definition header (name data : list Z) : list Z :=
  str "070701" ++ replicate 48 (ch "0") ++ hex8 (Z.of_nat (length data)) ++
  replicate 32 (ch "0") ++ hex8 (Z.of_nat (length name) + 1) ++ replicate 8 (ch "0").

Definition entry (name data : list Z) : list Z :=
  header name data ++ name ++ [0] ++ padding (111 + Z.of_nat (length name)) ++
  data ++ padding (Z.of_nat (length data)).

Definition archive (files : list (list Z * list Z)) : list Z :=
  mjoin ((fun '(name, data) => entry name data) <$> files) ++ entry (str "TRAILER!!!") [].

Example cpio_example :
  (fun '(r, fs) => (r, ramfs_list fs)) <$>
    (let a := archive [(str "etc/rc", str "echo hi"); (str ".", []); (str "bin/sh", str "ELF")] in
     cpio_unpack a (Z.of_nat (length a))) =
  Ret (0, [(str "etc/rc", 7); (str "bin/sh", 3)]).
Proof. vm_compute. reflexivity. Qed.

(** ** Reading the fields of an entry *)

Lemma hex_value_digit d : 0 <= d < 16 -> hex_value (digit_text false d) = d.
Proof.
  intros Hd.
  assert (H : forall k, (k < 16)%nat ->
    hex_value (digit_text false (Z.of_nat k)) = Z.of_nat k).
  { intros k Hk. do 16 (destruct k as [|k]; [vm_compute; reflexivity|]). lia. }
  specialize (H (Z.to_nat d)). rewrite Z2Nat.id in H by lia. apply H. lia.
Qed.

Lemma hex_step v k k' : 0 <= v < 2 ^ 32 -> 0 <= k -> k' = k + 1 ->
  u32 (v / 16 ^ k' * 16 + v / 16 ^ k mod 16) = v / 16 ^ k.
Proof.
  intros Hv Hk ->. assert (Hp : 0 < 16 ^ k) by (apply Z.pow_pos_nonneg; lia).
  rewrite Z.pow_add_r, Z.pow_1_r, <- Z.div_div by lia.
  pose proof (Z.div_mod (v / 16 ^ k) 16).
  assert (0 <= v / 16 ^ k <= v)
    by (split; [apply Z.div_pos; lia|apply Z.div_le_upper_bound; nia]).
  rewrite u32_small; lia.
Qed.

Lemma hex_hex8 v : 0 <= v < 2 ^ 32 -> hex (hex8 v) = v.
Proof.
  intros Hv. unfold hex, hex8. cbn [fmap list_fmap fold_left].
  rewrite !hex_value_digit by (apply Z.mod_pos_bound; lia).
  replace (0 * 16) with (v / 16 ^ 8 * 16) by (rewrite Z.div_small by lia; lia).
  rewrite (hex_step v 7 8), (hex_step v 6 7), (hex_step v 5 6), (hex_step v 4 5),
    (hex_step v 3 4), (hex_step v 2 3), (hex_step v 1 2), (hex_step v 0 1) by lia.
  by rewrite Z.pow_0_r, Z.div_1_r.
Qed.

Lemma length_hex8 v : length (hex8 v) = 8%nat.
Proof. done. Qed.

Lemma bytes_at_app pre bs post :
  bytes_at (pre ++ bs ++ post) (Z.of_nat (length pre)) (length bs) = Ret bs.
Proof.
  revert pre. induction bs as [|b bs IH]; intros pre; [done|]. cbn [bytes_at length app].
  unfold byte_at. rewrite (proj2 (Z.leb_le 0 _)), Nat2Z.id by lia.
  rewrite lookup_app_r, Nat.sub_diag by lia. cbn [lookup list_lookup of_option].
  rewrite bind_ret. specialize (IH (pre ++ [b])).
  rewrite length_app in IH. cbn in IH. rewrite <- app_assoc in IH. cbn in IH.
  replace (Z.of_nat (length pre) + 1) with (Z.of_nat (length pre + 1)) by lia.
  by rewrite IH.
Qed.

(** The same at an offset given as an integer. *)
Lemma bytes_at_eq arc i n pre bs post :
  arc = pre ++ bs ++ post -> i = Z.of_nat (length pre) -> n = length bs ->
  bytes_at arc i n = Ret bs.
Proof. intros -> -> ->. apply bytes_at_app. Qed.

Lemma bytes_at_ok arc i n :
  0 <= i -> i + Z.of_nat n <= Z.of_nat (length arc) ->
  bytes_at arc i n = Ret (take n (drop (Z.to_nat i) arc)).
Proof.
  intros Hi Hn. eapply (bytes_at_eq _ _ _ (take (Z.to_nat i) arc) _
    (drop n (drop (Z.to_nat i) arc))).
  - by rewrite take_drop, take_drop.
  - rewrite length_take. lia.
  - rewrite length_take, length_drop. lia.
Qed.

Lemma get_ok bs i n :
  0 <= i -> i + Z.of_nat n <= Z.of_nat (length bs) ->
  get bs i n = Ret (le_val (take n (drop (Z.to_nat i) bs))).
Proof. intros. unfold get. by rewrite bytes_at_ok by done. Qed.

(** The same where the value is used. *)
Lemma get_bind {B} bs i n (k : Z -> run B) :
  0 <= i -> i + Z.of_nat n <= Z.of_nat (length bs) ->
  (x ← get bs i n; k x) = k (le_val (take n (drop (Z.to_nat i) bs))).
Proof. intros. by rewrite get_ok by done. Qed.

Lemma bytes_bind {B} bs i n (k : list Z -> run B) :
  0 <= i -> i + Z.of_nat n <= Z.of_nat (length bs) ->
  (x ← bytes_at bs i n; k x) = k (take n (drop (Z.to_nat i) bs)).
Proof. intros. by rewrite bytes_at_ok by done. Qed.

Lemma byte_at_ok bs i :
  0 <= i < Z.of_nat (length bs) -> Forall byte_ok bs -> exists b, byte_at bs i = Ret b /\ byte_ok b.
Proof.
  intros Hi Hb. unfold byte_at. rewrite (proj2 (Z.leb_le 0 i)) by lia.
  destruct (lookup_lt_is_Some_2 bs (Z.to_nat i)) as [b Eb]; [lia|]. rewrite Eb.
  exists b. split; [done|]. eapply Forall_lookup_1; eauto.
Qed.

Lemma byte_at_mid pre b post i :
  i = Z.of_nat (length pre) -> byte_at (pre ++ b :: post) i = Ret b.
Proof.
  intros ->. unfold byte_at. rewrite (proj2 (Z.leb_le 0 _)), Nat2Z.id by lia.
  by rewrite lookup_app_r, Nat.sub_diag by lia.
Qed.

Lemma byte_bind_mid {B} pre b post i (k : Z -> run B) :
  i = Z.of_nat (length pre) -> (x ← byte_at (pre ++ b :: post) i; k x) = k b.
Proof. intros Hi. by rewrite byte_at_mid. Qed.

Lemma get_mid pre bs post i n :
  i = Z.of_nat (length pre) -> n = length bs -> get (pre ++ bs ++ post) i n = Ret (le_val bs).
Proof. intros -> ->. unfold get. by rewrite bytes_at_app. Qed.

Lemma cut_chars s : Forall char_ok s -> cut s = s.
Proof.
  induction 1 as [|c s Hc _ IH]; cbn; [done|].
  rewrite (proj2 (Z.eqb_neq c 0)) by (unfold char_ok in Hc; lia). by rewrite IH.
Qed.

Lemma align4_spec x : 0 <= x < 2 ^ 32 - 3 -> align4 x = x + (- x) mod 4.
Proof.
  intros Hx. unfold align4. rewrite u32_small by lia.
  assert (Z.land (x + 3) (u32 (Z.lnot 3)) = (x + 3) / 2 ^ 2 * 2 ^ 2) as ->.
  { unfold u32. rewrite <- Z.land_ones by lia.
    rewrite Z.land_comm, <- Z.land_assoc, (Z.land_comm (Z.ones 32)), Z.land_ones, Z.mod_small by lia.
    change 3 with (Z.ones 2) at 1. rewrite Z.land_comm, <- Z.ldiff_land, Z.ldiff_ones_r by lia.
    by rewrite Z.shiftl_mul_pow2, Z.shiftr_div_pow2 by lia. }
  change (2 ^ 2) with 4. ilia.
Qed.

Lemma length_padding n : Z.of_nat (length (padding n)) = (- n) mod 4.
Proof.
  unfold padding. rewrite length_replicate, Z2Nat.id; [done|]. apply Z.mod_pos_bound. lia.
Qed.

Lemma length_header name data : length (header name data) = 110%nat.
Proof.
  unfold header. rewrite !length_app, !length_replicate, !length_hex8. done.
Qed.

Lemma length_entry name data :
  Z.of_nat (length (entry name data)) =
  111 + Z.of_nat (length name) + (- (111 + Z.of_nat (length name))) mod 4 +
  (Z.of_nat (length data) + (- Z.of_nat (length data)) mod 4).
Proof.
  unfold entry. rewrite !length_app, !Nat2Z.inj_add, !length_padding, length_header.
  cbn [length]. lia.
Qed.

(** ** Unpacking *)

Definition plain_name (name : list Z) : Prop :=
  Forall char_ok name /\ 1 <= Z.of_nat (length name) <= 62 /\
  skip_slash (skip_dots (skip_slash name)) = name /\
  name <> str "TRAILER!!!" /\ dot_entry name = false.

(** The file that an entry becomes. *)
Definition represents (arc : list Z) (f : ramfs_file) (file : list Z * list Z) : Prop :=
  f_name f = fst file /\ f_size f = Z.of_nat (length (snd file)) /\
  take (Z.to_nat (f_size f)) (drop (Z.to_nat (f_off f)) arc) = snd file.

Section Entry.
Context (pre name data post : list Z).
Let arc := pre ++ entry name data ++ post.
Context (Hal : Z.of_nat (length pre) mod 4 = 0).
Context (Hlen : Z.of_nat (length arc) < 2 ^ 32 - 8).

Lemma entry_fields :
  bytes_at arc (Z.of_nat (length pre) + 54) 8 = Ret (hex8 (Z.of_nat (length data))) /\
  bytes_at arc (Z.of_nat (length pre) + 94) 8 = Ret (hex8 (Z.of_nat (length name) + 1)) /\
  bytes_at arc (Z.of_nat (length pre) + 110) (length name) = Ret name.
Proof using Type.
  unfold arc, entry, header. split_and!.
  - eapply (bytes_at_eq _ _ _ (pre ++ str "070701" ++ replicate 48 (ch "0"))).
    + by rewrite <- !app_assoc.
    + rewrite !length_app, length_replicate. cbn [length str fmap list_fmap]. cbn. lia.
    + by rewrite length_hex8.
  - eapply (bytes_at_eq _ _ _ (pre ++ str "070701" ++ replicate 48 (ch "0") ++
      hex8 (Z.of_nat (length data)) ++ replicate 32 (ch "0"))).
    + by rewrite <- !app_assoc.
    + rewrite !length_app, !length_replicate, length_hex8. cbn. lia.
    + by rewrite length_hex8.
  - eapply (bytes_at_eq _ _ _ (pre ++ header name data)).
    + unfold header. by rewrite <- !app_assoc.
    + rewrite length_app, length_header. lia.
    + done.
Qed.

Let data_off := Z.of_nat (length pre) + 111 + Z.of_nat (length name) +
  (- (111 + Z.of_nat (length name))) mod 4.

Lemma entry_data :
  take (length data) (drop (Z.to_nat data_off) arc) = data /\
  data_off + Z.of_nat (length data) + (- Z.of_nat (length data)) mod 4 =
    Z.of_nat (length pre) + Z.of_nat (length (entry name data)).
Proof using Hlen.
  split; [|rewrite length_entry; unfold data_off; lia].
  assert (arc = (pre ++ header name data ++ name ++ [0] ++
      padding (111 + Z.of_nat (length name))) ++ data ++
      padding (Z.of_nat (length data)) ++ post) as ->.
  { unfold arc, entry. by rewrite <- !app_assoc. }
  rewrite drop_app_length', take_app_length; [done|].
  rewrite !length_app, length_header. cbn [length].
  pose proof (length_padding (111 + Z.of_nat (length name))). unfold data_off. lia.
Qed.

(** The offsets that the code computes. *)
Lemma entry_offsets :
  0 <= Z.of_nat (length name) <= 62 ->
  u32 (Z.of_nat (length pre) + CPIO_NEWC_HDR) <= Z.of_nat (length arc) /\
  align4 (u32 (Z.of_nat (length pre) + CPIO_NEWC_HDR + (Z.of_nat (length name) + 1))) = data_off /\
  u32 (data_off + Z.of_nat (length data)) <= Z.of_nat (length arc) /\
  align4 (u32 (data_off + Z.of_nat (length data))) =
    Z.of_nat (length (pre ++ entry name data)).
Proof using Hal Hlen.
  intros Hname. destruct entry_data as [_ Hend].
  assert (Hall : Z.of_nat (length pre) + Z.of_nat (length (entry name data)) <=
                 Z.of_nat (length arc)).
  { unfold arc. rewrite !length_app. lia. }
  assert (Hd : Z.of_nat (length pre) + 111 + Z.of_nat (length name) <= data_off).
  { unfold data_off. pose proof (Z.mod_pos_bound (- (111 + Z.of_nat (length name))) 4). lia. }
  assert (Hm : data_off mod 4 = 0) by (unfold data_off; ilia).
  pose proof (Z.mod_pos_bound (- Z.of_nat (length data)) 4 ltac:(lia)).
  unfold CPIO_NEWC_HDR. rewrite length_app, Nat2Z.inj_add, <- Hend.
  rewrite (u32_small (Z.of_nat (length pre) + 110)), (u32_small (data_off + _)) by lia.
  rewrite (u32_small (_ + 110 + _)), !align4_spec by lia. split_and!; [lia| |lia|].
  - unfold data_off. ilia.
  - replace ((- (data_off + Z.of_nat (length data))) mod 4) with ((- Z.of_nat (length data)) mod 4)
      by ilia. lia.
Qed.

Lemma entry_step fs :
  plain_name name -> Z.of_nat (length fs) < RAMFS_MAX_FILES ->
  exists f, cpio_entry arc (Z.of_nat (length arc)) (Z.of_nat (length pre), fs) =
      Ret (inl (Z.of_nat (length (pre ++ entry name data)), fs ++ [f])) /\
    represents arc f (name, data).
Proof using Hal Hlen.
  intros (Hchars & Hn & Hskip & Htrail & Hdot) Hfs.
  destruct entry_offsets as (H1 & H2 & H3 & H4); [lia|].
  destruct entry_fields as (F1 & F2 & F3). destruct entry_data as [Hdata Hend].
  assert (Hdl : Z.of_nat (length data) < 2 ^ 32).
  { pose proof (length_entry name data). assert (length (entry name data) <= length arc)%nat
      by (unfold arc; rewrite !length_app; lia).
    pose proof (Z.mod_pos_bound (- (111 + Z.of_nat (length name))) 4).
    pose proof (Z.mod_pos_bound (- Z.of_nat (length data)) 4). lia. }
  exists (mkFile name data_off (Z.of_nat (length data))). split.
  - unfold cpio_entry. rewrite (proj2 (Z.leb_le _ _) H1), F1, F2.
    cbn [fmap run_fmap]. rewrite !bind_ret, !hex_hex8 by lia.
    rewrite (proj2 (Z.ltb_ge _ 2)), (proj2 (Z.leb_gt RAMFS_NAME_MAX _))
      by (unfold RAMFS_NAME_MAX; lia). cbn [orb].
    replace (Z.to_nat (Z.of_nat (length name) + 1 - 1)) with (length name) by lia.
    change CPIO_NEWC_HDR with 110 in *. rewrite F3. cbn [fmap run_fmap].
    rewrite bind_ret, cut_chars, decide_False by done.
    rewrite H2, (proj2 (Z.ltb_ge _ _) H3), Hdot. unfold ramfs_add.
    rewrite (proj2 (Z.leb_gt _ _) Hfs), Hskip. unfold copy_name.
    rewrite (proj2 (Z.ltb_lt _ _)), !bind_ret by (unfold RAMFS_NAME_MAX; lia).
    by rewrite H4.
  - unfold represents. cbn [f_name f_size f_off fst snd]. by rewrite Nat2Z.id.
Qed.

End Entry.

Lemma trailer_stops pre post fs :
  let arc := pre ++ entry (str "TRAILER!!!") [] ++ post in
  Z.of_nat (length pre) mod 4 = 0 -> Z.of_nat (length arc) < 2 ^ 32 - 8 ->
  cpio_entry arc (Z.of_nat (length arc)) (Z.of_nat (length pre), fs) = Ret (inr (0, fs)).
Proof.
  intros arc Hal Hlen. unfold cpio_entry.
  destruct (entry_fields pre (str "TRAILER!!!") [] post) as (F1 & F2 & F3). fold arc in F1, F2, F3.
  destruct (entry_offsets pre (str "TRAILER!!!") [] post) as (H1 & _); [done..|cbn; lia|].
  fold arc in H1. rewrite (proj2 (Z.leb_le _ _) H1), F1, F2.
  cbn [fmap run_fmap]. rewrite !bind_ret, !hex_hex8 by (cbn; lia).
  change (Z.of_nat (length (str "TRAILER!!!")) + 1) with 11. cbn [orb Z.ltb Z.leb].
  change ((11 <? 2) || (RAMFS_NAME_MAX <=? 11)) with false. cbn [orb].
  change CPIO_NEWC_HDR with 110. change (Z.to_nat (11 - 1)) with (length (str "TRAILER!!!")).
  rewrite F3. cbn [fmap run_fmap]. rewrite bind_ret, decide_True by done. done.
Qed.

(** The bytes of the entries of some files. *)
Definition entries (fl : list (list Z * list Z)) : list Z :=
  mjoin ((fun '(name, data) => entry name data) <$> fl).

Lemma entries_aligned fl : Z.of_nat (length (entries fl)) mod 4 = 0.
Proof.
  induction fl as [|[n d] fl IH]; [done|]. change (entries ((n, d) :: fl)) with (entry n d ++ entries fl).
  rewrite length_app, Nat2Z.inj_add, length_entry. ilia.
Qed.

Lemma entries_app l1 l2 : entries (l1 ++ l2) = entries l1 ++ entries l2.
Proof. unfold entries. by rewrite fmap_app, join_app. Qed.

(** The archive around one of its entries. *)
Lemma archive_split don name data rest :
  archive (don ++ (name, data) :: rest) =
  entries don ++ entry name data ++ entries rest ++ entry (str "TRAILER!!!") [].
Proof.
  unfold archive. fold (entries (don ++ (name, data) :: rest)). rewrite entries_app, <- app_assoc.
  f_equal. change (entries ((name, data) :: rest)) with (entry name data ++ entries rest).
  by rewrite <- app_assoc.
Qed.

(** C33: Unpacking the archive of a list of files (at most 32, with plain names
    of at most 62 characters) returns 0 and exactly these files, in order,
    each with its name, its size and its bytes in place in the archive. *)
Theorem cpio_unpack_archive files :
  Z.of_nat (length files) <= RAMFS_MAX_FILES ->
  Forall (fun file => plain_name (fst file)) files ->
  Z.of_nat (length (archive files)) < 2 ^ 32 - 8 ->
  exists fs, cpio_unpack (archive files) (Z.of_nat (length (archive files))) = Ret (0, fs) /\
    Forall2 (represents (archive files)) fs files.
Proof.
  intros Hcount Hnames Hlen. unfold cpio_unpack. set (arc := archive files) in *.
  loop_with (fun '((off, fs) : Z * ramfs) => exists don rest, files = don ++ rest /\
      off = Z.of_nat (length (entries don)) /\ Forall2 (represents arc) fs don)
    (fun '((r, fs) : Z * ramfs) => r = 0 /\ Forall2 (represents arc) fs files)
    (fun '((off, _) : Z * ramfs) => Z.of_nat (length arc) - off) as ([r fs] & -> & -> & Hfs);
    [| exists [], files; done | lia | by exists fs].
  intros [off fs] (don & rest & Hfiles & -> & Hrep).
  destruct rest as [|[name data] rest].
  - right. eexists (0, fs). rewrite app_nil_r in Hfiles. subst don. split; [|done].
    replace arc with (entries files ++ entry (str "TRAILER!!!") [] ++ [])
      by (rewrite app_nil_r; done).
    apply trailer_stops; [apply entries_aligned|]. rewrite app_nil_r. exact Hlen.
  - left. assert (Harc := archive_split don name data rest). rewrite <- Hfiles in Harc. fold arc in Harc.
    assert (Hplain : plain_name name).
    { rewrite Hfiles in Hnames. apply Forall_app in Hnames as [_ Hn]. by apply Forall_inv in Hn. }
    assert (Hlen' := Hlen). rewrite Harc in Hlen'.
    destruct (entry_step (entries don) name data _ (entries_aligned don) Hlen' fs Hplain) as (f & Hstep & Hf).
    { apply Forall2_length in Hrep. rewrite Hrep. rewrite Hfiles, length_app in Hcount.
      cbn in Hcount. lia. }
    rewrite <- Harc in Hstep, Hf. eexists. split; [exact Hstep|].
    rewrite length_app. split.
    + exists (don ++ [(name, data)]), rest. split_and!.
      * by rewrite <- app_assoc.
      * rewrite entries_app, length_app. change (entries [(name, data)]) with (entry name data ++ []).
        by rewrite app_nil_r.
      * apply Forall2_app; [done|]. apply Forall2_cons_2; [done|apply Forall2_nil_2].
    + pose proof (length_entry name data).
      pose proof (Z.mod_pos_bound (- (111 + Z.of_nat (length name))) 4).
      pose proof (Z.mod_pos_bound (- Z.of_nat (length data)) 4).
      rewrite Harc, !length_app. lia.
Qed.

Lemma cpio_unpack_archive_witness :
  exists fs, cpio_unpack (archive [(str "etc/rc", str "echo hi"); (str "bin/sh", str "ELF")])
      (Z.of_nat (length (archive [(str "etc/rc", str "echo hi"); (str "bin/sh", str "ELF")])))
    = Ret (0, fs) /\
    Forall2 (represents (archive [(str "etc/rc", str "echo hi"); (str "bin/sh", str "ELF")])) fs
      [(str "etc/rc", str "echo hi"); (str "bin/sh", str "ELF")].
Proof.
  apply cpio_unpack_archive.
  - cbn. unfold RAMFS_MAX_FILES. lia.
  - repeat constructor; (vm_compute; done) || (cbn; lia) || idtac.
  - vm_compute. reflexivity.
Defined.

(** ** A size that wraps *)

(** An archive of one entry named ["a"] whose size field is [2^32 - 112]: the
    end of its data is computed as 0. *)
Definition wrapping : list Z :=
  str "070701" ++ replicate 48 (ch "0") ++ hex8 (2 ^ 32 - 112) ++
  replicate 32 (ch "0") ++ hex8 2 ++ replicate 8 (ch "0") ++ str "a" ++ [0].

Lemma wrapping_entry fs :
  exists fs', cpio_entry wrapping 112 (0, fs) = Ret (inl (0, fs')).
Proof.
  assert (cpio_entry wrapping 112 (0, fs) =
          (fs ← ramfs_add fs (str "a") 112 (2 ^ 32 - 112); Ret (inl (0, fs)))) as ->
    by (vm_compute; reflexivity).
  unfold ramfs_add. destruct (RAMFS_MAX_FILES <=? Z.of_nat (length fs)); eauto.
Qed.

(** The check of an entry's size against the archive is done in wrapping
    32-bit arithmetic.  On an archive of 112 bytes with a size field of
    [2^32 - 112] the unpacker is back at offset 0 after every round: however
    many rounds it is given, it has not left the loop. *)
Theorem cpio_unpack_diverges p :
  exists fs, rounds p (cpio_entry wrapping 112) (0, []) = Ret (inl (0, fs)).
Proof.
  destruct (rounds_forever (fun st => st.1 = 0) (cpio_entry wrapping 112)) with p (0, @nil ramfs_file)
    as ([off fs] & -> & Hoff).
  - intros [off fs] Hoff. cbn in Hoff. subst off.
    destruct (wrapping_entry fs) as [fs' ->]. eauto.
  - done.
  - cbn in Hoff. subst off. eauto.
Qed.

(** ** Lookup *)

Lemma find_file_spec fs name :
  match find_file fs name with
  | Some i => exists f, fs !! i = Some f /\ f_name f = name /\
      forall j g, (j < i)%nat -> fs !! j = Some g -> f_name g <> name
  | None => forall f, f ∈ fs -> f_name f <> name
  end.
Proof.
  induction fs as [|f fs IH]; cbn; [by intros f ?%elem_of_nil|].
  destruct (decide (f_name f = name)) as [Heq|Hne].
  { exists f. split_and!; [done..|]. lia. }
  destruct (find_file fs name) as [i|]; cbn.
  - destruct IH as (g & Hg & Hn & Hbefore). exists g. split_and!; [done..|].
    intros [|j] h Hj Hh; [by simplify_eq/=|]. eapply Hbefore; [|done]. lia.
  - intros g [->|Hg]%elem_of_cons; auto.
Qed.
