(* ===== verification/Elf.v ===== *)
(** * bsd/kern/elf/elf.c: the program loader

    An image is the list of its bytes.  Loading maps the pages of every
    loadable segment in the address space that CR3 selects and copies the
    bytes through the new translations.  Page tables and page contents are
    kept apart: frames handed out for pages are never tables. *)

From S2P Require Import Prelude Libc Printf Pmm Paging.
Import Vm.

Definition ELF_PT_LOAD : Z := 1.
Definition ELF_ET_EXEC : Z := 2.
Definition ELF_EM_X86_64 : Z := 62.
Definition EHDR_SIZE : Z := 64.
Definition PHDR_SIZE : Z := 56.

(** ** Headers *)

(** An unsigned little-endian field of [n] bytes at offset [off]. *)
Definition field (img : list Z) (off : Z) (n : nat) : run Z :=
  if (0 <=? off) && (off + Z.of_nat n <=? Z.of_nat (length img))
  then Ret (le_val (take n (drop (Z.to_nat off) img))) else Fault.

Record elf64_ehdr := mkEhdr
  { e_ident : list Z; e_type : Z; e_machine : Z; e_entry : Z; e_phoff : Z;
    e_ehsize : Z; e_phentsize : Z; e_phnum : Z }.

Record elf64_phdr := mkPhdr
  { p_type : Z; p_offset : Z; p_vaddr : Z; p_filesz : Z; p_memsz : Z }.

Definition read_ehdr (img : list Z) : run elf64_ehdr :=
  ty ← field img 16 2; ma ← field img 18 2; en ← field img 24 8; po ← field img 32 8;
  eh ← field img 52 2; pe ← field img 54 2; pn ← field img 56 2;
  Ret (mkEhdr (take 16 img) ty ma en po eh pe pn).

Definition read_phdr (img : list Z) (off : Z) : run elf64_phdr :=
  ty ← field img off 4; o ← field img (off + 8) 8; v ← field img (off + 16) 8;
  f ← field img (off + 32) 8; m ← field img (off + 40) 8;
  Ret (mkPhdr ty o v f m).

(** [None] is the null pointer. *)
Definition elf_valid (img : option (list Z)) : run bool :=
  match img with
  | None => Ret false
  | Some img =>
      if Z.of_nat (length img) <? EHDR_SIZE then Ret false
      else
        eh ← read_ehdr img;
        Ret (bool_decide (take 4 (e_ident eh) = [0x7f; ch "E"; ch "L"; ch "F"]) &&
             bool_decide (take 2 (drop 4 (e_ident eh)) = [2; 1]) &&
             (e_type eh =? ELF_ET_EXEC) && (e_machine eh =? ELF_EM_X86_64))
  end.

(** ** Loading *)
Section Load.
Context {A : Type} `{!FrameAllocator A}.

(** The machine, and the bytes of its page frames by physical address. *)
Record space := mkSpace { machine : vm A; bytes : gmap Z Z }.

(** A store through the page tables; an unmapped address faults. *)
Definition user_byte (va b : Z) (s : space) : run space :=
  match translate (mem (machine s)) (cr3 (machine s)) va with
  | Some page => Ret (mkSpace (machine s) (<[page + va mod PAGE_SIZE := b]> (bytes s)))
  | None => Fault
  end.

Fixpoint user_bytes (va : Z) (bs : list Z) (s : space) : run space :=
  match bs with
  | b :: bs => s ← user_byte va b s; user_bytes (u64 (va + 1)) bs s
  | [] => Ret s
  end.

(** [for (; v < end; v += PAGE_SIZE) if (!paging_alloc_and_map(...)) return -1;] *)
Definition map_pages (flags v end_ : Z) (s : vm A) : run (bool * vm A) :=
  loop (fun '(v, s) =>
    if v <? end_ then
      '(phys, s) ← paging_alloc_and_map v flags s;
      if phys =? 0 then Ret (inr (false, s)) else Ret (inl (u64 (v + PAGE_SIZE), s))
    else Ret (inr (true, s))) (v, s).

(** The first loop over the program headers, from header [i] on: [false] is
    [return -1]. *)
Fixpoint map_segments (img : list Z) (phoff : Z) (i n : nat) (s : vm A) : run (bool * vm A) :=
  match n with
  | O => Ret (true, s)
  | S n =>
      ph ← read_phdr img (phoff + PHDR_SIZE * Z.of_nat i);
      if negb (p_type ph =? ELF_PT_LOAD) then map_segments img phoff (S i) n s
      else if Z.of_nat (length img) <? u64 (p_offset ph + p_filesz ph) then Ret (false, s)
      else if p_memsz ph <? p_filesz ph then Ret (false, s)
      else
        let v := page_down (p_vaddr ph) in
        let end_ := page_down (u64 (p_vaddr ph + p_memsz ph + PAGE_SIZE - 1)) in
        '(ok, s) ← map_pages (Z.lor PAGE_WRITE PAGE_USER) v end_ s;
        if (ok : bool) then map_segments img phoff (S i) n s else Ret (false, s)
  end.

(** [memcpy(p_vaddr, img + p_offset, fsize)]: the count is an [unsigned int];
    the source must lie in the image. *)
Definition copy_segment (img : list Z) (ph : elf64_phdr) (s : space) : run space :=
  let n := u32 (p_filesz ph) in
  if p_offset ph + n <=? Z.of_nat (length img)
  then user_bytes (p_vaddr ph) (take (Z.to_nat n) (drop (Z.to_nat (p_offset ph)) img)) s
  else Fault.

(** The second loop: copies, zeroes and the bounds [lo] and [hi]. *)
Fixpoint fill_segments (img : list Z) (phoff : Z) (i n : nat) (lo hi : Z) (s : space)
    : run (Z * Z * space) :=
  match n with
  | O => Ret (lo, hi, s)
  | S n =>
      ph ← read_phdr img (phoff + PHDR_SIZE * Z.of_nat i);
      if negb (p_type ph =? ELF_PT_LOAD) then fill_segments img phoff (S i) n lo hi s
      else
        let fsize := p_filesz ph in
        let msize := p_memsz ph in
        s ← (if negb (fsize =? 0) then copy_segment img ph s else Ret s);
        s ← (if fsize <? msize
             then user_bytes (u64 (p_vaddr ph + fsize))
                    (replicate (Z.to_nat (u32 (msize - fsize))) 0) s
             else Ret s);
        fill_segments img phoff (S i) n
          (if p_vaddr ph <? lo then p_vaddr ph else lo)
          (if hi <? u64 (p_vaddr ph + msize) then u64 (p_vaddr ph + msize) else hi) s
  end.

(** The result: [None] is -1, otherwise entry, [lo] and [hi]. *)
Definition elf_load (img : option (list Z)) (s : space) : run (option (Z * Z * Z) * space) :=
  ok ← elf_valid img;
  match img with
  | Some img =>
      if negb ok then Ret (None, s)
      else
        eh ← read_ehdr img;
        if (e_ehsize eh <? EHDR_SIZE) || (e_phentsize eh <? PHDR_SIZE) || (e_phnum eh =? 0)
        then Ret (None, s)
        else if Z.of_nat (length img) <? u64 (e_phoff eh + e_phnum eh * e_phentsize eh)
        then Ret (None, s)
        else
          let n := Z.to_nat (e_phnum eh) in
          '(ok, m) ← map_segments img (e_phoff eh) 0 n (machine s);
          let s := mkSpace m (bytes s) in
          if negb ok then Ret (None, s)
          else
            '(lo, hi, s) ← fill_segments img (e_phoff eh) 0 n (2 ^ 64 - 1) 0 s;
            if lo =? 2 ^ 64 - 1 then Ret (None, s)
            else Ret (Some (e_entry eh, lo, hi), s)
  | None => Ret (None, s)
  end.

(** Loading into another address space: CR3 is switched and restored. *)
Definition elf_load_pd (pd_phys : Z) (img : option (list Z)) (s : space)
    : run (option (Z * Z * Z) * space) :=
  if pd_phys =? 0 then Ret (None, s)
  else
    let old := cr3 (machine s) in
    let s := mkSpace (mkVm (mem (machine s)) (alloc (machine s)) pd_phys) (bytes s) in
    '(r, s) ← elf_load img s;
    Ret (r, mkSpace (mkVm (mem (machine s)) (alloc (machine s)) old) (bytes s)).

End Load.
Arguments space A : clear implicits.

(** ** Pages and addresses *)

(** An address of the lower half. *)
Definition low (va : Z) : Prop := 0 <= va < 2 ^ 47.
Definition page (va : Z) : Z := va / 4096 * 4096.

Lemma index_shift va k : 0 <= k -> Z.land (Z.shiftr va k) 0x1FF = va / 2 ^ k mod 512.
Proof.
  intros Hk. change 0x1FF with (Z.ones 9). rewrite Z.land_ones, Z.shiftr_div_pow2 by lia. done.
Qed.

Lemma low_index va : low va -> PML4_INDEX va <> 511.
Proof.
  unfold low, PML4_INDEX. intros Hva. rewrite index_shift by lia.
  assert (va / 2 ^ 39 < 256) by (apply Z.div_lt_upper_bound; lia).
  assert (0 <= va / 2 ^ 39) by (apply Z.div_pos; lia).
  rewrite Z.mod_small by lia. lia.
Qed.

Lemma vindex_page va va' : low va -> low va' -> vindex va = vindex va' <-> page va = page va'.
Proof.
  assert (Hsum : forall a, low a -> a / 4096 =
    ((a / 2 ^ 39 mod 512 * 512 + a / 2 ^ 30 mod 512) * 512 + a / 2 ^ 21 mod 512) * 512
      + a / 2 ^ 12 mod 512).
  { intros a Ha. unfold low in Ha. pose proof (Z.div_mod (a / 2 ^ 12) 512 ltac:(lia)).
    pose proof (Z.div_mod (a / 2 ^ 21) 512 ltac:(lia)).
    pose proof (Z.div_mod (a / 2 ^ 30) 512 ltac:(lia)).
    rewrite Z.div_div in * by lia. change (2 ^ 12 * 512) with (2 ^ 21) in *.
    change (2 ^ 21 * 512) with (2 ^ 30) in *. change (2 ^ 30 * 512) with (2 ^ 39) in *.
    change 4096 with (2 ^ 12).
    assert (a / 2 ^ 39 < 256) by (apply Z.div_lt_upper_bound; lia).
    assert (0 <= a / 2 ^ 39) by (apply Z.div_pos; lia).
    rewrite (Z.mod_small (a / 2 ^ 39) 512) by lia. lia. }
  intros Hva Hva'. unfold vindex, PML4_INDEX, PDPT_INDEX, PD_INDEX, PT_INDEX, page.
  rewrite !index_shift by lia. split.
  - intros [= H1 H2 H3 H4]. f_equal. rewrite (Hsum va), (Hsum va'), H1, H2, H3, H4 by done. done.
  - intros Heq. assert (Hp : va / 2 ^ 12 = va' / 2 ^ 12) by (change (2 ^ 12) with 4096; lia).
    assert (Hk : forall k, 0 <= k -> va / 2 ^ (12 + k) = va' / 2 ^ (12 + k)).
    { intros k Hk. rewrite Z.pow_add_r, <- !Z.div_div, Hp by lia. done. }
    pose proof (Hk 9 ltac:(lia) : va / 2 ^ 21 = va' / 2 ^ 21) as H9.
    pose proof (Hk 18 ltac:(lia) : va / 2 ^ 30 = va' / 2 ^ 30) as H18.
    pose proof (Hk 27 ltac:(lia) : va / 2 ^ 39 = va' / 2 ^ 39) as H27.
    by rewrite Hp, H9, H18, H27.
Qed.

Section Loading.
Context {A : Type} `{!FrameAllocator A}.

Abbreviation tr s va := (translate (mem s) (cr3 s) va).

Lemma tr_page (s : vm A) va va' : low va -> low va' -> page va = page va' -> tr s va = tr s va'.
Proof. intros H1 H2 Hp. unfold translate. by rewrite (proj2 (vindex_page va va' H1 H2) Hp). Qed.

(** What mapping pages for a load has established, from [s0] to [s]: the pages
    of [L] have frames of their own, taken from the free ones; nothing else
    is translated differently. *)
Record loaded (s0 s : vm A) (L : gset Z) : Prop := {
  ld_ok : exists own, vm_ok s own;
  ld_cr3 : cr3 s = cr3 s0;
  ld_sub : fa_frames (alloc s) ⊆ fa_frames (alloc s0);
  ld_low : forall p, p ∈ L -> low p /\ page p = p;
  ld_in : forall p, p ∈ L -> exists f, tr s p = Some f /\ frame_ok f /\
    f ∉ fa_frames (alloc s);
  ld_inj : forall p q f, p ∈ L -> q ∈ L -> tr s p = Some f -> tr s q = Some f -> p = q;
  ld_out : forall va, low va -> page va ∉ L -> tr s va = tr s0 va }.

Lemma loaded_0 s own : vm_ok s own -> loaded s s ∅.
Proof. intros. constructor; set_solver. Qed.

Lemma loaded_page flags s0 s L v :
  loaded s0 s L -> low v -> page v = v -> (4 <= size (fa_frames (alloc s)))%nat ->
  exists phys s', paging_alloc_and_map v flags s = Ret (phys, s') /\
    phys <> 0 /\ loaded s0 s' ({[v]} ∪ L) /\
    (size (fa_frames (alloc s)) <= size (fa_frames (alloc s')) + 4)%nat.
Proof.
  intros HL Hv Hp Hsz. destruct HL as [[own Hok] Hcr3 Hsub Hlow Hin Hinj Hout].
  destruct (paging_alloc_and_map_spec s own v flags Hok (low_index v Hv))
    as (phys & s' & own' & -> & Hne & Hph & Hok' & Hcr3' & Hfr & Hsz' & Hmap & Hoth).
  { intros H0. rewrite H0, size_empty in Hsz. lia. }
  specialize (Hmap Hsz).
  assert (Hoth' : forall va, low va -> page va <> v -> tr s' va = tr s va).
  { intros va Hva Hpv. apply Hoth; [by apply low_index|].
    rewrite (vindex_page va v) by done. by rewrite Hp. }
  assert (Hkeep : forall q, q ∈ L -> q <> v -> tr s' q = tr s q).
  { intros q Hq Hqv. destruct (Hlow q Hq) as [Hlq Hpq]. apply Hoth'; [done|by rewrite Hpq]. }
  exists phys, s'. split_and!; [done..| |done]. constructor.
  - by exists own'.
  - congruence.
  - set_solver.
  - intros p [->%elem_of_singleton|Hp']%elem_of_union; auto.
  - intros p Hp'. destruct (decide (p = v)) as [->|Hpv].
    + exists phys. split_and!; [done|by apply (fa_frame_ok _ _ (ok_inv s own Hok))|set_solver].
    + apply elem_of_union in Hp' as [?%elem_of_singleton|Hp']; [done|].
      destruct (Hin p Hp') as (f & Hf & ? & ?). exists f. rewrite Hkeep by done.
      split_and!; [done..|set_solver].
  - intros p q f Hp' Hq' Hf Hg. destruct (decide (p = q)) as [|Hpq]; [done|exfalso].
    assert (Hmix : forall q, q ∈ L -> q <> v -> tr s' q = Some phys -> False).
    { intros r Hr Hrv Htr. rewrite Hkeep in Htr by done.
      destruct (Hin r Hr) as (f0 & Hf0 & _ & Hnf). by simplify_eq. }
    assert (HinL : forall r, r ∈ {[v]} ∪ L -> r <> v -> r ∈ L)
      by (intros r [?%elem_of_singleton|?]%elem_of_union ?; done).
    destruct (decide (p = v)) as [->|Hpv], (decide (q = v)) as [->|Hqv]; try done.
    + simplify_eq. apply (Hmix q); [auto|done|congruence].
    + simplify_eq. apply (Hmix p); [auto|done|congruence].
    + apply Hpq. apply (Hinj p q f); [auto..| |].
      * by rewrite <- (Hkeep p) by auto.
      * by rewrite <- (Hkeep q) by auto.
  - intros va Hva Hpv. rewrite Hoth' by (done || set_solver). apply Hout; set_solver.
Qed.

(** The pages from [v] up to [end_]. *)
Definition page_range (v end_ : Z) : gset Z := list_to_set (pages v ((end_ - v) / 4096)).

Lemma map_pages_count flags s0 s L v end_ K :
  loaded s0 s L -> 0 <= v -> 0 <= K -> end_ <= v + 4096 * K < end_ + 4096 ->
  v + 4096 * K <= 2 ^ 47 -> aligned v ->
  4 * K <= Z.of_nat (size (fa_frames (alloc s))) ->
  exists s', map_pages flags v end_ s = Ret (true, s') /\
    loaded s0 s' (list_to_set (pages v K) ∪ L) /\
    Z.of_nat (size (fa_frames (alloc s))) <=
      Z.of_nat (size (fa_frames (alloc s'))) + 4 * K.
Proof.
  intros HL Hv0 HK0 Hend HK Hav Hsz. unfold map_pages, aligned, PAGE_SIZE in *.
  loop_with (fun '(a, t) => exists k, 0 <= k <= K /\ a = v + 4096 * k /\
      loaded s0 t (list_to_set (pages v k) ∪ L) /\
      Z.of_nat (size (fa_frames (alloc s))) <= Z.of_nat (size (fa_frames (alloc t))) + 4 * k)
    (fun '(ok, t) => ok = true /\ loaded s0 t (list_to_set (pages v K) ∪ L) /\
      Z.of_nat (size (fa_frames (alloc s))) <= Z.of_nat (size (fa_frames (alloc t))) + 4 * K)
    (fun '(a, _) => v + 4096 * K - a) as ([ok t] & -> & -> & Ht & Hst); [| | lia | by exists t].
  - intros [a t] (k & Hk & -> & Ht & Hst). destruct (Z.ltb_spec (v + 4096 * k) end_).
    + left. destruct (loaded_page flags s0 t _ (v + 4096 * k) Ht)
        as (phys & t' & -> & Hph & Ht' & Hst').
      { unfold low. lia. } { unfold page. ilia. } { lia. }
      rewrite bind_ret, (proj2 (Z.eqb_neq phys 0)) by done.
      eexists. split; [done|]. unfold PAGE_SIZE. rewrite u64_small by lia. split; [|lia].
      exists (k + 1). split_and!; [lia..| |lia].
      rewrite pages_snoc, list_to_set_app_L by lia. cbn [list_to_set].
      replace (list_to_set (pages v k) ∪ ({[v + 4096 * k]} ∪ ∅) ∪ L)
        with ({[v + 4096 * k]} ∪ (list_to_set (pages v k) ∪ L)) by set_solver. done.
    + right. assert (k = K) as -> by lia. eexists. split; [done|].
      split_and!; done.
  - exists 0. split_and!; [lia..| |lia]. change (list_to_set (pages v 0)) with (∅ : gset Z).
    by rewrite union_empty_l_L.
Qed.

Lemma map_pages_spec flags s0 s L v end_ :
  loaded s0 s L -> 0 <= v -> v <= end_ -> end_ <= 2 ^ 47 -> aligned v -> aligned end_ ->
  4 * ((end_ - v) / 4096) <= Z.of_nat (size (fa_frames (alloc s))) ->
  exists s', map_pages flags v end_ s = Ret (true, s') /\
    loaded s0 s' (page_range v end_ ∪ L) /\
    Z.of_nat (size (fa_frames (alloc s))) <=
      Z.of_nat (size (fa_frames (alloc s'))) + 4 * ((end_ - v) / 4096).
Proof.
  intros. unfold aligned, PAGE_SIZE in *. apply map_pages_count; try done; ilia.
Qed.

(** ** Segments *)

Definition is_load (ph : elf64_phdr) : Prop := p_type ph = ELF_PT_LOAD.

(** A segment whose file part lies in the image and whose memory part lies in
    the lower half, without wrap-around. *)
Definition seg_ok (img : list Z) (ph : elf64_phdr) : Prop :=
  is_load ph ->
  0 <= p_offset ph /\ 0 <= p_filesz ph <= p_memsz ph /\
  p_offset ph + p_filesz ph <= Z.of_nat (length img) /\
  0 <= p_vaddr ph /\ p_vaddr ph + p_memsz ph + 4096 <= 2 ^ 47 /\ p_memsz ph < 2 ^ 32.

Definition seg_end (ph : elf64_phdr) : Z := page (p_vaddr ph + p_memsz ph + 4095).
Definition seg_pages (ph : elf64_phdr) : gset Z :=
  if decide (is_load ph) then page_range (page (p_vaddr ph)) (seg_end ph) else ∅.
(** The number of pages to map for the headers. *)
Fixpoint page_count (phs : list elf64_phdr) : Z :=
  match phs with
  | ph :: phs => (if decide (is_load ph) then (seg_end ph - page (p_vaddr ph)) / 4096 else 0)
                 + page_count phs
  | [] => 0
  end.

(** The headers in the image, from index [i] on. *)
Fixpoint reads (img : list Z) (phoff : Z) (i : nat) (phs : list elf64_phdr) : Prop :=
  match phs with
  | ph :: phs => read_phdr img (phoff + PHDR_SIZE * Z.of_nat i) = Ret ph /\
                 reads img phoff (S i) phs
  | [] => True
  end.

Lemma is_load_eqb ph : is_load ph -> (p_type ph =? ELF_PT_LOAD) = true.
Proof. by intros ->. Qed.
Lemma not_load_eqb ph : ~ is_load ph -> (p_type ph =? ELF_PT_LOAD) = false.
Proof. intros H. by apply Z.eqb_neq. Qed.

Lemma seg_page_bounds img ph : is_load ph -> seg_ok img ph ->
  aligned (page (p_vaddr ph)) /\ aligned (seg_end ph) /\ 0 <= page (p_vaddr ph) /\
  page (p_vaddr ph) <= seg_end ph /\ seg_end ph <= 2 ^ 47.
Proof.
  intros Hl Hok. destruct (Hok Hl) as (_ & ? & _ & ? & ? & _).
  unfold aligned, seg_end, page, PAGE_SIZE. rewrite !Z.mod_mul by lia.
  split_and!; try done; ilia.
Qed.

Lemma page_count_nonneg img phs : Forall (seg_ok img) phs -> 0 <= page_count phs.
Proof.
  induction 1 as [|ph phs Hok _ IH]; cbn; [lia|]. destruct (decide (is_load ph)) as [Hl|]; [|lia].
  destruct (seg_page_bounds img ph Hl Hok) as (_ & _ & _ & ? & _).
  assert (0 <= (seg_end ph - page (p_vaddr ph)) / 4096) by (apply Z.div_pos; lia). lia.
Qed.

Lemma map_segments_spec s0 s L img phoff i phs :
  Z.of_nat (length img) < 2 ^ 32 ->
  loaded s0 s L -> reads img phoff i phs -> Forall (seg_ok img) phs ->
  4 * page_count phs <= Z.of_nat (size (fa_frames (alloc s))) ->
  exists s', map_segments img phoff i (length phs) s = Ret (true, s') /\
    loaded s0 s' (⋃ (seg_pages <$> phs) ∪ L).
Proof.
  intros Himg HL Hr Hok. revert i s L HL Hr.
  induction Hok as [|ph phs Hph Hphs IH]; intros i s L HL Hr Hsz.
  { exists s. split; [done|]. change (⋃ (seg_pages <$> [])) with (∅ : gset Z).
    by rewrite union_empty_l_L. }
  destruct Hr as [Hrd Hr]. cbn [length map_segments]. rewrite Hrd, bind_ret.
  pose proof (page_count_nonneg img phs Hphs) as Hpc. cbn [page_count] in Hsz.
  change (⋃ (seg_pages <$> ph :: phs)) with (seg_pages ph ∪ ⋃ (seg_pages <$> phs)).
  unfold seg_pages at 1. revert Hsz.
  destruct (decide (is_load ph)) as [Hl|Hl]; intros Hsz; cycle 1.
  { rewrite not_load_eqb by done. cbn [negb].
    destruct (IH (S i) s L HL Hr ltac:(lia)) as (s' & -> & HL'). exists s'.
    split; [done|]. by rewrite union_empty_l_L. }
  rewrite is_load_eqb by done. cbn [negb].
  destruct (seg_page_bounds img ph Hl Hph) as (? & ? & ? & ? & ?).
  destruct (Hph Hl) as (? & ? & ? & ? & ? & ?).
  assert (0 <= (seg_end ph - page (p_vaddr ph)) / 4096) by (apply Z.div_pos; lia).
  rewrite (u64_small (p_offset ph + p_filesz ph)), (proj2 (Z.ltb_ge _ _)) by lia.
  rewrite (proj2 (Z.ltb_ge (p_memsz ph) _)) by lia.
  unfold PAGE_SIZE. rewrite u64_small, !page_down_spec by lia.
  replace (p_vaddr ph + p_memsz ph + 4096 - 1) with (p_vaddr ph + p_memsz ph + 4095) by lia.
  fold (page (p_vaddr ph)). change (_ / 4096 * 4096) with (seg_end ph) at 1.
  destruct (map_pages_spec (Z.lor PAGE_WRITE PAGE_USER) s0 s L (page (p_vaddr ph)) (seg_end ph) HL)
    as (s1 & -> & HL1 & Hsz1); [lia || done..|].
  rewrite bind_ret.
  destruct (IH (S i) s1 _ HL1 Hr ltac:(lia)) as (s' & -> & HL'). exists s'. split; [done|].
  by rewrite (comm_L (∪) (page_range _ _)), <- (assoc_L (∪)).
Qed.

(** ** The bytes of the address space *)

(** What a load through the page tables returns. *)
Definition peek (s : space A) (va : Z) : option Z :=
  f ← tr (machine s) va; bytes s !! (f + va mod PAGE_SIZE).

Lemma loaded_frame s0 m L va :
  loaded s0 m L -> low va -> page va ∈ L ->
  exists f, tr m va = Some f /\ tr m (page va) = Some f /\ aligned f.
Proof.
  intros HL Hv Hpv. destruct (ld_in _ _ _ HL (page va) Hpv) as (f & Hf & [_ Haf] & _).
  destruct (ld_low _ _ _ HL (page va) Hpv) as [Hl Hpp].
  exists f. rewrite (tr_page m va (page va)) by (done || by rewrite Hpp). done.
Qed.

Lemma user_byte_spec s0 s L va b :
  loaded s0 (machine s) L -> low va -> page va ∈ L ->
  exists s', user_byte va b s = Ret s' /\ machine s' = machine s /\
    forall va', low va' -> page va' ∈ L ->
      peek s' va' = if decide (va' = va) then Some b else peek s va'.
Proof.
  intros HL Hva Hp. unfold user_byte.
  destruct (loaded_frame _ _ _ va HL Hva Hp) as (f & Hf & Hfp & Haf). rewrite Hf.
  eexists. split_and!; [done..|]. intros va' Hva' Hp'. unfold peek. cbn [machine bytes].
  destruct (loaded_frame _ _ _ va' HL Hva' Hp') as (f' & Hf' & Hfp' & Haf'). rewrite Hf'.
  cbn [mbind option_bind]. destruct (decide (va' = va)) as [->|Hne].
  - assert (f' = f) as -> by congruence. by rewrite lookup_insert_eq.
  - apply lookup_insert_ne. intros Heq. apply Hne.
    unfold aligned, PAGE_SIZE in *. assert (f = f') as -> by ilia.
    assert (page va = page va') as Hpage by (eapply (ld_inj _ _ _ HL); eauto).
    unfold page in Hpage. ilia.
Qed.

Lemma user_bytes_spec s0 s L va bs :
  loaded s0 (machine s) L -> 0 <= va -> va + Z.of_nat (length bs) <= 2 ^ 47 ->
  (forall a, va <= a < va + Z.of_nat (length bs) -> page a ∈ L) ->
  exists s', user_bytes va bs s = Ret s' /\ machine s' = machine s /\
    forall va', low va' -> page va' ∈ L ->
      peek s' va' = if decide (va <= va' < va + Z.of_nat (length bs))
                    then bs !! Z.to_nat (va' - va) else peek s va'.
Proof.
  intros HL. revert s va HL. induction bs as [|b bs IH]; intros s va HL Hva Hend Hpages.
  { exists s. split_and!; [done..|]. intros va' _ _. rewrite decide_False by (cbn; lia). done. }
  cbn [length] in *. cbn [user_bytes].
  destruct (user_byte_spec s0 s L va b HL) as (s1 & -> & Hm1 & Hp1);
    [unfold low; lia|apply Hpages; lia|]. rewrite bind_ret, u64_small by lia.
  destruct (IH s1 (va + 1)) as (s2 & -> & Hm2 & Hp2);
    [by rewrite Hm1|lia|lia|intros a Ha; apply Hpages; lia|].
  exists s2. split_and!; [done|congruence|]. intros va' Hl' Hp'. rewrite Hp2, Hp1 by done.
  destruct (decide (va' = va)) as [->|Hne].
  - rewrite decide_False, decide_True by lia. by rewrite Z.sub_diag.
  - destruct (decide (va + 1 <= va' < va + 1 + Z.of_nat (length bs))).
    + rewrite decide_True by lia. replace (Z.to_nat (va' - va)) with (S (Z.to_nat (va' - (va + 1)))) by lia.
      done.
    + by rewrite decide_False by lia.
Qed.

(** The byte a segment puts at [va]. *)
Definition seg_byte (img : list Z) (ph : elf64_phdr) (va : Z) : option Z :=
  if va - p_vaddr ph <? p_filesz ph
  then img !! Z.to_nat (p_offset ph + (va - p_vaddr ph)) else Some 0.

Definition in_seg (ph : elf64_phdr) (va : Z) : Prop :=
  is_load ph /\ p_vaddr ph <= va < p_vaddr ph + p_memsz ph.

(** One segment of the second loop. *)
Lemma fill_segment_spec s0 s L img ph :
  Z.of_nat (length img) < 2 ^ 32 ->
  loaded s0 (machine s) L -> is_load ph -> seg_ok img ph -> (forall va, in_seg ph va -> page va ∈ L) ->
  exists s', (s ← (if negb (p_filesz ph =? 0) then copy_segment img ph s else Ret s);
              if p_filesz ph <? p_memsz ph
              then user_bytes (u64 (p_vaddr ph + p_filesz ph))
                     (replicate (Z.to_nat (u32 (p_memsz ph - p_filesz ph))) 0) s
              else Ret s) = Ret s' /\
    machine s' = machine s /\
    forall va, low va -> page va ∈ L ->
      peek s' va = if decide (in_seg ph va) then seg_byte img ph va else peek s va.
Proof.
  intros Himg HL Hload Hok Hpages. destruct (Hok Hload) as (Ho & Hf & Hend & Hv & Htop & Hms).
  assert (exists s1, (if negb (p_filesz ph =? 0) then copy_segment img ph s else Ret s) = Ret s1 /\
    machine s1 = machine s /\ forall va, low va -> page va ∈ L ->
      peek s1 va = if decide (p_vaddr ph <= va < p_vaddr ph + p_filesz ph)
                   then seg_byte img ph va else peek s va) as (s1 & -> & Hm1 & Hp1).
  { destruct (Z.eqb_spec (p_filesz ph) 0) as [H0|Hn0]; cbn [negb].
    { exists s. split_and!; [done..|]. intros va _ _. by rewrite decide_False by lia. }
    unfold copy_segment. rewrite u32_small, (proj2 (Z.leb_le _ _)) by lia.
    set (bs := take _ _). assert (Hlen : Z.of_nat (length bs) = p_filesz ph).
    { subst bs. rewrite length_take, length_drop. lia. }
    destruct (user_bytes_spec s0 s L (p_vaddr ph) bs HL) as (s1 & -> & Hm1 & Hp1); [lia..| |].
    { intros a Ha. apply Hpages. split; [done|lia]. }
    exists s1. split_and!; [done..|]. intros va Hva Hpv. rewrite Hp1, Hlen by done.
    destruct (decide (p_vaddr ph <= va < p_vaddr ph + p_filesz ph)); [|done].
    unfold seg_byte. rewrite (proj2 (Z.ltb_lt _ _)) by lia. subst bs.
    rewrite lookup_take_lt, lookup_drop by lia. f_equal. lia. }
  rewrite bind_ret. destruct (Z.ltb_spec (p_filesz ph) (p_memsz ph)); cycle 1.
  { exists s1. split_and!; [done..|]. intros va Hva Hpv. rewrite Hp1 by done.
    unfold in_seg. repeat case_decide; try done; exfalso; naive_solver lia. }
  rewrite u64_small, u32_small by lia.
  destruct (user_bytes_spec s0 s1 L (p_vaddr ph + p_filesz ph)
    (replicate (Z.to_nat (p_memsz ph - p_filesz ph)) 0)) as (s2 & -> & Hm2 & Hp2);
    [by rewrite Hm1|lia|rewrite length_replicate; lia| |].
  { intros a. rewrite length_replicate. intros Ha. apply Hpages. split; [done|lia]. }
  exists s2. split_and!; [done|congruence|]. intros va Hva Hpv. rewrite Hp2, Hp1 by done.
  rewrite length_replicate, Z2Nat.id by lia. unfold in_seg.
  destruct (decide (p_vaddr ph + p_filesz ph <= va <
    p_vaddr ph + p_filesz ph + (p_memsz ph - p_filesz ph))).
  - rewrite decide_True by (split; [done|lia]). unfold seg_byte.
    rewrite (proj2 (Z.ltb_ge _ _)) by lia. apply lookup_replicate_2. lia.
  - repeat case_decide; try done; exfalso; naive_solver lia.
Qed.

(** The byte at [va] after the segments have been written one after the other
    over [old]. *)
Definition image_byte (img : list Z) (phs : list elf64_phdr) (va : Z) (old : option Z) : option Z :=
  fold_left (fun acc ph => if decide (in_seg ph va) then seg_byte img ph va else acc) phs old.

Lemma fill_segments_spec s0 s L img phoff i phs lo hi :
  Z.of_nat (length img) < 2 ^ 32 ->
  loaded s0 (machine s) L -> reads img phoff i phs -> Forall (seg_ok img) phs ->
  (forall ph va, ph ∈ phs -> in_seg ph va -> page va ∈ L) ->
  exists lo' hi' s',
    fill_segments img phoff i (length phs) lo hi s = Ret (lo', hi', s') /\
    machine s' = machine s /\ lo' <= lo /\ hi <= hi' /\
    (forall ph, ph ∈ phs -> is_load ph -> lo' <= p_vaddr ph /\ p_vaddr ph + p_memsz ph <= hi') /\
    (forall va, low va -> page va ∈ L -> peek s' va = image_byte img phs va (peek s va)).
Proof.
  intros Himg HL Hr Hok. revert i s lo hi HL Hr.
  induction Hok as [|ph phs Hph Hphs IH]; intros i s lo hi HL Hr Hpages.
  { exists lo, hi, s. split_and!; try done. by intros ph ?%elem_of_nil. }
  destruct Hr as [Hrd Hr]. cbn [length fill_segments]. rewrite Hrd, bind_ret.
  assert (Hpages' : forall ph va, ph ∈ phs -> in_seg ph va -> page va ∈ L)
    by (intros q va Hq; apply Hpages; by right).
  destruct (decide (is_load ph)) as [Hl|Hl]; cycle 1.
  { rewrite not_load_eqb by done. cbn [negb].
    destruct (IH (S i) s lo hi HL Hr Hpages') as (lo' & hi' & s' & -> & Hm & Hlo & Hhi & Hb & Hp).
    exists lo', hi', s'. split_and!; try done.
    - by intros q [->|Hq]%elem_of_cons ?; [|apply Hb].
    - intros va Hva Hpv. rewrite Hp by done. unfold image_byte. cbn [fold_left].
      rewrite decide_False; [done|]. by intros [? _]. }
  rewrite is_load_eqb by done. cbn [negb]. rewrite <- bind_assoc.
  destruct (fill_segment_spec s0 s L img ph Himg HL Hl Hph) as (s1 & -> & Hm1 & Hp1).
  { intros va. apply Hpages. left. }
  rewrite bind_ret. destruct (Hph Hl) as (_ & ? & _ & ? & ? & _).
  rewrite (u64_small (p_vaddr ph + p_memsz ph)) by lia.
  set (lo1 := if p_vaddr ph <? lo then _ else _). set (hi1 := if hi <? _ then _ else _).
  assert (Hlo1 : lo1 <= lo /\ lo1 <= p_vaddr ph) by (subst lo1; destruct (Z.ltb_spec (p_vaddr ph) lo); lia).
  assert (Hhi1 : hi <= hi1 /\ p_vaddr ph + p_memsz ph <= hi1)
    by (subst hi1; destruct (Z.ltb_spec hi (p_vaddr ph + p_memsz ph)); lia).
  destruct (IH (S i) s1 lo1 hi1) as (lo' & hi' & s' & -> & Hm & Hlo & Hhi & Hb & Hp);
    [by rewrite Hm1|done|done|].
  exists lo', hi', s'. split_and!; [done|congruence|lia|lia| |].
  - intros q [->|Hq]%elem_of_cons ?; [lia|by apply Hb].
  - intros va Hva Hpv. rewrite Hp, Hp1 by done. done.
Qed.

Lemma in_seg_page img ph va :
  seg_ok img ph -> in_seg ph va -> low va /\ page va ∈ seg_pages ph.
Proof.
  intros Hok [Hl Hva]. destruct (Hok Hl) as (_ & ? & _ & ? & ? & _).
  split; [unfold low; lia|]. unfold seg_pages. rewrite decide_True by done.
  unfold page_range. rewrite elem_of_list_to_set, elem_of_pages.
  exists ((page va - page (p_vaddr ph)) / 4096). unfold seg_end, page. ilia.
Qed.

End Loading.

(** C29: Loading a program.  Let an image carry a valid header whose program
    headers lie in the image, let every loadable segment lie in the image and
    in the lower half of the address space without wrap-around, and let enough
    frames be free.  Then [elf_load] succeeds and returns the entry point and
    bounds that enclose all segments; every byte of every segment is mapped
    and reads as the byte of the file, or zero behind the file part (where
    segments overlap, the later one); and no page outside the segments is
    translated differently. *)
Theorem elf_load_correct {A} `{!FrameAllocator A} (s : space A) own img eh phs :
  Z.of_nat (length img) < 2 ^ 32 ->
  elf_valid (Some img) = Ret true -> read_ehdr img = Ret eh ->
  EHDR_SIZE <= e_ehsize eh -> PHDR_SIZE <= e_phentsize eh -> 0 <= e_phoff eh ->
  e_phoff eh + e_phnum eh * e_phentsize eh <= Z.of_nat (length img) ->
  e_phnum eh = Z.of_nat (length phs) -> reads img (e_phoff eh) 0 phs ->
  Forall (seg_ok img) phs -> Exists is_load phs ->
  vm_ok (machine s) own ->
  4 * page_count phs <= Z.of_nat (size (fa_frames (alloc (machine s)))) ->
  exists lo hi s', elf_load (Some img) s = Ret (Some (e_entry eh, lo, hi), s') /\
    (forall ph va, ph ∈ phs -> in_seg ph va -> lo <= va < hi) /\
    (forall ph va, ph ∈ phs -> in_seg ph va ->
       peek s' va = image_byte img phs va None) /\
    (forall va, low va -> (forall ph, ph ∈ phs -> page va ∉ seg_pages ph) ->
       translate (mem (machine s')) (cr3 (machine s')) va =
       translate (mem (machine s)) (cr3 (machine s)) va).
Proof.
  intros Himg Hvalid Heh Hsz1 Hsz2 Hoff0 Hoff Hnum Hreads Hok Hex Hvm Hframes.
  unfold elf_load. rewrite Hvalid, bind_ret. cbn [negb]. rewrite Heh, bind_ret.
  assert (0 < length phs)%nat by (destruct phs; [by apply Exists_nil in Hex|cbn; lia]).
  rewrite (proj2 (Z.ltb_ge _ _) Hsz1), (proj2 (Z.ltb_ge _ _) Hsz2), (proj2 (Z.eqb_neq _ 0)) by lia.
  cbn [orb]. unfold PHDR_SIZE in Hsz2.
  rewrite u64_small, (proj2 (Z.ltb_ge _ _)) by nia. rewrite Hnum, Nat2Z.id.
  destruct (map_segments_spec (machine s) (machine s) ∅ img (e_phoff eh) 0 phs Himg)
    as (m & -> & HL); [by eapply loaded_0|done..|].
  rewrite bind_ret. cbn [negb]. rewrite union_empty_r_L in HL.
  assert (Hcover : forall ph va, ph ∈ phs -> in_seg ph va -> page va ∈ ⋃ (seg_pages <$> phs)).
  { intros ph va Hph Hin. apply elem_of_union_list. exists (seg_pages ph).
    split; [by apply list_elem_of_fmap_2|]. rewrite Forall_forall in Hok.
    eapply in_seg_page; eauto. }
  destruct (fill_segments_spec (machine s) (mkSpace m (bytes s)) _ img (e_phoff eh) 0 phs
    (2 ^ 64 - 1) 0 Himg HL Hreads Hok Hcover) as (lo & hi & s' & -> & Hm & Hlo & Hhi & Hb & Hp).
  rewrite bind_ret. rewrite Forall_forall in Hok.
  rewrite (proj2 (Z.eqb_neq lo _)); cycle 1.
  { apply Exists_exists in Hex as (ph & Hph & Hl). destruct (Hb ph Hph Hl).
    destruct (Hok ph Hph Hl) as (_ & ? & _ & ? & ? & _). lia. }
  exists lo, hi, s'. split_and!; [done| | |].
  - intros ph va Hph [Hl Hva]. destruct (Hb ph Hph Hl). lia.
  - intros ph va Hph Hin. destruct (in_seg_page img ph va (Hok ph Hph) Hin) as [Hva _].
    rewrite Hp by eauto. unfold image_byte.
    (* the byte of the last segment does not depend on what was there *)
    clear -Hph Hin. generalize (peek (mkSpace m (bytes s)) va) as old, (@None Z) as old'.
    induction phs as [|q phs IH]; intros old old'; [by apply elem_of_nil in Hph|].
    cbn [fold_left]. apply elem_of_cons in Hph as [->|Hph]; [by rewrite !decide_True|].
    apply IH. done.
  - intros va Hva Hnot. rewrite Hm. cbn [machine]. apply (ld_out _ _ _ HL va Hva).
    intros Hpv. apply elem_of_union_list in Hpv as (X & (ph & -> & Hph)%list_elem_of_fmap & HX).
    by eapply Hnot.
Qed.

(** ** An image *)

(** An image with one program header: a segment of [filesz] bytes at offset
    [off] of the file. *)
Definition image1 (off vaddr filesz memsz : Z) (payload : list Z) : list Z :=
  [0x7f; ch "E"; ch "L"; ch "F"; 2; 1] ++ replicate 10 0 ++
  le_bytes 2 2 ++ le_bytes 2 62 ++ le_bytes 4 1 ++ le_bytes 8 vaddr ++ le_bytes 8 64 ++
  le_bytes 8 0 ++ le_bytes 4 0 ++ le_bytes 2 64 ++ le_bytes 2 56 ++ le_bytes 2 1 ++
  replicate 6 0 ++
  le_bytes 4 1 ++ le_bytes 4 0 ++ le_bytes 8 off ++ le_bytes 8 vaddr ++ le_bytes 8 0 ++
  le_bytes 8 filesz ++ le_bytes 8 memsz ++ le_bytes 8 0x1000 ++ payload.

Definition demo_space (frames : list Z) : space Pmm.pmm := mkSpace (Demo.demo frames) ∅.

Lemma demo4_ok : vm_ok (Demo.demo [0x2000; 0x3000; 0x4000; 0x5000]) {[0x1000 := []]}.
Proof.
  apply Demo.demo_ok; [|cbn; lia].
  split; [by apply (bool_decide_unpack _)|repeat constructor; done].
Qed.

Definition demo_image : list Z := image1 120 0x8000000 2 3 [0x90; 0xC3].
Definition demo_phs : list elf64_phdr := [mkPhdr 1 120 0x8000000 2 3].
Definition demo4 : space Pmm.pmm := demo_space [0x2000; 0x3000; 0x4000; 0x5000].

Lemma elf_load_correct_witness :
  exists lo hi s', elf_load (Some demo_image) demo4 = Ret (Some (0x8000000, lo, hi), s') /\
    (forall ph va, ph ∈ demo_phs -> in_seg ph va -> lo <= va < hi) /\
    (forall ph va, ph ∈ demo_phs -> in_seg ph va ->
       peek s' va = image_byte demo_image demo_phs va None) /\
    (forall va, low va -> (forall ph, ph ∈ demo_phs -> page va ∉ seg_pages ph) ->
       translate (mem (machine s')) (cr3 (machine s')) va =
       translate (mem (machine demo4)) (cr3 (machine demo4)) va).
Proof.
  apply (elf_load_correct demo4 {[0x1000 := []]} demo_image
    (mkEhdr (take 16 demo_image) 2 62 0x8000000 64 64 56 1) demo_phs).
  - vm_compute. reflexivity.
  - vm_compute. reflexivity.
  - vm_compute. reflexivity.
  - cbn. unfold EHDR_SIZE. lia.
  - cbn. unfold PHDR_SIZE. lia.
  - cbn. lia.
  - vm_compute. discriminate.
  - reflexivity.
  - split; [vm_compute; reflexivity|done].
  - constructor; [|constructor]. intros _. vm_compute. split_and!; discriminate || reflexivity.
  - by constructor.
  - exact demo4_ok.
  - vm_compute. discriminate.
Defined.

(** A segment of 16 bytes at file offset [2^64 - 8]. *)
Definition wrap_image : list Z := image1 (2 ^ 64 - 8) 0x8000000 16 16 [].

(** The bounds check of a segment adds offset and size in wrapping 64-bit
    arithmetic: an image of 120 bytes with a segment of 16 bytes at file offset
    [2^64 - 8] passes it, and on every machine with four free frames the
    loader goes on to copy from outside the image. *)
Theorem elf_load_offset_wraps {A} `{!FrameAllocator A} (s : space A) own :
  vm_ok (machine s) own -> (4 <= size (fa_frames (alloc (machine s))))%nat ->
  elf_load (Some wrap_image) s = Fault.
Proof.
  intros Hok Hsz. unfold elf_load.
  assert (elf_valid (Some wrap_image) = Ret true) as -> by (vm_compute; reflexivity).
  rewrite bind_ret. cbn [negb].
  assert (read_ehdr wrap_image = Ret (mkEhdr (take 16 wrap_image) 2 62 0x8000000 64 64 56 1)) as ->
    by (vm_compute; reflexivity).
  rewrite bind_ret. cbn [e_ehsize e_phentsize e_phnum e_phoff e_entry].
  change (Z.of_nat (length wrap_image)) with 120. cbn [orb].
  change ((64 <? EHDR_SIZE) || (56 <? PHDR_SIZE) || (1 =? 0)) with false.
  change (120 <? u64 (64 + 1 * 56)) with false. change (Z.to_nat 1) with 1%nat.
  assert (Hph : read_phdr wrap_image (64 + PHDR_SIZE * Z.of_nat 0) =
            Ret (mkPhdr 1 (2 ^ 64 - 8) 0x8000000 16 16)) by (vm_compute; reflexivity).
  cbn [map_segments]. rewrite Hph, bind_ret. cbn [p_type p_offset p_filesz p_memsz p_vaddr].
  change (negb (1 =? ELF_PT_LOAD)) with false.
  change (Z.of_nat (length wrap_image) <? u64 (2 ^ 64 - 8 + 16)) with false.
  change (16 <? 16) with false.
  change (page_down 0x8000000) with 0x8000000.
  change (page_down (u64 (0x8000000 + 16 + PAGE_SIZE - 1))) with 0x8001000.
  destruct (map_pages_spec (Z.lor PAGE_WRITE PAGE_USER) (machine s) (machine s) ∅ 0x8000000 0x8001000)
    as (m & -> & _ & _); [by eapply loaded_0|lia..|done|done| |].
  { change ((0x8001000 - 0x8000000) / 4096) with 1. lia. }
  rewrite !bind_ret. cbn [negb fill_segments].
  rewrite Hph, bind_ret. cbn [p_type p_filesz]. reflexivity.
Qed.

Lemma elf_load_offset_wraps_witness : elf_load (Some wrap_image) demo4 = Fault.
Proof.
  apply (elf_load_offset_wraps demo4 {[0x1000 := []]}); [exact demo4_ok|].
  vm_compute. reflexivity.
Defined.
