(* ===== verification/Fs.v ===== *)
(** * bsd/kern/init_ram_getty/fs.c: file descriptors, paths and argument vectors

    The descriptor table of a task, reading and seeking, the path predicates
    of the flat RAM file system and its /proc overlay, directory enumeration
    and the argument vector of a new program.  A descriptor's data pointer may
    point into a task's own buffer, which a vfork child shares with its
    parent, so pointers are kept as pointers. *)

From S2P Require Import Prelude Libc Printf Double Pmm Paging Ramfs Elf.
Import Vm.

Definition TASK_NAME_MAX : Z := 32.
Definition TASK_STACK_SIZE : Z := 8192.
Definition PROC_MAX_TASKS : Z := 32.
Definition XKERN_MAX_FDS : Z := 16.
Definition PROCBUF : nat := 1024.

(** ** Tasks *)

(** [const u8 *data]: null, into the archive, into a task's [procbuf]. *)
Inductive dptr := DNull | DArc (off : Z) | DProc (pid : nat).
#[global] Instance dptr_eq_dec : EqDecision dptr.
Proof. solve_decision. Defined.

(** [type]: 0 free, 1 file, 2 console. *)
Record xkern_fd := mkFd { fd_type : Z; fd_data : dptr; fd_size : Z; fd_pos : Z }.

Inductive task_state := TASK_RUNNING | TASK_ZOMBIE | TASK_NEW | TASK_WAITING.
#[global] Instance task_state_eq_dec : EqDecision task_state.
Proof. solve_decision. Defined.

Record task := mkTask
  { t_sp : Z; t_cr3 : Z; t_pid : Z; t_name : list Z; t_stack : Z; t_state : task_state;
    t_ticks : Z; t_arg : Z; t_vfork_parent : Z; t_fd : list xkern_fd; t_procbuf : list Z }.

Definition set_fds (fds : list xkern_fd) (t : task) : task :=
  mkTask (t_sp t) (t_cr3 t) (t_pid t) (t_name t) (t_stack t) (t_state t) (t_ticks t)
    (t_arg t) (t_vfork_parent t) fds (t_procbuf t).

(** What the file layer works on: the tasks, the files and the archive. *)
Record sys := mkSys { s_tasks : list task; s_files : ramfs; s_arc : list Z }.

Definition the_task (pid : nat) (s : sys) : run task := of_option (s_tasks s !! pid).
Definition put_task (pid : nat) (t : task) (s : sys) : sys :=
  mkSys (<[pid := t]> (s_tasks s)) (s_files s) (s_arc s).

Definition get_fd (t : task) (fd : Z) : run xkern_fd := of_option (t_fd t !! Z.to_nat fd).
Definition put_fd (fd : Z) (f : xkern_fd) (t : task) : task :=
  set_fds (<[Z.to_nat fd := f]> (t_fd t)) t.

Definition free_fd : xkern_fd := mkFd 0 DNull 0 0.
Definition console_fd : xkern_fd := mkFd 2 DNull 0 0.

Definition fs_task_init (t : task) : task :=
  set_fds (replicate 3 console_fd ++ replicate 13 free_fd) t.

(** [for (i = 3; i < XKERN_MAX_FDS; i++)] *)
Fixpoint first_free (i : Z) (fds : list xkern_fd) : Z :=
  match fds with
  | f :: fds => if fd_type f =? 0 then i else first_free (i + 1) fds
  | [] => -1
  end.
Definition fs_alloc_fd (t : task) : Z := first_free 3 (drop 3 (t_fd t)).

(** ** Paths *)

Definition path_is_dir (path : list Z) : bool := bool_decide (skip_slash path = []).

Definition is_procfs (path : list Z) : bool :=
  let p := skip_slash path in
  bool_decide (take 4 p = str "proc") &&
  (bool_decide (drop 4 p = []) || (Float.peek (drop 4 p) =? ch "/")).

(** The number at [s] and what follows it; -1 if there is none. *)
Fixpoint pid_digits (v : Z) (s : list Z) : run (Z * list Z) :=
  match s with
  | c :: s' =>
      if Float.is_dec c then t ← int32 (v * 10); v ← int32 (t + (c - ch "0")); pid_digits v s'
      else Ret (v, s)
  | [] => Ret (v, [])
  end.

Definition parse_pid (s : list Z) : run (Z * list Z) :=
  '(v, e) ← pid_digits 0 s;
  Ret (if Float.is_dec (Float.peek s) then v else -1, e).

Definition procfs_is_file (path : list Z) : run bool :=
  let p := drop 4 (skip_slash path) in
  if negb (Float.peek p =? ch "/") then Ret false
  else
    '(pid, e) ← parse_pid (tail p);
    if (pid <? 0) || negb (Float.peek e =? ch "/") then Ret false
    else if PROC_MAX_TASKS <=? pid then Ret false
    else Ret (bool_decide (tail e = str "status")).

Definition procfs_exists (path : list Z) : run bool :=
  let p := skip_slash path in
  if negb (bool_decide (take 4 p = str "proc")) then Ret false
  else
    let p := drop 4 p in
    if bool_decide (p = []) then Ret true
    else if negb (Float.peek p =? ch "/") then Ret false
    else
      let p := tail p in
      if bool_decide (p = []) then Ret true
      else
        '(pid, e) ← parse_pid p;
        if (pid <? 0) || (PROC_MAX_TASKS <=? pid) then Ret false
        else if bool_decide (e = []) then Ret true
        else if negb (Float.peek e =? ch "/") then Ret false
        else Ret (bool_decide (tail e = str "status")).

(** [procfs_read]: the text is not produced, the length is that of whatever the
    buffer holds. *)
Fixpoint buf_strlen (b : list Z) : run Z :=
  match b with
  | c :: b => if c =? 0 then Ret 0 else n ← buf_strlen b; Ret (n + 1)
  | [] => Fault
  end.

Definition procfs_read (s : sys) (path buf : list Z) : run Z :=
  if bool_decide (skip_slash path = str "proc/1/status") then
    match s_tasks s !! 1%nat with
    | None => Ret (-1)
    | Some _ => buf_strlen buf
    end
  else Ret (-1).

(** ** Descriptors *)

Definition fs_open (pid : nat) (path : list Z) (flags : Z) (s : sys) : run (Z * sys) :=
  t ← the_task pid s;
  if is_procfs path then
    n ← procfs_read s path (t_procbuf t);
    if n <? 0 then Ret (-1, s)
    else
      let fd := fs_alloc_fd t in
      if fd <? 0 then Ret (-1, s)
      else Ret (fd, put_task pid (put_fd fd (mkFd 1 (DProc pid) (u32 n) 0) t) s)
  else
    match ramfs_lookup (s_files s) path with
    | None => Ret (-1, s)
    | Some i =>
        f ← of_option (s_files s !! i);
        let fd := fs_alloc_fd t in
        if fd <? 0 then Ret (-1, s)
        else Ret (fd, put_task pid (put_fd fd (mkFd 1 (DArc (f_off f)) (f_size f) 0) t) s)
    end.

Definition fs_close (pid : nat) (fd : Z) (s : sys) : run (Z * sys) :=
  if (fd <? 0) || (XKERN_MAX_FDS <=? fd) then Ret (-1, s)
  else if fd <? 3 then Ret (0, s)
  else
    t ← the_task pid s; f ← get_fd t fd;
    Ret (0, put_task pid (put_fd fd (mkFd 0 (fd_data f) (fd_size f) (fd_pos f)) t) s).

(** [n] bytes at [data + pos]. *)
Definition data_bytes (s : sys) (d : dptr) (pos : Z) (n : nat) : run (list Z) :=
  match d with
  | DNull => Fault
  | DArc off => bytes_at (s_arc s) (off + pos) n
  | DProc k => t ← the_task k s; bytes_at (t_procbuf t) pos n
  end.

(** The return value and the bytes copied to the caller's buffer. *)
Definition fs_read (pid : nat) (fd n : Z) (s : sys) : run (Z * list Z * sys) :=
  if (fd <? 0) || (XKERN_MAX_FDS <=? fd) then Ret (-1, [], s)
  else
    t ← the_task pid s; f ← get_fd t fd;
    if fd_type f =? 2 then Ret (0, [], s)
    else if negb (fd_type f =? 1) then Ret (-1, [], s)
    else if fd_size f <=? fd_pos f then Ret (0, [], s)
    else
      let avail := fd_size f - fd_pos f in
      let n := if avail <? n then avail else n in
      bs ← data_bytes s (fd_data f) (fd_pos f) (Z.to_nat n);
      Ret (s32 n, bs,
           put_task pid (put_fd fd (mkFd 1 (fd_data f) (fd_size f) (u32 (fd_pos f + n))) t) s).

(** The return value and what is sent to the console. *)
Definition fs_write (pid : nat) (fd : Z) (bs : list Z) (s : sys) : run (Z * list Z) :=
  if (fd <? 0) || (XKERN_MAX_FDS <=? fd) then Ret (-1, [])
  else
    t ← the_task pid s; f ← get_fd t fd;
    if fd_type f =? 2 then Ret (s32 (Z.of_nat (length bs)), bs)
    else Ret (-1, []).

Definition fs_lseek (pid : nat) (fd off whence : Z) (s : sys) : run (Z * sys) :=
  if (fd <? 0) || (XKERN_MAX_FDS <=? fd) then Ret (-1, s)
  else
    t ← the_task pid s; f ← get_fd t fd;
    if negb (fd_type f =? 1) then Ret (-1, s)
    else
      let set p := Ret (s32 p, put_task pid (put_fd fd (mkFd 1 (fd_data f) (fd_size f) p) t) s) in
      if whence =? 0 then set off
      else if whence =? 1 then set (u32 (fd_pos f + off))
      else if whence =? 2 then set (u32 (fd_size f + off))
      else Ret (-1, s).

(** ** Status *)

Definition S_IFDIR : Z := 0x4000.
Definition S_IFREG : Z := 0x8000.

(** The fields that the code sets; the other seven stay 0. *)
Record xkern_stat := mkStat
  { st_ino : Z; st_mode : Z; st_nlink : Z; st_size : Z; st_blksize : Z; st_blocks : Z }.
Definition zero_stat : xkern_stat := mkStat 0 0 0 0 0 0.

(** [S_IFDIR | 0755] and [S_IFREG | (S_IRUSR | S_IWUSR | S_IRGRP | S_IROTH)] *)
Definition stat_mode (path : list Z) : Z :=
  if path_is_dir path then Z.lor S_IFDIR 0x1ED
  else Z.lor S_IFREG (Z.lor (Z.lor (Z.lor 0x100 0x80) 0x20) 0x4).

(** [strncmp(name, prefix, plen) == 0] for a prefix of [plen] characters. *)
Definition has_prefix (prefix name : list Z) : bool :=
  bool_decide (take (length prefix) name = prefix).

Definition ramfs_dir_exists (fs : ramfs) (path : list Z) : run bool :=
  if path_is_dir path then Ret true
  else if is_procfs path then b ← procfs_is_file path; Ret (negb b)
  else
    let path := skip_slash path in
    if bool_decide (path = []) then Ret true
    else if RAMFS_NAME_MAX <=? Z.of_nat (length path) then Ret false
    else Ret (existsb (fun f => has_prefix (path ++ [ch "/"]) (f_name f)) fs).

Definition blocks (n : Z) : Z := u32 (n + 511) / 512.

(** The return value and what [*st] holds afterwards. *)
Definition ramfs_stat (pid : nat) (path : list Z) (s : sys) : run (Z * xkern_stat) :=
  dir ← ramfs_dir_exists (s_files s) path;
  if (dir : bool) then Ret (0, mkStat 0 (Z.lor S_IFDIR 0x1ED) 1 0 4096 0)
  else if is_procfs path then
    t ← the_task pid s;
    n ← procfs_read s path (t_procbuf t);
    if n <? 0 then Ret (-1, mkStat 0 0 1 0 4096 0)
    else Ret (0, mkStat 0 (stat_mode path) 1 (u32 n) 4096 (blocks (u32 n)))
  else
    match ramfs_lookup (s_files s) path with
    | None => Ret (-1, mkStat 0 0 1 0 4096 0)
    | Some i =>
        f ← of_option (s_files s !! i);
        Ret (0, mkStat (u32 (Z.of_nat i + 1)) (stat_mode path) 1 (f_size f) 4096
                  (blocks (f_size f)))
    end.

Definition fs_stat (pid : nat) (path : list Z) (s : sys) : run (Z * xkern_stat) :=
  ramfs_stat pid path s.

(** [None]: [*st] is left as it was. *)
Definition fs_fstat (pid : nat) (fd : Z) (s : sys) : run (Z * option xkern_stat) :=
  if (fd <? 0) || (XKERN_MAX_FDS <=? fd) then Ret (-1, None)
  else
    t ← the_task pid s; f ← get_fd t fd;
    if fd_type f =? 2 then Ret (0, Some (mkStat 0 (Z.lor S_IFREG 0x180) 0 0 0 0))
    else if negb (fd_type f =? 1) then Ret (-1, None)
    else
      match find (fun rf => bool_decide (DArc (f_off rf) = fd_data f) && (f_size rf =? fd_size f))
              (s_files s) with
      | None => Ret (-1, None)
      | Some rf =>
          (* [strcpy(path + 1, rf->name)] into the 63 bytes that are left *)
          name ← copy_name 63 (f_name rf);
          '(r, st) ← ramfs_stat pid (ch "/" :: name) s; Ret (r, Some st)
      end.

Definition fs_access (path : list Z) (mode : Z) (s : sys) : run Z :=
  dir ← ramfs_dir_exists (s_files s) path;
  if (dir : bool) then Ret 0
  else if is_procfs path then e ← procfs_exists path; Ret (if (e : bool) then 0 else -1)
  else Ret (match ramfs_lookup (s_files s) path with Some _ => 0 | None => -1 end).

(** ** Directories *)

Definition XKERN_DT_REG : Z := 1.
Definition XKERN_DT_DIR : Z := 2.

(** The text before the first slash, and [strchr(s, '/') != 0]. *)
Fixpoint upto_slash (s : list Z) : list Z :=
  match s with
  | c :: s => if c =? ch "/" then [] else c :: upto_slash s
  | [] => []
  end.
Definition has_slash (s : list Z) : bool := existsb (Z.eqb (ch "/")) s.

Definition child_of (prefix name : list Z) : option (list Z) :=
  if has_prefix prefix name then Some (drop (length prefix) name) else None.

(** The inner loop: an earlier file with the same component. *)
Definition dup_of (prefix child : list Z) (f : ramfs_file) : bool :=
  match child_of prefix (f_name f) with
  | None => false
  | Some cm =>
      let len := length (upto_slash child) in
      (length (upto_slash cm) =? len)%nat && bool_decide (take len cm = take len child)
  end.

(** [memcpy(name, child, len); name[len] = 0] after [len] has been cut to
    [namelen - 1]: what [name] holds. *)
Definition put_name (namelen : Z) (name : list Z) : run (list Z) :=
  if namelen =? 0 then Fault
  else Ret (take (Z.to_nat (namelen - 1)) name).

(** The outer loop; [before] are the files already passed.  The return value
    and the name. *)
Fixpoint dir_scan (prefix : list Z) (want namelen seen : Z) (before fs : ramfs)
    : run (Z * list Z) :=
  match fs with
  | [] => Ret (0, [])
  | f :: fs =>
      let next seen := dir_scan prefix want namelen seen (before ++ [f]) fs in
      match child_of prefix (f_name f) with
      | None => next seen
      | Some [] => next seen
      | Some child =>
          if existsb (dup_of prefix child) before then next seen
          else
            let seen := u32 (seen + 1) in
            if seen =? want then
              name ← put_name namelen (upto_slash child);
              Ret (if has_slash child then XKERN_DT_DIR else XKERN_DT_REG, name)
            else next seen
      end
  end.

Definition dir_child (fs : ramfs) (dir : list Z) (index namelen : Z) : run (Z * list Z) :=
  let dir := skip_slash dir in
  if bool_decide (dir = []) then dir_scan [] (u32 (index + 1)) namelen 0 [] fs
  else if RAMFS_NAME_MAX <=? Z.of_nat (length dir) then Ret (0, [])
  else dir_scan (dir ++ [ch "/"]) (u32 (index + 1)) namelen 0 [] fs.

(** [path] starts with "proc", see [is_procfs]. *)
Definition procfs_child (tasks : list task) (path : list Z) (index namelen : Z)
    : run (Z * list Z) :=
  let p := drop 4 (skip_slash path) in
  if bool_decide (p = []) || (Float.peek p =? ch "/") then
    let p := tail p in
    if bool_decide (p = []) then
      match tasks !! Z.to_nat index with
      | None => Ret (0, [])
      | Some t =>
          '(tmp, n) ← snprintf (replicate 16 0) 16 (str "%u") [AWord (t_pid t)];
          name ← put_name namelen (take (Z.to_nat n) tmp);
          Ret (XKERN_DT_DIR, name)
      end
    else
      '(_, e) ← pid_digits 0 p;
      if bool_decide (e = p) || negb (Float.peek e =? ch "/") then Ret (0, [])
      else if negb (bool_decide (tail e = str "status")) then Ret (0, [])
      else if index =? 0 then
        if namelen <? 7 then Ret (0, []) else Ret (XKERN_DT_REG, str "status")
      else Ret (0, [])
  else Ret (0, []).

Definition fs_getdents (path : list Z) (index namelen : Z) (s : sys) : run (Z * list Z) :=
  if is_procfs path then procfs_child (s_tasks s) path index namelen
  else dir_child (s_files s) path index namelen.

(** ** Argument vectors *)

Definition FS_MAX_ARGS : Z := 32.
Definition FS_MAX_TOK : Z := 255.
Definition ARGV_BASE : Z := 0x08100000.

Definition blank (c : Z) : bool := (c =? ch " ") || (c =? 9) || (c =? 10).

Fixpoint skip_blank (p : list Z) : list Z :=
  match p with
  | c :: p' => if blank c then skip_blank p' else p
  | [] => []
  end.

Definition APOS : Z := 39.
Definition QUOT : Z := 34.

(** [if (wlen < FS_MAX_TOK - 1) toks[argc][wlen++] = c;] *)
Definition push (w : list Z) (c : Z) : list Z :=
  if Z.of_nat (length w) <? FS_MAX_TOK - 1 then w ++ [c] else w.

(** The inner loop: the word and what is left of the line. *)
Fixpoint word (in_single in_double : bool) (w p : list Z) : list Z * list Z :=
  match p with
  | [] => (w, [])
  | c :: p' =>
      if in_single || in_double || negb (blank c) then
        if in_single then
          if c =? APOS then word false in_double w p' else word true in_double (push w c) p'
        else if in_double then
          if c =? QUOT then word false false w p' else word false true (push w c) p'
        else if c =? APOS then word true false w p'
        else if c =? QUOT then word false true w p'
        else word false false (push w c) p'
      else (w, p)
  end.

(** The outer loop, from [argc] words on. *)
Fixpoint tokens (fuel : nat) (argc : Z) (p : list Z) : run (list (list Z)) :=
  match fuel with
  | O => Spin
  | S fuel =>
      if bool_decide (p = []) || (FS_MAX_ARGS <=? argc) then Ret []
      else
        let p := skip_blank p in
        if bool_decide (p = []) then Ret []
        else
          let '(w, p) := word false false [] p in
          ws ← tokens fuel (argc + 1) p; Ret (w :: ws)
  end.

(** [None] is the null pointer.  Every round takes at least one character. *)
Definition tokenize (argline : option (list Z)) : run (list (list Z)) :=
  match argline with
  | None => Ret []
  | Some p => tokens (S (length p)) 0 p
  end.

Fixpoint sum_lengths (ws : list (list Z)) : Z :=
  match ws with
  | w :: ws => Z.of_nat (length w) + 1 + sum_lengths ws
  | [] => 0
  end.

Section Argv.
Context {A : Type} `{!FrameAllocator A}.

(** The last loop: [arr[i] = (u64)s; memcpy(s, tp[i], l); s += l;] *)
Fixpoint put_args (i s : Z) (ws : list (list Z)) (m : space A) : run (space A) :=
  match ws with
  | w :: ws =>
      m ← user_bytes (ARGV_BASE + 8 * i) (le_bytes 8 s) m;
      m ← user_bytes s (w ++ [0]) m;
      put_args (i + 1) (s + (Z.of_nat (length w) + 1)) ws m
  | [] => Ret m
  end.

Definition set_cr3 (c : Z) (m : space A) : space A :=
  mkSpace (mkVm (mem (machine m)) (alloc (machine m)) c) (bytes m).

(** [None]: the code returns 0 and [*argc_out] is not written; otherwise it
    returns [ARGV_BASE] and stores the number of arguments. *)
Definition task_build_argv (t : task) (argline : option (list Z)) (m : space A)
    : run (option Z * space A) :=
  toks ← tokenize argline;
  let ws := if bool_decide (toks = []) then [ch "/" :: t_name t] else toks in
  let argc := Z.of_nat (length ws) in
  let need := (argc + 1) * 8 + sum_lengths ws in
  if 0x00100000 <? need then Ret (None, m)
  else
    let old_cr3 := cr3 (machine m) in
    let m := set_cr3 (t_cr3 t) m in
    '(ok, v) ← map_pages PAGE_WRITE (page_down ARGV_BASE) (ARGV_BASE + need) (machine m);
    let m := mkSpace v (bytes m) in
    if negb ok then Ret (None, set_cr3 old_cr3 m)
    else
      m ← put_args 0 (ARGV_BASE + (argc + 1) * 8) ws m;
      m ← user_bytes (ARGV_BASE + 8 * argc) (le_bytes 8 0) m;
      Ret (Some argc, set_cr3 old_cr3 m).

End Argv.

(** ** Memory safety of descriptors *)

(** [size] bytes from [d] on can be read. *)
Definition data_ok (s : sys) (d : dptr) (size : Z) : Prop :=
  match d with
  | DNull => False
  | DArc off => 0 <= off /\ off + size <= Z.of_nat (length (s_arc s))
  | DProc k => exists t, s_tasks s !! k = Some t /\ size <= Z.of_nat (length (t_procbuf t))
  end.

Definition fd_ok (s : sys) (f : xkern_fd) : Prop :=
  0 <= fd_pos f < 2 ^ 32 /\ 0 <= fd_size f < 2 ^ 32 /\
  (fd_type f = 1 -> data_ok s (fd_data f) (fd_size f)).

Definition task_ok (s : sys) (t : task) : Prop :=
  length (t_fd t) = 16%nat /\ Forall (fd_ok s) (t_fd t) /\
  length (t_procbuf t) = PROCBUF /\ 0 ∈ t_procbuf t.

Definition file_ok (s : sys) (f : ramfs_file) : Prop :=
  0 <= f_off f /\ 0 <= f_size f < 2 ^ 32 /\ f_off f + f_size f <= Z.of_nat (length (s_arc s)).

Definition fs_ok (s : sys) : Prop :=
  Forall (task_ok s) (s_tasks s) /\ Forall (file_ok s) (s_files s).

(** The data a descriptor refers to survives a change of the tasks' tables. *)
Lemma data_ok_put s pid t fds d n :
  s_tasks s !! pid = Some t -> data_ok s d n -> data_ok (put_task pid (set_fds fds t) s) d n.
Proof.
  intros Ht. destruct d as [|off|k]; cbn; [done..|]. intros (u & Hu & Hn).
  destruct (decide (k = pid)) as [->|Hne].
  - exists (set_fds fds t). rewrite list_lookup_insert_eq by (by eapply lookup_lt_Some).
    simplify_eq. done.
  - exists u. rewrite list_lookup_insert_ne by done. done.
Qed.

Lemma fd_ok_put s pid t fds f :
  s_tasks s !! pid = Some t -> fd_ok s f -> fd_ok (put_task pid (set_fds fds t) s) f.
Proof. intros Ht (? & ? & Hd). split_and!; [lia..|]. intros Hty. by apply data_ok_put, Hd. Qed.

(** Storing a good descriptor keeps the whole state good. *)
Lemma fs_ok_put_fd s pid t fd f :
  fs_ok s -> s_tasks s !! pid = Some t -> fd_ok s f ->
  fs_ok (put_task pid (put_fd fd f t) s).
Proof.
  intros [Hts Hfs] Ht Hf. unfold put_fd. set (fds := <[_ := f]> (t_fd t)).
  assert (Hkeep : forall u, task_ok s u -> task_ok (put_task pid (set_fds fds t) s) u).
  { intros u (H16 & Hfds & Hb & H0). split_and!; [done| |done..].
    eapply Forall_impl; [exact Hfds|]. intros g Hg. by apply fd_ok_put. }
  split; [|done]. cbn [put_task s_tasks]. apply Forall_insert.
  - eapply Forall_impl; [exact Hts|]. exact Hkeep.
  - destruct (proj1 (Forall_lookup _ _) Hts pid t Ht) as (H16 & Hfds & Hb & H0).
    split_and!; [subst fds; cbn; by rewrite length_insert| |done..].
    cbn [set_fds t_fd]. subst fds. apply Forall_insert; [|by apply fd_ok_put].
    eapply Forall_impl; [exact Hfds|]. intros g Hg. by apply fd_ok_put.
Qed.

(** The bytes a descriptor's data pointer stands for. *)
Definition contents (s : sys) (f : xkern_fd) : list Z :=
  match fd_data f with
  | DNull => []
  | DArc off => take (Z.to_nat (fd_size f)) (drop (Z.to_nat off) (s_arc s))
  | DProc k => match s_tasks s !! k with
               | Some t => take (Z.to_nat (fd_size f)) (t_procbuf t)
               | None => []
               end
  end.

Lemma data_bytes_ok s f pos n :
  data_ok s (fd_data f) (fd_size f) -> 0 <= pos -> pos + Z.of_nat n <= fd_size f ->
  data_bytes s (fd_data f) pos n = Ret (take n (drop (Z.to_nat pos) (contents s f))).
Proof.
  assert (Htd : forall (l : list Z) p k m, (p + k <= m)%nat ->
    take k (drop p (take m l)) = take k (drop p l)).
  { intros l p k m Hle. rewrite skipn_firstn_comm, take_take. f_equal. lia. }
  intros Hd Hp Hn. unfold data_bytes, contents. destruct (fd_data f) as [|off|k]; [done|..].
  - destruct Hd as [Ho Hl]. rewrite bytes_at_ok, Htd by lia. rewrite drop_drop.
    do 2 f_equal. f_equal. lia.
  - destruct Hd as (t & Ht & Hl). unfold the_task. rewrite Ht. cbn [of_option].
    rewrite bind_ret, bytes_at_ok, Htd by lia. done.
Qed.

Lemma get_fd_ok s t fd :
  task_ok s t -> 0 <= fd < XKERN_MAX_FDS ->
  exists f, get_fd t fd = Ret f /\ fd_ok s f /\ t_fd t !! Z.to_nat fd = Some f.
Proof.
  intros (H16 & Hfds & _) Hfd. unfold get_fd, XKERN_MAX_FDS in *.
  destruct (lookup_lt_is_Some_2 (t_fd t) (Z.to_nat fd)) as [f Hf]; [lia|].
  exists f. rewrite Hf. split_and!; [done| |done]. by eapply Forall_lookup.
Qed.

Lemma first_free_spec i fds :
  0 <= i -> let r := first_free i fds in
  r = -1 \/ (i <= r < i + Z.of_nat (length fds) /\
    exists f, fds !! Z.to_nat (r - i) = Some f /\ fd_type f = 0).
Proof.
  revert i. induction fds as [|f fds IH]; intros i Hi; cbn [first_free length]; [by left|].
  destruct (Z.eqb_spec (fd_type f) 0).
  - right. split; [lia|]. exists f. by rewrite Z.sub_diag.
  - destruct (IH (i + 1)) as [->|(Hr & g & Hg & ?)]; [lia|by left|right].
    split; [lia|]. exists g. split; [|done].
    replace (Z.to_nat (first_free (i + 1) fds - i))
      with (S (Z.to_nat (first_free (i + 1) fds - (i + 1)))) by lia. done.
Qed.

Lemma fs_alloc_fd_spec t :
  length (t_fd t) = 16%nat ->
  fs_alloc_fd t = -1 \/ (3 <= fs_alloc_fd t < 16 /\
    exists f, t_fd t !! Z.to_nat (fs_alloc_fd t) = Some f /\ fd_type f = 0).
Proof.
  intros H16. unfold fs_alloc_fd.
  destruct (first_free_spec 3 (drop 3 (t_fd t))) as [->|(Hr & f & Hf & ?)]; [lia|by left|right].
  rewrite length_drop, H16 in Hr. split; [lia|]. exists f. split; [|done].
  rewrite lookup_drop in Hf.
  by replace (3 + Z.to_nat (first_free 3 (drop 3 (t_fd t)) - 3))%nat
    with (Z.to_nat (first_free 3 (drop 3 (t_fd t)))) in Hf by lia.
Qed.

Lemma buf_strlen_ok b :
  0 ∈ b -> exists n, buf_strlen b = Ret n /\ 0 <= n < Z.of_nat (length b).
Proof.
  induction b as [|c b IH]; [by intros ?%elem_of_nil|]. intros H0. cbn [buf_strlen length].
  destruct (Z.eqb_spec c 0) as [|Hc]; [exists 0; split; [done|lia]|].
  apply elem_of_cons in H0 as [?|H0]; [congruence|]. destruct (IH H0) as (n & -> & ?).
  exists (n + 1). split; [done|lia].
Qed.

(** One call of the file layer. *)
Inductive fcall :=
  | FOpen (path : list Z) (flags : Z)
  | FClose (fd : Z)
  | FRead (fd n : Z)
  | FWrite (fd : Z) (bs : list Z)
  | FLseek (fd off whence : Z)
  | FStat (path : list Z)
  | FFstat (fd : Z)
  | FAccess (path : list Z) (mode : Z)
  | FGetdents (path : list Z) (index namelen : Z).

(** The value returned and the bytes that reach the caller. *)
Definition fcall_run (pid : nat) (c : fcall) (s : sys) : run (Z * list Z * sys) :=
  match c with
  | FOpen path flags => '(r, s) ← fs_open pid path flags s; Ret (r, [], s)
  | FClose fd => '(r, s) ← fs_close pid fd s; Ret (r, [], s)
  | FRead fd n => fs_read pid fd n s
  | FWrite fd bs => '(r, _) ← fs_write pid fd bs s; Ret (r, [], s)
  | FLseek fd off whence => '(r, s) ← fs_lseek pid fd off whence s; Ret (r, [], s)
  | FStat path => '(r, _) ← fs_stat pid path s; Ret (r, [], s)
  | FFstat fd => '(r, _) ← fs_fstat pid fd s; Ret (r, [], s)
  | FAccess path mode => r ← fs_access path mode s; Ret (r, [], s)
  | FGetdents path index namelen => '(r, name) ← fs_getdents path index namelen s; Ret (r, name, s)
  end.

(** How many digits a text starts with, and a path whose number behind /proc has
    at most nine: more overflow an [int] (see [proc_number_overflows]). *)
Fixpoint digits (s : list Z) : nat := match s with c :: s => if Float.is_dec c then S (digits s) else 0 | [] => 0 end.
Definition number_ok (path : list Z) : Prop := (digits (tail (drop 4 (skip_slash path))) <= 9)%nat.

(** Arguments as wide as their parameters; numbers of tasks that fit; for
    [fs_fstat], the names that [ramfs_add] can have stored; for [fs_getdents],
    room for the terminator. *)
Definition fcall_ok (s : sys) (c : fcall) : Prop :=
  match c with
  | FRead _ n => 0 <= n < 2 ^ 32
  | FLseek _ off _ => 0 <= off < 2 ^ 32
  | FStat path | FAccess path _ => number_ok path
  | FFstat _ => Forall (fun f => (length (f_name f) < 63)%nat /\ number_ok (f_name f)) (s_files s)
  | FGetdents path index namelen => number_ok path /\ 0 <= index < 2 ^ 32 /\ 0 < namelen < 2 ^ 32
  | _ => True
  end.

Lemma the_task_ok s pid t : s_tasks s !! pid = Some t -> the_task pid s = Ret t.
Proof. unfold the_task. by intros ->. Qed.

Ltac fd_range fd :=
  destruct ((fd <? 0) || (XKERN_MAX_FDS <=? fd)) eqn:?;
  [|assert (0 <= fd < XKERN_MAX_FDS) by lia].

(** Only the descriptor tables may differ. *)
Definition only_fds (s s' : sys) : Prop :=
  (set_fds [] <$> s_tasks s') = (set_fds [] <$> s_tasks s) /\
  s_files s' = s_files s /\ s_arc s' = s_arc s.

Lemma only_fds_refl s : only_fds s s.
Proof. done. Qed.

Lemma only_fds_put s pid t fd f :
  s_tasks s !! pid = Some t -> only_fds s (put_task pid (put_fd fd f t) s).
Proof.
  intros Ht. split; [|done]. cbn. rewrite list_fmap_insert. apply list_insert_id.
  by rewrite list_lookup_fmap, Ht.
Qed.

Lemma procfs_read_ok s t path :
  task_ok s t -> exists n, procfs_read s path (t_procbuf t) = Ret n /\ n < 1024.
Proof.
  intros (_ & _ & Hl & H0). unfold procfs_read. unfold PROCBUF in Hl.
  case_bool_decide; [|exists (-1); split; [done|lia]].
  destruct (s_tasks s !! 1%nat); [|exists (-1); split; [done|lia]].
  destruct (buf_strlen_ok _ H0) as (n & -> & ?). exists n. split; [done|lia].
Qed.

(** A descriptor table full, or a free slot filled. *)
Lemma open_slot_ok s pid t f :
  fs_ok s -> s_tasks s !! pid = Some t -> fd_ok s f ->
  exists r s', (let fd := fs_alloc_fd t in
      if fd <? 0 then Ret (-1, s) else Ret (fd, put_task pid (put_fd fd f t) s)) = Ret (r, s') /\
    fs_ok s' /\ only_fds s s'.
Proof.
  intros Hok Ht Hf. cbn zeta. destruct (fs_alloc_fd t <? 0); [eauto 8 using only_fds_refl|].
  do 2 eexists. split_and!; [done| |by apply only_fds_put]. by apply fs_ok_put_fd.
Qed.

Lemma fs_open_ok s pid t path flags :
  fs_ok s -> s_tasks s !! pid = Some t ->
  exists r s', fs_open pid path flags s = Ret (r, s') /\ fs_ok s' /\
    only_fds s s'.
Proof.
  intros Hok Ht. assert (Htk : task_ok s t) by (by eapply Forall_lookup_1; [apply Hok|]).
  unfold fs_open. rewrite (the_task_ok _ _ _ Ht), bind_ret. destruct (is_procfs path).
  - destruct (procfs_read_ok s t path Htk) as (n & -> & Hn). rewrite bind_ret.
    destruct (Z.ltb_spec n 0); [eauto 8 using only_fds_refl|]. apply open_slot_ok; [done..|].
    rewrite u32_small by lia. split_and!; cbn; try lia. intros _. exists t.
    destruct Htk as (_ & _ & -> & _). split; [done|]. unfold PROCBUF. lia.
  - pose proof (find_file_spec (s_files s) (skip_slash path)) as Hff. unfold ramfs_lookup.
    destruct (find_file (s_files s) (skip_slash path)) as [i|]; [|eauto 8 using only_fds_refl].
    destruct Hff as (f & Hf & _). rewrite Hf. cbn [of_option]. rewrite bind_ret.
    assert (file_ok s f) as (? & ? & ?) by (eapply Forall_lookup_1; [apply Hok|done]).
    apply open_slot_ok; [done..|]. split_and!; cbn; lia || done.
Qed.

Lemma fs_close_ok s pid t fd :
  fs_ok s -> s_tasks s !! pid = Some t ->
  exists r s', fs_close pid fd s = Ret (r, s') /\ fs_ok s' /\
    only_fds s s'.
Proof.
  intros Hok Ht. assert (Htk : task_ok s t) by (by eapply Forall_lookup_1; [apply Hok|]).
  unfold fs_close. fd_range fd; [eauto 8 using only_fds_refl|]. destruct (fd <? 3); [eauto 8 using only_fds_refl|].
  rewrite (the_task_ok _ _ _ Ht), bind_ret.
  destruct (get_fd_ok s t fd Htk) as (f & -> & (? & ? & _) & _); [done|]. rewrite bind_ret.
  do 2 eexists. split_and!; [done| |by apply only_fds_put].
  apply fs_ok_put_fd; [done..|]. split_and!; cbn; lia || discriminate.
Qed.

Lemma fs_lseek_ok s pid t fd off whence :
  fs_ok s -> s_tasks s !! pid = Some t -> 0 <= off < 2 ^ 32 ->
  exists r s', fs_lseek pid fd off whence s = Ret (r, s') /\ fs_ok s' /\
    only_fds s s'.
Proof.
  intros Hok Ht Hoff. assert (Htk : task_ok s t) by (by eapply Forall_lookup_1; [apply Hok|]).
  unfold fs_lseek. fd_range fd; [eauto 8 using only_fds_refl|]. rewrite (the_task_ok _ _ _ Ht), bind_ret.
  destruct (get_fd_ok s t fd Htk) as (f & -> & (? & ? & Hd) & _); [done|]. rewrite bind_ret.
  destruct (Z.eqb_spec (fd_type f) 1) as [Hty|]; cbn [negb]; [|eauto 8 using only_fds_refl]. cbn zeta.
  assert (Hset : forall p, 0 <= p < 2 ^ 32 -> exists r s',
    Ret (s32 p, put_task pid (put_fd fd (mkFd 1 (fd_data f) (fd_size f) p) t) s) = Ret (r, s') /\
    fs_ok s' /\ only_fds s s').
  { intros p Hp. do 2 eexists. split_and!; [done| |by apply only_fds_put].
    apply fs_ok_put_fd; [done..|]. split_and!; cbn; try lia. intros _. auto. }
  destruct (whence =? 0); [by apply Hset|]. destruct (whence =? 1); [apply Hset, u32_range|].
  destruct (whence =? 2); [apply Hset, u32_range|]. eauto 8 using only_fds_refl.
Qed.

(** What [fs_read] does on a file descriptor. *)
Definition got (s : sys) (f : xkern_fd) (n : Z) : list Z :=
  take (Z.to_nat n) (drop (Z.to_nat (fd_pos f)) (contents s f)).

Lemma length_contents s f :
  0 <= fd_size f -> data_ok s (fd_data f) (fd_size f) ->
  Z.of_nat (length (contents s f)) = fd_size f.
Proof.
  unfold contents, data_ok. intros Hs. destruct (fd_data f) as [|off|k]; [done|..].
  - intros [? ?]. rewrite length_take, length_drop. lia.
  - intros (t & -> & ?). rewrite length_take. lia.
Qed.

Lemma fs_read_spec s pid t fd f n :
  fs_ok s -> s_tasks s !! pid = Some t -> 0 <= fd < XKERN_MAX_FDS -> 0 <= n < 2 ^ 32 ->
  t_fd t !! Z.to_nat fd = Some f -> fd_type f = 1 ->
  fs_read pid fd n s = Ret (s32 (Z.of_nat (length (got s f n))), got s f n,
    put_task pid (put_fd fd (mkFd 1 (fd_data f) (fd_size f)
      (fd_pos f + Z.of_nat (length (got s f n)))) t) s).
Proof.
  intros Hok Ht Hfd Hn Hf Hty.
  assert (Htk : task_ok s t) by (by eapply Forall_lookup_1; [apply Hok|]).
  destruct (get_fd_ok s t fd Htk Hfd) as (f' & Hget & (Hp & Hs & Hd) & Hf'). simplify_eq.
  specialize (Hd Hty). pose proof (length_contents s f ltac:(lia) Hd) as Hlen.
  unfold fs_read. replace ((fd <? 0) || (XKERN_MAX_FDS <=? fd)) with false by lia.
  rewrite (the_task_ok _ _ _ Ht), bind_ret, Hget, bind_ret, Hty. cbn [Z.eqb negb Pos.eqb].
  unfold got. destruct (Z.leb_spec (fd_size f) (fd_pos f)) as [Hge|Hlt].
  - rewrite drop_ge, take_nil by lia. cbn [length]. change (s32 (Z.of_nat 0)) with 0.
    do 2 f_equal. rewrite Z.add_0_r.
    assert (mkFd 1 (fd_data f) (fd_size f) (fd_pos f) = f) as -> by (destruct f; cbn in *; congruence).
    unfold put_task, put_fd. rewrite (list_insert_id (t_fd t)) by done.
    assert (set_fds (t_fd t) t = t) as -> by (by destruct t).
    rewrite list_insert_id by done. by destruct s.
  - set (k := if fd_size f - fd_pos f <? n then fd_size f - fd_pos f else n).
    assert (Hk : k = Z.min n (fd_size f - fd_pos f)) by (subst k; destruct (Z.ltb_spec (fd_size f - fd_pos f) n); lia).
    rewrite data_bytes_ok by (done || lia). rewrite bind_ret.
    assert (take (Z.to_nat n) (drop (Z.to_nat (fd_pos f)) (contents s f)) =
            take (Z.to_nat k) (drop (Z.to_nat (fd_pos f)) (contents s f))) as ->.
    { destruct (Z.le_gt_cases n (fd_size f - fd_pos f)); [f_equal; lia|].
      rewrite !take_ge by (rewrite length_drop; lia). done. }
    rewrite length_take, length_drop, Nat.min_l, Z2Nat.id by lia.
    by rewrite u32_small by lia.
Qed.

(** ** Status and directories *)

Lemma pid_digits_ok (k : nat) v s : 0 <= v < 10 ^ Z.of_nat k -> (k + digits s <= 9)%nat -> exists r e, pid_digits v s = Ret (r, e).
Proof.
  revert k v. induction s as [|c s IH]; intros k v Hv Hk; cbn [pid_digits digits] in *; [by eauto|]. destruct (Float.is_dec c) eqn:Ec; [|by eauto].
  assert (0 <= c - ch "0" < 10) as Hc by (unfold Float.is_dec in Ec; change (ch "0") with 48 in *; change (ch "9") with 57 in *; lia).
  assert (10 ^ Z.of_nat (S k) = 10 * 10 ^ Z.of_nat k) as Ep by (rewrite Nat2Z.inj_succ, Z.pow_succ_r by lia; done).
  assert (10 ^ Z.of_nat (S k) <= 10 ^ 9) as Hp by (apply Z.pow_le_mono_r; lia). change (10 ^ 9) with 1000000000 in Hp.
  rewrite int32_ok, bind_ret, int32_ok, bind_ret by lia. apply (IH (S k)); lia.
Qed.

Lemma number_digits path : number_ok path -> exists r e, pid_digits 0 (tail (drop 4 (skip_slash path))) = Ret (r, e).
Proof. intros H. apply (pid_digits_ok 0); [cbn; lia|exact H]. Qed.

Lemma is_file_ok path : number_ok path -> exists b, procfs_is_file path = Ret b.
Proof.
  intros (r & e & E)%number_digits. unfold procfs_is_file, parse_pid. destruct (negb _); [by eauto|]. rewrite E, !bind_ret.
  destruct (_ || _); [by eauto|]. destruct (_ <=? _); eauto.
Qed.

Lemma exists_ok path : number_ok path -> exists b, procfs_exists path = Ret b.
Proof.
  intros (r & e & E)%number_digits. unfold procfs_exists, parse_pid. destruct (negb _); [by eauto|]. destruct (bool_decide _); [by eauto|]. destruct (negb _); [by eauto|].
  destruct (bool_decide _); [by eauto|]. rewrite E, !bind_ret. destruct (_ || _); [by eauto|]. destruct (bool_decide _); [by eauto|]. destruct (negb _); eauto.
Qed.

Lemma dir_exists_ok fs path : number_ok path -> exists b, ramfs_dir_exists fs path = Ret b.
Proof.
  intros Hn. unfold ramfs_dir_exists. destruct (path_is_dir path); [by eauto|]. destruct (is_procfs path).
  - destruct (is_file_ok path Hn) as [b ->]. rewrite bind_ret. eauto.
  - destruct (bool_decide _); [by eauto|]. destruct (_ <=? _); eauto.
Qed.

Lemma ramfs_stat_ok s pid t path : fs_ok s -> s_tasks s !! pid = Some t -> number_ok path -> exists r st, ramfs_stat pid path s = Ret (r, st).
Proof.
  intros Hok Ht Hn. assert (Htk : task_ok s t) by (by eapply Forall_lookup_1; [apply Hok|]). unfold ramfs_stat.
  destruct (dir_exists_ok (s_files s) path Hn) as [[] ->]; rewrite bind_ret; [by eauto|]. destruct (is_procfs path).
  - rewrite (the_task_ok _ _ _ Ht), bind_ret. destruct (procfs_read_ok s t path Htk) as (n & -> & _). rewrite bind_ret. destruct (n <? 0); eauto.
  - pose proof (find_file_spec (s_files s) (skip_slash path)) as Hff. unfold ramfs_lookup. destruct (find_file _ _) as [i|]; [|by eauto]. destruct Hff as (f & -> & _). cbn [of_option]. rewrite bind_ret. eauto.
Qed.

Lemma fs_fstat_ok s pid t fd :
  fs_ok s -> s_tasks s !! pid = Some t -> Forall (fun f => (length (f_name f) < 63)%nat /\ number_ok (f_name f)) (s_files s) -> exists r st, fs_fstat pid fd s = Ret (r, st).
Proof.
  intros Hok Ht Hn. assert (Htk : task_ok s t) by (by eapply Forall_lookup_1; [apply Hok|]). unfold fs_fstat. fd_range fd; [by eauto|]. rewrite (the_task_ok _ _ _ Ht), bind_ret.
  destruct (get_fd_ok s t fd Htk) as (f & -> & _); [done|]. rewrite bind_ret. destruct (fd_type f =? 2); [by eauto|]. destruct (negb _); [by eauto|]. destruct (find _ _) as [rf|] eqn:E; [|by eauto].
  apply find_some in E as [Hin%list_elem_of_In _]. rewrite Forall_forall in Hn. destruct (Hn rf Hin) as [Hl Hd]. unfold copy_name. rewrite (proj2 (Z.ltb_lt _ 63)) by lia. rewrite bind_ret.
  destruct (ramfs_stat_ok s pid t (ch "/" :: f_name rf) Hok Ht) as (r & st & ->); [exact Hd|]. rewrite bind_ret. eauto.
Qed.

Lemma fs_access_ok s path mode : number_ok path -> exists r, fs_access path mode s = Ret r.
Proof.
  intros Hn. unfold fs_access. destruct (dir_exists_ok (s_files s) path Hn) as [[] ->]; rewrite bind_ret; [by eauto|]. destruct (is_procfs path); [|by eauto].
  destruct (exists_ok path Hn) as [e ->]. rewrite bind_ret. eauto.
Qed.

(** A name that was handed over fits, with its terminator. *)
Definition named (namelen : Z) (r : run (Z * list Z)) : Prop := exists k name, r = Ret (k, name) /\ Z.of_nat (length name) < namelen.

Lemma named_nothing namelen k : 0 < namelen -> named namelen (Ret (k, [])).
Proof. intros. by eexists _, []. Qed.

Lemma put_name_ok namelen name k : 0 < namelen -> named namelen (n ← put_name namelen name; Ret (k, n)).
Proof. intros H. unfold put_name. rewrite (proj2 (Z.eqb_neq namelen 0)), bind_ret by lia. eexists _, _. split; [done|]. rewrite length_take. lia. Qed.

Lemma dir_scan_ok prefix want namelen seen before fs : 0 < namelen -> named namelen (dir_scan prefix want namelen seen before fs).
Proof.
  intros H. revert seen before. induction fs as [|f fs IH]; intros seen before; cbn [dir_scan]; [by apply named_nothing|].
  destruct (child_of prefix (f_name f)) as [[|c child]|]; [by apply IH| |by apply IH]. destruct (existsb _ _); [by apply IH|]. destruct (_ =? _); [by apply put_name_ok|by apply IH].
Qed.

(** A task's number is printed. *)
Lemma print_pid v : exists b n, snprintf (replicate 16 0) 16 (str "%u") [AWord v] = Ret (b, n).
Proof.
  unfold snprintf. rewrite (vsnprintf_buf 16 (str "%u") [AWord v] (num_text 10 (u32 v) false false 0 false)); [rewrite bind_ret; eauto| |lia|done].
  intros n o. change (format (S (length (str "%u"))) n (str "%u") [AWord v] o) with ('(o, ap) ← (o ← print_num64 n (u32 v) 10 false false 0 false o; Ret (o, @nil arg)); Ret o).
  rewrite print_num64_text by (pose proof (u32_range v); lia). by destruct (print_bytes _ _ o).
Qed.

Lemma procfs_child_ok tasks path index namelen : number_ok path -> 0 < namelen -> named namelen (procfs_child tasks path index namelen).
Proof.
  intros (r & e & E)%number_digits Hn. unfold procfs_child. destruct (_ || _); [|by apply named_nothing]. destruct (bool_decide _).
  - destruct (tasks !! _) as [t|]; [|by apply named_nothing]. destruct (print_pid (t_pid t)) as (b & n & ->). rewrite bind_ret. by apply put_name_ok.
  - rewrite E, bind_ret. destruct (_ || _); [by apply named_nothing|]. destruct (negb _); [by apply named_nothing|]. destruct (index =? 0); [|by apply named_nothing].
    destruct (Z.ltb_spec namelen 7); [by apply named_nothing|]. eexists _, _. split; [done|]. change (Z.of_nat (length (str "status"))) with 6. lia.
Qed.

Lemma getdents_ok path index namelen s : number_ok path -> 0 < namelen -> named namelen (fs_getdents path index namelen s).
Proof.
  intros Hd Hn. unfold fs_getdents. destruct (is_procfs path); [by apply procfs_child_ok|]. unfold dir_child. destruct (bool_decide _); [by apply dir_scan_ok|]. destruct (_ <=? _); [by apply named_nothing|by apply dir_scan_ok].
Qed.

(** Close a call that hands over nothing. *)
Ltac call_done := do 3 eexists; split_and!; [done..|by intros ?? [=]|by intros ??? [=]].

Lemma fcall_safe s pid t c :
  fs_ok s -> s_tasks s !! pid = Some t -> fcall_ok s c ->
  exists r bs s', fcall_run pid c s = Ret (r, bs, s') /\ fs_ok s' /\
    only_fds s s' /\
    (forall fd n, c = FRead fd n -> Z.of_nat (length bs) <= n) /\
    (forall path index namelen, c = FGetdents path index namelen -> Z.of_nat (length bs) < namelen).
Proof.
  intros Hok Ht Hc. destruct c as [path flags|fd|fd n|fd bs|fd off whence|path|fd|path mode|path index namelen]; cbn [fcall_run].
  - destruct (fs_open_ok s pid t path flags Hok Ht) as (r & s' & -> & ? & ?). call_done.
  - destruct (fs_close_ok s pid t fd Hok Ht) as (r & s' & -> & ? & ?). call_done.
  - cbn in Hc. assert (Htk : task_ok s t) by (by eapply Forall_lookup_1; [apply Hok|]).
    assert (Hnil : forall r : Z, exists r' (bs : list Z) s', Ret (r, [], s) = Ret (r', bs, s') /\ fs_ok s' /\
      only_fds s s' /\
      (forall fd' n', FRead fd n = FRead fd' n' -> Z.of_nat (length bs) <= n') /\
      (forall path index namelen, FRead fd n = FGetdents path index namelen -> Z.of_nat (length bs) < namelen)).
    { intros r. do 3 eexists. split_and!; [done..| |by intros ??? [=]]. intros ?? [= <- <-]. cbn. lia. }
    destruct (decide (0 <= fd < XKERN_MAX_FDS)) as [Hfd|Hfd].
    2: { unfold fs_read. replace ((fd <? 0) || (XKERN_MAX_FDS <=? fd)) with true by lia. apply Hnil. }
    destruct (get_fd_ok s t fd Htk Hfd) as (f & Hget & (Hp & Hs & Hd) & Hf).
    destruct (decide (fd_type f = 1)) as [Hty|Hty].
    + rewrite (fs_read_spec s pid t fd f n) by done. specialize (Hd Hty).
      pose proof (length_contents s f ltac:(lia) Hd). do 3 eexists. split_and!; [done| | | |by intros ??? [=]].
      * apply fs_ok_put_fd; [done..|]. unfold got. rewrite length_take, length_drop.
        split_and!; cbn [fd_pos fd_size fd_data]; lia || done.
      * by apply only_fds_put.
      * intros ?? [= <- <-]. unfold got. rewrite length_take. lia.
    + unfold fs_read. replace ((fd <? 0) || (XKERN_MAX_FDS <=? fd)) with false by lia.
      rewrite (the_task_ok _ _ _ Ht), bind_ret, Hget, bind_ret, (proj2 (Z.eqb_neq _ 1)) by done.
      destruct (fd_type f =? 2); apply Hnil.
  - unfold fs_write. fd_range fd; [call_done|]. rewrite (the_task_ok _ _ _ Ht), bind_ret.
    destruct (get_fd_ok s t fd) as (f & -> & _); [by eapply Forall_lookup_1; [apply Hok|]|done|].
    rewrite bind_ret. destruct (fd_type f =? 2); call_done.
  - destruct (fs_lseek_ok s pid t fd off whence Hok Ht Hc) as (r & s' & -> & ? & ?). call_done.
  - unfold fs_stat. destruct (ramfs_stat_ok s pid t path Hok Ht Hc) as (r & st & ->). rewrite bind_ret. call_done.
  - destruct (fs_fstat_ok s pid t fd Hok Ht Hc) as (r & st & ->). rewrite bind_ret. call_done.
  - destruct (fs_access_ok s path mode Hc) as (r & ->). rewrite bind_ret. call_done.
  - destruct Hc as (Hd & _ & Hn). destruct (getdents_ok path index namelen s Hd) as (r & name & -> & Hl); [lia|]. rewrite bind_ret.
    do 3 eexists. split_and!; [done..|by intros ?? [=]|]. by intros ??? [= <- <- <-].
Qed.


(** A machine with one file and two tasks, to run the calls on. *)
Definition demo_task (pid : Z) (name : string) : task :=
  fs_task_init (mkTask 0 0 pid (str name) 0 TASK_RUNNING 0 0 0 [] (replicate PROCBUF 0)).
Definition demo_sys : sys :=
  mkSys [demo_task 0 "idle"; demo_task 1 "init"]
    [mkFile (str "etc/rc") 4 7; mkFile (str "etc/motd") 12 2; mkFile (str "init") 0 4]
    (str "ELF.echo hi.ok").

Lemma demo_sys_ok : fs_ok demo_sys.
Proof.
  split.
  - repeat apply Forall_cons_2; try apply Forall_nil_2;
      (split_and!; [done| |done|by apply (bool_decide_unpack _)]); cbn;
      repeat apply Forall_cons_2; try apply Forall_nil_2; split_and!; cbn; lia || discriminate.
  - repeat apply Forall_cons_2; try apply Forall_nil_2; split_and!; vm_compute; lia || discriminate || done.
Qed.

(** The second task has the first file open. *)
Definition demo_open : sys := put_task 1 (put_fd 3 (mkFd 1 (DArc 4) 7 0) (demo_task 1 "init")) demo_sys.

Lemma demo_open_ok : fs_ok demo_open.
Proof. apply fs_ok_put_fd; [exact demo_sys_ok|done|]. split_and!; cbn; [lia|lia|lia|lia|]. intros _. vm_compute. split; discriminate. Qed.


(** What that read gives; a listing of the directory. *)
Lemma demo_calls :
  ('(r, bs, _) ← fcall_run 1 (FRead 3 5) demo_open; Ret (r, bs)) = Ret (5, str "echo ") /\
  ('(r, bs, _) ← fcall_run 1 (FGetdents (str "/etc") 1 4) demo_open; Ret (r, bs)) = Ret (1, str "mot").
Proof. by vm_compute. Qed.

(** For a buffer of no bytes the length of the name is cut to 0 - 1, which wraps
    to 2^32 - 1 bytes. *)
Lemma getdents_no_room : fs_getdents (str "/etc") 0 0 demo_sys = Fault.
Proof. by vm_compute. Qed.

(** A number of ten digits behind /proc overflows the [int] it is read into. *)
Lemma proc_number_overflows : fs_access (str "/proc/2147483648") 0 demo_sys = Fault.
Proof. by vm_compute. Qed.

(** ** Reading a file *)

(** Reads of [ns] bytes one after the other: all that was read. *)
Fixpoint read_seq (pid : nat) (fd : Z) (ns : list Z) (s : sys) : run (list Z * sys) :=
  match ns with
  | n :: ns => '(_, bs, s) ← fs_read pid fd n s; '(rest, s) ← read_seq pid fd ns s; Ret (bs ++ rest, s)
  | [] => Ret ([], s)
  end.

Definition file_bytes (s : sys) (f : ramfs_file) : list Z :=
  take (Z.to_nat (f_size f)) (drop (Z.to_nat (f_off f)) (s_arc s)).

(** The descriptor [fd] of task [pid] is at position [pos] of [data]. *)
Definition positioned (s : sys) (pid : nat) (fd pos : Z) (data : list Z) : Prop :=
  fs_ok s /\ 0 <= fd < XKERN_MAX_FDS /\ exists t f, s_tasks s !! pid = Some t /\
    t_fd t !! Z.to_nat fd = Some f /\ fd_type f = 1 /\ fd_pos f = pos /\ contents s f = data.

Lemma positioned_put s pid t fd f pos :
  fs_ok s -> 0 <= fd < XKERN_MAX_FDS -> s_tasks s !! pid = Some t ->
  t_fd t !! Z.to_nat fd = Some f -> fd_type f = 1 -> 0 <= pos < 2 ^ 32 ->
  positioned (put_task pid (put_fd fd (mkFd 1 (fd_data f) (fd_size f) pos) t) s)
    pid fd pos (contents s f).
Proof.
  intros Hok Hfd Ht Hf Hty Hpos.
  assert (Htk : task_ok s t) by (by eapply Forall_lookup_1; [apply Hok|]).
  assert (fd_ok s f) as (? & ? & Hd) by (eapply Forall_lookup_1; [apply Htk|done]).
  split_and!; [|lia..|].
  - apply fs_ok_put_fd; [done..|]. split_and!; cbn; try lia. auto.
  - do 2 eexists. split; [by cbn; apply list_lookup_insert_eq; eapply lookup_lt_Some|].
    split; [by cbn; apply list_lookup_insert_eq; eapply lookup_lt_Some|].
    split_and!; [done..|]. unfold contents. cbn [fd_data fd_size put_task s_arc s_tasks].
    destruct (fd_data f) as [|off|k]; [done..|]. destruct (decide (k = pid)) as [->|Hne].
    + rewrite list_lookup_insert_eq by (by eapply lookup_lt_Some). by rewrite Ht.
    + by rewrite list_lookup_insert_ne.
Qed.

Lemma positioned_read s pid fd pos data n :
  positioned s pid fd pos data -> 0 <= n < 2 ^ 32 ->
  let bs := take (Z.to_nat n) (drop (Z.to_nat pos) data) in
  exists s', fs_read pid fd n s = Ret (s32 (Z.of_nat (length bs)), bs, s') /\
    positioned s' pid fd (pos + Z.of_nat (length bs)) data.
Proof.
  intros (Hok & Hfd & t & f & Ht & Hf & Hty & <- & <-) Hn.
  assert (Htk : task_ok s t) by (by eapply Forall_lookup_1; [apply Hok|]).
  assert (fd_ok s f) as (? & ? & Hd) by (eapply Forall_lookup_1; [apply Htk|done]).
  pose proof (length_contents s f ltac:(lia) (Hd Hty)).
  rewrite (fs_read_spec s pid t fd f n) by done. eexists. split; [done|].
  apply positioned_put; [done..|]. unfold got. rewrite length_take, length_drop. lia.
Qed.

Lemma positioned_seek s pid fd pos data off :
  positioned s pid fd pos data -> 0 <= off < 2 ^ 32 ->
  exists s', fs_lseek pid fd off 0 s = Ret (s32 off, s') /\ positioned s' pid fd off data.
Proof.
  intros (Hok & Hfd & t & f & Ht & Hf & Hty & <- & <-) Hoff.
  assert (Htk : task_ok s t) by (by eapply Forall_lookup_1; [apply Hok|]).
  unfold fs_lseek. replace ((fd <? 0) || (XKERN_MAX_FDS <=? fd)) with false by lia.
  rewrite (the_task_ok _ _ _ Ht), bind_ret. unfold get_fd. rewrite Hf. cbn [of_option].
  rewrite bind_ret, Hty. cbn. eexists. split; [done|]. by apply positioned_put.
Qed.

Lemma read_seq_spec s pid fd pos data ns :
  positioned s pid fd pos data -> 0 <= pos -> Forall (fun n => 0 <= n < 2 ^ 32) ns ->
  exists s', read_seq pid fd ns s =
    Ret (take (Z.to_nat (foldr Z.add 0 ns)) (drop (Z.to_nat pos) data), s').
Proof.
  intros Hp Hpos Hns. revert s pos Hp Hpos. induction Hns as [|n ns Hn Hns IH]; intros s pos Hp Hpos.
  { by exists s. }
  cbn [read_seq foldr]. destruct (positioned_read s pid fd pos data n Hp Hn) as (s1 & -> & Hp1).
  rewrite bind_ret. destruct (IH s1 _ Hp1) as (s2 & ->); [lia|]. rewrite bind_ret. exists s2.
  do 2 f_equal. set (d := drop (Z.to_nat pos) data).
  assert (0 <= foldr Z.add 0 ns) by (clear -Hns; induction Hns; cbn; lia).
  rewrite (Z2Nat.inj_add n), (Z2Nat.inj_add pos), Nat2Z.id by lia.
  rewrite <- drop_drop. fold d. rewrite length_take.
  destruct (decide (Z.to_nat n <= length d)%nat).
  - rewrite Nat.min_l by lia. by rewrite take_take_drop.
  - rewrite Nat.min_r, (drop_ge d), take_nil, app_nil_r, !take_ge by lia. done.
Qed.

(** C28: Opening a file of the RAM file system and reading it in pieces of any
    sizes yields its bytes in order and ends with the file; after a seek to
    [off] a read yields the bytes from [off] on, none if that is behind the
    end. *)
Theorem fs_open_read s pid t path flags i f ns off n :
  fs_ok s -> s_tasks s !! pid = Some t -> 0 <= fs_alloc_fd t ->
  is_procfs path = false -> ramfs_lookup (s_files s) path = Some i -> s_files s !! i = Some f ->
  Forall (fun n => 0 <= n < 2 ^ 32) ns -> 0 <= off < 2 ^ 32 -> 0 <= n < 2 ^ 32 ->
  exists fd s1, fs_open pid path flags s = Ret (fd, s1) /\ 3 <= fd < XKERN_MAX_FDS /\
    (exists s2, read_seq pid fd ns s1 =
       Ret (take (Z.to_nat (foldr Z.add 0 ns)) (file_bytes s f), s2)) /\
    (exists s2, fs_lseek pid fd off 0 s1 = Ret (s32 off, s2) /\
      let bs := take (Z.to_nat n) (drop (Z.to_nat off) (file_bytes s f)) in
      exists s3, fs_read pid fd n s2 = Ret (s32 (Z.of_nat (length bs)), bs, s3)).
Proof.
  intros Hok Ht Hfd Hproc Hl Hf Hns Hoff Hn.
  assert (Htk : task_ok s t) by (by eapply Forall_lookup_1; [apply Hok|]).
  destruct (fs_alloc_fd_spec t) as [?|[Hr (g & Hg & _)]]; [apply Htk|lia|].
  assert (Hfile : file_ok s f) by (eapply Forall_lookup_1; [apply Hok|done]).
  assert (Hf1 : fd_ok s (mkFd 1 (DArc (f_off f)) (f_size f) 0)).
  { destruct Hfile as (? & ? & ?). split_and!; cbn; lia || done. }
  unfold fs_open. rewrite (the_task_ok _ _ _ Ht), bind_ret, Hproc, Hl, Hf. cbn [of_option].
  rewrite bind_ret. cbn zeta. rewrite (proj2 (Z.ltb_ge _ 0)) by lia.
  set (fd := fs_alloc_fd t) in *. eexists fd, _. split; [done|]. split; [unfold XKERN_MAX_FDS; lia|].
  set (s1 := put_task pid _ s).
  assert (Hp : positioned s1 pid fd 0 (file_bytes s f)).
  { split; [by apply fs_ok_put_fd|]. split; [unfold XKERN_MAX_FDS; lia|].
    do 2 eexists. split; [by cbn; apply list_lookup_insert_eq; eapply lookup_lt_Some|].
    split; [by cbn; apply list_lookup_insert_eq; eapply lookup_lt_Some|]. done. }
  split.
  - destruct (read_seq_spec s1 pid fd 0 _ ns Hp) as (s2 & ->); [lia|done|]. by exists s2.
  - destruct (positioned_seek _ _ _ _ _ off Hp Hoff) as (s2 & -> & Hp2). exists s2. split; [done|].
    destruct (positioned_read _ _ _ _ _ n Hp2 Hn) as (s3 & -> & _). by exists s3.
Qed.

Lemma fs_open_read_witness :
  exists fd s1, fs_open 1 (str "/etc/rc") 0 demo_sys = Ret (fd, s1) /\ 3 <= fd < XKERN_MAX_FDS /\
    (exists s2, read_seq 1 fd [3; 100] s1 = Ret (str "echo hi", s2)) /\
    (exists s2, fs_lseek 1 fd 5 0 s1 = Ret (5, s2) /\
      exists s3, fs_read 1 fd 9 s2 = Ret (2, str "hi", s3)).
Proof.
  apply (fs_open_read demo_sys 1 (demo_task 1 "init") (str "/etc/rc") 0 0 (mkFile (str "etc/rc") 4 7)
    [3; 100] 5 9); try reflexivity; try lia.
  - exact demo_sys_ok.
  - vm_compute. discriminate.
  - repeat apply Forall_cons_2; try apply Forall_nil_2; lia.
Defined.

(** ** Listing a directory *)

(** The first child of each component, in the order of the files. *)
Fixpoint distinct (seen kids : list (list Z)) : list (list Z) :=
  match kids with
  | k :: kids =>
      let rest := distinct (seen ++ [upto_slash k]) kids in
      if decide (upto_slash k ∈ seen) then rest else k :: rest
  | [] => []
  end.

Definition dir_prefix (dir : list Z) : list Z :=
  let d := skip_slash dir in if bool_decide (d = []) then [] else d ++ [ch "/"].

Definition kids (prefix : list Z) (fs : ramfs) : list (list Z) :=
  omap (fun f => child_of prefix (f_name f)) fs.

Definition children (fs : ramfs) (dir : list Z) : list (list Z) :=
  filter (fun k => k <> []) (distinct [] (kids (dir_prefix dir) fs)).

Definition dir_entry (namelen : Z) (k : list Z) : Z * list Z :=
  (if has_slash k then XKERN_DT_DIR else XKERN_DT_REG,
   take (Z.to_nat (namelen - 1)) (upto_slash k)).

Lemma upto_slash_take s : take (length (upto_slash s)) s = upto_slash s.
Proof. induction s as [|c s IH]; [done|]. cbn. destruct (c =? ch "/"); [done|]. cbn. by rewrite IH. Qed.

Lemma dup_of_spec prefix child f :
  dup_of prefix child f = true <->
  exists cm, child_of prefix (f_name f) = Some cm /\ upto_slash cm = upto_slash child.
Proof.
  unfold dup_of. destruct (child_of prefix (f_name f)) as [cm|]; [|by split; [|intros (? & ? & _)]].
  rewrite andb_true_iff, Nat.eqb_eq, bool_decide_eq_true, upto_slash_take. split.
  - intros [Hl Ht]. exists cm. split; [done|]. by rewrite <- (upto_slash_take cm), Hl.
  - intros (? & [= <-] & Heq). by rewrite <- Heq, upto_slash_take.
Qed.

Lemma existsb_dup prefix child before :
  existsb (dup_of prefix child) before =
  bool_decide (upto_slash child ∈ upto_slash <$> kids prefix before).
Proof.
  apply Bool.eq_true_iff_eq. rewrite existsb_exists, bool_decide_eq_true. split.
  - intros (f & Hf%list_elem_of_In & (cm & Hcm & Heq)%dup_of_spec). rewrite <- Heq.
    apply list_elem_of_fmap_2. apply list_elem_of_omap. eauto.
  - intros (cm & Heq & (f & Hf & Hcm)%list_elem_of_omap)%list_elem_of_fmap.
    exists f. split; [by apply list_elem_of_In|]. apply dup_of_spec. eauto.
Qed.

Lemma dir_scan_spec prefix want namelen seen before fs :
  1 <= namelen -> 0 <= seen < want -> seen + Z.of_nat (length fs) < 2 ^ 32 ->
  dir_scan prefix want namelen seen before fs =
  Ret (match filter (fun k => k <> []) (distinct (upto_slash <$> kids prefix before) (kids prefix fs))
             !! Z.to_nat (want - seen - 1) with
       | Some k => dir_entry namelen k
       | None => (0, [])
       end).
Proof.
  intros Hnl. revert seen before. induction fs as [|f fs IH]; intros seen before Hseen Hlen; [done|].
  cbn [length] in Hlen. cbn [dir_scan].
  assert (Hbefore : kids prefix (before ++ [f]) =
    kids prefix before ++ match child_of prefix (f_name f) with Some k => [k] | None => [] end).
  { unfold kids. rewrite omap_app. cbn. by destruct (child_of prefix (f_name f)). }
  assert (Hnext : dir_scan prefix want namelen seen (before ++ [f]) fs = _)
    by (apply IH; lia). rewrite Hnext, Hbefore. cbn [kids omap list_omap].
  destruct (child_of prefix (f_name f)) as [child|]; cycle 1.
  { rewrite app_nil_r. done. }
  rewrite fmap_app. cbn [fmap list_fmap distinct].
  rewrite existsb_dup. case_bool_decide as Hdup.
  { rewrite decide_True by done. by destruct child. }
  rewrite decide_False by done. destruct child as [|c child]; [done|].
  rewrite filter_cons_True by done. rewrite u32_small by lia.
  destruct (Z.eqb_spec (seen + 1) want) as [Heq|Hne].
  - replace (Z.to_nat (want - seen - 1)) with 0%nat by lia. cbn [lookup list_lookup].
    unfold put_name. by rewrite (proj2 (Z.eqb_neq namelen 0)) by lia.
  - rewrite IH, Hbefore, fmap_app by lia. cbn [fmap list_fmap].
    replace (Z.to_nat (want - seen - 1)) with (S (Z.to_nat (want - (seen + 1) - 1))) by lia. done.
Qed.

Lemma distinct_spec seen ks :
  NoDup (upto_slash <$> distinct seen ks) /\
  (forall k, k ∈ distinct seen ks -> upto_slash k ∉ seen) /\
  (forall k, k ∈ ks -> upto_slash k ∉ seen -> upto_slash k ∈ upto_slash <$> distinct seen ks).
Proof.
  revert seen. induction ks as [|k ks IH]; intros seen; cbn [distinct].
  { split_and!; [by constructor|by intros k ?%elem_of_nil..]. }
  destruct (IH (seen ++ [upto_slash k])) as (IH1 & IH2 & IH3).
  assert (Hns : forall x, (x ∉ seen ++ [upto_slash k]) <-> ((x ∉ seen) /\ x <> upto_slash k)).
  { intros x. rewrite elem_of_app, list_elem_of_singleton. tauto. }
  destruct (decide (upto_slash k ∈ seen)) as [Hin|Hin]; split_and!.
  - done.
  - intros k' Hk'. by apply IH2, Hns in Hk' as [? _].
  - intros k' [->|Hk']%elem_of_cons Hk; [done|]. apply IH3; [done|]. apply Hns. split; congruence.
  - cbn. constructor; [|done]. intros (k' & Heq & Hk')%list_elem_of_fmap.
    by apply IH2, Hns in Hk' as [_ ?].
  - intros k' [->|Hk']%elem_of_cons; [done|]. by apply IH2, Hns in Hk' as [? _].
  - intros k' Hk' Hk. cbn. destruct (decide (upto_slash k' = upto_slash k)) as [->|Hne]; [by left|].
    right. apply elem_of_cons in Hk' as [->|Hk']; [done|]. apply IH3; [done|]. by apply Hns.
Qed.

(** Directory enumeration.  The [index]-th call of [dir_child] returns the
    [index]-th child of the directory: the type, and the name cut to the
    caller's buffer; past the last child it returns 0.  The children listed
    have pairwise different names, and every file below the directory has its
    first path component among them. *)
Theorem dir_child_enumerates fs dir index namelen :
  Z.of_nat (length fs) <= RAMFS_MAX_FILES -> Z.of_nat (length (skip_slash dir)) < RAMFS_NAME_MAX ->
  0 <= index < 2 ^ 32 - 1 -> 1 <= namelen ->
  dir_child fs dir index namelen =
    Ret (match children fs dir !! Z.to_nat index with
         | Some k => dir_entry namelen k
         | None => (0, [])
         end) /\
  NoDup (upto_slash <$> children fs dir) /\
  (forall f k, f ∈ fs -> child_of (dir_prefix dir) (f_name f) = Some k -> upto_slash k <> [] ->
     upto_slash k ∈ upto_slash <$> children fs dir).
Proof.
  intros Hfs Hdir Hi Hnl. unfold RAMFS_MAX_FILES in Hfs. split_and!.
  - unfold dir_child, children, dir_prefix. cbn zeta. case_bool_decide.
    2: rewrite (proj2 (Z.leb_gt _ _)) by lia.
    all: rewrite u32_small, dir_scan_spec by lia; cbn [kids omap list_omap fmap list_fmap];
      by replace (Z.to_nat (index + 1 - 0 - 1)) with (Z.to_nat index) by lia.
  - destruct (distinct_spec [] (kids (dir_prefix dir) fs)) as (H & _). unfold children.
    eapply sublist_NoDup; [exact H|]. apply fmap_sublist, sublist_filter.
  - intros f k Hf Hk Hne. destruct (distinct_spec [] (kids (dir_prefix dir) fs)) as (_ & _ & H).
    specialize (H k). unfold children.
    apply list_elem_of_fmap in H as (k' & Heq & Hk');
      [|apply list_elem_of_omap; eauto|by intros ?%elem_of_nil].
    rewrite Heq. apply list_elem_of_fmap_2, list_elem_of_filter. split; [|done].
    intros ->. by rewrite Heq in Hne.
Qed.

Lemma dir_child_enumerates_witness :
  dir_child (s_files demo_sys) (str "/etc") 1 256 = Ret (XKERN_DT_REG, str "motd").
Proof.
  apply (dir_child_enumerates (s_files demo_sys) (str "/etc") 1 256);
    vm_compute; split || idtac; discriminate || reflexivity.
Defined.

(** ** Command lines *)

(** The ways to write a word: as it is, or between quotes. *)
Inductive quoted : list Z -> list Z -> Prop :=
  | bare w : w <> [] -> Forall (fun c => blank c = false /\ c <> APOS /\ c <> QUOT) w -> quoted w w
  | in_quotes w : QUOT ∉ w -> quoted w (QUOT :: w ++ [QUOT])
  | in_apostrophes w : APOS ∉ w -> quoted w (APOS :: w ++ [APOS]).

(** The end of a word: the end of the line or a blank. *)
Definition ended (p : list Z) : Prop := match p with c :: _ => blank c = true | [] => True end.

(** A line that spells the words [ws]. *)
Inductive spells : list (list Z) -> list Z -> Prop :=
  | spells_nil p : Forall (fun c => blank c = true) p -> spells [] p
  | spells_cons bs w e ws p :
      Forall (fun c => blank c = true) bs -> quoted w e -> ended p -> spells ws p ->
      spells (w :: ws) (bs ++ e ++ p).

Lemma push_short w c : Z.of_nat (length w) < 254 -> push w c = w ++ [c].
Proof. intros. unfold push, FS_MAX_TOK. by rewrite (proj2 (Z.ltb_lt _ _)) by lia. Qed.

Lemma word_ended w p : ended p -> word false false w p = (w, p).
Proof. destruct p as [|c p]; [done|]. cbn. by intros ->. Qed.

Lemma word_bare acc w p :
  Forall (fun c => blank c = false /\ c <> APOS /\ c <> QUOT) w ->
  Z.of_nat (length (acc ++ w)) <= 254 ->
  word false false acc (w ++ p) = word false false (acc ++ w) p.
Proof.
  intros Hw. revert acc. induction Hw as [|c w (Hb & Ha & Hq) _ IH]; intros acc Hlen.
  { by rewrite app_nil_r. }
  cbn [app word orb]. rewrite Hb, (proj2 (Z.eqb_neq c APOS)), (proj2 (Z.eqb_neq c QUOT)) by done.
  rewrite length_app in Hlen. cbn [length] in Hlen. cbn [negb]. rewrite push_short by lia.
  rewrite IH by (rewrite !length_app; cbn [length]; lia). by rewrite <- app_assoc.
Qed.

Lemma word_quoted (single : bool) acc w p :
  (if single then APOS else QUOT) ∉ w -> Z.of_nat (length (acc ++ w)) <= 254 ->
  word single (negb single) acc (w ++ (if single then APOS else QUOT) :: p) =
  word false false (acc ++ w) p.
Proof.
  revert acc. induction w as [|c w IH]; intros acc Hq Hlen.
  { rewrite app_nil_r. by destruct single. }
  apply not_elem_of_cons in Hq as [Hc Hq]. rewrite length_app in Hlen. cbn [length] in Hlen.
  specialize (IH (acc ++ [c]) Hq). rewrite !length_app in IH. cbn [length] in IH.
  rewrite <- app_assoc in IH. change (acc ++ c :: w) with (acc ++ [c] ++ w).
  rewrite <- IH by lia. cbn [app word].
  destruct single; cbn [orb negb].
  - rewrite (proj2 (Z.eqb_neq c APOS)) by done. by rewrite push_short by lia.
  - rewrite (proj2 (Z.eqb_neq c QUOT)) by done. by rewrite push_short by lia.
Qed.

Lemma word_spelled w e p :
  quoted w e -> ended p -> Z.of_nat (length w) <= 254 -> word false false [] (e ++ p) = (w, p).
Proof.
  intros Hq Hp Hw. destruct Hq as [w Hne Hc|w Hq|w Hq].
  - rewrite word_bare by done. by apply word_ended.
  - change (word false (negb false) [] ((w ++ [QUOT]) ++ p) = (w, p)). rewrite <- app_assoc.
    etrans; [by apply (word_quoted false [] w p)|]. by apply word_ended.
  - change (word true (negb true) [] ((w ++ [APOS]) ++ p) = (w, p)). rewrite <- app_assoc.
    etrans; [by apply (word_quoted true [] w p)|]. by apply word_ended.
Qed.

Lemma skip_blanks bs p : Forall (fun c => blank c = true) bs -> skip_blank (bs ++ p) = skip_blank p.
Proof. induction 1 as [|c bs Hc _ IH]; [done|]. cbn. by rewrite Hc. Qed.

Lemma skip_quoted w e p : quoted w e -> skip_blank (e ++ p) = e ++ p /\ (1 <= length e)%nat.
Proof.
  intros Hq. destruct Hq as [w Hne Hc|w _|w _]; [|split; [done|cbn; lia]..].
  destruct Hc as [|c w (Hb & _) _]; [done|]. cbn. rewrite Hb. split; [done|lia].
Qed.

Lemma tokens_spelled fuel argc ws p :
  spells ws p -> (length p < fuel)%nat -> 0 <= argc -> argc + Z.of_nat (length ws) <= FS_MAX_ARGS ->
  Forall (fun w => Z.of_nat (length w) <= 254) ws -> tokens fuel argc p = Ret ws.
Proof.
  intros Hsp. revert fuel argc.
  induction Hsp as [p Hp|bs w e ws p Hbs Hq Hend _ IH]; intros fuel argc Hf Ha Hn Hws.
  - destruct fuel as [|fuel]; [lia|]. cbn [tokens].
    destruct (bool_decide (p = []) || (FS_MAX_ARGS <=? argc)); [done|].
    rewrite <- (app_nil_r p), skip_blanks by done. done.
  - apply Forall_cons in Hws as [Hw Hws]. cbn [length] in Hn. rewrite !length_app in Hf.
    destruct (skip_quoted w e p Hq) as [Hskip He]. destruct fuel as [|fuel]; [lia|]. cbn [tokens].
    rewrite bool_decide_eq_false_2, (proj2 (Z.leb_gt _ _)); [|lia|].
    2: { intros Hnil. apply (f_equal length) in Hnil. rewrite !length_app in Hnil. cbn in Hnil. lia. }
    cbn [orb]. rewrite skip_blanks, Hskip by done. rewrite bool_decide_eq_false_2.
    2: { intros Hnil. apply (f_equal length) in Hnil. rewrite !length_app in Hnil. cbn in Hnil. lia. }
    rewrite (word_spelled w e p) by done. rewrite IH by (done || lia). done.
Qed.

(** The command-line tokenizer.  A line that spells at most 32 words of at
    most 254 characters, each bare, in double quotes or in apostrophes and
    separated by any blanks, is split into exactly these words. *)
Theorem tokenize_words ws p :
  spells ws p -> Z.of_nat (length ws) <= FS_MAX_ARGS ->
  Forall (fun w => Z.of_nat (length w) <= 254) ws -> tokenize (Some p) = Ret ws.
Proof. intros. apply tokens_spelled; done || lia. Qed.

Definition demo_line : list Z := str " ls 'a b'  " ++ [QUOT] ++ str "it's" ++ [QUOT].

Lemma demo_line_spells : spells [str "ls"; str "a b"; str "it's"] demo_line.
Proof.
  apply (spells_cons (str " ") (str "ls") (str "ls")); [by repeat constructor| |done|].
  { apply bare; [done|]. repeat constructor; done. }
  apply (spells_cons (str " ") (str "a b") (str "'a b'")); [by repeat constructor| |done|].
  { apply in_apostrophes. by apply (bool_decide_unpack _). }
  apply (spells_cons (str "  ") (str "it's") (QUOT :: str "it's" ++ [QUOT]) [] []);
    [by repeat constructor| |done|by constructor].
  apply in_quotes. by apply (bool_decide_unpack _).
Qed.

Lemma tokenize_words_witness :
  tokenize (Some demo_line) = Ret [str "ls"; str "a b"; str "it's"].
Proof.
  apply (tokenize_words [str "ls"; str "a b"; str "it's"] demo_line).
  - exact demo_line_spells.
  - vm_compute. discriminate.
  - repeat apply Forall_cons_2; try apply Forall_nil_2; vm_compute; discriminate.
Defined.

(** ** The argument vector in memory *)

Lemma push_bound w c : Z.of_nat (length w) <= 254 -> Z.of_nat (length (push w c)) <= 254.
Proof.
  intros Hw. unfold push, FS_MAX_TOK. destruct (Z.ltb_spec (Z.of_nat (length w)) (255 - 1)); [|done].
  rewrite length_app. cbn. lia.
Qed.

Lemma word_bound i d w p :
  Z.of_nat (length w) <= 254 ->
  Z.of_nat (length (word i d w p).1) <= 254 /\ (length (word i d w p).2 <= length p)%nat.
Proof.
  revert i d w. induction p as [|c p IH]; intros i d w Hw; [done|]. cbn [word length].
  pose proof (push_bound w c Hw).
  assert (Hr : forall i d w, Z.of_nat (length w) <= 254 ->
    Z.of_nat (length (word i d w p).1) <= 254 /\ (length (word i d w p).2 <= S (length p))%nat).
  { intros i' d' w' Hw'. destruct (IH i' d' w' Hw'). split; [done|lia]. }
  repeat case_match; auto.
Qed.

Lemma word_step p :
  bool_decide (skip_blank p = []) = false ->
  (length (word false false [] (skip_blank p)).2 < length p)%nat.
Proof.
  intros Hp. assert (Hle : (length (skip_blank p) <= length p)%nat).
  { clear. induction p as [|c p IH]; [done|]. cbn. destruct (blank c); cbn in *; lia. }
  assert (Hb : match skip_blank p with c :: _ => blank c = false | [] => True end).
  { clear. induction p as [|c p IH]; [done|]. cbn. by destruct (blank c) eqn:Hc; [|cbn; rewrite Hc]. }
  destruct (skip_blank p) as [|c q]; [done|]. cbn [word orb] in *. rewrite Hb. cbn [negb length] in *.
  pose proof (push_bound [] c ltac:(cbn; lia)).
  repeat case_match; match goal with |- (length (word ?i ?d ?w q).2 < _)%nat =>
    destruct (word_bound i d w q); [done|lia] end.
Qed.

(** Every line is split into at most 32 words of at most 254 characters. *)
Lemma tokens_total fuel argc p :
  (length p < fuel)%nat -> 0 <= argc <= FS_MAX_ARGS ->
  exists ws, tokens fuel argc p = Ret ws /\ argc + Z.of_nat (length ws) <= FS_MAX_ARGS /\
    Forall (fun w => Z.of_nat (length w) <= 254) ws.
Proof.
  revert argc p. induction fuel as [|fuel IH]; intros argc p Hf Ha; [lia|]. cbn [tokens].
  assert (Hnil : exists ws, Ret [] = Ret ws /\ argc + Z.of_nat (length ws) <= FS_MAX_ARGS /\
    Forall (fun w : list Z => Z.of_nat (length w) <= 254) ws).
  { exists []. split_and!; [done|cbn; lia|constructor]. }
  destruct (bool_decide (p = []) || (FS_MAX_ARGS <=? argc)) eqn:Hend; [done|].
  apply orb_false_iff in Hend as [_ Hargc%Z.leb_gt].
  destruct (bool_decide (skip_blank p = [])) eqn:Hskip; [done|].
  pose proof (word_step p Hskip). destruct (word_bound false false [] (skip_blank p)); [cbn; lia|].
  destruct (word false false [] (skip_blank p)) as [w q]. cbn [fst snd] in *.
  destruct (IH (argc + 1) q) as (ws & -> & Hws & Hall); [lia|lia|].
  exists (w :: ws). split_and!; [done|cbn; lia|by constructor].
Qed.

Lemma sum_lengths_bound ws :
  Forall (fun w => Z.of_nat (length w) <= 254) ws -> 0 <= sum_lengths ws <= 255 * Z.of_nat (length ws).
Proof. induction 1; cbn; lia. Qed.

Section ArgvProof.
Context {A : Type} `{!FrameAllocator A}.

(** The bytes [bs] are in memory from [va] on. *)
Definition peeks (m : space A) (va : Z) (bs : list Z) : Prop :=
  forall (k : nat) b, bs !! k = Some b -> peek m (va + Z.of_nat k) = Some b.

(** Slot [i] of the vector points at [s], where the first word is, and so on. *)
Fixpoint args_at (m : space A) (i s : Z) (ws : list (list Z)) : Prop :=
  match ws with
  | w :: ws =>
      peeks m (ARGV_BASE + 8 * i) (le_bytes 8 s) /\ peeks m s (w ++ [0]) /\
      args_at m (i + 1) (s + (Z.of_nat (length w) + 1)) ws
  | [] => True
  end.

(** The addresses of the slots and words from [i] and [s] on. *)
Definition arg_region (i s : Z) (ws : list (list Z)) (va : Z) : Prop :=
  ARGV_BASE + 8 * i <= va < ARGV_BASE + 8 * (i + Z.of_nat (length ws)) \/
  s <= va < s + sum_lengths ws.

Lemma peeks_keep m m' va bs :
  (forall a, va <= a < va + Z.of_nat (length bs) -> peek m' a = peek m a) ->
  peeks m va bs -> peeks m' va bs.
Proof. intros Hk Hp k b Hb. apply lookup_lt_Some in Hb as Hlt. rewrite Hk by lia. by apply Hp. Qed.

Lemma args_at_keep m m' i s ws :
  (forall a, arg_region i s ws a -> peek m' a = peek m a) ->
  args_at m i s ws -> args_at m' i s ws.
Proof.
  assert (Hnn : forall ws, 0 <= sum_lengths ws) by (intros l; induction l; cbn; lia).
  revert i s. induction ws as [|w ws IH]; intros i s Hk; [done|]. cbn [args_at].
  unfold arg_region in Hk. cbn [length sum_lengths] in Hk. specialize (Hnn ws).
  intros (H1 & H2 & H3). split_and!.
  - eapply peeks_keep; [|exact H1]. rewrite length_le_bytes. intros a Ha. apply Hk. lia.
  - eapply peeks_keep; [|exact H2]. rewrite length_app. cbn [length]. intros a Ha. apply Hk. lia.
  - apply IH; [|done]. unfold arg_region. intros a Ha. apply Hk. lia.
Qed.

Context (s0 : vm A) (L : gset Z) (lim : Z).
Context (Hlim : lim <= 2 ^ 47).
Context (Hcover : forall a, ARGV_BASE <= a < lim -> page a ∈ L).

(** Storing bytes inside the mapped region. *)
Lemma store_region m va bs :
  loaded s0 (machine m) L -> ARGV_BASE <= va -> va + Z.of_nat (length bs) <= lim ->
  exists m', user_bytes va bs m = Ret m' /\ machine m' = machine m /\ peeks m' va bs /\
    forall a, ARGV_BASE <= a < lim -> ~ (va <= a < va + Z.of_nat (length bs)) ->
      peek m' a = peek m a.
Proof using Hlim Hcover.
  intros HL Hva Hend. unfold ARGV_BASE in *.
  destruct (user_bytes_spec s0 m L va bs HL) as (m' & -> & Hm & Hp); [lia..| |].
  { intros a Ha. apply Hcover. lia. }
  exists m'. split_and!; [done..| |].
  - intros k b Hb. apply lookup_lt_Some in Hb as Hlt. rewrite Hp.
    + rewrite decide_True by lia. by replace (Z.to_nat _) with k by lia.
    + unfold low. lia.
    + apply Hcover. lia.
  - intros a Ha Hn. rewrite Hp; [by rewrite decide_False|unfold low; lia|by apply Hcover].
Qed.

Lemma put_args_spec m i s ws :
  loaded s0 (machine m) L -> 0 <= i -> ARGV_BASE + 8 * (i + Z.of_nat (length ws)) <= s ->
  s + sum_lengths ws <= lim ->
  exists m', put_args i s ws m = Ret m' /\ machine m' = machine m /\ args_at m' i s ws /\
    forall a, ARGV_BASE <= a < lim -> ~ arg_region i s ws a -> peek m' a = peek m a.
Proof using Hlim Hcover.
  assert (Hnn : forall ws, 0 <= sum_lengths ws) by (intros l; induction l; cbn; lia).
  revert m i s. induction ws as [|w ws IH]; intros m i s HL Hi Hs Hend.
  { exists m. done. }
  cbn [put_args length sum_lengths] in *. specialize (Hnn ws).
  destruct (store_region m (ARGV_BASE + 8 * i) (le_bytes 8 s)) as (m1 & -> & Hm1 & Hp1 & Hk1);
    [done|lia|rewrite length_le_bytes; lia|]. rewrite length_le_bytes in Hk1. rewrite bind_ret.
  destruct (store_region m1 s (w ++ [0])) as (m2 & -> & Hm2 & Hp2 & Hk2);
    [by rewrite Hm1|lia|rewrite length_app; cbn [length]; lia|].
  rewrite length_app in Hk2. cbn [length] in Hk2. rewrite bind_ret.
  destruct (IH m2 (i + 1) (s + (Z.of_nat (length w) + 1))) as (m' & -> & Hm' & Hat & Hk);
    [by rewrite Hm2, Hm1|lia|lia|lia|]. unfold arg_region in *. cbn [length sum_lengths].
  exists m'. split_and!; [done|congruence| |].
  - cbn [args_at]. split_and!; [| |done].
    + eapply peeks_keep; [|exact Hp1]. rewrite length_le_bytes. intros a Ha.
      rewrite Hk, Hk2 by lia. done.
    + eapply peeks_keep; [|exact Hp2]. rewrite length_app. cbn [length]. intros a Ha.
      by rewrite Hk by lia.
  - intros a Ha Hn. rewrite Hk, Hk2, Hk1 by lia. done.
Qed.

End ArgvProof.

(** The words of a line, or the program's name if there are none. *)
Definition args_of (t : task) (toks : list (list Z)) : list (list Z) :=
  if bool_decide (toks = []) then [ch "/" :: t_name t] else toks.

Lemma tokenize_total argline :
  exists toks, tokenize argline = Ret toks /\ Z.of_nat (length toks) <= FS_MAX_ARGS /\
    Forall (fun w => Z.of_nat (length w) <= 254) toks.
Proof.
  destruct argline as [p|]; cbn [tokenize].
  - destruct (tokens_total (S (length p)) 0 p) as (ws & -> & ? & ?); [lia|unfold FS_MAX_ARGS; lia|].
    exists ws. split_and!; [done|lia|done].
  - exists []. split_and!; [done|cbn; unfold FS_MAX_ARGS; lia|constructor].
Qed.

Lemma args_of_bound t toks :
  Z.of_nat (length (t_name t)) < TASK_NAME_MAX -> Z.of_nat (length toks) <= FS_MAX_ARGS ->
  Forall (fun w => Z.of_nat (length w) <= 254) toks ->
  1 <= Z.of_nat (length (args_of t toks)) <= 32 /\
  0 <= sum_lengths (args_of t toks) <= 255 * Z.of_nat (length (args_of t toks)).
Proof.
  unfold args_of, TASK_NAME_MAX, FS_MAX_ARGS. intros Hn Hl Hall. case_bool_decide as Hnil.
  - cbn. lia.
  - split; [destruct toks; [done|cbn in *; lia]|]. by apply sum_lengths_bound.
Qed.

Lemma set_cr3_back {A} c d (m : space A) :
  cr3 (machine m) = c -> set_cr3 c (set_cr3 d m) = m.
Proof. intros <-. by destruct m as [[] ?]. Qed.

(** Building the argument vector of a task.  For every command line, the
    null pointer included, and with twelve free frames, the vector is built:
    in the task's address space the slots at [ARGV_BASE] point at copies of the
    words with their terminators (of "/" and the task's name if the line has
    no words), the slot behind them is null, the count is returned and CR3 is
    as before. *)
Theorem task_build_argv_correct {A} `{!FrameAllocator A} t argline (m : space A) own :
  Z.of_nat (length (t_name t)) < TASK_NAME_MAX ->
  vm_ok (machine (set_cr3 (t_cr3 t) m)) own ->
  (12 <= size (fa_frames (alloc (machine m))))%nat ->
  exists toks m', tokenize argline = Ret toks /\
    let ws := args_of t toks in
    let argc := Z.of_nat (length ws) in
    task_build_argv t argline m = Ret (Some argc, m') /\
    cr3 (machine m') = cr3 (machine m) /\
    args_at (set_cr3 (t_cr3 t) m') 0 (ARGV_BASE + (argc + 1) * 8) ws /\
    peeks (set_cr3 (t_cr3 t) m') (ARGV_BASE + 8 * argc) (le_bytes 8 0).
Proof.
  intros Hname Hok Hfr. destruct (tokenize_total argline) as (toks & Htok & Hl & Hall).
  exists toks. unfold task_build_argv. rewrite Htok, bind_ret. fold (args_of t toks). cbn zeta.
  destruct (args_of_bound t toks Hname Hl Hall) as [Hargc Hsum].
  set (ws := args_of t toks) in *. set (argc := Z.of_nat (length ws)) in *.
  set (need := (argc + 1) * 8 + sum_lengths ws).
  assert (Hneed : 0 < need <= 8424) by lia. rewrite (proj2 (Z.ltb_ge _ need)) by lia.
  set (m0 := set_cr3 (t_cr3 t) m) in *. set (K := (need + 4095) / 4096).
  assert (HK : need <= 4096 * K < need + 4096) by (subst K; ilia).
  change (page_down ARGV_BASE) with ARGV_BASE.
  destruct (map_pages_count PAGE_WRITE (machine m0) (machine m0) ∅ ARGV_BASE (ARGV_BASE + need) K)
    as (v & -> & HL & _); [by eapply loaded_0|unfold ARGV_BASE; lia..|done|cbn; lia|].
  rewrite bind_ret, union_empty_r_L in *. cbn [negb].
  set (L := list_to_set (pages ARGV_BASE K)) in *. set (lim := ARGV_BASE + need).
  assert (Hcov : forall a, ARGV_BASE <= a < lim -> page a ∈ L).
  { intros a Ha. subst L lim. rewrite elem_of_list_to_set, elem_of_pages.
    exists ((page a - ARGV_BASE) / 4096). unfold page, ARGV_BASE in *. ilia. }
  destruct (put_args_spec (machine m0) L lim ltac:(subst lim; unfold ARGV_BASE; lia) Hcov
    (mkSpace v (bytes m0)) 0 (ARGV_BASE + (argc + 1) * 8) ws HL) as (m1 & -> & Hm1 & Hat & Hk);
    [lia|subst argc; lia|subst lim need; lia|]. rewrite bind_ret.
  destruct (store_region (machine m0) L lim ltac:(subst lim; unfold ARGV_BASE; lia) Hcov
    m1 (ARGV_BASE + 8 * argc) (le_bytes 8 0)) as (m2 & -> & Hm2 & Hz & Hk2);
    [by rewrite Hm1|lia|rewrite length_le_bytes; subst lim need; lia|].
  rewrite length_le_bytes in Hk2. rewrite bind_ret. eexists. split_and!; [done..| |].
  all: assert (set_cr3 (t_cr3 t) (set_cr3 (cr3 (machine m)) m2) = m2) as ->
    by (apply set_cr3_back; rewrite Hm2, Hm1; exact (ld_cr3 _ _ _ HL)).
  - eapply args_at_keep; [|exact Hat]. intros a Ha. unfold arg_region in Ha.
    apply Hk2; subst lim need argc; lia.
  - done.
Qed.

Definition demo_frames : list Z := (fun k => 0x2000 + 0x1000 * k) <$> seqZ 0 12.
Definition demo12 : space Pmm.pmm := demo_space demo_frames.

Lemma demo12_ok : vm_ok (Demo.demo demo_frames) {[0x1000 := []]}.
Proof.
  apply Demo.demo_ok; [|apply (bool_decide_unpack _); vm_compute; done].
  split; apply (bool_decide_unpack _); vm_compute; done.
Qed.

Definition argv_task : task :=
  mkTask 0 0x1000 1 (str "init") 0 TASK_NEW 0 0 0 [] [].

Lemma task_build_argv_correct_witness :
  exists toks m', tokenize (Some demo_line) = Ret toks /\
    let ws := args_of argv_task toks in
    let argc := Z.of_nat (length ws) in
    task_build_argv argv_task (Some demo_line) demo12 = Ret (Some argc, m') /\
    cr3 (machine m') = cr3 (machine demo12) /\
    args_at (set_cr3 (t_cr3 argv_task) m') 0 (ARGV_BASE + (argc + 1) * 8) ws /\
    peeks (set_cr3 (t_cr3 argv_task) m') (ARGV_BASE + 8 * argc) (le_bytes 8 0).
Proof.
  apply (task_build_argv_correct argv_task (Some demo_line) demo12 {[0x1000 := []]}).
  - vm_compute. reflexivity.
  - exact demo12_ok.
  - apply (bool_decide_unpack _). vm_compute. done.
Defined.
