(* ===== verification/Proc.v ===== *)
(** * bsd/kern/init_ram_getty/proc.c: tasks and the scheduler

    The task table is the list of the slots in use ([g_task_count] is its
    length; slots are never given back).  Kernel stacks are words by address.
    A halted processor ([panic], or a task's last [hlt]) is a result of its
    own.  The entry stubs of osfmk/x86_64/isr.asm that load a task's stack are
    modelled too, as far as words on the stack are concerned. *)

From S2P Require Import Prelude Libc Printf Pmm Paging Ramfs Elf Fs.
Import Vm.

(** ** Frames on a kernel stack *)

Definition FRAME_RDI : nat := 8.
Definition FRAME_RSI : nat := 9.
Definition FRAME_RDX : nat := 12.
Definition FRAME_RAX : nat := 14.
Definition FRAME_RIP : nat := 15.
Definition FRAME_CS : nat := 16.
Definition FRAME_RFLAGS : nat := 17.
Definition FRAME_RSP : nat := 18.
Definition FRAME_SS : nat := 19.

Abbreviation words := (gmap Z Z).

(** [*--s = w] *)
Definition push_word (st : Z * words) (w : Z) : Z * words :=
  let '(s, m) := st in (s - 8, <[s - 8 := w]> m).
Definition push_all (s : Z) (m : words) (ws : list Z) : Z * words := fold_left push_word ws (s, m).

(** The words below the top of the stack, first pushed first; the address of
    the stub comes from the linker. *)
Definition entry_frame (irq0_resume top entry argc argv : Z) : list Z :=
  [0x10; top; 0x202; 0x08; entry;
   0; 0; 0; 0; 0; argv; argc;
   0; 0; 0; 0; 0; 0; 0; 0;
   irq0_resume].

Definition vfork_frame (irq0_resume : Z) (f : list Z) : run (list Z) :=
  let w i := of_option (f !! i) in
  ss ← w FRAME_SS; rsp ← w FRAME_RSP; rflags ← w FRAME_RFLAGS; cs ← w FRAME_CS; rip ← w FRAME_RIP;
  rcx ← w 13%nat; rdx ← w FRAME_RDX; rbx ← w 11%nat; rbp ← w 10%nat;
  rsi ← w FRAME_RSI; rdi ← w FRAME_RDI;
  r8 ← w 7%nat; r9 ← w 6%nat; r10 ← w 5%nat; r11 ← w 4%nat;
  r12 ← w 3%nat; r13 ← w 2%nat; r14 ← w 1%nat; r15 ← w 0%nat;
  Ret [ss; rsp; rflags; cs; rip;
       0; rcx; rdx; rbx; rbp; rsi; rdi; r8; r9; r10; r11; r12; r13; r14; r15;
       irq0_resume].

(** isr.asm, [sched_switch.resume]: six registers are popped, then [ret].  The
    registers r15 r14 r13 r12 rbp rbx, the address returned to and the stack
    pointer there. *)
Definition resume (sp : Z) (m : words) : run (list Z * Z * Z) :=
  regs ← (fix go (n : nat) (a : Z) : run (list Z) :=
            match n with
            | S n => w ← of_option (m !! a); ws ← go n (a + 8); Ret (w :: ws)
            | O => Ret []
            end) 6%nat sp;
  ret ← of_option (m !! (sp + 48));
  Ret (regs, ret, sp + 56).

(** isr.asm, [syscall_handler]: the registers rdi, rsi, rdx, rcx at the call of
    [syscall_dispatch], from the saved frame. *)
Definition syscall_handler_args (f : list Z) : run (Z * Z * Z * Z) :=
  rdi ← of_option (f !! 8%nat); rsi ← of_option (f !! 9%nat); rdx ← of_option (f !! 12%nat);
  rcx ← of_option (f !! 14%nat);
  Ret (rdi, rsi, rdx, rcx).

(** ** The kernel state *)

Definition set_state (st : task_state) (t : task) : task :=
  mkTask (t_sp t) (t_cr3 t) (t_pid t) (t_name t) (t_stack t) st (t_ticks t)
    (t_arg t) (t_vfork_parent t) (t_fd t) (t_procbuf t).
Definition set_ticks (n : Z) (t : task) : task :=
  mkTask (t_sp t) (t_cr3 t) (t_pid t) (t_name t) (t_stack t) (t_state t) n
    (t_arg t) (t_vfork_parent t) (t_fd t) (t_procbuf t).
Definition set_sp (sp : Z) (t : task) : task :=
  mkTask sp (t_cr3 t) (t_pid t) (t_name t) (t_stack t) (t_state t) (t_ticks t)
    (t_arg t) (t_vfork_parent t) (t_fd t) (t_procbuf t).
Definition set_space (cr3 stack : Z) (t : task) : task :=
  mkTask (t_sp t) cr3 (t_pid t) (t_name t) stack (t_state t) (t_ticks t)
    (t_arg t) (t_vfork_parent t) (t_fd t) (t_procbuf t).

Section Proc.
Context {A : Type} `{!FrameAllocator A}.

(** The addresses of [g_task_stacks] and of [irq0_resume] in the kernel image. *)
Context (g_task_stacks irq0_resume : Z).

(** [k_sys] holds [g_tasks] and the files; [k_frame] is what
    [g_syscall_frame] points at. *)
Record kern := mkKern
  { k_sys : sys; g_cur_task : option nat; k_space : space A; k_stk : words; k_frame : list Z }.

Definition g_tasks (k : kern) : list task := s_tasks (k_sys k).
Definition task_count (k : kern) : Z := Z.of_nat (length (g_tasks k)).

Definition set_tasks (ts : list task) (k : kern) : kern :=
  mkKern (mkSys ts (s_files (k_sys k)) (s_arc (k_sys k))) (g_cur_task k) (k_space k) (k_stk k) (k_frame k).
Definition set_cur (c : option nat) (k : kern) : kern :=
  mkKern (k_sys k) c (k_space k) (k_stk k) (k_frame k).
Definition set_mem_ (m : space A) (k : kern) : kern :=
  mkKern (k_sys k) (g_cur_task k) m (k_stk k) (k_frame k).
Definition set_stk (w : words) (k : kern) : kern :=
  mkKern (k_sys k) (g_cur_task k) (k_space k) w (k_frame k).

(** A change of one task, of the machine under [k_space]. *)
Definition on_task (i : nat) (f : task -> task) (k : kern) : kern := set_tasks (alter f i (g_tasks k)) k.
Definition set_machine (v : vm A) (k : kern) : kern :=
  set_mem_ (mkSpace v (bytes (k_space k))) k.

Definition cur (k : kern) : run (nat * task) :=
  c ← of_option (g_cur_task k); t ← of_option (g_tasks k !! c); Ret (c, t).

Definition task_find (pid : Z) (k : kern) : option nat :=
  if pid <? task_count k then Some (Z.to_nat pid) else None.

Definition task_at (i : Z) (k : kern) : option nat :=
  if (i <? 0) || (task_count k <=? i) then None else Some (Z.to_nat i).

(** ** Scheduling *)

Definition running (t : task) : bool := bool_decide (t_state t = TASK_RUNNING).

(** [s = slot + i; if (s >= g_task_count) s -= g_task_count;] *)
Definition wrap (n s : nat) : nat := if (n <=? s)%nat then (s - n)%nat else s.

Definition runnable (ts : list task) (i : nat) : bool :=
  match ts !! i with Some t => running t | None => false end.

(** [None]: the kernel has panicked. *)
Definition sched_tick (k : kern) : run (option kern) :=
  match g_cur_task k with
  | None => Ret None
  | Some slot =>
      if task_count k <=? 0 then Ret None
      else
        t ← of_option (g_tasks k !! slot);
        n ← int32 (t_ticks t + 1);
        let k := on_task slot (set_ticks n) k in
        let ts := g_tasks k in
        match find (fun i => runnable ts (wrap (length ts) (slot + i))) (seq 1 (length ts - 1)) with
        | Some i => Ret (Some (set_cur (Some (wrap (length ts) (slot + i))) k))
        | None => Ret (if runnable ts slot then Some k else None)
        end
  end.

(** [sched_start] then loads the stack of the task. *)
Definition sched_boot (idle : option nat) (k : kern) : option kern :=
  match idle with
  | None => None
  | Some i => if task_count k <=? 0 then None else Some (set_cur (Some i) k)
  end.

(** ** Creation *)

Definition task_stack (i : Z) : Z := g_task_stacks + TASK_STACK_SIZE * i.

(** The slot that [g_task_count] designates: nothing has been stored there,
    and its [vfork_parent] and [procbuf] are still zero. *)
Definition task_alloc (name : list Z) (arg : Z) (k : kern) : run (option nat * kern) :=
  if PROC_MAX_TASKS <=? task_count k then Ret (None, k)
  else
    '(cr3, v) ← paging_clone_pd (machine (k_space k));
    let k := set_machine v k in
    if cr3 =? 0 then Ret (None, k)
    else
      name ← copy_name (TASK_NAME_MAX - 1) name;
      let n := task_count k in
      let t := fs_task_init
        (mkTask 0 cr3 (u32 n) name (task_stack n) TASK_NEW 0 arg 0 [] (replicate PROCBUF 0)) in
      Ret (Some (length (g_tasks k)), set_tasks (g_tasks k ++ [t]) k).

(** Build the frame of [ws] and make the task runnable. *)
Definition install_frame (i : nat) (ws : list Z) (k : kern) : run kern :=
  t ← of_option (g_tasks k !! i);
  let '(sp, stk) := push_all (t_stack t + TASK_STACK_SIZE) (k_stk k) ws in
  Ret (on_task i (fun t => set_state TASK_RUNNING (set_sp sp t)) (set_stk stk k)).

Definition task_set_entry (i : option nat) (entry argc argv : Z) (k : kern) : run kern :=
  match i with
  | None => Ret k
  | Some i =>
      t ← of_option (g_tasks k !! i);
      install_frame i (entry_frame irq0_resume (t_stack t + TASK_STACK_SIZE) entry argc argv) k
  end.

Definition task_create (name : list Z) (entry arg : Z) (k : kern) : run (option nat * kern) :=
  '(t, k) ← task_alloc name arg k;
  k ← (match t with Some _ => task_set_entry t entry 0 0 k | None => Ret k end);
  Ret (t, k).

(** ** Exit, vfork, exec, wait *)

(** [p = task_find(t->vfork_parent); if (p && p->state == TASK_WAITING)
    p->state = TASK_RUNNING;], if [vfork_parent] is not 0. *)
Definition wake_parent (t : task) (k : kern) : kern :=
  if t_vfork_parent t =? 0 then k
  else
    match task_find (t_vfork_parent t) k with
    | None => k
    | Some p => on_task p (fun p => if bool_decide (t_state p = TASK_WAITING)
                                    then set_state TASK_RUNNING p else p) k
    end.

(** The state in which the task halts for good. *)
Definition task_exit (status : Z) (k : kern) : run kern :=
  '(c, t) ← cur k;
  Ret (wake_parent t (on_task c (set_state TASK_ZOMBIE) k)).

Definition task_vfork (k : kern) : run (Z * kern) :=
  '(c, p) ← cur k;
  if PROC_MAX_TASKS <=? task_count k then Ret (u32 (-1), k)
  else
    '(cr3, v) ← paging_vfork_clone (machine (k_space k));
    let k := set_machine v k in
    if cr3 =? 0 then Ret (u32 (-1), k)
    else
      name ← copy_name (TASK_NAME_MAX - 1) (t_name p);
      let n := task_count k in
      let i := length (g_tasks k) in
      let t := mkTask 0 cr3 (u32 n) name (task_stack n) TASK_NEW 0 0 (t_pid p) (t_fd p) (t_procbuf p) in
      let k := set_tasks (g_tasks k ++ [t]) k in
      ws ← vfork_frame irq0_resume (k_frame k);
      k ← install_frame i ws k;
      Ret (u32 n, on_task c (set_state TASK_WAITING) k).

Definition task_exec (path : list Z) (argline : option (list Z)) (k : kern) : run (Z * kern) :=
  '(c, t) ← cur k;
  match ramfs_lookup (s_files (k_sys k)) path with
  | None => Ret (-1, k)
  | Some i =>
      f ← of_option (s_files (k_sys k) !! i);
      let img := Some (file_bytes (k_sys k) f) in
      ok ← elf_valid img;
      if negb ok then Ret (-1, k)
      else
        '(new_cr3, v) ← paging_clone_pd (machine (k_space k));
        let k := set_machine v k in
        if new_cr3 =? 0 then Ret (-1, k)
        else
          '(r, m) ← elf_load_pd new_cr3 img (k_space k);
          let k := set_mem_ m k in
          match r with
          | None => Ret (-1, k)
          | Some (entry, _, _) =>
              let t' := set_space new_cr3 (task_stack (t_pid t)) t in
              let k := on_task c (fun _ => t') k in
              '(argv, m) ← task_build_argv t' argline (k_space k);
              let k := set_mem_ m k in
              match argv with
              | None => Ret (-1, on_task c (fun _ => set_space (t_cr3 t) (t_stack t') t') k)
              | Some argc =>
                  k ← task_set_entry (Some c) entry argc ARGV_BASE k;
                  Ret (0, wake_parent t k)
              end
          end
  end.

(** One round of [task_wait], up to the switch: the value returned, or the
    state in which another task is chosen. *)
Definition wait_round (pid : Z) (k : kern) : run (kern + Z) :=
  match task_find pid k with
  | None => Ret (inr (-1))
  | Some i =>
      child ← of_option (g_tasks k !! i);
      if bool_decide (t_state child = TASK_ZOMBIE) then Ret (inr 0)
      else '(c, _) ← cur k; Ret (inl (on_task c (set_state TASK_WAITING) k))
  end.

(** [sched_switch] runs other tasks and comes back when this one is chosen
    again: what they do in between is an argument. *)
Definition task_wait (sched_switch : kern -> run kern) (pid : Z) (k : kern) : run (Z * kern) :=
  loop (fun k =>
    r ← wait_round pid k;
    match r with
    | inr v => Ret (inr (v, k))
    | inl k =>
        k ← sched_switch k;
        '(c, _) ← cur k;
        Ret (inl (on_task c (set_state TASK_RUNNING) k))
    end) k.

(** ** The list of tasks as text *)

(** [buf + pos] holds [text] so far; the result is [pos] and the text. *)
Fixpoint list_tasks (ts : list task) (bufsize : Z) (text : list Z) : run (list Z) :=
  match ts with
  | [] => Ret text
  | t :: ts =>
      '(tmp, n) ← snprintf (replicate 48 0) 48 (str "%u %s" ++ [10])
                    [AWord (t_pid t); AStr (Some (t_name t))];
      if u32 (Z.of_nat (length text) + u32 n) <? bufsize
      then list_tasks ts bufsize (text ++ take (Z.to_nat n) tmp)
      else list_tasks ts bufsize text
  end.

(** The terminator needs a byte of the buffer. *)
Definition procfs_list (bufsize : Z) (k : kern) : run (list Z) :=
  text ← list_tasks (g_tasks k) bufsize [];
  if Z.of_nat (length text) <? bufsize then Ret text else Fault.

End Proc.
Arguments kern A : clear implicits.

(** ** Round robin *)

Lemma find_seq f a n :
  match find f (seq a n) with
  | Some i => (a <= i < a + n)%nat /\ f i = true /\ forall j, (a <= j < i)%nat -> f j = false
  | None => forall j, (a <= j < a + n)%nat -> f j = false
  end.
Proof.
  revert a. induction n as [|n IH]; intros a; cbn [seq find]; [lia|].
  destruct (f a) eqn:Hfa; [split; [lia|split; [done|lia]]|]. specialize (IH (S a)).
  destruct (find f (seq (S a) n)) as [i|].
  - destruct IH as (? & ? & Hj). split; [lia|]. split; [done|]. intros j ?.
    destruct (decide (j = a)) as [->|]; [done|]. apply Hj. lia.
  - intros j ?. destruct (decide (j = a)) as [->|]; [done|]. apply IH. lia.
Qed.

Lemma wrap_lt n c i : (c < n)%nat -> (i <= n)%nat -> (wrap n (c + i) < n)%nat.
Proof. unfold wrap. intros. destruct (Nat.leb_spec n (c + i)); lia. Qed.

Lemma wrap_wrap n c i d :
  (c < n)%nat -> (i < n)%nat -> (i <= d <= n)%nat -> wrap n (wrap n (c + i) + (d - i)) = wrap n (c + d).
Proof.
  unfold wrap. intros. destruct (Nat.leb_spec n (c + i)), (Nat.leb_spec n (c + d));
    match goal with |- context [(n <=? ?x)%nat] => destruct (Nat.leb_spec n x) end; lia.
Qed.

(** Every slot lies at a distance between 1 and [n] ahead. *)
Lemma wrap_reach n c j :
  (c < n)%nat -> (j < n)%nat -> exists d, (1 <= d <= n)%nat /\ j = wrap n (c + d).
Proof.
  intros Hc Hj. destruct (decide (c < j)%nat).
  - exists (j - c)%nat. unfold wrap. destruct (Nat.leb_spec n (c + (j - c))); lia.
  - exists (n + j - c)%nat. unfold wrap. destruct (Nat.leb_spec n (c + (n + j - c))); lia.
Qed.

Section Sched.
Context {A : Type} `{!FrameAllocator A}.
Implicit Types k : kern A.

(** The current task exists and no tick counter is within [b] of overflow. *)
Definition sched_ok (b : nat) (c : nat) k : Prop :=
  g_cur_task k = Some c /\ (c < length (g_tasks k))%nat /\
  Forall (fun t => 0 <= t_ticks t /\ t_ticks t + Z.of_nat b < 2 ^ 31) (g_tasks k).

(** The same tasks but for the tick counters. *)
Definition same_tasks k k' : Prop :=
  (set_ticks 0 <$> g_tasks k') = (set_ticks 0 <$> g_tasks k).

Lemma same_runnable k k' j :
  same_tasks k k' -> runnable (g_tasks k') j = runnable (g_tasks k) j.
Proof.
  intros Hs. apply (f_equal (lookup j)) in Hs. rewrite !list_lookup_fmap in Hs.
  unfold runnable. destruct (g_tasks k !! j), (g_tasks k' !! j); try done.
  apply (f_equal (fmap t_state)) in Hs. cbn in Hs. injection Hs as Hs. unfold running. by rewrite Hs.
Qed.

Lemma same_length k k' : same_tasks k k' -> length (g_tasks k') = length (g_tasks k).
Proof. intros Hs. apply (f_equal length) in Hs. by rewrite !length_fmap in Hs. Qed.

(** What one tick does, with [n] tasks and the current one in slot [c]. *)
Lemma sched_tick_spec b c k :
  sched_ok (S b) c k -> let n := length (g_tasks k) in
  (exists i k', (1 <= i < n)%nat /\ runnable (g_tasks k) (wrap n (c + i)) = true /\
     (forall j, (1 <= j < i)%nat -> runnable (g_tasks k) (wrap n (c + j)) = false) /\
     sched_tick k = Ret (Some k') /\ same_tasks k k' /\ sched_ok b (wrap n (c + i)) k') \/
  ((forall j, (1 <= j < n)%nat -> runnable (g_tasks k) (wrap n (c + j)) = false) /\
   if runnable (g_tasks k) c
   then exists k', sched_tick k = Ret (Some k') /\ same_tasks k k' /\ sched_ok b c k'
   else sched_tick k = Ret None).
Proof.
  intros (Hcur & Hc & Hticks) n. unfold sched_tick. rewrite Hcur.
  unfold task_count. rewrite (proj2 (Z.leb_gt _ 0)) by lia.
  destruct (lookup_lt_is_Some_2 _ _ Hc) as [t Ht]. rewrite Ht. cbn [of_option]. rewrite bind_ret.
  destruct (proj1 (Forall_lookup _ _) Hticks c t Ht) as [Hlo Hhi].
  rewrite int32_ok, bind_ret by lia. cbn zeta.
  set (k1 := on_task c (set_ticks (t_ticks t + 1)) k).
  assert (Hg : g_tasks k1 = alter (set_ticks (t_ticks t + 1)) c (g_tasks k)) by done.
  assert (Hsame : same_tasks k k1).
  { unfold same_tasks. rewrite Hg. apply list_eq. intros j. rewrite !list_lookup_fmap.
    destruct (decide (j = c)) as [->|Hj]; [by rewrite list_lookup_alter_eq, Ht|].
    by rewrite list_lookup_alter_ne. }
  assert (Hlen : length (g_tasks k1) = n) by (rewrite Hg, length_alter; done).
  assert (Hok : Forall (fun t => 0 <= t_ticks t /\ t_ticks t + Z.of_nat b < 2 ^ 31) (g_tasks k1)).
  { rewrite Hg. apply Forall_lookup. intros j u Hu. destruct (decide (j = c)) as [->|Hj].
    - rewrite list_lookup_alter_eq, Ht in Hu. injection Hu as <-. cbn. lia.
    - rewrite list_lookup_alter_ne in Hu by done.
      destruct (proj1 (Forall_lookup _ _) Hticks j u Hu). lia. }
  rewrite Hlen. pose proof (find_seq (fun i => runnable (g_tasks k1) (wrap n (c + i))) 1 (n - 1)) as Hf.
  destruct (find _ _) as [i|].
  - left. destruct Hf as (Hi & Hr & Hmin). rewrite (same_runnable k) in Hr by done.
    exists i. eexists. split; [lia|]; split_and!; [done| |done|done|].
    + intros j Hj. rewrite <- (same_runnable k k1) by done. apply Hmin. lia.
    + split_and!; [done| |done]. change (wrap n (c + i) < length (g_tasks k1))%nat.
      rewrite Hlen. apply wrap_lt; lia.
  - right. split.
    + intros j Hj. rewrite <- (same_runnable k k1) by done. apply Hf. lia.
    + rewrite (same_runnable k k1) by done. destruct (runnable (g_tasks k) c); [|done].
      exists k1. split_and!; [done..|]. split_and!; [done|by rewrite Hlen|done].
Qed.

(** [m] ticks in a row, until a panic. *)
Fixpoint run_ticks (m : nat) k : run (option (kern A)) :=
  match m with
  | O => Ret (Some k)
  | S m => r ← sched_tick k; match r with Some k => run_ticks m k | None => Ret None end
  end.

Lemma run_ticks_reach d : forall b c k,
  (d <= b)%nat -> sched_ok b c k -> let n := length (g_tasks k) in (1 <= d <= n)%nat ->
  runnable (g_tasks k) (wrap n (c + d)) = true ->
  exists m k', (1 <= m <= d)%nat /\ run_ticks m k = Ret (Some k') /\
    g_cur_task k' = Some (wrap n (c + d)) /\ same_tasks k k'.
Proof.
  induction d as [d IH] using lt_wf_ind. intros b c k Hb Hok n Hd Hr.
  destruct b as [|b]; [lia|]. pose proof Hok as (_ & Hc & _). fold n in Hc.
  pose proof (sched_tick_spec b c k Hok) as Hspec. cbn zeta in Hspec. fold n in Hspec.
  destruct Hspec as [(i & k' & Hi & Hri & Hmin & Hstep & Hsame & Hok')|[Hnone Hst]].
  - assert (Hle : (i <= d)%nat).
    { destruct (decide (i <= d)%nat); [done|]. rewrite Hmin in Hr by lia. done. }
    destruct (decide (i = d)) as [->|Hne].
    + exists 1%nat, k'. cbn [run_ticks]. rewrite Hstep. split; [lia|]; split_and!; [done|apply Hok'|done].
    + pose proof (same_length _ _ Hsame) as Hlen. fold n in Hlen.
      destruct (IH (d - i)%nat ltac:(lia) b (wrap n (c + i)) k') as (m & k2 & Hm & Hrun & Hcur & Hs2);
        rewrite ?Hlen, ?wrap_wrap by lia; [lia|done|lia|by rewrite (same_runnable k)|].
      exists (S m), k2. cbn [run_ticks]. rewrite Hstep, bind_ret.
      rewrite Hlen, wrap_wrap in Hcur by lia. split; [lia|]; split_and!; [done|done|].
      unfold same_tasks in *. congruence.
  - destruct (decide (d = n)) as [->|Hne]; [|rewrite Hnone in Hr by lia; done].
    assert (Hw : wrap n (c + n) = c) by (unfold wrap; destruct (Nat.leb_spec n (c + n)); lia).
    rewrite Hw in *. rewrite Hr in Hst. destruct Hst as (k' & Hstep & Hsame & Hok').
    exists 1%nat, k'. cbn [run_ticks]. rewrite Hstep. split; [lia|]; split_and!; [done|apply Hok'|done].
Qed.

End Sched.

(** [next] is current, the counter of [c] is one higher, and everything else is
    as it was: the other tasks and all else of task [c], files and archive,
    address space, stacks and the saved frame. *)
Record ticked {A} (c next : nat) (k k' : kern A) : Prop :=
  { tk_cur : g_cur_task k' = Some next;
    tk_count : g_tasks k' !! c = (fun t => set_ticks (t_ticks t + 1) t) <$> g_tasks k !! c;
    tk_tasks : forall j, j <> c -> g_tasks k' !! j = g_tasks k !! j;
    tk_files : s_files (k_sys k') = s_files (k_sys k) /\ s_arc (k_sys k') = s_arc (k_sys k);
    tk_rest : k_space k' = k_space k /\ k_stk k' = k_stk k /\ k_frame k' = k_frame k }.

Lemma sched_tick_ticked {A} `{!FrameAllocator A} (k k' : kern A) c next :
  g_cur_task k = Some c -> sched_tick k = Ret (Some k') -> g_cur_task k' = Some next -> ticked c next k k'.
Proof.
  intros Hc. unfold sched_tick. rewrite Hc. destruct (task_count k <=? 0); [done|]. destruct (g_tasks k !! c) as [t|] eqn:Ht; [|done].
  cbn [of_option]. rewrite bind_ret. unfold int32. destruct (_ && _); [|done]. rewrite bind_ret. cbn zeta. intros E Hn.
  assert (Hk : exists o, k' = set_cur o (on_task c (set_ticks (t_ticks t + 1)) k)).
  { destruct (find _ _) as [i|]; [injection E as <-; by eexists|]. destruct (runnable _ _); [|done]. injection E as <-. exists (g_cur_task k). done. }
  destruct Hk as [o ->]. constructor; try done.
  - change (alter (set_ticks (t_ticks t + 1)) c (g_tasks k) !! c = (fun t => set_ticks (t_ticks t + 1) t) <$> g_tasks k !! c). by rewrite list_lookup_alter_eq, Ht.
  - intros j Hj. by apply list_lookup_alter_ne.
Qed.

(** C4: Scheduling decisions.  Let a task be current and no tick counter at its
    maximum.  If a task is runnable, a tick makes the next runnable task in
    cyclic order current (the present one if it is the only one), counts one
    tick for the task that was current and changes nothing else: no other task
    or field, no file, no page, no stack; if none is runnable, the kernel
    panics. *)
Theorem sched_tick_correct {A} `{!FrameAllocator A} (k : kern A) c :
  sched_ok 1 c k -> let n := length (g_tasks k) in
  ((exists j, runnable (g_tasks k) j = true) ->
     exists d k', (1 <= d <= n)%nat /\ sched_tick k = Ret (Some k') /\ ticked c (wrap n (c + d)) k k' /\
       runnable (g_tasks k') (wrap n (c + d)) = true /\
       forall j, (1 <= j < d)%nat -> runnable (g_tasks k) (wrap n (c + j)) = false) /\
  ((forall j, runnable (g_tasks k) j = false) -> sched_tick k = Ret None).
Proof.
  intros Hok n. pose proof Hok as (Hcur & Hc & _). fold n in Hc.
  pose proof (sched_tick_spec 0 c k Hok) as Hspec. cbn zeta in Hspec. fold n in Hspec.
  destruct Hspec as [(i & k' & Hi & Hri & Hmin & Hstep & Hsame & Hok')|[Hnone Hst]]; split.
  - intros _. exists i, k'. split; [lia|]. split; [done|]. split; [apply sched_tick_ticked; [done|done|apply Hok']|]. split; [by rewrite (same_runnable k)|done].
  - intros Hall. by rewrite Hall in Hri.
  - assert (Hw : wrap n (c + n) = c) by (unfold wrap; destruct (Nat.leb_spec n (c + n)); lia).
    intros [j Hj]. assert (Hjn : (j < n)%nat).
    { unfold runnable in Hj. destruct (g_tasks k !! j) eqn:E; [|done]. by eapply lookup_lt_Some. }
    destruct (wrap_reach n c j Hc Hjn) as (d & Hd & ->).
    destruct (decide (d = n)) as [->|]; [|rewrite Hnone in Hj by lia; done].
    rewrite Hw in Hj. rewrite Hj in Hst. destruct Hst as (k' & Hstep & Hsame & Hok').
    exists n, k'. rewrite Hw. split; [lia|]. split; [done|]. split; [apply sched_tick_ticked; [done|done|apply Hok']|]. split; [by rewrite (same_runnable k)|].
    intros i Hi. apply Hnone. lia.
  - intros Hall. by rewrite Hall in Hst.
Qed.

(** C5: Fairness.  Whatever task is current, and while no tick counter can reach
    its maximum meanwhile, every runnable task is current
    after at most as many ticks as there are tasks. *)
Theorem sched_fair {A} `{!FrameAllocator A} (k : kern A) c j :
  sched_ok (length (g_tasks k)) c k -> runnable (g_tasks k) j = true ->
  exists m k', (1 <= m <= length (g_tasks k))%nat /\ run_ticks m k = Ret (Some k') /\
    g_cur_task k' = Some j /\ same_tasks k k'.
Proof.
  intros Hok Hj. assert (Hjn : (j < length (g_tasks k))%nat).
  { unfold runnable in Hj. destruct (g_tasks k !! j) eqn:E; [|done]. by eapply lookup_lt_Some. }
  destruct (wrap_reach _ c j (proj1 (proj2 Hok)) Hjn) as (d & Hd & Heq).
  rewrite Heq in Hj. destruct (run_ticks_reach d _ c k (proj2 Hd) Hok Hd Hj) as (m & k' & Hm & ? & ? & ?).
  exists m, k'. split; [lia|]; split_and!; [done|congruence|done].
Qed.

(** A kernel with the tasks of [demo_sys] and a third one that waits. *)
Definition demo_kern : kern Pmm.pmm :=
  mkKern (mkSys (s_tasks demo_sys ++ [set_state TASK_WAITING (demo_task 2 "sh")])
            (s_files demo_sys) (s_arc demo_sys))
    (Some 1%nat) demo12 ∅ (seqZ 100 20).

Lemma demo_sched_ok b : Z.of_nat b < 1000 -> sched_ok b 1 demo_kern.
Proof.
  intros Hb. split_and!; [done|cbn; lia|].
  repeat apply Forall_cons_2; try apply Forall_nil_2; cbn; lia.
Qed.

Lemma sched_tick_correct_witness :
  exists d k', (1 <= d <= 3)%nat /\ sched_tick demo_kern = Ret (Some k') /\ ticked 1 (wrap 3 (1 + d)) demo_kern k' /\
    runnable (g_tasks k') (wrap 3 (1 + d)) = true /\
    forall j, (1 <= j < d)%nat -> runnable (g_tasks demo_kern) (wrap 3 (1 + j)) = false.
Proof.
  apply (sched_tick_correct demo_kern 1).
  - apply demo_sched_ok. lia.
  - exists 0%nat. reflexivity.
Defined.

Lemma sched_fair_witness :
  exists m k', (1 <= m <= 3)%nat /\ run_ticks m demo_kern = Ret (Some k') /\
    g_cur_task k' = Some 0%nat /\ same_tasks demo_kern k'.
Proof.
  apply (sched_fair demo_kern 1 0); [apply demo_sched_ok; cbn; lia|reflexivity].
Defined.

(** ** Saved frames *)

Lemma push_all_spec s m ws :
  let n := Z.of_nat (length ws) in
  exists m', push_all s m ws = (s - 8 * n, m') /\
    (forall j w, rev ws !! j = Some w -> m' !! (s - 8 * n + 8 * Z.of_nat j) = Some w) /\
    (forall a, a < s - 8 * n \/ s <= a -> m' !! a = m !! a).
Proof.
  unfold push_all. revert s m. induction ws as [|w ws IH]; intros s m; cbn [fold_left length].
  { exists m. split_and!; [|by intros j w|done]. f_equal. lia. }
  destruct (IH (s - 8) (<[s - 8 := w]> m)) as (m' & Heq & Hin & Hout). cbn [push_word].
  exists m'. split_and!.
  - rewrite Heq. f_equal. lia.
  - intros j w' Hj. cbn [rev] in Hj. apply lookup_app_Some in Hj as [Hj|[Hle Hj]].
    + rewrite <- (Hin j w' Hj). f_equal. lia.
    + rewrite length_rev in *. apply list_lookup_singleton_Some in Hj as [Hj <-].
      replace (s - 8 * Z.of_nat (S (length ws)) + 8 * Z.of_nat j) with (s - 8) by lia.
      rewrite Hout by lia. apply lookup_insert_eq.
  - intros a Ha. rewrite Hout, lookup_insert_ne by lia. done.
Qed.

Section Frames.
Context {A : Type} `{!FrameAllocator A} (g_task_stacks irq0_resume : Z).
Implicit Types k : kern A.

Lemma on_task_lookup i f k t :
  g_tasks k !! i = Some t -> g_tasks (on_task i f k) !! i = Some (f t).
Proof. intros Ht. cbn. by rewrite list_lookup_alter_eq, Ht. Qed.

Lemma on_task_lookup_ne i j f k :
  i <> j -> g_tasks (on_task i f k) !! j = g_tasks k !! j.
Proof. intros. cbn. by rewrite list_lookup_alter_ne. Qed.

(** The words of a frame above the stack pointer, and the rest of the stacks. *)
Lemma install_frame_spec i t ws k :
  g_tasks k !! i = Some t ->
  exists k' stk, install_frame i ws k = Ret k' /\
    k' = on_task i (fun t => set_state TASK_RUNNING (set_sp (t_stack t + TASK_STACK_SIZE
           - 8 * Z.of_nat (length ws)) t)) (set_stk stk k) /\
    (forall j w, rev ws !! j = Some w ->
       stk !! (t_stack t + TASK_STACK_SIZE - 8 * Z.of_nat (length ws) + 8 * Z.of_nat j) = Some w) /\
    (forall a, a < t_stack t + TASK_STACK_SIZE - 8 * Z.of_nat (length ws) \/
               t_stack t + TASK_STACK_SIZE <= a -> stk !! a = k_stk k !! a).
Proof.
  intros Ht. unfold install_frame. rewrite Ht. cbn [of_option]. rewrite bind_ret.
  destruct (push_all_spec (t_stack t + TASK_STACK_SIZE) (k_stk k) ws) as (stk & -> & Hin & Hout).
  do 2 eexists. split_and!; [done| |done|done].
  unfold on_task. f_equal. apply list_eq. intros j. destruct (decide (j = i)) as [->|Hj].
  - change (g_tasks (set_stk stk k)) with (g_tasks k). by rewrite !list_lookup_alter_eq, Ht.
  - by rewrite !list_lookup_alter_ne.
Qed.

(** The frame of [f], all but rax. *)
Lemma vfork_frame_spec f :
  length f = 20%nat ->
  vfork_frame irq0_resume f = Ret (rev (irq0_resume :: <[FRAME_RAX := 0]> f)).
Proof.
  intros Hf. do 20 (destruct f as [|? f]; [done|]). by destruct f.
Qed.

End Frames.

(** vfork.  With a free slot and a free frame, [task_vfork] returns the
    new task's number; the child is runnable, has the parent's descriptors and
    a new address space that translates like the parent's, and the saved
    registers above its stack pointer are those of the parent's system call
    with 0 in rax; the parent waits; no other task is changed. *)
Theorem task_vfork_correct {A} `{!FrameAllocator A} g_task_stacks irq0_resume (k : kern A) own c p :
  g_cur_task k = Some c -> g_tasks k !! c = Some p -> task_count k < PROC_MAX_TASKS ->
  Z.of_nat (length (t_name p)) < TASK_NAME_MAX - 1 -> length (k_frame k) = 20%nat ->
  vm_ok (machine (k_space k)) own -> fa_frames (alloc (machine (k_space k))) <> ∅ ->
  let n := length (g_tasks k) in
  exists k' t, task_vfork g_task_stacks irq0_resume k = Ret (Z.of_nat n, k') /\
    length (g_tasks k') = S n /\ g_tasks k' !! n = Some t /\
    t_state t = TASK_RUNNING /\ t_pid t = Z.of_nat n /\ t_vfork_parent t = t_pid p /\
    t_fd t = t_fd p /\ t_name t = t_name p /\
    t_sp t = task_stack g_task_stacks (Z.of_nat n) + TASK_STACK_SIZE - 168 /\
    (forall j w, (irq0_resume :: <[FRAME_RAX := 0]> (k_frame k)) !! j = Some w ->
       k_stk k' !! (t_sp t + 8 * Z.of_nat j) = Some w) /\
    (forall va, PML4_INDEX va <> 511 ->
       translate (mem (machine (k_space k'))) (t_cr3 t) va =
       translate (mem (machine (k_space k))) (cr3 (machine (k_space k))) va) /\
    g_tasks k' !! c = Some (set_state TASK_WAITING p) /\
    (forall j, j <> c -> j <> n -> g_tasks k' !! j = g_tasks k !! j).
Proof.
  intros Hcur Hp Hcount Hname Hframe Hvm Hfree n. unfold task_vfork, cur.
  rewrite Hcur. cbn [of_option]. rewrite bind_ret, Hp. cbn [of_option]. rewrite !bind_ret.
  rewrite (proj2 (Z.leb_gt _ _)) by done. unfold task_count, PROC_MAX_TASKS, TASK_NAME_MAX in *.
  destruct (paging_vfork_clone_spec _ own Hvm Hfree) as (f & v & -> & Htook & Hents).
  pose proof Htook as (_ & _ & _ & [Hf _] & _).
  rewrite bind_ret, (proj2 (Z.eqb_neq f 0)) by lia. unfold copy_name.
  rewrite (proj2 (Z.ltb_lt _ _)), bind_ret by lia. cbn zeta.
  assert (Hcn : c <> n) by (apply lookup_lt_Some in Hp; subst n; lia).
  set (k1 := set_machine v k). change (g_tasks k1) with (g_tasks k). fold n.
  set (t := mkTask 0 f _ _ _ _ _ _ _ _ _). set (k2 := set_tasks (g_tasks k ++ [t]) k1).
  change (k_frame k2) with (k_frame k). rewrite vfork_frame_spec by done. rewrite bind_ret.
  assert (Ht : g_tasks k2 !! n = Some t).
  { cbn. unfold n. by rewrite lookup_app_r, Nat.sub_diag by lia. }
  set (ws := rev _). assert (Hws : Z.of_nat (length ws) = 21).
  { subst ws. rewrite length_rev. cbn [length]. rewrite length_insert, Hframe. done. }
  destruct (install_frame_spec n t ws k2 Ht) as (k3 & stk & -> & -> & Hin & _).
  rewrite bind_ret, Hws in *. rewrite u32_small by lia. do 2 eexists. split; [done|].
  split; [by cbn; rewrite !length_alter, length_app; cbn; lia|].
  split; [rewrite on_task_lookup_ne by done; by apply on_task_lookup|].
  cbn [t_state t_pid t_vfork_parent t_fd t_name t_sp t_cr3 set_state set_sp t].
  split_and!; [done|by rewrite u32_small by lia|done..| | | |].
  - intros j w Hj. cbn. apply (Hin j w). subst ws. by rewrite rev_involutive.
  - intros va Ha. cbn. apply (new_root_translate _ own f v (fun _ => true) va Hvm Htook); [|done].
    intros i Hi Hi'. by rewrite Hents, decide_False.
  - erewrite on_task_lookup; [done|]. rewrite on_task_lookup_ne by done. cbn.
    rewrite lookup_app_l; [done|]. by eapply lookup_lt_Some.
  - intros j Hjc Hjn. rewrite !on_task_lookup_ne by done. cbn.
    destruct (decide (j < n)%nat) as [Hj|Hj]; [by rewrite lookup_app_l|].
    rewrite lookup_app_r, !lookup_ge_None_2 by (cbn; unfold n in *; lia). done.
Qed.

Lemma task_vfork_correct_witness :
  exists k' t, task_vfork 0x700000 0x100 demo_kern = Ret (3, k') /\
    length (g_tasks k') = 4%nat /\ g_tasks k' !! 3%nat = Some t /\
    t_state t = TASK_RUNNING /\ t_pid t = 3 /\ t_vfork_parent t = 1 /\
    t_fd t = t_fd (demo_task 1 "init") /\ t_name t = str "init" /\
    t_sp t = task_stack 0x700000 3 + TASK_STACK_SIZE - 168 /\
    (forall j w, (0x100 :: <[FRAME_RAX := 0]> (seqZ 100 20)) !! j = Some w ->
       k_stk k' !! (t_sp t + 8 * Z.of_nat j) = Some w) /\
    (forall va, PML4_INDEX va <> 511 ->
       translate (mem (machine (k_space k'))) (t_cr3 t) va =
       translate (mem (machine demo12)) 0x1000 va) /\
    g_tasks k' !! 1%nat = Some (set_state TASK_WAITING (demo_task 1 "init")) /\
    (forall j, j <> 1%nat -> j <> 3%nat -> g_tasks k' !! j = g_tasks demo_kern !! j).
Proof.
  apply (task_vfork_correct 0x700000 0x100 demo_kern {[0x1000 := []]} 1 (demo_task 1 "init"));
    try reflexivity.
  - exact demo12_ok.
  - apply (bool_decide_unpack _). vm_compute. done.
Defined.

(** The switch code and the frames it resumes do not agree.  [resume] pops
    six registers before it returns, as [sched_switch] pushes them, but the
    frame that [task_set_entry] builds starts with the return address: a new
    task is resumed with the address of the stub in r15 and control goes to
    the value of the r10 slot, which is 0. *)
Theorem task_entry_resumes_at_zero {A} `{!FrameAllocator A} irq0_resume (k : kern A) i t entry argc argv :
  g_tasks k !! i = Some t ->
  exists k' t', task_set_entry irq0_resume (Some i) entry argc argv k = Ret k' /\
    g_tasks k' !! i = Some t' /\ t_state t' = TASK_RUNNING /\
    k_stk k' !! t_sp t' = Some irq0_resume /\
    resume (t_sp t') (k_stk k') = Ret ([irq0_resume; 0; 0; 0; 0; 0], 0, t_sp t' + 56).
Proof.
  intros Ht. unfold task_set_entry. rewrite Ht. cbn [of_option]. rewrite bind_ret.
  set (ws := entry_frame _ _ _ _ _).
  destruct (install_frame_spec i t ws k Ht) as (k' & stk & -> & -> & Hin & _).
  do 2 eexists. split; [done|]. split; [by apply on_task_lookup|].
  cbn [t_state t_sp set_state set_sp]. change (k_stk (on_task _ _ (set_stk stk k))) with stk.
  set (sp := t_stack t + _ - _) in *.
  assert (Hw : forall j w, rev ws !! j = Some w -> stk !! (sp + 8 * Z.of_nat j) = Some w) by exact Hin.
  pose proof (Hw 0%nat _ eq_refl) as H0. pose proof (Hw 1%nat _ eq_refl) as H1.
  pose proof (Hw 2%nat _ eq_refl) as H2. pose proof (Hw 3%nat _ eq_refl) as H3.
  pose proof (Hw 4%nat _ eq_refl) as H4. pose proof (Hw 5%nat _ eq_refl) as H5.
  pose proof (Hw 6%nat _ eq_refl) as H6.
  replace (sp + 8 * Z.of_nat 0) with sp in H0 by lia. split_and!; [done..|].
  replace (sp + 8 * Z.of_nat 1) with (sp + 8) in H1 by lia.
  replace (sp + 8 * Z.of_nat 2) with (sp + 8 + 8) in H2 by lia.
  replace (sp + 8 * Z.of_nat 3) with (sp + 8 + 8 + 8) in H3 by lia.
  replace (sp + 8 * Z.of_nat 4) with (sp + 8 + 8 + 8 + 8) in H4 by lia.
  replace (sp + 8 * Z.of_nat 5) with (sp + 8 + 8 + 8 + 8 + 8) in H5 by lia.
  replace (sp + 8 * Z.of_nat 6) with (sp + 48) in H6 by lia.
  unfold resume. by rewrite H0, H1, H2, H3, H4, H5, H6.
Qed.

Lemma task_entry_resumes_at_zero_witness :
  exists k' t', task_set_entry 0x100 (Some 1%nat) 0x400000 1 ARGV_BASE demo_kern = Ret k' /\
    g_tasks k' !! 1%nat = Some t' /\ t_state t' = TASK_RUNNING /\
    k_stk k' !! t_sp t' = Some 0x100 /\
    resume (t_sp t') (k_stk k') = Ret ([0x100; 0; 0; 0; 0; 0], 0, t_sp t' + 56).
Proof.
  apply (task_entry_resumes_at_zero 0x100 demo_kern 1 (demo_task 1 "init")). reflexivity.
Defined.

(** Exit wakes exactly the vfork parent.  The exiting task becomes a
    zombie; the task it was vforked from becomes runnable if it waits; every
    other task is as before.  In particular a task that waits for a child it
    did not vfork, or that vforked as task 0, is not woken. *)
Theorem task_exit_wakes {A} `{!FrameAllocator A} (k : kern A) status c t :
  g_cur_task k = Some c -> g_tasks k !! c = Some t ->
  0 <= t_vfork_parent t -> t_vfork_parent t <> Z.of_nat c ->
  exists k', task_exit status k = Ret k' /\
    g_tasks k' !! c = Some (set_state TASK_ZOMBIE t) /\
    forall j u, j <> c -> g_tasks k !! j = Some u ->
      g_tasks k' !! j = Some (if decide (Z.of_nat j = t_vfork_parent t /\ t_vfork_parent t <> 0 /\
                                         t_state u = TASK_WAITING)
                              then set_state TASK_RUNNING u else u).
Proof.
  intros Hcur Ht Hv0 Hvc. unfold task_exit, cur. rewrite Hcur. cbn [of_option].
  rewrite bind_ret, Ht. cbn [of_option]. rewrite !bind_ret. eexists. split; [done|].
  unfold wake_parent. set (k1 := on_task c _ k).
  assert (Hk1 : g_tasks k1 !! c = Some (set_state TASK_ZOMBIE t)) by (by apply on_task_lookup).
  destruct (Z.eqb_spec (t_vfork_parent t) 0) as [H0|H0].
  { split; [done|]. intros j u Hj Hu. subst k1. rewrite on_task_lookup_ne by done.
    rewrite decide_False by tauto. done. }
  unfold task_find, task_count. change (length (g_tasks k1)) with (length (alter (set_state TASK_ZOMBIE) c (g_tasks k))).
  rewrite length_alter. destruct (Z.ltb_spec (t_vfork_parent t) (Z.of_nat (length (g_tasks k)))) as [Hlt|Hge].
  - split; [rewrite on_task_lookup_ne by lia; done|]. intros j u Hj Hu.
    destruct (decide (j = Z.to_nat (t_vfork_parent t))) as [->|Hne].
    + erewrite on_task_lookup by (subst k1; rewrite on_task_lookup_ne by done; exact Hu).
      case_bool_decide; [rewrite decide_True by (split_and!; done || lia)|rewrite decide_False by tauto]; done.
    + rewrite on_task_lookup_ne by done. subst k1. rewrite on_task_lookup_ne by done.
      rewrite decide_False by lia. done.
  - split; [done|]. intros j u Hj Hu. subst k1. rewrite on_task_lookup_ne by done.
    apply lookup_lt_Some in Hu as Hlt. rewrite decide_False by lia. done.
Qed.

(** A child that task 2 waits for, spawned and not vforked. *)
Lemma task_exit_wakes_witness :
  exists k', task_exit 0 demo_kern = Ret k' /\
    g_tasks k' !! 1%nat = Some (set_state TASK_ZOMBIE (demo_task 1 "init")) /\
    forall j u, j <> 1%nat -> g_tasks demo_kern !! j = Some u ->
      g_tasks k' !! j = Some (if decide (Z.of_nat j = 0 /\ 0 <> 0 /\ t_state u = TASK_WAITING)
                              then set_state TASK_RUNNING u else u).
Proof.
  apply (task_exit_wakes demo_kern 0 1 (demo_task 1 "init")); reflexivity || (vm_compute; discriminate).
Defined.

(** ** The task table as a state machine *)

(** [s'] has the buffers of [s] where [s] has them. *)
Definition extends (s s' : sys) : Prop :=
  s_arc s' = s_arc s /\
  forall j t, s_tasks s !! j = Some t ->
    exists t', s_tasks s' !! j = Some t' /\ t_procbuf t' = t_procbuf t.

Lemma fd_ok_extends s s' f : extends s s' -> fd_ok s f -> fd_ok s' f.
Proof.
  intros [Harc Hx] (? & ? & Hd). split_and!; [lia..|]. intros Hty. specialize (Hd Hty).
  destruct (fd_data f) as [|off|j]; cbn in *; [done|by rewrite Harc|].
  destruct Hd as (t & Ht & Hn). destruct (Hx j t Ht) as (t' & Ht' & Hb).
  exists t'. split; [done|by rewrite Hb].
Qed.

Lemma task_ok_extends s s' t t' :
  extends s s' -> t_fd t' = t_fd t -> t_procbuf t' = t_procbuf t -> task_ok s t -> task_ok s' t'.
Proof.
  intros Hx Hf Hb (? & Hfds & ? & ?). unfold task_ok. rewrite Hf, Hb. split_and!; [done| |done..].
  eapply Forall_impl; [exact Hfds|]. intros f Hok. by eapply fd_ok_extends.
Qed.

(** A change of tasks that leaves their files alone, perhaps with new tasks. *)
Lemma fs_ok_extends s ts new :
  fs_ok s -> length (s_tasks s) = length ts ->
  (forall j t, ts !! j = Some t -> exists u, s_tasks s !! j = Some u /\
     t_fd t = t_fd u /\ t_procbuf t = t_procbuf u) ->
  Forall (task_ok s) new ->
  fs_ok (mkSys (ts ++ new) (s_files s) (s_arc s)).
Proof.
  intros [Hts Hfs] Hlen Hkeep Hnew.
  assert (Hx : extends s (mkSys (ts ++ new) (s_files s) (s_arc s))).
  { split; [done|]. intros j t Ht. assert (Hj : (j < length ts)%nat)
      by (rewrite <- Hlen; by eapply lookup_lt_Some).
    destruct (lookup_lt_is_Some_2 ts j Hj) as [t' Ht']. exists t'. cbn.
    rewrite lookup_app_l by done. split; [done|].
    destruct (Hkeep j t' Ht') as (u & Hu & _ & Hb). congruence. }
  split; [|done]. cbn [s_tasks]. apply Forall_app. split.
  - apply Forall_lookup. intros j t Ht. destruct (Hkeep j t Ht) as (u & Hu & Hf & Hb).
    apply (task_ok_extends s _ u); [done..|]. exact (Forall_lookup_1 _ _ _ _ Hts Hu).
  - eapply Forall_impl; [exact Hnew|]. intros t Ht. by apply (task_ok_extends s _ t).
Qed.

Section Machine.
Context {A : Type} `{!FrameAllocator A} (g_task_stacks irq0_resume : Z).
Implicit Types k : kern A.

Definition slot_ok (n i : nat) (t : task) : Prop :=
  t_pid t = Z.of_nat i /\ t_stack t = task_stack g_task_stacks (Z.of_nat i) /\
  Z.of_nat (length (t_name t)) < TASK_NAME_MAX - 1 /\ 0 <= t_vfork_parent t < Z.of_nat n + 1.

(** What holds of the table in every state: at most 32 tasks, each with its
    number, its own stack and readable descriptors, and a current task, if
    any, in the table. *)
Definition proc_ok k : Prop :=
  task_count k <= PROC_MAX_TASKS /\ fs_ok (k_sys k) /\
  (forall i t, g_tasks k !! i = Some t -> slot_ok (length (g_tasks k)) i t) /\
  match g_cur_task k with Some c => (c < length (g_tasks k))%nat | None => True end.

(** The fields that [slot_ok] and [task_ok] look at are kept. *)
Definition kept (t u : task) : Prop :=
  t_pid u = t_pid t /\ t_stack u = t_stack t /\ t_name u = t_name t /\
  t_vfork_parent u = t_vfork_parent t /\ t_fd u = t_fd t /\ t_procbuf u = t_procbuf t.

Lemma proc_ok_on_task_at i f k :
  (forall t, g_tasks k !! i = Some t -> kept t (f t)) -> proc_ok k -> proc_ok (on_task i f k).
Proof.
  intros Hf (Hn & Hfs & Hslots & Hcur).
  assert (Hlk : forall j t, alter f i (g_tasks k) !! j = Some t ->
    exists u, g_tasks k !! j = Some u /\ kept u t).
  { intros j t Ht. destruct (decide (j = i)) as [->|Hne].
    - rewrite list_lookup_alter_eq in Ht. destruct (g_tasks k !! i) as [u|]; [|done].
      injection Ht as <-. eauto.
    - rewrite list_lookup_alter_ne in Ht by done. exists t. by split_and!. }
  unfold proc_ok, task_count, on_task, set_tasks, g_tasks in *. cbn [k_sys s_tasks g_cur_task].
  rewrite length_alter. split_and!; [done| | |done].
  - rewrite <- (app_nil_r (alter f i _)). apply fs_ok_extends; [done|by rewrite length_alter| |constructor].
    intros j t Ht. destruct (Hlk j t Ht) as (u & Hu & (_ & _ & _ & _ & ? & ?)). by exists u.
  - intros j t Ht. destruct (Hlk j t Ht) as (u & Hu & (E1 & E2 & E3 & E4 & _)).
    unfold slot_ok. rewrite E1, E2, E3, E4. by apply Hslots.
Qed.

Lemma proc_ok_on_task i f k :
  (forall t, kept t (f t)) -> proc_ok k -> proc_ok (on_task i f k).
Proof. intros Hf. apply proc_ok_on_task_at. auto. Qed.

Lemma proc_ok_append t k :
  proc_ok k -> task_count k < PROC_MAX_TASKS ->
  t_pid t = task_count k -> t_stack t = task_stack g_task_stacks (task_count k) ->
  Z.of_nat (length (t_name t)) < TASK_NAME_MAX - 1 -> 0 <= t_vfork_parent t <= task_count k ->
  task_ok (k_sys k) t -> proc_ok (set_tasks (g_tasks k ++ [t]) k).
Proof.
  intros (Hn & Hfs & Hslots & Hcur) Hlt Hpid Hstk Hname Hv Ht.
  unfold proc_ok, task_count, set_tasks, g_tasks in *. cbn [k_sys s_tasks g_cur_task].
  rewrite length_app. cbn [length]. split_and!; [lia| | |].
  - apply fs_ok_extends; [done..| |by constructor]. intros j u Hu. eauto.
  - intros j u [Hu|[Hj Hu]]%lookup_app_Some.
    + destruct (Hslots j u Hu) as (? & ? & ? & ?). split_and!; [done..|lia|lia].
    + apply list_lookup_singleton_Some in Hu as [Hj0 <-].
      assert (j = length (s_tasks (k_sys k))) as -> by lia. split_and!; [done..|lia|lia].
  - destruct (g_cur_task k); [lia|done].
Qed.

Lemma proc_ok_wake_parent t k : proc_ok k -> proc_ok (wake_parent t k).
Proof.
  intros Hok. unfold wake_parent. destruct (t_vfork_parent t =? 0); [done|].
  destruct (task_find _ k); [|done]. apply proc_ok_on_task; [|done].
  intros u. by case_bool_decide.
Qed.

Lemma proc_ok_install i ws k k' : proc_ok k -> install_frame i ws k = Ret k' -> proc_ok k'.
Proof.
  unfold install_frame. intros Hok. destruct (g_tasks k !! i) as [t|]; [|done].
  cbn [of_option]. rewrite bind_ret. destruct (push_all _ _ _) as [sp stk]. intros [= <-].
  apply (proc_ok_on_task i (fun t => set_state TASK_RUNNING (set_sp sp t)) (set_stk stk k)); done.
Qed.

Lemma proc_ok_set_entry i entry argc argv k k' :
  proc_ok k -> task_set_entry irq0_resume i entry argc argv k = Ret k' -> proc_ok k'.
Proof.
  intros Hok. destruct i as [i|]; cbn [task_set_entry]; [|by intros [= <-]].
  destruct (g_tasks k !! i) as [t|]; [|done]. cbn [of_option]. rewrite bind_ret.
  by apply proc_ok_install.
Qed.

Lemma task_alloc_ok name arg k r k' :
  proc_ok k -> task_alloc g_task_stacks name arg k = Ret (r, k') -> proc_ok k'.
Proof.
  intros Hok. unfold task_alloc. destruct (Z.leb_spec PROC_MAX_TASKS (task_count k)) as [|Hlt];
    [by intros [= _ <-]|].
  destruct (paging_clone_pd _) as [[cr3 v]| |]; [|done..]. rewrite bind_ret.
  destruct (cr3 =? 0); [by intros [= _ <-]|]. unfold copy_name.
  destruct (Z.ltb_spec (Z.of_nat (length name)) (TASK_NAME_MAX - 1)); [|done].
  rewrite bind_ret. cbn zeta. intros [= _ <-].
  apply (proc_ok_append _ (set_machine v k)); cbn [t_pid t_stack t_name t_vfork_parent fs_task_init set_fds];
    try done.
  - change (task_count (set_machine v k)) with (task_count k). apply u32_small.
    unfold task_count, PROC_MAX_TASKS in *. lia.
  - unfold task_count. lia.
  - split_and!; [done| |done|].
    + cbn. repeat apply Forall_cons_2; try apply Forall_nil_2; split_and!; cbn; lia || discriminate.
    + cbn. left.
Qed.

Lemma cur_lookup k c t : cur k = Ret (c, t) -> g_cur_task k = Some c /\ g_tasks k !! c = Some t.
Proof.
  unfold cur. destruct (g_cur_task k) as [c'|]; [|done]. cbn [of_option]. rewrite bind_ret.
  destruct (g_tasks k !! c') as [t'|] eqn:Ht; [|done]. cbn. intros [= <- <-]. done.
Qed.

Lemma task_vfork_ok k r k' :
  proc_ok k -> task_vfork g_task_stacks irq0_resume k = Ret (r, k') -> proc_ok k'.
Proof.
  intros Hok. unfold task_vfork. destruct (cur k) as [[c p]| |] eqn:Hcur; [|done..].
  apply cur_lookup in Hcur as [Hc Hp]. rewrite bind_ret.
  destruct (Z.leb_spec PROC_MAX_TASKS (task_count k)) as [|Hlt]; [by intros [= _ <-]|].
  destruct (paging_vfork_clone _) as [[cr3 v]| |]; [|done..]. rewrite bind_ret.
  destruct (cr3 =? 0); [by intros [= _ <-]|]. unfold copy_name.
  destruct (Z.ltb_spec (Z.of_nat (length (t_name p))) (TASK_NAME_MAX - 1)); [|done].
  rewrite bind_ret. cbn zeta. destruct (vfork_frame _ _) as [ws| |]; [|done..]. rewrite bind_ret.
  set (t := mkTask _ _ _ _ _ _ _ _ _ _ _).
  destruct (install_frame _ ws _) as [k1| |] eqn:Hinst; [|done..]. rewrite bind_ret. intros [= _ <-].
  apply proc_ok_on_task; [done|]. eapply proc_ok_install; [|exact Hinst].
  pose proof Hok as (_ & [Htasks _] & Hslots & _). destruct (Hslots c p Hp) as (Hpid & _ & _ & _).
  apply lookup_lt_Some in Hp as Hcl. apply (proc_ok_append _ (set_machine v k)); try done.
  - change (task_count (set_machine v k)) with (task_count k). apply u32_small.
    unfold task_count, PROC_MAX_TASKS in *. lia.
  - cbn. rewrite Hpid. unfold task_count. change (g_tasks (set_machine v k)) with (g_tasks k). lia.
  - apply (task_ok_extends (k_sys k) _ p); [split; [done|eauto]|done..|].
    exact (Forall_lookup_1 _ _ _ _ Htasks Hp).
Qed.

Lemma task_exec_ok path argline k r k' :
  proc_ok k -> task_exec g_task_stacks irq0_resume path argline k = Ret (r, k') -> proc_ok k'.
Proof.
  intros Hok. unfold task_exec. destruct (cur k) as [[c t]| |] eqn:Hcur; [|done..].
  apply cur_lookup in Hcur as [Hc Ht]. rewrite bind_ret.
  destruct (ramfs_lookup _ path) as [i|]; [|by intros [= _ <-]].
  destruct (s_files (k_sys k) !! i) as [f|]; [|done]. cbn [of_option]. rewrite bind_ret.
  destruct (elf_valid _) as [[]| |]; [|by intros [= _ <-]|done..]. rewrite bind_ret. cbn [negb].
  destruct (paging_clone_pd _) as [[cr3 v]| |]; [|done..]. rewrite bind_ret.
  destruct (cr3 =? 0); [by intros [= _ <-]|].
  destruct (elf_load_pd _ _ _) as [[[[[entry ?] ?]|] m]| |]; [|by intros [= _ <-]|done..].
  rewrite bind_ret. set (k1 := set_mem_ m (set_machine v k)).
  destruct (proj1 (proj2 (proj2 Hok)) c t Ht) as (Hpid & Hstk & _).
  set (t' := set_space cr3 (task_stack g_task_stacks (t_pid t)) t).
  assert (Hok1 : proc_ok (on_task c (fun _ => t') k1)).
  { apply proc_ok_on_task_at; [|done]. intros u Hu. change (g_tasks k !! c = Some u) in Hu.
    simplify_eq. split_and!; cbn; congruence. }
  destruct (task_build_argv _ _ _) as [[[argc|] m']| |]; [| |done..]; rewrite bind_ret.
  - destruct (task_set_entry _ _ _ _ _ _) as [k2| |] eqn:Hse; [|done..]. rewrite bind_ret.
    intros [= _ <-]. apply proc_ok_wake_parent. by eapply proc_ok_set_entry; [|exact Hse].
  - intros [= _ <-]. apply proc_ok_on_task_at; [|done]. intros u Hu.
    change (g_tasks (on_task c (fun _ => t') k1) !! c = Some u) in Hu.
    rewrite (on_task_lookup c _ k1 t Ht) in Hu. injection Hu as <-. by split_and!.
Qed.

(** The kernel after a file call of task [c]. *)
Definition set_sys (s : sys) k : kern A :=
  mkKern s (g_cur_task k) (k_space k) (k_stk k) (k_frame k).

(** One step of the system: a timer tick, a call of the kernel's task
    functions with any arguments, a half of a wait round, or a file call. *)
Inductive kstep k : kern A -> Prop :=
  | step_tick k' : sched_tick k = Ret (Some k') -> kstep k k'
  | step_boot i k' : (i < length (g_tasks k))%nat -> sched_boot (Some i) k = Some k' -> kstep k k'
  | step_alloc name arg r k' : task_alloc g_task_stacks name arg k = Ret (r, k') -> kstep k k'
  | step_create name entry arg r k' :
      task_create g_task_stacks irq0_resume name entry arg k = Ret (r, k') -> kstep k k'
  | step_set_entry i entry argc argv k' :
      task_set_entry irq0_resume i entry argc argv k = Ret k' -> kstep k k'
  | step_exit status k' : task_exit status k = Ret k' -> kstep k k'
  | step_vfork r k' : task_vfork g_task_stacks irq0_resume k = Ret (r, k') -> kstep k k'
  | step_exec path argline r k' :
      task_exec g_task_stacks irq0_resume path argline k = Ret (r, k') -> kstep k k'
  | step_wait pid k' : wait_round pid k = Ret (inl k') -> kstep k k'
  | step_woken c : kstep k (on_task c (set_state TASK_RUNNING) k)
  | step_file c t call r bs s' :
      g_tasks k !! c = Some t -> fcall_ok (k_sys k) call ->
      fcall_run c call (k_sys k) = Ret (r, bs, s') -> kstep k (set_sys s' k).

Lemma file_call_ok c t call r bs s' k :
  proc_ok k -> g_tasks k !! c = Some t -> fcall_ok (k_sys k) call ->
  fcall_run c call (k_sys k) = Ret (r, bs, s') -> proc_ok (set_sys s' k).
Proof.
  intros (Hn & Hfs & Hslots & Hcur) Ht Hc Hrun.
  destruct (fcall_safe (k_sys k) c t call Hfs Ht Hc) as (r1 & bs1 & s1 & Hrun1 & Hok1 & [Hfds _] & _).
  rewrite Hrun in Hrun1. injection Hrun1 as <- <- <-.
  assert (Hlen : length (s_tasks s') = length (g_tasks k)).
  { apply (f_equal length) in Hfds. by rewrite !length_fmap in Hfds. }
  unfold proc_ok, task_count, g_tasks in *. cbn [set_sys k_sys g_cur_task]. rewrite Hlen.
  split_and!; [done..| |done]. intros i u Hu. apply (f_equal (lookup i)) in Hfds.
  rewrite !list_lookup_fmap, Hu in Hfds. destruct (s_tasks (k_sys k) !! i) as [u'|] eqn:Hu'; [|done].
  destruct (Hslots i u' Hu') as (E1 & E2 & E3 & E4). cbn in Hfds.
  assert (Hp : forall {B} (g : task -> B), (forall t, g (set_fds [] t) = g t) -> g u = g u').
  { intros B g Hg. apply (inj Some) in Hfds. rewrite <- (Hg u), <- (Hg u'). by rewrite Hfds. }
  unfold slot_ok. rewrite (Hp _ t_pid), (Hp _ t_stack), (Hp _ t_name), (Hp _ t_vfork_parent) by done. done.
Qed.

Lemma kstep_ok k k' : proc_ok k -> kstep k k' -> proc_ok k'.
Proof.
  intros Hok Hstep. destruct Hstep as [k' H|i k' Hi H|name arg r k' H|name entry arg r k' H|
    i entry argc argv k' H|status k' H|r k' H|path line r k' H|pid k' H|c|c t call r bs s' Ht Hc H].
  - unfold sched_tick in H. destruct (g_cur_task k) as [slot|]; [|done].
    destruct (task_count k <=? 0); [done|]. destruct (g_tasks k !! slot) as [t|] eqn:Ht; [|done].
    cbn [of_option] in H. rewrite bind_ret in H. destruct (int32 _) as [n| |]; [|done..].
    rewrite bind_ret in H. cbn zeta in H. set (k1 := on_task slot (set_ticks n) k) in *.
    assert (Hk1 : proc_ok k1) by (apply proc_ok_on_task; done).
    apply lookup_lt_Some in Ht as Hslot.
    assert (Hl1 : length (g_tasks k1) = length (g_tasks k)) by (cbn; apply length_alter).
    pose proof (find_seq (fun i => runnable (g_tasks k1) (wrap (length (g_tasks k1)) (slot + i))) 1
      (length (g_tasks k1) - 1)) as Hf. destruct (find _ _) as [i|].
    + injection H as <-. destruct Hk1 as (? & ? & ? & _). split_and!; [done..|].
      change (wrap (length (g_tasks k1)) (slot + i) < length (g_tasks k1))%nat. apply wrap_lt; lia.
    + destruct (runnable _ slot); [by injection H as <-|done].
  - unfold sched_boot in H. destruct (task_count k <=? 0); [done|]. injection H as <-.
    destruct Hok as (? & ? & ? & _). by split_and!.
  - by eapply task_alloc_ok.
  - unfold task_create in H. destruct (task_alloc _ _ _ _) as [[o k1]| |] eqn:Ha; [|done..].
    apply task_alloc_ok in Ha; [|done]. rewrite bind_ret in H. destruct o as [i|].
    + destruct (task_set_entry _ _ _ _ _ k1) as [k2| |] eqn:Hs; [|done..]. injection H as _ <-.
      by eapply proc_ok_set_entry.
    + by injection H as _ <-.
  - by eapply proc_ok_set_entry.
  - unfold task_exit in H. destruct (cur k) as [[c t]| |]; [|done..]. injection H as <-.
    by apply proc_ok_wake_parent, proc_ok_on_task.
  - by eapply task_vfork_ok.
  - by eapply task_exec_ok.
  - unfold wait_round in H. destruct (task_find pid k) as [i|]; [|done].
    destruct (g_tasks k !! i); [|done]. cbn [of_option] in H. rewrite bind_ret in H.
    case_bool_decide; [done|]. destruct (cur k) as [[c tc]| |]; [|done..]. injection H as <-.
    by apply proc_ok_on_task.
  - by apply proc_ok_on_task.
  - by eapply file_call_ok.
Qed.

(** The state at boot: no task yet, files that lie in the archive. *)
Definition booted k : Prop :=
  g_tasks k = [] /\ g_cur_task k = None /\ Forall (file_ok (k_sys k)) (s_files (k_sys k)).

Lemma booted_ok k : booted k -> proc_ok k.
Proof.
  intros (Ht & Hc & Hf). unfold proc_ok, task_count. rewrite Ht, Hc.
  split_and!; [cbn; unfold PROC_MAX_TASKS; lia| |by intros i t|done].
  split; [|done]. change (Forall (task_ok (k_sys k)) (g_tasks k)). by rewrite Ht.
Qed.

End Machine.

(** C6: The task table in every reachable state.  Whatever sequence of ticks,
    task calls and file calls runs after boot, there are at most 32 tasks,
    task [i] has number [i] and the [i]-th kernel stack, names fit their
    arrays, a current task is one of the table, and every open descriptor
    refers to readable data, also those that a vfork child inherited. *)
Theorem proc_reachable_ok {A} `{!FrameAllocator A} g_task_stacks irq0_resume (k k' : kern A) :
  booted k -> rtc (kstep g_task_stacks irq0_resume) k k' -> proc_ok g_task_stacks k'.
Proof.
  intros Hb Hr. apply booted_ok with (g_task_stacks := g_task_stacks) in Hb.
  induction Hr as [|k1 k2 k3 Hstep _ IH]; [done|]. apply IH. by eapply kstep_ok.
Qed.

Definition boot_kern : kern Pmm.pmm :=
  mkKern (mkSys [] (s_files demo_sys) (s_arc demo_sys)) None demo12 ∅ [].

Lemma boot_creates :
  match task_create 0x700000 0x100 (str "idle") 0x200 0 boot_kern with
  | Ret (Some O, k) => length (g_tasks k) = 1%nat
  | _ => False
  end.
Proof. vm_compute. reflexivity. Qed.

Lemma proc_reachable_ok_witness :
  exists k', rtc (kstep 0x700000 0x100) boot_kern k' /\ length (g_tasks k') = 1%nat /\
    proc_ok 0x700000 k'.
Proof.
  pose proof boot_creates as H.
  destruct (task_create 0x700000 0x100 (str "idle") 0x200 0 boot_kern) as [[[[|i]|] k']| |] eqn:E;
    try contradiction.
  assert (Hr : rtc (kstep 0x700000 0x100) boot_kern k') by (eapply rtc_once, step_create; exact E).
  exists k'. split; [exact Hr|]. split; [exact H|].
  apply (proc_reachable_ok 0x700000 0x100 boot_kern k'); [|exact Hr].
  split_and!; [reflexivity..|]. exact (proj2 demo_sys_ok).
Defined.
