(* ===== verification/Syscall.v ===== *)
(** * bsd/kern/init_ram_getty: system calls and the commands of the shell

    valid.c (the command table), the spawning half of script.c, and syscall.c
    with the entry stub of osfmk/x86_64/isr.asm.  Log messages are not
    modelled. *)

From S2P Require Import Prelude Libc Double Printf Pmm Paging Ramfs Elf Fs Proc.
Import Vm.

Definition INIT_LINE_MAX : Z := 256.
Definition INIT_TOKENS_MAX : Z := 16.

(** ** valid.c *)

Inductive init_cmd :=
  | CMD_UNKNOWN | CMD_ECHO | CMD_CLEAR | CMD_VERSION | CMD_LIST | CMD_READ | CMD_PID
  | CMD_SLEEP | CMD_SPAWN | CMD_SHELL | CMD_IDLE | CMD_EXIT.
#[global] Instance init_cmd_eq_dec : EqDecision init_cmd.
Proof. solve_decision. Defined.

(** Name, least and greatest number of arguments; entry [i] is command [i + 1]. *)
Definition cmd_table : list (list Z * Z * Z) :=
  [(str "echo", 1, INIT_TOKENS_MAX - 1); (str "clear", 0, 0); (str "version", 0, 0);
   (str "list", 0, 1); (str "read", 1, 1); (str "pid", 0, 0); (str "sleep", 1, 1);
   (str "spawn", 1, 1); (str "shell", 0, 0); (str "idle", 0, 0); (str "exit", 0, 0)].

Definition cmd_ids : list init_cmd :=
  [CMD_ECHO; CMD_CLEAR; CMD_VERSION; CMD_LIST; CMD_READ; CMD_PID; CMD_SLEEP; CMD_SPAWN;
   CMD_SHELL; CMD_IDLE; CMD_EXIT].

(** [for (i = 0; i < n; i++) if (!ok(s[i])) return 0; return 1;] *)
Fixpoint all_chars (ok : Z -> bool) (n : nat) (s : list Z) : run bool :=
  match n, s with
  | O, _ => Ret true
  | S n, c :: s => if ok c then all_chars ok n s else Ret false
  | S _, [] => Fault
  end.

Definition valid_hex_field (s : list Z) (len : Z) : run bool :=
  all_chars (fun c =>
    ((ch "0" <=? s8 c) && (s8 c <=? ch "9")) || ((ch "a" <=? s8 c) && (s8 c <=? ch "f")) ||
    ((ch "A" <=? s8 c) && (s8 c <=? ch "F"))) (Z.to_nat len) s.

(** [name] is the array. *)
Definition valid_cpio_name (name : list Z) (namesize : Z) : run bool :=
  if namesize <? 2 then Ret false
  else
    last ← byte_at name (namesize - 1);
    if negb (last =? 0) then Ret false
    else
      ok ← all_chars (fun c => negb ((c =? 0) || (c =? 10) || (c =? 13) || (c =? 9)))
             (Z.to_nat (namesize - 1)) name;
      Ret ((ok : bool) && (s32 namesize <=? RAMFS_NAME_MAX)).

(** The index of the first entry of that name. *)
Fixpoint table_index (i : nat) (table : list (list Z * Z * Z)) (name : list Z) : option nat :=
  match table with
  | (n, _, _) :: table => if bool_decide (n = name) then Some i else table_index (S i) table name
  | [] => None
  end.

Definition valid_command (name : option (list Z)) : init_cmd :=
  match name with
  | None | Some [] => CMD_UNKNOWN
  | Some name =>
      match table_index 0 cmd_table name with
      | Some i => default CMD_UNKNOWN (cmd_ids !! i)
      | None => CMD_UNKNOWN
      end
  end.

Definition valid_args (name : option (list Z)) (nargs : Z) : bool :=
  match name with
  | None | Some [] => false
  | Some name =>
      match table_index 0 cmd_table name with
      | Some i =>
          match cmd_table !! i with
          | Some (_, lo, hi) => (lo <=? nargs) && (nargs <=? hi)
          | None => false
          end
      | None => false
      end
  end.

Section Kernel.
Context {A : Type} `{!FrameAllocator A}.
Context (g_task_stacks irq0_resume script_task_main : Z).

(** ** script.c: starting programs *)

Definition SCRIPT_DATA_MAX : Z := 8.

(** The kernel and the paths in [g_script_data]. *)
Record system := mkSystem { sy_k : kern A; g_script_data : list (list Z) }.

Definition set_k (k : kern A) (s : system) : system := mkSystem k (g_script_data s).

Definition script_task_data_new (s : system) : option nat * system :=
  if SCRIPT_DATA_MAX <=? Z.of_nat (length (g_script_data s)) then (None, s)
  else (Some (length (g_script_data s)), mkSystem (sy_k s) (g_script_data s ++ [[]])).

(** The task's argument is the address of its data; here, its index. *)
Definition cmd_spawn (path : list Z) (s : system) : run (Z * system) :=
  let '(d, s) := script_task_data_new s in
  match d with
  | None => Ret (0, s)
  | Some d =>
      p ← copy_name (RAMFS_NAME_MAX - 1) path;
      let s := mkSystem (sy_k s) (<[d := p]> (g_script_data s)) in
      '(_, k) ← task_create g_task_stacks irq0_resume path script_task_main (Z.of_nat d) (sy_k s);
      Ret (0, set_k k s)
  end.

(** [task_build_argv] may fail without a check; [argc] is then whatever the
    variable held. *)
Definition spawn_task (junk : Z) (path : list Z) (argline : option (list Z)) (s : system)
    : run (Z * system) :=
  let k := sy_k s in
  match ramfs_lookup (s_files (k_sys k)) path with
  | None => Ret (-1, s)
  | Some i =>
      f ← of_option (s_files (k_sys k) !! i);
      let img := Some (file_bytes (k_sys k) f) in
      ok ← elf_valid img;
      if (ok : bool) then
        '(t, k) ← task_alloc g_task_stacks path 0 k;
        match t with
        | None => Ret (-1, set_k k s)
        | Some i =>
            t ← of_option (g_tasks k !! i);
            '(r, m) ← elf_load_pd (t_cr3 t) img (k_space k);
            let k := set_mem_ m k in
            match r with
            | None => Ret (-1, set_k (on_task i (set_state TASK_ZOMBIE) k) s)
            | Some (entry, _, _) =>
                '(argv, m) ← task_build_argv t argline (k_space k);
                let k := set_mem_ m k in
                k ← (match argv with
                     | Some argc => task_set_entry irq0_resume (Some i) entry argc ARGV_BASE k
                     | None => task_set_entry irq0_resume (Some i) entry junk 0 k
                     end);
                Ret (0, set_k k s)
            end
        end
      else cmd_spawn path s
  end.

(** ** syscall.c *)

Definition XKERN_EXEC_MAGIC : Z := 0x55550001.

(** Loads through the page tables of the current space. *)
Definition user_load (va : Z) (m : space A) : run Z :=
  match peek m va with Some b => Ret b | None => Fault end.

Fixpoint user_loads (va : Z) (n : nat) (m : space A) : run (list Z) :=
  match n with
  | S n => b ← user_load va m; bs ← user_loads (u64 (va + 1)) n m; Ret (b :: bs)
  | O => Ret []
  end.

(** The string at [va]. *)
Definition user_string (va : Z) (m : space A) : run (list Z) :=
  loop (fun '(va, s) =>
    b ← user_load va m;
    if b =? 0 then Ret (inr (rev s)) else Ret (inl (u64 (va + 1), b :: s))) (va, []).

(** [const char *] that may be null. *)
Definition user_string_opt (va : Z) (m : space A) : run (option (list Z)) :=
  if va =? 0 then Ret None else s ← user_string va m; Ret (Some s).

(** The 13 words of a [struct xkern_stat]. *)
Definition stat_bytes (st : xkern_stat) : list Z :=
  mjoin (le_bytes 4 <$> [0; st_ino st; st_mode st; st_nlink st; 0; 0; 0; st_size st;
                         st_blksize st; st_blocks st; 0; 0; 0]).

(** How a system call ends: it returns a value, having sent bytes to the
    console, or the task has halted for good. *)
Inductive sysret := SysRet (v : Z) (console : list Z) (s : system) | SysHalt (s : system).

(** The clock is read by [tsc_ms]; [clock i] is the [i]-th reading. *)
Context (clock : Z -> Z) (sched_switch : kern A -> run (kern A)) (junk : Z).

Definition sleep_until (target i : Z) : run Z :=
  loop (fun i => if clock i <? target then Ret (inl (i + 1)) else Ret (inr (i + 1))) i.

Definition with_cur (s : system) : run nat := of_option (g_cur_task (sy_k s)).

Definition syscall_dispatch (num a1 a2 a3 : Z) (s : system) : run sysret :=
  let k := sy_k s in
  let m := k_space k in
  let ret v := Ret (SysRet (u32 v) [] s) in
  let ret_k v k := Ret (SysRet (u32 v) [] (set_k k s)) in
  match num with
  | 0 => k ← task_exit (u32 a1) k; Ret (SysHalt (set_k k s))
  | 1 => match g_cur_task k with
         | None => ret 0
         | Some c => t ← of_option (g_tasks k !! c); ret (t_pid t)
         end
  | 17 => match g_cur_task k with
          | None => ret 0
          | Some c => t ← of_option (g_tasks k !! c); ret (if 0 <? t_pid t then t_pid t - 1 else 0)
          end
  | 2 =>
      c ← with_cur s; t ← of_option (g_tasks k !! c);
      let fd := s32 a1 in
      (* the buffer is looked at only for the console *)
      bs ← (if (fd <? 0) || (XKERN_MAX_FDS <=? fd) then Ret []
            else f ← get_fd t fd;
                 if fd_type f =? 2 then user_loads a2 (Z.to_nat (u32 a3)) m else Ret []);
      '(r, out) ← fs_write c fd bs (k_sys k); Ret (SysRet (u32 r) out s)
  | 4 =>
      c ← with_cur s;
      '(r, bs, sy) ← fs_read c (s32 a1) (u32 a3) (k_sys k);
      m ← user_bytes a2 bs m;
      ret_k r (set_mem_ m (set_sys sy k))
  | 3 => _ ← sleep_until (u64 (clock 0 + a1)) 1; ret 0
  | 6 =>
      c ← with_cur s; path ← user_string a1 m;
      '(r, sy) ← fs_open c path (u32 a2) (k_sys k); ret_k r (set_sys sy k)
  | 7 => c ← with_cur s; '(r, sy) ← fs_close c (s32 a1) (k_sys k); ret_k r (set_sys sy k)
  | 8 =>
      c ← with_cur s;
      '(r, sy) ← fs_lseek c (s32 a1) (u32 a2) (u32 a3) (k_sys k); ret_k r (set_sys sy k)
  | 9 =>
      c ← with_cur s; path ← user_string a1 m;
      '(r, st) ← fs_stat c path (k_sys k);
      m ← user_bytes a2 (stat_bytes st) m; ret_k r (set_mem_ m k)
  | 10 => path ← user_string a1 m; r ← fs_access path (u32 a2) (k_sys k); ret r
  | 11 =>
      path ← user_string a1 m;
      '(r, name) ← fs_getdents path (u32 a2) 256 (k_sys k);
      if r =? 0 then ret 0 else m ← user_bytes a3 (name ++ [0]) m; ret_k r (set_mem_ m k)
  | 12 =>
      if a1 =? 0 then ret (-1)
      else
        m ← user_bytes a1 (str "XKERN" ++ [0]) m;
        m ← user_bytes (u64 (a1 + 65)) (str "xkern" ++ [0]) m;
        m ← user_bytes (u64 (a1 + 130)) (str "0.1" ++ [0]) m;
        m ← user_bytes (u64 (a1 + 195)) (str "XKERN 0.1" ++ [0]) m;
        m ← user_bytes (u64 (a1 + 260)) (str "x86_64" ++ [0]) m;
        ret_k 0 (set_mem_ m k)
  | 13 => ret (clock 0)
  | 14 => ret 0
  | 15 => ret 0
  | 16 => ret 0
  | 5 =>
      path ← user_string a1 m; line ← user_string_opt a2 m;
      '(r, s) ← spawn_task junk path line s;
      Ret (SysRet (if r =? 0 then 0 else u32 (-1)) [] s)
  | 18 => '(r, k) ← task_vfork g_task_stacks irq0_resume k; ret_k r k
  | 19 =>
      path ← user_string a1 m; line ← user_string_opt a2 m;
      '(r, k) ← task_exec g_task_stacks irq0_resume path line k;
      ret_k (if r =? 0 then XKERN_EXEC_MAGIC else -1) k
  | 20 =>
      '(r, k) ← task_wait sched_switch (u32 a1) k; ret_k (if r =? 0 then 0 else -1) k
  | _ => ret (-1)
  end.

(** [int $0x80] with the registers of [syscall()] in syscall.h: the stub
    passes rdi, rsi, rdx and rcx, which are the four parameters in order. *)
Definition int80 (num a1 a2 a3 : Z) (s : system) : run sysret :=
  let f := k_frame (sy_k s) in
  let f := <[FRAME_RAX := u64 num]> (<[FRAME_RDX := a3]> (<[FRAME_RSI := a2]> (<[FRAME_RDI := a1]> f))) in
  let k := sy_k s in
  let s := set_k (mkKern (k_sys k) (g_cur_task k) (k_space k) (k_stk k) f) s in
  '(rdi, rsi, rdx, rcx) ← syscall_handler_args f;
  syscall_dispatch (u32 rdi) rsi rdx rcx s.

End Kernel.
Arguments system A : clear implicits.
Arguments sysret A : clear implicits.

(** The system call stub and the dispatcher disagree about the order of the
    arguments.  The stub passes (a1, a2, a3, number), the dispatcher expects
    (number, a1, a2, a3): a system call is dispatched on its first argument.
    In particular [sys_write(1, buf, len)] sends nothing to the console and
    returns the caller's process number. *)
Theorem int80_dispatches_on_first_argument {A} `{!FrameAllocator A} g_task_stacks irq0_resume
    script_main clock switch junk num a1 a2 a3 (s : system A) c t :
  length (k_frame (sy_k s)) = 20%nat -> g_cur_task (sy_k s) = Some c ->
  g_tasks (sy_k s) !! c = Some t ->
  exists f,
    let s' := set_k (mkKern (k_sys (sy_k s)) (g_cur_task (sy_k s)) (k_space (sy_k s))
                       (k_stk (sy_k s)) f) s in
    int80 g_task_stacks irq0_resume script_main clock switch junk num a1 a2 a3 s =
      syscall_dispatch g_task_stacks irq0_resume script_main clock switch junk
        (u32 a1) a2 a3 (u64 num) s' /\
    (num = 2 -> a1 = 1 ->
     int80 g_task_stacks irq0_resume script_main clock switch junk num a1 a2 a3 s =
       Ret (SysRet (u32 (t_pid t)) [] s')).
Proof.
  intros Hf Hc Ht. unfold int80. cbn zeta. eexists.
  assert (Hgate : syscall_handler_args (<[FRAME_RAX:=u64 num]> (<[FRAME_RDX:=a3]>
    (<[FRAME_RSI:=a2]> (<[FRAME_RDI:=a1]> (k_frame (sy_k s)))))) = Ret (a1, a2, a3, u64 num)).
  { destruct (k_frame (sy_k s)) as [|x0 f]; [done|]. do 19 (destruct f as [|? f]; [done|]). done. }
  rewrite Hgate, bind_ret. split; [done|]. intros -> ->. cbn [u32].
  change (u32 1) with 1. cbn [syscall_dispatch set_k sy_k g_cur_task]. rewrite Hc.
  change (g_tasks (mkKern (k_sys (sy_k s)) (Some c) _ _ _)) with (g_tasks (sy_k s)).
  by rewrite Ht.
Qed.

Definition demo_system : system Pmm.pmm := mkSystem demo_kern [].

Lemma int80_dispatches_on_first_argument_witness :
  exists f,
    let s' := set_k (mkKern (k_sys demo_kern) (Some 1%nat) demo12 ∅ f) demo_system in
    int80 0 0 0 (fun i => i) Ret 0 2 1 0x8000000 5 demo_system =
      syscall_dispatch 0 0 0 (fun i => i) Ret 0 1 0x8000000 5 2 s' /\
    (2 = 2 -> 1 = 1 ->
     int80 0 0 0 (fun i => i) Ret 0 2 1 0x8000000 5 demo_system = Ret (SysRet 1 [] s')).
Proof.
  apply (int80_dispatches_on_first_argument 0 0 0 (fun i => i) Ret 0 2 1 0x8000000 5 demo_system 1
    (demo_task 1 "init")); reflexivity.
Defined.
