(* ===== verification/Script.v ===== *)
(** * bsd/kern/init_ram_getty/script.c and init.c: scripts, shell and start-up

    The interpreter reaches the kernel through system calls; the trap that
    carries them is an interface of the model, instantiated with the calls of
    the file layer.  Scripts are interpreted in the archive itself, which the
    tokenizer overwrites. *)

From S2P Require Import Prelude Libc Double Printf Pmm Paging Ramfs Elf Fs Proc Syscall.
Import Vm.

(** What reaches the screen. *)
Inductive out :=
  | OPrintf (fmt : list Z) (args : va_list)
  | OWrite (bs : list Z)
  | OClear
  | OFiles (files : list (list Z * Z)).

(** How a command ends: go on, [return 1], never ([idle]), or at a keyboard
    that has no more input. *)
Inductive outcome := Next | Stop | Idle | Blocked.

(** ** Lines and words *)

(** The characters so far, and the line with the rest of the input. *)
Fixpoint read_line (size : Z) (buf input : list Z) : option (list Z * list Z) :=
  match input with
  | [] => None
  | c :: input =>
      if c =? 10 then Some (buf, input)
      else if c =? 8 then read_line size (take (length buf - 1) buf) input
      else if (c <? 32) || (126 <? c) then read_line size buf input
      else if Z.of_nat (length buf) <? size - 1 then read_line size (buf ++ [c]) input
      else read_line size buf input
  end.

Definition sep (c : Z) : bool := (c =? ch " ") || (c =? 9).

(** All words of the line, and the line as it is left: the separator behind a
    word has become a NUL.  [w] is the word being read. *)
Fixpoint split_words (w : option (list Z)) (line : list Z) : list (list Z) * list Z :=
  match line with
  | [] => (match w with Some w => [w] | None => [] end, [])
  | c :: line =>
      if sep c then
        match w with
        | None => let '(ws, l) := split_words None line in (ws, c :: l)
        | Some w => let '(ws, l) := split_words None line in (w :: ws, 0 :: l)
        end
      else let '(ws, l) := split_words (Some (default [] w ++ [c])) line in (ws, c :: l)
  end.

(** Only the first [INIT_TOKENS_MAX - 1] words are kept. *)
Definition script_tokenize (line : list Z) : list (list Z) * list Z :=
  let '(ws, l) := split_words None line in (take (Z.to_nat (INIT_TOKENS_MAX - 1)) ws, l).

(** [for (i = 1; i < argc; i++) { if (i > 1 && pos < size - 1) b[pos++] = ' ';
    while ( *a && pos < size - 1) b[pos++] = *a++; }] *)
Fixpoint echo_words (b : list Z) (first : bool) (ws : list (list Z)) : list Z :=
  match ws with
  | w :: ws =>
      let b := if negb first && (Z.of_nat (length b) <? INIT_LINE_MAX - 1) then b ++ [ch " "] else b in
      echo_words (b ++ take (Z.to_nat (INIT_LINE_MAX - 1) - length b) w) false ws
  | [] => b
  end.

(** The same with a space that is not checked against the end of the array. *)
Fixpoint spawn_line (b : list Z) (ws : list (list Z)) : run (list Z) :=
  match ws with
  | w :: ws =>
      b ← (if 0 <? Z.of_nat (length b)
           then if Z.of_nat (length b) <? INIT_LINE_MAX then Ret (b ++ [ch " "]) else Fault
           else Ret b);
      spawn_line (b ++ take (Z.to_nat (INIT_LINE_MAX - 1) - length b) w) ws
  | [] => if Z.of_nat (length b) <? INIT_LINE_MAX then Ret b else Fault
  end.

Section Interpreter.
Context {A : Type} `{!FrameAllocator A}.
Context (g_task_stacks irq0_resume script_task_main junk : Z).

(** The system, the keyboard input to come and the output so far. *)
Record sst := mkSst { sc_sys : system A; sc_in : list Z; sc_out : list out }.

Definition emit (o : out) (st : sst) : sst := mkSst (sc_sys st) (sc_in st) (sc_out st ++ [o]).
Definition set_system (s : system A) (st : sst) : sst := mkSst s (sc_in st) (sc_out st).
Definition kernel (st : sst) : kern A := sy_k (sc_sys st).
Definition files (st : sst) : ramfs := s_files (k_sys (kernel st)).

(** The system calls that the interpreter makes. *)
Record gate := mkGate
  { sys_open : list Z -> sst -> run (Z * sst);
    sys_read : Z -> Z -> sst -> run (Z * list Z * sst);
    sys_write : Z -> list Z -> sst -> run (Z * sst);
    sys_close : Z -> sst -> run (Z * sst);
    sys_getpid : sst -> run Z;
    sys_sleep : Z -> sst -> run sst }.
Context (sys : gate).

Definition name_of_current (st : sst) : run (list Z) :=
  c ← of_option (g_cur_task (kernel st)); t ← of_option (g_tasks (kernel st) !! c); Ret (t_name t).

(** All commands but [shell]. *)
Definition command (id : init_cmd) (argv : list (list Z)) (st : sst) : run (outcome * sst) :=
  let arg1 := of_option (argv !! 1%nat) in
  match id with
  | CMD_ECHO =>
      let b := echo_words [] true (tail argv) in
      let b := if Z.of_nat (length b) <? INIT_LINE_MAX - 1 then b ++ [10] else b in
      '(_, st) ← sys_write sys 1 b st; Ret (Next, st)
  | CMD_CLEAR => Ret (Next, emit OClear st)
  | CMD_VERSION => Ret (Next, emit (OPrintf (str "XKERN initram getty v0.1" ++ [10]) []) st)
  | CMD_LIST =>
      if (1 <? Z.of_nat (length argv)) && bool_decide (argv !! 1%nat = Some (str "/proc")) then
        text ← procfs_list 128 (kernel st);
        Ret (Next, emit (OPrintf (str "%s") [AStr (Some text)]) st)
      else Ret (Next, emit (OFiles (ramfs_list (files st))) st)
  | CMD_READ =>
      path ← arg1;
      '(fd, st) ← sys_open sys path st;
      let fd := s32 fd in
      if fd <? 0 then
        Ret (Next, emit (OPrintf (str "init: '%s' not found" ++ [10]) [AStr (Some path)]) st)
      else
        '(n, b, st) ← sys_read sys fd 512 st;
        '(_, st) ← sys_close sys fd st;
        let n := s32 n in
        if 0 <? n then
          (* b[n] = 0 in an array of 512 *)
          if n <? 512 then
            Ret (Next, emit (OPrintf (str "%s") [AStr (Some (cut (take (Z.to_nat n) b)))]) st)
          else Fault
        else Ret (Next, st)
  | CMD_PID =>
      pid ← sys_getpid sys st; name ← name_of_current st;
      Ret (Next, emit (OPrintf (str "pid %u (%s)" ++ [10]) [AWord pid; AStr (Some name)]) st)
  | CMD_SLEEP =>
      a ← arg1; ms ← Stdlib.atoi a; st ← sys_sleep sys (u32 ms) st; Ret (Next, st)
  | CMD_SPAWN =>
      line ← spawn_line [] (tail argv);
      a ← arg1;
      '(_, s) ← spawn_task g_task_stacks irq0_resume script_task_main junk a (Some line) (sc_sys st);
      Ret (Next, set_system s st)
  | CMD_IDLE => Ret (Idle, st)
  | CMD_EXIT => Ret (Stop, st)
  | CMD_SHELL | CMD_UNKNOWN => Ret (Next, st)
  end.

(** Commands and the shell call each other; the fuel bounds the number of
    lines that are read. *)
Fixpoint script_exec (fuel : nat) (argv : list (list Z)) (st : sst) {struct fuel}
    : run (outcome * sst) :=
  let id := valid_command (argv !! 0%nat) in
  if bool_decide (id = CMD_UNKNOWN) || negb (valid_args (argv !! 0%nat) (Z.of_nat (length argv) - 1))
  then Ret (Next, st)
  else
    match id with
    | CMD_SHELL =>
        let st := emit (OPrintf (str "getty shell on initram, type 'exit' to stop" ++ [10]) []) st in
        match fuel with
        | O => Spin
        | S fuel =>
            '(o, st) ← script_shell fuel st;
            Ret (match o with Stop => Next | o => o end, st)
        end
    | id => command id argv st
    end
with script_shell (fuel : nat) (st : sst) {struct fuel} : run (outcome * sst) :=
  match fuel with
  | O => Spin
  | S fuel =>
      let st := emit (OPrintf (str "$ ") []) st in
      match read_line INIT_LINE_MAX [] (sc_in st) with
      | None => Ret (Blocked, st)
      | Some (line, rest) =>
          let st := mkSst (sc_sys st) rest (sc_out st) in
          let '(argv, _) := script_tokenize line in
          if (0 <? Z.of_nat (length argv)) then
            '(o, st) ← script_exec fuel argv st;
            match o with
            | Next => script_shell fuel st
            | o => Ret (o, st)
            end
          else script_shell fuel st
      end
  end.

(** [n] bytes stored at [i] of the archive. *)
Definition arc_store (i : Z) (bs : list Z) (st : sst) : sst :=
  let k := kernel st in
  let sy := k_sys k in
  let arc := s_arc sy in
  let arc := take (Z.to_nat i) arc ++ bs ++ drop (Z.to_nat i + length bs) arc in
  set_system (set_k (set_sys (mkSys (s_tasks sy) (s_files sy) arc) k) (sc_sys st)) st.

(** The text before a character, and whether the character was found. *)
Fixpoint upto (c : Z) (s : list Z) : list Z * bool :=
  match s with
  | d :: s => if d =? c then ([], true) else let '(l, b) := upto c s in (d :: l, b)
  | [] => ([], false)
  end.

(** The loop over the lines, from offset [pos] of the archive; the value of the
    function, or how the interpreter stopped. *)
Fixpoint script_lines (fuel : nat) (pos : Z) (st : sst) : run ((Z + outcome) * sst) :=
  match fuel with
  | O => Spin
  | S fuel' =>
      s ← Klog.c_str (drop (Z.to_nat pos) (s_arc (k_sys (kernel st))));
      if bool_decide (s = []) then Ret (inl 0, st)
      else
        let '(line, nl) := upto 10 s in
        let '(argv, line') := script_tokenize line in
        let st := arc_store pos (line' ++ if nl then [0] else []) st in
        '(o, st) ← (if 0 <? Z.of_nat (length argv) then script_exec fuel argv st else Ret (Next, st));
        match o with
        | Stop => Ret (inl 1, st)
        | Next => if nl then script_lines fuel' (pos + Z.of_nat (length line) + 1) st else Ret (inl 0, st)
        | o => Ret (inr o, st)
        end
  end.

Definition script_run (fuel : nat) (path : list Z) (st : sst) : run ((Z + outcome) * sst) :=
  match ramfs_lookup (files st) path with
  | None => Ret (inl (-1), st)
  | Some i => f ← of_option (files st !! i); script_lines fuel (f_off f) st
  end.

(** The body of a script task, up to its [sys_exit]. *)
Definition script_task (fuel : nat) (st : sst) : run ((Z + outcome) * sst) :=
  c ← of_option (g_cur_task (kernel st)); t ← of_option (g_tasks (kernel st) !! c);
  path ← of_option (g_script_data (sc_sys st) !! Z.to_nat (t_arg t));
  let args := [AWord (t_pid t); AStr (Some (t_name t))] in
  let st := emit (OPrintf (str "[%u] %s: start" ++ [10]) args) st in
  '(r, st) ← script_run fuel path st;
  match r with
  | inl _ => Ret (r, emit (OPrintf (str "[%u] %s: done, exiting" ++ [10]) args) st)
  | inr _ => Ret (r, st)
  end.

End Interpreter.
Arguments sst A : clear implicits.
Arguments gate A : clear implicits.

(** The calls carried out by the file layer for the current task. *)
Definition direct {A} `{!FrameAllocator A} : gate A :=
  let cur st := of_option (g_cur_task (kernel st)) in
  let upd st sy := set_system (set_k (set_sys sy (kernel st)) (sc_sys st)) st in
  mkGate
    (fun path st => c ← cur st; '(r, sy) ← fs_open c path 0 (k_sys (kernel st)); Ret (u32 r, upd st sy))
    (fun fd n st => c ← cur st; '(r, bs, sy) ← fs_read c fd n (k_sys (kernel st)); Ret (u32 r, bs, upd st sy))
    (fun fd bs st => c ← cur st; '(r, o) ← fs_write c fd bs (k_sys (kernel st));
       Ret (u32 r, emit (OWrite o) st))
    (fun fd st => c ← cur st; '(r, sy) ← fs_close c fd (k_sys (kernel st)); Ret (u32 r, upd st sy))
    (fun st => c ← cur st; t ← of_option (g_tasks (kernel st) !! c); Ret (t_pid t))
    (fun _ st => Ret st).

(** ** Theorems *)

(** A line of words between separators. *)
Inductive line_of : list (list Z) -> list Z -> Prop :=
  | line_end bs : Forall (fun c => sep c = true) bs -> line_of [] bs
  | line_word bs w ws rest :
      Forall (fun c => sep c = true) bs -> w <> [] -> Forall (fun c => sep c = false) w ->
      match rest with c :: _ => sep c = true | [] => True end ->
      line_of ws rest -> line_of (w :: ws) (bs ++ w ++ rest).

Lemma split_seps bs rest :
  Forall (fun c => sep c = true) bs ->
  (split_words None (bs ++ rest)).1 = (split_words None rest).1.
Proof.
  induction 1 as [|c bs Hc _ IH]; [done|]. cbn [app split_words]. rewrite Hc.
  by destruct (split_words None (bs ++ rest)).
Qed.

Lemma split_word acc w rest :
  Forall (fun c => sep c = false) w -> acc ++ w <> [] ->
  (match rest with c :: _ => sep c = true | [] => True end) ->
  (split_words (if bool_decide (acc = []) then None else Some acc) (w ++ rest)).1 =
  (acc ++ w) :: (split_words None rest).1.
Proof.
  intros Hw. revert acc. induction Hw as [|c w Hc _ IH]; intros acc Hne Hrest.
  - rewrite app_nil_r in *. rewrite bool_decide_eq_false_2 by done.
    destruct rest as [|c rest]; [done|]. cbn. rewrite Hrest.
    by destruct (split_words None rest).
  - cbn [app split_words]. rewrite Hc.
    specialize (IH (acc ++ [c])). rewrite <- app_assoc in IH. cbn [app] in IH.
    rewrite bool_decide_eq_false_2 in IH by (by destruct acc).
    rewrite <- IH by done. replace (default [] (if bool_decide (acc = []) then None else Some acc))
      with acc by (case_bool_decide; by subst).
    by destruct (split_words (Some (acc ++ [c])) (w ++ rest)).
Qed.

(** The script tokenizer splits a line at blanks and tabs into its words
    and keeps the first fifteen. *)
Theorem script_tokenize_words ws line :
  line_of ws line -> (script_tokenize line).1 = take 15 ws.
Proof.
  intros Hl. assert (H : (split_words None line).1 = ws).
  { induction Hl as [bs Hbs|bs w ws rest Hbs Hne Hw Hr _ IH].
    - rewrite <- (app_nil_r bs), split_seps by done. done.
    - rewrite split_seps by done. rewrite <- IH.
      exact (split_word [] w rest Hw Hne Hr). }
  unfold script_tokenize. destruct (split_words None line) as [ws' l]. cbn in *. by subst.
Qed.

Lemma script_tokenize_words_witness :
  (script_tokenize (str " echo  hi ")).1 = [str "echo"; str "hi"].
Proof.
  apply (script_tokenize_words [str "echo"; str "hi"] (str " echo  hi ")).
  apply (line_word (str " ") (str "echo")); [by repeat constructor|done|by repeat constructor|done|].
  apply (line_word (str "  ") (str "hi")); [by repeat constructor|done|by repeat constructor|done|].
  apply line_end. by repeat constructor.
Defined.

Section Overrun.
Context {A : Type} `{!FrameAllocator A}.

(** [command] on "read": what the file layer answers decides. *)
Lemma read_command g_task_stacks irq0_resume main junk (g : gate A) path st fd st1 b st2 r st3 :
  sys_open g path st = Ret (fd, st1) -> 0 <= s32 fd ->
  sys_read g (s32 fd) 512 st1 = Ret (512, b, st2) -> sys_close g (s32 fd) st2 = Ret (r, st3) ->
  command g_task_stacks irq0_resume main junk g CMD_READ [str "read"; path] st = Fault.
Proof.
  intros Ho Hfd Hr Hc. cbn [command]. cbn [lookup list_lookup of_option]. rewrite bind_ret, Ho, bind_ret.
  cbn zeta. rewrite (proj2 (Z.ltb_ge _ 0)) by lia. rewrite Hr, bind_ret, Hc, bind_ret. done.
Qed.

End Overrun.

(** The command [read] terminates the text it has read at [b[n]] without a
    test: whenever the file fills the buffer of 512 bytes, the byte behind the
    array is overwritten. *)
Theorem script_read_overruns {A} `{!FrameAllocator A} g_task_stacks irq0_resume main junk (g : gate A)
    fuel path st fd st1 b st2 r st3 :
  sys_open g path st = Ret (fd, st1) -> 0 <= s32 fd ->
  sys_read g (s32 fd) 512 st1 = Ret (512, b, st2) -> sys_close g (s32 fd) st2 = Ret (r, st3) ->
  script_exec g_task_stacks irq0_resume main junk g fuel [str "read"; path] st = Fault.
Proof.
  intros. destruct fuel; cbn [script_exec lookup list_lookup]; eapply read_command; eassumption.
Qed.

(** A system with a script and a file of 600 bytes. *)
Definition script_text : list Z := str "echo one" ++ [10] ++ str "echo two" ++ [10; 0].
Definition script_sys : sys :=
  mkSys [demo_task 0 "idle"; demo_task 1 "init"]
    [mkFile (str "rc") 0 18; mkFile (str "big") 20 600]
    (script_text ++ [0] ++ replicate 600 (ch "x")).
Definition script_st : sst Pmm.pmm :=
  mkSst (mkSystem (mkKern script_sys (Some 1%nat) demo12 ∅ []) []) [] [].

Lemma big_fills :
  match sys_open direct (str "big") script_st with
  | Ret (fd, st1) => fd = 3 /\
      match sys_read direct 3 512 st1 with
      | Ret (n, _, st2) => n = 512 /\
          match sys_close direct 3 st2 with Ret _ => True | _ => False end
      | _ => False
      end
  | _ => False
  end.
Proof. vm_compute. done. Qed.

Lemma script_read_overruns_witness :
  script_exec 0 0 0 0 direct 1 [str "read"; str "big"] script_st = Fault.
Proof.
  pose proof big_fills as H.
  destruct (sys_open direct (str "big") script_st) as [[fd st1]| |] eqn:Ho; [|contradiction..].
  destruct H as [-> H].
  destruct (sys_read direct 3 512 st1) as [[[n b] st2]| |] eqn:Hr; [|contradiction..].
  destruct H as [-> H].
  destruct (sys_close direct 3 st2) as [[r st3]| |] eqn:Hc; [|contradiction..].
  apply (script_read_overruns 0 0 0 0 direct 1 (str "big") script_st 3 st1 b st2 r st3 Ho);
    [vm_compute; discriminate|exact Hr|exact Hc].
Defined.

(** The output of the first and of a second run of a script. *)
Definition twice (fuel : nat) (path : list Z) (st : sst Pmm.pmm) : run (list out * list out) :=
  '(_, st1) ← script_run 0 0 0 0 direct fuel path st;
  '(_, st2) ← script_run 0 0 0 0 direct fuel path (mkSst (sc_sys st1) (sc_in st1) []);
  Ret (sc_out st1, sc_out st2).

(** A script is destroyed by running it.  The interpreter stores its
    terminators into the archive: a script of two [echo] lines prints both
    when it is run for the first time and nothing when it is run again. *)
Theorem script_runs_once :
  twice 5 (str "/rc") script_st =
  Ret ([OWrite (str "one" ++ [10]); OWrite (str "two" ++ [10])], []).
Proof. vm_compute. reflexivity. Qed.

(** ** init.c *)

Definition MULTIBOOT_MODS_REQ : Z := 0x8.

(** [g_initrd_addr], [g_initrd_size] and [g_initrd_present]. *)
Record initrd := mkInitrd { g_initrd_addr : Z; g_initrd_size : Z; g_initrd_present : bool }.

(** The boot information: its flags and its modules (start, end). *)
Definition initram_collect (mbi : option (Z * list (Z * Z))) (i : initrd) : Z * initrd :=
  match mbi with
  | None => (-1, i)
  | Some (flags, mods) =>
      if Z.land flags MULTIBOOT_MODS_REQ =? 0 then (-1, i)
      else
        match mods with
        | [] => (-1, i)
        | (start, end_) :: _ => (0, mkInitrd start (u32 (end_ - start)) true)
        end
  end.

Definition initram_reserve (i : initrd) (s : vm Pmm.pmm) : run (vm Pmm.pmm) :=
  if g_initrd_present i then
    s ← paging_map_region (g_initrd_addr i) (g_initrd_addr i) (g_initrd_size i) PAGE_WRITE s;
    a ← Pmm.pmm_reserve (g_initrd_addr i) (g_initrd_size i) (alloc s);
    Ret (mkVm (mem s) a (cr3 s))
  else Ret s.

(** How start-up ends: a panic, [return -1], or the scheduler running. *)
Inductive started {A} := SPanic | SFailed | SBoot (s : system A).
Arguments started A : clear implicits.

Lemma alter_last {B} (g : B -> B) (l : list B) x : alter g (length l) (l ++ [x]) = l ++ [g x].
Proof. induction l as [|y l IH]; [done|]. cbn. f_equal. exact IH. Qed.

Section Init.
Context {A : Type} `{!FrameAllocator A}.
Context (g_task_stacks irq0_resume script_task_main idle_main : Z).

(** [arc] is the memory at [g_initrd_addr].  A loaded ELF image stores its
    64-bit entry point and argument count into 32-bit variables. *)
Definition initram_getty_init (i : initrd) (arc : list Z) (s : system A) : run (started A) :=
  if g_initrd_present i && valid_cpio_magic arc then
    '(r, fs) ← cpio_unpack arc (g_initrd_size i);
    if negb (r =? 0) then Ret SPanic
    else
      let k := sy_k s in
      let k := set_sys (mkSys (g_tasks k) fs arc) k in
      '(idle, k) ← task_create g_task_stacks irq0_resume (str "idle") idle_main 0 k;
      match idle with
      | None => Ret SPanic
      | Some idle =>
          let boot k s :=
            match sched_boot (Some idle) k with
            | Some k => Ret (SBoot (set_k k s))
            | None => Ret SPanic
            end in
          elf ← (match ramfs_lookup fs (str "/init") with
                 | None => Ret None
                 | Some n =>
                     f ← of_option (fs !! n);
                     ok ← elf_valid (Some (file_bytes (k_sys k) f));
                     Ret (if (ok : bool) then Some f else None)
                 end);
          match elf with
          | Some f =>
              '(t, k) ← task_alloc g_task_stacks (str "init") 0 k;
              match t with
              | None => Ret SPanic
              | Some t =>
                  t ← of_option (g_tasks k !! t);
                  '(r, _) ← elf_load_pd (t_cr3 t) (Some (file_bytes (k_sys k) f)) (k_space k);
                  match r with
                  | None => Ret SPanic
                  | Some _ => Fault
                  end
              end
          | None =>
              let '(d, s) := script_task_data_new (set_k k s) in
              match d with
              | None => Ret SFailed
              | Some d =>
                  p ← copy_name (RAMFS_NAME_MAX - 1) (str "/init");
                  let s := mkSystem (sy_k s) (<[d := p]> (g_script_data s)) in
                  '(t, k) ← task_create g_task_stacks irq0_resume (str "init") script_task_main
                              (Z.of_nat d) (sy_k s);
                  match t with
                  | None => Ret SPanic
                  | Some _ => boot k s
                  end
              end
          end
      end
  else Ret SPanic.

(** Creating a task on a machine with a free frame. *)
Lemma task_create_spec own name entry arg (k : kern A) :
  vm_ok (machine (k_space k)) own -> fa_frames (alloc (machine (k_space k))) <> ∅ ->
  task_count k < PROC_MAX_TASKS -> Z.of_nat (length name) < TASK_NAME_MAX - 1 ->
  exists k' t, task_create g_task_stacks irq0_resume name entry arg k =
      Ret (Some (length (g_tasks k)), k') /\
    g_tasks k' = g_tasks k ++ [t] /\ t_state t = TASK_RUNNING /\ t_name t = name /\
    t_arg t = arg /\ s_files (k_sys k') = s_files (k_sys k) /\ s_arc (k_sys k') = s_arc (k_sys k) /\
    vm_ok (machine (k_space k')) own /\
    (size (fa_frames (alloc (machine (k_space k)))) <=
       size (fa_frames (alloc (machine (k_space k')))) + 1)%nat.
Proof.
  intros Hvm Hfree Hcount Hname. unfold task_create, task_alloc.
  rewrite (proj2 (Z.leb_gt _ _)) by done.
  destruct (paging_clone_pd_spec _ own Hvm Hfree) as (f & v & -> & Htook & _).
  pose proof Htook as (_ & _ & Hin & [Hf _] & Hfr & _).
  rewrite !bind_ret, (proj2 (Z.eqb_neq f 0)) by lia. unfold copy_name.
  rewrite (proj2 (Z.ltb_lt _ _)) by done. rewrite !bind_ret. cbn zeta. cbn [task_set_entry].
  set (t := fs_task_init _). set (k1 := set_tasks _ _).
  change (g_tasks (set_machine v k)) with (g_tasks k).
  assert (Ht : g_tasks k1 !! length (g_tasks k) = Some t)
    by (change (g_tasks k1) with (g_tasks k ++ [t]); by rewrite lookup_app_r, Nat.sub_diag by lia).
  rewrite Ht. cbn [of_option]. rewrite bind_ret. set (ws := entry_frame _ _ _ _ _).
  destruct (install_frame_spec (length (g_tasks k)) t ws k1 Ht) as (k' & stk & -> & -> & _).
  rewrite bind_ret. eexists _, _. split; [done|]. split.
  - change (g_tasks (on_task ?i ?g (set_stk stk k1))) with (alter g i (g_tasks k ++ [t])).
    apply alter_last.
  - split_and!; [done..|by eapply took_frame_ok|].
    cbn. rewrite Hfr, size_difference, size_singleton by set_solver. lia.
Qed.

(** Start-up.  If the archive unpacks, its "/init" is no ELF image and two
    frames are free, start-up runs the scheduler with the idle task current
    and an init task that will interpret "/init"; both are runnable and the
    file system holds the unpacked files. *)
Theorem initram_boots own i arc fs (s : system A) :
  g_initrd_present i = true -> valid_cpio_magic arc = true ->
  cpio_unpack arc (g_initrd_size i) = Ret (0, fs) ->
  (forall n f, ramfs_lookup fs (str "/init") = Some n -> fs !! n = Some f ->
     elf_valid (Some (take (Z.to_nat (f_size f)) (drop (Z.to_nat (f_off f)) arc))) = Ret false) ->
  g_tasks (sy_k s) = [] -> g_script_data s = [] ->
  vm_ok (machine (k_space (sy_k s))) own ->
  (2 <= size (fa_frames (alloc (machine (k_space (sy_k s))))))%nat ->
  exists s' idle init, initram_getty_init i arc s = Ret (SBoot s') /\
    g_tasks (sy_k s') = [idle; init] /\ g_cur_task (sy_k s') = Some 0%nat /\
    t_state idle = TASK_RUNNING /\ t_state init = TASK_RUNNING /\
    t_name idle = str "idle" /\ t_name init = str "init" /\
    g_script_data s' !! Z.to_nat (t_arg init) = Some (str "/init") /\
    s_files (k_sys (sy_k s')) = fs /\ s_arc (k_sys (sy_k s')) = arc.
Proof.
  intros Hp Hmag Hun Helf Hts Hsd Hvm Hsz. unfold initram_getty_init. rewrite Hp, Hmag. cbn [andb].
  rewrite Hun, bind_ret. cbn [Z.eqb negb]. rewrite Hts.
  set (k0 := set_sys (mkSys [] fs arc) (sy_k s)).
  assert (Hne : forall X : gset Z, (1 <= size X)%nat -> X <> ∅)
    by (intros X HX ->; rewrite size_empty in HX; lia).
  destruct (task_create_spec own (str "idle") idle_main 0 k0)
    as (k1 & t0 & -> & Hg1 & Hs0 & Hn0 & _ & Hf1 & Ha1 & Hvm1 & Hsz1); [done|apply Hne; cbn; lia|done..|].
  change (g_tasks k0) with ([] : list task) in *. cbn [app length] in *. rewrite bind_ret.
  assert (Hnoelf : match ramfs_lookup fs (str "/init") with
    | None => Ret None
    | Some n => f ← of_option (fs !! n); ok ← elf_valid (Some (file_bytes (k_sys k1) f));
                Ret (if (ok : bool) then Some f else None)
    end = Ret None).
  { destruct (ramfs_lookup fs (str "/init")) as [n|] eqn:Hl; [|done].
    pose proof (find_file_spec fs (skip_slash (str "/init"))) as Hspec. unfold ramfs_lookup in Hl.
    rewrite Hl in Hspec. destruct Hspec as (f & Hf & _). rewrite Hf. cbn [of_option]. rewrite bind_ret.
    unfold file_bytes. rewrite Ha1. cbn [s_arc k_sys set_sys k0]. by rewrite (Helf n f). }
  rewrite Hnoelf, bind_ret. unfold script_task_data_new. cbn [g_script_data set_k sy_k]. rewrite Hsd.
  cbn [length app]. change (SCRIPT_DATA_MAX <=? Z.of_nat 0) with false. cbn [andb].
  change (copy_name (RAMFS_NAME_MAX - 1) (str "/init")) with (Ret (str "/init")). rewrite bind_ret.
  cbn [sy_k g_script_data].
  destruct (task_create_spec own (str "init") script_task_main (Z.of_nat 0) k1)
    as (k2 & t1 & -> & Hg2 & Hs1 & Hn1 & Harg & Hf2 & Ha2 & _ & _);
    [done|apply Hne; cbn in *; lia|unfold task_count; by rewrite Hg1|done|].
  rewrite bind_ret, Hg1 in *. cbn [app] in Hg2. unfold sched_boot, task_count. rewrite Hg2.
  cbn [length Z.of_nat Z.leb Z.compare]. eexists _, t0, t1. split; [done|].
  rewrite Harg. cbn [sy_k set_k set_cur g_tasks k_sys g_cur_task g_script_data].
  change (s_tasks (k_sys k2)) with (g_tasks k2). split_and!; [done..| |].
  - exact (eq_trans Hf2 Hf1).
  - exact (eq_trans Ha2 Ha1).
Qed.

End Init.

Lemma demo_empty_init :
  forall n f, ramfs_lookup [] (str "/init") = Some n -> ([] : ramfs) !! n = Some f ->
    elf_valid (Some (take (Z.to_nat (f_size f)) (drop (Z.to_nat (f_off f)) (archive [])))) = Ret false.
Proof. done. Qed.

Lemma initram_boots_witness :
  exists s' idle init,
    initram_getty_init 0x700000 0x100 0x200 0x300
      (mkInitrd 0x800000 (Z.of_nat (length (archive []))) true) (archive []) (mkSystem boot_kern [])
      = Ret (SBoot s') /\
    g_tasks (sy_k s') = [idle; init] /\ g_cur_task (sy_k s') = Some 0%nat /\
    t_state idle = TASK_RUNNING /\ t_state init = TASK_RUNNING /\
    t_name idle = str "idle" /\ t_name init = str "init" /\
    g_script_data s' !! Z.to_nat (t_arg init) = Some (str "/init") /\
    s_files (k_sys (sy_k s')) = [] /\ s_arc (k_sys (sy_k s')) = archive [].
Proof.
  apply (initram_boots 0x700000 0x100 0x200 0x300 {[0x1000 := []]}
    (mkInitrd 0x800000 (Z.of_nat (length (archive []))) true) (archive []) []).
  - reflexivity.
  - reflexivity.
  - vm_compute. reflexivity.
  - exact demo_empty_init.
  - reflexivity.
  - reflexivity.
  - exact demo12_ok.
  - apply (bool_decide_unpack _). vm_compute. done.
Defined.
