(* ===== verification/Devfs.v ===== *)
(** * bsd/devfs/devfs.c: the tree of device nodes

    Nodes live in a table and refer to each other by index; the table is the
    list of the slots in use.  Drivers are records of functions.  Shown: the
    table stays a tree with distinct sibling names, a node that was added is
    found under its path, a removed one is not, other paths keep their nodes. *)

From S2P Require Import Prelude Libc Printf Ramfs Fs.

Definition DEVFS_PATH_MAX : Z := 64.
Definition BSD_DEVFS_NAME_MAX : Z := 32.
Definition DEVFS_MAX_NODES : Z := 128.
Definition DEVFS_MAX_CHILDREN : Z := 32.

Inductive devfs_node_type := DEVFS_NODE_DIR | DEVFS_NODE_BLOCK | DEVFS_NODE_CHAR | DEVFS_NODE_SYMLINK.
#[global] Instance devfs_node_type_eq_dec : EqDecision devfs_node_type.
Proof. solve_decision. Defined.

Inductive devfs_dev_class :=
  | DEVFS_CLASS_UNKNOWN | DEVFS_CLASS_CPU | DEVFS_CLASS_STORAGE | DEVFS_CLASS_USB
  | DEVFS_CLASS_HID_KBD | DEVFS_CLASS_HID_MOUSE | DEVFS_CLASS_GRAPHICS | DEVFS_CLASS_AUDIO
  | DEVFS_CLASS_NETWORK | DEVFS_CLASS_SERIAL | DEVFS_CLASS_PCI | DEVFS_CLASS_FRAMEBUFFER.

(** A driver: each function may be missing; the node is given by its index. *)
Record devfs_ops := mkOps
  { op_class : devfs_dev_class;
    op_open : option (nat -> Z); op_close : option (nat -> Z);
    op_read : option (nat -> Z -> Z -> Z * list Z);
    op_write : option (nat -> Z -> list Z -> Z) }.

Record devfs_node := mkNode
  { n_name : list Z; n_type : devfs_node_type; n_class : devfs_dev_class; n_mode : Z; n_size : Z;
    n_rdev : Z; n_ops : option devfs_ops; n_priv : Z; n_parent : nat; n_children : list nat; n_id : Z }.

Record devfs := mkDevfs { g_nodes : list devfs_node; g_next_id : Z }.

Definition devclass_name (dc : devfs_dev_class) : list Z :=
  match dc with
  | DEVFS_CLASS_CPU => str "cpu" | DEVFS_CLASS_STORAGE => str "storage" | DEVFS_CLASS_USB => str "usb"
  | DEVFS_CLASS_HID_KBD => str "kbd" | DEVFS_CLASS_HID_MOUSE => str "mouse"
  | DEVFS_CLASS_GRAPHICS => str "graphics" | DEVFS_CLASS_AUDIO => str "audio"
  | DEVFS_CLASS_NETWORK => str "network" | DEVFS_CLASS_SERIAL => str "serial"
  | DEVFS_CLASS_PCI => str "pci" | DEVFS_CLASS_FRAMEBUFFER => str "fb"
  | DEVFS_CLASS_UNKNOWN => str "unknown"
  end.

Definition nodetype_name (t : devfs_node_type) : list Z :=
  match t with
  | DEVFS_NODE_DIR => str "dir" | DEVFS_NODE_BLOCK => str "blk"
  | DEVFS_NODE_CHAR => str "chr" | DEVFS_NODE_SYMLINK => str "lnk"
  end.

(** ** Paths *)

Definition SLASH : Z := ch "/".

(** [w--; while (w > 0 && out[w - 1] != '/') w--;] on the characters written,
    last first. *)
Fixpoint to_slash (rout : list Z) : list Z :=
  match rout with
  | c :: r => if c =? SLASH then rout else to_slash r
  | [] => []
  end.
Definition back_up (out : list Z) : list Z := rev (to_slash (tail (rev out))).

(** The main loop; [sl]: in the inner loop that skips slashes. *)
Fixpoint norm_loop (out_sz : Z) (sl : bool) (out p : list Z) : list Z :=
  match p with
  | [] => out
  | c :: p1 =>
      if sl && (c =? SLASH) then norm_loop out_sz true out p1
      else if out_sz - 1 <=? Z.of_nat (length out) then out
      else if c =? SLASH then norm_loop out_sz true (out ++ [SLASH]) p1
      else
        match p1 with
        | [] => norm_loop out_sz false (out ++ [c]) p1
        | d :: p2 =>
            if (c =? ch ".") && (d =? SLASH) then norm_loop out_sz false out p2
            else
              match p2 with
              | [] => norm_loop out_sz false (out ++ [c]) p1
              | e :: p3 =>
                  if (c =? ch ".") && (d =? ch ".") && (e =? SLASH)
                  then norm_loop out_sz false (back_up out) p3
                  else norm_loop out_sz false (out ++ [c]) p1
              end
        end
  end.

Definition normalize_path (p : list Z) : list Z :=
  let out := norm_loop DEVFS_PATH_MAX true [] p in
  if bool_decide (out = []) then [SLASH]
  else if bool_decide (last out = Some SLASH) then
    if (length out =? 1)%nat then out else take (length out - 1) out
  else out.

(** The text behind the last slash. *)
Fixpoint leaf_from (lst p : list Z) : list Z :=
  match p with
  | c :: p => if c =? SLASH then leaf_from p p else leaf_from lst p
  | [] => lst
  end.
Definition path_leaf (p : list Z) : list Z := leaf_from p p.

(** [while (i > 0 && parent_path[i - 1] != '/') i--;] *)
Fixpoint scan_back (p : list Z) (i : nat) : nat :=
  match i with
  | O => O
  | S j => if bool_decide (p !! j = Some SLASH) then i else scan_back p j
  end.
Definition parent_path (norm : list Z) : list Z :=
  if (1 <? length norm)%nat then take (scan_back norm (length norm - 1)) norm else [SLASH].

(** The components that the segment loops take from a path: up to a slash or
    31 characters; [acc] is the one being read. *)
Fixpoint components (acc p : list Z) : list (list Z) :=
  match p with
  | [] => if bool_decide (acc = []) then [] else [acc]
  | c :: p =>
      if c =? SLASH then if bool_decide (acc = []) then components [] p else acc :: components [] p
      else if Z.of_nat (length acc) <? BSD_DEVFS_NAME_MAX - 1 then components (acc ++ [c]) p
      else acc :: components [c] p
  end.

(** The first component is skipped if it is the root's name. *)
Definition skip_root (root : list Z) (cs : list (list Z)) : list (list Z) :=
  match cs with
  | c :: cs' => if bool_decide (c = root) then cs' else cs
  | [] => []
  end.

(** ** Nodes *)

Fixpoint child_named (ns : list devfs_node) (name : list Z) (cs : list nat) : run (option nat) :=
  match cs with
  | c :: cs =>
      n ← of_option (ns !! c);
      if bool_decide (n_name n = name) then Ret (Some c) else child_named ns name cs
  | [] => Ret None
  end.

Definition find_child (ns : list devfs_node) (parent : nat) (name : list Z) : run (option nat) :=
  p ← of_option (ns !! parent); child_named ns name (n_children p).

(** The root node; its id is 1. *)
Definition root_node : devfs_node :=
  mkNode (str "dev") DEVFS_NODE_DIR DEVFS_CLASS_UNKNOWN 0x1ED 0 0 None 0 0 [] 1.

Definition devfs_init : Z * devfs := (0, mkDevfs [root_node] 2).

(** The walk of [devfs_node_find]. *)
Fixpoint walk (ns : list devfs_node) (cur : nat) (cs : list (list Z)) : run (option nat) :=
  match cs with
  | c :: cs =>
      o ← find_child ns cur c;
      match o with Some i => walk ns i cs | None => Ret None end
  | [] => Ret (Some cur)
  end.

(** The walk of [devfs_node_add]: every node on the way is a directory. *)
Fixpoint walk_dirs (ns : list devfs_node) (cur : nat) (cs : list (list Z)) : run (option nat) :=
  match cs with
  | c :: cs =>
      o ← find_child ns cur c;
      match o with
      | Some i =>
          n ← of_option (ns !! i);
          if bool_decide (n_type n = DEVFS_NODE_DIR) then walk_dirs ns i cs else Ret None
      | None => Ret None
      end
  | [] => Ret (Some cur)
  end.

Definition root_name (d : devfs) : run (list Z) := n ← of_option (g_nodes d !! 0%nat); Ret (n_name n).

Definition devfs_node_find (path : list Z) (d : devfs) : run (option nat) :=
  let norm := normalize_path path in
  if bool_decide (norm = [SLASH]) || bool_decide (norm = str "/dev") then Ret (Some 0%nat)
  else root ← root_name d; walk (g_nodes d) 0 (skip_root root (components [] norm)).

Definition add_child (slot : nat) (n : devfs_node) : devfs_node :=
  mkNode (n_name n) (n_type n) (n_class n) (n_mode n) (n_size n) (n_rdev n) (n_ops n) (n_priv n)
    (n_parent n) (n_children n ++ [slot]) (n_id n).

(** The return value; [node] is the caller's description of the new node. *)
Definition devfs_node_add (node : devfs_node) (d : devfs) : run (Z * devfs) :=
  let ns := g_nodes d in
  if DEVFS_MAX_NODES <=? Z.of_nat (length ns) then Ret (-1, d)
  else
    let norm := normalize_path (n_name node) in
    _ ← copy_name (BSD_DEVFS_NAME_MAX - 1) norm;
    let leaf := path_leaf norm in
    if DEVFS_PATH_MAX <=? Z.of_nat (length norm) then Ret (-1, d)
    else
      let pp := parent_path norm in
      parent ← (if bool_decide (pp = [SLASH]) then Ret (Some 0%nat)
                else
                  _ ← copy_name (DEVFS_PATH_MAX - 1) pp;
                  root ← root_name d; walk_dirs ns 0 (skip_root root (components [] pp)));
      match parent with
      | None => Ret (-1, d)
      | Some parent =>
          dup ← find_child ns parent leaf;
          match dup with
          | Some _ => Ret (-1, d)
          | None =>
              leaf ← copy_name (BSD_DEVFS_NAME_MAX - 1) leaf;
              p ← of_option (ns !! parent);
              let slot := length ns in
              let new := mkNode leaf (n_type node) (n_class node) (n_mode node) (n_size node)
                           (n_rdev node) (n_ops node) (n_priv node) parent [] (g_next_id d) in
              if Z.of_nat (length (n_children p)) <? DEVFS_MAX_CHILDREN
              then Ret (0, mkDevfs (alter (add_child slot) parent ns ++ [new]) (u32 (g_next_id d + 1)))
              else Ret (-1, mkDevfs ns (u32 (g_next_id d + 1)))
          end
      end.

(** [children[i]], the first that is [idx], is taken out. *)
Fixpoint drop_child (idx : nat) (cs : list nat) : list nat :=
  match cs with
  | c :: cs => if (c =? idx)%nat then cs else c :: drop_child idx cs
  | [] => []
  end.

Definition cut_child (idx : nat) (n : devfs_node) : devfs_node :=
  mkNode (n_name n) (n_type n) (n_class n) (n_mode n) (n_size n) (n_rdev n) (n_ops n) (n_priv n)
    (n_parent n) (drop_child idx (n_children n)) (n_id n).

(** The slot of the node stays in use. *)
Definition devfs_node_remove (path : list Z) (d : devfs) : run (Z * devfs) :=
  let norm := normalize_path path in
  o ← devfs_node_find norm d;
  match o with
  | None => Ret (-1, d)
  | Some O => Ret (-1, d)
  | Some idx =>
      n ← of_option (g_nodes d !! idx);
      Ret (0, mkDevfs (alter (cut_child idx) (n_parent n) (g_nodes d)) (g_next_id d))
  end.

Definition devfs_node_find_id (id : Z) (d : devfs) : option nat :=
  fst <$> list_find (fun n => n_id n = id) (g_nodes d).

Definition devfs_node_count (d : devfs) : Z := Z.of_nat (length (g_nodes d)).

Definition devfs_mkdir (path : list Z) (d : devfs) : run (Z * devfs) :=
  name ← copy_name (BSD_DEVFS_NAME_MAX - 1) path;
  devfs_node_add (mkNode name DEVFS_NODE_DIR DEVFS_CLASS_UNKNOWN 0x1ED 0 0 None 0 0 [] 0) d.

Definition devfs_add_device (path : list Z) (type : devfs_node_type) (ops : option devfs_ops) (priv : Z)
    (d : devfs) : run (Z * devfs) :=
  name ← copy_name (BSD_DEVFS_NAME_MAX - 1) path;
  let class := match ops with Some o => op_class o | None => DEVFS_CLASS_UNKNOWN end in
  devfs_node_add (mkNode name type class 0x1B0 0 0 ops priv 0 [] 0) d.

(** ** Operations on a node *)

Section Ops.
Context (d : devfs).

(** [node && node->ops && node->ops->f] *)
Definition node_op {B} (f : devfs_ops -> option B) (i : nat) : option B :=
  n ← g_nodes d !! i; o ← n_ops n; f o.

Definition default_open (i : nat) : Z := match node_op op_open i with Some f => f i | None => 0 end.
Definition default_close (i : nat) : Z := match node_op op_close i with Some f => f i | None => 0 end.
Definition default_read (i : nat) (off len : Z) : Z * list Z :=
  match node_op op_read i with Some f => f i off len | None => (-1, []) end.
Definition default_write (i : nat) (off : Z) (buf : list Z) : Z :=
  match node_op op_write i with Some f => f i off buf | None => -1 end.

(** The fields that are set: [st_rdev] is new here. *)
Record dev_stat := mkDevStat { ds_stat : xkern_stat; ds_rdev : Z }.

Definition S_IFBLK : Z := 0x6000.
Definition S_IFCHR : Z := 0x2000.

Definition default_stat (n : option devfs_node) : Z * dev_stat :=
  match n with
  | None => (-1, mkDevStat zero_stat 0)
  | Some n =>
      let blocks := if n_size n =? 0 then 0 else u32 (n_size n + 511) / 512 in
      (0, match n_type n with
          | DEVFS_NODE_DIR => mkDevStat (mkStat (n_id n) (Z.lor S_IFDIR (n_mode n)) 1 0 4096 0) 0
          | DEVFS_NODE_BLOCK =>
              mkDevStat (mkStat (n_id n) (Z.lor S_IFBLK (n_mode n)) 1 (n_size n) 4096 blocks) (n_rdev n)
          | DEVFS_NODE_CHAR =>
              mkDevStat (mkStat (n_id n) (Z.lor S_IFCHR (n_mode n)) 1 (n_size n) 4096 blocks) (n_rdev n)
          | DEVFS_NODE_SYMLINK => mkDevStat (mkStat (n_id n) (Z.lor S_IFREG (n_mode n)) 1 0 4096 0) 0
          end)
  end.

Definition default_getdents (path : list Z) (index namelen : Z) : run (Z * list Z) :=
  o ← devfs_node_find path d;
  match o with
  | None => Ret (0, [])
  | Some i =>
      dir ← of_option (g_nodes d !! i);
      if negb (bool_decide (n_type dir = DEVFS_NODE_DIR)) then Ret (0, [])
      else
        match n_children dir !! Z.to_nat index with
        | None => Ret (0, [])
        | Some c =>
            child ← of_option (g_nodes d !! c);
            name ← put_name namelen (n_name child);
            Ret (if bool_decide (n_type child = DEVFS_NODE_DIR) then XKERN_DT_DIR else XKERN_DT_REG, name)
        end
  end.

Definition devfs_vfs_open (path : list Z) (flags : Z) : run Z :=
  o ← devfs_node_find path d;
  match o with
  | None => Ret (-1)
  | Some i =>
      n ← of_option (g_nodes d !! i);
      if bool_decide (n_type n = DEVFS_NODE_DIR) then Ret (-2) else Ret (default_open i)
  end.

Definition devfs_vfs_close (fd : Z) : Z :=
  match devfs_node_find_id (u32 fd) d with None => -1 | Some i => default_close i end.
Definition devfs_vfs_read (fd n : Z) : Z * list Z :=
  match devfs_node_find_id (u32 fd) d with None => (-1, []) | Some i => default_read i 0 n end.
Definition devfs_vfs_write (fd : Z) (buf : list Z) : Z :=
  match devfs_node_find_id (u32 fd) d with None => -1 | Some i => default_write i 0 buf end.

Definition devfs_vfs_stat (path : list Z) : run (Z * option dev_stat) :=
  o ← devfs_node_find path d;
  match o with
  | None => Ret (-1, None)
  | Some i => let '(r, st) := default_stat (g_nodes d !! i) in Ret (r, Some st)
  end.

Definition devfs_vfs_getdents (path : list Z) (index namelen : Z) : run (Z * list Z) :=
  default_getdents path index namelen.

(** ** The tree as text *)

(** [strncpy] into 48 bytes, then four characters if they fit. *)
Definition extend_prefix (prefix tail4 : list Z) : run (list Z) :=
  p ← copy_name 47 prefix;
  Ret (if Z.of_nat (length p) <? 44 then p ++ tail4 else p).

(** The lines that are logged, as format and arguments.  A tree of [n] nodes is
    no deeper than [n]. *)
Fixpoint dump_node (fuel : nat) (idx : nat) (prefix : list Z) (is_last : bool)
    : run (list (list Z * va_list)) :=
  match fuel with
  | O => Spin
  | S fuel =>
      n ← of_option (g_nodes d !! idx);
      branch ← extend_prefix prefix (if is_last then str "`-- " else str "|-- ");
      child_prefix ← extend_prefix prefix (if is_last then str "    " else str "|   ");
      let b := AStr (Some branch) in
      let name := AStr (Some (n_name n)) in
      let line :=
        match n_type n with
        | DEVFS_NODE_DIR => (str "%s%s/", [b; name])
        | DEVFS_NODE_BLOCK => (str "%s%s  [blk %s]", [b; name; AStr (Some (devclass_name (n_class n)))])
        | DEVFS_NODE_CHAR => (str "%s%s  [chr %s]", [b; name; AStr (Some (devclass_name (n_class n)))])
        | DEVFS_NODE_SYMLINK => (str "%s%s  [lnk]", [b; name])
        end in
      rest ← (fix go (cs : list nat) : run (list (list Z * va_list)) :=
                match cs with
                | [] => Ret []
                | c :: cs =>
                    l ← dump_node fuel c child_prefix (bool_decide (cs = []));
                    ls ← go cs; Ret (l ++ ls)
                end) (n_children n);
      Ret (line :: rest)
  end.

Definition devfs_dump : run (list (list Z * va_list)) :=
  ls ← dump_node (length (g_nodes d)) 0 [] true;
  Ret ((str "devfs tree (%u nodes):", [AWord (devfs_node_count d)]) :: ls).

End Ops.

(** ** The last component of a path *)

Lemma last_slash p :
  (SLASH ∉ p) \/ exists pre leaf, p = pre ++ SLASH :: leaf /\ (SLASH ∉ leaf).
Proof.
  induction p as [|c p IH]; [left; by apply not_elem_of_nil|].
  destruct IH as [Hno|(pre & leaf & -> & Hno)]; [|right; by exists (c :: pre), leaf].
  destruct (decide (c = SLASH)) as [->|Hc]; [right; by exists [], p|].
  left. by apply not_elem_of_cons.
Qed.

Lemma leaf_from_none lst p : SLASH ∉ p -> leaf_from lst p = lst.
Proof.
  induction p as [|c p IH]; [done|]. intros [Hc Hp]%not_elem_of_cons. cbn.
  rewrite (proj2 (Z.eqb_neq c SLASH)) by done. auto.
Qed.

Lemma path_leaf_app pre leaf : SLASH ∉ leaf -> path_leaf (pre ++ SLASH :: leaf) = leaf.
Proof.
  intros Hno. unfold path_leaf. generalize (pre ++ SLASH :: leaf) at 1 as lst.
  induction pre as [|c pre IH]; intros lst; cbn [app leaf_from].
  - rewrite Z.eqb_refl. by apply leaf_from_none.
  - destruct (c =? SLASH); apply IH.
Qed.

Lemma scan_back_none p i : SLASH ∉ p -> scan_back p i = 0%nat.
Proof.
  intros Hno. induction i as [|i IH]; [done|]. cbn. rewrite bool_decide_eq_false_2; [done|].
  intros H%list_elem_of_lookup_2. done.
Qed.

Lemma scan_back_app pre leaf i :
  SLASH ∉ leaf -> (length pre < i)%nat -> scan_back (pre ++ SLASH :: leaf) i = S (length pre).
Proof.
  intros Hno. induction i as [|i IH]; intros Hi; [lia|]. cbn [scan_back].
  destruct (decide (i = length pre)) as [->|Hne].
  - rewrite bool_decide_eq_true_2; [done|]. by rewrite lookup_app_r, Nat.sub_diag by lia.
  - rewrite bool_decide_eq_false_2; [apply IH; lia|]. rewrite lookup_app_r by lia.
    destruct (i - length pre)%nat as [|k] eqn:Hk; [lia|]. cbn.
    intros H%list_elem_of_lookup_2. done.
Qed.

Lemma components_leaf acc leaf :
  SLASH ∉ leaf -> acc ++ leaf <> [] -> Z.of_nat (length (acc ++ leaf)) <= 31 ->
  components acc leaf = [acc ++ leaf].
Proof.
  revert acc. induction leaf as [|c leaf IH]; intros acc Hno Hne Hlen; cbn [components].
  - rewrite app_nil_r in *. by rewrite bool_decide_eq_false_2.
  - apply not_elem_of_cons in Hno as [Hc Hno]. rewrite (proj2 (Z.eqb_neq c SLASH)) by done.
    rewrite length_app in Hlen. cbn in Hlen. unfold BSD_DEVFS_NAME_MAX.
    rewrite (proj2 (Z.ltb_lt _ _)) by lia.
    specialize (IH (acc ++ [c])). rewrite <- app_assoc in IH. apply IH; [done|by destruct acc|].
    rewrite !length_app. cbn. lia.
Qed.

Lemma components_app acc pre leaf :
  SLASH ∉ leaf -> leaf <> [] -> Z.of_nat (length leaf) <= 31 ->
  components acc (pre ++ SLASH :: leaf) = components acc (pre ++ [SLASH]) ++ [leaf].
Proof.
  intros Hno Hne Hlen. revert acc. induction pre as [|c pre IH]; intros acc; cbn [app components].
  - rewrite Z.eqb_refl. rewrite (components_leaf [] leaf) by done. by case_bool_decide.
  - destruct (c =? SLASH); [case_bool_decide; cbn; by rewrite IH|].
    destruct (_ <? _); cbn; by rewrite IH.
Qed.

(** The components of a path are those of its parent and the leaf. *)
Lemma components_parent norm :
  path_leaf norm <> [] -> Z.of_nat (length norm) <= 31 ->
  components [] norm = components [] (parent_path norm) ++ [path_leaf norm].
Proof.
  intros Hne Hlen. unfold parent_path.
  destruct (last_slash norm) as [Hno|(pre & leaf & -> & Hno)].
  - assert (Hleaf : path_leaf norm = norm) by (by apply leaf_from_none). rewrite Hleaf in *.
    rewrite (components_leaf [] norm), scan_back_none by done. by destruct (1 <? _)%nat.
  - rewrite path_leaf_app in * by done. rewrite length_app in *. cbn [length] in *.
    destruct leaf as [|c leaf]; [done|]. cbn [length] in *.
    destruct (Nat.ltb_spec 1 (length pre + S (S (length leaf)))); [|lia].
    rewrite scan_back_app by (done || lia).
    rewrite (components_app [] pre (c :: leaf)) by (done || cbn; lia). do 2 f_equal.
    replace (pre ++ SLASH :: c :: leaf) with ((pre ++ [SLASH]) ++ c :: leaf) by (by rewrite <- app_assoc).
    by rewrite take_app_length' by (rewrite length_app; cbn; lia).
Qed.

(** ** Trees *)

Definition name_at (ns : list devfs_node) (c : nat) : option (list Z) := n_name <$> ns !! c.

(** The table is a tree: children lie behind their parent, refer back to it
    and have names of their own. *)
Definition tree_ok (ns : list devfs_node) : Prop :=
  (exists r, ns !! 0%nat = Some r /\ n_name r = str "dev") /\
  forall i n, ns !! i = Some n ->
    Forall (fun c => (i < c)%nat /\ exists m, ns !! c = Some m /\ n_parent m = i) (n_children n) /\
    NoDup (name_at ns <$> n_children n).

Lemma child_named_spec ns name cs :
  Forall (fun c => is_Some (ns !! c)) cs ->
  exists o, child_named ns name cs = Ret o /\
    match o with
    | Some c => c ∈ cs /\ name_at ns c = Some name
    | None => Some name ∉ (name_at ns <$> cs)
    end.
Proof.
  induction 1 as [|c cs [n Hn] _ IH]; cbn [child_named].
  { exists None. split; [done|]. cbn. by apply not_elem_of_nil. }
  rewrite Hn. cbn [of_option]. rewrite bind_ret.
  assert (Hc : name_at ns c = Some (n_name n)) by (unfold name_at; by rewrite Hn).
  case_bool_decide as Heq.
  - exists (Some c). split; [done|]. split; [by left|congruence].
  - destruct IH as (o & -> & Ho). exists o. split; [done|]. destruct o as [c'|].
    + destruct Ho. split; [by right|done].
    + cbn. apply not_elem_of_cons. split; [congruence|done].
Qed.

Lemma find_child_spec ns i n name :
  tree_ok ns -> ns !! i = Some n ->
  exists o, find_child ns i name = Ret o /\
    match o with
    | Some c => c ∈ n_children n /\ name_at ns c = Some name /\ (i < c)%nat /\
                exists m, ns !! c = Some m /\ n_parent m = i
    | None => Some name ∉ (name_at ns <$> n_children n)
    end.
Proof.
  intros [_ Hok] Hn. unfold find_child. rewrite Hn. cbn [of_option]. rewrite bind_ret.
  destruct (Hok i n Hn) as [Hcs _].
  destruct (child_named_spec ns name (n_children n)) as (o & -> & Ho).
  { eapply Forall_impl; [exact Hcs|]. intros c (_ & m & Hm & _). eauto. }
  exists o. split; [done|]. destruct o as [c|]; [|done]. destruct Ho as [Hc Hname].
  rewrite Forall_forall in Hcs. destruct (Hcs c Hc) as (? & m & ? & ?). by eauto 8.
Qed.

(** A walk in a tree ends, at a node not before its start. *)
Lemma walk_spec ns i cs :
  tree_ok ns -> is_Some (ns !! i) ->
  exists o, walk ns i cs = Ret o /\
    match o with Some q => (i <= q)%nat /\ is_Some (ns !! q) | None => True end.
Proof.
  intros Hok. revert i. induction cs as [|c cs IH]; intros i [n Hn]; cbn [walk].
  { exists (Some i). by eauto. }
  destruct (find_child_spec ns i n c Hok Hn) as ([j|] & -> & Hj); rewrite bind_ret; [|by exists None].
  destruct Hj as (_ & _ & Hij & m & Hm & _). destruct (IH j) as (o & -> & Ho); [by eauto|].
  exists o. split; [done|]. destruct o; [|done]. split; [lia|apply Ho].
Qed.

Lemma walk_snoc ns i cs c :
  walk ns i (cs ++ [c]) =
  (o ← walk ns i cs; match o with Some q => find_child ns q c | None => Ret None end).
Proof.
  revert i. induction cs as [|d cs IH]; intros i; cbn [app walk].
  - rewrite bind_ret. destruct (find_child ns i c) as [[]| |]; done.
  - destruct (find_child ns i d) as [[j|]| |]; cbn; [apply IH|done..].
Qed.

Lemma walk_dirs_walk ns i cs q : walk_dirs ns i cs = Ret (Some q) -> walk ns i cs = Ret (Some q).
Proof.
  revert i. induction cs as [|c cs IH]; intros i; cbn [walk walk_dirs]; [done|].
  destruct (find_child ns i c) as [[j|]| |]; [|done..]. rewrite !bind_ret.
  destruct (ns !! j) as [n|]; [|done]. cbn [of_option]. rewrite bind_ret.
  case_bool_decide; [apply IH|done].
Qed.

Lemma walk_dirs_total ns i cs :
  tree_ok ns -> is_Some (ns !! i) -> exists o, walk_dirs ns i cs = Ret o.
Proof.
  intros Hok. revert i. induction cs as [|c cs IH]; intros i [n Hn]; cbn [walk_dirs]; [by eauto|].
  destruct (find_child_spec ns i n c Hok Hn) as ([j|] & -> & Hj); rewrite bind_ret; [|by eauto].
  destruct Hj as (_ & _ & _ & m & Hm & _). rewrite Hm. cbn [of_option]. rewrite bind_ret.
  case_bool_decide; [apply IH|]; by eauto.
Qed.

(** ** Adding a node *)

Section Add.
Context (ns : list devfs_node) (parent : nat) (p new : devfs_node).
Let slot := length ns.
Let ns' := alter (add_child slot) parent ns ++ [new].
Context (Hok : tree_ok ns) (Hp : ns !! parent = Some p).

Lemma added_lookup i n :
  ns' !! i = Some n ->
  (i = slot /\ n = new) \/
  exists m, ns !! i = Some m /\ n_name n = n_name m /\ n_parent n = n_parent m /\
    n_children n = n_children m ++ (if decide (i = parent) then [slot] else []).
Proof using Hp.
  subst ns'. rewrite lookup_app. destruct (decide (i = parent)) as [->|Hne].
  - rewrite list_lookup_alter_eq, Hp. cbn. intros [= <-]. right. exists p. done.
  - rewrite list_lookup_alter_ne by done. destruct (ns !! i) as [m|] eqn:Hm.
    + intros [= <-]. right. exists m. by rewrite app_nil_r.
    + rewrite length_alter. intros [Hi <-]%list_lookup_singleton_Some. left.
      apply lookup_ge_None in Hm. split; [unfold slot; lia|done].
Qed.

Lemma added_old i m :
  ns !! i = Some m -> exists n, ns' !! i = Some n /\ n_name n = n_name m /\ n_parent n = n_parent m /\
    n_children n = n_children m ++ (if decide (i = parent) then [slot] else []).
Proof using Hp.
  intros Hm. subst ns'. apply lookup_lt_Some in Hm as Hlt.
  rewrite lookup_app_l by (by rewrite length_alter). destruct (decide (i = parent)) as [->|Hne].
  - rewrite list_lookup_alter_eq, Hm. cbn. eexists. by split_and!.
  - rewrite list_lookup_alter_ne by done. exists m. by rewrite app_nil_r.
Qed.

Lemma added_slot : ns' !! slot = Some new.
Proof using Type.
  subst ns' slot. rewrite lookup_app_r; rewrite length_alter; [by rewrite Nat.sub_diag|lia].
Qed.

Lemma added_name_at c m : ns !! c = Some m -> name_at ns' c = name_at ns c.
Proof using Hp.
  intros Hm. destruct (added_old c m Hm) as (n & Hn & Hname & _). unfold name_at.
  rewrite Hn, Hm. cbn. by rewrite Hname.
Qed.

Lemma added_names cs :
  Forall (fun c => is_Some (ns !! c)) cs -> (name_at ns' <$> cs) = (name_at ns <$> cs).
Proof using Hp.
  intros Hcs. apply list_fmap_ext. intros k c Hc.
  destruct (proj1 (Forall_lookup _ _) Hcs k c Hc) as [m Hm]. by eapply added_name_at.
Qed.

Lemma tree_children_some i n : ns !! i = Some n -> Forall (fun c => is_Some (ns !! c)) (n_children n).
Proof using Hok.
  intros Hn. destruct (proj2 Hok i n Hn) as [Hcs _]. eapply Forall_impl; [exact Hcs|].
  intros c (_ & m & Hm & _). by eauto.
Qed.

Lemma tree_ok_added :
  n_parent new = parent -> n_children new = [] ->
  Some (n_name new) ∉ (name_at ns <$> n_children p) -> tree_ok ns'.
Proof using Hok Hp.
  intros Hnp Hnc Hnew. split.
  { destruct (proj1 Hok) as (r & Hr & Hname). destruct (added_old 0 r Hr) as (n & Hn & Hn1 & _).
    exists n. split; [done|congruence]. }
  intros i n Hn. destruct (added_lookup i n Hn) as [[-> ->]|(m & Hm & Hname & Hpar & Hch)].
  { rewrite Hnc. split; constructor. }
  destruct (proj2 Hok i m Hm) as [Hcs Hnd]. rewrite Hch. split.
  - apply Forall_app. split.
    + eapply Forall_impl; [exact Hcs|]. intros c (Hic & u & Hu & Hup). split; [done|].
      destruct (added_old c u Hu) as (u' & Hu' & _ & Hpu & _). exists u'. split; [done|congruence].
    + destruct (decide (i = parent)) as [->|]; [|constructor]. apply Forall_singleton.
      apply lookup_lt_Some in Hp as Hlt. split; [exact Hlt|]. exists new. split; [apply added_slot|done].
  - rewrite fmap_app, added_names by (by eapply tree_children_some).
    apply NoDup_app. split; [done|]. destruct (decide (i = parent)) as [->|].
    + assert (m = p) as -> by congruence. cbn. split; [|apply NoDup_singleton].
      intros x Hx Hx'%list_elem_of_singleton. subst x. apply Hnew.
      replace (name_at ns' slot) with (Some (n_name new)) in Hx
        by (unfold name_at; by rewrite added_slot). done.
    + split; [|constructor]. by intros x _ ?%elem_of_nil.
Qed.

Lemma child_named_added name cs ex :
  Forall (fun c => is_Some (ns !! c)) cs ->
  child_named ns' name (cs ++ ex) =
  (o ← child_named ns name cs; match o with Some c => Ret (Some c) | None => child_named ns' name ex end).
Proof using Hp.
  induction 1 as [|c cs [m Hm] _ IH]; [done|]. cbn [app child_named]. rewrite Hm.
  destruct (added_old c m Hm) as (n & -> & Hname & _). cbn [of_option]. rewrite !bind_ret, Hname.
  case_bool_decide; [done|]. exact IH.
Qed.

(** What was found is found again. *)
Lemma find_child_added i c j : find_child ns i c = Ret (Some j) -> find_child ns' i c = Ret (Some j).
Proof using Hok Hp.
  unfold find_child. destruct (ns !! i) as [m|] eqn:Hm; [|done]. cbn [of_option]. rewrite bind_ret.
  destruct (added_old i m Hm) as (n & -> & _ & _ & Hch). intros Hj. cbn [of_option].
  rewrite bind_ret, Hch, child_named_added by (by eapply tree_children_some). by rewrite Hj.
Qed.

Lemma walk_added i cs q : walk ns i cs = Ret (Some q) -> walk ns' i cs = Ret (Some q).
Proof using Hok Hp.
  revert i. induction cs as [|c cs IH]; intros i; cbn [walk]; [done|].
  destruct (find_child ns i c) as [[j|]| |] eqn:Hj; [|done..]. rewrite (find_child_added i c j Hj).
  rewrite !bind_ret. apply IH.
Qed.

Lemma find_child_new :
  find_child ns parent (n_name new) = Ret None -> find_child ns' parent (n_name new) = Ret (Some slot).
Proof using Hok Hp.
  unfold find_child. rewrite Hp. cbn [of_option]. rewrite bind_ret. intros Hnone.
  destruct (added_old parent p Hp) as (n & -> & _ & _ & Hch). cbn [of_option].
  rewrite bind_ret, Hch, child_named_added by (by eapply tree_children_some).
  rewrite Hnone, bind_ret, decide_True by done. cbn [child_named]. rewrite added_slot. cbn [of_option].
  by rewrite bind_ret, bool_decide_eq_true_2.
Qed.

End Add.

Lemma root_name_ok d : tree_ok (g_nodes d) -> root_name d = Ret (str "dev").
Proof. intros [(r & Hr & Hname) _]. unfold root_name. rewrite Hr. cbn. by rewrite Hname. Qed.

(** The search as a walk. *)
Lemma devfs_node_find_walk path d :
  tree_ok (g_nodes d) ->
  devfs_node_find path d =
  walk (g_nodes d) 0 (skip_root (str "dev") (components [] (normalize_path path))).
Proof.
  intros Hok. unfold devfs_node_find. rewrite root_name_ok, bind_ret by done.
  case_bool_decide as H1; [by rewrite H1|]. case_bool_decide as H2; [by rewrite H2|]. done.
Qed.

(** What a successful call of [devfs_node_add] has done. *)
Lemma devfs_node_add_success node d d' :
  tree_ok (g_nodes d) -> devfs_node_add node d = Ret (0, d') ->
  let norm := normalize_path (n_name node) in
  exists parent p new, g_nodes d !! parent = Some p /\
    g_nodes d' = alter (add_child (length (g_nodes d))) parent (g_nodes d) ++ [new] /\
    n_name new = path_leaf norm /\ n_type new = n_type node /\ n_ops new = n_ops node /\
    n_parent new = parent /\ n_children new = [] /\ n_id new = g_next_id d /\
    walk (g_nodes d) 0 (skip_root (str "dev") (components [] (parent_path norm))) = Ret (Some parent) /\
    find_child (g_nodes d) parent (n_name new) = Ret None /\
    Z.of_nat (length norm) < 31.
Proof.
  intros Hok. unfold devfs_node_add. cbn zeta. set (norm := normalize_path (n_name node)).
  destruct (_ <=? Z.of_nat (length (g_nodes d))); [done|].
  destruct (copy_name (BSD_DEVFS_NAME_MAX - 1) norm) as [nm| |] eqn:Hcn; [|done..].
  assert (Hlen : Z.of_nat (length norm) < BSD_DEVFS_NAME_MAX - 1).
  { unfold copy_name in Hcn. destruct (Z.ltb_spec (Z.of_nat (length norm)) (BSD_DEVFS_NAME_MAX - 1)); done. }
  rewrite bind_ret. destruct (DEVFS_PATH_MAX <=? _); [done|]. intros Hadd.
  assert (Hpar : forall o, (if bool_decide (parent_path norm = [SLASH]) then Ret (Some 0%nat)
      else _ ← copy_name (DEVFS_PATH_MAX - 1) (parent_path norm); root ← root_name d;
           walk_dirs (g_nodes d) 0 (skip_root root (components [] (parent_path norm)))) = Ret (Some o) ->
      walk (g_nodes d) 0 (skip_root (str "dev") (components [] (parent_path norm))) = Ret (Some o)).
  { intros o. case_bool_decide as Hs; [rewrite Hs; by intros [= <-]|].
    destruct (copy_name _ (parent_path norm)); [|done..].
    rewrite bind_ret, root_name_ok, bind_ret by done. apply walk_dirs_walk. }
  destruct (if bool_decide _ then _ else _) as [[parent|]| |]; [|done..]. rewrite bind_ret in Hadd.
  specialize (Hpar parent eq_refl).
  destruct (find_child (g_nodes d) parent (path_leaf norm)) as [[|]| |] eqn:Hdup; [done| |done..].
  rewrite bind_ret in Hadd. unfold copy_name in Hadd.
  destruct (Z.of_nat (length (path_leaf norm)) <? _); [|done]. rewrite bind_ret in Hadd.
  clear Hcn.
  destruct (g_nodes d !! parent) as [p|] eqn:Hp; [|done]. cbn [of_option] in Hadd. rewrite bind_ret in Hadd.
  destruct (_ <? DEVFS_MAX_CHILDREN); [|done]. injection Hadd as <-.
  unfold BSD_DEVFS_NAME_MAX in Hlen. eexists parent, p, _. by split_and!.
Qed.

(** Adding a device node.  After a successful [devfs_node_add] for a path
    that names a node below the root, the table is still a tree, the path
    leads to the new node with the given type and driver, and every path that
    led to a node before still leads to it. *)
Theorem devfs_add_find node d d' :
  tree_ok (g_nodes d) -> devfs_node_add node d = Ret (0, d') ->
  let norm := normalize_path (n_name node) in
  path_leaf norm <> [] -> components [] norm <> [str "dev"] ->
  tree_ok (g_nodes d') /\
  (exists n, devfs_node_find (n_name node) d' = Ret (Some (length (g_nodes d))) /\
     g_nodes d' !! length (g_nodes d) = Some n /\ n_name n = path_leaf norm /\
     n_type n = n_type node /\ n_ops n = n_ops node /\ n_id n = g_next_id d) /\
  (forall path i, devfs_node_find path d = Ret (Some i) -> devfs_node_find path d' = Ret (Some i)).
Proof.
  intros Hok Hadd norm Hleaf Hroot.
  destruct (devfs_node_add_success node d d' Hok Hadd)
    as (parent & p & new & Hp & Hns & Hname & Hty & Hops & Hnp & Hnc & Hid & Hwalk & Hdup & Hlen).
  fold norm in Hname, Hwalk, Hlen.
  assert (Hok' : tree_ok (g_nodes d')).
  { rewrite Hns. apply (tree_ok_added _ parent p); [done..|].
    destruct (find_child_spec (g_nodes d) parent p (n_name new) Hok Hp) as (o & Ho & Hspec).
    rewrite Hdup in Ho. injection Ho as <-. done. }
  split_and!; [done| |].
  - exists new. split; [|split_and!; [rewrite Hns; apply added_slot|done..]].
    rewrite devfs_node_find_walk by done. fold norm. rewrite Hns.
    rewrite components_parent in * by (done || lia).
    assert (Hskip : skip_root (str "dev") (components [] (parent_path norm) ++ [path_leaf norm]) =
      skip_root (str "dev") (components [] (parent_path norm)) ++ [path_leaf norm]).
    { destruct (components [] (parent_path norm)) as [|c cs]; cbn; [|by case_bool_decide].
      rewrite bool_decide_eq_false_2; [done|]. intros Heq. apply Hroot. cbn. by rewrite Heq. }
    rewrite Hskip, walk_snoc, (walk_added _ parent p new Hok Hp _ _ parent Hwalk), bind_ret.
    rewrite <- Hname. by apply (find_child_new _ parent p).
  - intros path i. rewrite !devfs_node_find_walk by done. rewrite Hns.
    by apply (walk_added _ parent p new).
Qed.

(** ** Removing a node *)

Lemma drop_child_sub idx cs : drop_child idx cs `sublist_of` cs.
Proof.
  induction cs as [|c cs IH]; cbn; [done|].
  destruct (c =? idx)%nat; [by apply sublist_cons|by apply sublist_skip].
Qed.

Lemma drop_child_not idx cs : NoDup cs -> idx ∉ drop_child idx cs.
Proof.
  induction 1 as [|c cs Hc Hnd IH]; cbn; [by apply not_elem_of_nil|].
  destruct (Nat.eqb_spec c idx) as [->|Hne]; [done|]. by apply not_elem_of_cons.
Qed.

Section Remove.
Context (ns : list devfs_node) (idx q : nat).
Let ns' := alter (cut_child idx) q ns.
Context (Hok : tree_ok ns).

Lemma cut_lookup i n :
  ns !! i = Some n -> ns' !! i = Some (if decide (i = q) then cut_child idx n else n).
Proof using Type.
  intros Hn. subst ns'. destruct (decide (i = q)) as [->|Hne].
  - by rewrite list_lookup_alter_eq, Hn.
  - by rewrite list_lookup_alter_ne.
Qed.

Lemma cut_name_at c : name_at ns' c = name_at ns c.
Proof using Type.
  unfold name_at. destruct (ns !! c) as [n|] eqn:Hn.
  - rewrite (cut_lookup c n Hn). by destruct (decide (c = q)).
  - apply lookup_ge_None in Hn. rewrite lookup_ge_None_2; [done|]. subst ns'. by rewrite length_alter.
Qed.

Lemma tree_ok_cut : tree_ok ns'.
Proof using Hok.
  split.
  { destruct (proj1 Hok) as (r & Hr & Hname). eexists. split; [by apply cut_lookup|]. by destruct (decide _). }
  intros i n Hn. assert (exists m, ns !! i = Some m) as [m Hm].
  { apply lookup_lt_is_Some_2. apply lookup_lt_Some in Hn. subst ns'. by rewrite length_alter in Hn. }
  rewrite (cut_lookup i m Hm) in Hn. injection Hn as <-.
  destruct (proj2 Hok i m Hm) as [Hcs Hnd].
  assert (Hsub : n_children (if decide (i = q) then cut_child idx m else m) `sublist_of` n_children m)
    by (destruct (decide _); [apply drop_child_sub|done]).
  rewrite (list_fmap_ext (name_at ns') (name_at ns)) by (intros; apply cut_name_at). split.
  - apply Forall_forall. intros c Hc. eapply elem_of_sublist in Hc; [|exact Hsub].
    rewrite Forall_forall in Hcs. destruct (Hcs c Hc) as (Hic & u & Hu & Hup). split; [done|]. eexists. split; [by apply cut_lookup|].
    by destruct (decide (c = q)).
  - eapply sublist_NoDup; [exact Hnd|]. by apply fmap_sublist.
Qed.

(** Children other than those of [q] are found as before. *)
Lemma find_child_cut i c : i <> q -> find_child ns' i c = find_child ns i c.
Proof using Type.
  intros Hne. unfold find_child. destruct (ns !! i) as [n|] eqn:Hn.
  - rewrite (cut_lookup i n Hn), decide_False by done. cbn [of_option]. rewrite !bind_ret.
    induction (n_children n) as [|d ds IH]; [done|]. cbn [child_named].
    destruct (ns !! d) as [m|] eqn:Hm.
    + rewrite (cut_lookup d m Hm). cbn [of_option]. rewrite !bind_ret, IH. by destruct (decide (d = q)).
    + subst ns'. rewrite lookup_ge_None_2; [done|]. rewrite length_alter. by apply lookup_ge_None.
  - subst ns'. rewrite lookup_ge_None_2; [done|]. rewrite length_alter. by apply lookup_ge_None.
Qed.

(** A walk to [q] does not look at the children of [q]. *)
Lemma walk_cut i cs :
  is_Some (ns !! i) -> walk ns i cs = Ret (Some q) -> walk ns' i cs = Ret (Some q).
Proof using Hok.
  revert i. induction cs as [|c cs IH]; intros i [n Hn]; cbn [walk]; [done|].
  destruct (find_child_spec ns i n c Hok Hn) as ([j|] & Hj & Hspec); rewrite Hj, bind_ret; [|done].
  destruct Hspec as (_ & _ & Hij & m & Hm & _). intros Hw.
  destruct (walk_spec ns j cs Hok) as (o & Ho & Hle); [by eauto|].
  rewrite Hw in Ho. injection Ho as <-. destruct Hle as [Hle _].
  rewrite find_child_cut by lia. rewrite Hj, bind_ret. apply IH; [by eauto|done].
Qed.

Lemma find_child_gone c n :
  ns !! q = Some n -> find_child ns q c = Ret (Some idx) -> find_child ns' q c = Ret None.
Proof using Hok.
  intros Hn Hf. destruct (find_child_spec ns q n c Hok Hn) as (o & Ho & Hspec).
  rewrite Hf in Ho. injection Ho as <-. destruct Hspec as (Hin & Hname & _).
  destruct (find_child_spec ns' q _ c tree_ok_cut (cut_lookup q n Hn)) as (o & -> & Hspec).
  destruct o as [j|]; [|done]. rewrite decide_True in Hspec by done. cbn [n_children cut_child] in Hspec.
  destruct Hspec as (Hj & Hjn & _). rewrite cut_name_at in Hjn.
  destruct (proj2 Hok q n Hn) as [_ Hnd]. exfalso.
  assert (Hjc : j ∈ n_children n) by (eapply elem_of_sublist; [exact Hj|apply drop_child_sub]).
  assert (j = idx) as ->.
  { apply list_elem_of_lookup in Hjc as [a Ha]. apply list_elem_of_lookup in Hin as [b Hb].
    assert (a = b) as ->; [|congruence].
    eapply NoDup_lookup; [exact Hnd| |]; rewrite list_lookup_fmap.
    - rewrite Ha. cbn. by rewrite Hjn.
    - rewrite Hb. cbn. by rewrite Hname. }
  eapply drop_child_not; [|exact Hj]. by eapply NoDup_fmap_1.
Qed.

End Remove.

(** Removing a device node.  If a path leads to a node other than the root,
    [devfs_node_remove] succeeds, the table is still a tree and the path leads
    to nothing; the number of slots in use is unchanged, so that the table
    fills up under repeated additions and removals. *)
Theorem devfs_remove_find path d idx :
  tree_ok (g_nodes d) -> idx <> 0%nat ->
  devfs_node_find (normalize_path path) d = Ret (Some idx) ->
  exists d', devfs_node_remove path d = Ret (0, d') /\ tree_ok (g_nodes d') /\
    devfs_node_find (normalize_path path) d' = Ret None /\
    devfs_node_count d' = devfs_node_count d.
Proof.
  intros Hok Hne Hfind. unfold devfs_node_remove. cbn zeta. rewrite Hfind, bind_ret.
  destruct (proj1 Hok) as (r & Hr & _).
  rewrite devfs_node_find_walk in Hfind by done.
  set (cs := skip_root _ _) in Hfind.
  assert (exists cs0 c, cs = cs0 ++ [c]) as (cs0 & c & Hcs).
  { destruct cs as [|c0 cs1] using rev_ind; [by injection Hfind|by eauto]. }
  rewrite Hcs, walk_snoc in Hfind.
  destruct (walk_spec (g_nodes d) 0 cs0 Hok) as (o & Ho & Hq); [by eauto|].
  rewrite Ho, bind_ret in Hfind. destruct o as [q|]; [|done]. destruct Hq as [_ [n Hn]].
  destruct (find_child_spec (g_nodes d) q n c Hok Hn) as (o & Hc & Hspec).
  rewrite Hfind in Hc. injection Hc as <-. destruct Hspec as (_ & _ & _ & m & Hm & Hpar).
  destruct idx as [|idx']; [done|]. rewrite Hm. cbn [of_option]. rewrite bind_ret, Hpar.
  eexists. split; [done|]. cbn [g_nodes]. split; [by apply tree_ok_cut|]. split.
  - rewrite devfs_node_find_walk by (by apply tree_ok_cut). fold cs. rewrite Hcs, walk_snoc. cbn [g_nodes].
    rewrite (walk_cut _ (S idx') q Hok 0 cs0) by eauto. rewrite bind_ret.
    by apply (find_child_gone _ (S idx') q Hok c n).
  - unfold devfs_node_count. cbn. by rewrite length_alter.
Qed.

(** ** Every reachable table is a tree *)

Inductive dstep (d : devfs) : devfs -> Prop :=
  | dstep_add node r d' : devfs_node_add node d = Ret (r, d') -> dstep d d'
  | dstep_remove path r d' : devfs_node_remove path d = Ret (r, d') -> dstep d d'
  | dstep_mkdir path r d' : devfs_mkdir path d = Ret (r, d') -> dstep d d'
  | dstep_device path type ops priv r d' :
      devfs_add_device path type ops priv d = Ret (r, d') -> dstep d d'.

(** A call that does not return 0 leaves the nodes alone. *)
Lemma devfs_node_add_other node d r d' :
  devfs_node_add node d = Ret (r, d') -> r <> 0 -> g_nodes d' = g_nodes d.
Proof.
  unfold devfs_node_add. cbn zeta. destruct (_ <=? Z.of_nat (length (g_nodes d))); [by intros [= _ <-]|].
  destruct (copy_name _ (normalize_path (n_name node))); [|done..]. rewrite bind_ret.
  destruct (DEVFS_PATH_MAX <=? _); [by intros [= _ <-]|].
  destruct (if bool_decide _ then _ else _) as [[parent|]| |]; [|by intros [= _ <-]|done..].
  rewrite bind_ret. destruct (find_child _ _ _) as [[|]| |]; [by intros [= _ <-]| |done..].
  rewrite bind_ret. destruct (copy_name _ (path_leaf _)); [|done..]. rewrite bind_ret.
  destruct (g_nodes d !! parent); [|done]. cbn [of_option]. rewrite bind_ret.
  destruct (_ <? DEVFS_MAX_CHILDREN); [by intros [= <- _]|by intros [= _ <-]].
Qed.

Lemma devfs_node_add_ok node d r d' :
  tree_ok (g_nodes d) -> devfs_node_add node d = Ret (r, d') -> tree_ok (g_nodes d').
Proof.
  intros Hok Hadd. destruct (decide (r = 0)) as [->|Hr].
  - destruct (devfs_node_add_success node d d' Hok Hadd)
      as (parent & p & new & Hp & -> & Hname & _ & _ & Hnp & Hnc & _ & _ & Hdup & _).
    apply (tree_ok_added _ parent p); [done..|].
    destruct (find_child_spec (g_nodes d) parent p (n_name new) Hok Hp) as (o & Ho & Hspec).
    rewrite Hdup in Ho. injection Ho as <-. done.
  - by rewrite (devfs_node_add_other _ _ _ _ Hadd Hr).
Qed.

Lemma dstep_ok d d' : tree_ok (g_nodes d) -> dstep d d' -> tree_ok (g_nodes d').
Proof.
  intros Hok [node r d1 H|path r d1 H|path r d1 H|path type ops priv r d1 H].
  - by eapply devfs_node_add_ok.
  - unfold devfs_node_remove in H. cbn zeta in H.
    destruct (devfs_node_find _ d) as [[[|i]|]| |]; [by injection H as _ <-| |by injection H as _ <-|done..].
    rewrite bind_ret in H. destruct (g_nodes d !! S i); [|done]. cbn in H. injection H as _ <-.
    by apply tree_ok_cut.
  - unfold devfs_mkdir in H. destruct (copy_name _ path); [|done..]. by eapply devfs_node_add_ok.
  - unfold devfs_add_device in H. destruct (copy_name _ path); [|done..]. by eapply devfs_node_add_ok.
Qed.

Lemma devfs_init_ok : tree_ok (g_nodes devfs_init.2).
Proof.
  split; [by exists root_node|]. intros [|i] n Hn; [|done]. injection Hn as <-.
  split; constructor.
Qed.

Lemma reachable_tree_ok d : rtc dstep devfs_init.2 d -> tree_ok (g_nodes d).
Proof.
  intros Hr. pose proof devfs_init_ok as H0.
  induction Hr as [|d1 d2 d3 Hs _ IH]; [done|]. apply IH. by eapply dstep_ok.
Qed.

(** The prefixes of the dump fit their arrays. *)
Lemma extend_prefix_ok prefix t4 :
  length t4 = 4%nat -> (exists k, length prefix = 4 * k /\ k <= 11)%nat ->
  exists p, extend_prefix prefix t4 = Ret p /\ (exists k, length p = 4 * k /\ k <= 11)%nat.
Proof.
  intros Ht (k & Hk & Hk11). unfold extend_prefix, copy_name. rewrite (proj2 (Z.ltb_lt _ _)) by lia.
  rewrite bind_ret. eexists. split; [done|]. destruct (Z.ltb_spec (Z.of_nat (length prefix)) 44).
  - exists (S k). rewrite length_app. lia.
  - exists k. lia.
Qed.

Lemma dump_node_total d fuel idx prefix is_last :
  tree_ok (g_nodes d) -> (idx < length (g_nodes d))%nat -> (length (g_nodes d) - idx <= fuel)%nat ->
  (exists k, length prefix = 4 * k /\ k <= 11)%nat ->
  exists ls, dump_node d fuel idx prefix is_last = Ret ls.
Proof.
  intros Hok. revert idx prefix is_last. induction fuel as [|fuel IH]; intros idx prefix is_last Hi Hf Hp.
  { lia. }
  cbn [dump_node]. destruct (lookup_lt_is_Some_2 _ _ Hi) as [n Hn]. rewrite Hn. cbn [of_option].
  rewrite bind_ret.
  destruct (extend_prefix_ok prefix (if is_last then str "`-- " else str "|-- ")) as (b & -> & _);
    [by destruct is_last|done|]. rewrite bind_ret.
  destruct (extend_prefix_ok prefix (if is_last then str "    " else str "|   ")) as (cp & -> & Hcp);
    [by destruct is_last|done|]. rewrite bind_ret. cbn zeta.
  destruct (proj2 Hok idx n Hn) as [Hcs _].
  match goal with |- context [mbind _ (?g (n_children n))] =>
    assert (Hgo : exists ls, g (n_children n) = Ret ls) end.
  { clear Hn. induction Hcs as [|c cs (Hic & m & Hm & _) _ IHcs]; [by exists []|].
    apply lookup_lt_Some in Hm.
    destruct (IH c cp (bool_decide (cs = []))) as (l & ->); [done|lia|done|]. rewrite bind_ret.
    destruct IHcs as (ls & ->). rewrite bind_ret. by eauto. }
  destruct Hgo as (ls & ->). rewrite bind_ret. by eauto.
Qed.

(** C35: In every table that calls of the devfs interface can produce, nodes form
    a tree with distinct sibling names, and the recursive dump of it ends. *)
Theorem devfs_reachable_tree d :
  rtc dstep devfs_init.2 d -> tree_ok (g_nodes d) /\ exists ls, devfs_dump d = Ret ls.
Proof.
  intros Hr. pose proof (reachable_tree_ok d Hr) as Hok. split; [done|]. destruct (proj1 Hok) as (r & Hroot & _). apply lookup_lt_Some in Hroot.
  unfold devfs_dump. destruct (dump_node_total d (length (g_nodes d)) 0 [] true Hok) as (ls & ->);
    [lia|lia|by exists 0%nat; split; [|lia]|]. rewrite bind_ret. by eauto.
Qed.

(** Opening a device yields nothing to read from.  [devfs_vfs_open] returns
    what the driver's [open] returns, 0 if it has none, while [devfs_vfs_read],
    [_write] and [_close] look for a node with that id, and ids start at 1. *)
Theorem devfs_open_unusable path d i n len buf :
  devfs_node_find path d = Ret (Some i) -> g_nodes d !! i = Some n ->
  n_type n <> DEVFS_NODE_DIR -> node_op d op_open i = None ->
  Forall (fun n => 1 <= n_id n) (g_nodes d) ->
  devfs_vfs_open d path 0 = Ret 0 /\ devfs_vfs_read d 0 len = (-1, []) /\
  devfs_vfs_write d 0 buf = -1 /\ devfs_vfs_close d 0 = -1.
Proof.
  intros Hf Hn Hty Hop Hids. unfold devfs_vfs_open. rewrite Hf, bind_ret, Hn. cbn [of_option].
  rewrite bind_ret, bool_decide_eq_false_2 by done. unfold default_open. rewrite Hop.
  assert (Hnone : devfs_node_find_id (u32 0) d = None).
  { unfold devfs_node_find_id. change (u32 0) with 0.
    destruct (list_find (fun n => n_id n = 0) (g_nodes d)) as [[k m]|] eqn:Hl; [|done].
    apply list_find_Some in Hl as (Hk & H0 & _). eapply Forall_lookup_1 in Hids; [|exact Hk].
    cbn in Hids. lia. }
  unfold devfs_vfs_read, devfs_vfs_write, devfs_vfs_close. by rewrite Hnone.
Qed.

(** ** A small tree *)

Definition demo_tree : devfs :=
  mkDevfs [add_child 1 root_node;
           mkNode (str "usb") DEVFS_NODE_DIR DEVFS_CLASS_UNKNOWN 0x1ED 0 0 None 0 0 [2%nat] 2;
           mkNode (str "kbd0") DEVFS_NODE_CHAR DEVFS_CLASS_HID_KBD 0x1B0 0 0 None 0 1 [] 3] 4.

Definition demo_usb : devfs :=
  mkDevfs [add_child 1 root_node;
           mkNode (str "usb") DEVFS_NODE_DIR DEVFS_CLASS_UNKNOWN 0x1ED 0 0 None 0 0 [] 2] 3.

Definition kbd0 : devfs_node :=
  mkNode (str "/dev/usb/kbd0") DEVFS_NODE_CHAR DEVFS_CLASS_HID_KBD 0x1B0 0 0 None 0 0 [] 0.

Lemma demo_usb_reachable : rtc dstep devfs_init.2 demo_usb.
Proof.
  eapply rtc_once. apply (dstep_mkdir _ (str "/dev/usb") 0). vm_compute. reflexivity.
Qed.

Lemma demo_tree_reachable : rtc dstep devfs_init.2 demo_tree.
Proof.
  eapply rtc_r; [exact demo_usb_reachable|]. apply (dstep_add _ kbd0 0). vm_compute. reflexivity.
Qed.

Lemma devfs_add_find_witness :
  tree_ok (g_nodes demo_tree) /\
  (exists n, devfs_node_find (n_name kbd0) demo_tree = Ret (Some 2%nat) /\
     g_nodes demo_tree !! 2%nat = Some n /\ n_name n = str "kbd0" /\
     n_type n = DEVFS_NODE_CHAR /\ n_ops n = None /\ n_id n = 3) /\
  (forall path i, devfs_node_find path demo_usb = Ret (Some i) ->
     devfs_node_find path demo_tree = Ret (Some i)).
Proof.
  apply (devfs_add_find kbd0 demo_usb demo_tree).
  - apply reachable_tree_ok. exact demo_usb_reachable.
  - vm_compute. reflexivity.
  - vm_compute. discriminate.
  - vm_compute. discriminate.
Defined.

Lemma devfs_remove_find_witness :
  exists d', devfs_node_remove (str "//dev/usb/./kbd0") demo_tree = Ret (0, d') /\ tree_ok (g_nodes d') /\
    devfs_node_find (normalize_path (str "//dev/usb/./kbd0")) d' = Ret None /\
    devfs_node_count d' = devfs_node_count demo_tree.
Proof.
  apply (devfs_remove_find (str "//dev/usb/./kbd0") demo_tree 2).
  - apply reachable_tree_ok. exact demo_tree_reachable.
  - discriminate.
  - vm_compute. reflexivity.
Defined.

Lemma devfs_reachable_tree_witness :
  tree_ok (g_nodes demo_tree) /\ exists ls, devfs_dump demo_tree = Ret ls.
Proof. apply (devfs_reachable_tree demo_tree). exact demo_tree_reachable. Defined.

Lemma devfs_open_unusable_witness :
  devfs_vfs_open demo_tree (str "/dev/usb/kbd0") 0 = Ret 0 /\
  devfs_vfs_read demo_tree 0 16 = (-1, []) /\
  devfs_vfs_write demo_tree 0 [1] = -1 /\ devfs_vfs_close demo_tree 0 = -1.
Proof.
  eapply (devfs_open_unusable (str "/dev/usb/kbd0") demo_tree 2).
  - vm_compute. reflexivity.
  - reflexivity.
  - discriminate.
  - reflexivity.
  - repeat apply Forall_cons_2; try apply Forall_nil_2; vm_compute; discriminate.
Defined.

(** "./" is taken out wherever it stands, also behind other characters of a
    component, and a final ".." stays. *)
Example normalize_dots :
  normalize_path (str "/dev/sda./p1") = str "dev/sdap1" /\
  normalize_path (str "/dev/usb/..") = str "dev/usb/..".
Proof. vm_compute. done. Qed.
