(* ===== verification/Net.v ===== *)
(** * iokit/IONetFamily: ethernet, ARP, IPv4, ICMP, UDP and DHCP

    Packets are lists of bytes; a received frame is the buffer of the driver
    with the length that was received.  The state holds the interface, the
    tables and the frames handed to the driver.  The clock is a sequence of
    readings. *)

From S2P Require Import Prelude Libc Printf Ramfs.

Definition NET_ETH_ALEN : nat := 6.
Definition NET_MTU : Z := 1500.
Definition NET_FRAMESZ : Z := 1518.
Definition ETHERTYPE_IPV4 : Z := 0x0800.
Definition ETHERTYPE_ARP : Z := 0x0806.
Definition IP_PROTO_ICMP : Z := 1.
Definition IP_PROTO_UDP : Z := 17.
Definition ETH_HDR : nat := 14.
Definition IP_HDR : nat := 20.
Definition ARP_CACHE_SIZE : nat := 16.
Definition UDP_MAX_PORTS : nat := 8.
Definition DH_HDRSZ : Z := 240.

(** ** Byte order *)

Definition NET_HTONS (x : Z) : Z :=
  Z.lor (Z.shiftl (Z.land (u16 x) 0xFF) 8) (Z.land (Z.shiftr (u16 x) 8) 0xFF).
Definition NET_HTONL (x : Z) : Z :=
  Z.lor (Z.lor (Z.lor (Z.shiftr (u32 x) 24) (Z.shiftr (Z.land (u32 x) 0xFF0000) 8))
               (u32 (Z.shiftl (Z.land (u32 x) 0xFF00) 8)))
        (u32 (Z.shiftl (u32 x) 24)).

(** A [u16] or [u32] in memory. *)
Definition put16 (x : Z) : list Z := le_bytes 2 x.
Definition put32 (x : Z) : list Z := le_bytes 4 x.

(** ** State *)

Record arp_cache_ent := mkEnt { c_ip : Z; c_mac : list Z; c_stamp : Z; c_used : bool }.

(** A bound function: the DHCP client's or another's. *)
Inductive udp_handler := HDhcp | HUser (n : nat).

Record udp_ent := mkPort { u_port : Z; u_fn : option udp_handler }.

Inductive dh := DH_OFF | DH_DISCOVERING | DH_REQUESTING | DH_BOUND.
#[global] Instance dh_eq_dec : EqDecision dh.
Proof. solve_decision. Defined.

Record dhcp := mkDhcp
  { dh_state : dh; dh_xid : Z; dh_offer_ip : Z; dh_srv_id : Z; dh_next_try_ms : Z; dh_started_ms : Z }.

(** [n_dev]: a driver is registered; [n_sent]: the frames it was given;
    [n_inbox]: datagrams given to other handlers; [n_reads]: how often the
    clock was read. *)
Record net := mkNet
  { g_net_mac : list Z; g_net_ip : Z; g_net_mask : Z; g_net_gw : Z;
    n_dev : bool; n_cache : list arp_cache_ent; n_ports : list udp_ent; n_dhcp : dhcp;
    n_sent : list (list Z); n_inbox : list (nat * Z * Z * list Z); n_reads : nat;
    ping_next_ms : Z; pings_sent : Z }.

Definition set_cache c s := mkNet (g_net_mac s) (g_net_ip s) (g_net_mask s) (g_net_gw s) (n_dev s) c
  (n_ports s) (n_dhcp s) (n_sent s) (n_inbox s) (n_reads s) (ping_next_ms s) (pings_sent s).
Definition set_ports p s := mkNet (g_net_mac s) (g_net_ip s) (g_net_mask s) (g_net_gw s) (n_dev s)
  (n_cache s) p (n_dhcp s) (n_sent s) (n_inbox s) (n_reads s) (ping_next_ms s) (pings_sent s).
Definition set_dhcp d s := mkNet (g_net_mac s) (g_net_ip s) (g_net_mask s) (g_net_gw s) (n_dev s)
  (n_cache s) (n_ports s) d (n_sent s) (n_inbox s) (n_reads s) (ping_next_ms s) (pings_sent s).
Definition add_sent f s := mkNet (g_net_mac s) (g_net_ip s) (g_net_mask s) (g_net_gw s) (n_dev s)
  (n_cache s) (n_ports s) (n_dhcp s) (n_sent s ++ [f]) (n_inbox s) (n_reads s) (ping_next_ms s) (pings_sent s).
Definition add_inbox m s := mkNet (g_net_mac s) (g_net_ip s) (g_net_mask s) (g_net_gw s) (n_dev s)
  (n_cache s) (n_ports s) (n_dhcp s) (n_sent s) (n_inbox s ++ [m]) (n_reads s) (ping_next_ms s) (pings_sent s).
Definition set_addr ip mask gw s := mkNet (g_net_mac s) ip mask gw (n_dev s)
  (n_cache s) (n_ports s) (n_dhcp s) (n_sent s) (n_inbox s) (n_reads s) (ping_next_ms s) (pings_sent s).
Definition set_ping n k s := mkNet (g_net_mac s) (g_net_ip s) (g_net_mask s) (g_net_gw s) (n_dev s)
  (n_cache s) (n_ports s) (n_dhcp s) (n_sent s) (n_inbox s) (n_reads s) n k.
Definition read_clock s := mkNet (g_net_mac s) (g_net_ip s) (g_net_mask s) (g_net_gw s) (n_dev s)
  (n_cache s) (n_ports s) (n_dhcp s) (n_sent s) (n_inbox s) (S (n_reads s)) (ping_next_ms s) (pings_sent s).

(** ** ionet.c: addresses as text *)

Definition dec_octet (v : Z) : list Z :=
  (if 100 <=? v then [ch "0" + v / 100] else []) ++
  (if 10 <=? v then [ch "0" + (v / 10) mod 10] else []) ++ [ch "0" + v mod 10].

Definition net_ipv4_str (ip : Z) : list Z :=
  let v k := Z.land (Z.shiftr ip k) 0xFF in
  dec_octet (v 24) ++ [ch "."] ++ dec_octet (v 16) ++ [ch "."] ++
  dec_octet (v 8) ++ [ch "."] ++ dec_octet (v 0).

(** ** ipv4.c: the checksum *)

(** [for (i = 0; i + 1 < len; i += 2) sum += (p[i] << 8) | p[i + 1];] and the
    odd byte. *)
Fixpoint sum_words (sum : Z) (p : list Z) : Z :=
  match p with
  | a :: b :: p => sum_words (u32 (sum + Z.lor (Z.shiftl (u16 a) 8) b)) p
  | [a] => u32 (sum + Z.shiftl (u16 a) 8)
  | [] => sum
  end.

(** [while (sum >> 16) sum = (sum & 0xFFFF) + (sum >> 16);] *)
Definition fold_carries (sum : Z) : run Z :=
  loop (fun sum =>
    if Z.shiftr sum 16 =? 0 then Ret (inr sum)
    else Ret (inl (u32 (Z.land sum 0xFFFF + Z.shiftr sum 16)))) sum.

Definition ip_checksum (data : list Z) : run Z :=
  sum ← fold_carries (sum_words 0 data);
  Ret (NET_HTONS (Z.land (u32 (Z.lnot sum)) 0xFFFF)).

Section Stack.
Context (clock : nat -> Z) (driver_send : list Z -> Z).

Definition tsc_ms (s : net) : Z * net := (clock (n_reads s), read_clock s).

(** ** ether.c *)

Definition net_bcast_mac : list Z := replicate NET_ETH_ALEN 0xFF.

Definition netdev_send (frame : list Z) (s : net) : Z * net :=
  if n_dev s then (driver_send frame, add_sent frame s) else (-1, s).

(** [body] is what lies behind the room for the header, [plen] bytes of it are
    sent. *)
Definition ether_send (dst : list Z) (ethertype : Z) (body : list Z) (plen : Z) (s : net) : run (Z * net) :=
  bs ← bytes_at body 0 (Z.to_nat plen);
  Ret (netdev_send (dst ++ g_net_mac s ++ put16 (NET_HTONS ethertype) ++ bs) s).

(** ** arp.c *)

Definition arp_init (s : net) : net :=
  set_cache ((fun e => mkEnt (c_ip e) (c_mac e) (c_stamp e) false) <$> n_cache s) s.

Definition arp_lookup (ip_host : Z) (s : net) : option (list Z) :=
  c_mac <$> find (fun e => c_used e && (c_ip e =? NET_HTONL ip_host)) (n_cache s).

Definition arp_pkt (op : Z) (sha : list Z) (spa : Z) (tha : list Z) (tpa : Z) : list Z :=
  put16 (NET_HTONS 1) ++ put16 (NET_HTONS ETHERTYPE_IPV4) ++ [6; 4] ++ put16 op ++
  sha ++ put32 spa ++ tha ++ put32 tpa.

Definition arp_request (ip_host : Z) (s : net) : run (Z * net) :=
  ether_send net_bcast_mac ETHERTYPE_ARP
    (arp_pkt (NET_HTONS 1) (g_net_mac s) (NET_HTONL (g_net_ip s)) (replicate 6 0) (NET_HTONL ip_host))
    28 s.

(** The loop over the cache from entry [i] on; [slot] is the first free one. *)
Fixpoint arp_slot (i : nat) (slot : option nat) (spa : Z) (c : list arp_cache_ent) : option nat :=
  match c with
  | e :: c =>
      if c_used e && (c_ip e =? spa) then Some i
      else arp_slot (S i) (if negb (c_used e) then match slot with None => Some i | s => s end else slot) spa c
  | [] => slot
  end.

Definition arp_cache_add (sha : list Z) (spa_wire : Z) (s : net) : net :=
  match arp_slot 0 None spa_wire (n_cache s) with
  | None => s
  | Some i =>
      let '(now, s) := tsc_ms s in
      set_cache (<[i := mkEnt spa_wire sha now true]> (n_cache s)) s
  end.

(** [pkt] is the buffer from the packet on, [len] bytes of it were received.
    The reply is built in place, and the header is written over its first 14
    bytes. *)
Definition arp_rx (pkt : list Z) (len : Z) (s : net) : run net :=
  if len <? 28 then Ret s
  else
    ptype ← get pkt 2 2;
    if negb (NET_HTONS ptype =? ETHERTYPE_IPV4) then Ret s
    else
      sha ← bytes_at pkt 8 6; spa ← get pkt 14 4;
      let s := arp_cache_add sha spa s in
      op ← get pkt 6 2; tpa ← get pkt 24 4;
      if (NET_HTONS op =? 1) && (NET_HTONL tpa =? g_net_ip s) then
        head ← bytes_at pkt 0 6;
        let pkt' := head ++ put16 (NET_HTONS 2) ++ g_net_mac s ++ put32 tpa ++ sha ++ put32 spa ++
                    drop 28 pkt in
        '(_, s) ← ether_send sha ETHERTYPE_ARP (drop ETH_HDR pkt') 28 s;
        Ret s
      else Ret s.

(** ** ipv4.c *)

Definition ip_header (src_host dst_host proto plen checksum : Z) : list Z :=
  [0x45; 0] ++ put16 (NET_HTONS (u16 (20 + plen))) ++ put16 0 ++ put16 (NET_HTONS 0x4000) ++
  [64; proto] ++ put16 checksum ++ put32 (NET_HTONL src_host) ++ put32 (NET_HTONL dst_host).

Definition hdr_fill (src_host dst_host proto plen : Z) : run (list Z) :=
  c ← ip_checksum (ip_header src_host dst_host proto plen 0);
  Ret (ip_header src_host dst_host proto plen c).

Definition ipv4_send (dst_ip proto : Z) (payload : list Z) (s : net) : run (Z * net) :=
  let plen := Z.of_nat (length payload) in
  if NET_MTU - 20 <? plen then Ret (-1, s)
  else
    let nh := if Z.land (Z.lxor dst_ip (g_net_ip s)) (g_net_mask s) =? 0 then dst_ip else g_net_gw s in
    if dst_ip =? 0xFFFFFFFF then
      h ← hdr_fill (g_net_ip s) dst_ip proto (u16 plen);
      ether_send net_bcast_mac ETHERTYPE_IPV4 (h ++ payload) (20 + plen) s
    else
      match arp_lookup nh s with
      | None => '(_, s) ← arp_request nh s; Ret (-1, s)
      | Some mac =>
          h ← hdr_fill (g_net_ip s) dst_ip proto (u16 plen);
          ether_send mac ETHERTYPE_IPV4 (h ++ payload) (20 + plen) s
      end.

(** ** icmp.c *)

Definition icmp_rx (pkt : list Z) (len src_ip_host : Z) (s : net) : run net :=
  if len <? 8 then Ret s
  else
    ty ← byte_at pkt 0;
    if ty =? 0 then Ret s
    else if negb (ty =? 8) then Ret s
    else
      (* [u8 reply[NET_MTU]] *)
      if NET_MTU <? len then Fault
      else
        bs ← bytes_at pkt 0 (Z.to_nat len);
        let body := drop 4 bs in
        let code := take 1 (drop 1 bs) in
        c ← ip_checksum ([0] ++ code ++ put16 0 ++ body);
        '(_, s) ← ipv4_send src_ip_host IP_PROTO_ICMP ([0] ++ code ++ put16 c ++ body) s;
        Ret s.

Definition icmp_echo_request (dst_ip id seq : Z) (s : net) : run (Z * net) :=
  let tl := put16 (NET_HTONS id) ++ put16 (NET_HTONS seq) ++ replicate 8 (ch "x") in
  c ← ip_checksum ([8; 0] ++ put16 0 ++ tl);
  ipv4_send dst_ip IP_PROTO_ICMP ([8; 0] ++ put16 c ++ tl) s.

(** ** udp.c *)

Definition udp_init (s : net) : net := set_ports (replicate UDP_MAX_PORTS (mkPort 0 None)) s.

(** The loop of [udp_bind]: [inl] the entry of the port, [inr] the first free
    entry. *)
Fixpoint port_slot (i : nat) (slot : option nat) (port : Z) (ps : list udp_ent) : nat + option nat :=
  match ps with
  | p :: ps =>
      if u_port p =? port then inl i
      else port_slot (S i) (if u_port p =? 0 then match slot with None => Some i | s => s end else slot) port ps
  | [] => inr slot
  end.

Definition udp_bind (port : Z) (fn : option udp_handler) (s : net) : Z * net :=
  match port_slot 0 None port (n_ports s) with
  | inl i => (0, set_ports (alter (fun p => mkPort (u_port p) fn) i (n_ports s)) s)
  | inr None => (-1, s)
  | inr (Some i) =>
      match fn with
      | None => (-1, s)
      | Some _ => (0, set_ports (<[i := mkPort port fn]> (n_ports s)) s)
      end
  end.

Definition udp_header (src_port dst_port total checksum : Z) : list Z :=
  put16 (NET_HTONS src_port) ++ put16 (NET_HTONS dst_port) ++ put16 (NET_HTONS (u16 total)) ++ put16 checksum.

(** The sum that is folded into the checksum. *)
Definition udp_sum (src_ip dst_ip total : Z) (seg : list Z) : Z :=
  let sum := u32 (Z.land (Z.shiftr src_ip 16) 0xFFFF + Z.land src_ip 0xFFFF +
                  Z.land (Z.shiftr dst_ip 16) 0xFFFF + Z.land dst_ip 0xFFFF +
                  NET_HTONS IP_PROTO_UDP + NET_HTONS (u16 total)) in
  sum_words sum seg.

Definition udp_send (dst_ip dst_port src_port : Z) (data : list Z) (s : net) : run (Z * net) :=
  let total := u32 (8 + Z.of_nat (length data)) in
  if NET_MTU <? total then Ret (-1, s)
  else
    let '(src_port, s) :=
      if src_port =? 0 then let '(t, s) := tsc_ms s in (u16 (Z.lxor 0xC000 (u32 t)), s)
      else (src_port, s) in
    sum ← fold_carries (udp_sum (g_net_ip s) dst_ip total (udp_header src_port dst_port total 0 ++ data));
    let c := NET_HTONS (Z.land (u32 (Z.lnot sum)) 0xFFFF) in
    ipv4_send dst_ip IP_PROTO_UDP (udp_header src_port dst_port total c ++ data) s.

(** ** dhcp.c *)

Definition MAGIC : Z := 0x63825363.

Definition dhcp_init (s : net) : net := (udp_bind 68 (Some HDhcp) s).2.

Definition dhcp_start (s : net) : net :=
  if negb (bool_decide (dh_state (n_dhcp s) = DH_OFF)) then s
  else
    let '(t1, s) := tsc_ms s in
    let '(t2, s) := tsc_ms s in
    let d := n_dhcp s in
    set_dhcp (mkDhcp DH_DISCOVERING (u32 t1) (dh_offer_ip d) (dh_srv_id d) t2 t2) s.

Definition dhcp_done (s : net) : bool := bool_decide (dh_state (n_dhcp s) = DH_BOUND).

Definition opt_put (code : Z) (val : list Z) : list Z := [code; Z.of_nat (length val)] ++ val.

Definition dhcp_packet (mac : list Z) (xid msgtype req_ip_host srv_host : Z) : list Z :=
  [1; 1; 6; 0] ++ put32 (NET_HTONL xid) ++ [0; 0] ++ put16 (NET_HTONS 0x8000) ++ replicate 16 0 ++
  mac ++ replicate 202 0 ++ put32 (NET_HTONL MAGIC) ++
  opt_put 53 [msgtype] ++
  (if req_ip_host =? 0 then [] else opt_put 50 (put32 (NET_HTONL req_ip_host))) ++
  (if srv_host =? 0 then [] else opt_put 54 (put32 (NET_HTONL srv_host))) ++ [255].

Definition dhcp_send (msgtype req_ip_host srv_host : Z) (s : net) : run (Z * net) :=
  udp_send 0xFFFFFFFF 67 68
    (dhcp_packet (g_net_mac s) (dh_xid (n_dhcp s)) msgtype req_ip_host srv_host) s.

(** Message type, subnet, router and server. *)
Record dh_opts := mkOpts { o_type : Z; o_subnet : Z; o_router : Z; o_srv : Z }.

Definition opt_parse (data : list Z) (len : Z) : run dh_opts :=
  loop (fun '(i, o) =>
    if i <? len then
      code ← byte_at data i;
      if code =? 0 then Ret (inl (u32 (i + 1), o))
      else if code =? 255 then Ret (inr o)
      else if len <=? u32 (i + 1) then Ret (inr o)
      else
        l ← byte_at data (u32 (i + 1));
        if len <? u32 (i + 2 + l) then Ret (inr o)
        else
          o ← (if code =? 53 then
                 if 1 <=? l then v ← byte_at data (i + 2); Ret (mkOpts v (o_subnet o) (o_router o) (o_srv o))
                 else Ret o
               else if code =? 1 then
                 if l =? 4 then v ← get data (i + 2) 4; Ret (mkOpts (o_type o) (NET_HTONL v) (o_router o) (o_srv o))
                 else Ret o
               else if code =? 3 then
                 if l =? 4 then v ← get data (i + 2) 4; Ret (mkOpts (o_type o) (o_subnet o) (NET_HTONL v) (o_srv o))
                 else Ret o
               else if code =? 54 then
                 if l =? 4 then v ← get data (i + 2) 4; Ret (mkOpts (o_type o) (o_subnet o) (o_router o) (NET_HTONL v))
                 else Ret o
               else Ret o);
          Ret (inl (u32 (i + (2 + l)), o))
    else Ret (inr o)) (DH_HDRSZ, mkOpts 0 0 0 0).

Definition dhcp_rx (data : list Z) (len : Z) (s : net) : run net :=
  if len <? DH_HDRSZ + 3 then Ret s
  else
    magic ← get data 236 4;
    if negb (magic =? NET_HTONL MAGIC) then Ret s
    else
      xid ← get data 4 4;
      if negb (xid =? NET_HTONL (dh_xid (n_dhcp s))) then Ret s
      else
        yi ← get data 16 4;
        let yiaddr := NET_HTONL yi in
        o ← opt_parse data len;
        let d := n_dhcp s in
        if bool_decide (dh_state d = DH_DISCOVERING) && (o_type o =? 2) then
          let s := set_dhcp (mkDhcp (dh_state d) (dh_xid d) yiaddr (o_srv o) (dh_next_try_ms d) (dh_started_ms d)) s in
          '(_, s) ← dhcp_send 3 yiaddr (o_srv o) s;
          let '(now, s) := tsc_ms s in
          Ret (set_dhcp (mkDhcp DH_REQUESTING (dh_xid d) yiaddr (o_srv o) (u64 (now + 4000)) (dh_started_ms d)) s)
        else if bool_decide (dh_state d = DH_REQUESTING) && (o_type o =? 5) then
          let s := set_addr (if yiaddr =? 0 then dh_offer_ip d else yiaddr) (o_subnet o) (o_router o) s in
          Ret (set_dhcp (mkDhcp DH_BOUND (dh_xid d) (dh_offer_ip d) (dh_srv_id d) (dh_next_try_ms d) (dh_started_ms d)) s)
        else Ret s.

Definition dhcp_poll (s : net) : run net :=
  let '(now, s) := tsc_ms s in
  let d := n_dhcp s in
  let next := mkDhcp (dh_state d) (dh_xid d) (dh_offer_ip d) (dh_srv_id d) (u64 (now + 4000)) (dh_started_ms d) in
  match dh_state d with
  | DH_OFF | DH_BOUND => Ret s
  | DH_DISCOVERING =>
      if now <? dh_next_try_ms d then Ret s
      else '(_, s) ← dhcp_send 1 0 0 s; Ret (set_dhcp next s)
  | DH_REQUESTING =>
      if now <? dh_next_try_ms d then Ret s
      else '(_, s) ← dhcp_send 3 (dh_offer_ip d) (dh_srv_id d) s; Ret (set_dhcp next s)
  end.

(** ** Reception *)

(** [pkt] from the UDP header on. *)
Definition udp_rx (pkt : list Z) (len src_ip_host : Z) (s : net) : run net :=
  if len <? 8 then Ret s
  else
    dp ← get pkt 2 2; ul ← get pkt 4 2;
    let dport := NET_HTONS dp in
    let ulen := NET_HTONS ul in
    if (ulen <? 8) || (len <? ulen) then Ret s
    else
      match find (fun p => (u_port p =? dport) && bool_decide (u_fn p <> None)) (n_ports s) with
      | Some (mkPort _ (Some HDhcp)) => dhcp_rx (drop 8 pkt) (ulen - 8) s
      | Some (mkPort _ (Some (HUser n))) =>
          sp ← get pkt 0 2;
          data ← bytes_at pkt 8 (Z.to_nat (ulen - 8));
          Ret (add_inbox (n, src_ip_host, NET_HTONS sp, data) s)
      | _ => Ret s
      end.

Definition ipv4_rx (pkt : list Z) (len : Z) (s : net) : run net :=
  if len <? 20 then Ret s
  else
    v ← byte_at pkt 0;
    if negb (Z.shiftr v 4 =? 4) || negb (Z.land v 0xF =? 5) then Ret s
    else
      tl ← get pkt 2 2;
      let tot := NET_HTONS tl in
      if (tot <? 20) || (len <? tot) then Ret s
      else
        dst ← get pkt 16 4;
        let dst := NET_HTONL dst in
        if negb (dst =? g_net_ip s) && negb ((g_net_ip s =? 0) && (dst =? 0xFFFFFFFF)) then Ret s
        else
          hdr ← bytes_at pkt 0 20;
          c ← ip_checksum hdr;
          if negb (c =? 0) then Ret s
          else
            proto ← byte_at pkt 9; src ← get pkt 12 4;
            if proto =? IP_PROTO_ICMP then icmp_rx (drop 20 pkt) (tot - 20) (NET_HTONL src) s
            else if proto =? IP_PROTO_UDP then udp_rx (drop 20 pkt) (tot - 20) (NET_HTONL src) s
            else Ret s.

Definition ether_rx (frame : list Z) (len : Z) (s : net) : run net :=
  if len <? 15 then Ret s
  else
    ty ← get frame 12 2;
    let type := NET_HTONS ty in
    if type =? ETHERTYPE_ARP then arp_rx (drop ETH_HDR frame) (len - 14) s
    else if type =? ETHERTYPE_IPV4 then ipv4_rx (drop ETH_HDR frame) (len - 14) s
    else Ret s.

(** ** ionet.c *)

(** The driver registers itself, or is taken out. *)
Definition set_dev (mac : list Z) (dev : bool) (s : net) : net :=
  mkNet mac (g_net_ip s) (g_net_mask s) (g_net_gw s) dev (n_cache s) (n_ports s)
    (n_dhcp s) (n_sent s) (n_inbox s) (n_reads s) (ping_next_ms s) (pings_sent s).

(** [nic]: the address of the device that [e1000_init] brings up, if there is
    one. *)
Definition ionet_init (nic : option (list Z)) (s : net) : net :=
  let s := udp_init (arp_init s) in
  match nic with
  | Some mac => dhcp_start (dhcp_init (set_dev mac true s))
  | None => s
  end.

Definition ionet_exit (s : net) : net := set_dev (g_net_mac s) false s.

(** e1000.c: [rx] holds, for each completed descriptor, its buffer and the
    length the device reported; [stale] is what lies in the local array
    [u8 frame[NET_FRAMESZ]] into which the frame is copied. *)
Fixpoint e1000_poll (stale : list Z) (rx : list (list Z * Z)) (s : net) : run net :=
  match rx with
  | (buf, len) :: rx =>
      s ← (if negb (len =? 0) && (len <=? NET_FRAMESZ) then
             bs ← bytes_at buf 0 (Z.to_nat len);
             ether_rx (bs ++ drop (Z.to_nat len) stale) len s
           else Ret s);
      e1000_poll stale rx s
  | [] => Ret s
  end.

Definition ionet_poll (stale : list Z) (rx : list (list Z * Z)) (s : net) : run net :=
  if negb (n_dev s) then Ret s
  else
    s ← e1000_poll stale rx s;
    if negb (dhcp_done s) then dhcp_poll s
    else if negb (g_net_gw s =? 0) && (pings_sent s <? 3) then
      let '(now, s) := tsc_ms s in
      if ping_next_ms s <=? now then
        let n := pings_sent s + 1 in
        '(_, s) ← icmp_echo_request (g_net_gw s) 0xBEEF n (set_ping (ping_next_ms s) n s);
        let '(now, s) := tsc_ms s in
        Ret (set_ping (u64 (now + 10000)) n s)
      else Ret s
    else Ret s.

End Stack.

(** ** Byte order: [NET_HTONS] and [NET_HTONL] store big-endian words *)

Definition be16 (x : Z) : list Z := [u8 (x / 256); u8 x].
Definition be32 (x : Z) : list Z := [u8 (x / 16777216); u8 (x / 65536); u8 (x / 256); u8 x].
Definition be_val (bs : list Z) : Z := fold_left (fun v b => 256 * v + b) bs 0.


Lemma NET_HTONS_eq x : NET_HTONS x = u8 x * 256 + u8 (x / 256).
Proof.
  unfold NET_HTONS. change 0xFF with (Z.ones 8).
  rewrite !Z.land_ones, Z.shiftr_div_pow2, lor_shiftl by ilia. ilia.
Qed.

Lemma NET_HTONL_eq x :
  NET_HTONL x = ((u8 x * 256 + u8 (x / 256)) * 256 + u8 (x / 65536)) * 256 + u8 (x / 16777216).
Proof.
  unfold NET_HTONL. pose proof (u32_range x) as Hx. set (y := u32 x) in *.
  assert (Z.shiftr (Z.land y 0xFF0000) 8 = Z.shiftl (y / 65536 mod 256) 8) as ->.
  { change 0xFF0000 with (Z.shiftl (Z.ones 8) 16).
    apply Z.bits_inj'. intros i Hi. rewrite Z.shiftr_spec, Z.land_spec by lia.
    destruct (decide (i < 8)).
    - rewrite !Z.shiftl_spec_low by lia. apply andb_false_r.
    - rewrite !Z.shiftl_spec by lia. change 256 with (2 ^ 8). change 65536 with (2 ^ 16).
      rewrite <- Z.land_ones, <- Z.shiftr_div_pow2, Z.land_spec, Z.shiftr_spec by lia.
      f_equal; f_equal; lia. }
  assert (u32 (Z.shiftl (Z.land y 0xFF00) 8) = Z.shiftl (y / 256 mod 256) 16) as ->.
  { assert (Z.land y 0xFF00 = Z.shiftl (y / 256 mod 256) 8) as ->.
    { change 0xFF00 with (Z.shiftl (Z.ones 8) 8).
      apply Z.bits_inj'. intros i Hi. rewrite Z.land_spec by lia.
      destruct (decide (i < 8)).
      - rewrite !Z.shiftl_spec_low by lia. apply andb_false_r.
      - rewrite !Z.shiftl_spec by lia. change 256 with (2 ^ 8).
        rewrite <- Z.land_ones, <- Z.shiftr_div_pow2, Z.land_spec, Z.shiftr_spec by lia.
        f_equal; f_equal; lia. }
    rewrite Z.shiftl_shiftl by lia. rewrite u32_small; [done|].
    rewrite Z.shiftl_mul_pow2 by lia. ilia. }
  assert (u32 (Z.shiftl y 24) = Z.shiftl (y mod 256) 24) as ->.
  { rewrite !Z.shiftl_mul_pow2 by lia. unfold u32. change (2 ^ 32) with (256 * 2 ^ 24).
    by rewrite Z.mul_mod_distr_r by lia. }
  rewrite Z.shiftr_div_pow2 by lia.
  rewrite (Z.lor_comm (Z.lor _ _) (Z.shiftl _ 24)).
  rewrite (Z.lor_comm (Z.lor (y / 2 ^ 24) _) (Z.shiftl _ 16)), (Z.lor_comm (y / 2 ^ 24)).
  assert (0 <= y / 2 ^ 24 < 256) by (subst y; ilia).
  rewrite (lor_shiftl _ _ 8) by ilia.
  rewrite (lor_shiftl _ _ 16) by ilia.
  rewrite (lor_shiftl _ _ 24) by ilia. subst y. ilia.
Qed.

Ltac list_eq := repeat lazymatch goal with |- _ :: _ = _ :: _ => apply (f_equal2 cons) end; try done.

Lemma put16_htons x : put16 (NET_HTONS x) = be16 x.
Proof. unfold put16, be16. cbn. rewrite NET_HTONS_eq. list_eq; ilia. Qed.

Lemma put32_htonl x : put32 (NET_HTONL x) = be32 x.
Proof. unfold put32, be32. cbn. rewrite NET_HTONL_eq. list_eq; ilia. Qed.

Lemma ntohs_le a b : byte_ok a -> byte_ok b -> NET_HTONS (le_val [a; b]) = 256 * a + b.
Proof. intros. cbn. rewrite NET_HTONS_eq. ilia. Qed.

Lemma ntohl_le a b c d : byte_ok a -> byte_ok b -> byte_ok c -> byte_ok d ->
  NET_HTONL (le_val [a; b; c; d]) = be_val [a; b; c; d].
Proof. intros. cbn. rewrite NET_HTONL_eq. ilia. Qed.

(** Reading back what was stored. *)
Lemma ntohs_be16 x : 0 <= x < 2 ^ 16 -> NET_HTONS (le_val (be16 x)) = x.
Proof. intros. unfold be16. rewrite ntohs_le by ilia. ilia. Qed.

Lemma ntohl_be32 x : 0 <= x < 2 ^ 32 -> NET_HTONL (le_val (be32 x)) = x.
Proof. intros. unfold be32. rewrite ntohl_le by ilia. cbn. ilia. Qed.

Lemma be16_ok x : Forall byte_ok (be16 x).
Proof. repeat constructor; ilia. Qed.
Lemma be32_ok x : Forall byte_ok (be32 x).
Proof. repeat constructor; ilia. Qed.
#[export] Hint Resolve be16_ok be32_ok : xkern.

(** ** The internet checksum *)

(** The one's-complement addition of RFC 1071 (end-around carry), and the sum
    of the big-endian words of a message, padded to an even length. *)
Definition oc_add (a b : Z) : Z := if 65536 <=? a + b then a + b - 65535 else a + b.

Fixpoint be_words (p : list Z) : list Z :=
  match p with
  | a :: b :: p => be_val [a; b] :: be_words p
  | [a] => [be_val [a; 0]]
  | [] => []
  end.

Definition oc_sum (ws : list Z) : Z := fold_left oc_add ws 0.

(** What a receiver checks: the words, with the checksum, sum to minus zero. *)
Definition oc_valid (ws : list Z) : Prop := oc_sum ws = 65535.

Definition word_ok (w : Z) : Prop := 0 <= w < 65536.

Definition sumZ (ws : list Z) : Z := fold_right Z.add 0 ws.

(** The closed form of a one's-complement sum. *)
Definition oc_norm (s : Z) : Z := if s =? 0 then 0 else 1 + (s - 1) mod 65535.

Lemma sumZ_app xs ys : sumZ (xs ++ ys) = sumZ xs + sumZ ys.
Proof. induction xs as [|x xs IH]; cbn; [done|]. fold sumZ in *. unfold sumZ in *. lia. Qed.

Lemma sumZ_bound ws : Forall word_ok ws -> 0 <= sumZ ws <= 65535 * Z.of_nat (length ws).
Proof.
  induction 1 as [|w ws Hw _ IH]; cbn; [lia|]. unfold word_ok in Hw. unfold sumZ in *. lia.
Qed.

Lemma oc_norm_range s : 0 <= s -> 0 <= oc_norm s < 65536.
Proof. intros. unfold oc_norm. case_match; Z.div_mod_to_equations; lia. Qed.

Lemma oc_norm_add s w : 0 <= s -> word_ok w -> oc_add (oc_norm s) w = oc_norm (s + w).
Proof.
  intros Hs Hw. unfold word_ok in Hw. unfold oc_add, oc_norm.
  destruct (Z.eqb_spec s 0), (Z.eqb_spec (s + w) 0); try lia; case_match;
    Z.div_mod_to_equations; lia.
Qed.

Lemma oc_fold_norm ws s : Forall word_ok ws -> 0 <= s ->
  fold_left oc_add ws (oc_norm s) = oc_norm (s + sumZ ws).
Proof.
  intros Hws. revert s.
  induction Hws as [|w ws Hw _ IH]; cbn [fold_left]; intros s Hs; [cbn; by rewrite Z.add_0_r|].
  rewrite oc_norm_add by done. unfold word_ok in Hw. rewrite IH by lia.
  cbn [sumZ fold_right]. unfold sumZ. f_equal. lia.
Qed.

Lemma oc_sum_norm ws : Forall word_ok ws -> oc_sum ws = oc_norm (sumZ ws).
Proof. intros Hws. exact (oc_fold_norm ws 0 Hws (Z.le_refl 0)). Qed.

Lemma be_words_ok p : Forall byte_ok p -> Forall word_ok (be_words p).
Proof.
  induction p as [p IH] using (induction_ltof1 _ (@length Z)). intros Hp.
  destruct p as [|a [|b p]]; cbn [be_words]; [constructor|..].
  - inversion_clear Hp. constructor; [|constructor]. unfold word_ok. cbn. ilia.
  - inversion_clear Hp as [|? ? Ha Hp']. inversion_clear Hp'. constructor.
    + unfold word_ok. cbn. ilia.
    + apply IH; [unfold ltof; cbn; lia|done].
Qed.

Lemma length_be_words p : Z.of_nat (length (be_words p)) <= Z.of_nat (length p).
Proof.
  induction p as [p IH] using (induction_ltof1 _ (@length Z)).
  destruct p as [|a [|b p]]; cbn [be_words length]; [lia..|].
  assert (ltof (list Z) length p (a :: b :: p)) as Hl by (unfold ltof; cbn; lia).
  specialize (IH p Hl). lia.
Qed.

(** An even prefix. *)
Lemma be_words_app p q : Nat.Even (length p) -> be_words (p ++ q) = be_words p ++ be_words q.
Proof.
  induction p as [p IH] using (induction_ltof1 _ (@length Z)). intros He.
  destruct p as [|a [|b p]]; [done|..].
  - destruct He as [k Hk]. cbn in Hk. lia.
  - cbn [be_words app]. f_equal. apply IH; [unfold ltof; cbn; lia|].
    destruct He as [k Hk]. exists (pred k). cbn in Hk. lia.
Qed.

Lemma sum_words_eq s p :
  Forall byte_ok p -> 0 <= s -> s + 65535 * Z.of_nat (length p) < 2 ^ 32 ->
  sum_words s p = s + sumZ (be_words p).
Proof.
  revert s. induction p as [p IH] using (induction_ltof1 _ (@length Z)). intros s Hp Hs Hlt.
  destruct p as [|a [|b p]]; cbn [sum_words be_words]; [cbn; lia|..].
  - apply Forall_inv in Hp. cbn in Hlt. rewrite Z.shiftl_mul_pow2, u16_small by ilia.
    cbn. rewrite u32_small; ilia.
  - inversion_clear Hp as [|? ? Ha Hp']. inversion_clear Hp' as [|? ? Hb Hp].
    cbn [length] in Hlt. rewrite !Nat2Z.inj_succ in Hlt.
    rewrite u16_small, lor_shiftl by ilia. rewrite u32_small by ilia.
    rewrite IH; [|unfold ltof; cbn; lia|done|ilia..].
    cbn [sumZ fold_right]. unfold be_val. cbn [fold_left]. unfold sumZ. change (2 ^ 8) with 256. lia.
Qed.

Lemma fold_carries_eq s : 0 <= s < 2 ^ 32 -> fold_carries s = Ret (oc_norm s).
Proof.
  intros Hs. unfold fold_carries.
  loop_with (fun x => 0 <= x < 2 ^ 32 /\ oc_norm x = oc_norm s) (fun x => x = oc_norm s) (fun x => x)
    as (x & -> & ->); [|done|lia|done].
  intros x [Hx Hn]. rewrite Z.shiftr_div_pow2 by lia. change (2 ^ 16) with 65536.
  destruct (Z.eqb_spec (x / 65536) 0) as [E|E].
  - right. exists x. split; [done|]. rewrite <- Hn. unfold oc_norm. case_match; [lia|].
    Z.div_mod_to_equations; lia.
  - left. eexists. split; [done|]. change 0xFFFF with (Z.ones 16). rewrite Z.land_ones by lia.
    rewrite u32_small by ilia. change (2 ^ 16) with 65536. split; [split|].
    + ilia.
    + rewrite <- Hn. unfold oc_norm. do 2 case_match; Z.div_mod_to_equations; lia.
    + Z.div_mod_to_equations; lia.
Qed.

Lemma lnot16 s : 0 <= s < 65536 -> Z.land (u32 (Z.lnot s)) 0xFFFF = 65535 - s.
Proof. intros. rewrite (Z.land_ones _ 16 : _ -> Z.land _ 0xFFFF = _) by lia. unfold Z.lnot. ilia. Qed.

Lemma ip_checksum_eq data :
  Forall byte_ok data -> Z.of_nat (length data) <= 65535 ->
  ip_checksum data = Ret (NET_HTONS (65535 - oc_sum (be_words data))).
Proof.
  intros Hd Hl. pose proof (be_words_ok _ Hd) as Hw.
  pose proof (sumZ_bound _ Hw). pose proof (length_be_words data).
  unfold ip_checksum. rewrite sum_words_eq by (done || lia).
  rewrite fold_carries_eq, bind_ret by lia.
  rewrite lnot16 by (apply oc_norm_range; lia). by rewrite oc_sum_norm by done.
Qed.

(** A message sums to minus zero once its checksum is added in. *)
Lemma oc_valid_checksum ws c :
  Forall word_ok ws -> c = 65535 - oc_sum ws -> 0 < sumZ ws ->
  forall ws', sumZ ws' = sumZ ws + c -> Forall word_ok ws' -> oc_valid ws'.
Proof.
  intros Hw -> Hpos ws' Hs Hw'. unfold oc_valid. rewrite (oc_sum_norm ws') by done.
  rewrite Hs, oc_sum_norm by done. unfold oc_norm.
  rewrite (proj2 (Z.eqb_neq (sumZ ws) 0)) by lia. case_match; Z.div_mod_to_equations; lia.
Qed.

(** C32: The checksum that ip_checksum computes is RFC 1071's: for every message
    of up to 64 KiB, odd lengths included, the folded 32-bit sum is the
    one's-complement sum of its 16-bit words with end-around carry, and the
    result, stored in memory, is its complement in network order. *)
Theorem ip_checksum_rfc1071 data :
  Forall byte_ok data -> Z.of_nat (length data) <= 65535 ->
  exists c, ip_checksum data = Ret c /\ put16 c = be16 (65535 - oc_sum (be_words data)).
Proof. intros Hd Hl. eexists. rewrite ip_checksum_eq by done. split; [done|]. apply put16_htons. Qed.

Lemma ip_checksum_rfc1071_witness :
  exists c, ip_checksum [0x45; 0; 0xFF; 0xFE; 7] = Ret c /\
    put16 c = be16 (65535 - oc_sum (be_words [0x45; 0; 0xFF; 0xFE; 7])) /\ be16 (65535 - oc_sum (be_words [0x45; 0; 0xFF; 0xFE; 7])) = [0xB4; 0x00].
Proof.
  destruct (ip_checksum_rfc1071 [0x45; 0; 0xFF; 0xFE; 7]) as (c & H1 & H2).
  - repeat constructor; done.
  - cbn; lia.
  - exists c. split; [exact H1|]. split; [exact H2|]. vm_compute. reflexivity.
Defined.

(** ** The state of the stack is well formed, whatever arrives *)

Lemma NET_HTONS_range x : 0 <= NET_HTONS x < 2 ^ 16.
Proof. rewrite NET_HTONS_eq. ilia. Qed.
Lemma NET_HTONL_range x : 0 <= NET_HTONL x < 2 ^ 32.
Proof. rewrite NET_HTONL_eq. ilia. Qed.
#[export] Hint Resolve NET_HTONS_range NET_HTONL_range : xkern.

Lemma sum_words_range p s : 0 <= s < 2 ^ 32 -> 0 <= sum_words s p < 2 ^ 32.
Proof.
  revert s. induction p as [p IH] using (induction_ltof1 _ (@length Z)). intros s Hs.
  destruct p as [|a [|b p]]; cbn [sum_words]; [done|apply u32_range|].
  apply IH; [unfold ltof; cbn; lia|apply u32_range].
Qed.

Lemma ip_checksum_total data : exists c, ip_checksum data = Ret c.
Proof.
  unfold ip_checksum. rewrite fold_carries_eq by (apply sum_words_range; lia). eauto.
Qed.

Definition mac_ok (m : list Z) : Prop := length m = 6%nat /\ Forall byte_ok m.
Definition is_u32 (x : Z) : Prop := 0 <= x < 2 ^ 32.

(** The frames given to the driver fit [NET_FRAMESZ]. *)
Definition frame_fits (f : list Z) : Prop := 14 <= Z.of_nat (length f) <= NET_MTU + 14.

Record net_ok (s : net) : Prop := mkNetOk
  { ok_mac : mac_ok (g_net_mac s);
    ok_ip : is_u32 (g_net_ip s); ok_mask : is_u32 (g_net_mask s); ok_gw : is_u32 (g_net_gw s);
    ok_cache : length (n_cache s) = ARP_CACHE_SIZE /\
               Forall (fun e => mac_ok (c_mac e) /\ is_u32 (c_ip e)) (n_cache s);
    ok_ports : length (n_ports s) = UDP_MAX_PORTS /\ Forall (fun p => 0 <= u_port p < 2 ^ 16) (n_ports s);
    ok_offer : is_u32 (dh_offer_ip (n_dhcp s)); ok_srv : is_u32 (dh_srv_id (n_dhcp s));
    ok_xid : is_u32 (dh_xid (n_dhcp s));
    ok_sent : Forall frame_fits (n_sent s) }.

(** The code returns, and leaves a well-formed state. *)
Definition safe (m : run net) : Prop := exists s, m = Ret s /\ net_ok s.
Definition safe2 (m : run (Z * net)) : Prop := exists v s, m = Ret (v, s) /\ net_ok s.

Lemma safe_ret s : net_ok s -> safe (Ret s).
Proof. intros. by exists s. Qed.
#[export] Hint Resolve safe_ret : xkern.

Lemma safe2_bind m k : safe2 m -> (forall v s, net_ok s -> safe (k (v, s))) -> safe (x ← m; k x).
Proof. intros (v & s & -> & Hs) Hk. by apply Hk. Qed.

Lemma net_ok_clock s : net_ok s -> net_ok (read_clock s).
Proof. by intros []. Qed.

Lemma net_ok_dhcp s d :
  net_ok s -> is_u32 (dh_offer_ip d) -> is_u32 (dh_srv_id d) -> is_u32 (dh_xid d) -> net_ok (set_dhcp d s).
Proof. by intros []. Qed.

Lemma net_ok_addr s ip m g : net_ok s -> is_u32 ip -> is_u32 m -> is_u32 g -> net_ok (set_addr ip m g s).
Proof. by intros []. Qed.

Lemma net_ok_sent s f : net_ok s -> frame_fits f -> net_ok (add_sent f s).
Proof. intros [] Hf. constructor; try done. apply Forall_app; auto. Qed.
#[export] Hint Resolve net_ok_clock net_ok_addr net_ok_dhcp net_ok_sent : xkern.

Lemma length_ip_header a b p n c : length (ip_header a b p n c) = 20%nat.
Proof. done. Qed.

Lemma hdr_fill_total a b p n : exists h, hdr_fill a b p n = Ret h /\ length h = 20%nat.
Proof.
  unfold hdr_fill. destruct (ip_checksum_total (ip_header a b p n 0)) as [c ->]. rewrite bind_ret. eauto.
Qed.

Lemma arp_lookup_mac ip s m : net_ok s -> arp_lookup ip s = Some m -> mac_ok m.
Proof.
  intros Hs. unfold arp_lookup. intros (e & He & ->)%fmap_Some. apply find_some in He as [He _].
  destruct (ok_cache _ Hs) as [_ Hc]. rewrite Forall_forall in Hc. apply Hc. by apply list_elem_of_In.
Qed.

Lemma arp_slot_lt i slot spa c j :
  arp_slot i slot spa c = Some j -> slot = Some j \/ (i <= j < i + length c)%nat.
Proof.
  revert i slot. induction c as [|e c IH]; cbn; intros i slot; [auto|].
  case_match; [intros [= <-]; lia|]. intros Hj. apply IH in Hj as [Hj|]; [|lia].
  destruct (c_used e); cbn in Hj; [auto|]. destruct slot; [auto|]. simplify_eq. lia.
Qed.

Lemma le_val_u32 bs n : Forall byte_ok bs -> is_u32 (le_val (take 4 (drop n bs))).
Proof.
  intros Hb. destruct (le_val_bound (take 4 (drop n bs))) as [H1 H2].
  { by apply Forall_take, Forall_drop. }
  assert (256 ^ Z.of_nat (length (take 4 (drop n bs))) <= 256 ^ 4).
  { apply Z.pow_le_mono_r; [lia|]. rewrite length_take. lia. }
  unfold is_u32. lia.
Qed.

Section Safety.
Context (clock : nat -> Z) (driver_send : list Z -> Z).
#[local] Abbreviation ether_send := (ether_send driver_send).
#[local] Abbreviation ipv4_send := (ipv4_send driver_send).
#[local] Abbreviation udp_send := (udp_send clock driver_send).
#[local] Abbreviation dhcp_rx := (dhcp_rx clock driver_send).

Lemma ether_send_safe dst ty body plen s :
  net_ok s -> length dst = 6%nat -> 0 <= plen <= Z.of_nat (length body) -> plen <= NET_MTU ->
  safe2 (ether_send dst ty body plen s).
Proof.
  intros Hs Hd Hp Hm. unfold Net.ether_send. rewrite bytes_bind by lia.
  unfold netdev_send. destruct (n_dev s); [|by eexists _, _].
  eexists _, _. split; [done|]. apply net_ok_sent; [done|].
  unfold frame_fits. destruct (ok_mac _ Hs) as [Hl _].
  rewrite !length_app, length_take, length_drop, Hd, Hl. unfold put16. rewrite length_le_bytes. lia.
Qed.

Lemma ipv4_send_safe dst proto payload s : net_ok s -> safe2 (ipv4_send dst proto payload s).
Proof.
  intros Hs. unfold Net.ipv4_send. destruct (Z.ltb_spec (NET_MTU - 20) (Z.of_nat (length payload))) as [|Hl].
  { by eexists _, _. }
  destruct (hdr_fill_total (g_net_ip s) dst proto (u16 (Z.of_nat (length payload)))) as (h & -> & Hh).
  rewrite !bind_ret. assert (forall mac, length mac = 6%nat ->
    safe2 (ether_send mac ETHERTYPE_IPV4 (h ++ payload) (20 + Z.of_nat (length payload)) s)) as Hsend.
  { intros mac Hm. apply ether_send_safe; try done; [rewrite length_app|]; unfold NET_MTU in *; lia. }
  case_match; [by apply Hsend|]. destruct (arp_lookup _ _) as [mac|] eqn:E.
  - apply Hsend. by eapply arp_lookup_mac.
  - unfold arp_request. match goal with |- safe2 (x ← Net.ether_send _ ?d ?t ?b ?p ?s; _) =>
      destruct (ether_send_safe d t b p s) as (v & s' & -> & Hs') end; try done.
    + destruct (ok_mac _ Hs) as [Hm _]. unfold arp_pkt. rewrite !length_app, Hm. cbn. lia.
    + by eexists _, _.
Qed.

Lemma udp_send_safe ip dp sp data s : net_ok s -> safe2 (udp_send ip dp sp data s).
Proof.
  intros Hs. unfold Net.udp_send. case_match; [by eexists _, _|].
  assert (exists sp' s', (if sp =? 0 then let '(t, s) := tsc_ms clock s in (u16 (Z.lxor 0xC000 (u32 t)), s)
                          else (sp, s)) = (sp', s') /\ net_ok s') as (sp' & s' & -> & Hs').
  { case_match; cbn; eauto with xkern. }
  rewrite fold_carries_eq by (unfold udp_sum; apply sum_words_range, u32_range).
  rewrite bind_ret. by apply ipv4_send_safe.
Qed.

Lemma arp_cache_add_ok sha spa s : net_ok s -> mac_ok sha -> is_u32 spa -> net_ok (arp_cache_add clock sha spa s).
Proof.
  intros Hs Hm Hi. unfold arp_cache_add. destruct (arp_slot _ _ _ _) as [i|]; [|done].
  cbn. destruct Hs. constructor; try done. cbn. split.
  - rewrite length_insert. tauto.
  - apply Forall_insert; [tauto|done].
Qed.

(** [pkt] has the bytes that the code looks at behind the received ones: the
    header of the reply is written 14 bytes further on. *)
Lemma arp_rx_safe pkt len s :
  net_ok s -> Forall byte_ok pkt -> len <= Z.of_nat (length pkt) -> 42 <= Z.of_nat (length pkt) ->
  safe (arp_rx clock driver_send pkt len s).
Proof.
  intros Hs Hb Hl H42. unfold arp_rx. case_match; [auto with xkern|].
  rewrite get_bind by lia. case_match; [auto with xkern|].
  rewrite bytes_bind by lia. rewrite get_bind by lia.
  assert (mac_ok (take 6 (drop (Z.to_nat 8) pkt))) as Hsha.
  { split; [rewrite length_take, length_drop; lia|by apply Forall_take, Forall_drop]. }
  assert (net_ok (arp_cache_add clock (take 6 (drop (Z.to_nat 8) pkt)) (le_val (take 4 (drop (Z.to_nat 14) pkt))) s))
    as Hs' by (apply arp_cache_add_ok; [done|done|by apply le_val_u32]).
  set (s' := arp_cache_add _ _ _ _) in *. rewrite get_bind by lia. rewrite get_bind by lia.
  case_match; [|auto with xkern]. rewrite bytes_bind by lia.
  apply safe2_bind; [|auto with xkern].
  apply ether_send_safe; [done|apply Hsha| |done].
  destruct (ok_mac _ Hs') as [Hm _]. unfold ETH_HDR, put16, put32.
  repeat rewrite ?length_drop, ?length_app, ?length_take, ?length_le_bytes. lia.
Qed.

Lemma icmp_rx_safe pkt len ip s :
  net_ok s -> Forall byte_ok pkt -> 0 <= len <= Z.of_nat (length pkt) -> len <= NET_MTU ->
  safe (icmp_rx driver_send pkt len ip s).
Proof.
  intros Hs Hb Hl Hm. unfold icmp_rx. case_match; [auto with xkern|].
  destruct (byte_at_ok pkt 0) as (ty & -> & _); [lia|done|]. rewrite bind_ret.
  do 2 (case_match; [auto with xkern|]).
  rewrite (proj2 (Z.ltb_ge NET_MTU len)) by lia. rewrite bytes_bind by lia.
  match goal with |- context [ip_checksum ?d] => destruct (ip_checksum_total d) as [c ->] end.
  rewrite bind_ret. apply safe2_bind; [by apply ipv4_send_safe|auto with xkern].
Qed.

Definition opts_ok (o : dh_opts) : Prop := is_u32 (o_subnet o) /\ is_u32 (o_router o) /\ is_u32 (o_srv o).

(** The option parser returns on every packet, without reading behind its
    end. *)
Lemma opt_parse_total data len :
  Forall byte_ok data -> 0 <= len <= Z.of_nat (length data) -> len <= 65535 ->
  exists o, opt_parse data len = Ret o /\ opts_ok o.
Proof.
  intros Hb Hl Hmax. unfold opt_parse.
  loop_with (fun '(i, o) => 0 <= i < 70000 /\ opts_ok o) opts_ok (fun '(i, _) => 70000 - i)
    as (o & -> & Ho); [|by unfold opts_ok, is_u32, DH_HDRSZ|done|eauto].
  intros [i o] [Hi Ho]. destruct (Z.ltb_spec i len) as [Hlt|]; [|eauto].
  destruct (byte_at_ok data i) as (code & -> & Hc); [lia|done|]. rewrite bind_ret.
  destruct (code =? 0).
  { left. eexists. split; [done|]. rewrite u32_small by lia. split; [auto with lia|lia]. }
  destruct (code =? 255); [eauto|]. rewrite (u32_small (i + 1)) by lia.
  destruct (Z.leb_spec len (i + 1)) as [|H1]; [eauto|].
  destruct (byte_at_ok data (i + 1)) as (l & -> & Hv); [lia|done|]. rewrite bind_ret.
  unfold byte_ok in Hv. rewrite (u32_small (i + 2 + l)), (u32_small (i + (2 + l))) by lia.
  destruct (Z.ltb_spec len (i + 2 + l)) as [|H2]; [eauto|]. left.
  match goal with |- context [mbind _ ?m] =>
    assert (exists o', m = Ret o' /\ opts_ok o') as (o' & -> & Ho') end.
  { destruct Ho as (? & ? & ?).
    repeat match goal with
    | |- context [byte_at data (i + 2)] =>
        destruct (byte_at_ok data (i + 2)) as (v & -> & _); [lia|done|]; rewrite bind_ret
    | |- context [get data (i + 2) 4] => rewrite get_bind by lia
    | |- context [if ?b then _ else _] => destruct b eqn:?
    end; eexists; (split; [done|]); unfold opts_ok; cbn; auto with xkern; try lia.
    all: split_and!; auto; apply NET_HTONL_range. }
  rewrite bind_ret. eexists. split; [done|]. split; [auto with lia|lia].
Qed.

Lemma dhcp_send_safe ty ip srv s : net_ok s -> safe2 (dhcp_send clock driver_send ty ip srv s).
Proof. apply udp_send_safe. Qed.

Lemma dhcp_rx_safe data len s :
  net_ok s -> Forall byte_ok data -> 0 <= len <= Z.of_nat (length data) -> len <= 65535 ->
  safe (dhcp_rx data len s).
Proof.
  intros Hs Hb Hl Hm. unfold Net.dhcp_rx. destruct (Z.ltb_spec len (DH_HDRSZ + 3)); [auto with xkern|].
  unfold DH_HDRSZ in *. rewrite get_bind by lia. case_match; [auto with xkern|].
  rewrite get_bind by lia. case_match; [auto with xkern|]. rewrite get_bind by lia.
  destruct (opt_parse_total data len) as (o & -> & Hsub & Hrt & Hsrv); [done..|]. rewrite bind_ret.
  pose proof (NET_HTONL_range (le_val (take 4 (drop (Z.to_nat 16) data)))) as Hy.
  case_match; [|case_match; [|auto with xkern]].
  - apply safe2_bind.
    + apply dhcp_send_safe. apply net_ok_dhcp; try done; apply Hs.
    + intros v s' Hs'. cbn. apply safe_ret. apply net_ok_dhcp; auto with xkern. apply Hs.
  - apply safe_ret. destruct Hs. apply net_ok_dhcp; try done. apply net_ok_addr; try done.
    by case_match.
Qed.

Lemma dhcp_poll_safe s : net_ok s -> safe (dhcp_poll clock driver_send s).
Proof.
  intros Hs. unfold dhcp_poll. cbn [tsc_ms]. pose proof (net_ok_clock _ Hs) as Hc.
  assert (forall s', net_ok s' -> forall t st, safe (Ret (set_dhcp (mkDhcp st (dh_xid (n_dhcp s)) (dh_offer_ip (n_dhcp s))
    (dh_srv_id (n_dhcp s)) t (dh_started_ms (n_dhcp s))) s'))) as Hset.
  { intros s' Hs' t st. apply safe_ret, net_ok_dhcp; [done|apply Hs..]. }
  cbn. destruct (dh_state (n_dhcp s)); auto with xkern; case_match; auto with xkern;
    (apply safe2_bind; [by apply dhcp_send_safe|]; intros v s' Hs'; by apply Hset).
Qed.

Lemma udp_rx_safe pkt len ip s :
  net_ok s -> Forall byte_ok pkt -> 0 <= len <= Z.of_nat (length pkt) ->
  safe (udp_rx clock driver_send pkt len ip s).
Proof.
  intros Hs Hb Hl. unfold udp_rx. destruct (Z.ltb_spec len 8); [auto with xkern|].
  rewrite get_bind by lia. rewrite get_bind by lia.
  set (ulen := NET_HTONS (le_val (take 2 (drop (Z.to_nat 4) pkt)))).
  assert (0 <= ulen < 2 ^ 16) by apply NET_HTONS_range.
  destruct (Z.ltb_spec ulen 8), (Z.ltb_spec len ulen); cbn [orb]; auto with xkern.
  destruct (find _ _) as [[? [[|n]|]]|]; auto with xkern.
  - apply dhcp_rx_safe; [done|by apply Forall_drop| |lia]. rewrite length_drop. lia.
  - rewrite get_bind by lia. rewrite bytes_bind by lia.
    apply safe_ret. by destruct Hs.
Qed.

Lemma ipv4_rx_safe pkt len s :
  net_ok s -> Forall byte_ok pkt -> 0 <= len <= Z.of_nat (length pkt) -> len <= NET_MTU + 20 ->
  safe (ipv4_rx clock driver_send pkt len s).
Proof.
  intros Hs Hb Hl Hm. unfold ipv4_rx. destruct (Z.ltb_spec len 20); [auto with xkern|].
  destruct (byte_at_ok pkt 0) as (v & -> & _); [lia|done|]. rewrite bind_ret.
  case_match; [auto with xkern|]. rewrite get_bind by lia.
  set (tot := NET_HTONS _). assert (0 <= tot < 2 ^ 16) by apply NET_HTONS_range.
  destruct (Z.ltb_spec tot 20), (Z.ltb_spec len tot); cbn [orb]; auto with xkern.
  rewrite get_bind by lia. case_match; [auto with xkern|]. rewrite bytes_bind by lia.
  match goal with |- context [ip_checksum ?d] => destruct (ip_checksum_total d) as [c ->] end. rewrite bind_ret.
  case_match; [auto with xkern|]. destruct (byte_at_ok pkt 9) as (p & -> & _); [lia|done|].
  rewrite bind_ret, get_bind by lia.
  case_match; [|case_match; [|auto with xkern]].
  - apply icmp_rx_safe; [done|by apply Forall_drop| |lia]. rewrite length_drop. lia.
  - apply udp_rx_safe; [done|by apply Forall_drop|]. rewrite length_drop. lia.
Qed.

Lemma ether_rx_safe frame len s :
  net_ok s -> Forall byte_ok frame -> Z.of_nat (length frame) = NET_FRAMESZ -> 0 < len <= NET_FRAMESZ ->
  safe (ether_rx clock driver_send frame len s).
Proof.
  intros Hs Hb Hf Hl. unfold NET_FRAMESZ in *. unfold ether_rx.
  destruct (Z.ltb_spec len 15); [auto with xkern|]. rewrite get_bind by lia.
  assert (Forall byte_ok (drop ETH_HDR frame)) by (by apply Forall_drop).
  case_match; [|case_match; [|auto with xkern]].
  - apply arp_rx_safe; try done; rewrite length_drop; unfold ETH_HDR; lia.
  - apply ipv4_rx_safe; try done; [rewrite length_drop|]; unfold ETH_HDR, NET_MTU; lia.
Qed.

(** A buffer of the receive ring. *)
Definition rx_ok (r : list Z * Z) : Prop :=
  Forall byte_ok r.1 /\ 2048 <= Z.of_nat (length r.1) /\ 0 <= r.2.

Lemma e1000_poll_safe stale rx s :
  net_ok s -> Forall byte_ok stale -> Z.of_nat (length stale) = NET_FRAMESZ -> Forall rx_ok rx ->
  safe (e1000_poll clock driver_send stale rx s).
Proof.
  intros Hs Hst Hl Hrx. revert s Hs. induction Hrx as [|[buf len] rx (Hb & H2 & H0) _ IH]; intros s Hs;
    cbn [e1000_poll]; [auto with xkern|]. cbn in *.
  match goal with |- safe (x ← ?m; _) => assert (safe m) as (s' & -> & Hs') end; [|by apply IH].
  destruct (Z.eqb_spec len 0), (Z.leb_spec len NET_FRAMESZ); cbn; auto with xkern.
  unfold NET_FRAMESZ in *. rewrite bytes_bind by lia.
  apply ether_rx_safe; [done| | |unfold NET_FRAMESZ; lia].
  - apply Forall_app. split; [by apply Forall_take, Forall_drop|by apply Forall_drop].
  - rewrite length_app, length_take, !length_drop. unfold NET_FRAMESZ. lia.
Qed.

(** C9: No frame can break the stack: whatever bytes and lengths the device
    delivers (runt frames, lying length fields, broken options), ionet_poll
    returns without reading outside the frame buffer or overrunning the reply
    buffer, keeps the tables and addresses well formed, and hands the driver
    only frames that fit its buffers. *)
Theorem ionet_poll_safe stale rx s :
  net_ok s -> Forall byte_ok stale -> Z.of_nat (length stale) = NET_FRAMESZ -> Forall rx_ok rx ->
  exists s', ionet_poll clock driver_send stale rx s = Ret s' /\ net_ok s'.
Proof.
  intros Hs Hst Hl Hrx. unfold ionet_poll. case_match; [by apply safe_ret|].
  destruct (e1000_poll_safe stale rx s) as (s1 & -> & Hs1); [done..|]. rewrite bind_ret.
  case_match; [by apply dhcp_poll_safe|]. case_match; [|by apply safe_ret].
  cbn [tsc_ms]. case_match; [|by apply safe_ret, net_ok_clock]. apply safe2_bind.
  - unfold icmp_echo_request. match goal with |- context [ip_checksum ?d] =>
      destruct (ip_checksum_total d) as [c ->] end. rewrite bind_ret. apply ipv4_send_safe.
    by destruct Hs1.
  - intros v s2 Hs2. cbn. apply safe_ret. by destruct Hs2.
Qed.

End Safety.

(** A stack as [ionet_init] leaves it, on a machine with a network card. *)
Definition net_boot : net :=
  mkNet [0x52; 0x54; 0; 0x12; 0x34; 0x56] 0 0xFFFFFF00 0 false
    (replicate ARP_CACHE_SIZE (mkEnt 0 (replicate 6 0) 0 false)) (replicate UDP_MAX_PORTS (mkPort 0 None))
    (mkDhcp DH_OFF 0 0 0 0 0) [] [] 0 0 0.

Definition demo_clock (n : nat) : Z := 1000 + 10 * Z.of_nat n.
Definition demo_send (f : list Z) : Z := 0.
Definition demo_net : net := ionet_init demo_clock (Some [0x52; 0x54; 0; 0x12; 0x34; 0x57]) net_boot.

Lemma demo_net_ok : net_ok demo_net.
Proof.
  constructor; unfold mac_ok, is_u32; try (split; [reflexivity|]); repeat constructor; try done.
Qed.

Lemma fill_ok b (n : Z) : byte_ok b -> Forall byte_ok (replicate (Z.to_nat n) b).
Proof. by apply Forall_replicate. Qed.
Lemma length_fill (b n : Z) : 0 <= n -> Z.of_nat (length (replicate (Z.to_nat n) b)) = n.
Proof. intros. rewrite length_replicate. lia. Qed.
Lemma rx_ok_fill b n len : byte_ok b -> 2048 <= n -> 0 <= len -> rx_ok (replicate (Z.to_nat n) b, len).
Proof. intros. split_and!; cbn; [by apply fill_ok| |done]. rewrite length_fill; lia. Qed.

Lemma ionet_poll_safe_witness :
  exists s', ionet_poll demo_clock demo_send (replicate (Z.to_nat 1518) 0)
    [(replicate (Z.to_nat 2048) 0xFF, 60); (replicate (Z.to_nat 2048) 8, 1518)] demo_net = Ret s' /\ net_ok s'.
Proof.
  apply (ionet_poll_safe demo_clock demo_send).
  - exact demo_net_ok.
  - apply fill_ok. done.
  - apply length_fill. done.
  - apply Forall_cons_2; [apply rx_ok_fill; done|]. apply Forall_cons_2; [apply rx_ok_fill; done|]. constructor.
Defined.

(** ** What one host sends, another receives *)

(** The header on the wire. *)
Definition wire_header (src dst proto tot k : Z) : list Z :=
  [0x45; 0] ++ be16 tot ++ [0; 0; 0x40; 0; 64; proto] ++ be16 k ++ be32 src ++ be32 dst.

Lemma ip_header_wire src dst proto plen k :
  ip_header src dst proto plen (NET_HTONS k) = wire_header src dst proto (20 + plen) k.
Proof.
  unfold ip_header, wire_header. rewrite !put16_htons, !put32_htonl.
  assert (be16 (u16 (20 + plen)) = be16 (20 + plen)) as -> by (unfold be16; list_eq; ilia).
  reflexivity.
Qed.

Lemma wire_header_ok src dst proto tot k : byte_ok proto -> Forall byte_ok (wire_header src dst proto tot k).
Proof. intros. repeat (constructor; [done || ilia|]). constructor. Qed.

Lemma wire_header_sum src dst proto tot k : 0 <= k < 65536 ->
  sumZ (be_words (wire_header src dst proto tot k)) = sumZ (be_words (wire_header src dst proto tot 0)) + k.
Proof. intros Hk. cbn -[Z.mul]. ilia. Qed.

(** The header carries a checksum that the receiver accepts. *)
Lemma hdr_fill_wire src dst proto plen :
  byte_ok proto ->
  exists k, hdr_fill src dst proto plen = Ret (wire_header src dst proto (20 + plen) k) /\
    ip_checksum (wire_header src dst proto (20 + plen) k) = Ret 0.
Proof.
  intros Hp. unfold hdr_fill. change 0 with (NET_HTONS 0) at 1. rewrite ip_header_wire.
  set (tot := 20 + plen). pose proof (wire_header_ok src dst proto tot 0 Hp) as H0.
  rewrite ip_checksum_eq, bind_ret by (done || (cbn; lia)). rewrite ip_header_wire.
  pose proof (be_words_ok _ H0) as Hw. pose proof (sumZ_bound _ Hw) as Hb.
  set (k := 65535 - oc_sum (be_words (wire_header src dst proto tot 0))).
  assert (0 <= k < 65536) as Hk.
  { subst k. rewrite oc_sum_norm by done. pose proof (oc_norm_range (sumZ (be_words (wire_header src dst proto tot 0)))). lia. }
  exists k. split; [done|]. pose proof (wire_header_ok src dst proto tot k Hp) as H1.
  rewrite ip_checksum_eq by (done || (cbn; lia)).
  rewrite (oc_valid_checksum (be_words (wire_header src dst proto tot 0)) k); [done|done|done| | |].
  - cbn -[Z.mul]. unfold byte_ok in Hp. ilia.
  - by apply wire_header_sum.
  - by apply be_words_ok.
Qed.

(** The next hop's address: the broadcast address, or the one in the cache. *)
Definition link_address (dst : Z) (s : net) : option (list Z) :=
  if dst =? 0xFFFFFFFF then Some net_bcast_mac
  else arp_lookup (if Z.land (Z.lxor dst (g_net_ip s)) (g_net_mask s) =? 0 then dst else g_net_gw s) s.

Lemma link_address_mac dst s mac : net_ok s -> link_address dst s = Some mac -> mac_ok mac.
Proof.
  intros Hs. unfold link_address. case_match; [|by eapply arp_lookup_mac].
  intros [= <-]. split; [done|]. repeat constructor; done.
Qed.

Section Delivery.
Context (clock : nat -> Z) (driver_send : list Z -> Z).

Lemma ipv4_send_frame dst proto payload s mac :
  n_dev s = true -> byte_ok proto -> Z.of_nat (length payload) <= NET_MTU - 20 ->
  link_address dst s = Some mac ->
  exists k, let tot := 20 + Z.of_nat (length payload) in
    let frame := mac ++ g_net_mac s ++ be16 ETHERTYPE_IPV4 ++ wire_header (g_net_ip s) dst proto tot k ++ payload in
    ipv4_send driver_send dst proto payload s = Ret (driver_send frame, add_sent frame s) /\
    ip_checksum (wire_header (g_net_ip s) dst proto tot k) = Ret 0.
Proof.
  intros Hd Hp Hl Hmac. unfold NET_MTU in Hl. unfold ipv4_send.
  rewrite (proj2 (Z.ltb_ge _ _)) by (unfold NET_MTU; lia).
  rewrite (u16_small (Z.of_nat (length payload))) by lia.
  destruct (hdr_fill_wire (g_net_ip s) dst proto (Z.of_nat (length payload)) Hp) as (k & -> & Hk).
  exists k. cbn zeta. split; [|exact Hk]. rewrite !bind_ret.
  set (h := wire_header _ _ _ _ _). assert (length h = 20%nat) as Hh by done.
  assert (forall m, ether_send driver_send m ETHERTYPE_IPV4 (h ++ payload) (20 + Z.of_nat (length payload)) s =
    Ret (driver_send (m ++ g_net_mac s ++ be16 ETHERTYPE_IPV4 ++ h ++ payload),
         add_sent (m ++ g_net_mac s ++ be16 ETHERTYPE_IPV4 ++ h ++ payload) s)) as Hsend.
  { intros m. unfold ether_send. rewrite bytes_bind by (rewrite ?length_app; lia).
    change (Z.to_nat 0) with 0%nat. rewrite drop_0, take_ge by (rewrite length_app; lia).
    unfold netdev_send. by rewrite Hd, put16_htons. }
  unfold link_address in Hmac. destruct (dst =? 0xFFFFFFFF).
  - injection Hmac as <-. apply Hsend.
  - rewrite Hmac. apply Hsend.
Qed.

(** The addresses at which a host takes a packet. *)
Definition accepts (dst : Z) (r : net) : Prop := g_net_ip r = dst \/ (g_net_ip r = 0 /\ dst = 0xFFFFFFFF).

Lemma ipv4_rx_wire src dst proto k payload tail len r :
  let tot := 20 + Z.of_nat (length payload) in
  is_u32 src -> is_u32 dst -> byte_ok proto -> tot <= len -> tot < 65536 ->
  accepts dst r -> ip_checksum (wire_header src dst proto tot k) = Ret 0 ->
  ipv4_rx clock driver_send (wire_header src dst proto tot k ++ payload ++ tail) len r =
  if proto =? IP_PROTO_ICMP then icmp_rx driver_send (payload ++ tail) (tot - 20) src r
  else if proto =? IP_PROTO_UDP then udp_rx clock driver_send (payload ++ tail) (tot - 20) src r
  else Ret r.
Proof.
  intros tot Hsrc Hdst Hp Hlen Hmax Hacc Hck. unfold is_u32 in *. unfold ipv4_rx.
  set (h := wire_header src dst proto tot k) in *. assert (length h = 20%nat) as Hh by done.
  assert (20 <= Z.of_nat (length (h ++ payload ++ tail))) as Hn by (rewrite length_app; lia).
  rewrite (proj2 (Z.ltb_ge len 20)) by lia.
  change (byte_at (h ++ payload ++ tail) 0) with (Ret 0x45). rewrite bind_ret. cbn match. cbn [negb orb].
  rewrite get_bind by lia.
  change (take 2 (drop (Z.to_nat 2) (h ++ payload ++ tail))) with (be16 tot).
  rewrite ntohs_be16 by lia.
  rewrite (proj2 (Z.ltb_ge tot 20)), (proj2 (Z.ltb_ge len tot)) by lia. cbn [orb].
  rewrite get_bind by lia.
  change (take 4 (drop (Z.to_nat 16) (h ++ payload ++ tail))) with (be32 dst).
  rewrite ntohl_be32 by lia.
  assert (negb (dst =? g_net_ip r) && negb ((g_net_ip r =? 0) && (dst =? 0xFFFFFFFF)) = false) as ->.
  { destruct Hacc as [-> | [-> ->]]; [by rewrite Z.eqb_refl|done]. }
  rewrite bytes_bind by lia.
  assert (take 20 (drop (Z.to_nat 0) (h ++ payload ++ tail)) = h) as -> by done.
  rewrite Hck, bind_ret. cbn [negb Z.eqb].
  change (byte_at (h ++ payload ++ tail) 9) with (Ret proto). rewrite bind_ret, get_bind by lia.
  change (take 4 (drop (Z.to_nat 12) (h ++ payload ++ tail))) with (be32 src).
  rewrite ntohl_be32 by lia.
  change (drop 20 (h ++ payload ++ tail)) with (payload ++ tail). reflexivity.
Qed.

Lemma ether_rx_frame mac smac ty body len r :
  length mac = 6%nat -> length smac = 6%nat -> 0 <= ty < 2 ^ 16 -> 15 <= len ->
  ether_rx clock driver_send (mac ++ smac ++ be16 ty ++ body) len r =
  if ty =? ETHERTYPE_ARP then arp_rx clock driver_send body (len - 14) r
  else if ty =? ETHERTYPE_IPV4 then ipv4_rx clock driver_send body (len - 14) r else Ret r.
Proof.
  intros Hm Hs Ht Hl. unfold ether_rx. rewrite (proj2 (Z.ltb_ge len 15)) by lia.
  assert (forall X, drop 12 (mac ++ smac ++ X) = X) as Hdrop.
  { intros X. rewrite app_assoc. apply drop_app_length'. rewrite length_app. lia. }
  rewrite get_bind by (rewrite ?length_app; cbn [length be16]; lia).
  change (Z.to_nat 12) with 12%nat. rewrite Hdrop.
  change (take 2 (be16 ty ++ body)) with (be16 ty). rewrite ntohs_be16 by lia.
  assert (drop ETH_HDR (mac ++ smac ++ be16 ty ++ body) = body) as ->; [|done].
  change ETH_HDR with (12 + 2)%nat. rewrite <- drop_drop, Hdrop. done.
Qed.

Lemma udp_header_wire sp dp total c :
  0 <= total < 2 ^ 16 -> udp_header sp dp total (NET_HTONS c) = be16 sp ++ be16 dp ++ be16 total ++ be16 c.
Proof. intros. unfold udp_header. by rewrite !put16_htons, u16_small by lia. Qed.

(** The binding of a port is the one a datagram is given to. *)
Definition handler (port : Z) (s : net) : option udp_ent :=
  find (fun p => (u_port p =? port) && bool_decide (u_fn p <> None)) (n_ports s).

Lemma port_slot_spec port ps i slot :
  match port_slot i slot port ps with
  | inl j => exists a p b, ps = a ++ p :: b /\ j = (i + length a)%nat /\ u_port p = port /\
               Forall (fun q => u_port q <> port) a
  | inr o => Forall (fun q => u_port q <> port) ps /\
      match o with
      | Some j => slot = Some j \/ exists k, j = (i + k)%nat /\ (k < length ps)%nat
      | None => True
      end
  end.
Proof.
  revert i slot. induction ps as [|p ps IH]; cbn [port_slot]; intros i slot.
  { split; [constructor|]. destruct slot; auto. }
  destruct (Z.eqb_spec (u_port p) port) as [E|E].
  { exists [], p, ps. split_and!; [done|cbn; lia|done|constructor]. }
  specialize (IH (S i) (if u_port p =? 0 then match slot with None => Some i | s => s end else slot)).
  destruct (port_slot _ _ _ _) as [j|o].
  - destruct IH as (a & q & b & -> & -> & Hq & Ha). exists (p :: a), q, b.
    split_and!; [done|cbn; lia|done|by constructor].
  - destruct IH as [Hall Ho]. split; [by constructor|]. destruct o as [j|]; [|done].
    destruct Ho as [Ho|(k & -> & Hk)]; [|right; exists (S k); cbn; lia].
    destruct (u_port p =? 0); [|auto]. destruct slot as [j'|]; [auto|]. simplify_eq.
    right. exists 0%nat. cbn. lia.
Qed.

Lemma find_app_None {A} (f : A -> bool) a p b :
  Forall (fun x => f x = false) a -> f p = true -> find f (a ++ p :: b) = Some p.
Proof. intros Ha Hp. induction Ha as [|x a Hx _ IH]; cbn; [by rewrite Hp|]. by rewrite Hx. Qed.

Lemma udp_bind_handler port h s s' :
  udp_bind port (Some h) s = (0, s') -> handler port s' = Some (mkPort port (Some h)).
Proof.
  unfold udp_bind, handler. pose proof (port_slot_spec port (n_ports s) 0 None) as Hs.
  assert (forall q : udp_ent, u_port q <> port -> (u_port q =? port) && bool_decide (u_fn q <> None) = false) as Hne.
  { intros q Hq. by rewrite (proj2 (Z.eqb_neq _ _) Hq). }
  destruct (port_slot _ _ _ _) as [j|[j|]]; intros [= <-].
  - destruct Hs as (a & p & b & E & -> & Hp & Ha). cbn. rewrite E.
    assert (alter (fun q => mkPort (u_port q) (Some h)) (length a) (a ++ p :: b) = a ++ mkPort port (Some h) :: b) as ->.
    { rewrite alter_app_r_alt, Nat.sub_diag by lia. cbn. by rewrite Hp. }
    apply find_app_None; [eapply Forall_impl; [exact Ha|exact Hne]|]. cbn. by rewrite Z.eqb_refl.
  - destruct Hs as [Ha [?|(k & -> & Hk)]]; [done|]. cbn.
    destruct (lookup_lt_is_Some_2 (n_ports s) k Hk) as [p Hp].
    rewrite insert_take_drop by done. apply find_app_None.
    + apply Forall_take. eapply Forall_impl; [exact Ha|exact Hne].
    + cbn. by rewrite Z.eqb_refl.
Qed.

Lemma udp_rx_wire sp dp c data tail src r n :
  let total := 8 + Z.of_nat (length data) in
  0 <= sp < 2 ^ 16 -> 0 <= dp < 2 ^ 16 -> total < 2 ^ 16 ->
  handler dp r = Some (mkPort dp (Some (HUser n))) ->
  udp_rx clock driver_send ((be16 sp ++ be16 dp ++ be16 total ++ be16 c ++ data) ++ tail) total src r =
  Ret (add_inbox (n, src, sp, data) r).
Proof.
  intros total Hsp Hdp Ht Hh. unfold udp_rx. rewrite <- !app_assoc.
  set (pkt := be16 sp ++ be16 dp ++ be16 total ++ be16 c ++ data ++ tail).
  assert (8 + Z.of_nat (length data) <= Z.of_nat (length pkt)) as Hl.
  { subst pkt. rewrite !length_app. cbn [length be16]. lia. }
  rewrite (proj2 (Z.ltb_ge total 8)) by lia. rewrite get_bind by lia. rewrite get_bind by lia.
  change (take 2 (drop (Z.to_nat 2) pkt)) with (be16 dp). change (take 2 (drop (Z.to_nat 4) pkt)) with (be16 total).
  rewrite !ntohs_be16 by lia. rewrite (proj2 (Z.ltb_ge total 8)), Z.ltb_irrefl by lia. cbn [orb].
  unfold handler in Hh. rewrite Hh. rewrite get_bind by lia. rewrite bytes_bind by lia.
  change (take 2 (drop (Z.to_nat 0) pkt)) with (be16 sp). rewrite ntohs_be16 by lia.
  change (drop (Z.to_nat 8) pkt) with (data ++ tail). rewrite take_app_length' by lia. done.
Qed.

(** The frame of a datagram, from the link header on. *)
Definition udp_segment (src dst sp dp : Z) (data : list Z) : list Z :=
  let total := 8 + Z.of_nat (length data) in
  let c := 65535 - oc_norm (udp_sum src dst total (udp_header sp dp total 0 ++ data)) in
  be16 sp ++ be16 dp ++ be16 total ++ be16 c ++ data.

Lemma length_udp_segment src dst sp dp data : length (udp_segment src dst sp dp data) = (8 + length data)%nat.
Proof. unfold udp_segment. rewrite !length_app. done. Qed.

Lemma udp_send_frame s dst dp sp data mac :
  n_dev s = true -> 0 < sp < 2 ^ 16 ->
  Z.of_nat (length data) <= 1472 -> link_address dst s = Some mac ->
  exists k, let tot := 28 + Z.of_nat (length data) in
    let frame := mac ++ g_net_mac s ++ be16 ETHERTYPE_IPV4 ++
      wire_header (g_net_ip s) dst IP_PROTO_UDP tot k ++ udp_segment (g_net_ip s) dst sp dp data in
    udp_send clock driver_send dst dp sp data s = Ret (driver_send frame, add_sent frame s) /\
    ip_checksum (wire_header (g_net_ip s) dst IP_PROTO_UDP tot k) = Ret 0.
Proof.
  intros Hd Hsp Hl Hmac. unfold udp_send.
  rewrite (u32_small (8 + _)) by lia. rewrite (proj2 (Z.ltb_ge NET_MTU _)) by (unfold NET_MTU; lia).
  rewrite (proj2 (Z.eqb_neq sp 0)) by lia.
  pose proof (sum_words_range (udp_header sp dp (8 + Z.of_nat (length data)) 0 ++ data)) as Hr.
  assert (0 <= udp_sum (g_net_ip s) dst (8 + Z.of_nat (length data))
    (udp_header sp dp (8 + Z.of_nat (length data)) 0 ++ data) < 2 ^ 32) as Hsum
    by (unfold udp_sum; apply Hr, u32_range).
  rewrite fold_carries_eq, bind_ret by done. rewrite lnot16 by (apply oc_norm_range; lia).
  rewrite udp_header_wire, <- !app_assoc by lia.
  pose proof (length_udp_segment (g_net_ip s) dst sp dp data) as Hseg.
  destruct (ipv4_send_frame dst IP_PROTO_UDP (udp_segment (g_net_ip s) dst sp dp data) s mac)
    as (k & Hsend & Hck); [done|done|unfold NET_MTU; lia|done|].
  cbn zeta in Hsend, Hck. rewrite Hseg in Hsend, Hck.
  replace (20 + Z.of_nat (8 + length data)) with (28 + Z.of_nat (length data)) in Hsend, Hck by lia.
  exists k. cbn zeta. done.
Qed.

(** C10: A datagram arrives as it was sent: when udp_send has a link address for
    the next hop, it gives the driver one frame for that address, and a host
    that takes packets for the destination and has bound the port receives it
    through ether_rx, whatever padding the frame has picked up: the bound
    handler is called once with the sender's address and port and exactly the
    bytes that were sent, and nothing else of the host changes. *)
Theorem udp_datagram_delivered s dst dp sp data mac n r0 r :
  net_ok s -> n_dev s = true -> is_u32 dst -> 0 < sp < 2 ^ 16 -> 0 <= dp < 2 ^ 16 ->
  Z.of_nat (length data) <= 1472 -> link_address dst s = Some mac ->
  udp_bind dp (Some (HUser n)) r0 = (0, r) -> accepts dst r ->
  exists frame,
    udp_send clock driver_send dst dp sp data s = Ret (driver_send frame, add_sent frame s) /\
    take 6 frame = mac /\
    forall tail len, Z.of_nat (length frame) <= len ->
      ether_rx clock driver_send (frame ++ tail) len r = Ret (add_inbox (n, g_net_ip s, sp, data) r).
Proof.
  intros Hs Hd Hdst Hsp Hdp Hl Hmac Hbind Hacc.
  destruct (udp_send_frame s dst dp sp data mac) as (k & Hsend & Hck); [done..|]. cbn zeta in *.
  rewrite Hsend. eexists. split; [done|]. destruct (link_address_mac _ _ _ Hs Hmac) as [Hm6 _].
  split; [by apply take_app_length'|]. destruct (ok_mac _ Hs) as [Hsm _].
  pose proof (length_udp_segment (g_net_ip s) dst sp dp data) as Hseg.
  intros tail len Hlen. rewrite !length_app, Hm6, Hsm, Hseg in Hlen. cbn [length be16] in Hlen.
  change (length (wire_header _ _ _ _ _)) with 20%nat in Hlen.
  replace (28 + Z.of_nat (length data)) with (20 + Z.of_nat (length (udp_segment (g_net_ip s) dst sp dp data))) in * by lia.
  rewrite <- !app_assoc. rewrite ether_rx_frame by (done || lia).
  change (ETHERTYPE_IPV4 =? ETHERTYPE_ARP) with false. rewrite Z.eqb_refl. cbn match.
  rewrite ipv4_rx_wire; [|apply Hs|done|done|lia..|done|done].
  change (IP_PROTO_UDP =? IP_PROTO_ICMP) with false. rewrite Z.eqb_refl. cbn match.
  rewrite Z.add_simpl_l, Hseg, Nat2Z.inj_add.
  apply udp_rx_wire; [lia..|]. by eapply udp_bind_handler.
Qed.

End Delivery.

(** A host with an address, and the one it talks to in its cache. *)
Definition host_a : net :=
  mkNet [2; 0; 0; 0; 0; 1] 0x0A000001 0xFFFFFF00 0 true
    (mkEnt (NET_HTONL 0x0A000002) [2; 0; 0; 0; 0; 2] 5 true :: replicate 15 (mkEnt 0 (replicate 6 0) 0 false))
    (replicate UDP_MAX_PORTS (mkPort 0 None)) (mkDhcp DH_BOUND 7 0 0 0 0) [] [] 0 0 0.
Definition host_b : net := (udp_bind 7777 (Some (HUser 3)) (set_addr 0x0A000002 0xFFFFFF00 0 host_a)).2.

Lemma host_a_ok : net_ok host_a.
Proof. constructor; unfold mac_ok, is_u32; try (split; [reflexivity|]); repeat constructor; try done. Qed.

Lemma udp_datagram_delivered_witness :
  exists frame, udp_send demo_clock demo_send 0x0A000002 7777 99 [1; 2; 3] host_a = Ret (0, add_sent frame host_a) /\
    take 6 frame = [2; 0; 0; 0; 0; 2] /\
    forall tail len, Z.of_nat (length frame) <= len ->
      ether_rx demo_clock demo_send (frame ++ tail) len host_b =
      Ret (add_inbox (3%nat, 0x0A000001, 99, [1; 2; 3]) host_b).
Proof.
  apply (udp_datagram_delivered demo_clock demo_send host_a 0x0A000002 7777 99 [1; 2; 3] [2; 0; 0; 0; 0; 2] 3
    (set_addr 0x0A000002 0xFFFFFF00 0 host_a) host_b).
  - exact host_a_ok.
  - reflexivity.
  - split; vm_compute; congruence.
  - lia.
  - lia.
  - vm_compute. congruence.
  - vm_compute. reflexivity.
  - vm_compute. reflexivity.
  - left. reflexivity.
Defined.

(** ** The ARP cache *)

Lemma le_be32 x : le_val (be32 x) = NET_HTONL x.
Proof. rewrite NET_HTONL_eq. unfold be32. cbn. lia. Qed.

Lemma NET_HTONL_twice x : 0 <= x < 2 ^ 32 -> NET_HTONL (NET_HTONL x) = x.
Proof. intros. rewrite <- (le_be32 x). by apply ntohl_be32. Qed.

Lemma NET_HTONL_inj x y : is_u32 x -> is_u32 y -> NET_HTONL x = NET_HTONL y -> x = y.
Proof. intros Hx Hy E. rewrite <- (NET_HTONL_twice x), E by done. by apply NET_HTONL_twice. Qed.

(** The entries that [arp_cache_add] may use for the address. *)
Definition usable (spa : Z) (e : arp_cache_ent) : bool := negb (c_used e) || (c_ip e =? spa).
Definition matches (w : Z) (e : arp_cache_ent) : bool := c_used e && (c_ip e =? w).

Lemma arp_slot_spec spa c i slot :
  match arp_slot i slot spa c with
  | Some j =>
      (slot = Some j /\ Forall (fun e => matches spa e = false) c) \/
      exists a e b, c = a ++ e :: b /\ j = (i + length a)%nat /\ usable spa e = true /\
        Forall (fun e => matches spa e = false) a /\
        (matches spa e = true \/ (matches spa e = false /\ Forall (fun e => matches spa e = false) b))
  | None => slot = None /\ Forall (fun e => usable spa e = false) c
  end.
Proof.
  revert i slot. induction c as [|e c IH]; cbn [arp_slot]; intros i slot.
  { destruct slot; eauto. }
  change (c_used e && (c_ip e =? spa)) with (matches spa e). destruct (matches spa e) eqn:Em.
  { right. exists [], e, c. cbn. split_and!; [done|lia| |done|auto].
    unfold usable, matches in *. apply andb_true_iff in Em as [_ ->]. by rewrite orb_true_r. }
  specialize (IH (S i) (if negb (c_used e) then match slot with None => Some i | s => s end else slot)).
  destruct (arp_slot _ _ _ _) as [j|].
  - destruct IH as [[Hj Hc]|(a & f & b & -> & -> & Hu & Ha & Hb)].
    + destruct (c_used e) eqn:Eu; cbn in Hj; [left; split; [done|by constructor]|].
      destruct slot as [j'|]; [left; split; [done|by constructor]|]. simplify_eq.
      right. exists [], e, c. cbn. split_and!; [done|lia| |done|by auto]. unfold usable. by rewrite Eu.
    + right. exists (e :: a), f, b. cbn. split_and!; [done|lia|done|by constructor|done].
  - destruct IH as [Hs Hc]. destruct (c_used e) eqn:Eu; cbn in Hs; [|by destruct slot].
    split; [done|]. constructor; [|done]. unfold usable, matches in *. rewrite Eu in *. done.
Qed.

Lemma find_skip {A} (f : A -> bool) a b : Forall (fun x => f x = false) a -> find f (a ++ b) = find f b.
Proof. induction 1 as [|x a Hx _ IH]; cbn; [done|]. by rewrite Hx. Qed.

Lemma find_replace {A} (f : A -> bool) a x y b : f x = false -> f y = false ->
  find f (a ++ x :: b) = find f (a ++ y :: b).
Proof. intros Hx Hy. induction a as [|z a IH]; cbn; [by rewrite Hx, Hy|]. by rewrite IH. Qed.

Lemma arp_cache_add_lookup clock sha spa s ip :
  is_u32 spa -> is_u32 ip ->
  arp_lookup ip (arp_cache_add clock sha (NET_HTONL spa) s) =
  if (ip =? spa) && existsb (usable (NET_HTONL spa)) (n_cache s) then Some sha else arp_lookup ip s.
Proof.
  intros Hspa Hip. unfold arp_cache_add. pose proof (arp_slot_spec (NET_HTONL spa) (n_cache s) 0 None) as Hs.
  destruct (arp_slot _ _ _ _) as [j|].
  - destruct Hs as [[? _]|(a & e & b & E & -> & Hu & Ha & Hb)]; [done|]. cbn [tsc_ms]. unfold arp_lookup.
    cbn [n_cache set_cache read_clock]. rewrite E.
    rewrite insert_app_r_alt by lia. cbn [Nat.add]. rewrite Nat.sub_diag. cbn [insert list_insert].
    assert (existsb (usable (NET_HTONL spa)) (a ++ e :: b) = true) as ->.
    { apply existsb_exists. exists e. split; [|done]. apply in_or_app. right. by left. }
    rewrite andb_true_r. destruct (Z.eqb_spec ip spa) as [->|Hne].
    + erewrite find_app_None; [done|exact Ha|]. cbn. apply Z.eqb_refl.
    + f_equal. apply find_replace.
      * cbn. apply Z.eqb_neq. intros Heq. apply Hne. by apply NET_HTONL_inj.
      * unfold usable in Hu. destruct (c_used e); cbn in *; [|done]. apply Z.eqb_eq in Hu as ->.
        apply Z.eqb_neq. intros Heq. apply Hne. by apply NET_HTONL_inj.
  - destruct Hs as [_ Hs]. assert (existsb (usable (NET_HTONL spa)) (n_cache s) = false) as ->.
    { apply not_true_iff_false. intros (e & He & Hu)%existsb_exists. rewrite Forall_forall in Hs.
      apply list_elem_of_In in He. apply Hs in He. congruence. }
    by rewrite andb_false_r.
Qed.

Section Arp.
Context (clock : nat -> Z) (driver_send : list Z -> Z).

(** An ARP packet on the wire. *)
Definition arp_wire (op : Z) (sha : list Z) (spa : Z) (tha : list Z) (tpa : Z) : list Z :=
  [0; 1; 8; 0; 6; 4] ++ be16 op ++ sha ++ be32 spa ++ tha ++ be32 tpa.

Lemma arp_pkt_wire op sha spa tha tpa :
  arp_pkt (NET_HTONS op) sha (NET_HTONL spa) tha (NET_HTONL tpa) = arp_wire op sha spa tha tpa.
Proof. unfold arp_pkt, arp_wire. rewrite !put16_htons, !put32_htonl. reflexivity. Qed.

(** The frame that answers a request: the reply's first 14 bytes are lost under
    the header, and 14 bytes from behind the packet are sent in their place. *)
Definition arp_answer (sha mac : list Z) (spa tpa : Z) (tail : list Z) : list Z :=
  sha ++ mac ++ be16 ETHERTYPE_ARP ++ be32 tpa ++ sha ++ be32 spa ++ take 14 tail.

Lemma arp_rx_wire op sha spa tha tpa tail len s :
  mac_ok sha -> is_u32 spa -> length tha = 6%nat -> is_u32 tpa -> 0 <= op < 2 ^ 16 -> 28 <= len ->
  (14 <= length tail)%nat -> net_ok s ->
  let s1 := arp_cache_add clock sha (NET_HTONL spa) s in
  arp_rx clock driver_send (arp_wire op sha spa tha tpa ++ tail) len s =
  Ret (if (op =? 1) && (tpa =? g_net_ip s1)
       then (netdev_send driver_send (arp_answer sha (g_net_mac s1) spa tpa tail) s1).2 else s1).
Proof.
  intros Hmac Hspa Htha Htpa Hop Hlen Htail Hok s1. unfold arp_rx.
  pose proof (proj1 Hmac) as Hsha. rewrite (proj2 (Z.ltb_ge len 28)) by lia.
  set (pkt := arp_wire op sha spa tha tpa ++ tail).
  assert (Hlp : Z.of_nat (length pkt) = 28 + Z.of_nat (length tail)).
  { subst pkt. unfold arp_wire. repeat rewrite ?length_app. rewrite Hsha, Htha. cbn [length be16 be32]. lia. }
  assert (Hd8 : drop 8 pkt = sha ++ be32 spa ++ tha ++ be32 tpa ++ tail).
  { subst pkt. unfold arp_wire. by rewrite <- !app_assoc. }
  assert (Hd14 : drop 14 pkt = be32 spa ++ tha ++ be32 tpa ++ tail).
  { change 14%nat with (8 + 6)%nat. rewrite <- drop_drop, Hd8. by apply drop_app_length'. }
  assert (Hd24 : drop 24 pkt = be32 tpa ++ tail).
  { change 24%nat with (14 + (4 + 6))%nat. rewrite <- drop_drop, Hd14, <- drop_drop.
    change (drop 4 (be32 spa ++ ?x)) with x. by apply drop_app_length'. }
  assert (Hd28 : drop 28 pkt = tail).
  { change 28%nat with (24 + 4)%nat. rewrite <- drop_drop, Hd24. done. }
  rewrite get_bind by lia. change (take 2 (drop (Z.to_nat 2) pkt)) with [8; 0].
  change (negb (NET_HTONS (le_val [8; 0]) =? ETHERTYPE_IPV4)) with false. cbn match.
  rewrite bytes_bind by lia. rewrite get_bind by lia. rewrite get_bind by lia. rewrite get_bind by lia.
  change (Z.to_nat 8) with 8%nat. change (Z.to_nat 14) with 14%nat. change (Z.to_nat 24) with 24%nat.
  rewrite Hd8, Hd14, Hd24, !(take_app_length' sha) by done.
  change (take 4 (be32 spa ++ ?x)) with (be32 spa). change (take 4 (be32 tpa ++ ?x)) with (be32 tpa).
  rewrite !le_be32. fold s1. rewrite NET_HTONL_twice by done.
  change (take 2 (drop (Z.to_nat 6) pkt)) with (be16 op). rewrite ntohs_be16 by lia.
  destruct ((op =? 1) && _); [|done]. rewrite bytes_bind by lia.
  assert (length (g_net_mac s1) = 6%nat) as Hm.
  { exact (proj1 (ok_mac s1 (arp_cache_add_ok clock driver_send sha (NET_HTONL spa) s Hok Hmac (NET_HTONL_range spa)))). }
  unfold ether_send. rewrite !put32_htonl. change (Z.to_nat 0) with 0%nat. rewrite drop_0, Hd28.
  set (body := drop ETH_HDR _).
  assert (body = be32 tpa ++ sha ++ be32 spa ++ tail) as ->.
  { subst body. change ETH_HDR with (8 + 6)%nat. rewrite <- drop_drop.
    change (drop 8 (take 6 pkt ++ put16 (NET_HTONS 2) ++ ?x)) with x. by apply drop_app_length'. }
  rewrite !bytes_bind by (rewrite ?length_app, ?Hsha; cbn [length be32]; lia).
  change (Z.to_nat 0) with 0%nat. rewrite drop_0. rewrite put16_htons.
  unfold arp_answer. change (Z.to_nat 28) with 28%nat.
  assert (take 28 (be32 tpa ++ sha ++ be32 spa ++ tail) = be32 tpa ++ sha ++ be32 spa ++ take 14 tail) as ->.
  { rewrite !take_app, !(take_ge (be32 _)), (take_ge sha) by (cbn [length be32]; lia).
    rewrite Hsha. cbn [length be32]. done. }
  destruct (netdev_send _ _ _). done.
Qed.

(** A received ARP packet teaches the cache: when an entry for the sender or
    a free one exists, arp_lookup gives the sender's hardware address
    afterwards; every other address is looked up as before, and a full cache
    is left alone. *)
Theorem arp_rx_learns op sha spa tha tpa tail len s ip :
  mac_ok sha -> is_u32 spa -> length tha = 6%nat -> is_u32 tpa -> 0 <= op < 2 ^ 16 -> 28 <= len ->
  (14 <= length tail)%nat -> net_ok s -> is_u32 ip ->
  exists s', arp_rx clock driver_send (arp_pkt (NET_HTONS op) sha (NET_HTONL spa) tha (NET_HTONL tpa) ++ tail) len s = Ret s' /\
    arp_lookup ip s' =
    if (ip =? spa) && existsb (usable (NET_HTONL spa)) (n_cache s) then Some sha else arp_lookup ip s.
Proof.
  intros Hmac Hspa Htha Htpa Hop Hlen Htail Hok Hip. rewrite arp_pkt_wire, arp_rx_wire by done.
  eexists. split; [done|]. rewrite <- (arp_cache_add_lookup clock sha spa s ip) by done.
  destruct ((op =? 1) && _); [|done]. unfold netdev_send. by destruct (n_dev _).
Qed.

(** An answered ARP request teaches the asker nothing: arp_request puts a well-formed
    request on the wire and the host asked
    answers, but arp_rx hands ether_send the packet instead of the frame, so
    that the header is written over the reply; the frame that goes out has an
    address where the protocol type should be, and the asker ignores it (unless
    the address asked for ends in 8.0). *)
Theorem arp_reply_ignored r s tail :
  net_ok r -> n_dev r = true -> net_ok s -> n_dev s = true -> (14 <= length tail)%nat ->
  g_net_ip s mod 65536 <> ETHERTYPE_IPV4 ->
  exists request s' answer,
    arp_request driver_send (g_net_ip s) r = Ret (driver_send request, add_sent request r) /\
    ether_rx clock driver_send (request ++ tail) (Z.of_nat (length request)) s = Ret s' /\
    n_sent s' = n_sent s ++ [answer] /\ take 6 answer = g_net_mac r /\
    forall tail' len r', Z.of_nat (length answer) <= len ->
      ether_rx clock driver_send (answer ++ tail') len r' = Ret r'.
Proof.
  intros Hr Hdr Hs Hds Htail Hne. destruct (ok_mac _ Hr) as [Hmr Hbr]. destruct (ok_mac _ Hs) as [Hms _].
  pose proof (ok_ip _ Hr) as Hir. pose proof (ok_ip _ Hs) as His. unfold arp_request.
  rewrite arp_pkt_wire. set (w := arp_wire _ _ _ _ _).
  assert (length w = 28%nat) as Hw.
  { subst w. unfold arp_wire. rewrite !length_app, Hmr. done. }
  unfold ether_send. rewrite bytes_bind by (rewrite ?Hw; lia). change (Z.to_nat 0) with 0%nat.
  change (Z.to_nat 28) with 28%nat. rewrite drop_0, take_ge by lia. rewrite put16_htons. unfold netdev_send at 1. rewrite Hdr.
  set (f := net_bcast_mac ++ g_net_mac r ++ be16 ETHERTYPE_ARP ++ w).
  exists f. eexists _, (arp_answer (g_net_mac r) (g_net_mac s) (g_net_ip r) (g_net_ip s) tail).
  assert (Z.of_nat (length f) = 42) as Hf.
  { subst f. rewrite !length_app, Hmr, Hw. done. }
  split; [done|]. split; [|split; [|split]].
  - rewrite Hf. subst f. rewrite <- !app_assoc. rewrite ether_rx_frame by (done || lia).
    change (ETHERTYPE_ARP =? ETHERTYPE_ARP) with true. cbn match. subst w.
    rewrite arp_rx_wire by (done || lia). done.
  - assert (forall m x, g_net_ip (arp_cache_add clock m x s) = g_net_ip s /\ g_net_mac (arp_cache_add clock m x s) = g_net_mac s
      /\ n_dev (arp_cache_add clock m x s) = n_dev s /\ n_sent (arp_cache_add clock m x s) = n_sent s) as Hc.
    { intros m x. unfold arp_cache_add. by destruct (arp_slot _ _ _ _). }
    destruct (Hc (g_net_mac r) (NET_HTONL (g_net_ip r))) as (-> & -> & H3 & H4).
    rewrite (Z.eqb_refl (g_net_ip s)). cbn [andb Z.eqb Pos.eqb]. unfold netdev_send. rewrite H3, Hds. cbn [snd add_sent n_sent]. by rewrite H4.
  - unfold arp_answer. by apply take_app_length'.
  - intros tail' len r' Hlen. unfold arp_answer in *. rewrite !length_app, Hmr, Hms, length_take in Hlen.
    cbn [length be16 be32] in Hlen. rewrite <- !app_assoc. rewrite ether_rx_frame by (done || lia).
    change (ETHERTYPE_ARP =? ETHERTYPE_ARP) with true. cbn match. unfold arp_rx.
    rewrite (proj2 (Z.ltb_ge _ 28)) by lia. rewrite get_bind by (rewrite ?length_app; cbn [length be32]; lia).
    change (take 2 (drop (Z.to_nat 2) (be32 (g_net_ip s) ++ ?x))) with [u8 (g_net_ip s / 256); u8 (g_net_ip s)].
    rewrite ntohs_le by ilia. rewrite (proj2 (Z.eqb_neq _ _)); [done|].
    unfold ETHERTYPE_IPV4 in *. ilia.
Qed.

End Arp.

Lemma arp_rx_learns_witness :
  exists s', arp_rx demo_clock demo_send
      (arp_pkt (NET_HTONS 2) [2; 0; 0; 0; 0; 9] (NET_HTONL 0x0A000009) (replicate 6 0) (NET_HTONL 0x0A000001) ++ replicate 18 0)
      46 host_a = Ret s' /\ arp_lookup 0x0A000009 s' = Some [2; 0; 0; 0; 0; 9].
Proof.
  apply (arp_rx_learns demo_clock demo_send 2 [2; 0; 0; 0; 0; 9] 0x0A000009 (replicate 6 0) 0x0A000001 (replicate 18 0) 46
    host_a 0x0A000009).
  - split; [reflexivity|repeat constructor; done].
  - split; vm_compute; congruence.
  - reflexivity.
  - split; vm_compute; congruence.
  - lia.
  - lia.
  - cbn. lia.
  - exact host_a_ok.
  - split; vm_compute; congruence.
Defined.

Lemma host_b_ok : net_ok host_b.
Proof. constructor; unfold mac_ok, is_u32; try (split; [reflexivity|]); repeat constructor; try done. Qed.

Lemma arp_reply_ignored_witness :
  exists request s' answer,
    arp_request demo_send 0x0A000002 host_a = Ret (0, add_sent request host_a) /\
    ether_rx demo_clock demo_send (request ++ replicate 18 0) (Z.of_nat (length request)) host_b = Ret s' /\
    n_sent s' = n_sent host_b ++ [answer] /\ take 6 answer = g_net_mac host_a /\
    forall tail' len r', Z.of_nat (length answer) <= len ->
      ether_rx demo_clock demo_send (answer ++ tail') len r' = Ret r'.
Proof.
  apply (arp_reply_ignored demo_clock demo_send host_a host_b (replicate 18 0)).
  - exact host_a_ok.
  - reflexivity.
  - exact host_b_ok.
  - reflexivity.
  - cbn. lia.
  - vm_compute. congruence.
Defined.

(** ** The UDP checksum *)

(** The pseudo header of RFC 768, as words. *)
Definition udp_pseudo (src dst total : Z) : list Z :=
  [src / 65536; src mod 65536; dst / 65536; dst mod 65536; IP_PROTO_UDP; total].

Lemma land_ffff x : Z.land x 0xFFFF = x mod 65536.
Proof. apply (Z.land_ones x 16). lia. Qed.

(** The code's pseudo header has the protocol and the length byte-swapped. *)
Lemma udp_sum_eq src dst total seg :
  is_u32 src -> is_u32 dst -> 0 <= total < 2 ^ 16 -> Forall byte_ok seg -> Z.of_nat (length seg) <= 1500 ->
  udp_sum src dst total seg =
  sumZ (udp_pseudo src dst total) - 17 - total + 0x1100 + NET_HTONS total + sumZ (be_words seg).
Proof.
  intros Hs Hd Ht Hb Hl. unfold is_u32 in *. unfold udp_sum. rewrite !land_ffff, !Z.shiftr_div_pow2 by lia.
  rewrite (u16_small total) by lia. change (NET_HTONS IP_PROTO_UDP) with 0x1100.
  pose proof (NET_HTONS_range total). rewrite u32_small by ilia.
  rewrite sum_words_eq by (done || ilia). unfold udp_pseudo, sumZ, IP_PROTO_UDP. cbn [fold_right]. ilia.
Qed.

Lemma swap_mod total : 0 <= total < 2 ^ 16 -> NET_HTONS total = 256 * total - 65535 * (total / 256).
Proof. intros. rewrite NET_HTONS_eq. ilia. Qed.

Lemma sum_be16 k : 0 <= k < 65536 -> sumZ (be_words (be16 k)) = k.
Proof. intros. cbn -[Z.mul]. ilia. Qed.

(** The checksum is right exactly when the swap makes no difference. *)
Lemma swapped_checksum P W total k :
  0 < P + W -> 0 <= total < 2 ^ 16 -> 0 <= P - 17 - total -> 0 <= W ->
  k = 65535 - oc_norm (P - 17 - total + 0x1100 + NET_HTONS total + W) ->
  oc_norm (P + W + k) = 65535 <-> (257 | total + 17).
Proof.
  intros Hpos Ht HP HW ->. rewrite swap_mod by done.
  set (q := P - 17 - total + 0x1100 + (256 * total - 65535 * (total / 256)) + W).
  assert (Hq : 0 < q) by (subst q; ilia).
  assert (exists m, oc_norm q = q - 65535 * m) as [m Hm].
  { unfold oc_norm. rewrite (proj2 (Z.eqb_neq q 0)) by lia. exists ((q - 1) / 65535).
    pose proof (Z.div_mod (q - 1) 65535). lia. }
  pose proof (oc_norm_range q) as Hr. rewrite Hm in *.
  replace (P + W + (65535 - (q - 65535 * m))) with (65535 * (1 + m + total / 256) - 255 * (total + 17))
    by (subst q; lia).
  set (z := 65535 * (1 + m + total / 256) - 255 * (total + 17)).
  assert (0 < z) by (subst z q; lia).
  assert (oc_norm z = 65535 <-> (65535 | z)) as ->.
  { unfold oc_norm. rewrite (proj2 (Z.eqb_neq z 0)) by lia. split.
    - intros E. exists (1 + (z - 1) / 65535). pose proof (Z.div_mod (z - 1) 65535). lia.
    - intros [j Hj]. replace (z - 1) with (65534 + (j - 1) * 65535) by lia. by rewrite Z.mod_add. }
  split.
  - intros [j Hj]. exists (1 + m + total / 256 - j). subst z. lia.
  - intros [j Hj]. exists (1 + m + total / 256 - j). subst z. lia.
Qed.

Lemma udp_segment_valid src dst sp dp data :
  is_u32 src -> is_u32 dst -> Forall byte_ok data -> Z.of_nat (length data) <= 1472 ->
  let total := 8 + Z.of_nat (length data) in
  oc_valid (udp_pseudo src dst total ++ be_words (udp_segment src dst sp dp data)) <-> (257 | total + 17).
Proof.
  intros Hip Hdst Hb Hl total. unfold udp_segment. fold total.
  set (seg0 := udp_header sp dp total 0 ++ data).
  assert (seg0 = be16 sp ++ be16 dp ++ be16 total ++ be16 0 ++ data) as E0.
  { subst seg0. assert (0 <= total < 2 ^ 16) as Ht by lia.
    pose proof (udp_header_wire sp dp total 0 Ht) as E. change (NET_HTONS 0) with 0 in E.
    rewrite E. by rewrite <- !app_assoc. }
  assert (Forall byte_ok seg0) as Hseg0.
  { rewrite E0. repeat (apply Forall_app; split; [apply be16_ok|]). done. }
  assert (Z.of_nat (length seg0) = total) as Hl0.
  { rewrite E0. rewrite !length_app. cbn [length be16]. lia. }
  rewrite udp_sum_eq by (done || lia).
  set (P := sumZ (udp_pseudo src dst total)). set (W := sumZ (be_words seg0)).
  assert (0 <= W) as HW by (by apply sumZ_bound, be_words_ok).
  assert (0 <= P - 17 - total) as HP.
  { subst P. unfold udp_pseudo, sumZ, IP_PROTO_UDP, is_u32 in *. cbn [fold_right]. ilia. }
  assert (0 <= P - 17 - total + 0x1100 + NET_HTONS total + W) as Hq by (pose proof (NET_HTONS_range total); lia).
  pose proof (oc_norm_range _ Hq) as Hr. set (k := 65535 - _). unfold oc_valid. rewrite oc_sum_norm.
  - rewrite sumZ_app. fold P. rewrite !be_words_app by (by exists 1%nat).
    rewrite !sumZ_app, (sum_be16 k) by (subst k; lia).
    assert (W = sumZ (be_words (be16 sp)) + (sumZ (be_words (be16 dp)) + (sumZ (be_words (be16 total)) +
      sumZ (be_words data)))) as EW.
    { subst W. rewrite E0, !be_words_app by (by exists 1%nat). rewrite !sumZ_app.
      change (sumZ (be_words (be16 0))) with 0. lia. }
    rewrite <- (swapped_checksum P W total k) by (done || lia). by replace (P + W + k) with
      (P + (sumZ (be_words (be16 sp)) + (sumZ (be_words (be16 dp)) + (sumZ (be_words (be16 total)) +
        (k + sumZ (be_words data)))))) by lia.
  - apply Forall_app. split.
    + unfold is_u32 in *. repeat (constructor; [unfold word_ok, IP_PROTO_UDP; ilia|]). constructor.
    + apply be_words_ok. repeat (apply Forall_app; split; [apply be16_ok|]). done.
Qed.

Section UdpChecksum.
Context (clock : nat -> Z) (driver_send : list Z -> Z).

(** The checksum of a sent datagram is almost never right: udp_send adds the
    protocol number and the length to the pseudo-header sum byte-swapped, while
    the rest of the sum is in host order; the one's-complement sum a receiver
    takes over the pseudo header and the segment is minus zero exactly when 257
    divides the UDP length plus 17. *)
Theorem udp_checksum_valid_iff s dst dp sp data mac :
  net_ok s -> n_dev s = true -> is_u32 dst -> 0 < sp < 2 ^ 16 -> 0 <= dp < 2 ^ 16 ->
  Forall byte_ok data -> Z.of_nat (length data) <= 1472 -> link_address dst s = Some mac ->
  exists frame, let total := 8 + Z.of_nat (length data) in
    udp_send clock driver_send dst dp sp data s = Ret (driver_send frame, add_sent frame s) /\
    (oc_valid (udp_pseudo (g_net_ip s) dst total ++ be_words (drop 34 frame)) <-> (257 | total + 17)).
Proof.
  intros Hs Hd Hdst Hsp Hdp Hb Hl Hmac. pose proof (ok_ip _ Hs) as Hip.
  destruct (udp_send_frame clock driver_send s dst dp sp data mac) as (k & Hsend & _); [done..|]. cbn zeta in *.
  rewrite Hsend. eexists. split; [done|]. destruct (link_address_mac _ _ _ Hs Hmac) as [Hm6 _].
  destruct (ok_mac _ Hs) as [Hsm _]. set (h := wire_header _ _ _ _ _). set (seg := udp_segment _ _ _ _ _).
  assert (drop 34 (mac ++ g_net_mac s ++ be16 ETHERTYPE_IPV4 ++ h ++ seg) = seg) as ->.
  { rewrite !app_assoc. apply drop_app_length'. rewrite !length_app, Hm6, Hsm. done. }
  by apply udp_segment_valid.
Qed.

End UdpChecksum.

(** A DHCP discovery, whose segment is 252 bytes long, is sent with a wrong
    checksum. *)
Lemma udp_checksum_valid_iff_witness :
  exists frame,
    udp_send demo_clock demo_send 0xFFFFFFFF 67 68 (dhcp_packet (g_net_mac demo_net) 1000 1 0 0) demo_net =
      Ret (0, add_sent frame demo_net) /\
    ~ oc_valid (udp_pseudo 0 0xFFFFFFFF 252 ++ be_words (drop 34 frame)).
Proof.
  destruct (udp_checksum_valid_iff demo_clock demo_send demo_net 0xFFFFFFFF 67 68
    (dhcp_packet (g_net_mac demo_net) 1000 1 0 0) net_bcast_mac) as (frame & H1 & H2).
  - exact demo_net_ok.
  - reflexivity.
  - split; vm_compute; congruence.
  - lia.
  - lia.
  - apply (bool_decide_unpack _ (dec := Forall_dec byte_ok _)). vm_compute. exact I.
  - vm_compute. congruence.
  - reflexivity.
  - exists frame. split; [exact H1|]. intros Hv. apply H2 in Hv as [z Hz].
    change (8 + Z.of_nat _ + 17) with 269 in Hz. lia.
Defined.
