(* ===== verification/Dhcp.v ===== *)
(** * The DHCP client of iokit/IONetFamily/dhcp.c

    The option parser reads back every list of options, whatever their order,
    and the client goes from DISCOVERING by an offer to REQUESTING and by an
    acknowledgement to BOUND, with the addresses of the acknowledgement. *)

From S2P Require Import Prelude Ramfs Net.

(** ** Options *)

(** A byte of padding, or a code with its value. *)
Inductive opt := Pad | Opt (code : Z) (val : list Z).

(** Options by RFC 2132: the message type is one byte, the subnet mask and the
    server's identifier are one address, routers are one address or more. *)
Definition opt_ok (o : opt) : Prop :=
  match o with
  | Pad => True
  | Opt code val =>
      0 < code < 255 /\ Forall byte_ok val /\ (length val < 256)%nat /\
      (code = 53 -> length val = 1%nat) /\ (code = 1 \/ code = 54 -> length val = 4%nat) /\ (code = 3 -> exists n, length val = (4 * S n)%nat)
  end.

Definition opt_enc (o : opt) : list Z := match o with Pad => [0] | Opt code val => code :: Z.of_nat (length val) :: val end.
Definition opt_bytes (opts : list opt) : list Z := opts ≫= opt_enc.

(** The value of the last option with a code, and the value of the last router
    option that names a single router. *)
Definition values (P : Z -> list Z -> bool) (opts : list opt) : list (list Z) :=
  omap (fun o => match o with Opt c v => if P c v then Some v else None | Pad => None end) opts.
Definition value (code : Z) (opts : list opt) : list Z := default [] (last (values (fun c _ => c =? code) opts)).
Definition single_router (opts : list opt) : list Z := default [] (last (values (fun c v => (c =? 3) && (length v =? 4)%nat) opts)).

(** A reply of a server: the fixed part with the transaction and the address it
    gives, the cookie, the options and what follows their end. *)
Record reply := mkReply
  { r_head : list Z; r_xid : Z; r_secs : list Z; r_yiaddr : Z; r_fixed : list Z;
    r_opts : list opt; r_rest : list Z }.

Definition reply_head (p : reply) : list Z :=
  r_head p ++ be32 (r_xid p) ++ r_secs p ++ be32 (r_yiaddr p) ++ r_fixed p ++ be32 MAGIC.
Definition reply_bytes (p : reply) : list Z :=
  reply_head p ++ opt_bytes (r_opts p) ++ [255] ++ r_rest p.

Record reply_ok (p : reply) : Prop :=
  { rok_head : length (r_head p) = 4%nat; rok_secs : length (r_secs p) = 8%nat;
    rok_fixed : length (r_fixed p) = 216%nat; rok_xid : is_u32 (r_xid p); rok_yi : is_u32 (r_yiaddr p);
    rok_opts : Forall opt_ok (r_opts p) }.

(** What a reply says: its message type, mask, gateway and server. *)
Definition says (p : reply) : dh_opts :=
  mkOpts (nth 0 (value 53 (r_opts p)) 0) (be_val (value 1 (r_opts p))) (be_val (single_router (r_opts p))) (be_val (value 54 (r_opts p))).

Lemma length_reply_head p : reply_ok p -> length (reply_head p) = 240%nat.
Proof. intros []. unfold reply_head. rewrite !length_app. cbn [length be32]. lia. Qed.

Lemma opt_bytes_cons o os : opt_bytes (o :: os) = opt_enc o ++ opt_bytes os.
Proof. done. Qed.

Lemma opt_bytes_app a b : opt_bytes (a ++ b) = opt_bytes a ++ opt_bytes b.
Proof. apply bind_app. Qed.

(** What the parser makes of one option. *)
Definition opt_reads (o : dh_opts) (p : opt) : dh_opts :=
  match p with
  | Pad | Opt _ [] => o
  | Opt code ((v :: _) as val) =>
      if code =? 53 then mkOpts v (o_subnet o) (o_router o) (o_srv o)
      else if (length val =? 4)%nat then
        if code =? 1 then mkOpts (o_type o) (be_val val) (o_router o) (o_srv o)
        else if code =? 3 then mkOpts (o_type o) (o_subnet o) (be_val val) (o_srv o)
        else if code =? 54 then mkOpts (o_type o) (o_subnet o) (o_router o) (be_val val)
        else o
      else o
  end.

Lemma values_snoc P opts o :
  last (values P (opts ++ [o])) = match o with Opt c v => if P c v then Some v else last (values P opts) | Pad => last (values P opts) end.
Proof.
  unfold values. rewrite omap_app. destruct o as [|c v]; cbn; [by rewrite app_nil_r|]. destruct (P c v); cbn; [by rewrite last_snoc|by rewrite app_nil_r].
Qed.

(** The options one after the other give what the reply says. *)
Lemma reads_says opts :
  Forall opt_ok opts -> fold_left opt_reads opts (mkOpts 0 0 0 0) = mkOpts (nth 0 (value 53 opts) 0) (be_val (value 1 opts)) (be_val (single_router opts)) (be_val (value 54 opts)).
Proof.
  induction opts as [|o opts IH] using rev_ind; intros Hok; [done|]. apply Forall_app in Hok as [Hok Ho]. apply Forall_cons in Ho as [Ho _]. rewrite fold_left_app, (IH Hok).
  unfold value, single_router. rewrite !values_snoc. cbn [fold_left]. destruct o as [|code val]; [done|]. destruct Ho as (_ & _ & _ & H53 & H4 & H3). unfold opt_reads.
  destruct (Z.eqb_spec code 53) as [->|N53].
  { specialize (H53 eq_refl). by destruct val. }
  destruct (Z.eqb_spec code 1) as [->|N1].
  { specialize (H4 (or_introl eq_refl)). by destruct val as [|v val]; [|rewrite H4]. }
  destruct (Z.eqb_spec code 54) as [->|N54].
  { specialize (H4 (or_intror eq_refl)). by destruct val as [|v val]; [|rewrite H4]. }
  destruct val as [|v val]; [by rewrite andb_false_r|]. destruct (Z.eqb_spec code 3) as [->|N3]; cbn [andb]; by destruct (length (v :: val) =? 4)%nat.
Qed.

(** One round of the parser, at an option. *)
Lemma opt_round pre code val post o :
  Forall byte_ok val ->
  let data := pre ++ code :: Z.of_nat (length val) :: val ++ post in
  let i := Z.of_nat (length pre) in
  (if code =? 53 then
     if 1 <=? Z.of_nat (length val) then v ← byte_at data (i + 2); Ret (mkOpts v (o_subnet o) (o_router o) (o_srv o)) else Ret o
   else if code =? 1 then
     if Z.of_nat (length val) =? 4 then v ← get data (i + 2) 4; Ret (mkOpts (o_type o) (NET_HTONL v) (o_router o) (o_srv o)) else Ret o
   else if code =? 3 then
     if Z.of_nat (length val) =? 4 then v ← get data (i + 2) 4; Ret (mkOpts (o_type o) (o_subnet o) (NET_HTONL v) (o_srv o)) else Ret o
   else if code =? 54 then
     if Z.of_nat (length val) =? 4 then v ← get data (i + 2) 4; Ret (mkOpts (o_type o) (o_subnet o) (o_router o) (NET_HTONL v)) else Ret o
   else Ret o) = Ret (opt_reads o (Opt code val)).
Proof.
  intros Hb data i.
  assert (data = (pre ++ [code; Z.of_nat (length val)]) ++ val ++ post) as Ed.
  { subst data. by rewrite <- app_assoc. }
  assert (i + 2 = Z.of_nat (length (pre ++ [code; Z.of_nat (length val)]))) as Ei.
  { subst i. rewrite length_app. cbn. lia. }
  assert (length val = 4%nat -> get data (i + 2) 4 = Ret (le_val val) /\ NET_HTONL (le_val val) = be_val val) as H4.
  { intros Hl. split; [rewrite Ed; by apply get_mid|].
    do 4 (destruct val as [|? val]; [done|]). destruct val; [|done].
    rewrite !Forall_cons in Hb. apply ntohl_le; tauto. }
  unfold opt_reads. destruct val as [|v val].
  { cbn. repeat case_match; done. }
  assert (byte_at data (i + 2) = Ret v) as Hv by (rewrite Ed; by apply byte_at_mid).
  set (n := length (v :: val)) in *.
  assert ((Z.of_nat n =? 4) = (n =? 4)%nat) as E4.
  { destruct (Nat.eqb_spec n 4) as [->|]; [done|]. apply Z.eqb_neq. lia. }
  rewrite E4. rewrite (proj2 (Z.leb_le 1 (Z.of_nat n))) by (subst n; cbn; lia). rewrite Hv, bind_ret.
  destruct (code =? 53); [done|]. destruct (Nat.eqb_spec n 4) as [Hn|Hn]; [|by repeat case_match].
  destruct (H4 Hn) as [-> Hbe]. rewrite !bind_ret, Hbe. by repeat case_match.
Qed.

(** The parser reads the options back. *)
Lemma opt_parse_opts p :
  reply_ok p -> Z.of_nat (length (reply_bytes p)) <= 65535 ->
  opt_parse (reply_bytes p) (Z.of_nat (length (reply_bytes p))) = Ret (says p).
Proof.
  intros Hp Hmax. set (data := reply_bytes p) in *. set (len := Z.of_nat (length data)) in *. unfold opt_parse.
  loop_with (fun '(i, o) => exists done rest, r_opts p = done ++ rest /\
      i = Z.of_nat (length (reply_head p ++ opt_bytes done)) /\ o = fold_left opt_reads done (mkOpts 0 0 0 0))
    (fun o => o = says p) (fun '(i, _) => 70000 - i) as (o & -> & ->); [|..|done].
  - intros [i o] (dn & rest & E & Hi & Ho).
    assert (data = (reply_head p ++ opt_bytes dn) ++ opt_bytes rest ++ [255] ++ r_rest p) as Ed.
    { subst data. unfold reply_bytes. by rewrite E, opt_bytes_app, <- !app_assoc. }
    assert (i + Z.of_nat (length (opt_bytes rest)) + 1 <= len) as Hlen.
    { subst i len. rewrite Ed, (length_app _ (_ ++ _)), (length_app (opt_bytes rest)). cbn. lia. }
    rewrite (proj2 (Z.ltb_lt i len)) by lia.
    destruct rest as [|[|code val] rest].
    { right. exists o. rewrite Ed. cbn [opt_bytes mbind list_bind app]. rewrite byte_bind_mid by done.
      split; [done|]. subst o. unfold says. rewrite <- reads_says by apply Hp. by rewrite E, app_nil_r. }
    { left. rewrite opt_bytes_cons in Ed, Hlen. cbn [opt_enc app length] in Ed, Hlen.
      assert (byte_at data i = Ret 0) as -> by (rewrite Ed; by apply byte_at_mid). rewrite bind_ret. rewrite Z.eqb_refl. rewrite u32_small by lia. eexists. split; [done|]. split; [|lia].
      exists (dn ++ [Pad]), rest. split_and!; [by rewrite <- app_assoc| |by rewrite fold_left_app, <- Ho].
      rewrite opt_bytes_app, opt_bytes_cons, app_assoc, length_app, Nat2Z.inj_add, <- Hi. done. }
    left. assert (opt_ok (Opt code val)) as Hok.
    { apply (Forall_forall opt_ok (r_opts p)); [apply Hp|]. rewrite E. apply elem_of_app. right. by left. }
    pose proof Hok as ((Hc1 & Hc2) & Hval & Hlv & _).
    rewrite opt_bytes_cons in Ed, Hlen. cbn [opt_enc app length] in Ed, Hlen. rewrite length_app in Hlen.
    rewrite <- (app_assoc val) in Ed.
    assert (byte_at data i = Ret code) as -> by (rewrite Ed; by apply byte_at_mid). rewrite bind_ret.
    rewrite (proj2 (Z.eqb_neq code 0)), (proj2 (Z.eqb_neq code 255)) by lia.
    rewrite (u32_small (i + 1)) by lia. rewrite (proj2 (Z.leb_gt len (i + 1))) by lia.
    assert (byte_at data (i + 1) = Ret (Z.of_nat (length val))) as ->.
    { rewrite Ed. change (code :: ?x) with ([code] ++ x). rewrite app_assoc. apply byte_at_mid.
      rewrite length_app. cbn. lia. }
    rewrite bind_ret, (u32_small (i + 2 + _)), (proj2 (Z.ltb_ge len _)) by lia.
    rewrite Ed, Hi, opt_round by done. rewrite bind_ret, <- Hi. eexists. split; [done|].
    rewrite u32_small by lia. split; [|lia].
    exists (dn ++ [Opt code val]), rest. split_and!.
    + by rewrite <- app_assoc.
    + rewrite opt_bytes_app, opt_bytes_cons, app_assoc, length_app, Nat2Z.inj_add, <- Hi. cbn [opt_enc].
      change (opt_bytes []) with (@nil Z). rewrite app_nil_r. cbn [length]. lia.
    + by rewrite fold_left_app, <- Ho.
  - exists [], (r_opts p). split_and!; [done| |done]. cbn [opt_bytes mbind list_bind]. rewrite app_nil_r.
    by rewrite length_reply_head.
  - unfold DH_HDRSZ. lia.
Qed.

(** ** The client *)

(** The fields of the fixed part. *)
Lemma reply_fields p X :
  reply_ok p ->
  get (reply_head p ++ X) 236 4 = Ret (NET_HTONL MAGIC) /\
  get (reply_head p ++ X) 4 4 = Ret (NET_HTONL (r_xid p)) /\
  get (reply_head p ++ X) 16 4 = Ret (NET_HTONL (r_yiaddr p)).
Proof.
  intros []. unfold reply_head. rewrite <- !app_assoc, <- !le_be32. split_and!.
  - rewrite !app_assoc, <- (app_assoc _ (be32 MAGIC)). apply get_mid; [|done].
    rewrite !length_app. cbn [length be32]. lia.
  - apply get_mid; [lia|done].
  - rewrite !app_assoc, <- (app_assoc _ (be32 MAGIC)), <- (app_assoc _ (r_fixed p)), <- (app_assoc _ (be32 (r_yiaddr p))).
    apply get_mid; [|done]. rewrite !length_app. cbn [length be32]. lia.
Qed.

Section Client.
Context (clock : nat -> Z) (driver_send : list Z -> Z).

(** A reply as [udp_rx] passes it on: the buffer may be longer. *)
Definition receive (p : reply) (s : net) : run net :=
  dhcp_rx clock driver_send (reply_bytes p) (Z.of_nat (length (reply_bytes p))) s.

Definition small (p : reply) : Prop := 243 <= Z.of_nat (length (reply_bytes p)) <= 65535.

(** The message with its fields read. *)
Lemma receive_eq p s :
  reply_ok p -> small p -> is_u32 (dh_xid (n_dhcp s)) ->
  receive p s =
  let d := n_dhcp s in
  if negb (r_xid p =? dh_xid d) then Ret s
  else if bool_decide (dh_state d = DH_DISCOVERING) && (o_type (says p) =? 2) then
    let s := set_dhcp (mkDhcp (dh_state d) (dh_xid d) (r_yiaddr p) (o_srv (says p)) (dh_next_try_ms d) (dh_started_ms d)) s in
    '(_, s) ← dhcp_send clock driver_send 3 (r_yiaddr p) (o_srv (says p)) s;
    Ret (set_dhcp (mkDhcp DH_REQUESTING (dh_xid d) (r_yiaddr p) (o_srv (says p))
          (u64 (clock (n_reads s) + 4000)) (dh_started_ms d)) (read_clock s))
  else if bool_decide (dh_state d = DH_REQUESTING) && (o_type (says p) =? 5) then
    Ret (set_dhcp (mkDhcp DH_BOUND (dh_xid d) (dh_offer_ip d) (dh_srv_id d) (dh_next_try_ms d) (dh_started_ms d))
          (set_addr (if r_yiaddr p =? 0 then dh_offer_ip d else r_yiaddr p) (o_subnet (says p)) (o_router (says p)) s))
  else Ret s.
Proof.
  intros Hp [H243 Hmax] Hx. unfold receive, dhcp_rx.
  rewrite (proj2 (Z.ltb_ge _ _)) by (unfold DH_HDRSZ; lia).
  destruct (reply_fields p (opt_bytes (r_opts p) ++ [255] ++ r_rest p) Hp) as (F1 & F2 & F3).
  fold (reply_bytes p) in F1, F2, F3. rewrite F1, bind_ret, Z.eqb_refl, F2, bind_ret. cbn [negb].
  assert ((NET_HTONL (r_xid p) =? NET_HTONL (dh_xid (n_dhcp s))) = (r_xid p =? dh_xid (n_dhcp s))) as ->.
  { destruct (Z.eqb_spec (r_xid p) (dh_xid (n_dhcp s))) as [->|Hn]; [apply Z.eqb_refl|].
    apply Z.eqb_neq. intros E. apply Hn, NET_HTONL_inj; [apply Hp|done|done]. }
  cbn zeta. destruct (negb _); [done|].
  rewrite F3, bind_ret, (NET_HTONL_twice _ (rok_yi _ Hp)), opt_parse_opts, bind_ret by done. done.
Qed.


End Client.

(** An offer with the options of a small router, and its acknowledgement. *)
Definition demo_reply (ty : Z) (xid : Z) : reply :=
  mkReply [2; 1; 6; 0] xid (replicate 8 0) 0xC0A80064 (replicate 216 0)
    [Opt 54 [192; 168; 0; 1]; Pad; Opt 53 [ty]; Opt 51 [0; 1; 0; 0]; Opt 1 [255; 255; 255; 0]; Opt 3 [192; 168; 0; 1]] [0; 0].

Lemma demo_reply_ok ty xid : byte_ok ty -> is_u32 xid -> reply_ok (demo_reply ty xid).
Proof.
  intros Ht Hx. constructor; try done. cbn [r_opts demo_reply].
  assert (Forall byte_ok [ty]) by (by constructor). assert (Forall byte_ok [192; 168; 0; 1] /\ Forall byte_ok [0; 1; 0; 0] /\ Forall byte_ok [255; 255; 255; 0]) as (? & ? & ?) by (split_and!; by apply (bool_decide_unpack _)).
  repeat (apply Forall_cons_2; [try exact I|]); [..|by apply Forall_nil_2]; (split; [lia|]; split; [done|]; split; [cbn; lia|]; split; [intros ?; done|]; split; [intros [?|?]; done|]; intros ?; try done; by exists 0%nat).
Qed.

Lemma demo_reply_small ty xid : small (demo_reply ty xid).
Proof. split; vm_compute; congruence. Qed.


(** Two routers: the client is bound without a gateway. *)
Lemma two_routers_no_gateway :
  o_router (says (mkReply [2; 1; 6; 0] 1000 (replicate 8 0) 0xC0A80064 (replicate 216 0) [Opt 53 [5]; Opt 3 [192; 168; 0; 1; 192; 168; 0; 2]] [])) = 0.
Proof. by vm_compute. Qed.
