(* ===== verification/Hid.v ===== *)
(** * iokit/IOHIDFamily: the PS/2 keyboard and mouse drivers

    The controller is an oracle that answers each port access, the timer a
    sequence of readings; both are indexed by the number of accesses made so
    far.  Shown: the keyboard buffer is a bounded queue, waiting for the
    controller ends when the timer runs, and the mouse state machine
    accumulates the motion of the packets it is fed. *)

From S2P Require Import Prelude.

Definition KBD_BUF_SIZE : Z := 256.

(** ** Port input and output *)

(** [w_reads] counts the accesses, [w_out] holds what was written. *)
Record world := mkWorld { w_reads : nat; w_out : list (Z * Z) }.

Definition io (A : Type) : Type := world -> run (A * world).
#[global] Instance io_ret : MRet io := fun A a w => Ret (a, w).
#[global] Instance io_bind : MBind io := fun A B f m w => '(a, w) ← m w; f a w.

Definition lift {A} (m : run A) : io A := fun w => a ← m; Ret (a, w).

(** A loop whose rounds access the ports. *)
Definition loop_io {S A} (body : S -> io (S + A)) (s : S) : io A := fun w =>
  loop (fun '(s, w) =>
    '(r, w) ← body s w;
    Ret (match r with inl s => inl (s, w) | inr a => inr (a, w) end)) (s, w).

(** ** atkbd.c: the buffer *)

Record kbd := mkKbd
  { g_keymap : list Z; g_keymap_shift : list Z; g_key_state : list Z; g_shift : Z;
    g_kbd_buf : list Z; g_kbd_head : Z; g_kbd_tail : Z }.

Definition set_ring (b : list Z) (h t : Z) (k : kbd) : kbd :=
  mkKbd (g_keymap k) (g_keymap_shift k) (g_key_state k) (g_shift k) b h t.
Definition set_keys (ks : list Z) (k : kbd) : kbd :=
  mkKbd (g_keymap k) (g_keymap_shift k) ks (g_shift k) (g_kbd_buf k) (g_kbd_head k) (g_kbd_tail k).
Definition set_shift (s : Z) (k : kbd) : kbd :=
  mkKbd (g_keymap k) (g_keymap_shift k) (g_key_state k) s (g_kbd_buf k) (g_kbd_head k) (g_kbd_tail k).

(** [a[i] = v] and [a[i]] with the array's bounds. *)
Definition store (a : list Z) (i v : Z) : run (list Z) :=
  if (0 <=? i) && (i <? Z.of_nat (length a)) then Ret (<[Z.to_nat i := v]> a) else Fault.
Definition load (a : list Z) (i : Z) : run Z :=
  if 0 <=? i then of_option (a !! Z.to_nat i) else Fault.

Definition kbd_push (c : Z) (k : kbd) : run kbd :=
  let next := u32 (g_kbd_head k + 1) mod KBD_BUF_SIZE in
  if next =? g_kbd_tail k then Ret k
  else
    b ← store (g_kbd_buf k) (g_kbd_head k) (u8 c);
    Ret (set_ring b next (g_kbd_tail k) k).

(** The [char] read is returned as an [int]. *)
Definition atkbd_getchar (k : kbd) : run (Z * kbd) :=
  if g_kbd_tail k =? g_kbd_head k then Ret (-1, k)
  else
    c ← load (g_kbd_buf k) (g_kbd_tail k);
    Ret (s8 c, set_ring (g_kbd_buf k) (g_kbd_head k) (u32 (g_kbd_tail k + 1) mod KBD_BUF_SIZE) k).

Definition scancode_set1 : list Z :=
  [0; 0] ++ str "1234567890-=" ++ [0; 0] ++
  str "qwertyuiop[]" ++ [0; 0] ++
  str "asdfghjkl;'`" ++ [0] ++ [92] ++
  str "zxcvbnm,./" ++ [0; 0] ++
  [0; 0; 0; 32] ++ replicate 12 0 ++
  replicate 10 0 ++ [45; 0; 43; 0; 0; 0] ++
  replicate 16 0 ++
  replicate 7 0 ++ [42] ++ replicate 8 0.

Definition scancode_set1_shift : list Z :=
  [0; 0] ++ str "!@#$%^&*()_+" ++ [0; 0] ++
  str "QWERTYUIOP{}" ++ [0; 0] ++
  str "ASDFGHJKL:" ++ [34; 126] ++ [0] ++ [124] ++
  str "ZXCVBNM<>?" ++ [0; 0] ++
  [0; 0; 0; 32] ++ replicate 12 0 ++
  replicate 10 0 ++ [45; 0; 43; 0; 0; 0] ++
  replicate 16 0 ++
  replicate 7 0 ++ [42] ++ replicate 8 0.

(** [for (i = 0; i < 128; i++) map[i] = table[i];] *)
Definition load_table (table : list Z) : run (list Z) :=
  (fix go (n : nat) := match n with
   | S n => m ← go n; c ← load table (Z.of_nat n); Ret (m ++ [c])
   | O => Ret []
   end) 128%nat.

(** [echo]: what the driver shows on the console, a character or a
    backspace. *)
Definition atkbd_process_scancode (scancode : Z) (k : kbd) : run (kbd * option Z) :=
  let make := Z.land scancode 0x7F in
  let pressed := Z.land scancode 0x80 =? 0 in
  if (make =? 0x2A) || (make =? 0x36) then Ret (set_shift (if pressed then 1 else 0) k, None)
  else if make <? 128 then
    ks ← store (g_key_state k) make (if pressed then 1 else 0);
    let k := set_keys ks k in
    if pressed then
      c ← load (if negb (g_shift k =? 0) then g_keymap_shift k else g_keymap k) make;
      if negb (c =? 0) then k ← kbd_push c k; Ret (k, Some c)
      else if make =? 0x1C then k ← kbd_push 10 k; Ret (k, Some 10)
      else if make =? 0x0E then k ← kbd_push 8 k; Ret (k, Some 8)
      else Ret (k, None)
    else Ret (k, None)
  else Ret (k, None).

Definition atkbd_is_key_pressed (scancode : Z) (k : kbd) : run Z :=
  if scancode <? 128 then load (g_key_state k) scancode else Ret 0.
Definition atkbd_get_char (scancode : Z) (k : kbd) : run Z :=
  if scancode <? 128 then load (g_keymap k) scancode else Ret 0.

(** ** The controller *)

Section Controller.
Context (dev : nat -> Z -> Z) (ticks : nat -> Z) (g_pit_hz : Z).

Definition inb (port : Z) : io Z := fun w =>
  Ret (u8 (dev (w_reads w) port), mkWorld (S (w_reads w)) (w_out w)).
Definition outb (port v : Z) : io unit := fun w =>
  Ret (tt, mkWorld (w_reads w) (w_out w ++ [(port, v)])).
Definition pit_get_ticks : io Z := fun w =>
  Ret (u32 (ticks (w_reads w)), mkWorld (S (w_reads w)) (w_out w)).
Definition pit_ms_to_ticks (ms : Z) : Z := u32 (ms * g_pit_hz) / 1000.

Definition ATKBD_TIMEOUT_MS : Z := 10000.
Definition ATM_TIMEOUT_MS : Z := 10000.

Definition timeout_deadline (ms : Z) : io Z :=
  t ← pit_get_ticks; mret (u32 (t + pit_ms_to_ticks ms)).
Definition expired (deadline : Z) : io bool :=
  t ← pit_get_ticks; mret (0 <=? s32 (u32 (t - deadline))).

Definition atkbd_timeout_deadline : io Z := timeout_deadline ATKBD_TIMEOUT_MS.
Definition atkbd_expired (deadline : Z) : io bool := expired deadline.

Definition atkbd_flush : io Z :=
  deadline ← atkbd_timeout_deadline;
  loop_io (fun _ : unit =>
    st ← inb 0x64;
    if Z.land st 0x01 =? 0 then mret (inr 0)
    else
      _ ← inb 0x60;
      e ← atkbd_expired deadline;
      if e : bool then mret (inr (-1)) else mret (inl tt)) tt.

Definition atkbd_wait_input : io Z :=
  deadline ← atkbd_timeout_deadline;
  loop_io (fun _ : unit =>
    st ← inb 0x64;
    if negb (Z.land st 0x01 =? 0) then mret (inr 0)
    else
      e ← atkbd_expired deadline;
      if e : bool then mret (inr (-1)) else mret (inl tt)) tt.

Definition atkbd_send_cmd (cmd : Z) : io Z :=
  r ← atkbd_flush;
  if negb (r =? 0) then mret (-1) else (_ ← outb 0x64 cmd; mret 0).
Definition atkbd_write_data (data : Z) : io Z :=
  r ← atkbd_flush;
  if negb (r =? 0) then mret (-1) else (_ ← outb 0x60 data; mret 0).

(** The part of [atkbd_init] that talks to the controller. *)
Definition atkbd_probe : io unit :=
  r ← atkbd_send_cmd 0xAD;
  if negb (r =? 0) then mret tt
  else
    _ ← atkbd_send_cmd 0xA7;
    _ ← atkbd_send_cmd 0x20;
    r ← atkbd_wait_input;
    if negb (r =? 0) then mret tt
    else
      status ← inb 0x60;
      _ ← atkbd_send_cmd 0x60;
      _ ← atkbd_write_data (Z.lor status 0x02);
      _ ← atkbd_send_cmd 0xAE;
      _ ← atkbd_send_cmd 0xA8;
      _ ← atkbd_write_data 0xF4;
      _ ← atkbd_wait_input;
      mret tt.

Definition atkbd_init (k : kbd) : io kbd :=
  m ← lift (load_table scancode_set1);
  ms ← lift (load_table scancode_set1_shift);
  _ ← atkbd_probe;
  mret (mkKbd m ms (replicate 128 0) 0 (g_kbd_buf k) 0 0).

Definition atkbd_handler (k : kbd) : io kbd :=
  scancode ← inb 0x60;
  r ← lift (atkbd_process_scancode scancode k);
  mret (fst r).

Definition atkbd_poll (k : kbd) : io kbd :=
  deadline ← atkbd_timeout_deadline;
  loop_io (fun k =>
    st ← inb 0x64;
    if Z.land st 0x01 =? 0 then mret (inr k)
    else
      scancode ← inb 0x60;
      r ← lift (atkbd_process_scancode scancode k);
      e ← atkbd_expired deadline;
      if e : bool then mret (inr (fst r)) else mret (inl (fst r))) k.

(** ** atmouse.c *)

Record mouse := mkMouse
  { g_dx : Z; g_dy : Z; g_buttons : Z; g_ready : Z; g_pkt : list Z; g_pkt_idx : Z }.

Definition atmouse_timeout_deadline : io Z := timeout_deadline ATM_TIMEOUT_MS.
Definition atmouse_expired (deadline : Z) : io bool := expired deadline.

(** Wait until the status has, or lacks, the bit. *)
Definition wait_status (bit : Z) (set : bool) : io Z :=
  deadline ← atmouse_timeout_deadline;
  loop_io (fun _ : unit =>
    st ← inb 0x64;
    if Bool.eqb (negb (Z.land st bit =? 0)) set then mret (inr 0)
    else
      e ← atmouse_expired deadline;
      if e : bool then mret (inr (-1)) else mret (inl tt)) tt.

Definition atmouse_wait_input : io Z := wait_status 0x01 true.
Definition atmouse_wait_output : io Z := wait_status 0x02 false.

Definition atmouse_write_cmd (b : Z) : io Z :=
  r ← atmouse_wait_output;
  if negb (r =? 0) then mret (-1) else (_ ← outb 0x64 b; mret 0).
Definition atmouse_write_data (b : Z) : io Z :=
  r ← atmouse_wait_output;
  if negb (r =? 0) then mret (-1) else (_ ← outb 0x60 b; mret 0).
Definition atmouse_send (b : Z) : io Z :=
  r ← atmouse_write_cmd 0xD4;
  if negb (r =? 0) then mret (-1) else atmouse_write_data b.

Definition atmouse_wait_ack : io Z :=
  _ ← atmouse_timeout_deadline;
  loop_io (fun _ : unit =>
    r ← atmouse_wait_input;
    if negb (r =? 0) then mret (inr (-1))
    else
      b ← inb 0x60;
      if b =? 0xFA then mret (inr 0)
      else if b =? 0xFE then mret (inl tt)
      else mret (inr (-1))) tt.

Definition atmouse_byte (b : Z) (m : mouse) : run mouse :=
  if g_pkt_idx m =? 0 then
    if Z.land b 0x08 =? 0 then Ret m
    else p ← store (g_pkt m) 0 b; Ret (mkMouse (g_dx m) (g_dy m) (g_buttons m) (g_ready m) p 1)
  else if g_pkt_idx m =? 1 then
    p ← store (g_pkt m) 1 b; Ret (mkMouse (g_dx m) (g_dy m) (g_buttons m) (g_ready m) p 2)
  else
    p ← store (g_pkt m) 2 b;
    flags ← load p 0; x ← load p 1; y ← load p 2;
    if Z.land flags 0xC0 =? 0 then
      let dx := if negb (Z.land flags 0x10 =? 0) then x - 256 else x in
      let dy := if negb (Z.land flags 0x20 =? 0) then y - 256 else y in
      sx ← int32 (g_dx m + dx); sy ← int32 (g_dy m + dy);
      Ret (mkMouse sx sy (Z.land flags 0x07) (g_ready m) p 0)
    else Ret (mkMouse (g_dx m) (g_dy m) (Z.land flags 0x07) (g_ready m) p 0).

Definition atmouse_handler_irq12 (m : mouse) : io mouse :=
  b ← inb 0x60; lift (atmouse_byte b m).

Definition atmouse_poll (m : mouse) : io mouse :=
  deadline ← atmouse_timeout_deadline;
  loop_io (fun m =>
    st ← inb 0x64;
    if Z.land st 0x01 =? 0 then mret (inr m)
    else
      b ← inb 0x60;
      m ← lift (atmouse_byte b m);
      e ← atmouse_expired deadline;
      if e : bool then mret (inr m) else mret (inl m)) m.

Definition atmouse_ready (m : mouse) : Z := g_ready m.

(** [None]: no mouse, nothing is stored. *)
Definition atmouse_sample (m : mouse) : option (Z * Z * Z) * mouse :=
  if g_ready m =? 0 then (None, m)
  else (Some (g_dx m, g_dy m, g_buttons m),
        mkMouse 0 0 (g_buttons m) (g_ready m) (g_pkt m) (g_pkt_idx m)).

(** [while (inb(0x64) & 0x01) inb(0x60);] *)
Definition drain_stale : io unit :=
  loop_io (fun _ : unit =>
    st ← inb 0x64;
    if Z.land st 0x01 =? 0 then mret (inr tt) else (_ ← inb 0x60; mret (inl tt))) tt.

(** The steps of [atmouse_init] up to the label [fail]: [true] when all
    succeed. *)
Definition atmouse_probe : io bool :=
  r ← atmouse_write_cmd 0xA7;
  if negb (r =? 0) then mret false else
  _ ← atmouse_write_cmd 0xAD;
  _ ← drain_stale;
  r ← atmouse_write_cmd 0x20;
  if negb (r =? 0) then mret false else
  r ← atmouse_wait_input;
  if negb (r =? 0) then mret false else
  cfg ← inb 0x60;
  let cfg := Z.land (Z.land (Z.lor cfg 0x02) (u8 (Z.lnot 0x20))) (u8 (Z.lnot 0x40)) in
  r ← atmouse_write_cmd 0x60;
  if negb (r =? 0) then mret false else
  r ← atmouse_write_data cfg;
  if negb (r =? 0) then mret false else
  r ← atmouse_write_cmd 0xA8;
  if negb (r =? 0) then mret false else
  r ← atmouse_send 0xF6;
  if negb (r =? 0) then mret false else
  r ← atmouse_wait_ack;
  if negb (r =? 0) then mret false else
  r ← atmouse_send 0xF4;
  if negb (r =? 0) then mret false else
  r ← atmouse_wait_ack;
  mret (r =? 0).

Definition atmouse_init (m : mouse) : io mouse :=
  ok ← atmouse_probe;
  _ ← atmouse_write_cmd 0xAE;
  mret (mkMouse 0 0 0 (if ok : bool then 1 else 0) (g_pkt m) 0).

End Controller.

(** ** The keyboard buffer is a bounded queue *)

(** A queue of characters, as producers and consumers see it. *)
Class CharQueue (Q : Type) := { enqueue : Z -> Q -> run Q; dequeue : Q -> run (Z * Q) }.

#[export] Instance kbd_ring : CharQueue kbd := {| enqueue := kbd_push; dequeue := atkbd_getchar |}.

(** The specification: first in, first out; what comes when 255 characters are
    waiting is dropped. *)
#[export] Instance fifo : CharQueue (list Z) :=
  {| enqueue c q := Ret (if (length q <? 255)%nat then q ++ [u8 c] else q);
     dequeue q := Ret (match q with c :: q => (s8 c, q) | [] => (-1, []) end) |}.

Inductive qop := Push (c : Z) | Get.

(** The characters that a sequence of operations reads, and the queue it
    leaves. *)
Fixpoint run_ops {Q} `{CharQueue Q} (ops : list qop) (q : Q) : run (list Z * Q) :=
  match ops with
  | Push c :: ops => q ← enqueue c q; run_ops ops q
  | Get :: ops => '(c, q) ← dequeue q; '(cs, q) ← run_ops ops q; Ret (c :: cs, q)
  | [] => Ret ([], q)
  end.

Record ring_ok (k : kbd) : Prop :=
  { rk_len : length (g_kbd_buf k) = 256%nat;
    rk_head : 0 <= g_kbd_head k < 256; rk_tail : 0 <= g_kbd_tail k < 256 }.

Definition waiting (k : kbd) : nat := Z.to_nat ((g_kbd_head k - g_kbd_tail k) mod 256).
Definition slot (t : Z) (i : nat) : nat := Z.to_nat ((t + Z.of_nat i) mod 256).

(** The characters between the tail and the head. *)
Definition queued (k : kbd) : list Z :=
  (fun i => g_kbd_buf k !!! slot (g_kbd_tail k) i) <$> seq 0 (waiting k).

Lemma length_queued k : length (queued k) = waiting k.
Proof. unfold queued. by rewrite length_fmap, length_seq. Qed.

Lemma ring_step h : 0 <= h < 256 -> u32 (h + 1) mod KBD_BUF_SIZE = (h + 1) mod 256.
Proof. intros. unfold KBD_BUF_SIZE. by rewrite u32_small by lia. Qed.

Lemma push_waiting h t : 0 <= h < 256 -> 0 <= t < 256 -> (h + 1) mod 256 <> t ->
  (h - t) mod 256 < 255 /\ ((h + 1) mod 256 - t) mod 256 = (h - t) mod 256 + 1 /\ (t + (h - t) mod 256) mod 256 = h.
Proof. intros. Z.div_mod_to_equations. lia. Qed.

Lemma full_waiting h t : 0 <= h < 256 -> 0 <= t < 256 -> (h + 1) mod 256 = t -> (h - t) mod 256 = 255.
Proof. intros. Z.div_mod_to_equations. lia. Qed.

Lemma pop_waiting h t : 0 <= h < 256 -> 0 <= t < 256 -> t <> h ->
  (h - t) mod 256 = (h - (t + 1) mod 256) mod 256 + 1.
Proof. intros. Z.div_mod_to_equations. lia. Qed.

Lemma slot_ne t i j : (i < 256)%nat -> (j < 256)%nat -> i <> j -> slot t i <> slot t j.
Proof. intros. unfold slot. Z.div_mod_to_equations. lia. Qed.

Lemma push_queued c k :
  ring_ok k -> exists k', kbd_push c k = Ret k' /\ ring_ok k' /\
    queued k' = if (length (queued k) <? 255)%nat then queued k ++ [u8 c] else queued k.
Proof.
  intros Hk. pose proof Hk as [Hl Hh Ht]. unfold kbd_push. rewrite ring_step by done.
  rewrite length_queued. unfold waiting at 1.
  destruct (Z.eqb_spec ((g_kbd_head k + 1) mod 256) (g_kbd_tail k)) as [E|E].
  { exists k. split_and!; [done|done|]. rewrite (full_waiting _ _ Hh Ht E). done. }
  destruct (push_waiting _ _ Hh Ht E) as (H1 & H2 & H3). unfold store.
  rewrite Hl, (proj2 (Z.leb_le 0 _)), (proj2 (Z.ltb_lt _ _)) by lia. cbn [andb]. rewrite bind_ret.
  eexists. split; [done|]. split.
  { constructor; cbn; [by rewrite length_insert| |done]. apply Z.mod_pos_bound. lia. }
  rewrite (proj2 (Nat.ltb_lt _ _)) by (Z.div_mod_to_equations; lia).
  set (n := waiting k). assert (n < 256)%nat as Hn by (subst n; unfold waiting; Z.div_mod_to_equations; lia).
  unfold queued at 1. assert (waiting (set_ring (<[Z.to_nat (g_kbd_head k) := u8 c]> (g_kbd_buf k))
    ((g_kbd_head k + 1) mod 256) (g_kbd_tail k) k) = S n) as ->.
  { unfold waiting. cbn. rewrite H2. subst n. unfold waiting. Z.div_mod_to_equations; lia. }
  cbn [g_kbd_buf g_kbd_tail set_ring].
  assert (slot (g_kbd_tail k) n = Z.to_nat (g_kbd_head k)) as Hs.
  { unfold slot. subst n. unfold waiting. rewrite Z2Nat.id by (apply Z.mod_pos_bound; lia). by rewrite H3. }
  rewrite seq_S, fmap_app. cbn [fmap list_fmap Nat.add]. f_equal.
  - unfold queued. fold n. apply list_fmap_ext. intros i j Hi%lookup_seq.
    apply list_lookup_total_insert_ne. rewrite <- Hs. apply slot_ne; lia.
  - f_equal. rewrite Hs. apply list_lookup_total_insert_eq. lia.
Qed.

Lemma pop_queued k :
  ring_ok k -> exists k', atkbd_getchar k =
      Ret (match queued k with c :: _ => s8 c | [] => -1 end, k') /\ ring_ok k' /\ queued k' = tail (queued k).
Proof.
  intros Hk. pose proof Hk as [Hl Hh Ht]. unfold atkbd_getchar.
  destruct (Z.eqb_spec (g_kbd_tail k) (g_kbd_head k)) as [E|E].
  { exists k. assert (queued k = []) as ->; [|done]. unfold queued, waiting. by rewrite E, Z.sub_diag. }
  pose proof (pop_waiting _ _ Hh Ht E) as Hw. rewrite ring_step by done. unfold load.
  rewrite (proj2 (Z.leb_le 0 _)) by lia.
  destruct (lookup_lt_is_Some_2 (g_kbd_buf k) (Z.to_nat (g_kbd_tail k))) as [c Hc]; [lia|].
  rewrite Hc. cbn [of_option]. rewrite bind_ret. set (k' := set_ring _ _ _ _).
  assert (queued k = c :: queued k') as ->.
  { unfold queued. assert (waiting k = S (waiting k')) as ->.
    { subst k'. unfold waiting. cbn. rewrite Hw. pose proof (Z.mod_pos_bound (g_kbd_head k - (g_kbd_tail k + 1) mod 256) 256). lia. }
    cbn [seq fmap list_fmap]. f_equal.
    - unfold slot. rewrite Z.add_0_r, Z.mod_small by lia. by apply list_lookup_total_correct.
    - rewrite <- fmap_S_seq, <- list_fmap_compose. apply list_fmap_ext. intros i j _. cbn. f_equal.
      unfold slot. f_equal. rewrite Zplus_mod_idemp_l. f_equal. lia. }
  exists k'. split_and!; [done| |done]. constructor; subst k'; cbn; [done|done|]. apply Z.mod_pos_bound. lia.
Qed.

(** C30: The keyboard buffer implements a bounded queue: for every sequence of
    kbd_push and atkbd_getchar calls, from any state of the ring, the
    characters read are those a first-in first-out queue of 255 characters
    gives, the indices stay in the array, and characters are lost only when 255
    are waiting. *)
Theorem kbd_refines_queue ops k :
  ring_ok k ->
  exists cs k', run_ops ops k = Ret (cs, k') /\ ring_ok k' /\ run_ops ops (queued k) = Ret (cs, queued k').
Proof.
  revert k. induction ops as [|[c|] ops IH]; intros k Hk; cbn [run_ops enqueue dequeue kbd_ring fifo]; [by eexists _, _| |].
  - destruct (push_queued c k Hk) as (k1 & -> & Hk1 & <-). rewrite !bind_ret. by apply IH.
  - destruct (pop_queued k Hk) as (k1 & -> & Hk1 & Hc). rewrite bind_ret.
    destruct (IH k1 Hk1) as (cs & k' & -> & Hk' & Hr). rewrite bind_ret. rewrite Hc in Hr.
    destruct (queued k); cbn [tail] in Hr; rewrite bind_ret, Hr; by eexists _, _.
Qed.

Definition demo_kbd : kbd := mkKbd (replicate 128 0) (replicate 128 0) (replicate 128 0) 0 (replicate 256 0) 254 253.

Lemma kbd_refines_queue_witness :
  exists cs k', run_ops [Push 65; Push 66; Get; Push 67; Get; Get; Get; Get] demo_kbd = Ret (cs, k') /\ ring_ok k' /\
    cs = [0; 65; 66; 67; -1].
Proof.
  destruct (kbd_refines_queue [Push 65; Push 66; Get; Push 67; Get; Get; Get; Get] demo_kbd) as (cs & k' & H1 & H2 & H3).
  - constructor; cbn; lia.
  - exists cs, k'. split; [exact H1|]. split; [exact H2|]. vm_compute in H3. congruence.
Defined.

(** ** Waiting for the controller *)

(** The code returns, whatever the state of the ports. *)
Definition returns {A} (m : io A) : Prop := forall w, exists a w', m w = Ret (a, w').

Lemma returns_ret {A} (a : A) : returns (mret a).
Proof. intros w. by eexists _, _. Qed.

Lemma returns_bind {A B} (m : io A) (f : A -> io B) :
  returns m -> (forall a, returns (f a)) -> returns (x ← m; f x).
Proof.
  intros Hm Hf w. destruct (Hm w) as (a & w' & E). destruct (Hf a w') as (b & w2 & E2).
  exists b, w2. unfold mbind, io_bind. by rewrite E, bind_ret.
Qed.

Lemma returns_if {A} (b : bool) (m1 m2 : io A) : returns m1 -> returns m2 -> returns (if b then m1 else m2).
Proof. by destruct b. Qed.

Lemma io_step {A B} (m : io A) (f : A -> io B) w a w' : m w = Ret (a, w') -> (x ← m; f x) w = f a w'.
Proof. intros E. unfold mbind, io_bind. by rewrite E. Qed.

Create HintDb ports discriminated.
#[export] Hint Resolve returns_ret returns_bind returns_if : ports.

Section Waits.
Context (dev : nat -> Z -> Z) (ticks : nat -> Z) (g_pit_hz t0 k : Z).

(** The timer runs: it advances once in every [k] accesses. *)
Hypothesis steady : forall n, ticks n = t0 + Z.of_nat n / k.
Hypothesis k_range : 0 < k < 2 ^ 34.

#[local] Abbreviation T := (pit_ms_to_ticks g_pit_hz 10000).
Hypothesis T_range : T < 2 ^ 31.

Lemma T_nonneg : 0 <= T.
Proof. unfold pit_ms_to_ticks. apply Z.div_pos; [apply u32_range|lia]. Qed.

Lemma inb_returns p : returns (inb dev p).
Proof. intros w. by eexists _, _. Qed.
Lemma outb_returns p v : returns (outb p v).
Proof. intros w. by eexists _, _. Qed.

Lemma s32_past x : - 2 ^ 31 <= x < 2 ^ 31 -> s32 (u32 x) = x.
Proof. intros. ilia. Qed.

(** A test at most a few accesses after the last that failed. *)
Lemma expired_steady a w :
  Z.of_nat a <= Z.of_nat (w_reads w) <= Z.of_nat a + k * T + 3 ->
  exists b, expired ticks (u32 (u32 (ticks a) + T)) w = Ret (b, mkWorld (S (w_reads w)) (w_out w)) /\
    (b = false -> Z.of_nat (w_reads w) < Z.of_nat a + k * T).
Proof.
  intros Hw. unfold expired. erewrite io_step; [|done]. eexists. split; [done|].
  pose proof T_nonneg as HT. set (n := Z.of_nat (w_reads w)) in *. set (a' := Z.of_nat a) in *.
  assert (u32 (u32 (ticks (w_reads w)) - u32 (u32 (ticks a) + T)) = u32 (n / k - a' / k - T)) as ->.
  { rewrite !steady. fold n a'. unfold u32.
    transitivity ((t0 + n / k - (t0 + a' / k + T)) mod 2 ^ 32); [|f_equal; lia].
    rewrite !Zplus_mod_idemp_l, !Zminus_mod_idemp_l, !Zminus_mod_idemp_r, ?Zplus_mod_idemp_l. done. }
  assert (a' / k <= n / k) by (apply Z.div_le_mono; lia).
  assert (n / k <= a' / k + T + 4).
  { apply Z.lt_succ_r, Z.div_lt_upper_bound; [lia|]. pose proof (Z.div_mod a' k).
    pose proof (Z.mod_pos_bound a' k). nia. }
  rewrite s32_past by lia. intros Hb. apply Z.leb_gt in Hb.
  assert (n / k < a' / k + T) as Hlt by lia. pose proof (Z.div_mod n k). pose proof (Z.mod_pos_bound n k).
  pose proof (Z.div_mod a' k). pose proof (Z.mod_pos_bound a' k). nia.
Qed.

Lemma wait_loop {S A} (body : S -> io (S + A)) a :
  (forall s w, Z.of_nat a < Z.of_nat (w_reads w) <= Z.of_nat a + k * T + 1 ->
     (exists x w', body s w = Ret (inr x, w')) \/
     (exists s' w', body s w = Ret (inl s', w') /\
        Z.of_nat (w_reads w) < Z.of_nat (w_reads w') <= Z.of_nat a + k * T + 1)) ->
  forall s w, Z.of_nat a < Z.of_nat (w_reads w) <= Z.of_nat a + k * T + 1 ->
  exists x w', loop_io body s w = Ret (x, w').
Proof.
  intros Hbody s w Hw. unfold loop_io.
  loop_with (fun '(s, w) => Z.of_nat a < Z.of_nat (w_reads w) <= Z.of_nat a + k * T + 1)
    (fun _ : A * world => True) (fun '(s, w) => Z.of_nat a + k * T + 1 - Z.of_nat (w_reads w))
    as ([x w'] & -> & _); [|done| |by eexists _, _].
  - intros [s1 w1] H1. destruct (Hbody s1 w1 H1) as [(x & w' & ->)|(s' & w' & -> & H2)]; rewrite bind_ret.
    + right. by eexists _.
    + left. eexists. split; [done|]. cbn. lia.
  - cbn. pose proof T_nonneg. assert (k * T < 2 ^ 34 * 2 ^ 31) by nia. lia.
Qed.

(** A round that tests the timer after at most two accesses. *)
Lemma test_round {S A} (a : nat) (x : A) (s' : S) w w1 :
  Z.of_nat a < Z.of_nat (w_reads w) <= Z.of_nat a + k * T + 1 ->
  Z.of_nat (w_reads w) < Z.of_nat (w_reads w1) <= Z.of_nat (w_reads w) + 2 ->
  let m : io (S + A) := (e ← expired ticks (u32 (u32 (ticks a) + T)); if e : bool then mret (inr x) else mret (inl s')) in
  (exists y w', m w1 = Ret (inr y, w')) \/
  (exists s'' w', m w1 = Ret (inl s'', w') /\
     Z.of_nat (w_reads w) < Z.of_nat (w_reads w') <= Z.of_nat a + k * T + 1).
Proof.
  intros Hw H1 m. destruct (expired_steady a w1) as (b & E & Hb); [lia|]. subst m.
  rewrite (io_step _ _ _ _ _ E). destruct b; [left; by eexists _, _|]. right. eexists _, _. split; [done|].
  cbn [w_reads]. specialize (Hb eq_refl). lia.
Qed.

Ltac wait_start :=
  intros w; unfold timeout_deadline; erewrite io_step by reflexivity; apply (wait_loop _ (w_reads w));
  [|cbn [w_reads]; pose proof T_nonneg; nia]; intros [] w1 Hw1; erewrite io_step by reflexivity.

Lemma atkbd_flush_returns : returns (atkbd_flush dev ticks g_pit_hz).
Proof.
  unfold atkbd_flush, atkbd_timeout_deadline, atkbd_expired. wait_start.
  case_match; [left; by eexists _, _|]. erewrite io_step by reflexivity.
  apply (test_round _ _ _ _ _ Hw1). cbn [w_reads]. lia.
Qed.

Lemma atkbd_wait_input_returns : returns (atkbd_wait_input dev ticks g_pit_hz).
Proof.
  unfold atkbd_wait_input, atkbd_timeout_deadline, atkbd_expired. wait_start.
  case_match; [left; by eexists _, _|]. apply (test_round _ _ _ _ _ Hw1). cbn [w_reads]. lia.
Qed.

Lemma wait_status_returns bit set : returns (wait_status dev ticks g_pit_hz bit set).
Proof.
  unfold wait_status, atmouse_timeout_deadline, atmouse_expired. wait_start.
  case_match; [left; by eexists _, _|]. apply (test_round _ _ _ _ _ Hw1). cbn [w_reads]. lia.
Qed.

#[local] Hint Resolve atkbd_flush_returns atkbd_wait_input_returns wait_status_returns inb_returns outb_returns : ports.

Lemma atkbd_send_cmd_returns c : returns (atkbd_send_cmd dev ticks g_pit_hz c).
Proof. unfold atkbd_send_cmd. auto with ports. Qed.
Lemma atkbd_write_data_returns c : returns (atkbd_write_data dev ticks g_pit_hz c).
Proof. unfold atkbd_write_data. auto with ports. Qed.
#[local] Hint Resolve atkbd_send_cmd_returns atkbd_write_data_returns : ports.

(** Bringing up the keyboard cannot hang: whatever a broken or missing
    controller answers, if the timer keeps running (it advances once in k port
    accesses) every wait gives up at its deadline, across the wrap of the 32-bit
    tick counter, and the whole dialogue of atkbd_init with the controller
    returns. *)
Theorem atkbd_probe_returns w : exists w', atkbd_probe dev ticks g_pit_hz w = Ret (tt, w').
Proof.
  assert (returns (atkbd_probe dev ticks g_pit_hz)) as H by (unfold atkbd_probe; auto 30 with ports).
  destruct (H w) as ([] & w' & E). by exists w'.
Qed.

End Waits.

(** No controller: every port reads as 0xFF; the timer is about to wrap. *)
Lemma atkbd_probe_returns_witness :
  exists w', atkbd_probe (fun _ _ => 0xFF) (fun n => (2 ^ 32 - 3) + Z.of_nat n / 7) 1000 (mkWorld 0 []) = Ret (tt, w').
Proof.
  apply (atkbd_probe_returns (fun _ _ => 0xFF) (fun n => (2 ^ 32 - 3) + Z.of_nat n / 7) 1000 (2 ^ 32 - 3) 7).
  - intros n. reflexivity.
  - lia.
  - vm_compute. reflexivity.
Defined.

(** The mouse driver's dialogue has a loop without a deadline: on such a machine
    it is never left. *)
Theorem atmouse_drain_hangs w : drain_stale (fun _ _ => 0xFF) w = Spin.
Proof.
  unfold drain_stale, loop_io. apply (loop_forever (fun _ => True)); [|done].
  intros [[] w1] _. by eexists.
Qed.

(** atkbd_init reads behind its tables: both scancode tables have 120
    entries where the loop copies 128, and they are shifted by two entries from
    the space key on: the key that sends 0x39 types nothing, F1 types a
    space. *)
Theorem atkbd_tables_short dev ticks hz k w :
  atkbd_init dev ticks hz k w = Fault /\
  length scancode_set1 = 120%nat /\ length scancode_set1_shift = 120%nat /\
  scancode_set1 !! 57%nat = Some 0 /\ scancode_set1 !! 59%nat = Some (ch " ").
Proof. split_and!; reflexivity. Qed.

(** ** The mouse packets *)

(** A packet of a mouse: motion in nine bits, and three buttons. *)
Record motion := mkMotion { m_dx : Z; m_dy : Z; m_buttons : Z }.
Definition motion_ok (p : motion) : Prop :=
  - 256 <= m_dx p < 256 /\ - 256 <= m_dy p < 256 /\ 0 <= m_buttons p < 8.

Definition packet (p : motion) : list Z :=
  [8 + m_buttons p + (if m_dx p <? 0 then 16 else 0) + (if m_dy p <? 0 then 32 else 0); u8 (m_dx p); u8 (m_dy p)].

(** Bytes that cannot be a status byte. *)
Definition noise (b : Z) : Prop := Z.land b 0x08 = 0.

Fixpoint feed (bs : list Z) (m : mouse) : run mouse :=
  match bs with b :: bs => m ← atmouse_byte b m; feed bs m | [] => Ret m end.

Lemma feed_app a b m : feed (a ++ b) m = m ← feed a m; feed b m.
Proof.
  revert m. induction a as [|x a IH]; intros m; cbn [feed app]; [done|].
  rewrite bind_assoc. destruct (atmouse_byte x m); cbn; auto.
Qed.

Lemma feed_noise bs m : Forall noise bs -> g_pkt_idx m = 0 -> feed bs m = Ret m.
Proof.
  intros Hb Hi. induction Hb as [|b bs Hn _ IH]; cbn [feed]; [done|].
  unfold atmouse_byte. rewrite Hi. unfold noise in Hn. rewrite Hn. done.
Qed.

(** The flag bits of a status byte. *)
Lemma flag_bits btn (sx sy : bool) :
  0 <= btn < 8 ->
  let f := 8 + btn + (if sx then 16 else 0) + (if sy then 32 else 0) in
  (Z.land f 0x08 =? 0) = false /\ (Z.land f 0xC0 =? 0) = true /\ Z.land f 0x07 = btn /\
  negb (Z.land f 0x10 =? 0) = sx /\ negb (Z.land f 0x20 =? 0) = sy.
Proof.
  intros Hb. assert (btn = 0 \/ btn = 1 \/ btn = 2 \/ btn = 3 \/ btn = 4 \/ btn = 5 \/ btn = 6 \/ btn = 7) as Hin by lia.
  destruct_or!; subst; destruct sx, sy; vm_compute; auto.
Qed.

Lemma nine_bits d : - 256 <= d < 256 -> (if d <? 0 then u8 d - 256 else u8 d) = d.
Proof. intros. destruct (Z.ltb_spec d 0); ilia. Qed.

Lemma feed_packet p m :
  motion_ok p -> g_pkt_idx m = 0 -> length (g_pkt m) = 3%nat ->
  - 2 ^ 31 <= g_dx m + m_dx p < 2 ^ 31 -> - 2 ^ 31 <= g_dy m + m_dy p < 2 ^ 31 ->
  feed (packet p) m =
  Ret (mkMouse (g_dx m + m_dx p) (g_dy m + m_dy p) (m_buttons p) (g_ready m) (packet p) 0).
Proof.
  intros (Hdx & Hdy & Hb) Hi Hl Hx Hy. destruct m as [dx dy bt rd pk ix]. cbn in *. subst ix.
  do 3 (destruct pk as [|? pk]; [done|]). destruct pk; [|done].
  destruct (flag_bits (m_buttons p) (m_dx p <? 0) (m_dy p <? 0) Hb) as (F1 & F2 & F3 & F4 & F5).
  unfold packet. set (f := 8 + _ + _ + _) in *. cbn [feed].
  assert (atmouse_byte f (mkMouse dx dy bt rd [z; z0; z1] 0) = Ret (mkMouse dx dy bt rd [f; z0; z1] 1)) as ->.
  { unfold atmouse_byte. cbn [g_pkt_idx Z.eqb]. by rewrite F1. }
  rewrite bind_ret. change (atmouse_byte (u8 (m_dx p)) (mkMouse dx dy bt rd [f; z0; z1] 1))
    with (Ret (mkMouse dx dy bt rd [f; u8 (m_dx p); z1] 2)).
  rewrite bind_ret. unfold atmouse_byte. cbn [g_pkt_idx Z.eqb Pos.eqb].
  change (store _ 2 (u8 (m_dy p))) with (Ret [f; u8 (m_dx p); u8 (m_dy p)]). rewrite bind_ret.
  change (load _ 0) with (Ret f). change (load _ 1) with (Ret (u8 (m_dx p))).
  change (load _ 2) with (Ret (u8 (m_dy p))). rewrite !bind_ret, F2, F3, F4, F5. cbn [g_dx g_dy g_ready].
  rewrite (nine_bits (m_dx p)), (nine_bits (m_dy p)) by done. by rewrite !int32_ok by lia.
Qed.

Definition sum_of (f : motion -> Z) (ps : list motion) : Z := fold_right (fun p s => f p + s) 0 ps.

(** Packets with noise before each. *)
Definition stream (items : list (list Z * motion)) : list Z := items ≫= (fun i => i.1 ++ packet i.2).

Lemma feed_stream items m :
  Forall (fun i => Forall noise i.1 /\ motion_ok i.2) items -> g_pkt_idx m = 0 -> length (g_pkt m) = 3%nat ->
  Z.abs (g_dx m) + 256 * Z.of_nat (length items) < 2 ^ 31 -> Z.abs (g_dy m) + 256 * Z.of_nat (length items) < 2 ^ 31 ->
  exists pk, feed (stream items) m =
    Ret (mkMouse (g_dx m + sum_of m_dx (items.*2)) (g_dy m + sum_of m_dy (items.*2))
           (default (g_buttons m) (m_buttons <$> last (items.*2))) (g_ready m) pk 0) /\ length pk = 3%nat.
Proof.
  intros Hok. revert m. induction Hok as [|[ns p] items [Hn Hp] _ IH]; intros m Hi Hl Hx Hy.
  { exists (g_pkt m). cbn. rewrite !Z.add_0_r. destruct m; cbn in *; subst; done. }
  cbn in Hx, Hy, Hn, Hp. unfold stream. rewrite bind_cons. cbn [fst snd]. fold (stream items).
  rewrite <- app_assoc, feed_app, feed_noise, bind_ret, feed_app by done.
  pose proof Hp as (H1 & H2 & _). rewrite feed_packet, bind_ret by (done || lia).
  edestruct IH as (pk & -> & Hpk); [done|done|cbn; lia..|]. exists pk. split; [|done]. f_equal.
  cbn. fold (sum_of m_dx (items.*2)) (sum_of m_dy (items.*2)).
  f_equal; [lia|lia|]. destruct (items.*2) as [|q qs]; [done|].
  rewrite !last_cons. by destruct (last qs).
Qed.

(** An acknowledgement has the bit that marks a status byte: it is not dropped
    but taken for one, and the packet behind it is lost, with the right button
    reported as pressed. *)
Theorem ack_taken_for_status p m :
  g_pkt_idx m = 0 -> length (g_pkt m) = 3%nat ->
  exists pk, feed (0xFA :: take 2 (packet p)) m = Ret (mkMouse (g_dx m) (g_dy m) 2 (g_ready m) pk 0).
Proof.
  intros Hi Hl. destruct m as [dx dy bt rd pk ix]. cbn in *. subst ix.
  do 3 (destruct pk as [|? pk]; [done|]). destruct pk; [|done]. cbn. by eexists.
Qed.

(** The mouse driver decodes what mice send: fed a stream of packets, with
    any bytes that are no status byte between them, the state machine stays in
    step, and the next atmouse_sample reports exactly the sum of the signed
    nine-bit motions and the buttons of the last packet, and starts again from
    zero. *)
Theorem mouse_stream_sampled items m :
  Forall (fun i => Forall noise i.1 /\ motion_ok i.2) items -> items <> [] ->
  g_pkt_idx m = 0 -> length (g_pkt m) = 3%nat -> g_dx m = 0 -> g_dy m = 0 -> g_ready m = 1 ->
  256 * Z.of_nat (length items) < 2 ^ 31 ->
  exists m1 m2 p, feed (stream items) m = Ret m1 /\ last (items.*2) = Some p /\
    atmouse_sample m1 = (Some (sum_of m_dx (items.*2), sum_of m_dy (items.*2), m_buttons p), m2) /\
    g_dx m2 = 0 /\ g_dy m2 = 0 /\ g_pkt_idx m2 = 0.
Proof.
  intros Hok Hne Hi Hl Hx Hy Hr Hn.
  destruct (feed_stream items m Hok Hi Hl) as (pk & E & Hpk); [lia..|].
  destruct (last (items.*2)) as [p|] eqn:Ep.
  2: { apply last_None in Ep. by apply fmap_nil_inv in Ep. }
  eexists _, _, p. split; [exact E|]. rewrite Hx, Hy, Hr. split_and!; done.
Qed.

Lemma mouse_stream_sampled_witness :
  exists m1 m2 p, feed (stream [([0x32; 0], mkMotion (-5) 7 1); ([], mkMotion 200 (-256) 0)])
      (mkMouse 0 0 0 1 [0; 0; 0] 0) = Ret m1 /\ Some (mkMotion 200 (-256) 0) = Some p /\
    atmouse_sample m1 = (Some (195, -249, m_buttons p), m2) /\ g_dx m2 = 0 /\ g_dy m2 = 0 /\ g_pkt_idx m2 = 0.
Proof.
  apply (mouse_stream_sampled [([0x32; 0], mkMotion (-5) 7 1); ([], mkMotion 200 (-256) 0)]
    (mkMouse 0 0 0 1 [0; 0; 0] 0)).
  - repeat constructor; cbn; lia.
  - congruence.
  - reflexivity.
  - reflexivity.
  - reflexivity.
  - reflexivity.
  - reflexivity.
  - cbn. lia.
Defined.
