(* ===== verification/Service.v ===== *)
(** * iokit/IOServiceFamily/io_service.c: the registry of services

    Descriptors live in memory and are named by their index; the registry holds
    pointers to them.  The developers' [init] functions are an oracle for the
    value they return; calls of [init] and [exit] are recorded in order.  Shown:
    in every reachable state names are unique and each service has been left as
    often as entered, and stopping everything runs in reverse order. *)

From S2P Require Import Prelude.

Definition IO_SERVICE_MAX : Z := 32.
Definition IOSVC_OK : Z := 0.
Definition IOSVC_ERR : Z := -1.
Definition IOSVC_E_FULL : Z := -2.
Definition IOSVC_E_DUP : Z := -3.
Definition IOSVC_E_NOENT : Z := -4.
Definition IOSVC_E_STATE : Z := -5.

(** [has_init], [has_exit]: the function pointer is not null. *)
Record io_service := mkSvc
  { sv_name : option (list Z); sv_desc : option (list Z); has_init : bool; has_exit : bool;
    registered : Z; started : Z }.

Inductive event := EvInit (svc : nat) (rc : Z) | EvExit (svc : nat).

Record services := mkServices { store : list io_service; registry : list nat; log : list event }.

Definition set_registered (v : Z) (s : io_service) : io_service :=
  mkSvc (sv_name s) (sv_desc s) (has_init s) (has_exit s) v (started s).
Definition set_started (v : Z) (s : io_service) : io_service :=
  mkSvc (sv_name s) (sv_desc s) (has_init s) (has_exit s) (registered s) v.
Definition on_svc (i : nat) (f : io_service -> io_service) (s : services) : services :=
  mkServices (alter f i (store s)) (registry s) (log s).
Definition add_event (e : event) (s : services) : services := mkServices (store s) (registry s) (log s ++ [e]).

Section Registry.
Context (init_result : nat -> list event -> Z).

Definition io_service_init (s : services) : Z * services := (IOSVC_OK, mkServices (store s) [] (log s)).

Fixpoint find_named (ms : list io_service) (name : list Z) (reg : list nat) : run (option nat) :=
  match reg with
  | i :: reg =>
      v ← of_option (ms !! i);
      if bool_decide (sv_name v = Some name) then Ret (Some i) else find_named ms name reg
  | [] => Ret None
  end.

Definition io_service_find (name : option (list Z)) (s : services) : run (option nat) :=
  match name with None => Ret None | Some name => find_named (store s) name (registry s) end.

Definition io_service_count (s : services) : Z := Z.of_nat (length (registry s)).

Definition io_service_register (svc : option nat) (s : services) : run (Z * services) :=
  match svc with
  | None => Ret (IOSVC_ERR, s)
  | Some i =>
      v ← of_option (store s !! i);
      if bool_decide (sv_name v = None) || negb (has_init v) then Ret (IOSVC_ERR, s)
      else if IO_SERVICE_MAX <=? io_service_count s then Ret (IOSVC_E_FULL, s)
      else
        dup ← io_service_find (sv_name v) s;
        match dup with
        | Some _ => Ret (IOSVC_E_DUP, s)
        | None =>
            let s := on_svc i (fun v => set_started 0 (set_registered 1 v)) s in
            Ret (IOSVC_OK, mkServices (store s) (registry s ++ [i]) (log s))
        end
  end.

Definition io_service_start (name : option (list Z)) (s : services) : run (Z * services) :=
  o ← io_service_find name s;
  match o with
  | None => Ret (IOSVC_E_NOENT, s)
  | Some i =>
      v ← of_option (store s !! i);
      if negb (started v =? 0) then Ret (IOSVC_E_STATE, s)
      else if negb (has_init v) then Fault
      else
        let rc := init_result i (log s) in
        let s := add_event (EvInit i rc) s in
        if negb (rc =? IOSVC_OK) then Ret (rc, s)
        else Ret (IOSVC_OK, on_svc i (set_started 1) s)
  end.

(** A null [exit] is called all the same. *)
Definition io_service_stop (name : option (list Z)) (s : services) : run (Z * services) :=
  o ← io_service_find name s;
  match o with
  | None => Ret (IOSVC_E_NOENT, s)
  | Some i =>
      v ← of_option (store s !! i);
      if started v =? 0 then Ret (IOSVC_E_STATE, s)
      else if negb (has_exit v) then Fault
      else Ret (IOSVC_OK, on_svc i (set_started 0) (add_event (EvExit i) s))
  end.

(** The entries behind the service move up by one. *)
Fixpoint remove_first (i : nat) (reg : list nat) : list nat :=
  match reg with
  | j :: reg => if (j =? i)%nat then reg else j :: remove_first i reg
  | [] => []
  end.

Definition io_service_unregister (name : option (list Z)) (s : services) : run (Z * services) :=
  o ← io_service_find name s;
  match o with
  | None => Ret (IOSVC_E_NOENT, s)
  | Some i =>
      v ← of_option (store s !! i);
      s ← (if negb (started v =? 0) then '(_, s) ← io_service_stop name s; Ret s else Ret s);
      let s := mkServices (store s) (remove_first i (registry s)) (log s) in
      Ret (IOSVC_OK, on_svc i (set_registered 0) s)
  end.

(** The loop over the registry; [reg] are the entries still to be visited. *)
Fixpoint start_each (reg : list nat) (ok : Z) (s : services) : run (Z * services) :=
  match reg with
  | i :: reg =>
      v ← of_option (store s !! i);
      if negb (started v =? 0) then start_each reg ok s
      else
        '(rc, s) ← io_service_start (sv_name v) s;
        start_each reg (if rc =? IOSVC_OK then ok + 1 else ok) s
  | [] => Ret (ok, s)
  end.
Definition io_service_start_all (s : services) : run (Z * services) := start_each (registry s) 0 s.

Fixpoint stop_each (reg : list nat) (ok : Z) (s : services) : run (Z * services) :=
  match reg with
  | i :: reg =>
      v ← of_option (store s !! i);
      if started v =? 0 then stop_each reg ok s
      else
        '(rc, s) ← io_service_stop (sv_name v) s;
        stop_each reg (if rc =? IOSVC_OK then ok + 1 else ok) s
  | [] => Ret (ok, s)
  end.
Definition io_service_stop_all (s : services) : run (Z * services) := stop_each (reverse (registry s)) 0 s.

(** ** The life of a service *)

(** Whether the calls recorded leave the service entered; [None] when it was
    left without being entered, or entered twice. *)
Definition life (i : nat) (st : option bool) (e : event) : option bool :=
  match st, e with
  | Some false, EvInit j rc => Some ((j =? i)%nat && (rc =? IOSVC_OK))
  | Some true, EvInit j _ => if (j =? i)%nat then None else Some true
  | Some true, EvExit j => Some (negb (j =? i)%nat)
  | Some false, EvExit j => if (j =? i)%nat then None else Some false
  | None, _ => None
  end.
Definition alive (i : nat) (l : list event) : option bool := fold_left (life i) l (Some false).

Definition name_of (s : services) (i : nat) : option (list Z) := store s !! i ≫= sv_name.

Record reg_ok (s : services) : Prop :=
  { ro_valid : forall i, i ∈ registry s -> exists v, store s !! i = Some v /\ sv_name v <> None /\ has_init v = true /\ registered v = 1;
    ro_names : NoDup (name_of s <$> registry s);
    ro_count : io_service_count s <= IO_SERVICE_MAX;
    ro_started : forall i v, store s !! i = Some v ->
      alive i (log s) = Some (negb (started v =? 0)) /\ (started v <> 0 -> i ∈ registry s) }.

Lemma find_named_spec ms name reg :
  (forall i, i ∈ reg -> exists v, ms !! i = Some v) ->
  exists o, find_named ms name reg = Ret o /\
    match o with
    | Some i => i ∈ reg /\ exists v, ms !! i = Some v /\ sv_name v = Some name
    | None => forall i v, i ∈ reg -> ms !! i = Some v -> sv_name v <> Some name
    end.
Proof.
  induction reg as [|i reg IH]; intros Hv; cbn [find_named].
  { exists None. split; [done|]. by intros i v Hi%not_elem_of_nil. }
  destruct (Hv i) as (v & E); [by left|]. rewrite E. cbn [of_option]. rewrite bind_ret.
  case_bool_decide as Hn.
  { exists (Some i). split; [done|]. split; [by left|]. eauto. }
  destruct IH as (o & -> & Ho); [intros j Hj; apply Hv; by right|]. exists o. split; [done|].
  destruct o as [j|].
  - destruct Ho as [Hj Ho]. split; [by right|done].
  - intros j w [-> | Hj]%elem_of_cons Ew; [by simplify_eq|by eapply Ho].
Qed.

Lemma io_service_find_ok s name :
  reg_ok s -> exists o, io_service_find name s = Ret o /\
    match o with
    | Some i => i ∈ registry s /\ exists v, store s !! i = Some v /\ sv_name v = name /\ has_init v = true
    | None => forall i, i ∈ registry s -> name <> None -> name_of s i <> name
    end.
Proof.
  intros Hs. unfold io_service_find. destruct name as [name|]; [|by exists None].
  destruct (find_named_spec (store s) name (registry s)) as (o & -> & Ho).
  { intros i Hi. destruct (ro_valid _ Hs i Hi) as (v & ? & _). eauto. }
  exists o. split; [done|]. destruct o as [i|].
  - destruct Ho as (Hi & v & Ev & Hn). split; [done|]. exists v. split_and!; try done.
    destruct (ro_valid _ Hs i Hi) as (w & Ew & _ & Hw & _). congruence.
  - intros i Hi _. destruct (ro_valid _ Hs i Hi) as (v & Ev & _). unfold name_of. rewrite Ev. cbn. eauto.
Qed.

Lemma name_of_alter f i s j l : (forall v, sv_name (f v) = sv_name v) ->
  name_of (mkServices (alter f i (store s)) l (log s)) j = name_of s j.
Proof.
  intros Hf. unfold name_of. cbn [store]. destruct (decide (i = j)) as [->|Hne].
  - rewrite list_lookup_alter_eq. destruct (store s !! j); cbn; [apply Hf|done].
  - by rewrite list_lookup_alter_ne.
Qed.

Lemma alive_snoc i l e : alive i (l ++ [e]) = life i (alive i l) e.
Proof. unfold alive. by rewrite fold_left_app. Qed.

(** A call that concerns another service. *)
Definition about (e : event) : nat := match e with EvInit i _ => i | EvExit i => i end.

Lemma life_other j st e : about e <> j -> life j st e = st.
Proof.
  intros Hne. destruct st as [[]|], e as [i rc|i]; cbn in *; try done; by rewrite (proj2 (Nat.eqb_neq i j)).
Qed.

Lemma reg_ok_change s i v f reg' log' :
  reg_ok s -> store s !! i = Some v ->
  (forall v, sv_name (f v) = sv_name v /\ has_init (f v) = has_init v) ->
  NoDup (name_of s <$> reg') -> Z.of_nat (length reg') <= IO_SERVICE_MAX ->
  (forall j, j <> i -> j ∈ reg' <-> j ∈ registry s) ->
  (i ∈ reg' -> sv_name v <> None /\ has_init v = true /\ registered (f v) = 1) ->
  alive i log' = Some (negb (started (f v) =? 0)) -> (started (f v) <> 0 -> i ∈ reg') ->
  (forall j, j <> i -> alive j log' = alive j (log s)) ->
  reg_ok (mkServices (alter f i (store s)) reg' log').
Proof.
  intros Hs Ev Hf Hnd Hlen Hreg Hi Hal Hst Hoth. constructor.
  - cbn. intros j Hj. destruct (decide (j = i)) as [->|Hne].
    + destruct (Hi Hj) as (H1 & H2 & H3). destruct (Hf v) as [F1 F2].
      exists (f v). rewrite list_lookup_alter_eq, Ev, F1, F2. done.
    + rewrite list_lookup_alter_ne by done. apply (ro_valid _ Hs). by apply Hreg.
  - cbn. erewrite list_fmap_ext; [exact Hnd|]. intros k j _. unfold name_of. cbn.
    destruct (decide (i = j)) as [->|Hne]; [|by rewrite list_lookup_alter_ne].
    rewrite list_lookup_alter_eq, Ev. cbn. apply Hf.
  - done.
  - cbn [store registry log]. intros j w. destruct (decide (j = i)) as [->|Hne].
    + rewrite list_lookup_alter_eq, Ev. intros [= <-]. done.
    + rewrite list_lookup_alter_ne by done. intros Ew. rewrite Hoth by done.
      destruct (ro_started _ Hs j w Ew) as [H1 H2]. split; [done|]. intros Hw. by apply Hreg, H2.
Qed.

(** The result of an operation. *)
Definition keeps (m : run (Z * services)) (P : Z -> services -> Prop) : Prop :=
  exists rc s, m = Ret (rc, s) /\ reg_ok s /\ P rc s.

Lemma register_ok svc s :
  reg_ok s -> (forall i, svc = Some i -> is_Some (store s !! i)) ->
  keeps (io_service_register svc s) (fun rc s' => rc = IOSVC_OK -> exists i, svc = Some i /\ registry s' = registry s ++ [i]).
Proof.
  intros Hs Hp. unfold io_service_register. destruct svc as [i|]; [|by eexists _, _].
  destruct (Hp i eq_refl) as [v Ev]. rewrite Ev. cbn [of_option]. rewrite bind_ret.
  destruct (bool_decide (sv_name v = None) || negb (has_init v)) eqn:Eg; [by eexists _, _|].
  apply orb_false_iff in Eg as [En%bool_decide_eq_false Ei%negb_false_iff].
  destruct (Z.leb_spec IO_SERVICE_MAX (io_service_count s)) as [|Hc]; [by eexists _, _|].
  destruct (io_service_find_ok s (sv_name v) Hs) as (o & -> & Ho). rewrite bind_ret.
  destruct o as [j|]; [by eexists _, _|]. eexists _, _. split; [done|]. split; [|eauto].
  assert (i ∉ registry s) as Hni.
  { intros Hin. apply (Ho i Hin En). unfold name_of. by rewrite Ev. }
  apply (reg_ok_change s i v); try done.
  - cbn. rewrite fmap_app. apply NoDup_app. split_and!; [apply Hs| |apply NoDup_singleton].
    intros x (j & -> & Hj)%list_elem_of_fmap Hx. apply list_elem_of_singleton in Hx.
    apply (Ho j Hj En). rewrite Hx. cbn. unfold name_of. by rewrite Ev.
  - cbn. rewrite length_app. unfold io_service_count in Hc. cbn. lia.
  - cbn. intros j Hj. rewrite elem_of_app, list_elem_of_singleton. split; [intros [?|?]; [done|congruence]|auto].
  - cbn [log on_svc]. destruct (ro_started _ Hs i v Ev) as [H1 H2]. rewrite H1. f_equal.
    destruct (Z.eqb_spec (started v) 0); [done|]. by destruct Hni; apply H2.
Qed.

Lemma start_ok name s :
  reg_ok s -> keeps (io_service_start name s) (fun rc s' => registry s' = registry s).
Proof.
  intros Hs. unfold io_service_start. destruct (io_service_find_ok s name Hs) as (o & -> & Ho). rewrite bind_ret.
  destruct o as [i|]; [|by eexists _, _]. destruct Ho as (Hin & v & Ev & Hn & Hi). rewrite Ev. cbn [of_option]. rewrite bind_ret.
  destruct (ro_started _ Hs i v Ev) as [Ha _]. destruct (ro_valid _ Hs i Hin) as (v1 & Ev1 & Hv1 & _ & Hv3).
  assert (v1 = v) as -> by congruence. destruct (Z.eqb_spec (started v) 0) as [E|E]; cbn [negb]; [|by eexists _, _]. rewrite Hi. cbn [negb].
  set (rc := init_result i (log s)).
  assert (forall j, j <> i -> alive j (log s ++ [EvInit i rc]) = alive j (log s)) as Hoth.
  { intros j Hj. rewrite alive_snoc. apply life_other. cbn. congruence. }
  assert (alive i (log s ++ [EvInit i rc]) = Some (rc =? IOSVC_OK)) as Hal.
  { rewrite alive_snoc, Ha. cbn. by rewrite Nat.eqb_refl. }
  destruct (Z.eqb_spec rc IOSVC_OK) as [Erc|Erc]; cbn [negb]; eexists _, _; (split; [done|]); (split; [|done]).
  - apply (reg_ok_change s i v); try done; apply Hs.
  - assert (add_event (EvInit i rc) s = mkServices (alter id i (store s)) (registry s) (log s ++ [EvInit i rc])) as ->.
    { unfold add_event. f_equal. symmetry. apply list_alter_id. done. }
    apply (reg_ok_change s i v); try done; try apply Hs.
    rewrite Hal. unfold id. by rewrite E.
Qed.

Lemma stop_ok name s :
  reg_ok s -> (forall i v, i ∈ registry s -> store s !! i = Some v -> has_exit v = true) ->
  keeps (io_service_stop name s) (fun rc s' => registry s' = registry s /\
    forall i, io_service_find name s = Ret (Some i) -> forall v, store s' !! i = Some v -> started v = 0).
Proof.
  intros Hs Hx. unfold io_service_stop. destruct (io_service_find_ok s name Hs) as (o & -> & Ho). rewrite bind_ret.
  destruct o as [i|]; [|by eexists _, _]. destruct Ho as (Hin & v & Ev & Hn & Hi). rewrite Ev. cbn [of_option]. rewrite bind_ret.
  destruct (ro_started _ Hs i v Ev) as [Ha _]. destruct (ro_valid _ Hs i Hin) as (v1 & Ev1 & Hv1 & _ & Hv3).
  assert (v1 = v) as -> by congruence.
  destruct (Z.eqb_spec (started v) 0) as [E|E].
  { eexists _, _. split_and!; [done..|]. intros j [= <-] w Ew. congruence. }
  rewrite (Hx i v Hin Ev). cbn [negb]. eexists _, _. split; [done|]. split.
  - apply (reg_ok_change s i v); try done; try apply Hs; cbn [log add_event on_svc].
    + rewrite alive_snoc, Ha. cbn. by rewrite Nat.eqb_refl.
    + intros j Hj. rewrite alive_snoc. apply life_other. cbn. congruence.
  - split; [done|]. intros j [= <-] w. cbn. rewrite list_lookup_alter_eq, Ev. by intros [= <-].
Qed.

Lemma remove_first_spec i reg : NoDup reg -> i ∈ reg ->
  (forall j, j ∈ remove_first i reg <-> j ∈ reg /\ j <> i) /\ sublist (remove_first i reg) reg.
Proof.
  intros Hnd Hin. induction Hnd as [|k reg Hk Hnd IH]; [by apply not_elem_of_nil in Hin|]. cbn.
  destruct (Nat.eqb_spec k i) as [->|Hne].
  - split; [|by constructor]. intros j. rewrite elem_of_cons. naive_solver.
  - apply elem_of_cons in Hin as [->|Hin]; [done|]. destruct (IH Hin) as [H1 H2].
    split; [|by constructor]. intros j. rewrite !elem_of_cons, H1. naive_solver.
Qed.

Lemma registry_nodup s : reg_ok s -> NoDup (registry s).
Proof. intros Hs. eapply NoDup_fmap_1. apply (ro_names _ Hs). Qed.

Context (n : nat).

(** There are [n] descriptors, and all have a function to leave the service. *)
Definition exits (s : services) : Prop :=
  length (store s) = n /\ forall i v, store s !! i = Some v -> has_exit v = true.

Lemma exits_alter s f i reg l : (forall v, has_exit (f v) = has_exit v) -> exits s ->
  exits (mkServices (alter f i (store s)) reg l).
Proof.
  intros Hf [Hl Hx]. split; [cbn; by rewrite length_alter|]. intros j v. cbn. destruct (decide (i = j)) as [->|Hne].
  - rewrite list_lookup_alter_eq. destruct (store s !! j) as [w|] eqn:E; [|done].
    intros [= <-]. rewrite Hf. by eapply Hx.
  - rewrite list_lookup_alter_ne by done. apply Hx.
Qed.

Lemma step_exits m s rc s' : exits s -> m = Ret (rc, s') ->
  (exists name, m = io_service_start name s \/ m = io_service_stop name s) \/ (exists i, m = io_service_register i s) -> exits s'.
Proof.
  intros Hx E [[name [-> | ->]]|[i ->]].
  - unfold io_service_start in E. destruct (io_service_find name s) as [[i|]| |]; cbn in E; try done; [|by simplify_eq].
    destruct (store s !! i); cbn in E; [|done]. repeat case_match; simplify_eq; try done; by apply exits_alter.
  - unfold io_service_stop in E. destruct (io_service_find name s) as [[i|]| |]; cbn in E; try done; [|by simplify_eq].
    destruct (store s !! i); cbn in E; [|done]. repeat case_match; simplify_eq; try done; by apply exits_alter.
  - unfold io_service_register in E. destruct i as [i|]; [|by simplify_eq].
    destruct (store s !! i); cbn in E; [|done]. repeat (case_match; cbn in E; [by simplify_eq|]).
    destruct (io_service_find _ s) as [[j|]| |]; cbn in E; simplify_eq; try done. by apply exits_alter.
Qed.

Lemma unregister_ok name s :
  reg_ok s -> exits s -> keeps (io_service_unregister name s) (fun rc s' => exits s').
Proof.
  intros Hs Hx. unfold io_service_unregister. destruct (io_service_find_ok s name Hs) as (o & Ef & Ho). rewrite Ef, bind_ret.
  destruct o as [i|]; [|by eexists _, _]. destruct Ho as (Hin & v & Ev & Hn & Hi). rewrite Ev. cbn [of_option]. rewrite bind_ret.
  match goal with |- keeps (x ← ?m; _) _ =>
    assert (exists s1, m = Ret s1 /\ reg_ok s1 /\ exits s1 /\ registry s1 = registry s /\
      forall w, store s1 !! i = Some w -> started w = 0) as (s1 & -> & Hs1 & Hx1 & Hreg & Hst) end.
  { destruct (Z.eqb_spec (started v) 0) as [E|E]; cbn [negb].
    - exists s. split_and!; try done. congruence.
    - destruct (stop_ok name s Hs (fun i v _ => proj2 Hx i v)) as (rc & s1 & E1 & Hs1 & Hr & Hst). rewrite E1, bind_ret.
      exists s1. split_and!; try done; [|by apply Hst].
      eapply step_exits; [exact Hx|exact E1|]. left. exists name. by right. }
  rewrite bind_ret. eexists _, _. split; [done|]. split; [|by apply exits_alter].
  rewrite <- Hreg in Hin. destruct (ro_valid _ Hs1 i Hin) as (w & Ew & _).
  destruct (remove_first_spec i (registry s1) (registry_nodup _ Hs1) Hin) as [Hrm Hsub].
  destruct (ro_started _ Hs1 i w Ew) as [Ha _].
  apply (reg_ok_change s1 i w); try done; cbn [registry store log].
  - eapply sublist_NoDup; [exact (ro_names _ Hs1)|]. by apply fmap_sublist.
  - apply sublist_length in Hsub. pose proof (ro_count _ Hs1). unfold io_service_count in *. lia.
  - intros j Hj. rewrite Hrm. naive_solver.
  - by intros [_ ?]%Hrm.
  - cbn. rewrite (Hst w Ew). done.
Qed.

(** The loops over the registry. *)
Lemma start_each_ok reg ok s :
  reg_ok s -> exits s -> (forall i, i ∈ reg -> is_Some (store s !! i)) ->
  keeps (start_each reg ok s) (fun _ s' => exits s').
Proof.
  revert ok s. induction reg as [|i reg IH]; intros ok s Hs Hx Hv; cbn [start_each]; [by eexists _, _|].
  destruct (Hv i) as [v Ev]; [by left|]. rewrite Ev. cbn [of_option]. rewrite bind_ret.
  case_match; [apply IH; [done..|]; intros j Hj; apply Hv; by right|].
  destruct (start_ok (sv_name v) s Hs) as (rc & s1 & E & Hs1 & _). rewrite E, bind_ret.
  assert (exits s1) as Hx1 by (eapply step_exits; [exact Hx|exact E|eauto]).
  apply IH; [done..|]. intros j Hj. apply lookup_lt_is_Some_2. rewrite (proj1 Hx1), <- (proj1 Hx).
  apply lookup_lt_is_Some_1, Hv. by right.
Qed.

(** [stop] through the name of a registered service stops that service. *)
Lemma stop_registered i v s :
  reg_ok s -> exits s -> i ∈ registry s -> store s !! i = Some v -> started v <> 0 ->
  io_service_stop (sv_name v) s = Ret (IOSVC_OK, on_svc i (set_started 0) (add_event (EvExit i) s)).
Proof.
  intros Hs Hx Hin Ev Hst. unfold io_service_stop.
  destruct (io_service_find_ok s (sv_name v) Hs) as (o & -> & Ho). rewrite bind_ret.
  destruct (ro_valid _ Hs i Hin) as (w & Ew & Hn & _). assert (w = v) as -> by congruence.
  assert (name_of s i = sv_name v) as Hname by (unfold name_of; by rewrite Ev).
  destruct o as [j|]; [|by destruct (Ho i Hin Hn)]. destruct Ho as (Hj & u & Eu & Hu & _).
  assert (j = i) as ->.
  { apply list_elem_of_lookup in Hj as [a Ha]. apply list_elem_of_lookup in Hin as [b Hb].
    assert (a = b) as ->; [|congruence].
    eapply (NoDup_lookup (name_of s <$> registry s)); [apply (ro_names _ Hs)|by rewrite list_lookup_fmap, Ha|].
    rewrite list_lookup_fmap, Hb. cbn. rewrite Hname. unfold name_of. rewrite Eu. cbn. by rewrite Hu. }
  rewrite Ev. cbn [of_option]. rewrite bind_ret, (proj2 (Z.eqb_neq _ _) Hst), (proj2 Hx i v Ev). done.
Qed.

Definition is_started (ms : list io_service) (i : nat) : bool :=
  match ms !! i with Some v => negb (started v =? 0) | None => false end.

Lemma is_started_stop ms i j : is_started (alter (set_started 0) i ms) j = negb (i =? j)%nat && is_started ms j.
Proof.
  unfold is_started. destruct (Nat.eqb_spec i j) as [->|Hne].
  - rewrite list_lookup_alter_eq. by destruct (ms !! j).
  - by rewrite list_lookup_alter_ne.
Qed.

Lemma stop_each_spec reg ok s :
  reg_ok s -> exits s -> NoDup reg -> (forall i, i ∈ reg -> i ∈ registry s) ->
  exists s', stop_each reg ok s = Ret (ok + Z.of_nat (length (List.filter (is_started (store s)) reg)), s') /\
    reg_ok s' /\ exits s' /\ registry s' = registry s /\
    log s' = log s ++ (EvExit <$> List.filter (is_started (store s)) reg) /\
    forall i, is_started (store s') i = is_started (store s) i && negb (bool_decide (i ∈ reg)).
Proof.
  intros Hs Hx Hnd. revert ok s Hs Hx. induction Hnd as [|i reg Hi Hnd IH]; intros ok s Hs Hx Hin; cbn [stop_each List.filter].
  { exists s. cbn. rewrite app_nil_r, Z.add_0_r. split_and!; try done. intros i. rewrite bool_decide_eq_false_2.
    - by rewrite andb_true_r.
    - apply not_elem_of_nil. }
  destruct (ro_valid _ Hs i) as (v & Ev & _); [apply Hin; by left|].
  assert (is_started (store s) i = negb (started v =? 0)) as Ei by (unfold is_started; by rewrite Ev).
  rewrite Ev. cbn [of_option]. rewrite bind_ret, Ei.
  assert (forall j, is_started (store s) j && negb (bool_decide (j ∈ i :: reg)) =
    negb (i =? j)%nat && is_started (store s) j && negb (bool_decide (j ∈ reg))) as Hcons.
  { intros j. destruct (Nat.eqb_spec i j) as [->|Hne]; cbn [negb andb].
    - rewrite bool_decide_eq_true_2 by (by left). by rewrite andb_false_r.
    - f_equal. f_equal. apply bool_decide_ext. rewrite elem_of_cons. naive_solver. }
  destruct (Z.eqb_spec (started v) 0) as [E|E]; cbn [negb].
  - destruct (IH ok s Hs Hx) as (s' & -> & H1 & H2 & H3 & H4 & H5); [intros j Hj; apply Hin; by right|].
    exists s'. split_and!; try done. intros j. rewrite H5, Hcons. destruct (Nat.eqb_spec i j) as [<-|]; [|done].
    by rewrite Ei.
  - rewrite (stop_registered i v s) by (done || (apply Hin; by left)). rewrite bind_ret.
    set (s1 := on_svc i (set_started 0) (add_event (EvExit i) s)).
    destruct (stop_ok (sv_name v) s Hs (fun i v _ => proj2 Hx i v)) as (rc & s1' & E1 & Hs1 & _).
    pose proof (stop_registered i v s Hs Hx (Hin i (list_elem_of_here _ _)) Ev E) as E2.
    rewrite E1 in E2. injection E2 as -> ->. fold s1 in Hs1.
    assert (exits s1) as Hx1 by (by apply exits_alter).
    assert (List.filter (is_started (store s1)) reg = List.filter (is_started (store s)) reg) as Hf.
    { apply List.filter_ext_in. intros j Hj. apply list_elem_of_In in Hj. subst s1. cbn. rewrite is_started_stop.
      by rewrite (proj2 (Nat.eqb_neq i j)) by congruence. }
    destruct (IH (ok + 1) s1 Hs1 Hx1) as (s' & E3 & H1 & H2 & H3 & H4 & H5); [intros j Hj; apply Hin; by right|].
    rewrite Z.eqb_refl, E3, Hf. exists s'. split_and!; try done.
    + cbn [length]. f_equal. f_equal. lia.
    + rewrite H4, Hf. subst s1. cbn [log on_svc add_event fmap list_fmap]. by rewrite <- app_assoc.
    + intros j. rewrite H5, Hcons. subst s1. cbn [store on_svc add_event]. by rewrite is_started_stop.
Qed.

(** ** Every sequence of calls *)

Inductive call :=
  | CRegister (svc : option nat) | CUnregister (name : option (list Z))
  | CStart (name : option (list Z)) | CStop (name : option (list Z)) | CStartAll | CStopAll.

Definition exec (c : call) (s : services) : run (Z * services) :=
  match c with
  | CRegister svc => io_service_register svc s
  | CUnregister name => io_service_unregister name s
  | CStart name => io_service_start name s
  | CStop name => io_service_stop name s
  | CStartAll => io_service_start_all s
  | CStopAll => io_service_stop_all s
  end.

Fixpoint exec_all (cs : list call) (s : services) : run (list Z * services) :=
  match cs with
  | c :: cs => '(rc, s) ← exec c s; '(rcs, s) ← exec_all cs s; Ret (rc :: rcs, s)
  | [] => Ret ([], s)
  end.

(** The pointers passed are descriptors. *)
Definition call_ok (c : call) : Prop :=
  match c with CRegister (Some i) => (i < n)%nat | _ => True end.

Lemma exec_ok c s : reg_ok s -> exits s -> call_ok c -> keeps (exec c s) (fun _ s' => exits s').
Proof.
  intros Hs Hx Hc. assert (forall (m : run (Z * services)) (P : Z -> services -> Prop), keeps m P ->
    ((exists name, m = io_service_start name s \/ m = io_service_stop name s) \/ (exists i, m = io_service_register i s)) ->
    keeps m (fun _ s' => exits s')) as Hk.
  { intros m P (rc & s' & E & Hs' & _) Hm. exists rc, s'. split_and!; try done. by eapply step_exits. }
  destruct c as [svc|name|name|name| |]; cbn [exec].
  - eapply Hk; [apply register_ok; [done|]|eauto]. intros i ->. apply lookup_lt_is_Some_2. by rewrite (proj1 Hx).
  - by apply unregister_ok.
  - eapply Hk; [by apply start_ok|eauto].
  - eapply Hk; [apply stop_ok; [done|]|eauto]. intros i v _. apply Hx.
  - apply start_each_ok; [done..|]. intros i Hi. destruct (ro_valid _ Hs i Hi) as (v & -> & _). eauto.
  - destruct (stop_each_spec (reverse (registry s)) 0 s) as (s' & E & H1 & H2 & _); [done|done| | |].
    + rewrite reverse_Permutation. by apply registry_nodup.
    + intros i. by rewrite elem_of_reverse.
    + eexists _, _. split; [exact E|]. done.
Qed.

Lemma exec_all_ok cs s :
  reg_ok s -> exits s -> Forall call_ok cs ->
  exists rcs s', exec_all cs s = Ret (rcs, s') /\ reg_ok s' /\ exits s'.
Proof.
  intros Hs Hx Hcs. revert s Hs Hx. induction Hcs as [|c cs Hc _ IH]; intros s Hs Hx; cbn [exec_all]; [by eexists _, _|].
  destruct (exec_ok c s Hs Hx Hc) as (rc & s1 & -> & Hs1 & Hx1). rewrite bind_ret.
  destruct (IH s1 Hs1 Hx1) as (rcs & s' & -> & ?). by eexists _, _.
Qed.

(** Descriptors as their authors leave them, and a registry just set up. *)
Definition fresh (s : services) : Prop :=
  registry s = [] /\ log s = [] /\ (forall i v, store s !! i = Some v -> started v = 0) /\ exits s.

Lemma fresh_ok s : fresh s -> reg_ok s /\ exits s.
Proof.
  intros (Hr & Hl & Hst & Hx). split; [|done]. constructor.
  - rewrite Hr. by intros i Hi%not_elem_of_nil.
  - rewrite Hr. constructor.
  - unfold io_service_count. rewrite Hr. cbn. unfold IO_SERVICE_MAX. lia.
  - intros i v Ev. rewrite Hl, (Hst i v Ev). done.
Qed.

(** The life of a service.  Whatever sequence of registry calls is made, with
    whatever results of the services' own functions, every call returns; the
    registered names are distinct and at most 32; and the init and exit
    functions of each service have been called in turn: exit only after a
    successful init and once for each, with a service marked as started exactly
    when it has been entered and not left. *)
Theorem service_lifecycle cs s0 :
  fresh s0 -> Forall call_ok cs ->
  exists rcs s, exec_all cs s0 = Ret (rcs, s) /\
    NoDup (name_of s <$> registry s) /\ io_service_count s <= IO_SERVICE_MAX /\
    forall i v, store s !! i = Some v -> alive i (log s) = Some (negb (started v =? 0)).
Proof.
  intros [Hs Hx]%fresh_ok Hcs. destruct (exec_all_ok cs s0 Hs Hx Hcs) as (rcs & s & E & Hs' & _).
  exists rcs, s. split_and!; [done|apply Hs'..|]. intros i v Ev. by apply (ro_started _ Hs').
Qed.

(** Stopping everything.  After any sequence of calls, io_service_stop_all
    leaves exactly the services that run, in the reverse of the order in which
    they were registered, returns their number, and no service is started
    afterwards. *)
Theorem stop_all_lifo cs s0 rcs s :
  fresh s0 -> Forall call_ok cs -> exec_all cs s0 = Ret (rcs, s) ->
  let running := List.filter (is_started (store s)) (reverse (registry s)) in
  exists s', io_service_stop_all s = Ret (Z.of_nat (length running), s') /\
    log s' = log s ++ (EvExit <$> running) /\ forall i, is_started (store s') i = false.
Proof.
  intros [Hs0 Hx0]%fresh_ok Hcs E running.
  destruct (exec_all_ok cs s0 Hs0 Hx0 Hcs) as (rcs' & s1 & E1 & Hs & Hx). rewrite E in E1. injection E1 as <- <-.
  destruct (stop_each_spec (reverse (registry s)) 0 s Hs Hx) as (s' & E' & _ & _ & _ & Hlog & Hst).
  { rewrite reverse_Permutation. by apply registry_nodup. }
  { intros i. by rewrite elem_of_reverse. }
  exists s'. split; [exact E'|]. split; [exact Hlog|]. intros i. rewrite Hst.
  destruct (is_started (store s) i) eqn:Ei; [|done]. rewrite bool_decide_eq_true_2; [done|].
  apply elem_of_reverse. unfold is_started in Ei. destruct (store s !! i) as [v|] eqn:Ev; [|done].
  apply (ro_started _ Hs i v Ev). by apply negb_true_iff, Z.eqb_neq in Ei.
Qed.

End Registry.

Definition demo_svc (name : string) : io_service := mkSvc (Some (str name)) None true true 0 0.
Definition demo_services : services := mkServices [demo_svc "com.xkern.net"; demo_svc "com.xkern.usb"; demo_svc "com.xkern.net"] [] [].

(** The second service fails to start the first time. *)
Definition demo_init (i : nat) (l : list event) : Z := if (i =? 1)%nat && (length l <? 2)%nat then -1 else 0.

Definition demo_calls : list call :=
  [CRegister (Some 0%nat); CRegister (Some 1%nat); CRegister (Some 2%nat); CStartAll; CStart (Some (str "com.xkern.usb"));
   CStart (Some (str "com.xkern.usb"))].

Lemma demo_fresh : fresh 3 demo_services.
Proof.
  split; [done|]. split; [done|]. assert (forall i v, store demo_services !! i = Some v -> started v = 0 /\ has_exit v = true) as H.
  { intros i v Ev. do 3 (destruct i as [|i]; [by injection Ev as <-|]). done. }
  split; [intros i v Ev; by apply (H i v)|]. split; [done|]. intros i v Ev. by apply (H i v).
Qed.

Lemma service_lifecycle_witness :
  exists rcs s, exec_all demo_init demo_calls demo_services = Ret (rcs, s) /\
    NoDup (name_of s <$> registry s) /\ io_service_count s <= IO_SERVICE_MAX /\
    forall i v, store s !! i = Some v -> alive i (log s) = Some (negb (started v =? 0)).
Proof.
  apply (service_lifecycle demo_init 3 demo_calls demo_services).
  - exact demo_fresh.
  - repeat constructor.
Defined.

Lemma stop_all_lifo_witness :
  match exec_all demo_init demo_calls demo_services with
  | Ret (rcs, s) => rcs = [0; 0; -3; 1; 0; -5] /\
      exists s', io_service_stop_all s = Ret (2, s') /\ log s' = log s ++ [EvExit 1; EvExit 0] /\
        forall i, is_started (store s') i = false
  | _ => False
  end.
Proof.
  destruct (exec_all demo_init demo_calls demo_services) as [[rcs s]| |] eqn:E.
  - split; [vm_compute in E; injection E as <- _; reflexivity|].
    destruct (stop_all_lifo demo_init 3 demo_calls demo_services rcs s) as (s' & H1 & H2 & H3).
    + exact demo_fresh.
    + repeat constructor.
    + exact E.
    + exists s'. vm_compute in E. injection E as _ <-. split; [exact H1|]. split; [exact H2|exact H3].
  - vm_compute in E. congruence.
  - vm_compute in E. congruence.
Defined.
