(* ===== verification/Boot.v ===== *)
(** * pexpert/x86_64: boot information and boot arguments

    multiboot2.c turns the boot loader's list of tags, a list of bytes here,
    into the structure the kernel uses; loader_config.c keeps the boot
    arguments that the loader's shell edits.  Shown: the parser recovers what a
    boot loader has encoded; the words of an argument line are kept and found by
    the queries of the kernel; the value of an argument runs to the end of the
    line; and a tag of nearly 2^32 bytes keeps the parser for ever. *)

From S2P Require Import Prelude Ramfs.

(** ** multiboot2.c *)

Definition MAX_MMAP_ENTRIES : nat := 64.
Definition MAX_MODS : Z := 8.

Definition MULTIBOOT_MEM_INFO : Z := 0x1.
Definition MULTIBOOT_CMDLINE : Z := 0x4.
Definition MULTIBOOT_MODS_REQ : Z := 0x8.
Definition MULTIBOOT_MMAP : Z := 0x40.
Definition MULTIBOOT_BOOTLOADER_NAME : Z := 0x200.
Definition MULTIBOOT_FRAMEBUFFER : Z := 0x1000.
Definition FB_TYPE_RGB : Z := 1.
Definition FB_TYPE_EGA_TEXT : Z := 2.

Record multiboot_module := mkMod { mod_start : Z; mod_end : Z; mod_string : list Z }.
Record boot_mem_map_entry := mkMmap { mm_base : Z; mm_length : Z; mm_type : Z }.

(** Position and size of the colours. *)
Record channels := mkCh { r_pos : Z; r_sz : Z; g_pos : Z; g_sz : Z; b_pos : Z; b_sz : Z }.
Record framebuffer := mkFb
  { fb_addr : Z; fb_pitch : Z; fb_width : Z; fb_height : Z; fb_bpp : Z; fb_type : Z; fb_ch : option channels }.

Record multiboot_info := mkMbi
  { mb_flags : Z; mb_lower : Z; mb_upper : Z; mb_cmdline : option (list Z); mb_name : option (list Z);
    mb_mods : list multiboot_module; mb_mmap : list boot_mem_map_entry; mb_fb : framebuffer }.

Definition mbi_empty : multiboot_info :=
  mkMbi 0 0 0 None None [] [] (mkFb 0 0 0 0 0 FB_TYPE_EGA_TEXT None).

Definition fb_masks_ok (c : channels) (bpp : Z) : bool :=
  let apart p s q t := negb ((p <? q + t) && (q <? p + s)) in
  negb ((r_sz c =? 0) || (g_sz c =? 0) || (b_sz c =? 0)) &&
  negb ((8 <? r_sz c) || (8 <? g_sz c) || (8 <? b_sz c)) &&
  negb ((bpp <? r_pos c + r_sz c) || (bpp <? g_pos c + g_sz c) || (bpp <? b_pos c + b_sz c)) &&
  apart (r_pos c) (r_sz c) (g_pos c) (g_sz c) && apart (r_pos c) (r_sz c) (b_pos c) (b_sz c) &&
  apart (g_pos c) (g_sz c) (b_pos c) (b_sz c).

(** [for (; i < n && s[i]; i++) dst[i] = s[i];] from offset [i] of the bytes. *)
Fixpoint copy_cstr (n : nat) (p : list Z) (i : Z) : run (list Z) :=
  match n with
  | O => Ret []
  | S n => c ← byte_at p i; if c =? 0 then Ret [] else (s ← copy_cstr n p (i + 1); Ret (c :: s))
  end.

(** The entries from offset [e] on, at most [room]. *)
Fixpoint mmap_entries (room : nat) (p : list Z) (e size limit : Z) : run (list boot_mem_map_entry) :=
  match room with
  | O => Ret []
  | S room =>
      if e + size <=? limit then
        b ← get p e 8; l ← get p (e + 8) 8; t ← get p (e + 16) 4;
        es ← mmap_entries room p (e + size) size limit;
        Ret (mkMmap b l t :: es)
      else Ret []
  end.

Definition set_flag (f : Z) (m : multiboot_info) : multiboot_info :=
  mkMbi (Z.lor (mb_flags m) f) (mb_lower m) (mb_upper m) (mb_cmdline m) (mb_name m) (mb_mods m) (mb_mmap m) (mb_fb m).

(** The tag of the given type and size at [off]. *)
Definition mb2_tag_body (type size : Z) (p : list Z) (off : Z) (m : multiboot_info) : run multiboot_info :=
  if type =? 1 then
    s ← copy_cstr 255 p (off + 8);
    Ret (set_flag MULTIBOOT_CMDLINE
      (mkMbi (mb_flags m) (mb_lower m) (mb_upper m) (Some s) (mb_name m) (mb_mods m) (mb_mmap m) (mb_fb m)))
  else if type =? 2 then
    s ← copy_cstr 63 p (off + 8);
    Ret (set_flag MULTIBOOT_BOOTLOADER_NAME
      (mkMbi (mb_flags m) (mb_lower m) (mb_upper m) (mb_cmdline m) (Some s) (mb_mods m) (mb_mmap m) (mb_fb m)))
  else if type =? 3 then
    if MAX_MODS <=? Z.of_nat (length (mb_mods m)) then Ret m
    else
      a ← get p (off + 8) 4; b ← get p (off + 12) 4; s ← copy_cstr 63 p (off + 16);
      Ret (set_flag MULTIBOOT_MODS_REQ
        (mkMbi (mb_flags m) (mb_lower m) (mb_upper m) (mb_cmdline m) (mb_name m)
          (mb_mods m ++ [mkMod a b s]) (mb_mmap m) (mb_fb m)))
  else if type =? 4 then
    lo ← get p (off + 8) 4; up ← get p (off + 12) 4;
    Ret (set_flag MULTIBOOT_MEM_INFO
      (mkMbi (mb_flags m) lo up (mb_cmdline m) (mb_name m) (mb_mods m) (mb_mmap m) (mb_fb m)))
  else if type =? 6 then
    es ← get p (off + 8) 4;
    l ← mmap_entries (MAX_MMAP_ENTRIES - length (mb_mmap m)) p (off + 16) es (off + size);
    Ret (set_flag MULTIBOOT_MMAP
      (mkMbi (mb_flags m) (mb_lower m) (mb_upper m) (mb_cmdline m) (mb_name m) (mb_mods m) (mb_mmap m ++ l) (mb_fb m)))
  else if type =? 8 then
    addr ← get p (off + 8) 8; pitch ← get p (off + 16) 4; w ← get p (off + 20) 4; h ← get p (off + 24) 4;
    bpp ← byte_at p (off + 28); ty ← byte_at p (off + 29);
    c0 ← byte_at p (off + 30); c1 ← byte_at p (off + 31); c2 ← byte_at p (off + 32);
    c3 ← byte_at p (off + 33); c4 ← byte_at p (off + 34); c5 ← byte_at p (off + 35);
    let spec := mkCh c4 c5 c2 c3 c0 c1 in
    ch ← (if (ty =? FB_TYPE_RGB) && negb (fb_masks_ok spec bpp) && (38 <=? size) then
            c6 ← byte_at p (off + 36); c7 ← byte_at p (off + 37); Ret (mkCh c2 c3 c4 c5 c6 c7)
          else Ret spec);
    Ret (set_flag MULTIBOOT_FRAMEBUFFER
      (mkMbi (mb_flags m) (mb_lower m) (mb_upper m) (mb_cmdline m) (mb_name m) (mb_mods m) (mb_mmap m)
        (mkFb addr pitch w h bpp ty (Some ch))))
  else Ret m.

(** One round of the loop over the tags. *)
Definition mb2_round (p : list Z) (total : Z) (st : Z * multiboot_info) : run ((Z * multiboot_info) + multiboot_info) :=
  let '(off, m) := st in
  if off + 8 <=? total then
    type ← get p off 4; size ← get p (off + 4) 4;
    if size <? 8 then Ret (inr m)
    else if type =? 0 then Ret (inr m)
    else
      m ← mb2_tag_body type size p off m;
      Ret (inl (u32 (off + Z.land (u32 (size + 7)) (u32 (Z.lnot 7))), m))
  else Ret (inr m).

(** [None]: a null pointer. *)
Definition multiboot2_parse (p : option (list Z)) : run multiboot_info :=
  match p with
  | None => Ret mbi_empty
  | Some p => total ← get p 0 4; loop (mb2_round p total) (8, mbi_empty)
  end.

(** ** loader_config.c *)

Definition BOOT_ARGS_MAX : Z := 256.

Record boot_config := mkCfg
  { cfg_args : list Z; cfg_cmdline : list Z; verbose : Z; single_user : Z; safe_mode : Z; ignore_caches : Z }.

Definition SPACE : Z := 32.
Definition blank (c : Z) : bool := (c =? SPACE) || (c =? 9).

(** The tokens of a line; [w] is the one being read. *)
Fixpoint arg_tokens (w s : list Z) : list (list Z) :=
  match s with
  | [] => if bool_decide (w = []) then [] else [w]
  | c :: s =>
      if blank c then if bool_decide (w = []) then arg_tokens [] s else w :: arg_tokens [] s
      else arg_tokens (w ++ [c]) s
  end.

(** A token is noted and appended, as far as the array goes. *)
Definition put_arg (g : boot_config) (t : list Z) : boot_config :=
  let flag c v := if bool_decide (t = [ch "-"; c]) then 1 else v in
  let n := cfg_args g in
  let room n := (255 - length n)%nat in
  let n := if negb (bool_decide (n = [])) && (Z.of_nat (length n) <? BOOT_ARGS_MAX - 1) then n ++ [SPACE] else n in
  mkCfg (n ++ take (room n) t) (cfg_cmdline g)
    (flag (ch "v") (verbose g)) (flag (ch "s") (single_user g)) (flag (ch "x") (safe_mode g)) (flag (ch "f") (ignore_caches g)).

Definition parse_args (s : list Z) (g : boot_config) : boot_config :=
  fold_left put_arg (arg_tokens [] s) (mkCfg [] (cfg_cmdline g) 0 0 0 0).

Definition loader_set_args (args : option (list Z)) (g : boot_config) : run boot_config :=
  tmp ← copy_name (BOOT_ARGS_MAX - 1) (default [] args);
  Ret (parse_args tmp g).

(** The loop over the arguments: [test] is tried where one starts. *)
Fixpoint scan_args {B} (test : list Z -> option B) (start : bool) (p : list Z) : option B :=
  match p with
  | [] => None
  | c :: p' =>
      if c =? SPACE then scan_args test true p'
      else if start then match test p with Some b => Some b | None => scan_args test false p' end
      else scan_args test false p'
  end.

Definition boot_arg_flag (name : list Z) (g : boot_config) : Z :=
  match scan_args (fun p =>
    if bool_decide (take (length name) p = name) then
      match drop (length name) p with
      | [] => Some tt
      | c :: _ => if c =? SPACE then Some tt else None
      end
    else None) true (cfg_args g) with Some _ => 1 | None => 0 end.

Definition boot_arg_value (key : list Z) (g : boot_config) : list Z :=
  default [] (scan_args (fun p =>
    if bool_decide (take (length key) p = key) then
      match drop (length key) p with
      | c :: v => if c =? ch "=" then Some v else None
      | [] => None
      end
    else None) true (cfg_args g)).

Definition boot_verbose (g : boot_config) : Z := verbose g.

(** ** The loader's shell *)

(** What a command leads to. *)
Inductive action := Prompt | BootKernel | Reboot | Halt.

Definition cmd_add (rest : list Z) (g : boot_config) : boot_config :=
  if bool_decide (rest = []) then g
  else if BOOT_ARGS_MAX <=? Z.of_nat (length (cfg_args g) + 1 + length rest) then g
  else
    let a := (if bool_decide (cfg_args g = []) then [] else cfg_args g ++ [SPACE]) ++ rest in
    parse_args a g.

(** [strcpy(g_cfg.cmdline, g_cfg.args)] *)
Definition boot_kernel (g : boot_config) : boot_config :=
  mkCfg (cfg_args g) (cfg_args g) (verbose g) (single_user g) (safe_mode g) (ignore_caches g).

Fixpoint skip_spaces (s : list Z) : list Z :=
  match s with c :: s' => if c =? SPACE then skip_spaces s' else s | [] => [] end.
Fixpoint to_space (s : list Z) : list Z * list Z :=
  match s with
  | c :: s' => if c =? SPACE then ([], s) else let '(w, r) := to_space s' in (c :: w, r)
  | [] => ([], [])
  end.

Definition exec_cmd (line : list Z) (g : boot_config) : run (action * boot_config) :=
  let '(cmd, rest) := to_space (skip_spaces line) in
  let rest := skip_spaces rest in
  let cmd_is c := bool_decide (cmd = str c) in
  if bool_decide (cmd = []) then Ret (Prompt, g)
  else if cmd_is "boot"%string then Ret (BootKernel, boot_kernel g)
  else if cmd_is "set"%string then g ← loader_set_args (Some rest) g; Ret (Prompt, g)
  else if cmd_is "add"%string then Ret (Prompt, cmd_add rest g)
  else if cmd_is "clear"%string then g ← loader_set_args (Some []) g; Ret (Prompt, g)
  else if cmd_is "reboot"%string then Ret (Reboot, g)
  else if cmd_is "halt"%string then Ret (Halt, g)
  else Ret (Prompt, g).

(** Characters typed before the end of a line, with rubout. *)
Fixpoint edit (max : Z) (buf input : list Z) : option (list Z * list Z) :=
  match input with
  | [] => None
  | c :: input =>
      if (c =? 10) || (c =? 13) then Some (buf, input)
      else if (c =? 8) || (c =? 0x7F) then edit max (take (length buf - 1) buf) input
      else if (0x20 <=? c) && (c <? 0x7F) && (Z.of_nat (length buf) <? max - 1) then edit max (buf ++ [c]) input
      else edit max buf input
  end.

(** The shell on the lines that are typed; it waits when there are no more. *)
Fixpoint loader_shell (fuel : nat) (input : list Z) (g : boot_config) : run (action * boot_config) :=
  match fuel with
  | O => Spin
  | S fuel =>
      match edit BOOT_ARGS_MAX [] input with
      | None => Ret (Prompt, g)
      | Some (line, input) =>
          '(a, g) ← exec_cmd line g;
          match a with Prompt => loader_shell fuel input g | a => Ret (a, g) end
      end
  end.

(** ** Boot arguments *)

(** A word: no blank in it. *)
Definition word (w : list Z) : Prop := w <> [] /\ Forall (fun c => blank c = false) w.

(** A line that spells words: blanks between them, and anywhere around. *)
Inductive spells : list (list Z) -> list Z -> Prop :=
  | spells_nil bs : Forall (fun c => blank c = true) bs -> spells [] bs
  | spells_cons bs w ws rest :
      Forall (fun c => blank c = true) bs -> word w ->
      match rest with c :: _ => blank c = true | [] => True end ->
      spells ws rest -> spells (w :: ws) (bs ++ w ++ rest).

(** Words with one space between. *)
Fixpoint join (ws : list (list Z)) : list Z :=
  match ws with
  | [] => []
  | [w] => w
  | w :: ws => w ++ SPACE :: join ws
  end.

Lemma tokens_blanks bs rest : Forall (fun c => blank c = true) bs -> arg_tokens [] (bs ++ rest) = arg_tokens [] rest.
Proof. induction 1 as [|c bs Hc _ IH]; cbn [app arg_tokens]; [done|]. by rewrite Hc. Qed.

Lemma tokens_word acc w rest :
  Forall (fun c => blank c = false) w -> acc ++ w <> [] -> match rest with c :: _ => blank c = true | [] => True end ->
  arg_tokens acc (w ++ rest) = (acc ++ w) :: arg_tokens [] rest.
Proof.
  intros Hw. revert acc. induction Hw as [|c w Hc _ IH]; intros acc Hne Hr; cbn [app].
  - rewrite app_nil_r in *. destruct rest as [|c rest]; cbn; [|rewrite Hr]; by rewrite bool_decide_eq_false_2.
  - cbn [arg_tokens]. rewrite Hc. replace (acc ++ c :: w) with ((acc ++ [c]) ++ w) by (by rewrite <- app_assoc).
    apply IH; [|done]. by destruct acc.
Qed.

Lemma arg_tokens_spelled ws s : spells ws s -> arg_tokens [] s = ws.
Proof.
  induction 1 as [bs Hb|bs w ws rest Hb [Hne Hw] Hr _ IH].
  - rewrite <- (app_nil_r bs), tokens_blanks by done. done.
  - rewrite tokens_blanks, tokens_word, IH by done. done.
Qed.

Lemma join_snoc ws w : ws <> [] -> join (ws ++ [w]) = join ws ++ SPACE :: w.
Proof.
  induction ws as [|v ws IH]; [done|]. intros _. destruct ws as [|u ws]; [done|].
  cbn [app join] in *. rewrite IH by done. by rewrite <- app_assoc.
Qed.

Lemma join_nil ws : Forall word ws -> join ws = [] -> ws = [].
Proof.
  intros Hw. destruct ws as [|w [|v ws]]; [done|..]; cbn; intros E.
  - apply Forall_inv in Hw as [? _]. done.
  - apply Forall_inv in Hw as [? _]. by destruct w.
Qed.

(** The configuration after some words. *)
Definition cfg_of (cmdline : list Z) (ws : list (list Z)) : boot_config :=
  let has c := if bool_decide ([ch "-"; c] ∈ ws) then 1 else 0 in
  mkCfg (join ws) cmdline (has (ch "v")) (has (ch "s")) (has (ch "x")) (has (ch "f")).

Lemma put_arg_cfg cl ws w :
  Forall word ws -> word w -> (length (join (ws ++ [w])) <= 255)%nat ->
  put_arg (cfg_of cl ws) w = cfg_of cl (ws ++ [w]).
Proof.
  intros Hws [Hne Hw] Hlen. unfold put_arg, cfg_of. cbn [cfg_args cfg_cmdline verbose single_user safe_mode ignore_caches].
  assert (forall c, (if bool_decide (w = [ch "-"; c]) then 1 else if bool_decide ([ch "-"; c] ∈ ws) then 1 else 0) =
    (if bool_decide ([ch "-"; c] ∈ ws ++ [w]) then 1 else 0)) as Hflag.
  { intros c. rewrite (bool_decide_ext ([ch "-"; c] ∈ ws ++ [w]) ([ch "-"; c] ∈ ws \/ w = [ch "-"; c])).
    - repeat case_bool_decide; naive_solver.
    - rewrite elem_of_app, list_elem_of_singleton. naive_solver. }
  rewrite !Hflag. f_equal. destruct (decide (ws = [])) as [->|Hnil].
  - cbn in *. rewrite take_ge by lia. done.
  - rewrite join_snoc in * by done. rewrite length_app in Hlen. cbn in Hlen.
    rewrite bool_decide_eq_false_2 by (intros E; by apply Hnil, join_nil).
    rewrite (proj2 (Z.ltb_lt _ _)) by (unfold BOOT_ARGS_MAX; lia). cbn [negb andb].
    rewrite length_app, <- app_assoc. cbn [length app]. rewrite take_ge by lia. done.
Qed.

Lemma length_join_app ws vs : (length (join ws) <= length (join (ws ++ vs)))%nat.
Proof.
  revert vs. induction ws as [|w ws IH]; intros vs; [cbn; lia|]. specialize (IH vs).
  destruct ws as [|v ws]; cbn [app join] in *.
  - destruct vs; [done|]. rewrite length_app. lia.
  - rewrite !length_app. cbn [length]. lia.
Qed.

Lemma put_args_cfg cl vs ws :
  Forall word ws -> Forall word vs -> (length (join (ws ++ vs)) <= 255)%nat ->
  fold_left put_arg vs (cfg_of cl ws) = cfg_of cl (ws ++ vs).
Proof.
  intros Hws Hvs. revert ws Hws. induction Hvs as [|v vs Hv _ IH]; intros ws Hws Hlen; cbn [fold_left].
  { by rewrite app_nil_r. }
  assert (ws ++ v :: vs = (ws ++ [v]) ++ vs) as E by (by rewrite <- app_assoc). rewrite E in *.
  rewrite put_arg_cfg; [|done|done|pose proof (length_join_app (ws ++ [v]) vs); lia].
  apply IH; [|done]. apply Forall_app. auto.
Qed.

Lemma spells_words ws s : spells ws s -> Forall word ws.
Proof. induction 1; constructor; auto. Qed.

Lemma parse_args_spelled ws s g :
  spells ws s -> (length (join ws) <= 255)%nat -> parse_args s g = cfg_of (cfg_cmdline g) ws.
Proof.
  intros Hs Hl. unfold parse_args. rewrite (arg_tokens_spelled ws s) by done.
  apply (put_args_cfg (cfg_cmdline g) ws []); [constructor|by eapply spells_words|done].
Qed.

(** Scanning joined words tries the test at each word. *)
Lemma word_space w c : word w -> c ∈ w -> (c =? SPACE) = false.
Proof.
  intros [_ Hw] Hc. rewrite Forall_forall in Hw. apply Hw in Hc. unfold blank in Hc. by apply orb_false_iff in Hc as [? _].
Qed.

Lemma scan_inside {B} (test : list Z -> option B) w rest :
  (forall c, c ∈ w -> (c =? SPACE) = false) -> scan_args test false (w ++ rest) = scan_args test false rest.
Proof.
  induction w as [|c w IH]; intros Hw; [done|]. cbn [app scan_args].
  rewrite Hw by (by left). apply IH. intros d Hd. apply Hw. by right.
Qed.

Lemma scan_words {B} (test : list Z -> option B) w ws :
  word w ->
  scan_args test true (join (w :: ws)) =
  match test (join (w :: ws)) with
  | Some b => Some b
  | None => scan_args test true (join ws)
  end.
Proof.
  intros Hw. assert (Hsp : forall c, c ∈ w -> (c =? SPACE) = false) by (intros c; by apply word_space).
  destruct Hw as [Hne _]. destruct w as [|c w]; [done|].
  assert (exists rest, join ((c :: w) :: ws) = c :: w ++ rest /\
    scan_args test false rest = scan_args test true (join ws)) as (rest & -> & Hrest).
  { destruct ws as [|v ws]; [exists []; cbn; by rewrite app_nil_r|]. by exists (SPACE :: join (v :: ws)). }
  cbn [scan_args]. rewrite Hsp by (by left). destruct (test (c :: w ++ rest)); [done|].
  rewrite scan_inside; [done|]. intros d Hd. apply Hsp. by right.
Qed.

(** What follows a word: nothing, or a space. *)
Definition ended (r : list Z) : Prop := match r with [] => True | c :: _ => c = SPACE end.

Lemma join_cons w ws : exists rest, join (w :: ws) = w ++ rest /\ ended rest /\
  rest = match ws with [] => [] | _ => SPACE :: join ws end.
Proof. destruct ws as [|v ws]; [exists []; cbn; by rewrite app_nil_r|]. by exists (SPACE :: join (v :: ws)). Qed.

Lemma word_split w v r d :
  (forall c, c ∈ w -> (c =? SPACE) = false) -> (forall c, c ∈ v -> (c =? SPACE) = false) ->
  ended r -> ended d -> w ++ r = v ++ d -> w = v.
Proof.
  revert v. induction w as [|c w IH]; intros [|e v] Hw Hv Hr Hd E; cbn in E; [done|..].
  - subst r. cbn in Hr. specialize (Hv e (list_elem_of_here _ _)). by subst e.
  - subst d. cbn in Hd. specialize (Hw c (list_elem_of_here _ _)). by subst c.
  - injection E as -> E. f_equal. apply IH; try done; intros x Hx; [apply Hw|apply Hv]; by right.
Qed.

Lemma flag_scan name ws :
  word name -> Forall word ws ->
  boot_arg_flag name (cfg_of [] ws) = if bool_decide (name ∈ ws) then 1 else 0.
Proof.
  intros Hn Hws. unfold boot_arg_flag. cbn [cfg_args cfg_of]. induction Hws as [|w ws Hw Hws IH]; [done|].
  rewrite scan_words by done. destruct (join_cons w ws) as (rest & E & He & _). rewrite E.
  destruct (decide (w = name)) as [->|Hne].
  - rewrite take_app_length, drop_app_length, bool_decide_eq_true_2 by done.
    rewrite (bool_decide_eq_true_2 (name ∈ _)) by (by left). destruct rest as [|c rest]; [done|]. by rewrite He.
  - rewrite (bool_decide_ext (name ∈ w :: ws) (name ∈ ws)) by (rewrite elem_of_cons; naive_solver).
    rewrite <- IH. match goal with |- match (match ?t with Some b => _ | None => _ end) with _ => _ end = _ =>
      assert (t = None) as -> end; [|done].
    clear IH. case_bool_decide as Ht; [|done]. destruct (drop (length name) (w ++ rest)) as [|c d] eqn:Ed.
    + exfalso. apply Hne. apply (word_split w name rest []); try done; try (intros c; by apply word_space).
      rewrite <- (take_drop (length name) (w ++ rest)), Ht, Ed. done.
    + destruct (Z.eqb_spec c SPACE) as [->|]; [|done]. exfalso. apply Hne.
      apply (word_split w name rest (SPACE :: d)); try done; try (intros c; by apply word_space).
      rewrite <- (take_drop (length name) (w ++ rest)), Ht, Ed. done.
Qed.

Lemma value_scan key a u b :
  word key -> Forall word a -> word (key ++ ch "=" :: u) ->
  (forall w, w ∈ a -> take (S (length key)) w <> key ++ [ch "="]) ->
  boot_arg_value key (cfg_of [] (a ++ (key ++ ch "=" :: u) :: b)) =
  u ++ match b with [] => [] | _ => SPACE :: join b end.
Proof.
  intros Hk Ha Hku Hno. unfold boot_arg_value. cbn [cfg_args cfg_of].
  induction Ha as [|w a Hw Ha IH]; cbn [app].
  - rewrite scan_words by done. destruct (join_cons (key ++ ch "=" :: u) b) as (rest & E & _ & ->). rewrite E.
    rewrite <- app_assoc, take_app_length, drop_app_length, bool_decide_eq_true_2 by done. done.
  - rewrite scan_words by done. rewrite <- IH by (intros v Hv; apply Hno; by right).
    destruct (join_cons w (a ++ (key ++ ch "=" :: u) :: b)) as (rest & E & He & _). rewrite E.
    match goal with |- default _ (match ?t with Some b => _ | None => _ end) = _ =>
      assert (t = None) as -> end; [|done].
    clear IH. case_bool_decide as Ht; [|done]. destruct (drop (length key) (w ++ rest)) as [|c d] eqn:Ed; [done|].
    destruct (Z.eqb_spec c (ch "=")) as [->|]; [|done]. exfalso. apply (Hno w); [by left|].
    assert (w ++ rest = (key ++ [ch "="]) ++ d) as E2.
    { rewrite <- (take_drop (length key) (w ++ rest)), Ht, Ed, <- app_assoc. done. }
    apply app_eq_inv in E2 as [(x & Ex & _)|(x & Ex & Er)].
    + rewrite Ex, take_app_length'; [done|]. rewrite length_app. cbn. lia.
    + destruct x as [|e x]; [rewrite app_nil_r in Ex; rewrite Ex, take_ge; [done|]; by rewrite <- Ex, length_app; cbn; lia|].
      exfalso. subst rest. cbn in He. subst e.
      assert (SPACE ∈ key ++ [ch "="]) as Hin by (rewrite Ex; apply elem_of_app; right; by left).
      apply elem_of_app in Hin as [Hin|Hin%list_elem_of_singleton]; [|done].
      by apply (word_space _ _ Hk) in Hin.
Qed.

Lemma length_join_spelled ws s : spells ws s -> (length (join ws) <= length s)%nat.
Proof.
  intros Hs. assert (forall ws s, spells ws s -> ws <> [] -> match s with c :: _ => blank c = true | [] => True end ->
    (S (length (join ws)) <= length s)%nat) as Hlead.
  { clear. induction 1 as [|bs w ws rest Hb [Hne Hw] Hr Hs IH]; [done|]. intros _ Hhd.
    assert (0 < length bs)%nat as Hbs.
    { destruct bs; [|cbn; lia]. destruct w as [|c w]; [done|]. apply Forall_inv in Hw. cbn in Hhd. congruence. }
    rewrite !length_app. destruct ws as [|v ws]; [cbn [join]; lia|]. specialize (IH ltac:(done) Hr).
    change (join (w :: v :: ws)) with (w ++ SPACE :: join (v :: ws)). rewrite length_app. cbn [length]. lia. }
  destruct Hs as [bs _|bs w ws rest _ _ Hr Hs]; [cbn; lia|]. rewrite !length_app.
  destruct ws as [|v ws]; [cbn [join]; lia|]. specialize (Hlead _ _ Hs ltac:(done) Hr).
  change (join (w :: v :: ws)) with (w ++ SPACE :: join (v :: ws)). rewrite length_app. cbn [length]. lia.
Qed.

(** Boot arguments.  For every line of fewer than 255 characters, whatever
    blanks separate its words, loader_set_args keeps exactly its words, with one
    space between, and sets each of the four flags exactly when its word is
    there; boot_arg_flag answers whether a word is there; and boot_arg_value
    gives what follows key= in the first word that has it, but not only to the
    end of the word: the rest of the line is part of the value. *)
Theorem boot_args_found ws s g :
  spells ws s -> Z.of_nat (length s) < 255 ->
  exists g', loader_set_args (Some s) g = Ret g' /\ cfg_args g' = join ws /\
    boot_verbose g' = (if bool_decide (str "-v" ∈ ws) then 1 else 0) /\
    single_user g' = (if bool_decide (str "-s" ∈ ws) then 1 else 0) /\
    safe_mode g' = (if bool_decide (str "-x" ∈ ws) then 1 else 0) /\
    ignore_caches g' = (if bool_decide (str "-f" ∈ ws) then 1 else 0) /\
    (forall name, word name -> boot_arg_flag name g' = if bool_decide (name ∈ ws) then 1 else 0) /\
    (forall key a u b, word key -> ws = a ++ (key ++ ch "=" :: u) :: b ->
       (forall w, w ∈ a -> take (S (length key)) w <> key ++ [ch "="]) ->
       boot_arg_value key g' = u ++ match b with [] => [] | _ => SPACE :: join b end).
Proof.
  intros Hs Hlen. pose proof (length_join_spelled _ _ Hs) as Hj. pose proof (spells_words _ _ Hs) as Hws.
  unfold loader_set_args, copy_name. change (default [] (Some s)) with s.
  rewrite (proj2 (Z.ltb_lt _ _)) by (unfold BOOT_ARGS_MAX; lia). rewrite bind_ret.
  eexists. split; [done|]. rewrite (parse_args_spelled ws) by (done || lia). split_and!; try reflexivity.
  - intros name Hn. exact (flag_scan name ws Hn Hws).
  - intros key a u b Hk E Hno. rewrite E in Hws. apply Forall_app in Hws as [Ha Hb].
    rewrite E. exact (value_scan key a u b Hk Ha (Forall_inv Hb) Hno).
Qed.

Definition demo_line : list Z := str " -v  debug=0x14e -s".
Definition demo_cfg : boot_config := mkCfg [] [] 0 0 0 0.

Lemma demo_spells : spells [str "-v"; str "debug=0x14e"; str "-s"] demo_line.
Proof.
  assert (forall w, forallb (fun c => negb (blank c)) w && negb (bool_decide (w = [])) = true -> word w) as Hw.
  { intros w [H1 H2]%andb_true_iff. split; [by intros ->|]. apply Forall_forall. intros c Hc.
    rewrite forallb_forall in H1. by apply negb_true_iff, H1, list_elem_of_In. }
  change demo_line with (str " " ++ str "-v" ++ str "  " ++ str "debug=0x14e" ++ str " " ++ str "-s" ++ []).
  repeat (apply spells_cons; [repeat constructor|by apply Hw|done|]). constructor. constructor.
Qed.

Lemma boot_args_found_witness :
  exists g', loader_set_args (Some demo_line) demo_cfg = Ret g' /\
    cfg_args g' = str "-v debug=0x14e -s" /\ boot_verbose g' = 1 /\ boot_arg_flag (str "-s") g' = 1 /\
    boot_arg_flag (str "debug") g' = 0 /\ boot_arg_value (str "debug") g' = str "0x14e -s".
Proof.
  destruct (boot_args_found [str "-v"; str "debug=0x14e"; str "-s"] demo_line demo_cfg)
    as (g' & H1 & H2 & H3 & _ & _ & _ & Hf & Hv).
  - exact demo_spells.
  - vm_compute. reflexivity.
  - exists g'. split; [exact H1|]. split; [exact H2|]. split; [exact H3|].
    split; [|split].
    + rewrite Hf; [reflexivity|]. split; [done|]. repeat constructor.
    + rewrite Hf; [reflexivity|]. split; [done|]. repeat constructor.
    + apply (Hv (str "debug") [str "-v"] (str "0x14e") [str "-s"]).
      * split; [done|]. repeat constructor.
      * reflexivity.
      * intros w ->%list_elem_of_singleton. done.
Defined.

(** ** The tags of a boot loader *)

(** Fields of a structure that starts at [off], where the bytes from there on
    are [T]. *)
Section Fields.
Context (p : list Z) (off : Z) (T : list Z).
Hypothesis at_off : drop (Z.to_nat off) p = T.
Hypothesis off_nonneg : 0 <= off.

Lemma drop_field k : 0 <= k -> drop (Z.to_nat (off + k)) p = drop (Z.to_nat k) T.
Proof. intros Hk. rewrite <- at_off, drop_drop. f_equal. lia. Qed.

Lemma get_field k n bs rest : 0 <= k -> drop (Z.to_nat k) T = bs ++ rest -> n = length bs ->
  get p (off + k) n = Ret (le_val bs).
Proof.
  intros Hk E ->. pose proof (drop_field k Hk) as Ed. rewrite E in Ed.
  destruct (decide (bs = [])) as [->|Hne]; [done|].
  assert (length (drop (Z.to_nat (off + k)) p) = length (bs ++ rest)) as El by (by rewrite Ed).
  rewrite length_drop, length_app in El. assert (0 < length bs)%nat by (by destruct bs; [|cbn; lia]).
  rewrite get_ok by lia. by rewrite Ed, take_app_length.
Qed.

Lemma byte_field k b rest : 0 <= k -> drop (Z.to_nat k) T = b :: rest -> byte_at p (off + k) = Ret b.
Proof.
  intros Hk E. pose proof (drop_field k Hk) as Ed. rewrite E in Ed. unfold byte_at.
  rewrite (proj2 (Z.leb_le 0 _)) by lia. rewrite <- (Nat.add_0_r (Z.to_nat (off + k))), <- lookup_drop, Ed. done.
Qed.
End Fields.

Lemma copy_cstr_field n s rest p i :
  0 <= i -> drop (Z.to_nat i) p = s ++ 0 :: rest -> Forall char_ok s -> copy_cstr n p i = Ret (take n s).
Proof.
  revert s i. induction n as [|n IH]; intros s i Hi E Hs; [done|]. cbn [copy_cstr].
  assert (forall b r, drop (Z.to_nat i) p = b :: r -> byte_at p i = Ret b) as Hb.
  { intros b r Eb. rewrite <- (Z.add_0_r i). by apply (byte_field p i (b :: r) Eb Hi 0 b r). }
  destruct s as [|c s]; cbn [app] in E.
  - by rewrite (Hb _ _ E), bind_ret.
  - rewrite (Hb _ _ E), bind_ret. apply Forall_cons in Hs as [Hc Hs].
    rewrite (proj2 (Z.eqb_neq c 0)) by (unfold char_ok in Hc; lia).
    rewrite (IH s (i + 1)); [done|lia| |done].
    replace (Z.to_nat (i + 1)) with (Z.to_nat i + 1)%nat by lia. by rewrite <- drop_drop, E.
Qed.

Inductive tag :=
  | TCmdline (s : list Z) | TName (s : list Z) | TModule (a b : Z) (s : list Z) | TMeminfo (lo up : Z)
  | TMmap (es : list boot_mem_map_entry) | TFramebuffer (addr pitch w h bpp type : Z) (c : channels)
  | TOther (type : Z) (body : list Z).

Definition tag_type (t : tag) : Z :=
  match t with
  | TCmdline _ => 1 | TName _ => 2 | TModule _ _ _ => 3 | TMeminfo _ _ => 4 | TMmap _ => 6
  | TFramebuffer _ _ _ _ _ _ _ => 8 | TOther ty _ => ty
  end.

Definition entry_bytes (e : boot_mem_map_entry) : list Z :=
  le_bytes 8 (mm_base e) ++ le_bytes 8 (mm_length e) ++ le_bytes 4 (mm_type e) ++ le_bytes 4 0.

Definition tag_body (t : tag) : list Z :=
  match t with
  | TCmdline s | TName s => s ++ [0]
  | TModule a b s => le_bytes 4 a ++ le_bytes 4 b ++ s ++ [0]
  | TMeminfo lo up => le_bytes 4 lo ++ le_bytes 4 up
  | TMmap es => le_bytes 4 24 ++ le_bytes 4 0 ++ (es ≫= entry_bytes)
  | TFramebuffer addr pitch w h bpp ty c =>
      le_bytes 8 addr ++ le_bytes 4 pitch ++ le_bytes 4 w ++ le_bytes 4 h ++ [bpp; ty] ++
      [b_pos c; b_sz c; g_pos c; g_sz c; r_pos c; r_sz c]
  | TOther _ body => body
  end.

Definition tag_size (t : tag) : Z := 8 + Z.of_nat (length (tag_body t)).
Definition tag_bytes (t : tag) : list Z :=
  le_bytes 4 (tag_type t) ++ le_bytes 4 (tag_size t) ++ tag_body t ++ replicate (Z.to_nat ((- tag_size t) mod 8)) 0.

Definition is32 (x : Z) : Prop := 0 <= x < 2 ^ 32.
Definition is64 (x : Z) : Prop := 0 <= x < 2 ^ 64.

Definition tag_ok (t : tag) : Prop :=
  match t with
  | TCmdline s | TName s => Forall char_ok s
  | TModule a b s => is32 a /\ is32 b /\ Forall char_ok s
  | TMeminfo lo up => is32 lo /\ is32 up
  | TMmap es => Forall (fun e => is64 (mm_base e) /\ is64 (mm_length e) /\ is32 (mm_type e)) es
  | TFramebuffer addr pitch w h bpp ty c => is64 addr /\ is32 pitch /\ is32 w /\ is32 h
  | TOther ty body => is32 ty /\ ~ (ty ∈ [0; 1; 2; 3; 4; 6; 8])
  end.

(** What a tag tells the kernel. *)
Definition apply_tag (m : multiboot_info) (t : tag) : multiboot_info :=
  let '(mkMbi f lo up cl nm md mm fb) := m in
  match t with
  | TCmdline s => mkMbi (Z.lor f MULTIBOOT_CMDLINE) lo up (Some (take 255 s)) nm md mm fb
  | TName s => mkMbi (Z.lor f MULTIBOOT_BOOTLOADER_NAME) lo up cl (Some (take 63 s)) md mm fb
  | TModule a b s =>
      if MAX_MODS <=? Z.of_nat (length md) then m
      else mkMbi (Z.lor f MULTIBOOT_MODS_REQ) lo up cl nm (md ++ [mkMod a b (take 63 s)]) mm fb
  | TMeminfo lo up => mkMbi (Z.lor f MULTIBOOT_MEM_INFO) lo up cl nm md mm fb
  | TMmap es => mkMbi (Z.lor f MULTIBOOT_MMAP) lo up cl nm md (mm ++ take (64 - length mm) es) fb
  | TFramebuffer addr pitch w h bpp ty c =>
      mkMbi (Z.lor f MULTIBOOT_FRAMEBUFFER) lo up cl nm md mm (mkFb addr pitch w h bpp ty (Some c))
  | TOther _ _ => m
  end.

Lemma le4 x : is32 x -> le_val (le_bytes 4 x) = x.
Proof. intros. rewrite le_val_bytes. apply Z.mod_small. done. Qed.
Lemma le8 x : is64 x -> le_val (le_bytes 8 x) = x.
Proof. intros. rewrite le_val_bytes. apply Z.mod_small. done. Qed.

Lemma mmap_entries_spec room p e es rest limit :
  0 <= e -> drop (Z.to_nat e) p = (es ≫= entry_bytes) ++ rest -> limit = e + 24 * Z.of_nat (length es) ->
  Forall (fun e => is64 (mm_base e) /\ is64 (mm_length e) /\ is32 (mm_type e)) es ->
  mmap_entries room p e 24 limit = Ret (take room es).
Proof.
  revert e es. induction room as [|room IH]; intros e es He E Hl Hok; [done|]. cbn [mmap_entries].
  destruct es as [|x es]; cbn [length] in Hl.
  { by rewrite (proj2 (Z.leb_gt _ _)) by lia. }
  rewrite (proj2 (Z.leb_le _ _)) by lia. rewrite bind_cons, <- app_assoc in E.
  apply Forall_cons in Hok as [(H1 & H2 & H3) Hok]. unfold entry_bytes in E. rewrite <- !app_assoc in E.
  pose proof (get_field p e _ E He) as G. rewrite <- (Z.add_0_r e) at 1.
  rewrite (G 0 8%nat (le_bytes 8 (mm_base x)) _ ltac:(lia) eq_refl eq_refl), bind_ret.
  rewrite (G 8 8%nat (le_bytes 8 (mm_length x)) _ ltac:(lia) eq_refl eq_refl), bind_ret.
  rewrite (G 16 4%nat (le_bytes 4 (mm_type x)) _ ltac:(lia) eq_refl eq_refl), bind_ret.
  rewrite !le8, le4 by done. rewrite (IH (e + 24) es); [|lia| |lia|done].
  - by destruct x.
  - rewrite (drop_field p e _ E He 24) by lia. done.
Qed.

(** One tag, at [off] of the bytes. *)
Lemma tag_body_spec t p off rest m :
  0 <= off -> drop (Z.to_nat off) p = tag_bytes t ++ rest -> tag_ok t ->
  mb2_tag_body (tag_type t) (tag_size t) p off m = Ret (apply_tag m t).
Proof.
  intros Hoff E Hok. unfold tag_bytes in E. rewrite <- !app_assoc in E.
  set (pad := replicate _ 0 ++ rest) in E. destruct m as [f lo up cl nm md mm fb].
  destruct t as [s|s|a b s|l u|es|addr pitch w h bpp ty c|ty body]; cbn [tag_type tag_body tag_ok] in *;
    rewrite <- ?app_assoc in E; pose proof (get_field p off _ E Hoff) as G;
    pose proof (byte_field p off _ E Hoff) as B; pose proof (drop_field p off _ E Hoff) as D;
    unfold mb2_tag_body; cbn [Z.eqb Pos.eqb].
  - rewrite (copy_cstr_field 255 s pad p (off + 8)); [done|lia| |done]. rewrite D by lia. done.
  - rewrite (copy_cstr_field 63 s pad p (off + 8)); [done|lia| |done]. rewrite D by lia. done.
  - cbn [mb_mods apply_tag]. destruct (MAX_MODS <=? _); [done|]. destruct Hok as (Ha & Hb & Hs).
    rewrite (G 8 4%nat (le_bytes 4 a) _ ltac:(lia) eq_refl eq_refl), bind_ret.
    rewrite (G 12 4%nat (le_bytes 4 b) _ ltac:(lia) eq_refl eq_refl), bind_ret.
    rewrite (copy_cstr_field 63 s pad p (off + 16)); [|lia| |done].
    + by rewrite bind_ret, !le4.
    + rewrite D by lia. done.
  - destruct Hok as [Hl Hu].
    rewrite (G 8 4%nat (le_bytes 4 l) _ ltac:(lia) eq_refl eq_refl), bind_ret.
    rewrite (G 12 4%nat (le_bytes 4 u) _ ltac:(lia) eq_refl eq_refl), bind_ret. by rewrite !le4.
  - rewrite (G 8 4%nat (le_bytes 4 24) _ ltac:(lia) eq_refl eq_refl), bind_ret. rewrite le4 by done.
    rewrite (mmap_entries_spec _ p (off + 16) es pad); [done|lia| | |done].
    + rewrite D by lia. done.
    + unfold tag_size. cbn [tag_body]. rewrite !length_app, !length_le_bytes.
      assert (length (es ≫= entry_bytes) = 24 * length es)%nat as ->; [|lia].
      clear. induction es as [|e es IH]; [done|]. rewrite bind_cons, length_app, IH. cbn. lia.
  - destruct Hok as (H1 & H2 & H3 & H4).
    rewrite (G 8 8%nat (le_bytes 8 addr) _ ltac:(lia) eq_refl eq_refl), bind_ret.
    rewrite (G 16 4%nat (le_bytes 4 pitch) _ ltac:(lia) eq_refl eq_refl), bind_ret.
    rewrite (G 20 4%nat (le_bytes 4 w) _ ltac:(lia) eq_refl eq_refl), bind_ret.
    rewrite (G 24 4%nat (le_bytes 4 h) _ ltac:(lia) eq_refl eq_refl), bind_ret.
    rewrite (B 28 bpp _ ltac:(lia) eq_refl), (B 29 ty _ ltac:(lia) eq_refl), (B 30 (b_pos c) _ ltac:(lia) eq_refl),
      (B 31 (b_sz c) _ ltac:(lia) eq_refl), (B 32 (g_pos c) _ ltac:(lia) eq_refl), (B 33 (g_sz c) _ ltac:(lia) eq_refl),
      (B 34 (r_pos c) _ ltac:(lia) eq_refl), (B 35 (r_sz c) _ ltac:(lia) eq_refl).
    rewrite !bind_ret, le8, !le4 by done.
    change (38 <=? tag_size (TFramebuffer addr pitch w h bpp ty c)) with false. rewrite andb_false_r, bind_ret.
    by destruct c.
  - destruct Hok as [_ Hno]. rewrite !not_elem_of_cons in Hno. destruct Hno as (? & ? & ? & ? & ? & ? & ? & _).
    by rewrite !(proj2 (Z.eqb_neq _ _)) by done.
Qed.

Lemma align8_spec x : 0 <= x < 2 ^ 32 - 7 -> Z.land (u32 (x + 7)) (u32 (Z.lnot 7)) = x + (- x) mod 8.
Proof.
  intros Hx. rewrite u32_small by lia.
  assert (Z.land (x + 7) (u32 (Z.lnot 7)) = (x + 7) / 2 ^ 3 * 2 ^ 3) as ->.
  { unfold u32. rewrite <- Z.land_ones by lia.
    rewrite Z.land_comm, <- Z.land_assoc, (Z.land_comm (Z.ones 32)), Z.land_ones, Z.mod_small by lia.
    change 7 with (Z.ones 3) at 1. rewrite Z.land_comm, <- Z.ldiff_land, Z.ldiff_ones_r by lia.
    by rewrite Z.shiftl_mul_pow2, Z.shiftr_div_pow2 by lia. }
  change (2 ^ 3) with 8. ilia.
Qed.

Lemma length_tag_bytes t : Z.of_nat (length (tag_bytes t)) = tag_size t + (- tag_size t) mod 8.
Proof.
  unfold tag_bytes. rewrite !length_app, !length_le_bytes, length_replicate. unfold tag_size.
  pose proof (Z.mod_pos_bound (- (8 + Z.of_nat (length (tag_body t)))) 8). lia.
Qed.

(** The information structure: header, tags, end tag. *)
Definition mbi_bytes (ts : list tag) : list Z :=
  let body := ts ≫= tag_bytes in
  le_bytes 4 (16 + Z.of_nat (length body)) ++ le_bytes 4 0 ++ body ++ le_bytes 4 0 ++ le_bytes 4 8.

Lemma tag_type_ok t : tag_ok t -> tag_type t <> 0 /\ is32 (tag_type t).
Proof.
  destruct t; cbn; unfold is32; try lia. rewrite !not_elem_of_cons. tauto.
Qed.

Lemma mb2_round_tag t p off rest m total :
  0 <= off -> drop (Z.to_nat off) p = tag_bytes t ++ rest -> tag_ok t ->
  off + Z.of_nat (length (tag_bytes t)) <= total -> total < 2 ^ 32 - 7 ->
  mb2_round p total (off, m) = Ret (inl (off + Z.of_nat (length (tag_bytes t)), apply_tag m t)).
Proof.
  intros Hoff E Hok Hle Htot. destruct (tag_type_ok t Hok) as [Hty H32].
  rewrite length_tag_bytes in *. pose proof (Z.mod_pos_bound (- tag_size t) 8).
  assert (8 <= tag_size t) by (unfold tag_size; lia).
  unfold mb2_round. rewrite (proj2 (Z.leb_le _ _)) by lia.
  pose proof E as E'. unfold tag_bytes in E'. rewrite <- !app_assoc in E'.
  pose proof (get_field p off _ E' Hoff) as G. rewrite <- (Z.add_0_r off) at 1.
  rewrite (G 0 4%nat (le_bytes 4 (tag_type t)) _ ltac:(lia) eq_refl eq_refl), bind_ret.
  rewrite (G 4 4%nat (le_bytes 4 (tag_size t)) _ ltac:(lia) eq_refl eq_refl), bind_ret.
  rewrite !le4 by (done || (unfold is32; lia)).
  rewrite (proj2 (Z.ltb_ge _ _)), (proj2 (Z.eqb_neq _ _)) by lia.
  rewrite (tag_body_spec t p off rest m) by done. rewrite bind_ret, align8_spec, u32_small by lia. done.
Qed.

Lemma mb2_round_end p off m rest total :
  0 <= off -> drop (Z.to_nat off) p = le_bytes 4 0 ++ le_bytes 4 8 ++ rest ->
  mb2_round p total (off, m) = Ret (inr m).
Proof.
  intros Hoff E. pose proof (get_field p off _ E Hoff) as G. unfold mb2_round. destruct (_ <=? _); [|done].
  rewrite <- (Z.add_0_r off) at 1.
  rewrite (G 0 4%nat (le_bytes 4 0) _ ltac:(lia) eq_refl eq_refl), bind_ret.
  rewrite (G 4 4%nat (le_bytes 4 8) _ ltac:(lia) eq_refl eq_refl), bind_ret. done.
Qed.

(** The tags still to be read at [off], of those that lead to [r]. *)
Definition tags_left (p : list Z) (total : Z) (r : multiboot_info) (st : Z * multiboot_info) : Prop :=
  exists ts, let body := ts ≫= tag_bytes in
    0 <= st.1 /\ st.1 + Z.of_nat (length body) + 8 = total /\ Forall tag_ok ts /\
    drop (Z.to_nat st.1) p = body ++ le_bytes 4 0 ++ le_bytes 4 8 ++ [] /\ fold_left apply_tag ts st.2 = r.

Lemma tags_left_round p total r st :
  total < 2 ^ 32 - 7 -> tags_left p total r st ->
  (exists st', mb2_round p total st = Ret (inl st') /\ tags_left p total r st' /\ 0 <= total - st'.1 < total - st.1) \/
  (exists m, mb2_round p total st = Ret (inr m) /\ m = r).
Proof.
  intros Htot (ts & Hoff & Hend & Hok & E & Hr). destruct st as [off m]; cbn [fst snd] in *.
  destruct ts as [|t ts].
  { right. exists m. by rewrite (mb2_round_end p off m []). }
  apply Forall_cons in Hok as [Ht Hok]. rewrite bind_cons, <- app_assoc in E. rewrite bind_cons, length_app in Hend.
  pose proof (length_tag_bytes t) as Hlen. pose proof (Z.mod_pos_bound (- tag_size t) 8).
  assert (8 <= tag_size t) by (unfold tag_size; lia).
  left. eexists. rewrite (mb2_round_tag t p off _ m total Hoff E Ht) by lia. split; [done|]. cbn [fst snd].
  split; [|lia]. exists ts. cbn [fst snd]. split; [lia|]. split; [lia|]. split; [done|]. split; [|done].
  rewrite (drop_field p off _ E Hoff), Nat2Z.id by lia. by rewrite drop_app_length.
Qed.

(** C11: What a boot loader writes, the kernel reads: the information structure
    that encodes a list of tags (command line, loader name, modules, memory
    sizes, memory map, frame buffer and tags of other types, of any lengths,
    padded to eight bytes) is parsed to what its tags say, applied in order,
    with the limits of the kernel's arrays (255 and 63 characters, 8 modules,
    64 memory map entries); the loop ends and stays inside the bytes. *)
Theorem multiboot2_parse_tags ts :
  Forall tag_ok ts -> Z.of_nat (length (mbi_bytes ts)) < 2 ^ 32 - 7 ->
  multiboot2_parse (Some (mbi_bytes ts)) = Ret (fold_left apply_tag ts mbi_empty).
Proof.
  intros Hok Hlen. set (body := ts ≫= tag_bytes).
  assert (Z.of_nat (length (mbi_bytes ts)) = 16 + Z.of_nat (length body)) as Hl.
  { unfold mbi_bytes. rewrite !length_app, !length_le_bytes. fold body. lia. }
  rewrite Hl in Hlen. set (p := mbi_bytes ts) in *. unfold multiboot2_parse.
  assert (p = le_bytes 4 (16 + Z.of_nat (length body)) ++ le_bytes 4 0 ++ body ++ le_bytes 4 0 ++ le_bytes 4 8 ++ [])
    as E by (by rewrite app_nil_r).
  pose proof (get_field p 0 _ E ltac:(lia) 0 4 (le_bytes 4 (16 + Z.of_nat (length body))) _ ltac:(lia) eq_refl eq_refl)
    as Htotal. rewrite Z.add_0_l in Htotal.
  rewrite Htotal, bind_ret, le4 by (unfold is32; lia).
  destruct (loop_total (tags_left p (16 + Z.of_nat (length body)) (fold_left apply_tag ts mbi_empty))
    (fun m => m = fold_left apply_tag ts mbi_empty) (fun st => 16 + Z.of_nat (length body) - st.1)
    (mb2_round p (16 + Z.of_nat (length body))) (8, mbi_empty)) as (m & -> & ->); [| | |done].
  - intros st. apply tags_left_round. done.
  - exists ts. cbn [fst snd]. split; [lia|]. split; [fold body; lia|]. split; [done|]. split; [|done].
    rewrite E. done.
  - cbn [fst]. lia.
Qed.

Definition demo_tags : list tag :=
  [TCmdline (str "-v debug=1"); TName (str "GRUB 2"); TModule 0x100000 0x180000 (str "initrd"); TMeminfo 639 130048;
   TOther 9 [1; 2; 3]; TMmap [mkMmap 0 0x9fc00 1; mkMmap 0x100000 0x7ee0000 1]; TFramebuffer 0xfd000000 4096 1024 768 32 1 (mkCh 16 8 8 8 0 8)].

Lemma multiboot2_parse_tags_witness :
  multiboot2_parse (Some (mbi_bytes demo_tags)) =
  Ret (mkMbi 0x124d 639 130048 (Some (str "-v debug=1")) (Some (str "GRUB 2")) [mkMod 0x100000 0x180000 (str "initrd")]
    [mkMmap 0 0x9fc00 1; mkMmap 0x100000 0x7ee0000 1] (mkFb 0xfd000000 4096 1024 768 32 1 (Some (mkCh 16 8 8 8 0 8)))).
Proof.
  rewrite (multiboot2_parse_tags demo_tags).
  - reflexivity.
  - unfold demo_tags, is32, is64.
    repeat (apply Forall_cons; split); try apply Forall_nil_2; cbn [tag_ok]; unfold is32, is64; cbn; try (split_and!; try lia).
    all: repeat first [apply Forall_nil_2 | apply Forall_cons; split]; try reflexivity; try (split; reflexivity).
    rewrite !not_elem_of_cons. split_and!; try lia. apply not_elem_of_nil.
  - vm_compute. reflexivity.
Defined.

(** A tag whose size is within 7 of 2^32 advances the loop by nothing: the
    kernel never boots.  ([off += (size + 7) & ~7] wraps to [off += 0].) *)
Theorem multiboot2_hangs p total :
  16 <= total -> get p 0 4 = Ret total -> get p 8 4 = Ret 9 -> get p 12 4 = Ret 0xFFFFFFFF ->
  multiboot2_parse (Some p) = Spin.
Proof.
  intros Ht E0 E8 E12. unfold multiboot2_parse. rewrite E0, bind_ret.
  apply (loop_forever (fun st => st = (8, mbi_empty))); [|done].
  intros st ->. exists (8, mbi_empty). split; [|done]. unfold mb2_round.
  rewrite (proj2 (Z.leb_le _ _)) by lia. rewrite E8, bind_ret. change (8 + 4) with 12. rewrite E12. done.
Qed.
