(* ===== verification/Pci.v ===== *)
(** * iokit/IOPCIFamily/pci.c: enumeration of the PCI functions

    The configuration space is a parameter, read a doubleword at a time through
    the address that the code builds.  Shown: whatever the space holds, bridges
    in cycles included, the scan ends and lists every visible function of every
    reachable bus exactly once; and what is visible depends on the cache line
    size where the code means the header type. *)

From S2P Require Import Prelude.

Definition PCI_CONFIG_ADDR : Z := 0xCF8.
Definition PCI_CONFIG_DATA : Z := 0xCFC.
Definition PCI_MAX_BUSES : Z := 256.
Definition PCI_MAX_DEVICES : Z := 32.
Definition PCI_MAX_FUNCTIONS : Z := 8.
Definition PCI_MAX_DETECTED : nat := 512.
Definition PCI_VENDOR_ID : Z := 0x00.
Definition PCI_REVISION_ID : Z := 0x08.
Definition PCI_HEADER_TYPE : Z := 0x0E.
Definition PCI_BAR0 : Z := 0x10.
Definition PCI_SECONDARY_BUS : Z := 0x19.
Definition PCI_INTERRUPT_LINE : Z := 0x3C.
Definition PCI_CLASS_BRIDGE : Z := 0x06.
Definition PCI_SUBCLASS_PCI_BRIDGE : Z := 0x04.

Record pci_device := mkPci
  { pd_bus : Z; pd_dev : Z; pd_func : Z; vendor_id : Z; device_id : Z; class_code : Z; subclass : Z;
    progif : Z; header_type : Z; bar : list Z; irq_line : Z; present : Z }.

(** The detected devices, [g_pci_count] of them, and the bit map of the buses
    that have been scanned. *)
Record pci := mkPciState { g_pci_devices : list pci_device; g_scanned_buses : list Z }.

Definition config_addr (bus dev func offset : Z) : Z :=
  u32 (Z.lor (Z.lor (Z.lor (Z.lor (Z.shiftl bus 16) (Z.shiftl dev 11)) (Z.shiftl func 8)) (Z.land offset 0xFC)) 0x80000000).

(** A write of a doubleword to a port. *)
Inductive port_write := OutL (port value : Z).

Definition pci_config_write (bus dev func offset val : Z) : list port_write :=
  [OutL PCI_CONFIG_ADDR (config_addr bus dev func offset); OutL PCI_CONFIG_DATA val].

Section Scan.
(** What the data port returns after the address has been written. *)
Context (space : Z -> Z).

Definition pci_config_read (bus dev func offset : Z) : Z := space (config_addr bus dev func offset).

Definition pci_config_read_byte (bus dev func offset : Z) : Z :=
  Z.land (Z.shiftr (pci_config_read bus dev func offset) (Z.land offset 3 * 8)) 0xFF.

Definition pci_add_device (bus dev func : Z) (s : pci) : pci :=
  if (PCI_MAX_DETECTED <=? length (g_pci_devices s))%nat then s
  else
    let id := pci_config_read bus dev func PCI_VENDOR_ID in
    let class_rev := pci_config_read bus dev func PCI_REVISION_ID in
    let hdr := pci_config_read bus dev func PCI_HEADER_TYPE in
    let header_type := Z.land hdr 0xFF in
    let plain := Z.land header_type 0x7F =? 0 in
    let pd := mkPci bus dev func (Z.land id 0xFFFF) (Z.land (Z.shiftr id 16) 0xFFFF)
      (Z.land (Z.shiftr class_rev 24) 0xFF) (Z.land (Z.shiftr class_rev 16) 0xFF) (Z.land (Z.shiftr class_rev 8) 0xFF)
      header_type
      (if plain then (fun i => pci_config_read bus dev func (PCI_BAR0 + i * 4)) <$> seqZ 0 6 else replicate 6 0)
      (if plain then Z.land (pci_config_read bus dev func PCI_INTERRUPT_LINE) 0xFF else 0) 1 in
    mkPciState (g_pci_devices s ++ [pd]) (g_scanned_buses s).

(** The functions below get the scan of a bus, which they call, as [scan]. *)
Definition pci_check_function (scan : Z -> pci -> run pci) (bus dev func : Z) (s : pci) : run pci :=
  let class_rev := pci_config_read bus dev func PCI_REVISION_ID in
  let class_code := Z.land (Z.shiftr class_rev 24) 0xFF in
  let subclass := Z.land (Z.shiftr class_rev 16) 0xFF in
  let s := pci_add_device bus dev func s in
  if (class_code =? PCI_CLASS_BRIDGE) && (subclass =? PCI_SUBCLASS_PCI_BRIDGE) then
    let hdr := pci_config_read_byte bus dev func PCI_HEADER_TYPE in
    if Z.land hdr 0x7F =? 0x01 then
      let secondary := pci_config_read_byte bus dev func PCI_SECONDARY_BUS in
      if secondary =? 0 then Ret s else scan secondary s
    else Ret s
  else Ret s.

Fixpoint check_functions (scan : Z -> pci -> run pci) (bus dev : Z) (multifunc : bool) (fs : list Z) (s : pci) : run pci :=
  match fs with
  | [] => Ret s
  | func :: fs =>
      if pci_config_read bus dev func PCI_VENDOR_ID =? 0xFFFFFFFF then check_functions scan bus dev multifunc fs s
      else
        s ← pci_check_function scan bus dev func s;
        if multifunc then check_functions scan bus dev multifunc fs s else Ret s
  end.

Definition pci_check_device (scan : Z -> pci -> run pci) (bus dev : Z) (s : pci) : run pci :=
  if pci_config_read bus dev 0 PCI_VENDOR_ID =? 0xFFFFFFFF then Ret s
  else
    let hdr := pci_config_read bus dev 0 PCI_HEADER_TYPE in
    let multifunc := negb (Z.land hdr 0x80 =? 0) in
    check_functions scan bus dev multifunc (seqZ 0 PCI_MAX_FUNCTIONS) s.

Fixpoint check_devices (scan : Z -> pci -> run pci) (bus : Z) (ds : list Z) (s : pci) : run pci :=
  match ds with
  | [] => Ret s
  | dev :: ds => s ← pci_check_device scan bus dev s; check_devices scan bus ds s
  end.

Definition map_byte (s : pci) (bus : Z) : run Z := of_option (g_scanned_buses s !! Z.to_nat (Z.shiftr bus 3)).
Definition bus_bit (bus : Z) : Z := Z.shiftl 1 (Z.land bus 7).

(** The fuel bounds the nesting of bridges. *)
Fixpoint pci_scan_bus (fuel : nat) (bus : Z) (s : pci) : run pci :=
  match fuel with
  | O => Spin
  | S fuel =>
      b ← map_byte s bus;
      if negb (Z.land b (bus_bit bus) =? 0) then Ret s
      else
        let marked := <[Z.to_nat (Z.shiftr bus 3) := u8 (Z.lor b (bus_bit bus))]> (g_scanned_buses s) in
        check_devices (pci_scan_bus fuel) bus (seqZ 0 PCI_MAX_DEVICES) (mkPciState (g_pci_devices s) marked)
  end.

Fixpoint scan_buses (fuel : nat) (bs : list Z) (s : pci) : run pci :=
  match bs with
  | [] => Ret s
  | b :: bs => s ← pci_scan_bus fuel b s; scan_buses fuel bs s
  end.

(** A bridge on every bus cannot nest deeper than there are buses. *)
Definition SCAN_FUEL : nat := 257.

Definition pci_scan : run (Z * pci) :=
  let s := mkPciState [] (replicate 32 0) in
  let hdr := pci_config_read 0 0 0 PCI_HEADER_TYPE in
  s ← (if Z.land hdr 0x80 =? 0 then pci_scan_bus SCAN_FUEL 0 s else scan_buses SCAN_FUEL (seqZ 0 PCI_MAX_BUSES) s);
  Ret (Z.of_nat (length (g_pci_devices s)), s).
End Scan.

Definition pci_find_class (class subclass' progif' : Z) (s : pci) : option (Z * Z * Z) :=
  (fun pd => (pd_bus pd, pd_dev pd, pd_func pd)) <$>
  List.find (fun pd => (class_code pd =? class) && (subclass pd =? subclass') && ((progif' =? 0xFF) || (progif pd =? progif')))
    (g_pci_devices s).

Definition pci_find_vendev (vendor device : Z) (s : pci) : option pci_device :=
  List.find (fun pd => (vendor_id pd =? vendor) && (device_id pd =? device)) (g_pci_devices s).

Definition pci_device_count (s : pci) : Z := Z.of_nat (length (g_pci_devices s)).

Definition pci_get_device (index : Z) (s : pci) : option pci_device :=
  if (index <? 0) || (pci_device_count s <=? index) then None else g_pci_devices s !! Z.to_nat index.

(** ** What the code reads *)

(** A function: bus, device, number. *)
Definition fn : Type := Z * Z * Z.
Definition on_bus (x : fn) : Z := x.1.1.

Section Found.
Context (space : Z -> Z).
Local Abbreviation rd := (pci_config_read space).

Definition responds (b d f : Z) : Prop := rd b d f PCI_VENDOR_ID <> 0xFFFFFFFF.

(** The code's notion of a device with several functions. *)
Definition multi (b d : Z) : bool := negb (Z.land (rd b d 0 PCI_HEADER_TYPE) 0x80 =? 0).

Definition visible (x : fn) : Prop :=
  let '(b, d, f) := x in
  0 <= d < 32 /\ 0 <= f < 8 /\ responds b d 0 /\ responds b d f /\ (multi b d = true \/ f = 0).

(** The function is a bridge to the bus [b']. *)
Definition bridges (x : fn) (b' : Z) : Prop :=
  let '(b, d, f) := x in
  Z.land (Z.shiftr (rd b d f PCI_REVISION_ID) 24) 0xFF = PCI_CLASS_BRIDGE /\
  Z.land (Z.shiftr (rd b d f PCI_REVISION_ID) 16) 0xFF = PCI_SUBCLASS_PCI_BRIDGE /\
  Z.land (pci_config_read_byte space b d f PCI_HEADER_TYPE) 0x7F = 1 /\
  b' = pci_config_read_byte space b d f PCI_SECONDARY_BUS /\ b' <> 0.

Definition edge (b b' : Z) : Prop := exists x, on_bus x = b /\ visible x /\ bridges x b'.
Definition reach : Z -> Z -> Prop := rtc edge.

(** The entry that the table gets for a function. *)
Definition entry_read (x : fn) : pci_device :=
  let '(b, d, f) := x in
  let header_type := Z.land (rd b d f PCI_HEADER_TYPE) 0xFF in
  let plain := Z.land header_type 0x7F =? 0 in
  mkPci b d f (Z.land (rd b d f PCI_VENDOR_ID) 0xFFFF) (Z.land (Z.shiftr (rd b d f PCI_VENDOR_ID) 16) 0xFFFF)
    (Z.land (Z.shiftr (rd b d f PCI_REVISION_ID) 24) 0xFF) (Z.land (Z.shiftr (rd b d f PCI_REVISION_ID) 16) 0xFF)
    (Z.land (Z.shiftr (rd b d f PCI_REVISION_ID) 8) 0xFF) header_type
    (if plain then (fun i => rd b d f (PCI_BAR0 + i * 4)) <$> seqZ 0 6 else replicate 6 0)
    (if plain then Z.land (rd b d f PCI_INTERRUPT_LINE) 0xFF else 0) 1.

(** ** The bit map *)

Definition is_bus (b : Z) : Prop := 0 <= b < 256.

Definition scanned (s : pci) (b : Z) : bool :=
  match g_scanned_buses s !! Z.to_nat (Z.shiftr b 3) with Some v => Z.testbit v (Z.land b 7) | None => false end.

Definition map_ok (s : pci) : Prop := length (g_scanned_buses s) = 32%nat.

Lemma bus_split b : is_bus b -> Z.shiftr b 3 = b / 8 /\ Z.land b 7 = b mod 8 /\ 0 <= b / 8 < 32 /\ 0 <= b mod 8 < 8.
Proof.
  intros Hb. unfold is_bus in Hb. change 7 with (Z.ones 3). rewrite Z.shiftr_div_pow2, Z.land_ones by lia.
  change (2 ^ 3) with 8. split_and!; try done; try apply Z.mod_pos_bound; try lia.
  all: Z.div_mod_to_equations; lia.
Qed.

Lemma map_byte_ok s b : map_ok s -> is_bus b -> exists v, map_byte s b = Ret v /\
  g_scanned_buses s !! Z.to_nat (Z.shiftr b 3) = Some v.
Proof.
  intros Hs Hb. destruct (bus_split b Hb) as (E & _ & H1 & _). unfold map_byte.
  destruct (lookup_lt_is_Some_2 (g_scanned_buses s) (Z.to_nat (Z.shiftr b 3))) as [v Hv].
  { rewrite Hs, E. lia. }
  exists v. by rewrite Hv.
Qed.

Definition mark (b v : Z) (s : pci) : pci :=
  mkPciState (g_pci_devices s) (<[Z.to_nat (Z.shiftr b 3) := u8 (Z.lor v (bus_bit b))]> (g_scanned_buses s)).

Lemma scanned_mark s b v b' :
  map_ok s -> is_bus b -> is_bus b' -> g_scanned_buses s !! Z.to_nat (Z.shiftr b 3) = Some v ->
  scanned (mark b v s) b' = scanned s b' || bool_decide (b' = b).
Proof.
  intros Hs Hb Hb' Hv. destruct (bus_split b Hb) as (E1 & E2 & H1 & H2).
  destruct (bus_split b' Hb') as (E1' & E2' & H1' & H2').
  unfold scanned, mark. cbn [g_scanned_buses]. rewrite E1 in *. rewrite E1', E2'.
  destruct (decide (b / 8 = b' / 8)) as [Hq|Hq].
  - rewrite <- Hq, list_lookup_insert_eq by (rewrite Hs; lia). rewrite Hv.
    unfold u8, bus_bit. rewrite Z.mod_pow2_bits_low, Z.lor_spec by lia. f_equal.
    rewrite E2, Z.shiftl_1_l, Z.pow2_bits_eqb by lia.
    apply Bool.eq_iff_eq_true. rewrite Z.eqb_eq, bool_decide_eq_true. split; intros; [|subst; done].
    rewrite (Z.div_mod b 8), (Z.div_mod b' 8) by lia. congruence.
  - rewrite list_lookup_insert_ne by lia. rewrite bool_decide_eq_false_2 by congruence. by rewrite orb_false_r.
Qed.

Lemma mark_ok s b v : map_ok s -> map_ok (mark b v s).
Proof. unfold map_ok, mark. cbn. by rewrite length_insert. Qed.

(** How many buses are left. *)
Definition left (s : pci) : nat := length (filter (fun b => scanned s b = false) (seqZ 0 256)).

Lemma left_mark s b v :
  map_ok s -> is_bus b -> g_scanned_buses s !! Z.to_nat (Z.shiftr b 3) = Some v -> scanned s b = false ->
  (left (mark b v s) < left s)%nat.
Proof.
  intros Hs Hb Hv Hf. apply (filter_length_lt _ _ _ b).
  - intros x Hx. apply elem_of_seqZ in Hx. rewrite (scanned_mark s b v x) by (done || unfold is_bus; lia).
    by intros [? _]%orb_false_iff.
  - apply elem_of_seqZ. unfold is_bus in Hb. lia.
  - done.
  - rewrite (scanned_mark s b v b) by done. rewrite bool_decide_eq_true_2, orb_true_r by done. done.
Qed.

(** ** The search *)

(** From [s] to [s'], the functions [F] of buses already marked and every
    visible function of the newly marked buses [N] have been listed, as [L];
    the new buses are in [src]. *)
Record explored (src : Z -> Prop) (F : list fn) (s s' : pci) (L : list fn) (N : list Z) : Prop := mkExplored
  { ex_map : map_ok s';
    ex_devs : g_pci_devices s' = take PCI_MAX_DETECTED (g_pci_devices s ++ (entry_read <$> L));
    ex_marks : forall b, is_bus b -> scanned s' b = scanned s b || bool_decide (b ∈ N);
    ex_new : forall b, b ∈ N -> is_bus b /\ scanned s b = false;
    ex_list : forall x, x ∈ L <-> x ∈ F \/ (on_bus x ∈ N /\ visible x);
    ex_nodup : NoDup L;
    ex_next : forall x b, x ∈ L -> bridges x b -> scanned s' b = true;
    ex_reach : forall b, b ∈ N -> src b }.

Lemma bridge_bus x b : bridges x b -> is_bus b.
Proof.
  destruct x as [[bb d] f]. intros (_ & _ & _ & -> & _). unfold is_bus, pci_config_read_byte.
  apply (land_bound _ _ 8); lia.
Qed.

Lemma explored_none src s : map_ok s -> (length (g_pci_devices s) <= PCI_MAX_DETECTED)%nat -> explored src [] s s [] [].
Proof.
  intros Hs Hl. constructor; try done.
  - rewrite app_nil_r, take_ge by done. done.
  - intros b _. by rewrite bool_decide_eq_false_2, orb_false_r by apply not_elem_of_nil.
  - intros b Hb. by apply elem_of_nil in Hb.
  - intros x. rewrite !elem_of_nil. tauto.
  - constructor.
  - intros x b Hx. by apply elem_of_nil in Hx.
  - intros b Hb. by apply elem_of_nil in Hb.
Qed.

Lemma explored_mono src F s s' L N b : explored src F s s' L N -> is_bus b -> scanned s b = true -> scanned s' b = true.
Proof. intros E Hb H. by rewrite (ex_marks _ _ _ _ _ _ E b Hb), H. Qed.

(** Two searches in a row. *)
Lemma explored_app src F1 F2 s s1 s2 L1 L2 N1 N2 :
  explored src F1 s s1 L1 N1 -> explored src F2 s1 s2 L2 N2 ->
  (forall x, x ∈ F1 \/ x ∈ F2 -> is_bus (on_bus x) /\ scanned s (on_bus x) = true) ->
  (forall x, x ∈ F1 -> x ∉ F2) ->
  explored src (F1 ++ F2) s s2 (L1 ++ L2) (N1 ++ N2).
Proof.
  intros E1 E2 HF Hdis. pose proof E1 as [M1 D1 S1 W1 I1 U1 X1 R1]. pose proof E2 as [M2 D2 S2 W2 I2 U2 X2 R2].
  assert (forall b, b ∈ N2 -> is_bus b /\ scanned s b = false /\ b ∉ N1) as HN2.
  { intros b Hb. destruct (W2 b Hb) as [H1 H2]. rewrite (S1 b H1), orb_false_iff, bool_decide_eq_false in H2. tauto. }
  assert (forall x, x ∈ F1 \/ x ∈ F2 -> (on_bus x ∉ N1) /\ (on_bus x ∉ N2)) as HFN.
  { intros x Hx. destruct (HF x Hx) as [_ Hm]. split; intros Hn.
    - destruct (W1 _ Hn). congruence.
    - destruct (HN2 _ Hn) as (_ & ? & _). congruence. }
  constructor.
  - done.
  - rewrite D2, D1, fmap_app, app_assoc. set (l1 := g_pci_devices s ++ _).
    destruct (decide (length l1 <= PCI_MAX_DETECTED)%nat).
    + by rewrite (take_ge l1).
    + rewrite !take_app_le by (rewrite ?length_take; lia). rewrite take_take. f_equal.
  - intros b Hb. rewrite (S2 b Hb), (S1 b Hb), <- orb_assoc. f_equal.
    apply Bool.eq_iff_eq_true. rewrite orb_true_iff, !bool_decide_eq_true, elem_of_app. done.
  - intros b [Hb|Hb]%elem_of_app; [by apply W1|]. destruct (HN2 b Hb) as (? & ? & _). done.
  - intros x. rewrite !elem_of_app, I1, I2. tauto.
  - apply NoDup_app. split_and!; [done| |done]. intros x H1 H2. apply I1 in H1. apply I2 in H2.
    destruct H1 as [H1|[H1 _]], H2 as [H2|[H2 _]].
    + exact (Hdis x H1 H2).
    + exact (proj2 (HFN x (or_introl H1)) H2).
    + exact (proj1 (HFN x (or_intror H2)) H1).
    + destruct (HN2 _ H2) as (_ & _ & Hn). exact (Hn H1).
  - intros x b [Hx|Hx]%elem_of_app Hbr; [|by eapply X2].
    eapply explored_mono; [exact E2|by eapply bridge_bus|by eapply X1].
  - intros b [Hb|Hb]%elem_of_app; auto.
Qed.

(** What the scan of a bus does, from any state with fewer than [k] buses left. *)
Definition scans (k : nat) (scan : Z -> pci -> run pci) : Prop :=
  forall b s, is_bus b -> map_ok s -> (length (g_pci_devices s) <= PCI_MAX_DETECTED)%nat -> (left s < k)%nat ->
  exists s' L N, scan b s = Ret s' /\ explored (reach b) [] s s' L N /\ scanned s' b = true.

Lemma explored_left src F s s' L N : explored src F s s' L N -> (left s' <= left s)%nat.
Proof.
  intros E. apply filter_length_le. intros x Hx. apply elem_of_seqZ in Hx.
  rewrite (ex_marks _ _ _ _ _ _ E) by (unfold is_bus; lia). by intros [? _]%orb_false_iff.
Qed.

Lemma explored_length src F s s' L N : explored src F s s' L N -> (length (g_pci_devices s') <= PCI_MAX_DETECTED)%nat.
Proof. intros E. rewrite (ex_devs _ _ _ _ _ _ E), length_take. lia. Qed.

Lemma add_device_spec x s :
  (length (g_pci_devices s) <= PCI_MAX_DETECTED)%nat ->
  let '(b, d, f) := x in
  pci_add_device space b d f s = mkPciState (take PCI_MAX_DETECTED (g_pci_devices s ++ [entry_read x])) (g_scanned_buses s).
Proof.
  destruct x as [[b d] f]. intros Hl. unfold pci_add_device. destruct (Nat.leb_spec PCI_MAX_DETECTED (length (g_pci_devices s))).
  - rewrite take_app_le, take_ge by lia. by destruct s.
  - rewrite take_ge by (rewrite length_app; cbn; lia). done.
Qed.

(** A function is listed, then the bus behind it searched. *)
Definition added (x : fn) (s : pci) : pci :=
  mkPciState (take PCI_MAX_DETECTED (g_pci_devices s ++ [entry_read x])) (g_scanned_buses s).

Lemma explored_added src src' x s s' L N :
  explored src' [] (added x s) s' L N -> is_bus (on_bus x) -> scanned s (on_bus x) = true ->
  (forall b, b ∈ N -> src b) -> (forall b, bridges x b -> scanned s' b = true) ->
  explored src [x] s s' (x :: L) N.
Proof.
  intros E Hb Hm Hr Hbr. pose proof E as [M D S W I U X _].
  assert (forall b, scanned (added x s) b = scanned s b) as Hadd by done.
  constructor; try done.
  - rewrite D. cbn [added g_pci_devices]. set (l1 := g_pci_devices s ++ [entry_read x]).
    change (entry_read <$> x :: L) with ([entry_read x] ++ (entry_read <$> L)).
    rewrite app_assoc. fold l1. destruct (decide (length l1 <= PCI_MAX_DETECTED)%nat).
    + by rewrite (take_ge l1).
    + rewrite !take_app_le by (rewrite ?length_take; lia). rewrite take_take. f_equal.
  - intros y. rewrite elem_of_cons, I, elem_of_nil, list_elem_of_singleton. tauto.
  - apply NoDup_cons. split; [|done]. rewrite I, elem_of_nil. intros [[]|[Hn _]].
    destruct (W _ Hn) as [_ Hf]. rewrite Hadd in Hf. congruence.
  - intros y b [->|Hy]%elem_of_cons; [apply Hbr|by apply X].
Qed.

Lemma check_function_spec k scan b d f s :
  scans k scan -> is_bus b -> visible (b, d, f) -> scanned s b = true ->
  map_ok s -> (length (g_pci_devices s) <= PCI_MAX_DETECTED)%nat -> (left s < k)%nat ->
  exists s' L N, pci_check_function space scan b d f s = Ret s' /\ explored (reach b) [(b, d, f)] s s' L N.
Proof.
  intros Hscan Hb Hv Hm Hs Hl Hk. unfold pci_check_function.
  rewrite (add_device_spec (b, d, f) s Hl). fold (added (b, d, f) s).
  assert (length (g_pci_devices (added (b, d, f) s)) <= PCI_MAX_DETECTED)%nat as Hl1 by (cbn [added g_pci_devices]; rewrite length_take; lia).
  assert (Hnone : (forall b', ~ bridges (b, d, f) b') -> exists s' L N,
    Ret (added (b, d, f) s) = Ret s' /\ explored (reach b) [(b, d, f)] s s' L N).
  { intros Hno. eexists _, _, _. split; [done|]. apply (explored_added (reach b) (reach b) _ _ _ [] []); try done.
    - by apply explored_none.
    - intros b' Hb'. by apply elem_of_nil in Hb'.
    - intros b' Hb'. by apply Hno in Hb'. }
  destruct (Z.eqb_spec (Z.land (Z.shiftr (rd b d f PCI_REVISION_ID) 24) 0xFF) PCI_CLASS_BRIDGE) as [C1|C1];
    [|apply Hnone; intros b' (? & _); done].
  destruct (Z.eqb_spec (Z.land (Z.shiftr (rd b d f PCI_REVISION_ID) 16) 0xFF) PCI_SUBCLASS_PCI_BRIDGE) as [C2|C2];
    [|apply Hnone; intros b' (_ & ? & _); done]. cbn [andb].
  destruct (Z.eqb_spec (Z.land (pci_config_read_byte space b d f PCI_HEADER_TYPE) 0x7F) 1) as [C3|C3];
    [|apply Hnone; intros b' (_ & _ & ? & _); done].
  destruct (Z.eqb_spec (pci_config_read_byte space b d f PCI_SECONDARY_BUS) 0) as [C4|C4];
    [apply Hnone; intros b' (_ & _ & _ & -> & ?); done|].
  set (b1 := pci_config_read_byte space b d f PCI_SECONDARY_BUS) in *.
  assert (bridges (b, d, f) b1) as Hbr by done.
  destruct (Hscan b1 (added (b, d, f) s)) as (s' & L & N & -> & E & Hb1); [by eapply bridge_bus|done..|].
  eexists _, _, _. split; [done|]. apply (explored_added (reach b) (reach b1) _ _ _ L N); try done.
  - intros b' Hb'. apply rtc_l with b1; [by exists (b, d, f)|]. by apply (ex_reach _ _ _ _ _ _ E).
  - intros b' (_ & _ & _ & -> & _). done.
Qed.

(** A search of some functions of the bus [b], which is marked. *)
Definition searched (b : Z) (own : fn -> Prop) (s : pci) (r : run pci) : Prop :=
  exists s' F L N, r = Ret s' /\ explored (reach b) F s s' L N /\ forall x, x ∈ F <-> own x.

Lemma searched_none b own s :
  map_ok s -> (length (g_pci_devices s) <= PCI_MAX_DETECTED)%nat -> (forall x, ~ own x) -> searched b own s (Ret s).
Proof.
  intros Hs Hl Hno. exists s, [], [], []. split; [done|]. split; [by apply explored_none|].
  intros x. rewrite elem_of_nil. naive_solver.
Qed.

Lemma searched_iff b own own' s r : (forall x, own x <-> own' x) -> searched b own s r -> searched b own' s r.
Proof. intros H (s' & F & L & N & ? & ? & HF). exists s', F, L, N. split_and!; try done. intros x. by rewrite HF, H. Qed.

Lemma searched_bind b own1 own2 s r g :
  is_bus b -> scanned s b = true -> (forall x, own1 x -> on_bus x = b /\ ~ own2 x) -> (forall x, own2 x -> on_bus x = b) ->
  searched b own1 s r ->
  (forall s1, scanned s1 b = true -> map_ok s1 -> (length (g_pci_devices s1) <= PCI_MAX_DETECTED)%nat ->
     (left s1 <= left s)%nat -> searched b own2 s1 (g s1)) ->
  searched b (fun x => own1 x \/ own2 x) s (x ← r; g x).
Proof.
  intros Hb Hm Ho1 Ho2 (s1 & F1 & L1 & N1 & -> & E1 & HF1) Hg. rewrite bind_ret.
  destruct (Hg s1) as (s2 & F2 & L2 & N2 & -> & E2 & HF2).
  { by eapply explored_mono. } { apply (ex_map _ _ _ _ _ _ E1). } { by eapply explored_length. } { by eapply explored_left. }
  exists s2, (F1 ++ F2), (L1 ++ L2), (N1 ++ N2). split; [done|]. split.
  - eapply explored_app; [exact E1|exact E2| |].
    + intros x [Hx|Hx]; [apply HF1, Ho1 in Hx as [-> _]|apply HF2, Ho2 in Hx as ->]; done.
    + intros x H1 H2. apply HF1, Ho1 in H1 as [_ H1]. by apply HF2 in H2.
  - intros x. by rewrite elem_of_app, HF1, HF2.
Qed.

Definition own_fn (b d : Z) (fs : list Z) (x : fn) : Prop := exists f, f ∈ fs /\ x = (b, d, f) /\ responds b d f.

Lemma check_functions_spec k scan b d fs s :
  scans k scan -> is_bus b -> 0 <= d < 32 -> (forall f, f ∈ fs -> 0 <= f < 8) -> NoDup fs ->
  responds b d 0 -> multi b d = true -> scanned s b = true ->
  map_ok s -> (length (g_pci_devices s) <= PCI_MAX_DETECTED)%nat -> (left s < k)%nat ->
  searched b (own_fn b d fs) s (check_functions space scan b d true fs s).
Proof.
  intros Hscan Hb Hd Hfs Hnd H0 Hmulti. revert s. induction fs as [|f fs IH]; intros s Hm Hs Hl Hk; cbn [check_functions].
  { apply searched_none; try done. intros x (f & Hf & _). by apply elem_of_nil in Hf. }
  apply NoDup_cons in Hnd as [Hf Hnd].
  assert (IH' := IH (fun g Hg => Hfs g (list_elem_of_further _ _ _ Hg)) Hnd). clear IH.
  destruct (Z.eqb_spec (rd b d f PCI_VENDOR_ID) 0xFFFFFFFF) as [Hr|Hr].
  - eapply searched_iff, (IH' s); try done. intros x. unfold own_fn. setoid_rewrite elem_of_cons. split; [naive_solver|].
    intros (g & [->|Hg] & -> & ?); [done|naive_solver].
  - eapply searched_iff; [|apply (searched_bind b (fun x => x = (b, d, f)) (own_fn b d fs))]; try done.
    + intros x. unfold own_fn. setoid_rewrite elem_of_cons. split; [|naive_solver].
      intros [->|(g & ? & ? & ?)]; [exists f; naive_solver|exists g; naive_solver].
    + intros x ->. split; [done|]. intros (g & Hg & [= ->] & _). done.
    + intros x (g & _ & -> & _). done.
    + destruct (check_function_spec k scan b d f s Hscan Hb) as (s' & L & N & -> & E); try done.
      { unfold visible. split_and!; try done; try lia; try (apply Hfs; left). by left. }
      exists s', [(b, d, f)], L, N. split_and!; try done. intros x. by rewrite list_elem_of_singleton.
    + intros s1 Hm1 Hs1 Hl1 Hk1. apply IH'; try done. lia.
Qed.

Lemma check_device_spec k scan b d s :
  scans k scan -> is_bus b -> 0 <= d < 32 -> scanned s b = true ->
  map_ok s -> (length (g_pci_devices s) <= PCI_MAX_DETECTED)%nat -> (left s < k)%nat ->
  searched b (fun x => on_bus x = b /\ x.1.2 = d /\ visible x) s (pci_check_device space scan b d s).
Proof.
  intros Hscan Hb Hd Hm Hs Hl Hk. unfold pci_check_device.
  destruct (Z.eqb_spec (rd b d 0 PCI_VENDOR_ID) 0xFFFFFFFF) as [Hr|Hr].
  { apply searched_none; try done. intros [[b' d'] f] (Ex & Ey & Hv). cbn in Ex, Ey. subst. destruct Hv as (_ & _ & ? & _). done. }
  fold (multi b d). destruct (multi b d) eqn:Hmu.
  - eapply searched_iff, (check_functions_spec k scan b d (seqZ 0 8)); try done.
    + intros [[b' d'] f]. unfold own_fn, visible. cbn. split.
      * intros (g & Hg & [= -> -> ->] & ?). apply elem_of_seqZ in Hg. split_and!; try done; try lia. by left.
      * intros (-> & -> & _ & ? & _ & ? & _). exists f. rewrite elem_of_seqZ. split_and!; try done; lia.
    + intros f Hf%elem_of_seqZ. lia.
    + apply NoDup_seqZ.
  - change (seqZ 0 PCI_MAX_FUNCTIONS) with (0 :: seqZ 1 7). cbn [check_functions]. rewrite (proj2 (Z.eqb_neq _ _)) by done.
    assert (visible (b, d, 0)) as Hv by (unfold visible; split_and!; try done; try lia; by right).
    destruct (check_function_spec k scan b d 0 s Hscan Hb Hv) as (s' & L & N & -> & E); try done.
    rewrite bind_ret. exists s', [(b, d, 0)], L, N. split_and!; try done. intros [[b' d'] f].
    rewrite list_elem_of_singleton. split; [intros [= -> -> ->]; done|]. cbn. intros (-> & -> & _ & _ & _ & _ & [?| ->]); congruence.
Qed.

Lemma check_devices_spec k scan b ds s :
  scans k scan -> is_bus b -> (forall d, d ∈ ds -> 0 <= d < 32) -> NoDup ds -> scanned s b = true ->
  map_ok s -> (length (g_pci_devices s) <= PCI_MAX_DETECTED)%nat -> (left s < k)%nat ->
  searched b (fun x => on_bus x = b /\ x.1.2 ∈ ds /\ visible x) s (check_devices space scan b ds s).
Proof.
  intros Hscan Hb Hds Hnd. revert s. induction ds as [|d ds IH]; intros s Hm Hs Hl Hk; cbn [check_devices].
  { apply searched_none; try done. intros x (_ & Hx & _). by apply elem_of_nil in Hx. }
  apply NoDup_cons in Hnd as [Hd Hnd].
  eapply searched_iff; [|apply (searched_bind b (fun x => on_bus x = b /\ x.1.2 = d /\ visible x)
    (fun x => on_bus x = b /\ x.1.2 ∈ ds /\ visible x))]; try done.
  - intros x. rewrite elem_of_cons. tauto.
  - intros x (? & <- & ?). tauto.
  - tauto.
  - apply (check_device_spec k); try done. apply Hds. left.
  - intros s1 Hm1 Hs1 Hl1 Hk1. apply IH; try done; [|lia]. intros e He. apply Hds. by right.
Qed.

(** The scan of a bus, with more fuel than there are buses left. *)
Lemma scan_bus_spec k : scans k (pci_scan_bus space k).
Proof.
  induction k as [|k IH]; intros b s Hb Hs Hl Hk; [lia|]. cbn [pci_scan_bus].
  destruct (map_byte_ok s b Hs Hb) as (v & -> & Hv). rewrite bind_ret.
  assert ((Z.land v (bus_bit b) =? 0) = negb (scanned s b)) as ->.
  { unfold scanned. rewrite Hv. unfold bus_bit. destruct (bus_split b Hb) as (_ & -> & _ & ?).
    rewrite Z.shiftl_1_l. apply land_bit. lia. }
  destruct (scanned s b) eqn:Hm; cbn [negb].
  { exists s, [], []. split; [done|]. split; [by apply explored_none|done]. }
  fold (mark b v s). pose proof (left_mark s b v Hs Hb Hv Hm) as Hleft.
  assert (forall b', is_bus b' -> scanned (mark b v s) b' = scanned s b' || bool_decide (b' = b)) as Hmk
    by (intros; by apply scanned_mark).
  destruct (check_devices_spec k (pci_scan_bus space k) b (seqZ 0 PCI_MAX_DEVICES) (mark b v s))
    as (s' & F & L & N & -> & E & HF); try done.
  { intros d Hd%elem_of_seqZ. unfold PCI_MAX_DEVICES in Hd. lia. } { apply NoDup_seqZ. }
  { rewrite Hmk by done. rewrite bool_decide_eq_true_2, orb_true_r by done. done. } { by apply mark_ok. } { lia. }
  assert (forall x, x ∈ F <-> on_bus x = b /\ visible x) as HF'.
  { intros x. rewrite HF, elem_of_seqZ. split; [tauto|]. intros [? Hx]. split_and!; try done.
    all: destruct x as [[? ?] ?], Hx as (? & _); cbn; unfold PCI_MAX_DEVICES; lia. }
  pose proof E as [M D S W I U X R]. exists s', L, (b :: N). split; [done|]. split.
  - constructor; try done.
    + intros b' Hb'. rewrite (S b' Hb'), Hmk, <- orb_assoc by done. f_equal.
      apply Bool.eq_iff_eq_true. rewrite orb_true_iff, !bool_decide_eq_true, elem_of_cons. done.
    + intros b' [->|Hb']%elem_of_cons; [done|]. destruct (W b' Hb') as [H1 H2]. rewrite Hmk in H2 by done.
      apply orb_false_iff in H2 as [? _]. done.
    + intros x. rewrite I, HF', elem_of_nil, elem_of_cons. tauto.
    + intros b' [->|Hb']%elem_of_cons; [apply rtc_refl|by apply R].
  - rewrite (S b Hb), Hmk by done. rewrite bool_decide_eq_true_2, orb_true_r by done. done.
Qed.

Lemma explored_weaken (src src' : Z -> Prop) F s s' L N :
  (forall b, src b -> src' b) -> explored src F s s' L N -> explored src' F s s' L N.
Proof. intros H [M D S W I U X R]. constructor; auto. Qed.

Lemma left_bound s : (left s <= 256)%nat.
Proof. unfold left. etrans; [apply length_filter|]. by rewrite length_seqZ. Qed.

Definition from (bs : list Z) (b : Z) : Prop := exists r, r ∈ bs /\ reach r b.

Lemma scan_buses_spec bs s :
  (forall b, b ∈ bs -> is_bus b) -> map_ok s -> (length (g_pci_devices s) <= PCI_MAX_DETECTED)%nat ->
  exists s' L N, scan_buses space SCAN_FUEL bs s = Ret s' /\ explored (from bs) [] s s' L N /\
    forall b, b ∈ bs -> scanned s' b = true.
Proof.
  revert s. induction bs as [|b bs IH]; intros s Hbs Hs Hl; cbn [scan_buses].
  { exists s, [], []. split; [done|]. split; [by apply explored_none|]. intros b Hb. by apply elem_of_nil in Hb. }
  pose proof (left_bound s). destruct (scan_bus_spec SCAN_FUEL b s) as (s1 & L1 & N1 & -> & E1 & Hb1); try done.
  { apply Hbs. left. } { unfold SCAN_FUEL. lia. }
  rewrite bind_ret. destruct (IH s1) as (s2 & L2 & N2 & -> & E2 & Hb2).
  { intros; apply Hbs; by right. } { apply (ex_map _ _ _ _ _ _ E1). } { by eapply explored_length. }
  exists s2, (L1 ++ L2), (N1 ++ N2). split; [done|]. split.
  - apply (explored_app _ [] [] s s1 s2).
    + eapply explored_weaken, E1. intros b' ?. exists b. split; [left|done].
    + eapply explored_weaken, E2. intros b' (r & ? & ?). exists r. split; [by right|done].
    + intros x. rewrite elem_of_nil. tauto.
    + intros x Hx. by apply elem_of_nil in Hx.
  - intros b' [->|Hb']%elem_of_cons; [|by apply Hb2]. eapply explored_mono; [exact E2|apply Hbs; left|done].
Qed.

(** Where the scan starts. *)
Definition start_buses : list Z :=
  if Z.land (rd 0 0 0 PCI_HEADER_TYPE) 0x80 =? 0 then [0] else seqZ 0 256.

Lemma scan_closed bs s s' L N :
  (forall b, is_bus b -> scanned s b = false) -> (forall b, b ∈ bs -> is_bus b) ->
  explored (from bs) [] s s' L N -> (forall b, b ∈ bs -> scanned s' b = true) ->
  forall b, from bs b -> b ∈ N.
Proof.
  intros H0 Hbs [M D S W I U X R] Hall b (r & Hr & Hreach).
  assert (forall b, is_bus b -> scanned s' b = true -> b ∈ N) as HN.
  { intros b' Hb'. rewrite (S b' Hb'), (H0 b' Hb'). by intros ?%bool_decide_eq_true. }
  assert (r ∈ N) as HrN by (apply HN; auto). clear Hr.
  induction Hreach as [|b1 b2 b3 (x & Hx & Hv & Hbr) _ IH]; [done|]. apply IH, HN; [by eapply bridge_bus|].
  apply (X x b2); [|done]. apply I. right. by rewrite Hx.
Qed.

(** ** What a scan should find

    The registers of a function by the layout of the PCI specification: a
    doubleword [r] of function [x] is read at [conf_addr x r], its bytes in
    ascending order. *)

Definition conf_addr (x : fn) (r : Z) : Z := let '(b, d, f) := x in 2 ^ 31 + b * 2 ^ 16 + d * 2 ^ 11 + f * 2 ^ 8 + r.
Definition conf_dword (x : fn) (r : Z) : Z := space (conf_addr x (r / 4 * 4)).
Definition conf_byte (x : fn) (r : Z) : Z := conf_dword x r / 2 ^ (8 * (r mod 4)) mod 256.
Definition conf_word (x : fn) (r : Z) : Z := conf_byte x r + 256 * conf_byte x (r + 1).

(** Register 12, the cache line size, is what the code takes for the header type
    (register 14) when it asks whether a device has several functions and
    whether it has base addresses. *)
Definition shows (x : fn) : Prop :=
  let '(b, d, f) := x in
  0 <= d < 32 /\ 0 <= f < 8 /\ conf_dword (b, d, 0) 0 <> 2 ^ 32 - 1 /\ conf_dword x 0 <> 2 ^ 32 - 1 /\
  (128 <= conf_byte (b, d, 0) 12 \/ f = 0).

Definition leads_to (x : fn) (b' : Z) : Prop :=
  conf_byte x 11 = 6 /\ conf_byte x 10 = 4 /\ conf_byte x 14 mod 128 = 1 /\ b' = conf_byte x 25 /\ b' <> 0.

Definition first_buses : list Z := if conf_byte (0, 0, 0) 12 <? 128 then [0] else seqZ 0 256.

(** The buses that the bridges lead to. *)
Inductive connected : Z -> Prop :=
  | connected_first b : b ∈ first_buses -> connected b
  | connected_behind x b : connected (on_bus x) -> shows x -> leads_to x b -> connected b.

Definition describe (x : fn) : pci_device :=
  let '(b, d, f) := x in
  let plain := conf_byte x 12 mod 128 =? 0 in
  mkPci b d f (conf_word x 0) (conf_word x 2) (conf_byte x 11) (conf_byte x 10) (conf_byte x 9) (conf_byte x 12)
    (if plain then conf_dword x <$> [16; 20; 24; 28; 32; 36] else [0; 0; 0; 0; 0; 0]) (if plain then conf_byte x 60 else 0) 1.

Lemma conf_addr_code b d f r : is_bus b -> 0 <= d < 32 -> 0 <= f < 8 -> 0 <= r < 256 -> config_addr b d f r = conf_addr (b, d, f) (r / 4 * 4).
Proof.
  intros Hb Hd Hf Hr. unfold is_bus in Hb. unfold config_addr, conf_addr. change 0x80000000 with (Z.shiftl 1 31).
  assert (Z.land r 0xFC = r / 4 * 4) as ->.
  { assert (forallb (fun r => Z.land r 0xFC =? r / 4 * 4) (seqZ 0 256) = true) as H by (vm_compute; reflexivity).
    rewrite forallb_forall in H. apply Z.eqb_eq, H, list_elem_of_In, elem_of_seqZ. lia. }
  set (q := r / 4 * 4). assert (0 <= q < 256) by (unfold q; Z.div_mod_to_equations; lia).
  rewrite (Z.lor_comm _ (Z.shiftl 1 31)), <- !Z.lor_assoc. rewrite (lor_shiftl f q 8) by lia. rewrite (lor_shiftl d _ 11) by lia. rewrite (lor_shiftl b _ 16) by lia.
  rewrite (lor_shiftl 1 _ 31) by lia. rewrite u32_small by lia. lia.
Qed.

Lemma read_conf b d f r : is_bus b -> 0 <= d < 32 -> 0 <= f < 8 -> 0 <= r < 256 -> rd b d f r = conf_dword (b, d, f) r.
Proof. intros. unfold pci_config_read, conf_dword. by rewrite conf_addr_code. Qed.

Lemma land_byte v k : 0 <= k -> Z.land (Z.shiftr v k) 0xFF = v / 2 ^ k mod 256.
Proof. intros. change 0xFF with (Z.ones 8). by rewrite Z.land_ones, Z.shiftr_div_pow2 by lia. Qed.

Lemma read_byte_conf b d f r : is_bus b -> 0 <= d < 32 -> 0 <= f < 8 -> 0 <= r < 256 -> pci_config_read_byte space b d f r = conf_byte (b, d, f) r.
Proof.
  intros. unfold pci_config_read_byte, conf_byte. rewrite read_conf by done. change (Z.land r 3) with (Z.land r (Z.ones 2)). rewrite Z.land_ones by lia. change (2 ^ 2) with 4.
  pose proof (Z.mod_pos_bound r 4 ltac:(lia)). rewrite land_byte by lia. by rewrite Z.mul_comm.
Qed.

(** The low bits of the doubleword that is read for the header type. *)
Lemma header_bits x v : v = conf_dword x 12 ->
  Z.land v 0xFF = conf_byte x 12 /\ (Z.land v 0x80 =? 0) = (conf_byte x 12 <? 128) /\ Z.land (Z.land v 0xFF) 0x7F = conf_byte x 12 mod 128.
Proof.
  intros ->. assert (E : Z.land (conf_dword x 12) 0xFF = conf_byte x 12).
  { unfold conf_byte. change (2 ^ (8 * (12 mod 4))) with 1. rewrite Z.div_1_r. change 0xFF with (Z.ones 8). by rewrite Z.land_ones by lia. }
  split; [done|]. split.
  - change 0x80 with (2 ^ 7) at 1. rewrite land_bit by lia. unfold conf_byte. change (2 ^ (8 * (12 mod 4))) with 1. rewrite Z.div_1_r. set (v := conf_dword x 12).
    pose proof (Z.testbit_spec' v 7 ltac:(lia)) as T. destruct (Z.testbit v 7); cbn in T; cbn [negb]; symmetry; [apply Z.ltb_ge|apply Z.ltb_lt]; Z.div_mod_to_equations; lia.
  - rewrite E. change 0x7F with (Z.ones 7). by rewrite Z.land_ones by lia.
Qed.

Lemma entry_describe x : is_bus (on_bus x) -> visible x -> entry_read x = describe x.
Proof.
  destruct x as [[b d] f]. cbn. intros Hb (Hd & Hf & _). unfold entry_read. rewrite !read_conf by (done || (unfold PCI_INTERRUPT_LINE, PCI_HEADER_TYPE, PCI_VENDOR_ID, PCI_REVISION_ID; lia)).
  destruct (header_bits (b, d, f) (conf_dword (b, d, f) PCI_HEADER_TYPE) eq_refl) as (E1 & _ & E2). rewrite E2, E1. rewrite !land_byte by lia.
  assert (L16 : forall v, Z.land v 0xFFFF = v mod 256 + 256 * (v / 256 mod 256)).
  { intros v. change 0xFFFF with (Z.ones 16). rewrite Z.land_ones by lia. change (2 ^ 16) with (256 * 256). apply Z.rem_mul_r; lia. }
  rewrite !L16, Z.shiftr_div_pow2, Z.div_div by lia. set (v0 := conf_dword (b, d, f) PCI_VENDOR_ID). unfold conf_word.
  change (conf_byte (b, d, f) 0) with (v0 / 1 mod 256). change (conf_byte (b, d, f) (0 + 1)) with (v0 / 256 mod 256). change (conf_byte (b, d, f) 2) with (v0 / 2 ^ 16 mod 256). change (conf_byte (b, d, f) (2 + 1)) with (v0 / (2 ^ 16 * 256) mod 256).
  rewrite Z.div_1_r. f_equal.
  - destruct (conf_byte (b, d, f) 12 mod 128 =? 0); [|done]. change (seqZ 0 6) with [0; 1; 2; 3; 4; 5]. cbn [fmap list_fmap]. unfold PCI_BAR0. rewrite !read_conf by (done || lia). done.
  - destruct (conf_byte (b, d, f) 12 mod 128 =? 0); [|done]. unfold conf_byte. change (2 ^ (8 * (60 mod 4))) with 1. rewrite Z.div_1_r. change 0xFF with (Z.ones 8). by rewrite Z.land_ones by lia.
Qed.

Lemma visible_shows x : is_bus (on_bus x) -> visible x <-> shows x.
Proof.
  destruct x as [[b d] f]. cbn. intros Hb. unfold responds, multi. split; intros (Hd & Hf & H1 & H2 & H3); rewrite !read_conf in * by (done || (unfold PCI_HEADER_TYPE, PCI_VENDOR_ID; lia));
    destruct (header_bits (b, d, 0) (conf_dword (b, d, 0) PCI_HEADER_TYPE) eq_refl) as (_ & E & _); rewrite E, ?negb_true_iff, ?Z.ltb_ge in *; auto.
Qed.

Lemma bridges_leads x b' : is_bus (on_bus x) -> visible x -> bridges x b' <-> leads_to x b'.
Proof.
  destruct x as [[b d] f]. cbn. intros Hb (Hd & Hf & _). unfold bridges, leads_to. rewrite !read_byte_conf, !read_conf by (done || (unfold PCI_HEADER_TYPE, PCI_SECONDARY_BUS, PCI_REVISION_ID; lia)). rewrite !land_byte by lia.
  change 0x7F with (Z.ones 7). rewrite Z.land_ones by lia. done.
Qed.

Lemma start_first : start_buses = first_buses.
Proof.
  unfold start_buses, first_buses. rewrite read_conf by (unfold is_bus, PCI_HEADER_TYPE; lia). by destruct (header_bits (0, 0, 0) (conf_dword (0, 0, 0) PCI_HEADER_TYPE) eq_refl) as (_ & -> & _).
Qed.

Lemma start_is_bus b : b ∈ start_buses -> is_bus b.
Proof. unfold start_buses, is_bus. destruct (_ =? 0); [intros ->%list_elem_of_singleton|intros ?%elem_of_seqZ]; lia. Qed.

Lemma connected_from b : connected b <-> from start_buses b.
Proof.
  split.
  - intros H. assert (is_bus b /\ from start_buses b) as [_ ?]; [|done].
    induction H as [b Hb|x b _ [IH1 (r & Hr & Hx)] Hs Hl]; [rewrite <- start_first in Hb; split; [by apply start_is_bus|exists b; split; [done|apply rtc_refl]]|].
    apply visible_shows in Hs; [|done]. apply bridges_leads in Hl; [|done..]. split; [by eapply bridge_bus|]. exists r. split; [done|]. eapply rtc_r; [exact Hx|]. by exists x.
  - intros (r & Hr & Hreach). assert (is_bus r) as Hb by (by apply start_is_bus). assert (connected r) as Hc by (apply connected_first; by rewrite <- start_first).
    clear Hr. induction Hreach as [|b1 b2 b3 (x & <- & Hv & Hbr) _ IH]; [done|]. apply IH; [by eapply bridge_bus|].
    eapply connected_behind; [exact Hc|by apply visible_shows|by apply bridges_leads].
Qed.

(** C12: Enumeration.  Whatever the configuration space holds, cyclic and
    self-referring bridges included, pci_scan ends; it lists every function that
    shows on every bus that the bridges lead to from the first bus exactly once
    and nothing else, in an order [L] of which the table keeps the first 512,
    each with its identification and class; the result is the number of table
    entries.  Where the code means the header type it reads register 12, the
    cache line size: functions 1 to 7 of a device show only if that register of
    function 0 is at least 128, all 256 buses are searched only if that of the
    first device is, and the base addresses and the interrupt line are recorded
    for functions in which its low seven bits are zero and are zero for all
    others. *)
Theorem pci_scan_complete :
  exists L s, pci_scan space = Ret (Z.of_nat (Nat.min 512 (length L)), s) /\
    g_pci_devices s = take 512 (describe <$> L) /\ NoDup L /\
    forall x, x ∈ L <-> connected (on_bus x) /\ shows x.
Proof.
  set (s0 := mkPciState [] (replicate 32 0)). assert (map_ok s0) as Hs0 by done. pose proof start_is_bus as Hbs.
  destruct (scan_buses_spec start_buses s0 Hbs Hs0) as (s & L & N & Hrun & E & Hall); [cbn; lia|].
  assert (forall b, is_bus b -> scanned s0 b = false) as H0.
  { intros b Hb. unfold scanned. destruct (bus_split b Hb) as (-> & _ & ? & _).
    cbn [s0 g_scanned_buses]. rewrite lookup_replicate_2 by lia. apply Z.bits_0. }
  exists L, s. pose proof (ex_devs _ _ _ _ _ _ E) as D. cbn [s0 g_pci_devices app] in D.
  assert (length (g_pci_devices s) = Nat.min 512 (length L)) as Hlen by (rewrite D, length_take, length_fmap; done).
  assert (HL : forall x, x ∈ L <-> on_bus x ∈ N /\ visible x) by (intros x; rewrite (ex_list _ _ _ _ _ _ E), elem_of_nil; tauto).
  assert (HN : forall b, b ∈ N -> is_bus b) by (intros b Hb; by apply (ex_new _ _ _ _ _ _ E)).
  split_and!; [| |apply (ex_nodup _ _ _ _ _ _ E)|].
  - unfold pci_scan. fold s0. unfold start_buses in Hrun. destruct (_ =? 0).
    + cbn [scan_buses] in Hrun. destruct (pci_scan_bus space SCAN_FUEL 0 s0); [|done..].
      rewrite bind_ret in Hrun. injection Hrun as ->. by rewrite bind_ret, Hlen.
    + change PCI_MAX_BUSES with 256. by rewrite Hrun, bind_ret, Hlen.
  - rewrite D. change PCI_MAX_DETECTED with 512%nat. f_equal. apply list_fmap_ext. intros i x Hx%list_elem_of_lookup_2. apply HL in Hx as [Hx ?]. apply entry_describe; auto.
  - intros x. rewrite HL, connected_from. split.
    + intros [Hn Hv]. split; [by apply (ex_reach _ _ _ _ _ _ E)|]. apply visible_shows; auto.
    + intros [Hf Hs]. assert (on_bus x ∈ N) as Hn by (by eapply (scan_closed start_buses s0 s L N)). split; [done|]. apply visible_shows; auto.
Qed.
End Found.

(** A space with a host bridge, a bridge to bus 1, and on bus 1 a network card
    and a bridge back to bus 1. *)
Definition demo_space (a : Z) : Z :=
  let at_ b d r := config_addr b d 0 r in
  if a =? at_ 0 0 0 then 0x12378086 else if a =? at_ 0 0 8 then 0x06000000 else if a =? at_ 0 0 12 then 0
  else if a =? at_ 0 1 0 then 0x00011b36 else if a =? at_ 0 1 8 then 0x06040000 else if a =? at_ 0 1 12 then 0x00010000
  else if a =? at_ 0 1 0x18 then 0x00010100
  else if a =? at_ 1 2 0 then 0x100e8086 else if a =? at_ 1 2 8 then 0x02000000 else if a =? at_ 1 2 12 then 0
  else if a =? at_ 1 3 0 then 0x00011b36 else if a =? at_ 1 3 8 then 0x06040000 else if a =? at_ 1 3 12 then 0x00010000
  else if a =? at_ 1 3 0x18 then 0x00010101 else 0xFFFFFFFF.

Example pci_scan_example :
  (fun '(n, s) => (n, (fun d => (pd_bus d, pd_dev d, vendor_id d, device_id d)) <$> g_pci_devices s)) <$> pci_scan demo_space =
  Ret (4, [(0, 0, 0x8086, 0x1237); (0, 1, 0x1b36, 1); (1, 2, 0x8086, 0x100e); (1, 3, 0x1b36, 1)]).
Proof. vm_compute. reflexivity. Qed.

(** The code reads the header type with [pci_config_read], which returns the
    doubleword at 0x0C, and tests its low byte: the cache line size.  A device
    with several functions whose cache line size is below 0x80 shows only the
    first of them. *)
Theorem multifunction_hidden space b d f :
  pci_config_read_byte space b d 0 PCI_HEADER_TYPE = 0x80 -> pci_config_read_byte space b d 0 0x0C < 0x80 ->
  f <> 0 -> ~ visible space (b, d, f).
Proof.
  intros _ Hc Hf (_ & _ & _ & _ & [Hm|?]); [|done]. unfold multi in Hm. apply negb_true_iff, Z.eqb_neq in Hm.
  assert (pci_config_read_byte space b d 0 0x0C = u8 (pci_config_read space b d 0 PCI_HEADER_TYPE)) as E.
  { unfold pci_config_read_byte. change (Z.land 0x0C 3 * 8) with 0. rewrite Z.shiftr_0_r.
    change 0xFF with (Z.ones 8). by rewrite Z.land_ones by lia. }
  apply Hm, Z.eqb_eq. change 0x80 with (2 ^ 7). rewrite land_bit by lia. apply negb_true_iff.
  set (h := pci_config_read space b d 0 PCI_HEADER_TYPE) in *. rewrite E in Hc.
  rewrite <- (Z.mod_pow2_bits_low h 8 7) by lia. fold (u8 h).
  rewrite <- (Z.mod_small (u8 h) (2 ^ 7)) by (pose proof (u8_range h); lia). by rewrite Z.mod_pow2_bits_high by lia.
Qed.
