(* ===== verification/Fb.v ===== *)
(** * iokit/IOGraphicsFamily: fb.c and buffer.c

    The frame buffer of the display and the back buffer are lists of bytes; a
    write outside of them is a [Fault].  A back buffer holds two screens, of
    which a window is visible.  Shown: drawing changes the picture as it should
    and nothing else, scrolling moves it up, flushing shows it, and no operation
    leaves the buffers; and what happens when more than a screen is scrolled. *)

From S2P Require Import Prelude Pmm Paging.
Import Pmm.Pmm Vm.

(** ** Bytes of a buffer *)

Definition buf_set (off v n : Z) (buf : list Z) : run (list Z) := buf_store off (replicate (Z.to_nat n) (u8 v)) buf.

Definition buf_move (dst src n : Z) (buf : list Z) : run (list Z) := bs ← buf_slice src n buf; buf_store dst bs buf.

(** ** State *)

Record framebuffer := mkFb
  { address : Z; width : Z; height : Z; pitch : Z; bpp : Z;
    red_mask_size : Z; red_mask_shift : Z; green_mask_size : Z; green_mask_shift : Z;
    blue_mask_size : Z; blue_mask_shift : Z }.

(** buffer.c: the back buffer, when it is ready: its bytes, its address and
    the variables of the file. *)
Record back_buffer := mkBack { back_bytes : list Z; back_addr : Z; back_pitch : Z; back_rows : Z; back_size : Z }.
Definition set_bytes (l : list Z) (b : back_buffer) : back_buffer :=
  mkBack l (back_addr b) (back_pitch b) (back_rows b) (back_size b).

Record fbstate := mkFbs
  { fb : framebuffer; fb_ready : bool; fb_ring_top : Z; fb_dirty_min : Z; fb_dirty_max : Z;
    fb_bytes_pp : Z; fb_rloss : Z; fb_gloss : Z; fb_bloss : Z;
    screen : list Z; back : option back_buffer }.

Definition set_dirty (a b : Z) (s : fbstate) : fbstate :=
  mkFbs (fb s) (fb_ready s) (fb_ring_top s) a b (fb_bytes_pp s) (fb_rloss s) (fb_gloss s) (fb_bloss s) (screen s) (back s).
Definition set_top (t : Z) (s : fbstate) : fbstate :=
  mkFbs (fb s) (fb_ready s) t (fb_dirty_min s) (fb_dirty_max s) (fb_bytes_pp s) (fb_rloss s) (fb_gloss s) (fb_bloss s)
    (screen s) (back s).
Definition set_screen (l : list Z) (s : fbstate) : fbstate :=
  mkFbs (fb s) (fb_ready s) (fb_ring_top s) (fb_dirty_min s) (fb_dirty_max s) (fb_bytes_pp s) (fb_rloss s) (fb_gloss s)
    (fb_bloss s) l (back s).
Definition set_back (b : option back_buffer) (s : fbstate) : fbstate :=
  mkFbs (fb s) (fb_ready s) (fb_ring_top s) (fb_dirty_min s) (fb_dirty_max s) (fb_bytes_pp s) (fb_rloss s) (fb_gloss s)
    (fb_bloss s) (screen s) b.

(** The bytes drawn to: [framebuffer_buffer_ready() ? back : fb.address]. *)
Definition base (s : fbstate) : list Z := match back s with Some b => back_bytes b | None => screen s end.
Definition set_base (l : list Z) (s : fbstate) : fbstate :=
  match back s with
  | Some b => set_back (Some (set_bytes l b)) s
  | None => set_screen l s
  end.

(** [*p = ...] at the offset [off] of the bytes drawn to. *)
Definition put (off : Z) (bs : list Z) (s : fbstate) : run fbstate := l ← buf_store off bs (base s); Ret (set_base l s).

Definition framebuffer_buffer_rows (s : fbstate) : Z := match back s with Some b => back_rows b | None => 0 end.

(** ** fb.c: pixels *)

Definition fb_pack (color : Z) (s : fbstate) : Z :=
  let r := Z.land (Z.shiftr color 16) 0xFF in
  let g := Z.land (Z.shiftr color 8) 0xFF in
  let b := Z.land color 0xFF in
  u32 (Z.lor (Z.lor (Z.shiftl (Z.shiftr r (fb_rloss s)) (red_mask_shift (fb s)))
                    (Z.shiftl (Z.shiftr g (fb_gloss s)) (green_mask_shift (fb s))))
             (Z.shiftl (Z.shiftr b (fb_bloss s)) (blue_mask_shift (fb s)))).

Definition fb_mark_dirty (y : Z) (s : fbstate) : fbstate :=
  set_dirty (if y <? fb_dirty_min s then y else fb_dirty_min s)
    (if fb_dirty_max s <? u32 (y + 1) then u32 (y + 1) else fb_dirty_max s) s.
Definition fb_reset_dirty (s : fbstate) : fbstate := set_dirty (height (fb s)) 0 s.
Definition fb_mark_all_dirty (s : fbstate) : fbstate := set_dirty 0 (height (fb s)) s.

(** The offset of a row. *)
Definition fb_row_ptr (y : Z) (s : fbstate) : Z := u32 (u32 (fb_ring_top s + y) * pitch (fb s)).

(** The quadwords, then the rest. *)
Definition fb_copy_fast (dst src bytes : Z) (from to : list Z) : run (list Z) :=
  let n := 8 * Z.shiftr bytes 3 in
  let rem := Z.land bytes 7 in
  bs ← buf_slice src n from;
  to ← buf_store dst bs to;
  bs ← buf_slice (src + n) rem from;
  buf_store (dst + n) bs to.

(** The bytes of a pixel in the format of the hardware. *)
Definition pixel_bytes (v : Z) (s : fbstate) : list Z :=
  if fb_bytes_pp s =? 4 then le_bytes 4 v
  else if fb_bytes_pp s =? 3 then [u8 v; u8 (Z.shiftr v 8); u8 (Z.shiftr v 16)]
  else if fb_bytes_pp s =? 2 then le_bytes 2 (u16 v)
  else [u8 v].

Definition fb_store_pixel (off v : Z) (s : fbstate) : run fbstate := put off (pixel_bytes v s) s.

(** The whole frame in one copy, or row by row. *)
Fixpoint flush_rows (ys : list Z) (s : fbstate) (b : back_buffer) : run fbstate :=
  match ys with
  | [] => Ret s
  | y :: ys =>
      l ← fb_copy_fast (y * pitch (fb s)) (u32 (fb_ring_top s + y) * pitch (fb s)) (pitch (fb s)) (back_bytes b) (screen s);
      flush_rows ys (set_screen l s) b
  end.

Definition framebuffer_flush (s : fbstate) : run fbstate :=
  if negb (fb_ready s) || (fb_dirty_max s <=? fb_dirty_min s) then Ret s
  else
    s ← match back s with
        | Some b =>
            let s := if height (fb s) <? fb_dirty_max s then set_dirty (fb_dirty_min s) (height (fb s)) s else s in
            if (fb_dirty_min s =? 0) && (fb_dirty_max s =? height (fb s)) then
              l ← fb_copy_fast 0 (fb_ring_top s * pitch (fb s)) (u32 (height (fb s) * pitch (fb s))) (back_bytes b) (screen s);
              Ret (set_screen l s)
            else flush_rows (seqZ (fb_dirty_min s) (fb_dirty_max s - fb_dirty_min s)) s b
        | None => Ret s
        end;
    Ret (fb_reset_dirty s).

Definition framebuffer_putpixel (x y color : Z) (s : fbstate) : run fbstate :=
  if negb (fb_ready s) || (width (fb s) <=? x) || (height (fb s) <=? y) then Ret s
  else
    s ← fb_store_pixel (fb_row_ptr y s + x * fb_bytes_pp s) (fb_pack color s) s;
    Ret (fb_mark_dirty y s).

(** [dst += fb_bytes_pp] after each pixel. *)
Fixpoint store_pixels (dst : Z) (pixels : list Z) (s : fbstate) : run fbstate :=
  match pixels with
  | [] => Ret s
  | p :: pixels => s ← fb_store_pixel dst (fb_pack p s) s; store_pixels (dst + fb_bytes_pp s) pixels s
  end.

(** [pixels] holds [count] colours. *)
Definition framebuffer_putpixels (x y : Z) (pixels : list Z) (s : fbstate) : run fbstate :=
  let count := Z.of_nat (length pixels) in
  if negb (fb_ready s) || (height (fb s) <=? y) || (width (fb s) <=? x) || (count =? 0) then Ret s
  else
    let count := if width (fb s) - x <? count then width (fb s) - x else count in
    let dst := fb_row_ptr y s + x * fb_bytes_pp s in
    let pixels := take (Z.to_nat count) pixels in
    s ← (if (fb_bytes_pp s =? 4) && (fb_bloss s =? 0) && (fb_rloss s =? 0) && (fb_gloss s =? 0) &&
            (red_mask_shift (fb s) =? 16) && (green_mask_shift (fb s) =? 8) && (blue_mask_shift (fb s) =? 0) then
           put dst (pixels ≫= le_bytes 4) s
         else store_pixels dst pixels s);
    Ret (fb_mark_dirty y s).

(** ** fb.c: rectangles *)

(** Words, four at a time while there are four. *)
Fixpoint fill_words (w : nat) (off packed : Z) (s : fbstate) : run fbstate :=
  let one off s := put off (le_bytes 4 packed) s in
  match w with
  | S (S (S (S w))) =>
      s ← one off s; s ← one (off + 4) s; s ← one (off + 8) s; s ← one (off + 12) s; fill_words w (off + 16) packed s
  | S (S (S O)) => s ← one off s; s ← one (off + 4) s; one (off + 8) s
  | S (S O) => s ← one off s; one (off + 4) s
  | S O => one off s
  | O => Ret s
  end.

Fixpoint fill_bytes (w : nat) (off : Z) (bs : list Z) (s : fbstate) : run fbstate :=
  match w with
  | O => Ret s
  | S w => s ← put off bs s; fill_bytes w (off + Z.of_nat (length bs)) bs s
  end.

(** [for (yy = y; yy < y + h; yy++) { row; fb_mark_dirty(yy); }] *)
Fixpoint for_rows (ys : list Z) (row : Z -> fbstate -> run fbstate) (s : fbstate) : run fbstate :=
  match ys with
  | [] => Ret s
  | y :: ys => s ← row y s; for_rows ys row (fb_mark_dirty y s)
  end.

Definition fb_fill_rect_fast (x y w h packed : Z) (s : fbstate) : run fbstate :=
  let words_per_row := pitch (fb s) / 4 in
  for_rows (seqZ y h) (fun yy s =>
    fill_words (Z.to_nat w) (4 * (u32 (u32 (fb_ring_top s + yy) * words_per_row) + x)) packed s) s.

Definition fb_fill_rect_24 (x y w h packed : Z) (s : fbstate) : run fbstate :=
  for_rows (seqZ y h) (fun yy s =>
    fill_bytes (Z.to_nat w) (fb_row_ptr yy s + x * 3) [u8 packed; u8 (Z.shiftr packed 8); u8 (Z.shiftr packed 16)] s) s.

Definition fb_fill_rect_16 (x y w h packed : Z) (s : fbstate) : run fbstate :=
  for_rows (seqZ y h) (fun yy s => fill_bytes (Z.to_nat w) (fb_row_ptr yy s + x * 2) (le_bytes 2 (u16 packed)) s) s.

Definition fb_fill_rect_8 (x y w h packed : Z) (s : fbstate) : run fbstate :=
  for_rows (seqZ y h) (fun yy s => put (fb_row_ptr yy s + x) (replicate (Z.to_nat w) (u8 packed)) s) s.

Definition framebuffer_fill_rect (x y w h color : Z) (s : fbstate) : run fbstate :=
  if negb (fb_ready s) || (w =? 0) || (h =? 0) then Ret s
  else if (width (fb s) <=? x) || (height (fb s) <=? y) then Ret s
  else
    let w := if width (fb s) - x <? w then width (fb s) - x else w in
    let h := if height (fb s) - y <? h then height (fb s) - y else h in
    if fb_bytes_pp s =? 4 then fb_fill_rect_fast x y w h (fb_pack color s) s
    else if fb_bytes_pp s =? 3 then fb_fill_rect_24 x y w h (fb_pack color s) s
    else if fb_bytes_pp s =? 2 then fb_fill_rect_16 x y w h (fb_pack color s) s
    else fb_fill_rect_8 x y w h (fb_pack color s) s.

Definition framebuffer_clear (color : Z) (s : fbstate) : run fbstate :=
  s ← framebuffer_fill_rect 0 0 (width (fb s)) (height (fb s)) color s; framebuffer_flush s.

Definition framebuffer_rect (x y w h color : Z) (s : fbstate) : run fbstate :=
  s ← framebuffer_fill_rect x y w h color s; framebuffer_flush s.

(** ** Scrolling *)

(** buffer.c: make room below the window for [pending] more lines. *)
Definition framebuffer_buffer_free_past (visible_rows pending : Z) (s : fbstate) : run fbstate :=
  match back s with
  | None => Ret s
  | Some b =>
      if visible_rows =? 0 then Ret s
      else if u32 (u32 (fb_ring_top s + pending) + visible_rows) <=? back_rows b then Ret s
      else
        l ← buf_move 0 (fb_ring_top s * back_pitch b) (u32 (visible_rows * back_pitch b)) (back_bytes b);
        l ← buf_set (visible_rows * back_pitch b) 0 (u32 (u32 (back_rows b - visible_rows) * back_pitch b)) l;
        Ret (set_top 0 (set_back (Some (set_bytes l b)) s))
  end.

Fixpoint clear_rows (offs : list Z) (n : Z) (s : fbstate) : run fbstate :=
  match offs with
  | [] => Ret s
  | off :: offs => l ← buf_set off 0 n (base s); clear_rows offs n (set_base l s)
  end.

Definition framebuffer_scroll_up (lines : Z) (s : fbstate) : run fbstate :=
  if negb (fb_ready s) || (lines =? 0) then Ret s
  else match back s with
  | Some b =>
      if back_rows b <=? lines then
        let s := set_top 0 s in
        s ← clear_rows ((fun y => fb_row_ptr y s) <$> seqZ 0 (height (fb s))) (pitch (fb s)) s;
        framebuffer_flush (fb_mark_all_dirty s)
      else
        s ← framebuffer_buffer_free_past (height (fb s)) lines s;
        framebuffer_flush (fb_mark_all_dirty (set_top (u32 (fb_ring_top s + lines)) s))
  | None =>
      let n := pitch (fb s) in
      if height (fb s) <=? lines then
        l ← buf_set 0 0 (u32 (height (fb s) * n)) (screen s);
        framebuffer_flush (set_screen l s)
      else
        l ← buf_move 0 (lines * n) (u32 ((height (fb s) - lines) * n)) (screen s);
        s ← clear_rows ((fun y => u32 (y * n)) <$> seqZ (height (fb s) - lines) lines) n (set_screen l s);
        framebuffer_flush s
  end.

(** ** buffer.c and framebuffer_init: frames and mappings *)

Definition FRAMEBUFFER_BACK_SCREENS : Z := 2.
Definition FB_VMAP_BASE : Z := 0xFB000000.
Definition PAGE_CACHE_WC : Z := Z.lor PAGE_WRITE PAGE_PWT.

(** [pages - 1] more frames, each just below the one before. *)
Fixpoint take_run (n : nat) (prev : Z) (v : vm pmm) : bool * vm pmm :=
  match n with
  | O => (true, v)
  | S n =>
      let '(next, v) := new_frame v in
      let next := u32 next in
      if (next =? 0) || negb (next =? u32 (prev - PAGE_SIZE)) then (false, v) else take_run n next v
  end.

Definition framebuffer_buffer_init (pitch height : Z) (b : option back_buffer) (v : vm pmm)
    : run (Z * option back_buffer * vm pmm) :=
  match b with
  | Some _ => Ret (1, b, v)
  | None =>
      if (pitch =? 0) || (height =? 0) then Ret (0, None, v)
      else
        let rows := u32 (height * FRAMEBUFFER_BACK_SCREENS) in
        let size := u32 (pitch * rows) in
        let pages := u32 (u32 (size + PAGE_SIZE) - 1) / PAGE_SIZE in
        let '(first, v) := new_frame v in
        let first := u32 first in
        if first =? 0 then Ret (0, None, v)
        else
          let '(ok, v) := take_run (Z.to_nat (pages - 1)) first v in
          if negb ok then Ret (0, None, v)
          else
            let addr := u32 (first - u32 (u32 (pages - 1) * PAGE_SIZE)) in
            let total := u32 (pages * PAGE_SIZE) in
            v ← paging_map_region addr addr total PAGE_WRITE v;
            Ret (1, Some (mkBack (replicate (Z.to_nat total) 0) addr pitch rows total), v)
  end.

Fixpoint free_run (n : nat) (addr : Z) (a : pmm) : pmm :=
  match n with
  | O => a
  | S n => free_run n (u32 (addr + PAGE_SIZE)) (pmm_free addr a)
  end.

Definition framebuffer_buffer_free (b : option back_buffer) (a : pmm) : option back_buffer * pmm :=
  match b with
  | None => (None, a)
  | Some b =>
      let pages := u32 (u32 (back_size b + PAGE_SIZE) - 1) / PAGE_SIZE in
      (None, free_run (Z.to_nat pages) (back_addr b) a)
  end.

Definition fb_map_hw (f : framebuffer) (v : vm pmm) : run (framebuffer * vm pmm) :=
  let phys := address f in
  let size := u64 (pitch f * height f) in
  if 0x100000000 <? u64 (phys + size) then
    v ← loop (fun '(i, v) =>
          if i <? size then
            v ← paging_map_page (u64 (FB_VMAP_BASE + i)) (u64 (phys + i)) PAGE_CACHE_WC v;
            Ret (inl (u64 (i + PAGE_SIZE), v))
          else Ret (inr v)) (0, v);
    Ret (mkFb FB_VMAP_BASE (width f) (height f) (pitch f) (bpp f) (red_mask_size f) (red_mask_shift f)
          (green_mask_size f) (green_mask_shift f) (blue_mask_size f) (blue_mask_shift f), v)
  else v ← paging_map_region phys phys size PAGE_CACHE_WC v; Ret (f, v).

(** Sizes and shifts of red, green, blue when the boot loader gives none. *)
Definition default_masks (bpp : Z) : Z * Z * Z * Z * Z * Z :=
  if (bpp =? 32) || (bpp =? 24) then (8, 16, 8, 8, 8, 0)
  else if bpp =? 16 then (5, 11, 6, 5, 5, 0)
  else if bpp =? 15 then (5, 10, 5, 5, 5, 0)
  else (8, 0, 8, 0, 8, 0).

Definition loss (size : Z) : Z := u8 (if size =? 0 then 8 else 8 - size).

Definition framebuffer_init (addr w h p bp rs rsh gs gsh bs bsh : Z) (s : fbstate) (v : vm pmm) : run (fbstate * vm pmm) :=
  if (bp <? 8) || negb (bp mod 8 =? 0) || (w =? 0) || (h =? 0) || (p =? 0) then
    Ret (mkFbs (mkFb addr w h p bp rs rsh gs gsh bs bsh) false (fb_ring_top s) (fb_dirty_min s) (fb_dirty_max s)
           (fb_bytes_pp s) (fb_rloss s) (fb_gloss s) (fb_bloss s) (screen s) (back s), v)
  else
    let '(rs, rsh, gs, gsh, bs, bsh) :=
      if (rs =? 0) || (gs =? 0) || (bs =? 0) then default_masks bp else (rs, rsh, gs, gsh, bs, bsh) in
    '(f, v) ← fb_map_hw (mkFb addr w h p bp rs rsh gs gsh bs bsh) v;
    '(_, b, v) ← framebuffer_buffer_init p h (back s) v;
    Ret (mkFbs f true (fb_ring_top s) h 0 (u8 (bp / 8)) (loss rs) (loss gs) (loss bs) (screen s) b, v).

(** ** Rows of a buffer *)

Definition rowof (P r : nat) (l : list Z) : list Z := take P (drop (r * P) l).

Lemma drop_splice_in a o bs l : (a + o <= length l)%nat -> drop a (splice (a + o) bs l) = splice o bs (drop a l).
Proof.
  intros. unfold splice. rewrite drop_app_le by (rewrite length_take; lia). rewrite <- take_drop_commute, drop_drop.
  do 3 f_equal. lia.
Qed.

Lemma take_splice_in n o bs l : (o + length bs <= n)%nat -> take n (splice o bs l) = splice o bs (take n l).
Proof.
  intros. unfold splice. destruct (decide (o <= length l)%nat).
  - assert (drop (o + length bs) (take n l) = take (n - (o + length bs)) (drop (o + length bs) l)) as ->
      by (rewrite take_drop_commute; do 2 f_equal; lia).
    rewrite take_app_ge, length_take by (rewrite length_take; lia). rewrite take_app_ge by lia.
    rewrite take_take. do 3 f_equal; lia.
  - rewrite !(drop_ge _ (o + length bs)), !app_nil_r by (rewrite ?length_take; lia).
    rewrite (take_ge l o), (take_ge l n) by lia. rewrite take_ge by (rewrite length_app; lia). by rewrite take_ge by lia.
Qed.

Lemma take_splice_out n o bs l : (n <= o)%nat -> (o <= length l)%nat -> take n (splice o bs l) = take n l.
Proof. intros. unfold splice. rewrite take_app_le by (rewrite length_take; lia). by rewrite take_take, Nat.min_l by lia. Qed.

Lemma drop_splice_out n o bs l :
  (o + length bs <= n)%nat -> (o + length bs <= length l)%nat -> drop n (splice o bs l) = drop n l.
Proof.
  intros. unfold splice. rewrite app_assoc, drop_app_ge by (rewrite length_app, length_take; lia).
  rewrite length_app, length_take, drop_drop. f_equal. lia.
Qed.

Lemma row_splice P r o bs l r' :
  (o + length bs <= P)%nat -> (S r * P <= length l)%nat ->
  rowof P r' (splice (r * P + o) bs l) = if decide (r' = r) then splice o bs (rowof P r l) else rowof P r' l.
Proof.
  intros Ho Hl. unfold rowof. case_decide as Hr.
  - subst. rewrite drop_splice_in by lia. by rewrite take_splice_in by lia.
  - destruct (decide (r' < r)%nat).
    + rewrite !take_drop_commute. rewrite take_splice_out by nia. done.
    + rewrite drop_splice_out by nia. done.
Qed.

Lemma row_length P r l : (S r * P <= length l)%nat -> length (rowof P r l) = P.
Proof. intros. unfold rowof. rewrite length_take, length_drop. lia. Qed.

Lemma fb_copy_fast_ok dst src n from to :
  0 <= dst -> 0 <= src -> 0 <= n -> src + n <= Z.of_nat (length from) -> dst + n <= Z.of_nat (length to) ->
  fb_copy_fast dst src n from to = Ret (splice (Z.to_nat dst) (take (Z.to_nat n) (drop (Z.to_nat src) from)) to).
Proof.
  intros Hd Hs Hn Hf Ht. unfold fb_copy_fast. change 7 with (Z.ones 3).
  rewrite Z.shiftr_div_pow2, Z.land_ones by lia. change (2 ^ 3) with 8.
  set (q := 8 * (n / 8)). assert (q + n mod 8 = n) as Hq by (subst q; Z.div_mod_to_equations; lia).
  assert (0 <= q /\ 0 <= n mod 8) as [Hq0 Hr0] by (subst q; Z.div_mod_to_equations; lia).
  rewrite (buf_slice_ok src q), bind_ret by lia. set (a := take (Z.to_nat q) (drop (Z.to_nat src) from)).
  assert (length a = Z.to_nat q) as La by (subst a; rewrite length_take, length_drop; lia).
  rewrite buf_store_ok, bind_ret by lia. rewrite (buf_slice_ok (src + q)), bind_ret by lia.
  set (b := take (Z.to_nat (n mod 8)) (drop (Z.to_nat (src + q)) from)).
  assert (length b = Z.to_nat (n mod 8)) as Lb by (subst b; rewrite length_take, length_drop; lia).
  rewrite buf_store_ok by (rewrite ?length_splice; lia).
  replace (Z.to_nat (dst + q)) with (Z.to_nat dst + length a)%nat by lia. rewrite splice_splice by lia.
  f_equal. f_equal. subst a b. replace (Z.to_nat (src + q)) with (Z.to_nat src + Z.to_nat q)%nat by lia.
  rewrite <- drop_drop. replace (Z.to_nat n) with (Z.to_nat q + Z.to_nat (n mod 8))%nat by lia.
  apply take_take_drop.
Qed.

Lemma fb_copy_fast_fault dst src n from to :
  0 <= n -> Z.of_nat (length from) < src + n -> fb_copy_fast dst src n from to = Fault.
Proof.
  intros Hn Hf. unfold fb_copy_fast. change 7 with (Z.ones 3). rewrite Z.shiftr_div_pow2, Z.land_ones by lia. change (2 ^ 3) with 8.
  assert (buf_slice (src + 8 * (n / 8)) (n mod 8) from = Fault) as ->.
  { unfold buf_slice. rewrite (proj2 (Z.leb_gt _ (Z.of_nat (length from)))); [by rewrite andb_false_r|].
    Z.div_mod_to_equations; lia. }
  unfold buf_slice, buf_store. match goal with |- context [if ?c then _ else _] => destruct c end; [rewrite bind_ret|done].
  by match goal with |- context [if ?c then _ else _] => destruct c end.
Qed.

(** ** A frame buffer in use *)

Record fb_ok (s : fbstate) : Prop :=
  { ok_ready : fb_ready s = true;
    ok_width : 0 < width (fb s);
    ok_height : 0 < height (fb s) < 2 ^ 30;
    ok_pp : 1 <= fb_bytes_pp s <= 4;
    ok_row : width (fb s) * fb_bytes_pp s <= pitch (fb s);
    ok_align : fb_bytes_pp s = 4 -> pitch (fb s) mod 4 = 0;
    ok_small : 2 * height (fb s) * pitch (fb s) < 2 ^ 32;
    ok_screen : Z.of_nat (length (screen s)) = height (fb s) * pitch (fb s);
    ok_dirty : 0 <= fb_dirty_min s /\ 0 <= fb_dirty_max s <= height (fb s);
    ok_back : match back s with
      | None => fb_ring_top s = 0
      | Some b => back_pitch b = pitch (fb s) /\ back_rows b = 2 * height (fb s) /\
          2 * height (fb s) * pitch (fb s) <= Z.of_nat (length (back_bytes b)) /\
          0 <= fb_ring_top s <= height (fb s)
      end }.

(** Pitch, height and window in rows. *)
Definition nP (s : fbstate) : nat := Z.to_nat (pitch (fb s)).
Definition nH (s : fbstate) : nat := Z.to_nat (height (fb s)).
Definition nT (s : fbstate) : nat := Z.to_nat (fb_ring_top s).

(** The rows of the window. *)
Definition line (s : fbstate) (j : nat) : list Z := rowof (nP s) (nT s + j) (base s).
Definition picture (s : fbstate) : list (list Z) := line s <$> seq 0 (nH s).

(** What the display shows. *)
Definition shown (s : fbstate) : list (list Z) := (fun j => rowof (nP s) j (screen s)) <$> seq 0 (nH s).

(** Below the window the back buffer is blank. *)
Definition blank_below (s : fbstate) : Prop :=
  match back s with
  | None => True
  | Some _ => forall r, (nT s + nH s <= r < 2 * nH s)%nat -> rowof (nP s) r (base s) = replicate (nP s) 0
  end.

(** A row that is not marked is shown as it is. *)
Definition in_sync (s : fbstate) : Prop :=
  forall j, (j < nH s)%nat -> Z.of_nat j < fb_dirty_min s \/ fb_dirty_max s <= Z.of_nat j ->
  rowof (nP s) j (screen s) = line s j.

Lemma base_set_base l s : base (set_base l s) = l.
Proof. unfold set_base, base. by destruct (back s) eqn:E; cbn; rewrite ?E. Qed.

Lemma set_base_fields l s :
  fb (set_base l s) = fb s /\ fb_ready (set_base l s) = fb_ready s /\ fb_ring_top (set_base l s) = fb_ring_top s /\
  fb_dirty_min (set_base l s) = fb_dirty_min s /\ fb_dirty_max (set_base l s) = fb_dirty_max s /\
  fb_bytes_pp (set_base l s) = fb_bytes_pp s /\ fb_rloss (set_base l s) = fb_rloss s /\
  fb_gloss (set_base l s) = fb_gloss s /\ fb_bloss (set_base l s) = fb_bloss s.
Proof. unfold set_base. by destruct (back s). Qed.

Lemma set_base_twice l l' s : set_base l (set_base l' s) = set_base l s.
Proof. unfold set_base. by destruct (back s) eqn:E; cbn; rewrite ?E. Qed.

Lemma pack_set_base c l s : fb_pack c (set_base l s) = fb_pack c s.
Proof.
  unfold fb_pack. destruct (set_base_fields l s) as (-> & _ & _ & _ & _ & _ & -> & -> & ->). done.
Qed.

Lemma pixel_bytes_set_base v l s : pixel_bytes v (set_base l s) = pixel_bytes v s.
Proof. unfold pixel_bytes. destruct (set_base_fields l s) as (_ & _ & _ & _ & _ & -> & _). done. Qed.

(** Rows of the buffer that is drawn to. *)
Definition nR (s : fbstate) : nat := match back s with Some _ => 2 * nH s | None => nH s end.

Lemma ok_rows s : fb_ok s ->
  (nR s * nP s <= length (base s))%nat /\ (nT s + nH s <= nR s)%nat /\ (0 < nP s)%nat /\
  Z.of_nat (nP s) = pitch (fb s) /\ Z.of_nat (nH s) = height (fb s) /\ Z.of_nat (nT s) = fb_ring_top s.
Proof.
  intros [R W H PP ROW AL SM SC D B]. unfold nR, nP, nH, nT, base. assert (0 < pitch (fb s)) by nia.
  destruct (back s) as [b|].
  - destruct B as (B1 & B2 & B3 & B4). split_and!; lia.
  - rewrite B. split_and!; lia.
Qed.

(** [s'] is [s] with the row [y] changed by [f]. *)
Definition painted (y : nat) (f : list Z -> list Z) (s s' : fbstate) : Prop :=
  exists l, s' = set_base l s /\ length l = length (base s) /\
    forall r, rowof (nP s) r l = if decide (r = nT s + y)%nat then f (rowof (nP s) r (base s)) else rowof (nP s) r (base s).

Lemma painted_fields y f s s' : painted y f s s' ->
  fb s' = fb s /\ fb_ring_top s' = fb_ring_top s /\ fb_bytes_pp s' = fb_bytes_pp s /\ nR s' = nR s /\
  nP s' = nP s /\ nH s' = nH s /\ nT s' = nT s /\ (forall c, fb_pack c s' = fb_pack c s) /\ (forall v, pixel_bytes v s' = pixel_bytes v s).
Proof.
  intros (l & -> & _). pose proof (set_base_fields l s) as (E1 & _ & E3 & _ & _ & E6 & _). unfold nP, nH, nT.
  rewrite E1, E3. split_and!; try done.
  - unfold nR, nH. rewrite E1. unfold set_base. by destruct (back s) eqn:E; cbn; rewrite ?E.
  - intros c. apply pack_set_base.
  - intros v. apply pixel_bytes_set_base.
Qed.

Lemma painted_ok y f s s' : painted y f s s' -> fb_ok s -> fb_ok s'.
Proof.
  intros (l & -> & Hl & _) [R W H PP ROW AL SM SC D B].
  pose proof (set_base_fields l s) as (E1 & E2 & E3 & E4 & E5 & E6 & _).
  constructor; rewrite ?E1, ?E2, ?E3, ?E4, ?E5, ?E6; try done; unfold set_base, base in *; destruct (back s) eqn:E; cbn; try done.
  - by rewrite Hl.
  - by rewrite Hl.
  - by rewrite E.
Qed.

Lemma painted_id y s : painted y id s s.
Proof.
  exists (base s). unfold set_base, base. split_and!; [|done|by intros; case_decide].
  destruct s as [? ? ? ? ? ? ? ? ? ? bk]; cbn. by destruct bk as [[]|].
Qed.

Lemma painted_trans y f g s s1 s2 : painted y f s s1 -> painted y g s1 s2 -> painted y (fun r => g (f r)) s s2.
Proof.
  intros H1 H2. pose proof (painted_fields _ _ _ _ H1) as (_ & _ & _ & _ & E1 & _ & E2 & _).
  destruct H1 as (l1 & -> & L1 & R1), H2 as (l2 & -> & L2 & R2). exists l2. rewrite set_base_twice, base_set_base in *.
  split_and!; [done|congruence|]. intros r. rewrite E1, E2 in R2. rewrite R2, R1. by case_decide.
Qed.

Lemma painted_ext y f g s s' : (forall r, length r = nP s -> f r = g r) -> fb_ok s -> (y < nH s)%nat ->
  painted y f s s' -> painted y g s s'.
Proof.
  intros Hfg Hok Hy (l & -> & Hl & R). exists l. split_and!; try done. intros r. rewrite R. case_decide as Hr; [|done].
  apply Hfg, row_length. destruct (ok_rows s Hok) as (? & ? & _). nia.
Qed.

(** One store into the row [y]. *)
Lemma put_row s y o bs off :
  fb_ok s -> (y < nH s)%nat -> (o + length bs <= nP s)%nat -> off = Z.of_nat ((nT s + y) * nP s + o) ->
  exists s', put off bs s = Ret s' /\ painted y (splice o bs) s s'.
Proof.
  intros Hok Hy Ho ->. destruct (ok_rows s Hok) as (Hl & Ht & _).
  assert (S (nT s + y) * nP s <= length (base s))%nat as Hr by nia.
  assert ((nT s + y) * nP s + o + length bs <= length (base s))%nat as Hb by lia.
  unfold put. rewrite buf_store_ok, bind_ret, Nat2Z.id by lia. eexists. split; [done|].
  eexists. split; [done|]. split; [apply length_splice; lia|]. intros r. rewrite row_splice by lia. case_decide; [|done]. by subst.
Qed.

(** Stores one behind the other. *)
Lemma put_then y o bs bs' s s1 s2 :
  fb_ok s -> (y < nH s)%nat -> (o + length bs + length bs' <= nP s)%nat ->
  painted y (splice o bs) s s1 -> painted y (splice (o + length bs) bs') s1 s2 -> painted y (splice o (bs ++ bs')) s s2.
Proof.
  intros Hok Hy Hl H1 H2. eapply painted_ext; [|done..|exact (painted_trans _ _ _ _ _ _ H1 H2)].
  intros r Hr. apply splice_splice. lia.
Qed.

Lemma length_copies w (bs : list Z) : length (mjoin (replicate w bs)) = (w * length bs)%nat.
Proof.
  induction w as [|w IH]; [done|]. change (mjoin (replicate (S w) bs)) with (bs ++ mjoin (replicate w bs)).
  rewrite length_app, IH. lia.
Qed.

Lemma fill_bytes_spec w y o bs s off :
  fb_ok s -> (y < nH s)%nat -> (o + w * length bs <= nP s)%nat -> off = Z.of_nat ((nT s + y) * nP s + o) ->
  exists s', fill_bytes w off bs s = Ret s' /\ painted y (splice o (mjoin (replicate w bs))) s s'.
Proof.
  revert s o off. induction w as [|w IH]; intros s o off Hok Hy Ho ->; cbn [fill_bytes].
  { exists s. split; [done|]. eapply painted_ext; [|done..|apply painted_id]. intros r _. by rewrite splice_nil. }
  cbn [Nat.mul] in Ho. destruct (put_row s y o bs _ Hok Hy ltac:(lia) eq_refl) as (s1 & -> & H1). rewrite bind_ret.
  pose proof (painted_fields _ _ _ _ H1) as (_ & _ & _ & _ & EP & EH & ET & _).
  destruct (IH s1 (o + length bs)%nat (Z.of_nat ((nT s + y) * nP s + o) + Z.of_nat (length bs))) as (s2 & -> & H2).
  { by eapply painted_ok. } { by rewrite EH. } { rewrite EP. lia. } { rewrite ET, EP. lia. }
  exists s2. split; [done|]. eapply put_then; [done..| |exact H1|exact H2]. rewrite length_copies. lia.
Qed.

Lemma fill_words_eq w off packed s : fill_words w off packed s = fill_bytes w off (le_bytes 4 packed) s.
Proof.
  revert off s. induction w as [w IH] using lt_wf_ind. intros off s.
  assert (off + 4 + 4 = off + 8) as E8 by lia. assert (off + 8 + 4 = off + 12) as E12 by lia.
  assert (off + 12 + 4 = off + 16) as E16 by lia.
  destruct w as [|[|[|[|w]]]]; cbn [fill_words fill_bytes]; rewrite ?length_le_bytes; change (Z.of_nat 4) with 4;
    repeat match goal with |- context [put ?o ?b ?t] => destruct (put o b t); [rewrite ?bind_ret, ?E8, ?E12, ?E16|done..] end; [done..|].
  apply IH. lia.
Qed.

(** ** Drawing *)

(** Mode and pixel format. *)
Definition fmt (s : fbstate) : framebuffer * Z * Z * Z * Z := (fb s, fb_bytes_pp s, fb_rloss s, fb_gloss s, fb_bloss s).

Lemma fmt_sizes s s' : fmt s' = fmt s -> fb s' = fb s /\ nP s' = nP s /\ nH s' = nH s /\ fb_bytes_pp s' = fb_bytes_pp s.
Proof. intros [= E1 E2 _ _ _]. unfold nP, nH. by rewrite E1, E2. Qed.

Lemma fmt_pack s s' : fmt s' = fmt s -> (forall c, fb_pack c s' = fb_pack c s) /\ forall v, pixel_bytes v s' = pixel_bytes v s.
Proof. intros [= E1 E2 E3 E4 E5]. unfold fb_pack, pixel_bytes. by rewrite E1, E2, E3, E4, E5. Qed.

Definition undirty (s : fbstate) (j : nat) : Prop := Z.of_nat j < fb_dirty_min s \/ fb_dirty_max s <= Z.of_nat j.

(** Every line [j] of the window has become [f j] of what it was; the lines in
    [T] are marked. *)
Record drawn (T : nat -> Prop) (f : nat -> list Z -> list Z) (s s' : fbstate) : Prop :=
  { dr_ok : fb_ok s';
    dr_fmt : fmt s' = fmt s;
    dr_top : fb_ring_top s' = fb_ring_top s;
    dr_line : forall j, (j < nH s)%nat -> line s' j = f j (line s j);
    dr_marked : forall j, (j < nH s)%nat -> undirty s' j -> undirty s j /\ ~ T j;
    dr_blank : blank_below s -> blank_below s';
    dr_sync : in_sync s -> in_sync s' }.

Lemma drawn_id s : fb_ok s -> drawn (fun _ => False) (fun _ r => r) s s.
Proof. intros. constructor; try done. tauto. Qed.

Lemma drawn_trans T T' f g s s1 s2 :
  drawn T f s s1 -> drawn T' g s1 s2 -> drawn (fun j => T j \/ T' j) (fun j r => g j (f j r)) s s2.
Proof.
  intros [O1 F1 T1 L1 M1 B1 S1] [O2 F2 T2 L2 M2 B2 S2]. destruct (fmt_sizes _ _ F1) as (_ & _ & EH & _).
  constructor; try done; try congruence; try tauto.
  - intros j Hj. by rewrite L2, L1 by (rewrite ?EH; done).
  - intros j Hj Hu. destruct (M2 j) as [Hu1 ?]; [lia|done|]. destruct (M1 j Hj Hu1). tauto.
Qed.

Lemma line_length s j : fb_ok s -> (j < nH s)%nat -> length (line s j) = nP s.
Proof. intros Hok Hj. destruct (ok_rows s Hok) as (? & ? & _). apply row_length. nia. Qed.

Lemma drawn_ext (T T' : nat -> Prop) f g s s' :
  fb_ok s -> (forall j r, (j < nH s)%nat -> length r = nP s -> f j r = g j r) -> (forall j, (j < nH s)%nat -> T' j -> T j) ->
  drawn T f s s' -> drawn T' g s s'.
Proof.
  intros Hok H HT [O F Tp L M B S]. constructor; try done.
  - intros j Hj. rewrite L by done. apply H; [done|]. by apply line_length.
  - intros j Hj Hu. destruct (M j Hj Hu). split; [done|]. intros ?. naive_solver.
Qed.

Lemma in_sync_direct s : fb_ok s -> back s = None -> in_sync s.
Proof.
  intros [R W H PP ROW AL SM SC D B] Hb j Hj _. rewrite Hb in B. unfold line, base, nT. by rewrite Hb, B.
Qed.

Lemma set_base_back l s : (back (set_base l s) = None <-> back s = None) /\ (back s <> None -> screen (set_base l s) = screen s).
Proof. unfold set_base. destruct (back s) eqn:E; cbn; rewrite ?E; split; try done; split; done. Qed.

Lemma u32_row s y : fb_ok s -> (y < nH s)%nat -> u32 (Z.of_nat y + 1) = Z.of_nat y + 1.
Proof.
  intros Hok Hy. pose proof (ok_rows s Hok) as (_ & _ & _ & _ & EH & _). pose proof (ok_small _ Hok). pose proof (ok_row _ Hok).
  pose proof (ok_pp _ Hok). pose proof (ok_width _ Hok). apply u32_small. nia.
Qed.

Lemma mark_dirty_ok s y : fb_ok s -> (y < nH s)%nat -> fb_ok (fb_mark_dirty (Z.of_nat y) s).
Proof.
  intros Hok Hy. pose proof (ok_rows s Hok) as (_ & _ & _ & _ & EH & _). pose proof (u32_row s y Hok Hy) as Eu.
  destruct Hok as [R W H PP ROW AL SM SC D B]. constructor; try done. cbn. rewrite Eu.
  destruct (Z.ltb_spec (Z.of_nat y) (fb_dirty_min s)), (Z.ltb_spec (fb_dirty_max s) (Z.of_nat y + 1)); lia.
Qed.

(** A painted row is marked. *)
Lemma painted_drawn y f s s' :
  fb_ok s -> (y < nH s)%nat -> painted y f s s' ->
  drawn (fun j => j = y) (fun j r => if decide (j = y) then f r else r) s (fb_mark_dirty (Z.of_nat y) s').
Proof.
  intros Hok Hy Hp. pose proof (painted_ok _ _ _ _ Hp Hok) as Hok'. pose proof (ok_rows s Hok) as (_ & _ & _ & _ & EH & _).
  destruct (painted_fields _ _ _ _ Hp) as (E1 & E2 & E3 & ER & EP & EH' & ET & _).
  destruct Hp as (l & -> & Hl & HR). pose proof (set_base_fields l s) as (_ & _ & _ & E4 & E5 & _ & E7 & E8 & E9).
  pose proof (u32_row s y Hok Hy) as Eu. pose proof (mark_dirty_ok _ y Hok' ltac:(by rewrite EH')) as Hok1.
  set (s1 := fb_mark_dirty (Z.of_nat y) (set_base l s)).
  assert (forall j, line s1 j = rowof (nP s) (nT s + j) l) as Hline.
  { intros j. change (line s1 j) with (line (set_base l s) j). unfold line. by rewrite EP, ET, base_set_base. }
  assert (forall j, undirty s1 j -> undirty s j /\ j <> y) as Hmark.
  { intros j Hd. unfold undirty in *. cbn [s1 fb_mark_dirty set_dirty fb_dirty_min fb_dirty_max] in Hd. rewrite E4, E5, Eu in Hd.
    destruct (Z.ltb_spec (Z.of_nat y) (fb_dirty_min s)), (Z.ltb_spec (fb_dirty_max s) (Z.of_nat y + 1)); lia. }
  constructor.
  - done.
  - unfold fmt. cbn. by rewrite E1, E3, E7, E8, E9.
  - done.
  - intros j Hj. rewrite Hline, HR. unfold line. repeat case_decide; try done; lia.
  - auto.
  - unfold blank_below. intros Hb. cbn [s1 fb_mark_dirty set_dirty back]. destruct (back (set_base l s)) eqn:Eb; [|done].
    assert (back s <> None) as Hbs by (intros ?; rewrite (proj2 (proj1 (set_base_back l s))) in Eb; done).
    destruct (back s) eqn:Ebs; [|done]. intros r Hr.
    change (rowof (nP (set_base l s)) r (base (set_base l s)) = replicate (nP (set_base l s)) 0).
    change (nT (set_base l s) + nH (set_base l s) <= r < 2 * nH (set_base l s))%nat in Hr.
    rewrite ET, EH' in Hr. rewrite EP, base_set_base, HR. rewrite decide_False by lia. apply Hb. done.
  - intros Hs. destruct (decide (back s = None)) as [Hb|Hb].
    { apply in_sync_direct; [done|]. by apply (proj2 (proj1 (set_base_back l s))). }
    intros j Hj Hd. rewrite Hline. change (nP s1) with (nP (set_base l s)). change (screen s1) with (screen (set_base l s)).
    rewrite EP, (proj2 (set_base_back l s)) by done. change (nH s1) with (nH (set_base l s)) in Hj. rewrite EH' in Hj.
    destruct (Hmark j Hd) as [Hd' Hjy]. rewrite HR, decide_False by lia. by apply Hs.
Qed.

Lemma row_bounds s y : fb_ok s -> (y < nH s)%nat ->
  0 <= fb_ring_top s + Z.of_nat y < 2 ^ 32 /\ 0 <= (fb_ring_top s + Z.of_nat y) * pitch (fb s) < 2 ^ 32 /\ 0 < pitch (fb s).
Proof.
  intros Hok Hy. destruct (ok_rows s Hok) as (Hl & Ht & HP & EP & EH & ET). pose proof (ok_small _ Hok) as Hs.
  assert (nR s <= 2 * nH s)%nat as HR by (unfold nR; destruct (back s); lia).
  assert (Z.of_nat (nT s + y + 1) * pitch (fb s) <= 2 * height (fb s) * pitch (fb s)) as Hb.
  { apply Z.mul_le_mono_nonneg_r; lia. }
  assert (Z.of_nat (nT s + y + 1) <= Z.of_nat (nT s + y + 1) * pitch (fb s)) by (apply Z.le_mul_diag_r; lia).
  rewrite <- ET. split_and!; lia.
Qed.

Lemma row_ptr_ok s y : fb_ok s -> (y < nH s)%nat -> fb_row_ptr (Z.of_nat y) s = Z.of_nat ((nT s + y) * nP s).
Proof.
  intros Hok Hy. destruct (ok_rows s Hok) as (_ & _ & _ & EP & _ & ET). destruct (row_bounds s y Hok Hy) as (H1 & H2 & _).
  unfold fb_row_ptr. rewrite (u32_small (_ + _)), u32_small by lia. lia.
Qed.

(** Rows [y], ..., [y + h - 1], each changed by [g]. *)
Lemma for_rows_spec (row : Z -> fbstate -> run fbstate) (g : list Z -> list Z) (h y : nat) s :
  fb_ok s -> (y + h <= nH s)%nat ->
  (forall s1 j, fb_ok s1 -> fmt s1 = fmt s -> (j < nH s)%nat -> exists s2, row (Z.of_nat j) s1 = Ret s2 /\ painted j g s1 s2) ->
  exists s', for_rows (seqZ (Z.of_nat y) (Z.of_nat h)) row s = Ret s' /\
    drawn (fun j => y <= j < y + h)%nat (fun j r => if decide (y <= j < y + h)%nat then g r else r) s s'.
Proof.
  revert y s. induction h as [|h IH]; intros y s Hok Hy Hrow.
  { exists s. split; [done|]. eapply drawn_ext; [done| | |by apply drawn_id]; [|lia]. intros j r _ _. by rewrite decide_False by lia. }
  rewrite seqZ_cons by lia. cbn [for_rows]. replace (Z.succ (Z.of_nat y)) with (Z.of_nat (S y)) by lia.
  replace (Z.pred (Z.of_nat (S h))) with (Z.of_nat h) by lia.
  destruct (Hrow s y Hok eq_refl ltac:(lia)) as (s1 & -> & Hp). rewrite bind_ret.
  pose proof (painted_drawn y g s s1 Hok ltac:(lia) Hp) as D1. set (s2 := fb_mark_dirty (Z.of_nat y) s1) in *.
  destruct (fmt_sizes _ _ (dr_fmt _ _ _ _ D1)) as (_ & EP & EH & _).
  destruct (IH (S y) s2 (dr_ok _ _ _ _ D1) ltac:(lia)) as (s' & -> & D2).
  { intros s3 j Hok3 Hf Hj. apply Hrow; [done| |lia]. by rewrite Hf, (dr_fmt _ _ _ _ D1). }
  exists s'. split; [done|]. eapply drawn_ext; [done| | |exact (drawn_trans _ _ _ _ _ _ _ D1 D2)].
  - intros j r _ _. cbn. repeat case_decide; try done; lia.
  - cbn. lia.
Qed.

Lemma picture_lookup s j : picture s !! j = if decide (j < nH s)%nat then Some (line s j) else None.
Proof.
  unfold picture. rewrite list_lookup_fmap. case_decide.
  - by rewrite lookup_seq_lt by done.
  - by rewrite lookup_seq_ge by lia.
Qed.

Lemma drawn_picture T f s s' : drawn T f s s' -> picture s' = imap f (picture s).
Proof.
  intros [O F Tp L M B S]. destruct (fmt_sizes _ _ F) as (_ & _ & EH & _). apply list_eq. intros j.
  rewrite list_lookup_imap, !picture_lookup, EH. case_decide; cbn; [|done]. by rewrite L.
Qed.

Lemma length_pixel_bytes v s : fb_ok s -> length (pixel_bytes v s) = Z.to_nat (fb_bytes_pp s).
Proof.
  intros Hok. pose proof (ok_pp _ Hok). unfold pixel_bytes.
  destruct (Z.eqb_spec (fb_bytes_pp s) 4) as [->|]; [apply length_le_bytes|].
  destruct (Z.eqb_spec (fb_bytes_pp s) 3) as [->|]; [done|].
  destruct (Z.eqb_spec (fb_bytes_pp s) 2) as [->|]; [apply length_le_bytes|]. by replace (fb_bytes_pp s) with 1 by lia.
Qed.

(** A span of [w] pixels from the column [x] on. *)
Definition span (x w v : Z) (s : fbstate) : list Z -> list Z :=
  splice (Z.to_nat (x * fb_bytes_pp s)) (mjoin (replicate (Z.to_nat w) (pixel_bytes v s))).

Section Rect.
Context (s : fbstate) (x w : Z) (v : Z).
Hypothesis s_ok : fb_ok s.
Hypothesis x_ok : 0 <= x.
Hypothesis w_ok : 0 <= w.
Hypothesis xw_ok : x + w <= width (fb s).

Lemma span_fits : (Z.to_nat (x * fb_bytes_pp s) + Z.to_nat w * Z.to_nat (fb_bytes_pp s) <= nP s)%nat.
Proof.
  pose proof (ok_row _ s_ok). pose proof (ok_pp _ s_ok). unfold nP.
  assert ((x + w) * fb_bytes_pp s <= pitch (fb s)) by nia. nia.
Qed.

(** Any row function that stores the span at the right place. *)
Lemma span_row (bs : list Z) s1 j off :
  fb_ok s1 -> fmt s1 = fmt s -> (j < nH s)%nat -> bs = pixel_bytes v s ->
  off = Z.of_nat ((nT s1 + j) * nP s) + x * fb_bytes_pp s ->
  exists s2, fill_bytes (Z.to_nat w) off bs s1 = Ret s2 /\ painted j (span x w v s) s1 s2.
Proof.
  intros Hok1 Hf Hj -> ->. destruct (fmt_sizes _ _ Hf) as (_ & EP & EH & _). pose proof (ok_pp _ s_ok).
  apply fill_bytes_spec; [done|lia| |].
  - rewrite EP, (length_pixel_bytes v s s_ok). apply span_fits.
  - rewrite EP. lia.
Qed.

Lemma rect_rows (row : Z -> fbstate -> run fbstate) (y h : nat) :
  (y + h <= nH s)%nat ->
  (forall s1 j, fb_ok s1 -> fmt s1 = fmt s -> (j < nH s)%nat ->
     row (Z.of_nat j) s1 = fill_bytes (Z.to_nat w) (Z.of_nat ((nT s1 + j) * nP s) + x * fb_bytes_pp s) (pixel_bytes v s) s1) ->
  exists s', for_rows (seqZ (Z.of_nat y) (Z.of_nat h)) row s = Ret s' /\
    drawn (fun j => y <= j < y + h)%nat (fun j r => if decide (y <= j < y + h)%nat then span x w v s r else r) s s'.
Proof.
  intros Hy Hrow. apply for_rows_spec; [done|done|]. intros s1 j Hok1 Hf Hj. rewrite Hrow by done.
  by apply span_row.
Qed.

Lemma row_ptr_fmt s1 j : fb_ok s1 -> fmt s1 = fmt s -> (j < nH s)%nat ->
  fb_row_ptr (Z.of_nat j) s1 = Z.of_nat ((nT s1 + j) * nP s).
Proof.
  intros Hok1 Hf Hj. destruct (fmt_sizes _ _ Hf) as (_ & EP & EH & _). rewrite row_ptr_ok by (done || lia). by rewrite EP.
Qed.

Lemma rect_fast (y h : nat) : fb_bytes_pp s = 4 -> (y + h <= nH s)%nat ->
  exists s', fb_fill_rect_fast x (Z.of_nat y) w (Z.of_nat h) v s = Ret s' /\
    drawn (fun j => y <= j < y + h)%nat (fun j r => if decide (y <= j < y + h)%nat then span x w v s r else r) s s'.
Proof.
  intros E4 Hy. apply rect_rows; [done|]. intros s1 j Hok1 Hf Hj. rewrite fill_words_eq.
  destruct (fmt_sizes _ _ Hf) as (Ef & EP & EH & Epp). unfold pixel_bytes. rewrite E4, Z.eqb_refl. f_equal.
  pose proof (ok_align _ s_ok E4) as Hal. destruct (ok_rows s1 Hok1) as (_ & Ht & _ & EP1 & EH1 & ET1).
  destruct (row_bounds s1 j Hok1 ltac:(lia)) as (B1 & B2 & B3). rewrite Ef in *.
  set (q := pitch (fb s) / 4). assert (pitch (fb s) = 4 * q) as Eq by (subst q; Z.div_mod_to_equations; lia).
  rewrite (u32_small (_ + _)) by lia. rewrite u32_small by nia. rewrite <- EP. lia.
Qed.

Lemma rect_24 (y h : nat) : fb_bytes_pp s = 3 -> (y + h <= nH s)%nat ->
  exists s', fb_fill_rect_24 x (Z.of_nat y) w (Z.of_nat h) v s = Ret s' /\
    drawn (fun j => y <= j < y + h)%nat (fun j r => if decide (y <= j < y + h)%nat then span x w v s r else r) s s'.
Proof.
  intros E3 Hy. apply rect_rows; [done|]. intros s1 j Hok1 Hf Hj. rewrite row_ptr_fmt by done.
  unfold pixel_bytes. by rewrite E3.
Qed.

Lemma rect_16 (y h : nat) : fb_bytes_pp s = 2 -> (y + h <= nH s)%nat ->
  exists s', fb_fill_rect_16 x (Z.of_nat y) w (Z.of_nat h) v s = Ret s' /\
    drawn (fun j => y <= j < y + h)%nat (fun j r => if decide (y <= j < y + h)%nat then span x w v s r else r) s s'.
Proof.
  intros E2 Hy. apply rect_rows; [done|]. intros s1 j Hok1 Hf Hj. rewrite row_ptr_fmt by done.
  unfold pixel_bytes. by rewrite E2.
Qed.

Lemma rect_8 (y h : nat) : fb_bytes_pp s = 1 -> (y + h <= nH s)%nat ->
  exists s', fb_fill_rect_8 x (Z.of_nat y) w (Z.of_nat h) v s = Ret s' /\
    drawn (fun j => y <= j < y + h)%nat (fun j r => if decide (y <= j < y + h)%nat then span x w v s r else r) s s'.
Proof.
  intros E1 Hy. apply for_rows_spec; [done|done|]. intros s1 j Hok1 Hf Hj. rewrite row_ptr_fmt by done.
  destruct (fmt_sizes _ _ Hf) as (_ & EP & EH & _). unfold span, pixel_bytes. rewrite E1. cbn [Z.eqb Pos.eqb].
  replace (mjoin (replicate (Z.to_nat w) [u8 v])) with (replicate (Z.to_nat w) (u8 v)).
  - apply put_row; [done|lia| |rewrite EP; lia]. rewrite length_replicate, EP. pose proof span_fits as Hfit. rewrite E1 in Hfit. lia.
  - induction (Z.to_nat w) as [|n IH]; [done|]. cbn. by rewrite IH.
Qed.
End Rect.

Lemma span_none x w v s r : w <= 0 -> span x w v s r = r.
Proof. intros. unfold span. replace (Z.to_nat w) with 0%nat by lia. apply splice_nil. Qed.

Lemma fill_rect_drawn s x y w h color :
  fb_ok s -> 0 <= x -> 0 <= y -> 0 <= w -> 0 <= h ->
  exists s', framebuffer_fill_rect x y w h color s = Ret s' /\
    drawn (fun j => y <= Z.of_nat j < y + h /\ 0 < w /\ x < width (fb s))
      (fun j r => if decide (y <= Z.of_nat j < y + h)
                  then span x (Z.min w (width (fb s) - x)) (fb_pack color s) s r else r) s s'.
Proof.
  intros Hok Hx Hy Hw Hh. unfold framebuffer_fill_rect. rewrite (ok_ready _ Hok). cbn [negb orb].
  destruct (ok_rows s Hok) as (_ & _ & _ & _ & EH & _).
  assert (Hnone : (forall j, (j < nH s)%nat -> y <= Z.of_nat j < y + h -> Z.min w (width (fb s) - x) <= 0) ->
    exists s', Ret s = Ret s' /\ drawn (fun j => y <= Z.of_nat j < y + h /\ 0 < w /\ x < width (fb s))
      (fun j r => if decide (y <= Z.of_nat j < y + h)
                  then span x (Z.min w (width (fb s) - x)) (fb_pack color s) s r else r) s s').
  { intros Hs. exists s. split; [done|]. eapply drawn_ext; [done| | |by apply drawn_id].
    - intros j r Hj _. cbn. case_decide; [|done]. by rewrite span_none by eauto.
    - intros j Hj (Hr & ? & ?). specialize (Hs j Hj Hr). lia. }
  destruct (Z.eqb_spec w 0) as [->|]; [apply Hnone; lia|].
  destruct (Z.eqb_spec h 0) as [->|]; [apply Hnone; lia|]. cbn [orb].
  destruct (Z.leb_spec (width (fb s)) x); [apply Hnone; lia|].
  destruct (Z.leb_spec (height (fb s)) y); [apply Hnone; lia|]. cbn [orb].
  set (w1 := if width (fb s) - x <? w then width (fb s) - x else w).
  set (h1 := if height (fb s) - y <? h then height (fb s) - y else h).
  assert (w1 = Z.min w (width (fb s) - x)) as Ew1 by (subst w1; destruct (Z.ltb_spec (width (fb s) - x) w); lia).
  assert (h1 = Z.min h (height (fb s) - y)) as Eh1 by (subst h1; destruct (Z.ltb_spec (height (fb s) - y) h); lia).
  clearbody w1 h1. assert (Z.to_nat y + Z.to_nat h1 <= nH s)%nat as Hfit by lia.
  rewrite <- (Z2Nat.id y), <- (Z2Nat.id h1) by lia. rewrite <- Ew1.
  assert (Hext : forall s', drawn (fun j => Z.to_nat y <= j < Z.to_nat y + Z.to_nat h1)%nat
      (fun j r => if decide (Z.to_nat y <= j < Z.to_nat y + Z.to_nat h1)%nat
      then span x w1 (fb_pack color s) s r else r) s s' ->
    drawn (fun j => Z.of_nat (Z.to_nat y) <= Z.of_nat j < Z.of_nat (Z.to_nat y) + h /\ 0 < w /\ x < width (fb s)) (fun j r => if decide (Z.of_nat (Z.to_nat y) <= Z.of_nat j < Z.of_nat (Z.to_nat y) + h)
      then span x w1 (fb_pack color s) s r else r) s s').
  { intros s'. apply drawn_ext; [done| |lia]. intros j r Hj _. repeat case_decide; try done; lia. }
  pose proof (ok_pp _ Hok).
  destruct (Z.eqb_spec (fb_bytes_pp s) 4);
    [|destruct (Z.eqb_spec (fb_bytes_pp s) 3); [|destruct (Z.eqb_spec (fb_bytes_pp s) 2)]].
  - destruct (rect_fast s x w1 (fb_pack color s) Hok Hx ltac:(lia) ltac:(lia) (Z.to_nat y) (Z.to_nat h1)) as (s' & -> & D); eauto.
  - destruct (rect_24 s x w1 (fb_pack color s) Hok Hx ltac:(lia) ltac:(lia) (Z.to_nat y) (Z.to_nat h1)) as (s' & -> & D); eauto.
  - destruct (rect_16 s x w1 (fb_pack color s) Hok Hx ltac:(lia) ltac:(lia) (Z.to_nat y) (Z.to_nat h1)) as (s' & -> & D); eauto.
  - destruct (rect_8 s x w1 (fb_pack color s) Hok Hx ltac:(lia) ltac:(lia) (Z.to_nat y) (Z.to_nat h1)) as (s' & -> & D); [lia|done|eauto].
Qed.

(** ** Pixels *)

Definition pixels_bytes (s : fbstate) (ps : list Z) : list Z := ps ≫= (fun p => pixel_bytes (fb_pack p s) s).

Lemma length_pixels_bytes s ps : fb_ok s -> length (pixels_bytes s ps) = (length ps * Z.to_nat (fb_bytes_pp s))%nat.
Proof.
  intros Hok. induction ps as [|p ps IH]; [done|]. unfold pixels_bytes in *. rewrite bind_cons, length_app, IH.
  rewrite length_pixel_bytes by done. cbn. lia.
Qed.

Lemma store_pixels_spec ps y o s off :
  fb_ok s -> (y < nH s)%nat -> (o + length ps * Z.to_nat (fb_bytes_pp s) <= nP s)%nat -> off = Z.of_nat ((nT s + y) * nP s + o) ->
  exists s', store_pixels off ps s = Ret s' /\ painted y (splice o (pixels_bytes s ps)) s s'.
Proof.
  revert s o off. induction ps as [|p ps IH]; intros s o off Hok Hy Ho ->; cbn [store_pixels].
  { exists s. split; [done|]. eapply painted_ext; [|done..|apply painted_id]. intros r _. by rewrite splice_nil. }
  cbn [length Nat.mul] in Ho. pose proof (ok_pp _ Hok). unfold fb_store_pixel.
  pose proof (length_pixel_bytes (fb_pack p s) s Hok) as Hlen.
  destruct (put_row s y o (pixel_bytes (fb_pack p s) s) _ Hok Hy ltac:(lia) eq_refl) as (s1 & -> & H1). rewrite bind_ret.
  pose proof (painted_fields _ _ _ _ H1) as (_ & _ & Epp & _ & EP & EH & ET & Epk & Epx).
  destruct (IH s1 (o + length (pixel_bytes (fb_pack p s) s))%nat (Z.of_nat ((nT s + y) * nP s + o) + fb_bytes_pp s1)) as (s2 & -> & H2).
  { by eapply painted_ok. } { by rewrite EH. } { rewrite EP, Epp, Hlen. lia. } { rewrite ET, EP, Epp, Hlen. lia. }
  exists s2. split; [done|].
  assert (pixels_bytes s1 ps = pixels_bytes s ps) as E.
  { unfold pixels_bytes. apply list_bind_ext; [|done]. intros q. by rewrite Epk, Epx. }
  rewrite E in H2. change (pixels_bytes s (p :: ps)) with (pixel_bytes (fb_pack p s) s ++ pixels_bytes s ps).
  eapply put_then; [done..| |exact H1|exact H2]. rewrite Hlen, length_pixels_bytes by done. lia.
Qed.

(** The layout for which colours need no conversion. *)
Definition canonical (s : fbstate) : Prop :=
  fb_bytes_pp s = 4 /\ fb_rloss s = 0 /\ fb_gloss s = 0 /\ fb_bloss s = 0 /\
  red_mask_shift (fb s) = 16 /\ green_mask_shift (fb s) = 8 /\ blue_mask_shift (fb s) = 0.

Lemma pack_canonical s c : canonical s -> 0 <= c < 2 ^ 24 -> fb_pack c s = c.
Proof.
  intros (_ & E1 & E2 & E3 & E4 & E5 & E6) Hc. unfold fb_pack. rewrite E1, E2, E3, E4, E5, E6, !Z.shiftr_0_r, Z.shiftl_0_r.
  assert (Z.lor (Z.lor (Z.shiftl (Z.land (Z.shiftr c 16) 255) 16) (Z.shiftl (Z.land (Z.shiftr c 8) 255) 8)) (Z.land c 255) = c) as ->.
  { apply Z.bits_inj'. intros i Hi. rewrite !Z.lor_spec, !Z.shiftl_spec, !Z.land_spec by lia.
    change 255 with (Z.ones 8).
    destruct (decide (i < 8)); [|destruct (decide (i < 16)); [|destruct (decide (i < 24))]].
    - rewrite !(Z.testbit_neg_r _ (i - _)), (Z.ones_spec_low 8 i) by lia. by rewrite andb_true_r, orb_false_l.
    - rewrite (Z.testbit_neg_r _ (i - 16)), (Z.ones_spec_high 8 i), (Z.ones_spec_low 8 (i - 8)) by lia.
      rewrite Z.shiftr_spec by lia. rewrite andb_true_r, andb_false_r, orb_false_r, orb_false_l. f_equal. lia.
    - rewrite (Z.ones_spec_high 8 i), (Z.ones_spec_high 8 (i - 8)), (Z.ones_spec_low 8 (i - 16)) by lia.
      rewrite (Z.shiftr_spec c 16) by lia. rewrite andb_true_r, !andb_false_r, !orb_false_r. f_equal. lia.
    - rewrite !Z.ones_spec_high by lia. rewrite !andb_false_r.
      rewrite <- (Z.mod_small c (2 ^ 24)) by lia. by rewrite Z.mod_pow2_bits_high by lia. }
  apply u32_small. lia.
Qed.

Lemma putpixels_drawn s x y ps :
  fb_ok s -> 0 <= x -> 0 <= y -> Forall (fun p => 0 <= p < 2 ^ 24) ps ->
  exists s', framebuffer_putpixels x y ps s = Ret s' /\
    drawn (fun j => False) (fun j r => if decide (Z.of_nat j = y)
      then splice (Z.to_nat (x * fb_bytes_pp s)) (pixels_bytes s (take (Z.to_nat (width (fb s) - x)) ps)) r else r) s s'.
Proof.
  intros Hok Hx Hy Hps. unfold framebuffer_putpixels. rewrite (ok_ready _ Hok). cbn [negb orb].
  destruct (ok_rows s Hok) as (_ & _ & _ & _ & EH & _). pose proof (ok_pp _ Hok) as Hpp. pose proof (ok_row _ Hok) as Hrow.
  assert (Hnone : (y < height (fb s) -> take (Z.to_nat (width (fb s) - x)) ps = []) -> exists s', Ret s = Ret s' /\
    drawn (fun j => False) (fun j r => if decide (Z.of_nat j = y)
      then splice (Z.to_nat (x * fb_bytes_pp s)) (pixels_bytes s (take (Z.to_nat (width (fb s) - x)) ps)) r else r) s s').
  { intros Ht. exists s. split; [done|]. eapply drawn_ext; [done| |done|by apply drawn_id].
    intros j r Hj _. cbn. case_decide; [|done]. rewrite Ht by lia. by rewrite splice_nil. }
  destruct (Z.leb_spec (height (fb s)) y); [apply Hnone; lia|].
  destruct (Z.leb_spec (width (fb s)) x); [apply Hnone; intros _; by replace (Z.to_nat (width (fb s) - x)) with 0%nat by lia|].
  cbn [orb]. destruct (Z.eqb_spec (Z.of_nat (length ps)) 0) as [E0|Hn0].
  { apply Hnone. intros _. destruct ps; [by rewrite take_nil|cbn in E0; lia]. }
  set (n := if width (fb s) - x <? Z.of_nat (length ps) then width (fb s) - x else Z.of_nat (length ps)).
  assert (take (Z.to_nat n) ps = take (Z.to_nat (width (fb s) - x)) ps) as ->.
  { subst n. destruct (Z.ltb_spec (width (fb s) - x) (Z.of_nat (length ps))); [done|]. rewrite !take_ge by lia. done. }
  clearbody n. clear n. set (qs := take (Z.to_nat (width (fb s) - x)) ps).
  assert (Forall (fun p => 0 <= p < 2 ^ 24) qs) as Hqs by (by apply Forall_take).
  assert (Z.of_nat (length qs) <= width (fb s) - x) as Hl by (subst qs; rewrite length_take; lia).
  set (j := Z.to_nat y). assert (y = Z.of_nat j) as Ey by lia. assert (j < nH s)%nat as Hj by lia.
  set (o := Z.to_nat (x * fb_bytes_pp s)).
  assert (o + length qs * Z.to_nat (fb_bytes_pp s) <= nP s)%nat as Hfit.
  { subst o. unfold nP. assert ((x + Z.of_nat (length qs)) * fb_bytes_pp s <= pitch (fb s)) by nia. nia. }
  assert (fb_row_ptr y s + x * fb_bytes_pp s = Z.of_nat ((nT s + j) * nP s + o)) as Eoff by (rewrite Ey, row_ptr_ok by done; lia).
  rewrite Eoff. lazymatch goal with |- exists _, mbind _ ?m = _ /\ _ =>
    assert (exists s1, m = Ret s1 /\ painted j (splice o (pixels_bytes s qs)) s s1) as (s1 & -> & Hp) end.
  { match goal with |- context [if ?c then _ else _] => destruct c eqn:Ec end; [|by apply store_pixels_spec].
    rewrite !andb_true_iff, !Z.eqb_eq in Ec. destruct Ec as ((((((C1 & C2) & C3) & C4) & C5) & C6) & C7).
    replace (pixels_bytes s qs) with (qs ≫= le_bytes 4).
    - apply put_row; try done. rewrite C1 in Hfit. clear -Hfit. enough (length (qs ≫= le_bytes 4) = length qs * 4)%nat by lia.
      clear. induction qs as [|q qs IH]; [done|]. rewrite bind_cons, length_app, IH, length_le_bytes. cbn. lia.
    - clear -Hqs C1 C2 C3 C4 C5 C6 C7. unfold pixels_bytes. induction Hqs as [|q qs Hq _ IH]; [done|].
      rewrite !bind_cons, IH. f_equal. rewrite pack_canonical by (done || by repeat split). unfold pixel_bytes. by rewrite C1. }
  rewrite bind_ret, Ey. eexists. split; [done|]. eapply drawn_ext; [done| |done|by apply painted_drawn].
  intros i r Hi _. cbn. repeat case_decide; try done; lia.
Qed.

Lemma putpixel_drawn s x y c :
  fb_ok s -> 0 <= x -> 0 <= y ->
  exists s', framebuffer_putpixel x y c s = Ret s' /\
    drawn (fun j => False) (fun j r => if decide (Z.of_nat j = y /\ x < width (fb s))
      then splice (Z.to_nat (x * fb_bytes_pp s)) (pixel_bytes (fb_pack c s) s) r else r) s s'.
Proof.
  intros Hok Hx Hy. unfold framebuffer_putpixel. rewrite (ok_ready _ Hok). cbn [negb orb].
  destruct (ok_rows s Hok) as (_ & _ & _ & _ & EH & _). pose proof (ok_pp _ Hok) as Hpp. pose proof (ok_row _ Hok) as Hrow.
  destruct (Z.leb_spec (width (fb s)) x); [|destruct (Z.leb_spec (height (fb s)) y)]; cbn [orb].
  1,2: exists s; split; [done|]; eapply drawn_ext; [done| |done|by apply drawn_id]; intros j r Hj _; cbn; by rewrite decide_False by lia.
  set (j := Z.to_nat y). assert (y = Z.of_nat j) as Ey by lia. assert (j < nH s)%nat as Hj by lia.
  destruct (put_row s j (Z.to_nat (x * fb_bytes_pp s)) (pixel_bytes (fb_pack c s) s) (fb_row_ptr y s + x * fb_bytes_pp s)) as (s1 & Hs1 & Hp).
  { done. } { done. } { rewrite length_pixel_bytes by done. unfold nP. nia. } { rewrite Ey, row_ptr_ok by done. lia. }
  unfold fb_store_pixel. rewrite Hs1, bind_ret, Ey. eexists. split; [done|]. eapply drawn_ext; [done| |done|by apply painted_drawn].
  intros i r Hi _. cbn. repeat case_decide; try done; lia.
Qed.

Lemma pixels_bytes_fmt s s' ps : fmt s' = fmt s -> pixels_bytes s' ps = pixels_bytes s ps.
Proof.
  intros Hf. destruct (fmt_pack _ _ Hf) as [E1 E2]. unfold pixels_bytes. apply list_bind_ext; [|done]. intros q. by rewrite E1, E2.
Qed.

(** ** Flushing *)

Lemma set_screen_ok l s : fb_ok s -> back s <> None -> length l = length (screen s) -> fb_ok (set_screen l s).
Proof. intros [R W H PP ROW AL SM SC D B] Hb Hl. constructor; cbn; try done. by rewrite Hl. Qed.

Lemma copy_row s b y :
  fb_ok s -> back s = Some b -> (y < nH s)%nat ->
  exists l, fb_copy_fast (Z.of_nat y * pitch (fb s)) (u32 (fb_ring_top s + Z.of_nat y) * pitch (fb s)) (pitch (fb s))
      (back_bytes b) (screen s) = Ret l /\ length l = length (screen s) /\
    forall j, rowof (nP s) j l = if decide (j = y) then line s j else rowof (nP s) j (screen s).
Proof.
  intros Hok Eb Hy. destruct (ok_rows s Hok) as (Hl & Ht & HP & EP & EH & ET). destruct (row_bounds s y Hok Hy) as (B1 & B2 & B3).
  pose proof (ok_screen _ Hok) as Hsc. assert (base s = back_bytes b) as Ebase by (unfold base; by rewrite Eb). rewrite Ebase in Hl.
  assert (S (nT s + y) * nP s <= length (back_bytes b))%nat as Hr1 by nia.
  assert (S y * nP s <= length (screen s))%nat as Hr2 by nia.
  rewrite u32_small by lia. rewrite fb_copy_fast_ok by nia. eexists. split; [done|].
  assert (Z.to_nat ((fb_ring_top s + Z.of_nat y) * pitch (fb s)) = (nT s + y) * nP s)%nat as -> by nia.
  assert (Z.to_nat (Z.of_nat y * pitch (fb s)) = y * nP s + 0)%nat as -> by nia.
  assert (Z.to_nat (pitch (fb s)) = nP s) as -> by lia. fold (rowof (nP s) (nT s + y) (back_bytes b)).
  pose proof (row_length _ _ _ Hr1) as Hlr. split; [apply length_splice; lia|]. intros j. rewrite row_splice by lia.
  case_decide as Hj; [|done]. subst j. unfold line. rewrite Ebase.
  unfold splice. rewrite take_0, Hlr, drop_ge by (rewrite row_length; lia). by rewrite app_nil_r.
Qed.

Lemma flush_rows_spec s b n a :
  fb_ok s -> back s = Some b -> (a + n <= nH s)%nat ->
  exists l, flush_rows (seqZ (Z.of_nat a) (Z.of_nat n)) s b = Ret (set_screen l s) /\ length l = length (screen s) /\
    forall j, rowof (nP s) j l = if decide (a <= j < a + n)%nat then line s j else rowof (nP s) j (screen s).
Proof.
  revert a s. induction n as [|n IH]; intros a s Hok Eb Ha.
  { exists (screen s). split; [by destruct s|]. split; [done|]. intros j. by rewrite decide_False by lia. }
  rewrite seqZ_cons by lia. cbn [flush_rows]. replace (Z.succ (Z.of_nat a)) with (Z.of_nat (S a)) by lia.
  replace (Z.pred (Z.of_nat (S n))) with (Z.of_nat n) by lia.
  destruct (copy_row s b a Hok Eb ltac:(lia)) as (l1 & -> & L1 & R1). rewrite bind_ret.
  destruct (IH (S a) (set_screen l1 s)) as (l2 & -> & L2 & R2).
  { apply set_screen_ok; [done| |done]. by rewrite Eb. } { done. } { change (nH (set_screen l1 s)) with (nH s). lia. }
  exists l2. split; [done|]. cbn [set_screen screen] in L2. split; [congruence|]. intros j.
  change (nP (set_screen l1 s)) with (nP s) in R2. rewrite R2. cbn [set_screen screen]. rewrite R1.
  assert (line (set_screen l1 s) j = line s j) as -> by (unfold line, base; cbn; by rewrite Eb).
  repeat case_decide; try done; lia.
Qed.

(** The state after a flush: only the display and the marks may change. *)
Record flushed (s s' : fbstate) : Prop :=
  { fl_ok : fb_ok s';
    fl_fmt : fmt s' = fmt s;
    fl_line : forall j, line s' j = line s j;
    fl_blank : blank_below s -> blank_below s';
    fl_top : fb_ring_top s' = fb_ring_top s;
    fl_shown : in_sync s -> shown s' = picture s;
    fl_sync : in_sync s -> in_sync s' }.

Lemma shown_rows s f : (forall j, (j < nH s)%nat -> rowof (nP s) j (screen s) = f j) -> shown s = f <$> seq 0 (nH s).
Proof. intros H. unfold shown. apply list_fmap_ext. intros i x Hx. apply lookup_seq in Hx as [-> ?]. apply H. lia. Qed.

Lemma flush_clean s s' :
  fb_ok s -> fb_ok s' -> fmt s' = fmt s -> (forall j, line s' j = line s j) -> fb_ring_top s' = fb_ring_top s ->
  (blank_below s -> blank_below s') ->
  (in_sync s -> forall j, (j < nH s)%nat -> rowof (nP s) j (screen s') = line s j) -> flushed s s'.
Proof.
  intros Hok Hok' Hf Hl Ht Hb Hrow. destruct (fmt_sizes _ _ Hf) as (_ & EP & EH & _). constructor; try done.
  - intros Hs. rewrite (shown_rows s' (line s)).
    + by rewrite EH.
    + intros j Hj. rewrite EP. apply Hrow; [done|lia].
  - intros Hs j Hj _. rewrite EP, Hl. apply Hrow; [done|lia].
Qed.

Lemma flush_spec s : fb_ok s -> exists s', framebuffer_flush s = Ret s' /\ flushed s s'.
Proof.
  intros Hok. unfold framebuffer_flush. rewrite (ok_ready _ Hok). cbn [negb orb].
  destruct (ok_rows s Hok) as (Hl & Ht & HP & EP & EH & ET). pose proof (ok_dirty _ Hok) as [Hd1 Hd2].
  destruct (Z.leb_spec (fb_dirty_max s) (fb_dirty_min s)) as [Hd|Hd].
  { exists s. split; [done|]. apply flush_clean; try done. intros Hs j Hj. apply Hs; [done|lia]. }
  destruct (back s) as [b|] eqn:Eb; cycle 1.
  { rewrite bind_ret. eexists. split; [done|]. apply flush_clean; try done.
    - destruct Hok as [R W H PP ROW AL SM SC D B]. constructor; try done. cbn. lia.
    - intros _ j Hj. pose proof (ok_back _ Hok) as B. rewrite Eb in B. cbn. unfold line, base, nT. by rewrite Eb, B. }
  rewrite (proj2 (Z.ltb_ge _ _)) by lia.
  assert (Hdone : forall l, length l = length (screen s) ->
    (forall j, (j < nH s)%nat -> rowof (nP s) j l = if decide (fb_dirty_min s <= Z.of_nat j < fb_dirty_max s) then line s j else rowof (nP s) j (screen s)) ->
    flushed s (fb_reset_dirty (set_screen l s))).
  { intros l Ll Rl. assert (forall j, line (fb_reset_dirty (set_screen l s)) j = line s j) as Hline
      by (intros j; unfold line, base; cbn; by rewrite Eb).
    apply flush_clean; try done.
    - pose proof (set_screen_ok l s Hok ltac:(by rewrite Eb) Ll) as [R W H PP ROW AL SM SC D B]. constructor; try done. cbn. lia.
    - unfold blank_below. cbn. rewrite Eb. unfold base. cbn. by rewrite Eb.
    - intros Hs j Hj. cbn. rewrite Rl by done. case_decide; [done|]. apply Hs; [done|lia]. }
  assert (Hrows : exists s', (s1 ← flush_rows (seqZ (fb_dirty_min s) (fb_dirty_max s - fb_dirty_min s)) s b; Ret (fb_reset_dirty s1)) = Ret s' /\
    flushed s s').
  { destruct (flush_rows_spec s b (Z.to_nat (fb_dirty_max s - fb_dirty_min s)) (Z.to_nat (fb_dirty_min s)) Hok Eb ltac:(lia)) as (l & Hr & Ll & Rl).
    rewrite !Z2Nat.id in Hr by lia. rewrite Hr, bind_ret. eexists. split; [done|]. apply Hdone; [done|]. intros j Hj.
    rewrite Rl. repeat case_decide; try done; lia. }
  destruct (Z.eqb_spec (fb_dirty_min s) 0) as [E1|E1]; [destruct (Z.eqb_spec (fb_dirty_max s) (height (fb s))) as [E2|E2]|]; cbn [andb].
  - assert (base s = back_bytes b) as Ebase by (unfold base; by rewrite Eb). rewrite Ebase in Hl.
    pose proof (ok_small _ Hok) as Hsm. pose proof (ok_screen _ Hok) as Hsc. unfold nR in Ht, Hl. rewrite Eb in Ht, Hl.
    rewrite u32_small by nia. rewrite fb_copy_fast_ok by nia. rewrite !bind_ret. eexists. split; [done|].
    set (c := take _ _). assert (length c = length (screen s)) as Lc by (subst c; rewrite length_take, length_drop; nia).
    assert (splice (Z.to_nat 0) c (screen s) = c) as ->.
    { unfold splice. change (Z.to_nat 0) with 0%nat. rewrite take_0, drop_ge by lia. by rewrite app_nil_r. }
    apply Hdone; [done|]. intros j Hj. rewrite decide_True by lia. subst c. unfold rowof, line. rewrite Ebase. unfold rowof.
    rewrite skipn_firstn_comm.
    rewrite take_take, drop_drop. f_equal; [nia|]. f_equal. nia.
  - exact Hrows.
  - exact Hrows.
Qed.

(** ** Scrolling *)

Lemma row_splice_rows P a k bs l r :
  length bs = (k * P)%nat -> ((a + k) * P <= length l)%nat ->
  rowof P r (splice (a * P) bs l) = if decide (a <= r < a + k)%nat then rowof P (r - a) bs else rowof P r l.
Proof.
  intros Hb Hl. unfold rowof. case_decide as Hr.
  - replace (r * P)%nat with (a * P + (r - a) * P)%nat by nia. rewrite <- drop_drop.
    replace (a * P)%nat with (a * P + 0)%nat at 2 by lia. rewrite drop_splice_in by nia. unfold splice. rewrite take_0. cbn [app].
    assert ((r - a) * P + P <= length bs)%nat by nia. rewrite drop_app_le, take_app_le by (rewrite ?length_drop; lia). done.
  - destruct (decide (r < a)%nat).
    + rewrite !take_drop_commute. rewrite take_splice_out by nia. done.
    + rewrite drop_splice_out by nia. done.
Qed.

Lemma row_zeros P r n : (S r * P <= n)%nat -> rowof P r (replicate n 0) = replicate P 0.
Proof. intros. unfold rowof. rewrite drop_replicate, take_replicate. f_equal. nia. Qed.

(** Rows cleared one by one, starting at the row [a] of the buffer. *)
Lemma clear_rows_spec (row : Z -> Z) n a s :
  (forall j, (a <= j < a + n)%nat -> row (Z.of_nat j) = Z.of_nat (j * nP s)) -> pitch (fb s) = Z.of_nat (nP s) ->
  ((a + n) * nP s <= length (base s))%nat ->
  exists l, clear_rows (row <$> seqZ (Z.of_nat a) (Z.of_nat n)) (pitch (fb s)) s = Ret (set_base l s) /\ length l = length (base s) /\
    forall r, rowof (nP s) r l = if decide (a <= r < a + n)%nat then replicate (nP s) 0 else rowof (nP s) r (base s).
Proof.
  revert a s. induction n as [|n IH]; intros a s Hrow EP Hl.
  { exists (base s). split.
    - cbn. f_equal. unfold set_base, base. destruct s as [? ? ? ? ? ? ? ? ? ? bk]; cbn. by destruct bk as [[]|].
    - split; [done|]. intros r. by rewrite decide_False by lia. }
  rewrite seqZ_cons by lia. rewrite fmap_cons. cbn [clear_rows]. rewrite Hrow by lia.
  unfold buf_set at 1. change (u8 0) with 0. rewrite EP, Nat2Z.id, buf_store_ok, bind_ret, Nat2Z.id by (rewrite ?length_replicate; nia).
  set (l1 := splice _ _ _). assert (length l1 = length (base s)) as L1 by (apply length_splice; rewrite length_replicate; nia).
  replace (Z.succ (Z.of_nat a)) with (Z.of_nat (S a)) by lia. replace (Z.pred (Z.of_nat (S n))) with (Z.of_nat n) by lia.
  pose proof (set_base_fields l1 s) as (Ef & _). assert (nP (set_base l1 s) = nP s) as EP' by (unfold nP; by rewrite Ef).
  destruct (IH (S a) (set_base l1 s)) as (l2 & Hr & L2 & R2).
  { intros j Hj. rewrite EP'. apply Hrow. lia. } { by rewrite Ef, EP'. } { rewrite EP', base_set_base. lia. }
  rewrite Ef, EP, set_base_twice in Hr. rewrite Hr. rewrite base_set_base, EP' in *. exists l2. split; [done|]. split; [congruence|].
  intros r. rewrite R2. subst l1. rewrite (row_splice_rows _ _ 1) by (rewrite ?length_replicate; nia).
  repeat case_decide; try done; try lia. rewrite row_zeros by nia. done.
Qed.

(** What scrolling by [n] lines makes of a picture of [P] bytes a row. *)
Definition scrolled (P n : nat) (pic : list (list Z)) : list (list Z) :=
  drop n pic ++ replicate (Nat.min n (length pic)) (replicate P 0).

Lemma length_picture s : length (picture s) = nH s.
Proof. unfold picture. by rewrite length_fmap, length_seq. Qed.

Lemma picture_scrolled n s s' :
  fmt s' = fmt s ->
  (forall j, (j < nH s)%nat -> line s' j = if decide (j + n < nH s)%nat then line s (j + n) else replicate (nP s) 0) ->
  picture s' = scrolled (nP s) n (picture s).
Proof.
  intros Hf Hl. destruct (fmt_sizes _ _ Hf) as (_ & _ & EH & _). apply list_eq. intros j. unfold scrolled.
  rewrite length_picture, picture_lookup, EH. destruct (decide (j + n < nH s)%nat) as [Hj|Hj].
  - rewrite decide_True by lia. rewrite lookup_app_l by (rewrite length_drop, length_picture; lia).
    rewrite lookup_drop, picture_lookup, decide_True by lia. rewrite Hl, decide_True by lia. f_equal. f_equal. lia.
  - rewrite lookup_app_r by (rewrite length_drop, length_picture; lia). rewrite length_drop, length_picture.
    case_decide as Hj'.
    + rewrite lookup_replicate_2 by lia. by rewrite Hl, decide_False by lia.
    + symmetry. apply lookup_ge_None_2. rewrite length_replicate. lia.
Qed.

Lemma all_dirty_sync s : in_sync (fb_mark_all_dirty s).
Proof. intros j Hj Hd. cbn in Hd. change (nH (fb_mark_all_dirty s)) with (nH s) in Hj. unfold nH in Hj. lia. Qed.

(** [buf_move] to the front, then zeros behind. *)
Lemma move_clear_rows P H t l :
  (0 < P)%nat -> (t + H <= 2 * H)%nat -> (2 * H * P <= length l)%nat ->
  exists l1 l2, buf_move 0 (Z.of_nat (t * P)) (Z.of_nat (H * P)) l = Ret l1 /\
    buf_set (Z.of_nat (H * P)) 0 (Z.of_nat (H * P)) l1 = Ret l2 /\ length l2 = length l /\
    forall r, (r < 2 * H)%nat -> rowof P r l2 = if decide (r < H)%nat then rowof P (t + r) l else replicate P 0.
Proof.
  intros HP Ht Hl. unfold buf_move, buf_set. change (u8 0) with 0. assert (t * P + H * P <= length l)%nat by nia.
  rewrite buf_slice_ok, bind_ret, !Nat2Z.id by lia. set (c := take (H * P) (drop (t * P) l)).
  assert (length c = H * P)%nat as Lc by (subst c; rewrite length_take, length_drop; lia).
  rewrite buf_store_ok by lia. change (Z.to_nat 0) with (0 * P)%nat. set (l1 := splice (0 * P) c l).
  assert (length l1 = length l) as L1 by (apply length_splice; lia).
  exists l1, (splice (H * P) (replicate (H * P) 0) l1). split; [done|].
  rewrite buf_store_ok, Nat2Z.id by (rewrite ?length_replicate; lia). split; [done|].
  rewrite length_splice by (rewrite ?length_replicate; lia). split; [done|]. intros r Hr.
  rewrite (row_splice_rows _ _ H) by (rewrite ?length_replicate; lia). subst l1.
  rewrite (row_splice_rows _ _ H) by lia. repeat case_decide; try lia; [by rewrite row_zeros by nia|].
  rewrite Nat.sub_0_r. subst c. unfold rowof. rewrite skipn_firstn_comm, take_take, drop_drop. f_equal; [nia|]. f_equal. nia.
Qed.

(** The back buffer with its window at the front. *)
Lemma compacted_ok s b l :
  fb_ok s -> back s = Some b -> length l = length (back_bytes b) ->
  (forall r, (r < 2 * nH s)%nat -> rowof (nP s) r l = if decide (r < nH s)%nat then line s r else replicate (nP s) 0) ->
  let s1 := set_top 0 (set_back (Some (set_bytes l b)) s) in
  fb_ok s1 /\ blank_below s1 /\ forall j, (j < nH s)%nat -> line s1 j = line s j.
Proof.
  intros Hok Eb Hl Hrow s1. split; [|split].
  - destruct Hok as [R W H PP ROW AL SM SC D B]. rewrite Eb in B. destruct B as (B1 & B2 & B3 & B4).
    constructor; try done. cbn. rewrite Hl. repeat split; try done; lia.
  - intros r Hr. change (nP s1) with (nP s). change (nT s1 + nH s1 <= r < 2 * nH s1)%nat with (0 + nH s <= r < 2 * nH s)%nat in Hr.
    change (base s1) with l. by rewrite Hrow, decide_False by lia.
  - intros j Hj. change (line s1 j) with (rowof (nP s) (0 + j) l). by rewrite Hrow, decide_True by lia.
Qed.

Lemma free_past_spec s b n :
  fb_ok s -> back s = Some b -> 0 <= n <= height (fb s) -> blank_below s ->
  exists s1 b1, framebuffer_buffer_free_past (height (fb s)) n s = Ret s1 /\ back s1 = Some b1 /\ fb_ok s1 /\ blank_below s1 /\
    fmt s1 = fmt s /\ fb_ring_top s1 + n <= height (fb s) /\ forall j, (j < nH s)%nat -> line s1 j = line s j.
Proof.
  intros Hok Eb Hn Hb. destruct (ok_rows s Hok) as (Hl & Ht & HP & EP & EH & ET). pose proof (ok_small _ Hok) as Hsm.
  pose proof (ok_height _ Hok) as HH. pose proof (ok_back _ Hok) as B. rewrite Eb in B. destruct B as (B1 & B2 & B3 & B4).
  assert (2 * height (fb s) < 2 ^ 31) as Hbig by lia.
  unfold framebuffer_buffer_free_past. rewrite Eb. rewrite (proj2 (Z.eqb_neq _ _)) by lia.
  rewrite (u32_small (fb_ring_top s + n)), u32_small, B2 by lia.
  destruct (Z.leb_spec (fb_ring_top s + n + height (fb s)) (2 * height (fb s))) as [Hfit|Hfit].
  { exists s, b. split_and!; try done. lia. }
  rewrite B1. rewrite (u32_small (2 * _ - _)) by lia. rewrite !u32_small by nia.
  replace (2 * height (fb s) - height (fb s)) with (height (fb s)) by lia.
  replace (height (fb s) * pitch (fb s)) with (Z.of_nat (nH s * nP s)) by lia.
  replace (fb_ring_top s * pitch (fb s)) with (Z.of_nat (nT s * nP s)) by lia.
  assert (base s = back_bytes b) as Ebase by (unfold base; by rewrite Eb). unfold nR in *. rewrite Eb in *. rewrite Ebase in Hl.
  destruct (move_clear_rows (nP s) (nH s) (nT s) (back_bytes b) HP ltac:(lia) Hl) as (l1 & l2 & -> & E2 & L2 & R2).
  rewrite bind_ret, E2, bind_ret.
  destruct (compacted_ok s b l2 Hok Eb L2) as (O1 & O2 & O3).
  { intros r Hr. rewrite R2 by done. unfold line. by rewrite Ebase. }
  eexists _, _. split_and!; try done. cbn. lia.
Qed.

(** Moving the window down uncovers blank rows. *)
Lemma window_down s b n :
  fb_ok s -> back s = Some b -> blank_below s -> 0 <= n -> fb_ring_top s + n <= height (fb s) ->
  let s1 := set_top (u32 (fb_ring_top s + n)) s in
  fb_ok s1 /\ blank_below s1 /\
  forall j, (j < nH s)%nat -> line s1 j = if decide (j + Z.to_nat n < nH s)%nat then line s (j + Z.to_nat n) else replicate (nP s) 0.
Proof.
  intros Hok Eb Hb Hn Hfit s1. destruct (ok_rows s Hok) as (Hl & Ht & HP & EP & EH & ET). pose proof (ok_small _ Hok) as Hsm.
  pose proof (ok_height _ Hok) as HH. pose proof (ok_back _ Hok) as B. rewrite Eb in B. destruct B as (B1 & B2 & B3 & B4).
  assert (2 * height (fb s) < 2 ^ 31) as Hbig by lia.
  assert (u32 (fb_ring_top s + n) = fb_ring_top s + n) as Eu by (apply u32_small; lia).
  assert (nT s1 = nT s + Z.to_nat n)%nat as ET1 by (unfold nT; cbn; rewrite Eu; lia).
  unfold blank_below in Hb. rewrite Eb in Hb. split; [|split].
  - destruct Hok as [R W H PP ROW AL SM SC D B]. constructor; try done. cbn. rewrite Eb, Eu. repeat split; try done; lia.
  - unfold blank_below. cbn [s1 set_top back]. rewrite Eb. intros r Hr. rewrite ET1 in Hr. change (nH s1) with (nH s) in Hr.
    apply Hb. lia.
  - intros j Hj. unfold line. rewrite ET1. change (nP s1) with (nP s). change (base s1) with (base s). case_decide.
    + f_equal. lia.
    + apply Hb. lia.
Qed.

Lemma all_dirty_ok s : fb_ok s -> fb_ok (fb_mark_all_dirty s).
Proof. intros [R W H PP ROW AL SM SC D B]. constructor; try done. cbn. lia. Qed.

(** Without a back buffer the display itself is moved. *)
Lemma scroll_direct s n :
  fb_ok s -> back s = None -> 0 < n <= height (fb s) ->
  exists s1, framebuffer_scroll_up n s = framebuffer_flush s1 /\ fb_ok s1 /\ back s1 = None /\ fmt s1 = fmt s /\
    forall j, (j < nH s)%nat -> line s1 j = if decide (j + Z.to_nat n < nH s)%nat then line s (j + Z.to_nat n) else replicate (nP s) 0.
Proof.
  intros Hok Eb Hn. destruct (ok_rows s Hok) as (_ & _ & HP & EP & EH & ET). pose proof (ok_small _ Hok) as Hsm.
  pose proof (ok_screen _ Hok) as Hsc. pose proof (ok_back _ Hok) as B. rewrite Eb in B.
  assert (length (screen s) = nH s * nP s)%nat as Lsc by nia.
  unfold framebuffer_scroll_up. rewrite (ok_ready _ Hok), Eb. cbn [negb orb]. rewrite (proj2 (Z.eqb_neq _ _)) by lia.
  assert (Hdone : forall l, length l = length (screen s) -> (forall r, (r < nH s)%nat ->
      rowof (nP s) r l = if decide (r + Z.to_nat n < nH s)%nat then rowof (nP s) (r + Z.to_nat n) (screen s) else replicate (nP s) 0) ->
    let s1 := set_screen l s in fb_ok s1 /\ back s1 = None /\ fmt s1 = fmt s /\ forall j, (j < nH s)%nat ->
      line s1 j = if decide (j + Z.to_nat n < nH s)%nat then line s (j + Z.to_nat n) else replicate (nP s) 0).
  { intros l Ll Rl s1. split_and!; try done.
    - destruct Hok as [R W H PP ROW AL SM SC D B']. constructor; try done. cbn. by rewrite Ll.
    - intros j Hj. unfold line, base, nT. cbn. rewrite Eb, B. change (nP s1) with (nP s). rewrite Rl by done. done. }
  destruct (Z.leb_spec (height (fb s)) n) as [Hall|Hpart].
  - rewrite u32_small by nia. unfold buf_set. change (u8 0) with 0. replace (Z.to_nat (height (fb s) * pitch (fb s))) with (nH s * nP s)%nat by nia.
    rewrite buf_store_ok, bind_ret by (rewrite ?length_replicate; lia). eexists. split; [done|]. apply Hdone.
    + apply length_splice. rewrite length_replicate. cbn. lia.
    + intros r Hr. rewrite decide_False by lia. change (Z.to_nat 0) with (0 * nP s)%nat.
      rewrite (row_splice_rows _ _ (nH s)) by (rewrite ?length_replicate; lia). rewrite decide_True, row_zeros by nia. done.
  - set (k := Z.to_nat n) in *. set (m := (nH s - k)%nat).
    replace (n * pitch (fb s)) with (Z.of_nat (k * nP s)) by lia. assert (0 <= (height (fb s) - n) * pitch (fb s) < 2 ^ 32) as Hlt by nia.
    rewrite u32_small by lia. replace ((height (fb s) - n) * pitch (fb s)) with (Z.of_nat (m * nP s)) by nia.
    assert (k * nP s + m * nP s = nH s * nP s)%nat as Hkm by nia.
    unfold buf_move. rewrite buf_slice_ok, bind_ret, !Nat2Z.id by lia. set (c := take _ _).
    assert (length c = m * nP s)%nat as Lc by (subst c; rewrite length_take, length_drop; lia).
    rewrite buf_store_ok, bind_ret by lia. change (Z.to_nat 0) with (0 * nP s)%nat. set (l1 := splice _ c _).
    assert (length l1 = length (screen s)) as L1 by (apply length_splice; lia).
    replace (height (fb s) - n) with (Z.of_nat m) by lia. replace n with (Z.of_nat k) by lia.
    assert (base (set_screen l1 s) = l1) as Ebase by (unfold base; cbn; by rewrite Eb).
    destruct (clear_rows_spec (fun y => u32 (y * pitch (fb s))) k m (set_screen l1 s)) as (l2 & Hr & L2 & R2).
    { intros j Hj. change (nP (set_screen l1 s)) with (nP s). cbn beta. rewrite u32_small by nia. lia. }
    { done. } { rewrite Ebase. change (nP (set_screen l1 s)) with (nP s). nia. }
    cbn [set_screen fb] in Hr. rewrite Hr, bind_ret. unfold set_base. cbn [set_screen back]. rewrite Eb.
    change (set_screen l2 (set_screen l1 s)) with (set_screen l2 s). eexists. split; [done|]. rewrite Ebase in *.
    change (nP (set_screen l1 s)) with (nP s) in R2. apply Hdone; [congruence|]. intros r Hr'. rewrite R2. subst l1.
    rewrite (row_splice_rows _ _ m) by lia. repeat case_decide; try done; try lia. rewrite Nat.sub_0_r. subst c.
    unfold rowof. rewrite skipn_firstn_comm, take_take, drop_drop. f_equal; [nia|]. f_equal. nia.
Qed.

Lemma flushed_picture s s' : flushed s s' -> picture s' = picture s.
Proof.
  intros F. destruct (fmt_sizes _ _ (fl_fmt _ _ F)) as (_ & _ & EH & _). unfold picture. rewrite EH.
  apply list_fmap_ext. intros i x _. apply (fl_line _ _ F).
Qed.

(** A usable display: the buffers fit, the rows below the window are blank and
    what is not marked is shown. *)
Record display_ok (s : fbstate) : Prop :=
  { dp_ok : fb_ok s; dp_blank : blank_below s; dp_sync : in_sync s }.

Lemma drawn_display T f s s' : display_ok s -> drawn T f s s' -> display_ok s'.
Proof. intros [? ? ?] [? ? ? ? ? ? ?]. constructor; auto. Qed.

Lemma flushed_display s s' : display_ok s -> flushed s s' -> display_ok s' /\ shown s' = picture s'.
Proof.
  intros [Ho Hb Hs] F. pose proof (flushed_picture _ _ F) as E. destruct F as [? ? ? ? ? Fs ?]. split.
  - constructor; auto.
  - by rewrite E, Fs.
Qed.

Lemma scroll_spec s n :
  display_ok s -> 0 < n <= height (fb s) ->
  exists s', framebuffer_scroll_up n s = Ret s' /\ display_ok s' /\ fmt s' = fmt s /\ shown s' = picture s' /\
    picture s' = scrolled (nP s) (Z.to_nat n) (picture s).
Proof.
  intros [Hok Hb _] Hn.
  assert (Hdone : forall s1, framebuffer_scroll_up n s = framebuffer_flush s1 -> display_ok s1 -> fmt s1 = fmt s ->
    picture s1 = scrolled (nP s) (Z.to_nat n) (picture s) ->
    exists s', framebuffer_scroll_up n s = Ret s' /\ display_ok s' /\ fmt s' = fmt s /\ shown s' = picture s' /\
      picture s' = scrolled (nP s) (Z.to_nat n) (picture s)).
  { intros s1 -> Hd Hf Hp. destruct (flush_spec s1 (dp_ok _ Hd)) as (s' & -> & F). exists s'. split; [done|].
    destruct (flushed_display _ _ Hd F) as [Hd' Hs']. split_and!; try done.
    - rewrite <- Hf. apply (fl_fmt _ _ F).
    - by rewrite (flushed_picture _ _ F). }
  destruct (back s) as [b|] eqn:Eb.
  - destruct (free_past_spec s b n Hok Eb ltac:(lia) Hb) as (s1 & b1 & E1 & Eb1 & O1 & B1 & F1 & T1 & L1).
    destruct (fmt_sizes _ _ F1) as (Ef & EP & EH & _).
    destruct (window_down s1 b1 n O1 Eb1 B1 ltac:(lia) ltac:(by rewrite Ef)) as (O2 & B2 & L2). rewrite EH in L2.
    apply (Hdone (fb_mark_all_dirty (set_top (u32 (fb_ring_top s1 + n)) s1))).
    + unfold framebuffer_scroll_up. rewrite (ok_ready _ Hok), Eb. cbn [negb orb].
      pose proof (ok_back _ Hok) as B. rewrite Eb in B. destruct B as (_ & B & _).
      rewrite (proj2 (Z.eqb_neq _ _)), (proj2 (Z.leb_gt _ _)), E1 by lia. done.
    + constructor; [by apply all_dirty_ok|done|apply all_dirty_sync].
    + done.
    + apply picture_scrolled; [done|]. intros j Hj.
      change (line (fb_mark_all_dirty (set_top (u32 (fb_ring_top s1 + n)) s1)) j) with (line (set_top (u32 (fb_ring_top s1 + n)) s1) j).
      rewrite L2, EP by done. case_decide; [|done]. apply L1. lia.
  - destruct (scroll_direct s n Hok Eb Hn) as (s1 & E1 & O1 & Eb1 & F1 & L1). apply (Hdone s1); [done| |done|by apply picture_scrolled].
    constructor; [done|by unfold blank_below; rewrite Eb1|by apply in_sync_direct].
Qed.

(** ** What the operations promise *)

(** The colour of a rectangle clipped to the screen. *)
Definition paint_rect (s : fbstate) (x y w h color : Z) (pic : list (list Z)) : list (list Z) :=
  imap (fun j r => if decide (y <= Z.of_nat j < y + h)
                   then span x (Z.min w (width (fb s) - x)) (fb_pack color s) s r else r) pic.

(** C13: Drawing a filled rectangle - in any of the four pixel formats, with or
    without a back buffer, at any place and of any size - never leaves the
    buffers, clips it to the screen, paints its pixels in the packed colour,
    leaves every other byte of the picture as it was, and keeps the display
    usable; after the flush the screen shows that picture. *)
Theorem rect_paints s x y w h color :
  display_ok s -> 0 <= x -> 0 <= y -> 0 <= w -> 0 <= h ->
  exists s', framebuffer_rect x y w h color s = Ret s' /\ display_ok s' /\
    picture s' = paint_rect s x y w h color (picture s) /\ shown s' = picture s'.
Proof.
  intros Hd Hx Hy Hw Hh. unfold framebuffer_rect.
  destruct (fill_rect_drawn s x y w h color (dp_ok _ Hd) Hx Hy Hw Hh) as (s1 & -> & D). rewrite bind_ret.
  pose proof (drawn_display _ _ _ _ Hd D) as Hd1. destruct (flush_spec s1 (dp_ok _ Hd1)) as (s' & -> & F).
  destruct (flushed_display _ _ Hd1 F). exists s'. split_and!; try done.
  rewrite (flushed_picture _ _ F). exact (drawn_picture _ _ _ _ D).
Qed.

(** C14: Scrolling by up to a screen of lines moves the picture up by that many
    rows, fills the rows that come in with zero bytes and shows the result,
    whether the window only moves down in the back buffer, the window is first
    copied back to the front of the buffer, or there is no back buffer and the
    display's own memory is moved. *)
Theorem scroll_moves_picture s n :
  display_ok s -> 0 < n <= height (fb s) ->
  exists s', framebuffer_scroll_up n s = Ret s' /\ display_ok s' /\
    picture s' = scrolled (nP s) (Z.to_nat n) (picture s) /\ shown s' = picture s'.
Proof. intros Hd Hn. destruct (scroll_spec s n Hd Hn) as (s' & ? & ? & _ & ? & ?). eauto 6. Qed.

(** Clearing makes a display whose memory and back buffer hold anything at
    all show one colour in every pixel. *)
Theorem clear_shows_colour s color :
  fb_ok s -> blank_below s ->
  exists s', framebuffer_clear color s = Ret s' /\ display_ok s' /\ shown s' = picture s' /\
    picture s' = (fun r => span 0 (width (fb s)) (fb_pack color s) s r) <$> picture s.
Proof.
  intros Hok Hb. pose proof (ok_width _ Hok). pose proof (ok_height _ Hok). unfold framebuffer_clear.
  destruct (ok_rows s Hok) as (_ & _ & _ & _ & EH & _).
  destruct (fill_rect_drawn s 0 0 (width (fb s)) (height (fb s)) color) as (s1 & -> & D); [done|lia..|]. rewrite bind_ret.
  destruct (fmt_sizes _ _ (dr_fmt _ _ _ _ D)) as (Ef & EP & EH' & _).
  assert (display_ok s1) as Hd1.
  { constructor; [exact (dr_ok _ _ _ _ D)|by apply (dr_blank _ _ _ _ D)|]. intros j Hj Hu.
    destruct (dr_marked _ _ _ _ D j ltac:(lia) Hu) as [_ []]. lia. }
  destruct (flush_spec s1 (dp_ok _ Hd1)) as (s' & -> & F). destruct (flushed_display _ _ Hd1 F).
  exists s'. split_and!; try done. rewrite (flushed_picture _ _ F), (drawn_picture _ _ _ _ D).
  apply list_eq. intros j. rewrite list_lookup_imap, list_lookup_fmap, picture_lookup. destruct (decide (j < nH s)%nat); [|done]. cbn -[span].
  rewrite decide_True by lia. do 2 f_equal. lia.
Qed.

(** ** A small display *)

(** Two rows of two pixels of 32 bits, with a back buffer. *)
Definition demo : fbstate :=
  mkFbs (mkFb 0xE0000000 2 2 8 32 8 16 8 8 8 0) true 0 2 0 4 0 0 0
    (replicate 16 0) (Some (mkBack (replicate 4096 0) 0x200000 8 4 4096)).

Lemma demo_display_ok : display_ok demo.
Proof.
  constructor.
  - constructor; vm_compute; try done; repeat split; try done; lia.
  - intros r Hr. change (nP demo) with 8%nat. change (nH demo) with 2%nat in Hr. change (nT demo) with 0%nat in Hr.
    unfold rowof. change (base demo) with (replicate 4096 0). rewrite drop_replicate, take_replicate. f_equal. lia.
  - intros j Hj _. change (nH demo) with 2%nat in Hj. destruct j as [|[|]]; [reflexivity..|lia].
Defined.

Lemma rect_paints_witness :
  exists s', framebuffer_rect 1 1 5 5 0x123456 demo = Ret s' /\ display_ok s' /\
    picture s' = paint_rect demo 1 1 5 5 0x123456 (picture demo) /\ shown s' = picture s'.
Proof. apply (rect_paints demo); [exact demo_display_ok|lia..]. Defined.

Lemma scroll_moves_picture_witness :
  exists s', framebuffer_scroll_up 1 demo = Ret s' /\ display_ok s' /\
    picture s' = scrolled (nP demo) 1 (picture demo) /\ shown s' = picture s'.
Proof. apply (scroll_moves_picture demo 1 demo_display_ok). cbn. lia. Defined.

Lemma clear_shows_colour_witness :
  exists s', framebuffer_clear 0x102030 demo = Ret s' /\ display_ok s' /\ shown s' = picture s' /\
    picture s' = (fun r => span 0 (width (fb demo)) (fb_pack 0x102030 demo) demo r) <$> picture demo.
Proof. exact (clear_shows_colour demo 0x102030 (dp_ok _ demo_display_ok) (dp_blank _ demo_display_ok)). Defined.

Example rect_example : (s ← framebuffer_rect 1 1 5 5 0x123456 demo; s ← framebuffer_scroll_up 1 s; Ret (shown s)) =
  Ret [[0; 0; 0; 0; 0x56; 0x34; 0x12; 0]; replicate 8 0].
Proof. vm_compute. done. Qed.

(** The check is against the rows of the buffer, not of the screen: between one
    and two screens the window is moved below the end of the buffer, and the
    display is filled from the memory behind it. *)
Theorem scroll_too_far s b n :
  fb_ok s -> back s = Some b -> height (fb s) < n < 2 * height (fb s) ->
  Z.of_nat (length (back_bytes b)) < (n + height (fb s)) * pitch (fb s) -> framebuffer_scroll_up n s = Fault.
Proof.
  intros Hok Eb Hn Hlen. destruct (ok_rows s Hok) as (Hl & Ht & HP & EP & EH & ET). pose proof (ok_small _ Hok) as Hsm.
  pose proof (ok_height _ Hok) as HH. pose proof (ok_back _ Hok) as B. rewrite Eb in B. destruct B as (B1 & B2 & B3 & B4).
  assert (base s = back_bytes b) as Ebase by (unfold base; by rewrite Eb). unfold nR in *. rewrite Eb in *. rewrite Ebase in Hl.
  unfold framebuffer_scroll_up. rewrite (ok_ready _ Hok), Eb. cbn [negb orb].
  rewrite (proj2 (Z.eqb_neq _ _)), (proj2 (Z.leb_gt _ _)) by lia.
  unfold framebuffer_buffer_free_past. rewrite Eb. rewrite (proj2 (Z.eqb_neq _ _)) by lia.
  rewrite (u32_small (fb_ring_top s + n)), u32_small, B2, (proj2 (Z.leb_gt _ _)), B1 by lia.
  rewrite (u32_small (2 * _ - _)) by lia. rewrite !u32_small by nia.
  replace (2 * height (fb s) - height (fb s)) with (height (fb s)) by lia.
  replace (height (fb s) * pitch (fb s)) with (Z.of_nat (nH s * nP s)) by lia.
  replace (fb_ring_top s * pitch (fb s)) with (Z.of_nat (nT s * nP s)) by lia.
  destruct (move_clear_rows (nP s) (nH s) (nT s) (back_bytes b) HP ltac:(lia) Hl) as (l1 & l2 & -> & E2 & L2 & _).
  rewrite bind_ret, E2, !bind_ret. unfold framebuffer_flush. cbn -[u32 fb_copy_fast]. rewrite (ok_ready _ Hok). cbn [negb orb].
  rewrite (proj2 (Z.leb_gt _ _)), (proj2 (Z.ltb_ge _ _)), Z.eqb_refl by lia. rewrite Z.eqb_refl. cbn [andb].
  cbn [fb_mark_all_dirty set_dirty set_top set_back fb fb_ring_top]. assert (0 <= height (fb s) * pitch (fb s) < 2 ^ 32) by (clear -Hsm HH EP; nia).
  rewrite (u32_small (0 + n)), u32_small by lia. rewrite fb_copy_fast_fault; [done|lia|]. rewrite L2. lia.
Qed.
