(* ===== verification/Font.v ===== *)
(** * iokit/IOGraphicsFamily: font.c, font9x8.c and font6x12.c

    The bitmap console: two fonts, a cursor in character cells, drawing through
    the frame buffer.  [low_mem] is the memory a glyph pointer leads to.
    Shown: whatever is printed, the cursor stays on the screen and no drawing
    leaves it; the pixels of a glyph; and which bytes they are made of. *)

From S2P Require Import Prelude Fb.

(** ** The fonts *)

Definition font9x8_glyphs : list (list Z) := [
   [0x00; 0x00; 0x00; 0x00; 0x00; 0x00; 0x00; 0x00]; [0x08; 0x08; 0x08; 0x08; 0x08; 0x00; 0x08; 0x00]; [0x14; 0x14; 0x14; 0x00; 0x00; 0x00; 0x00; 0x00];
   [0x14; 0x14; 0x3E; 0x14; 0x3E; 0x14; 0x14; 0x00]; [0x08; 0x1E; 0x28; 0x1C; 0x0A; 0x3C; 0x08; 0x00]; [0x30; 0x32; 0x04; 0x08; 0x10; 0x26; 0x06; 0x00];
   [0x18; 0x24; 0x24; 0x18; 0x2A; 0x24; 0x1A; 0x00]; [0x08; 0x08; 0x08; 0x00; 0x00; 0x00; 0x00; 0x00]; [0x04; 0x08; 0x10; 0x10; 0x10; 0x08; 0x04; 0x00];
   [0x10; 0x08; 0x04; 0x04; 0x04; 0x08; 0x10; 0x00]; [0x00; 0x08; 0x2A; 0x1C; 0x2A; 0x08; 0x00; 0x00]; [0x00; 0x08; 0x08; 0x3E; 0x08; 0x08; 0x00; 0x00];
   [0x00; 0x00; 0x00; 0x00; 0x00; 0x08; 0x08; 0x10]; [0x00; 0x00; 0x00; 0x3E; 0x00; 0x00; 0x00; 0x00]; [0x00; 0x00; 0x00; 0x00; 0x00; 0x00; 0x08; 0x00];
   [0x02; 0x04; 0x08; 0x08; 0x10; 0x20; 0x00; 0x00]; [0x1C; 0x22; 0x26; 0x2A; 0x32; 0x22; 0x1C; 0x00]; [0x08; 0x18; 0x28; 0x08; 0x08; 0x08; 0x1C; 0x00];
   [0x1C; 0x22; 0x02; 0x04; 0x08; 0x10; 0x3E; 0x00]; [0x1C; 0x22; 0x02; 0x0C; 0x02; 0x22; 0x1C; 0x00]; [0x04; 0x0C; 0x14; 0x24; 0x3E; 0x04; 0x04; 0x00];
   [0x3E; 0x20; 0x3C; 0x02; 0x02; 0x22; 0x1C; 0x00]; [0x0C; 0x10; 0x20; 0x3C; 0x22; 0x22; 0x1C; 0x00]; [0x3E; 0x02; 0x04; 0x08; 0x10; 0x10; 0x10; 0x00];
   [0x1C; 0x22; 0x22; 0x1C; 0x22; 0x22; 0x1C; 0x00]; [0x1C; 0x22; 0x22; 0x1E; 0x02; 0x04; 0x18; 0x00]; [0x00; 0x08; 0x00; 0x00; 0x00; 0x08; 0x00; 0x00];
   [0x00; 0x08; 0x00; 0x00; 0x00; 0x08; 0x08; 0x10]; [0x04; 0x08; 0x10; 0x20; 0x10; 0x08; 0x04; 0x00]; [0x00; 0x00; 0x3E; 0x00; 0x3E; 0x00; 0x00; 0x00];
   [0x10; 0x08; 0x04; 0x02; 0x04; 0x08; 0x10; 0x00]; [0x1C; 0x22; 0x02; 0x04; 0x08; 0x00; 0x08; 0x00]; [0x1C; 0x22; 0x2E; 0x2A; 0x2E; 0x20; 0x1C; 0x00];
   [0x08; 0x14; 0x22; 0x22; 0x3E; 0x22; 0x22; 0x00]; [0x3C; 0x22; 0x22; 0x3C; 0x22; 0x22; 0x3C; 0x00]; [0x1C; 0x22; 0x20; 0x20; 0x20; 0x22; 0x1C; 0x00];
   [0x38; 0x24; 0x22; 0x22; 0x22; 0x24; 0x38; 0x00]; [0x3E; 0x20; 0x20; 0x3C; 0x20; 0x20; 0x3E; 0x00]; [0x3E; 0x20; 0x20; 0x3C; 0x20; 0x20; 0x20; 0x00];
   [0x1C; 0x22; 0x20; 0x2E; 0x22; 0x22; 0x1C; 0x00]; [0x22; 0x22; 0x22; 0x3E; 0x22; 0x22; 0x22; 0x00]; [0x1C; 0x08; 0x08; 0x08; 0x08; 0x08; 0x1C; 0x00];
   [0x0E; 0x04; 0x04; 0x04; 0x04; 0x24; 0x18; 0x00]; [0x22; 0x24; 0x28; 0x30; 0x28; 0x24; 0x22; 0x00]; [0x20; 0x20; 0x20; 0x20; 0x20; 0x20; 0x3E; 0x00];
   [0x22; 0x36; 0x2A; 0x2A; 0x22; 0x22; 0x22; 0x00]; [0x22; 0x32; 0x2A; 0x26; 0x22; 0x22; 0x22; 0x00]; [0x1C; 0x22; 0x22; 0x22; 0x22; 0x22; 0x1C; 0x00];
   [0x3C; 0x22; 0x22; 0x3C; 0x20; 0x20; 0x20; 0x00]; [0x1C; 0x22; 0x22; 0x22; 0x2A; 0x24; 0x1A; 0x00]; [0x3C; 0x22; 0x22; 0x3C; 0x28; 0x24; 0x22; 0x00];
   [0x1C; 0x22; 0x20; 0x1C; 0x02; 0x22; 0x1C; 0x00]; [0x3E; 0x08; 0x08; 0x08; 0x08; 0x08; 0x08; 0x00]; [0x22; 0x22; 0x22; 0x22; 0x22; 0x22; 0x1C; 0x00];
   [0x22; 0x22; 0x22; 0x22; 0x22; 0x14; 0x08; 0x00]; [0x22; 0x22; 0x22; 0x2A; 0x2A; 0x36; 0x22; 0x00]; [0x22; 0x22; 0x14; 0x08; 0x14; 0x22; 0x22; 0x00];
   [0x22; 0x22; 0x14; 0x08; 0x08; 0x08; 0x08; 0x00]; [0x3E; 0x02; 0x04; 0x08; 0x10; 0x20; 0x3E; 0x00]; [0x1C; 0x10; 0x10; 0x10; 0x10; 0x10; 0x1C; 0x00];
   [0x20; 0x10; 0x08; 0x04; 0x02; 0x01; 0x00; 0x00]; [0x1C; 0x04; 0x04; 0x04; 0x04; 0x04; 0x1C; 0x00]; [0x08; 0x14; 0x22; 0x00; 0x00; 0x00; 0x00; 0x00];
   [0x00; 0x00; 0x00; 0x00; 0x00; 0x00; 0x00; 0x3E]; [0x10; 0x08; 0x04; 0x00; 0x00; 0x00; 0x00; 0x00]; [0x00; 0x00; 0x3E; 0x01; 0x3F; 0x21; 0x3F; 0x00];
   [0x20; 0x20; 0x3C; 0x22; 0x22; 0x22; 0x3C; 0x00]; [0x00; 0x00; 0x3E; 0x20; 0x20; 0x20; 0x3E; 0x00]; [0x02; 0x02; 0x3E; 0x22; 0x22; 0x22; 0x3E; 0x00];
   [0x00; 0x00; 0x3C; 0x22; 0x3E; 0x20; 0x3C; 0x00]; [0x0E; 0x10; 0x10; 0x3C; 0x10; 0x10; 0x10; 0x00]; [0x00; 0x00; 0x3E; 0x22; 0x22; 0x3E; 0x02; 0x3C];
   [0x20; 0x20; 0x3C; 0x22; 0x22; 0x22; 0x22; 0x00]; [0x08; 0x00; 0x18; 0x08; 0x08; 0x08; 0x1C; 0x00]; [0x04; 0x00; 0x0C; 0x04; 0x04; 0x24; 0x18; 0x00];
   [0x20; 0x20; 0x22; 0x24; 0x38; 0x24; 0x22; 0x00]; [0x18; 0x08; 0x08; 0x08; 0x08; 0x08; 0x1C; 0x00]; [0x00; 0x00; 0x3C; 0x2A; 0x2A; 0x2A; 0x2A; 0x00];
   [0x00; 0x00; 0x3C; 0x22; 0x22; 0x22; 0x22; 0x00]; [0x00; 0x00; 0x1C; 0x22; 0x22; 0x22; 0x1C; 0x00]; [0x00; 0x00; 0x3C; 0x22; 0x22; 0x3C; 0x20; 0x20];
   [0x00; 0x00; 0x3E; 0x22; 0x22; 0x3E; 0x02; 0x02]; [0x00; 0x00; 0x36; 0x38; 0x20; 0x20; 0x20; 0x00]; [0x00; 0x00; 0x1E; 0x20; 0x1C; 0x02; 0x3C; 0x00];
   [0x10; 0x10; 0x3C; 0x10; 0x10; 0x12; 0x0C; 0x00]; [0x00; 0x00; 0x22; 0x22; 0x22; 0x22; 0x1C; 0x00]; [0x00; 0x00; 0x22; 0x22; 0x22; 0x14; 0x08; 0x00];
   [0x00; 0x00; 0x22; 0x22; 0x2A; 0x2A; 0x14; 0x00]; [0x00; 0x00; 0x22; 0x14; 0x08; 0x14; 0x22; 0x00]; [0x00; 0x00; 0x22; 0x22; 0x22; 0x1E; 0x02; 0x1C];
   [0x00; 0x00; 0x3E; 0x04; 0x08; 0x10; 0x3E; 0x00]; [0x0C; 0x10; 0x10; 0x30; 0x10; 0x10; 0x0C; 0x00]; [0x08; 0x08; 0x08; 0x08; 0x08; 0x08; 0x08; 0x00];
   [0x30; 0x08; 0x08; 0x0C; 0x08; 0x08; 0x30; 0x00]; [0x00; 0x00; 0x18; 0x24; 0x00; 0x00; 0x00; 0x00]; [0x3E; 0x22; 0x2A; 0x2A; 0x2A; 0x2A; 0x22; 0x3E] ].

Definition font6x12_glyphs : list (list Z) := [
   [0x00; 0x00; 0x00; 0x00; 0x00; 0x00; 0x00; 0x00; 0x00; 0x00; 0x00; 0x00]; [0x00; 0x20; 0x20; 0x20; 0x20; 0x20; 0x20; 0x00; 0x20; 0x00; 0x00; 0x00];
   [0x00; 0x50; 0x50; 0x50; 0x00; 0x00; 0x00; 0x00; 0x00; 0x00; 0x00; 0x00]; [0x00; 0x00; 0x50; 0xF8; 0x50; 0x50; 0x50; 0xF8; 0x50; 0x00; 0x00; 0x00];
   [0x20; 0x78; 0xA0; 0xA0; 0x70; 0x28; 0x28; 0x28; 0xF0; 0x20; 0x00; 0x00]; [0x00; 0x08; 0x48; 0x50; 0x10; 0x20; 0x28; 0x48; 0x40; 0x00; 0x00; 0x00];
   [0x00; 0x30; 0x48; 0x48; 0x30; 0x60; 0x94; 0x88; 0x74; 0x00; 0x00; 0x00]; [0x00; 0x20; 0x20; 0x20; 0x00; 0x00; 0x00; 0x00; 0x00; 0x00; 0x00; 0x00];
   [0x18; 0x20; 0x40; 0x40; 0x40; 0x40; 0x40; 0x40; 0x20; 0x18; 0x00; 0x00]; [0x60; 0x10; 0x08; 0x08; 0x08; 0x08; 0x08; 0x08; 0x10; 0x60; 0x00; 0x00];
   [0x00; 0x00; 0x00; 0x48; 0x30; 0xFC; 0x30; 0x48; 0x00; 0x00; 0x00; 0x00]; [0x00; 0x00; 0x00; 0x20; 0x20; 0xF8; 0x20; 0x20; 0x00; 0x00; 0x00; 0x00];
   [0x00; 0x00; 0x00; 0x00; 0x00; 0x00; 0x00; 0x20; 0x20; 0x40; 0x00; 0x00]; [0x00; 0x00; 0x00; 0x00; 0x00; 0xF8; 0x00; 0x00; 0x00; 0x00; 0x00; 0x00];
   [0x00; 0x00; 0x00; 0x00; 0x00; 0x00; 0x00; 0x00; 0x20; 0x00; 0x00; 0x00]; [0x08; 0x08; 0x10; 0x10; 0x20; 0x20; 0x40; 0x40; 0x80; 0x80; 0x00; 0x00];
   [0x00; 0x70; 0x88; 0x98; 0xA8; 0xC8; 0x88; 0x88; 0x70; 0x00; 0x00; 0x00]; [0x00; 0x20; 0x60; 0x20; 0x20; 0x20; 0x20; 0x20; 0x70; 0x00; 0x00; 0x00];
   [0x00; 0x70; 0x88; 0x08; 0x08; 0x70; 0x80; 0x80; 0xF8; 0x00; 0x00; 0x00]; [0x00; 0x70; 0x88; 0x08; 0x30; 0x08; 0x08; 0x88; 0x70; 0x00; 0x00; 0x00];
   [0x00; 0x80; 0x80; 0x90; 0x90; 0x90; 0xF8; 0x10; 0x10; 0x00; 0x00; 0x00]; [0x00; 0xF8; 0x80; 0x80; 0xF0; 0x08; 0x08; 0x08; 0xF0; 0x00; 0x00; 0x00];
   [0x00; 0x70; 0x80; 0x80; 0xF0; 0x88; 0x88; 0x88; 0x70; 0x00; 0x00; 0x00]; [0x00; 0xF8; 0x88; 0x08; 0x10; 0x20; 0x20; 0x20; 0x20; 0x00; 0x00; 0x00];
   [0x00; 0x70; 0x88; 0x88; 0x70; 0x88; 0x88; 0x88; 0x70; 0x00; 0x00; 0x00]; [0x00; 0x70; 0x88; 0x88; 0x88; 0x78; 0x08; 0x08; 0x70; 0x00; 0x00; 0x00];
   [0x00; 0x00; 0x00; 0x00; 0x20; 0x00; 0x00; 0x00; 0x20; 0x00; 0x00; 0x00]; [0x00; 0x00; 0x00; 0x00; 0x20; 0x00; 0x00; 0x20; 0x20; 0x40; 0x00; 0x00];
   [0x00; 0x08; 0x10; 0x20; 0x40; 0x40; 0x20; 0x10; 0x08; 0x00; 0x00; 0x00]; [0x00; 0x00; 0x00; 0x00; 0xF8; 0x00; 0xF8; 0x00; 0x00; 0x00; 0x00; 0x00];
   [0x00; 0x40; 0x20; 0x10; 0x08; 0x08; 0x10; 0x20; 0x40; 0x00; 0x00; 0x00]; [0x00; 0x70; 0x88; 0x08; 0x10; 0x20; 0x20; 0x00; 0x20; 0x00; 0x00; 0x00];
   [0x00; 0x70; 0x88; 0x88; 0xB8; 0xB8; 0xB8; 0x80; 0x78; 0x00; 0x00; 0x00]; [0x00; 0x70; 0x88; 0x88; 0x88; 0xF8; 0x88; 0x88; 0x88; 0x00; 0x00; 0x00];
   [0x00; 0xF0; 0x88; 0x88; 0xF0; 0x88; 0x88; 0x88; 0xF0; 0x00; 0x00; 0x00]; [0x00; 0x78; 0x80; 0x80; 0x80; 0x80; 0x80; 0x80; 0x78; 0x00; 0x00; 0x00];
   [0x00; 0xF0; 0x88; 0x88; 0x88; 0x88; 0x88; 0x88; 0xF0; 0x00; 0x00; 0x00]; [0x00; 0x78; 0x80; 0x80; 0xF0; 0x80; 0x80; 0x80; 0x78; 0x00; 0x00; 0x00];
   [0x00; 0x78; 0x80; 0x80; 0xF0; 0x80; 0x80; 0x80; 0x80; 0x00; 0x00; 0x00]; [0x00; 0x78; 0x80; 0x80; 0xB8; 0x88; 0x88; 0x88; 0x78; 0x00; 0x00; 0x00];
   [0x00; 0x88; 0x88; 0x88; 0xF8; 0x88; 0x88; 0x88; 0x88; 0x00; 0x00; 0x00]; [0x00; 0x70; 0x20; 0x20; 0x20; 0x20; 0x20; 0x20; 0x70; 0x00; 0x00; 0x00];
   [0x00; 0x70; 0x20; 0x20; 0x20; 0x20; 0x20; 0x20; 0xC0; 0x00; 0x00; 0x00]; [0x00; 0x88; 0x88; 0x90; 0xE0; 0x90; 0x88; 0x88; 0x88; 0x00; 0x00; 0x00];
   [0x00; 0x80; 0x80; 0x80; 0x80; 0x80; 0x80; 0x80; 0x78; 0x00; 0x00; 0x00]; [0x00; 0x88; 0xD8; 0xF8; 0xA8; 0x88; 0x88; 0x88; 0x88; 0x00; 0x00; 0x00];
   [0x00; 0x88; 0xC8; 0xC8; 0xA8; 0xA8; 0x98; 0x98; 0x88; 0x00; 0x00; 0x00]; [0x00; 0x70; 0x88; 0x88; 0x88; 0x88; 0x88; 0x88; 0x70; 0x00; 0x00; 0x00];
   [0x00; 0xF0; 0x88; 0x88; 0x88; 0xF0; 0x80; 0x80; 0x80; 0x00; 0x00; 0x00]; [0x00; 0x70; 0x88; 0x88; 0x88; 0x88; 0x88; 0x88; 0x70; 0x18; 0x00; 0x00];
   [0x00; 0xF0; 0x88; 0x88; 0x88; 0xF0; 0x88; 0x88; 0x88; 0x00; 0x00; 0x00]; [0x00; 0x78; 0x80; 0x80; 0x70; 0x08; 0x08; 0x08; 0xF0; 0x00; 0x00; 0x00];
   [0x00; 0xF8; 0x20; 0x20; 0x20; 0x20; 0x20; 0x20; 0x20; 0x00; 0x00; 0x00]; [0x00; 0x88; 0x88; 0x88; 0x88; 0x88; 0x88; 0x88; 0x78; 0x00; 0x00; 0x00];
   [0x00; 0x88; 0x88; 0x88; 0x88; 0x88; 0x88; 0x70; 0x70; 0x00; 0x00; 0x00]; [0x00; 0x88; 0x88; 0x88; 0x88; 0xA8; 0xF8; 0xD8; 0x88; 0x00; 0x00; 0x00];
   [0x00; 0x88; 0x88; 0x50; 0x20; 0x50; 0x88; 0x88; 0x88; 0x00; 0x00; 0x00]; [0x00; 0x88; 0x88; 0x88; 0x88; 0x78; 0x08; 0x08; 0xF0; 0x00; 0x00; 0x00];
   [0x00; 0xF8; 0x08; 0x10; 0x20; 0x40; 0x80; 0x80; 0xF8; 0x00; 0x00; 0x00]; [0x78; 0x40; 0x40; 0x40; 0x40; 0x40; 0x40; 0x40; 0x40; 0x78; 0x00; 0x00];
   [0x80; 0x80; 0x40; 0x40; 0x20; 0x20; 0x10; 0x10; 0x08; 0x08; 0x00; 0x00]; [0x78; 0x08; 0x08; 0x08; 0x08; 0x08; 0x08; 0x08; 0x08; 0x78; 0x00; 0x00];
   [0x00; 0x20; 0x50; 0x88; 0x00; 0x00; 0x00; 0x00; 0x00; 0x00; 0x00; 0x00]; [0x00; 0x00; 0x00; 0x00; 0x00; 0x00; 0x00; 0x00; 0x00; 0xF8; 0x00; 0x00];
   [0x00; 0x40; 0x20; 0x10; 0x00; 0x00; 0x00; 0x00; 0x00; 0x00; 0x00; 0x00]; [0x00; 0x00; 0x00; 0x70; 0x08; 0x78; 0x88; 0x88; 0x78; 0x00; 0x00; 0x00];
   [0x00; 0x80; 0x80; 0xF0; 0x88; 0x88; 0x88; 0x88; 0xF0; 0x00; 0x00; 0x00]; [0x00; 0x00; 0x00; 0x78; 0x80; 0x80; 0x80; 0x80; 0x78; 0x00; 0x00; 0x00];
   [0x00; 0x08; 0x08; 0x78; 0x88; 0x88; 0x88; 0x88; 0x78; 0x00; 0x00; 0x00]; [0x00; 0x00; 0x00; 0x78; 0x88; 0x88; 0xF8; 0x80; 0x78; 0x00; 0x00; 0x00];
   [0x00; 0x38; 0x40; 0x40; 0xF0; 0x40; 0x40; 0x40; 0x40; 0x00; 0x00; 0x00]; [0x00; 0x00; 0x00; 0x78; 0x88; 0x88; 0x88; 0x88; 0x70; 0x08; 0xF0; 0x00];
   [0x00; 0x80; 0x80; 0xF0; 0x88; 0x88; 0x88; 0x88; 0x88; 0x00; 0x00; 0x00]; [0x00; 0x20; 0x00; 0x60; 0x20; 0x20; 0x20; 0x20; 0x30; 0x00; 0x00; 0x00];
   [0x00; 0x10; 0x00; 0x10; 0x10; 0x10; 0x10; 0x10; 0x10; 0x60; 0x00; 0x00]; [0x00; 0x80; 0x80; 0x90; 0xA0; 0xC0; 0xA0; 0x90; 0x88; 0x00; 0x00; 0x00];
   [0x00; 0x40; 0x40; 0x40; 0x40; 0x40; 0x40; 0x40; 0x30; 0x00; 0x00; 0x00]; [0x00; 0x00; 0x00; 0xF0; 0xA8; 0xA8; 0xA8; 0x88; 0x88; 0x00; 0x00; 0x00];
   [0x00; 0x00; 0x00; 0xF0; 0x88; 0x88; 0x88; 0x88; 0x88; 0x00; 0x00; 0x00]; [0x00; 0x00; 0x00; 0x70; 0x88; 0x88; 0x88; 0x88; 0x70; 0x00; 0x00; 0x00];
   [0x00; 0x00; 0x00; 0xF0; 0x88; 0x88; 0x88; 0x88; 0xF0; 0x80; 0x80; 0x80]; [0x00; 0x00; 0x00; 0x78; 0x88; 0x88; 0x88; 0x88; 0x78; 0x08; 0x08; 0x08];
   [0x00; 0x00; 0x00; 0x78; 0x88; 0x80; 0x80; 0x80; 0x80; 0x00; 0x00; 0x00]; [0x00; 0x00; 0x00; 0x78; 0x80; 0x70; 0x08; 0x08; 0xF0; 0x00; 0x00; 0x00];
   [0x00; 0x40; 0x40; 0xE0; 0x40; 0x40; 0x40; 0x40; 0x30; 0x00; 0x00; 0x00]; [0x00; 0x00; 0x00; 0x88; 0x88; 0x88; 0x88; 0x88; 0x78; 0x00; 0x00; 0x00];
   [0x00; 0x00; 0x00; 0x88; 0x88; 0x88; 0x88; 0x50; 0x20; 0x00; 0x00; 0x00]; [0x00; 0x00; 0x00; 0x88; 0x88; 0xA8; 0xF8; 0xD8; 0x88; 0x00; 0x00; 0x00];
   [0x00; 0x00; 0x00; 0x88; 0x88; 0x70; 0x70; 0x88; 0x88; 0x00; 0x00; 0x00]; [0x00; 0x00; 0x00; 0x88; 0x88; 0x88; 0x88; 0x88; 0x78; 0x08; 0x08; 0xF0];
   [0x00; 0x00; 0x00; 0xF8; 0x08; 0x10; 0x20; 0x40; 0xF8; 0x00; 0x00; 0x00]; [0x18; 0x20; 0x20; 0x20; 0xC0; 0xC0; 0x20; 0x20; 0x20; 0x18; 0x00; 0x00];
   [0x20; 0x20; 0x20; 0x20; 0x20; 0x20; 0x20; 0x20; 0x20; 0x20; 0x00; 0x00]; [0x60; 0x10; 0x10; 0x10; 0x0C; 0x0C; 0x10; 0x10; 0x10; 0x60; 0x00; 0x00];
   [0x00; 0x00; 0x00; 0x00; 0x00; 0x48; 0xB0; 0x00; 0x00; 0x00; 0x00; 0x00]; [0x00; 0x00; 0x00; 0x00; 0x00; 0x00; 0x00; 0x00; 0x00; 0x00; 0x00; 0x00] ].

(** [glyphs] is declared as a pointer to bytes: the table as it lies in memory. *)
Record font_set := mkFont { glyphs : list Z; glyph_w : Z; cell_w : Z; font_h : Z }.

Definition FONT_9X8 : Z := 0.
Definition FONT_6X12 : Z := 1.

Definition sets : list font_set := [mkFont (mjoin font9x8_glyphs) 8 9 8; mkFont (mjoin font6x12_glyphs) 6 6 12].
Definition FONT_SET_COUNT : Z := Z.of_nat (length sets).

(** [sets[i]]; [active] only takes the values [font_select] lets through. *)
Definition font_of (i : Z) : font_set := nth (Z.to_nat i) sets (mkFont [] 0 0 0).

(** ** State *)

Record fontstate := mkFonts { active : Z; columns : Z; rows : Z; cursor_x : Z; cursor_y : Z }.
Definition set_cursor (x y : Z) (t : fontstate) : fontstate := mkFonts (active t) (columns t) (rows t) x y.

Definition FG_DEFAULT : Z := 0x00FFFFFF.
Definition BG_DEFAULT : Z := 0x00000000.

Definition font_select (set : Z) (t : fontstate) : fontstate :=
  if (0 <=? set) && (set <? FONT_SET_COUNT) then mkFonts set (columns t) (rows t) (cursor_x t) (cursor_y t) else t.

(** The two fields of the boot information. *)
Definition font_init (fb_width fb_height : Z) (t : fontstate) : fontstate :=
  let f := font_of (active t) in mkFonts (active t) (fb_width / cell_w f) (fb_height / font_h f) 0 0.

Section Memory.
Context (low_mem : Z -> Z).

(** The byte of the table at the index of the character, used as an address. *)
Definition glyph (f : font_set) (c : Z) : run Z :=
  match glyphs f !! Z.to_nat (u8 c - 0x20) with Some p => Ret p | None => Fault end.

(** One row of a cell. *)
Definition glyph_row (f : font_set) (g fg bg : Z) : list Z :=
  ((fun x => if negb (Z.land g (Z.shiftl 1 (7 - x)) =? 0) then fg else bg) <$> seqZ 0 (glyph_w f)) ++
  replicate (Z.to_nat (cell_w f - glyph_w f)) bg.

Fixpoint draw_rows (ys : list Z) (f : font_set) (p px py fg bg : Z) (s : fbstate) : run fbstate :=
  match ys with
  | [] => Ret s
  | y :: ys =>
      s ← framebuffer_putpixels px (u32 (py + y)) (glyph_row f (low_mem (p + y)) fg bg) s;
      draw_rows ys f p px py fg bg s
  end.

Definition font_draw (c : Z) (t : fontstate) (s : fbstate) : run fbstate :=
  if (u8 c <? 0x20) || (0x7F <? u8 c) then Ret s
  else
    let f := font_of (active t) in
    p ← glyph f c;
    draw_rows (seqZ 0 (font_h f)) f p (u32 (cursor_x t * cell_w f)) (u32 (cursor_y t * font_h f)) FG_DEFAULT BG_DEFAULT s.

Definition font_scroll (t : fontstate) (s : fbstate) : run (fontstate * fbstate) :=
  s ← framebuffer_scroll_up (font_h (font_of (active t))) s;
  Ret (set_cursor (cursor_x t) (u32 (rows t - 1)) t, s).

Definition font_putc (c : Z) (t : fontstate) (s : fbstate) : run (fontstate * fbstate) :=
  if (rows t =? 0) || (columns t =? 0) then Ret (t, s)
  else
    '(t, s) ← (if c =? 10 then s ← framebuffer_flush s; Ret (set_cursor 0 (u32 (cursor_y t + 1)) t, s)
               else if c =? 13 then Ret (set_cursor 0 (cursor_y t) t, s)
               else if (0x20 <=? u8 c) && (u8 c <=? 0x7F) then
                 s ← font_draw c t s; Ret (set_cursor (u32 (cursor_x t + 1)) (cursor_y t) t, s)
               else Ret (t, s));
    let t := if columns t <=? cursor_x t then set_cursor 0 (u32 (cursor_y t + 1)) t else t in
    if rows t <=? cursor_y t then font_scroll t s else Ret (t, s).

Fixpoint font_puts (str : list Z) (t : fontstate) (s : fbstate) : run (fontstate * fbstate) :=
  match str with
  | [] => Ret (t, s)
  | c :: str => if c =? 0 then Ret (t, s) else '(t, s) ← font_putc c t s; font_puts str t s
  end.

Definition fb_print (str : list Z) (t : fontstate) (s : fbstate) : run (fontstate * fbstate) :=
  if negb (fb_ready s) then Ret (t, s) else font_puts str t s.

Definition font_clear (color : Z) (t : fontstate) (s : fbstate) : run (fontstate * fbstate) :=
  s ← framebuffer_clear color s; Ret (set_cursor 0 0 t, s).

(** The set bits only. *)
Fixpoint draw_bits (xs : list Z) (g x y fg : Z) (s : fbstate) : run fbstate :=
  match xs with
  | [] => Ret s
  | xx :: xs =>
      s ← (if negb (Z.land g (Z.shiftl 1 (7 - xx)) =? 0) then framebuffer_putpixel (u32 (x + xx)) y fg s else Ret s);
      draw_bits xs g x y fg s
  end.

Fixpoint draw_transparent (ys : list Z) (f : font_set) (p x y fg : Z) (s : fbstate) : run fbstate :=
  match ys with
  | [] => Ret s
  | yy :: ys =>
      s ← draw_bits (seqZ 0 (glyph_w f)) (low_mem (p + yy)) x (u32 (y + yy)) fg s;
      draw_transparent ys f p x y fg s
  end.

Definition font_draw_glyph (x y c fg bg : Z) (t : fontstate) (s : fbstate) : run fbstate :=
  if (u8 c <? 0x20) || (0x7F <? u8 c) then Ret s
  else
    let f := font_of (active t) in
    p ← glyph f c;
    if bg =? 0xFFFFFFFF then draw_transparent (seqZ 0 (font_h f)) f p x y fg s
    else draw_rows (seqZ 0 (font_h f)) f p x y fg bg s.
End Memory.

(** ** Glyphs *)

Definition printable (c : Z) : bool := (0x20 <=? u8 c) && (u8 c <=? 0x7F).

Lemma sets_bytes : forallb (fun f => (96 <=? Z.of_nat (length (glyphs f))) && forallb (fun p => (0 <=? p) && (p <? 256)) (glyphs f)) sets = true.
Proof. vm_compute. done. Qed.

Definition font_ok (t : fontstate) : Prop := 0 <= active t < FONT_SET_COUNT.

Lemma font_cases t : font_ok t -> active t = 0 \/ active t = 1.
Proof. unfold font_ok. change FONT_SET_COUNT with 2. lia. Qed.

Lemma font_sizes t : font_ok t -> let f := font_of (active t) in 6 <= glyph_w f <= cell_w f /\ cell_w f <= 9 /\ 8 <= font_h f <= 12.
Proof. intros H. destruct (font_cases t H) as [-> | ->]; vm_compute; done. Qed.

Lemma font_in t : font_ok t -> font_of (active t) ∈ sets.
Proof. intros H. destruct (font_cases t H) as [-> | ->]; [left|right; left]. Qed.

(** The "pointer" is one of the bytes of the table. *)
Lemma glyph_ok t c : font_ok t -> printable c = true -> exists p, glyph (font_of (active t)) c = Ret p /\ 0 <= p < 256.
Proof.
  intros Ht Hc. unfold printable in Hc. rewrite andb_true_iff, !Z.leb_le in Hc. pose proof sets_bytes as H. rewrite forallb_forall in H.
  specialize (H (font_of (active t))). rewrite <- list_elem_of_In, andb_true_iff, Z.leb_le, forallb_forall in H.
  destruct (H (font_in t Ht)) as [Hl Hp]. unfold glyph.
  destruct (lookup_lt_is_Some_2 (glyphs (font_of (active t))) (Z.to_nat (u8 c - 0x20))) as [p Ep]; [lia|].
  rewrite Ep. exists p. split; [done|]. assert (In p (glyphs (font_of (active t)))) as Hin by (eapply list_elem_of_In, list_elem_of_lookup_2, Ep).
  specialize (Hp p Hin). lia.
Qed.

Lemma not_printable c : (u8 c <? 0x20) || (0x7F <? u8 c) = negb (printable c).
Proof. unfold printable. rewrite negb_andb, <- !Z.ltb_antisym. done. Qed.

Section Draw.
Context (low_mem : Z -> Z).

(** What drawing makes of a row of the picture. *)
Definition glyph_line (f : font_set) (p px py fg bg : Z) (s : fbstate) (j : nat) (r : list Z) : list Z :=
  if decide (py <= Z.of_nat j < py + font_h f)
  then splice (Z.to_nat (px * fb_bytes_pp s))
         (pixels_bytes s (take (Z.to_nat (width (fb s) - px)) (glyph_row f (low_mem (p + (Z.of_nat j - py))) fg bg))) r
  else r.

Lemma glyph_row_colours f g fg bg : 0 <= fg < 2 ^ 24 -> 0 <= bg < 2 ^ 24 -> Forall (fun p => 0 <= p < 2 ^ 24) (glyph_row f g fg bg).
Proof.
  intros Hf Hb. unfold glyph_row. apply Forall_app. split.
  - apply Forall_fmap, Forall_forall. intros x _. cbn. by case_match.
  - by apply Forall_replicate.
Qed.

Lemma draw_rows_spec f p px py fg bg n a s :
  fb_ok s -> 0 <= fg < 2 ^ 24 -> 0 <= bg < 2 ^ 24 -> 0 <= px -> 0 <= py -> 0 <= a -> py + a + Z.of_nat n <= 2 ^ 32 ->
  exists s', draw_rows low_mem (seqZ a (Z.of_nat n)) f p px py fg bg s = Ret s' /\
    drawn (fun _ => False) (fun j r => if decide (py + a <= Z.of_nat j < py + a + Z.of_nat n)
      then splice (Z.to_nat (px * fb_bytes_pp s))
             (pixels_bytes s (take (Z.to_nat (width (fb s) - px)) (glyph_row f (low_mem (p + (Z.of_nat j - py))) fg bg))) r
      else r) s s'.
Proof.
  revert a s. induction n as [|n IH]; intros a s Hok Hfg Hbg Hx Hy Ha Hw.
  { exists s. split; [done|]. eapply drawn_ext; [done| |done|by apply drawn_id]. intros j r _ _. cbn. by rewrite decide_False by lia. }
  rewrite seqZ_cons by lia. cbn [draw_rows]. rewrite u32_small by lia.
  replace (Z.succ a) with (a + 1) by lia. replace (Z.pred (Z.of_nat (S n))) with (Z.of_nat n) by lia.
  destruct (putpixels_drawn s px (py + a) (glyph_row f (low_mem (p + a)) fg bg) Hok Hx ltac:(lia)) as (s1 & -> & D1).
  { by apply glyph_row_colours. }
  rewrite bind_ret. pose proof (dr_fmt _ _ _ _ D1) as Hf1. destruct (fmt_sizes _ _ Hf1) as (Ef & _ & _ & Epp).
  destruct (IH (a + 1) s1 (dr_ok _ _ _ _ D1)) as (s' & -> & D2); [lia..|]. exists s'. split; [done|].
  eapply drawn_ext; [done| | |exact (drawn_trans _ _ _ _ _ _ _ D1 D2)]; [|tauto].
  intros j r _ _. cbn. rewrite Ef, Epp. repeat case_decide; try lia; try done.
  - by rewrite (pixels_bytes_fmt _ _ _ Hf1).
  - by replace (Z.of_nat j - py) with a by lia.
Qed.

Lemma draw_glyph_rows f p px py fg bg s :
  fb_ok s -> 0 <= fg < 2 ^ 24 -> 0 <= bg < 2 ^ 24 -> 0 <= px -> 0 <= py -> 0 <= font_h f -> py + font_h f <= 2 ^ 32 ->
  exists s', draw_rows low_mem (seqZ 0 (font_h f)) f p px py fg bg s = Ret s' /\
    drawn (fun _ => False) (glyph_line f p px py fg bg s) s s'.
Proof.
  intros Hok Hfg Hbg Hx Hy Hh Hw. destruct (draw_rows_spec f p px py fg bg (Z.to_nat (font_h f)) 0 s) as (s' & E & D); try done; [lia|].
  rewrite Z2Nat.id in * by lia. rewrite E. exists s'. split; [done|]. eapply drawn_ext; [done| |done|exact D].
  intros j r _ _. cbn. unfold glyph_line. by rewrite Z.add_0_r.
Qed.
End Draw.

(** ** The console *)

(** The cursor is in a cell that lies on the screen. *)
Record console_ok (t : fontstate) (s : fbstate) : Prop :=
  { cs_display : display_ok s;
    cs_font : font_ok t;
    cs_columns : columns t = width (fb s) / cell_w (font_of (active t));
    cs_rows : rows t = height (fb s) / font_h (font_of (active t));
    cs_cursor : rows t = 0 \/ columns t = 0 \/ (0 <= cursor_x t < columns t /\ 0 <= cursor_y t < rows t) }.

Lemma init_console t s :
  display_ok s -> font_ok t -> console_ok (font_init (width (fb s)) (height (fb s)) t) s.
Proof.
  intros Hd Ht. pose proof (font_sizes t Ht) as (? & ? & ?). pose proof (ok_width _ (dp_ok _ Hd)). pose proof (ok_height _ (dp_ok _ Hd)).
  constructor; cbn [font_init columns rows cursor_x cursor_y active]; try done.
  assert (0 <= width (fb s) / cell_w (font_of (active t))) by (apply Z.div_pos; lia).
  assert (0 <= height (fb s) / font_h (font_of (active t))) by (apply Z.div_pos; lia). lia.
Qed.

Section Console.
Context (low_mem : Z -> Z).

(** A cell of the screen. *)
Lemma cell_fits t s : console_ok t s -> 0 <= cursor_x t < columns t -> 0 <= cursor_y t < rows t ->
  let f := font_of (active t) in
  0 <= cursor_x t * cell_w f /\ cursor_x t * cell_w f + cell_w f <= width (fb s) /\
  0 <= cursor_y t * font_h f /\ cursor_y t * font_h f + font_h f <= height (fb s).
Proof.
  intros [Hd Ht Hc Hr _] Hx Hy. pose proof (font_sizes t Ht) as (? & ? & ?). cbv zeta.
  set (f := font_of (active t)) in *. rewrite Hc in Hx. rewrite Hr in Hy.
  pose proof (Z.mul_div_le (width (fb s)) (cell_w f) ltac:(lia)). pose proof (Z.mul_div_le (height (fb s)) (font_h f) ltac:(lia)). nia.
Qed.

Lemma width_small s : fb_ok s -> width (fb s) < 2 ^ 32.
Proof.
  intros Hok. pose proof (ok_small _ Hok). pose proof (ok_row _ Hok). pose proof (ok_pp _ Hok). pose proof (ok_width _ Hok).
  pose proof (ok_height _ Hok). nia.
Qed.

Lemma draw_spec c t s :
  console_ok t s -> 0 <= cursor_x t < columns t -> 0 <= cursor_y t < rows t -> printable c = true ->
  exists s' p, font_draw low_mem c t s = Ret s' /\ glyph (font_of (active t)) c = Ret p /\
    drawn (fun _ => False)
      (glyph_line low_mem (font_of (active t)) p (cursor_x t * cell_w (font_of (active t))) (cursor_y t * font_h (font_of (active t)))
         FG_DEFAULT BG_DEFAULT s) s s'.
Proof.
  intros Hk Hx Hy Hc. destruct (cell_fits t s Hk Hx Hy) as (F1 & F2 & F3 & F4). destruct Hk as [Hd Ht _ _ _].
  pose proof (dp_ok _ Hd) as Hok. pose proof (ok_height _ Hok). pose proof (width_small s Hok). pose proof (font_sizes t Ht) as (? & ? & ?).
  unfold font_draw. rewrite not_printable, Hc. cbn [negb]. destruct (glyph_ok t c Ht Hc) as (p & Ep & _). rewrite Ep, bind_ret.
  rewrite !u32_small by lia.
  destruct (draw_glyph_rows low_mem (font_of (active t)) p (cursor_x t * cell_w (font_of (active t)))
    (cursor_y t * font_h (font_of (active t))) FG_DEFAULT BG_DEFAULT s) as (s' & -> & D); try done; [lia..|]. eauto.
Qed.

(** The console after a change of the picture that keeps the mode. *)
Lemma console_moved t s s' x y :
  console_ok t s -> display_ok s' -> fmt s' = fmt s -> 0 <= x < columns t -> 0 <= y < rows t -> console_ok (set_cursor x y t) s'.
Proof.
  intros [Hd Ht Hc Hr _] Hd' Hf Hx Hy. destruct (fmt_sizes _ _ Hf) as (Ef & _). constructor; cbn; rewrite ?Ef; try done. auto.
Qed.

(** After the character has been handled: wrap and scroll. *)
Definition wrapped (x y : Z) (t : fontstate) : fontstate :=
  set_cursor (if columns t <=? x then 0 else x) (Z.min (if columns t <=? x then y + 1 else y) (rows t - 1)) t.

Lemma putc_tail t s x y s1 :
  console_ok t s -> rows t <> 0 -> columns t <> 0 -> display_ok s1 -> fmt s1 = fmt s -> 0 <= x <= columns t -> 0 <= y <= rows t ->
  (y = rows t -> x < columns t) ->
  exists s', (let t2 := set_cursor x y t in
     let t2 := if columns t2 <=? cursor_x t2 then set_cursor 0 (u32 (cursor_y t2 + 1)) t2 else t2 in
     if rows t2 <=? cursor_y t2 then font_scroll t2 s1 else Ret (t2, s1)) = Ret (wrapped x y t, s') /\
    console_ok (wrapped x y t) s' /\ fmt s' = fmt s.
Proof.
  intros Hk Hr0 Hc0 Hd1 Hf1 Hx Hy Hxy. destruct Hk as [Hd Ht Hc Hr Hcur] eqn:Ek. clear Ek. pose proof (ok_height _ (dp_ok _ Hd)).
  pose proof (font_sizes t Ht) as (? & ? & ?). destruct (fmt_sizes _ _ Hf1) as (Ef & _).
  assert (0 < rows t < 2 ^ 30 /\ font_h (font_of (active t)) <= height (fb s)) as [Hrows Hh].
  { rewrite Hr in *. pose proof (Z.mul_div_le (height (fb s)) (font_h (font_of (active t))) ltac:(lia)).
    pose proof (Z.div_pos (height (fb s)) (font_h (font_of (active t))) ltac:(lia) ltac:(lia)). nia. }
  assert (0 < columns t) as Hcols by lia.
  set (y1 := if columns t <=? x then y + 1 else y). set (x1 := if columns t <=? x then 0 else x).
  assert (0 <= x1 < columns t /\ 0 <= y1 <= rows t) as [Hx1 Hy1] by (subst x1 y1; destruct (Z.leb_spec (columns t) x); lia).
  cbn. replace (if columns t <=? x then _ else _) with (set_cursor x1 y1 t);
    [|subst x1 y1; destruct (Z.leb_spec (columns t) x); [rewrite u32_small by lia|]; done].
  cbn [rows cursor_y set_cursor]. destruct (Z.leb_spec (rows t) y1) as [Hs|Hs].
  - unfold font_scroll. cbn [active set_cursor].
    destruct (scroll_spec s1 (font_h (font_of (active t))) Hd1 ltac:(rewrite Ef; lia)) as (s' & -> & Hd' & Hf' & _). rewrite bind_ret.
    unfold wrapped. fold x1 y1. replace (Z.min y1 (rows t - 1)) with (rows t - 1) by lia. cbn. rewrite u32_small by lia.
    exists s'. split_and!; [done| |congruence]. apply (console_moved t s); try done; [congruence|lia].
  - unfold wrapped. fold x1 y1. replace (Z.min y1 (rows t - 1)) with y1 by lia.
    exists s1. split_and!; try done. apply (console_moved t s); try done. lia.
Qed.

Lemma set_cursor_id t : set_cursor (cursor_x t) (cursor_y t) t = t.
Proof. by destruct t. Qed.

(** Where the cursor goes for each kind of character. *)
Definition next_cursor (c : Z) (t : fontstate) : Z * Z :=
  if c =? 10 then (0, cursor_y t + 1)
  else if c =? 13 then (0, cursor_y t)
  else if printable c then (cursor_x t + 1, cursor_y t)
  else (cursor_x t, cursor_y t).

Lemma columns_small t s : console_ok t s -> columns t < 2 ^ 32.
Proof.
  intros [Hd Ht Hc _ _]. pose proof (font_sizes t Ht) as (? & ? & ?). pose proof (width_small s (dp_ok _ Hd)).
  pose proof (ok_width _ (dp_ok _ Hd)). rewrite Hc. apply Z.div_lt_upper_bound; nia.
Qed.

Lemma rows_small t s : console_ok t s -> rows t < 2 ^ 30.
Proof.
  intros [Hd Ht _ Hr _]. pose proof (font_sizes t Ht) as (? & ? & ?). pose proof (ok_height _ (dp_ok _ Hd)).
  rewrite Hr. apply Z.div_lt_upper_bound; nia.
Qed.

Lemma putc_spec c t s :
  console_ok t s -> rows t <> 0 -> columns t <> 0 ->
  exists s', font_putc low_mem c t s = Ret (wrapped (next_cursor c t).1 (next_cursor c t).2 t, s') /\
    console_ok (wrapped (next_cursor c t).1 (next_cursor c t).2 t) s' /\ fmt s' = fmt s.
Proof.
  intros Hk Hr Hc. pose proof (cs_display _ _ Hk) as Hd. pose proof (ok_height _ (dp_ok _ Hd)). pose proof (columns_small t s Hk).
  destruct (cs_cursor _ _ Hk) as [?|[?|[Hx Hy]]]; [done..|].
  pose proof (rows_small t s Hk).
  unfold font_putc, next_cursor. rewrite !(proj2 (Z.eqb_neq _ 0)) by done. cbn [orb]. change (_ && _) with (printable c).
  destruct (c =? 10); [|destruct (c =? 13); [|destruct (printable c) eqn:Ep]]; cbn [fst snd].
  - destruct (flush_spec s (dp_ok _ Hd)) as (s1 & -> & F). rewrite bind_ret. cbv beta iota. rewrite u32_small by lia.
    destruct (flushed_display _ _ Hd F) as [Hd1 _]. apply putc_tail; try done; [apply (fl_fmt _ _ F)|lia..].
  - rewrite bind_ret. apply putc_tail; try done; lia.
  - destruct (draw_spec c t s Hk Hx Hy Ep) as (s1 & p & -> & _ & D). rewrite !bind_ret. rewrite u32_small by lia.
    apply putc_tail; try done; [by eapply drawn_display|apply (dr_fmt _ _ _ _ D)|lia..].
  - rewrite bind_ret. pose proof (putc_tail t s (cursor_x t) (cursor_y t) s) as Htail. rewrite set_cursor_id in Htail. apply Htail; try done; lia.
Qed.

Lemma wrapped_ids x y t : active (wrapped x y t) = active t /\ rows (wrapped x y t) = rows t /\ columns (wrapped x y t) = columns t.
Proof. done. Qed.

(** A string, character by character. *)
Fixpoint cursor_after (str : list Z) (t : fontstate) : fontstate :=
  match str with
  | [] => t
  | c :: str => if c =? 0 then t else cursor_after str (wrapped (next_cursor c t).1 (next_cursor c t).2 t)
  end.

Lemma puts_spec str t s :
  console_ok t s -> rows t <> 0 -> columns t <> 0 ->
  exists s', font_puts low_mem str t s = Ret (cursor_after str t, s') /\ console_ok (cursor_after str t) s' /\ fmt s' = fmt s.
Proof.
  revert t s. induction str as [|c str IH]; intros t s Hk Hr Hc; cbn [font_puts cursor_after]; [eauto|].
  destruct (c =? 0); [eauto|]. destruct (putc_spec c t s Hk Hr Hc) as (s1 & -> & Hk1 & Hf1). rewrite bind_ret.
  destruct (IH _ _ Hk1 Hr Hc) as (s' & -> & Hk' & Hf'). exists s'. split_and!; [done..|congruence].
Qed.

Lemma puts_off str t s : rows t = 0 \/ columns t = 0 -> font_puts low_mem str t s = Ret (t, s).
Proof.
  intros Hz. induction str as [|c str IH]; cbn [font_puts]; [done|]. destruct (c =? 0); [done|].
  unfold font_putc. replace ((rows t =? 0) || (columns t =? 0)) with true; [by rewrite bind_ret|].
  destruct Hz as [-> | ->]; [done|by rewrite orb_true_r].
Qed.
End Console.

(** ** What the console promises *)

(** Whatever string is printed on a display of whatever size, with either
    font, printing ends without leaving the frame buffer or the back buffer,
    and the console is as usable as before: the cursor is in a cell of the
    screen, also after wrapped lines and scrolling. *)
Theorem font_puts_safe low_mem str t s :
  console_ok t s -> exists t' s', fb_print low_mem str t s = Ret (t', s') /\ console_ok t' s' /\ fmt s' = fmt s.
Proof.
  intros Hk. unfold fb_print. rewrite (ok_ready _ (dp_ok _ (cs_display _ _ Hk))). cbn [negb].
  destruct (decide (rows t = 0 \/ columns t = 0)) as [Hz|Hz]; [rewrite puts_off by done; eauto|].
  destruct (puts_spec low_mem str t s Hk ltac:(lia) ltac:(lia)) as (s' & -> & Hk' & Hf'). eauto.
Qed.

Lemma cursor_printable str t :
  0 < columns t -> 0 < rows t -> Forall (fun c => printable c = true /\ 0x20 <= c) str -> 0 <= cursor_x t < columns t ->
  0 <= cursor_y t < rows t ->
  cursor_x (cursor_after str t) = (cursor_x t + Z.of_nat (length str)) mod columns t /\
  cursor_y (cursor_after str t) = Z.min (cursor_y t + (cursor_x t + Z.of_nat (length str)) / columns t) (rows t - 1).
Proof.
  intros Hc Hr Hall. revert t Hc Hr. induction Hall as [|c str [Hp Hge] _ IH]; intros t Hc Hr Hx Hy; cbn [cursor_after length].
  { rewrite Z.add_0_r, Z.mod_small, Z.div_small by lia. lia. }
  rewrite (proj2 (Z.eqb_neq c 0)) by lia. unfold next_cursor. rewrite !(proj2 (Z.eqb_neq c _)), Hp by lia. cbn [fst snd].
  set (t1 := wrapped _ _ _). assert (columns t1 = columns t /\ rows t1 = rows t) as [Ec Er] by done.
  replace (Z.of_nat (S (length str))) with (Z.of_nat (length str) + 1) by lia.
  assert (cursor_x t1 = if columns t <=? cursor_x t + 1 then 0 else cursor_x t + 1) as E1 by done.
  assert (cursor_y t1 = Z.min (if columns t <=? cursor_x t + 1 then cursor_y t + 1 else cursor_y t) (rows t - 1)) as E2 by done.
  destruct (IH t1) as [IHx IHy]; [..|rewrite IHx, IHy; clear IHx IHy]; pose proof (Nat2Z.is_nonneg (length str)) as Hn;
    set (n := Z.of_nat (length str)) in *; clearbody n; rewrite ?Ec, ?Er; [lia..| | |]; rewrite ?E1, ?E2; destruct (Z.leb_spec (columns t) (cursor_x t + 1)); try lia.
  - assert (cursor_x t + (n + 1) = n + 1 * columns t) as -> by lia. rewrite Z.mod_add, Z.div_add, Z.add_0_l by lia.
    pose proof (Z.div_pos n (columns t) ltac:(lia) ltac:(lia)). split; [done|lia].
  - replace (cursor_x t + 1 + n) with (cursor_x t + (n + 1)) by lia.
    pose proof (Z.div_pos (cursor_x t + (n + 1)) (columns t) ltac:(lia) ltac:(lia)). split; [done|lia].
Qed.

(** On a fresh console the characters of a line of text of any length take
    one cell each, row by row: after [n] printable characters the cursor is in
    the column [n mod columns] of the row [n / columns], or of the last row
    once the text fills the screen and scrolls. *)
Theorem font_wraps low_mem str t s :
  display_ok s -> font_ok t -> cell_w (font_of (active t)) <= width (fb s) -> font_h (font_of (active t)) <= height (fb s) ->
  Forall (fun c => 0x20 <= c <= 0x7F) str ->
  let t0 := font_init (width (fb s)) (height (fb s)) t in
  exists t' s', font_puts low_mem str t0 s = Ret (t', s') /\
    cursor_x t' = Z.of_nat (length str) mod columns t0 /\
    cursor_y t' = Z.min (Z.of_nat (length str) / columns t0) (rows t0 - 1).
Proof.
  intros Hd Ht Hw Hh Hstr t0. pose proof (init_console t s Hd Ht) as Hk. fold t0 in Hk. pose proof (font_sizes t Ht) as (? & ? & ?).
  assert (1 <= columns t0) as Hc by (subst t0; cbn [font_init columns]; apply Z.div_le_lower_bound; lia).
  assert (1 <= rows t0) as Hr by (subst t0; cbn [font_init rows]; apply Z.div_le_lower_bound; lia).
  destruct (puts_spec low_mem str t0 s Hk ltac:(lia) ltac:(lia)) as (s' & -> & _ & _). eexists _, s'. split; [done|].
  assert (cursor_x t0 = 0 /\ cursor_y t0 = 0) as [Ex Ey] by done.
  destruct (cursor_printable str t0) as [-> ->]; rewrite ?Ex, ?Ey; [lia..| |lia|lia|done].
  eapply Forall_impl; [exact Hstr|]. cbn. intros c Hrange. split; [|lia]. unfold printable. rewrite u8_small by lia.
  rewrite andb_true_iff, !Z.leb_le. lia.
Qed.

(** A glyph drawn at any place, on the screen or over its edge, changes
    exactly the pixels of its cell that are on the screen: those of the row [k]
    of the cell to the colours the bits of the glyph's row [k] select. *)
Theorem draw_glyph_paints low_mem x y c fg bg t s :
  display_ok s -> font_ok t -> printable c = true -> 0 <= x -> 0 <= y -> y + font_h (font_of (active t)) <= 2 ^ 32 ->
  0 <= fg < 2 ^ 24 -> 0 <= bg < 2 ^ 24 ->
  exists p s', glyph (font_of (active t)) c = Ret p /\ font_draw_glyph low_mem x y c fg bg t s = Ret s' /\ display_ok s' /\
    picture s' = imap (glyph_line low_mem (font_of (active t)) p x y fg bg s) (picture s).
Proof.
  intros Hd Ht Hc Hx Hy Hw Hfg Hbg. destruct (glyph_ok t c Ht Hc) as (p & Ep & _). pose proof (font_sizes t Ht) as (_ & _ & ?).
  destruct (draw_glyph_rows low_mem (font_of (active t)) p x y fg bg s (dp_ok _ Hd)) as (s' & E & D); try done; [lia|].
  exists p, s'. unfold font_draw_glyph. rewrite not_printable, Hc, Ep. cbn [negb]. rewrite bind_ret, (proj2 (Z.eqb_neq bg _)) by lia.
  split_and!; try done; [by eapply drawn_display|exact (drawn_picture _ _ _ _ D)].
Qed.

(** The glyph is addressed by a byte of the table instead of lying in it: with
    nothing but zeros at the lowest addresses every character looks like a
    space, whatever the table holds. *)
Theorem glyphs_from_low_memory low_mem c t s :
  (forall a, 0 <= a < 268 -> low_mem a = 0) -> font_ok t -> printable c = true ->
  font_draw low_mem c t s = font_draw low_mem 0x20 t s.
Proof.
  intros Hm Ht Hc. destruct (glyph_ok t c Ht Hc) as (p & Ep & Hp). destruct (glyph_ok t 0x20 Ht eq_refl) as (q & Eq & Hq).
  unfold font_draw. rewrite !not_printable, Hc, Ep, Eq, !bind_ret. change (negb (printable 0x20)) with false. cbn [negb].
  pose proof (font_sizes t Ht) as (_ & _ & Hh). set (f := font_of (active t)) in *.
  assert (Forall (fun k => 0 <= k < 12) (seqZ 0 (font_h f))) as Hys.
  { apply Forall_forall. intros k Hk. apply elem_of_seqZ in Hk. lia. }
  revert s. induction Hys as [|k ys Hk _ IH]; intros s; [done|]. cbn [draw_rows]. rewrite !Hm by lia.
  destruct (framebuffer_putpixels _ _ _ _); [apply IH|done..].
Qed.

(** ** A small screen *)

(** Twenty by eighteen pixels of a byte, drawn to directly: two columns and two
    rows of the first font. *)
Definition small : fbstate :=
  mkFbs (mkFb 0xE0000000 20 18 20 8 3 5 3 2 2 0) true 0 18 0 1 5 5 6 (replicate 360 0) None.

Lemma small_ok : display_ok small.
Proof.
  assert (fb_ok small) as Hok by (constructor; vm_compute; try done; repeat split; done).
  constructor; [done|done|by apply in_sync_direct].
Defined.

Definition term : fontstate := mkFonts FONT_9X8 0 0 0 0.

Lemma term_ok : font_ok term.
Proof. split; done. Defined.

(** Some memory to read glyphs from. *)
Definition some_mem (a : Z) : Z := (a * 37) mod 256.

Lemma font_puts_safe_witness :
  exists t' s', fb_print some_mem [72; 105; 10; 33; 33; 33; 13; 200] (font_init 20 18 term) small = Ret (t', s') /\
    console_ok t' s' /\ fmt s' = fmt small.
Proof. exact (font_puts_safe some_mem _ _ small (init_console term small small_ok term_ok)). Defined.

Lemma font_wraps_witness :
  let t0 := font_init (width (fb small)) (height (fb small)) term in
  exists t' s', font_puts some_mem [72; 101; 121] t0 small = Ret (t', s') /\
    cursor_x t' = Z.of_nat 3 mod columns t0 /\ cursor_y t' = Z.min (Z.of_nat 3 / columns t0) (rows t0 - 1).
Proof.
  apply (font_wraps some_mem [72; 101; 121] term small small_ok term_ok); [vm_compute; done..|].
  repeat constructor; lia.
Defined.

Lemma draw_glyph_paints_witness :
  exists p s', glyph (font_of (active term)) 65 = Ret p /\ font_draw_glyph some_mem 15 12 65 0xFFFFFF 0x000080 term small = Ret s' /\
    display_ok s' /\ picture s' = imap (glyph_line some_mem (font_of (active term)) p 15 12 0xFFFFFF 0x000080 small) (picture small).
Proof. apply (draw_glyph_paints some_mem 15 12 65 0xFFFFFF 0x000080 term small small_ok term_ok); vm_compute; (done || split; done). Defined.

(** Five characters on a screen of four cells. *)
Example scrolls : (r ← font_puts some_mem [65; 66; 67; 68; 69] (font_init 20 18 term) small;
  Ret (cursor_x r.1, cursor_y r.1)) = Ret (1, 1).
Proof. vm_compute. done. Qed.
