(* ===== verification/Acpi.v ===== *)
(** * osfmk/x86_64/acpi: acpi.c, rsdp.c, rsdt.c, madt.c

    The firmware's tables lie in memory, read here through [mem] (identity
    mapped; [None] is memory that is not there).  Requests for mappings are
    recorded.  Shown: the search for the root pointer and for a table finds
    the first that is valid, whatever memory holds, and always ends. *)

From S2P Require Import Prelude.

(** ** Reads *)

Definition memory := Z -> option Z.

Definition rd8 (m : memory) (a : Z) : run Z := of_option (m (u64 a)).

Fixpoint rd_bytes (m : memory) (a : Z) (n : nat) : run (list Z) :=
  match n with
  | O => Ret []
  | S n => b ← rd8 m a; bs ← rd_bytes m (a + 1) n; Ret (b :: bs)
  end.

Definition rd_le (n : nat) (m : memory) (a : Z) : run Z := bs ← rd_bytes m a n; Ret (le_val bs).

(** Field offsets of the packed structures of acpi.h. *)
Definition SDT_HEADER : Z := 36.
Definition sdt_length (m : memory) (sdt : Z) : run Z := rd_le 4 m (sdt + 4).
Definition RSDP_SIZE : Z := 20.
Definition rsdp_revision (m : memory) (rsdp : Z) : run Z := rd8 m (rsdp + 15).
Definition rsdp_rsdt_address (m : memory) (rsdp : Z) : run Z := rd_le 4 m (rsdp + 16).
Definition rsdp_xsdt_address (m : memory) (rsdp : Z) : run Z := rd_le 8 m (rsdp + 24).

Definition ACPI_SIG_RSDP : list Z := [82; 83; 68; 32; 80; 84; 82; 32].  (* "RSD PTR " *)
Definition ACPI_SIG_MADT : list Z := [65; 80; 73; 67].  (* "APIC" *)
Definition ACPI_SIG_FADT : list Z := [70; 65; 67; 80].  (* "FACP" *)

(** ** acpi.c *)

(** The global pointers (0 is null), whether paging is on, and the regions
    whose mapping was requested, latest first. *)
Record acpi := mkAcpi { acpi_rsdp : Z; acpi_rsdt : Z; acpi_xsdt : Z; acpi_madt : Z; acpi_fadt : Z; paging_on : bool; mapped : list (Z * Z) }.
Definition set_rsdp (p : Z) (a : acpi) : acpi := mkAcpi p (acpi_rsdt a) (acpi_xsdt a) (acpi_madt a) (acpi_fadt a) (paging_on a) (mapped a).
Definition set_rsdt (p : Z) (a : acpi) : acpi := mkAcpi (acpi_rsdp a) p (acpi_xsdt a) (acpi_madt a) (acpi_fadt a) (paging_on a) (mapped a).
Definition set_xsdt (p : Z) (a : acpi) : acpi := mkAcpi (acpi_rsdp a) (acpi_rsdt a) p (acpi_madt a) (acpi_fadt a) (paging_on a) (mapped a).
Definition set_madt (p : Z) (a : acpi) : acpi := mkAcpi (acpi_rsdp a) (acpi_rsdt a) (acpi_xsdt a) p (acpi_fadt a) (paging_on a) (mapped a).
Definition set_fadt (p : Z) (a : acpi) : acpi := mkAcpi (acpi_rsdp a) (acpi_rsdt a) (acpi_xsdt a) (acpi_madt a) p (paging_on a) (mapped a).
Definition set_mapped (l : list (Z * Z)) (a : acpi) : acpi :=
  mkAcpi (acpi_rsdp a) (acpi_rsdt a) (acpi_xsdt a) (acpi_madt a) (acpi_fadt a) (paging_on a) l.

Section Memory.
Context (m : memory).

Fixpoint checksum_loop (data : Z) (n : nat) (sum : Z) : run Z :=
  match n with
  | O => Ret sum
  | S n => b ← rd8 m data; checksum_loop (data + 1) n (u8 (sum + b))
  end.

Definition acpi_checksum (data length : Z) : run Z := checksum_loop data (Z.to_nat length) 0.

Definition acpi_map_phys (phys size : Z) (a : acpi) : acpi :=
  if (phys =? 0) || (size =? 0) then a
  else if negb (paging_on a) then a
  else set_mapped ((phys, size) :: mapped a) a.

(** The comparisons of a signature, left to right. *)
Fixpoint sig_match (p : Z) (sig : list Z) : run bool :=
  match sig with
  | [] => Ret true
  | c :: sig => b ← rd8 m p; if b =? c then sig_match (p + 1) sig else Ret false
  end.

Definition PAGE_SIZE : Z := 4096.

(** The entries of a root table, of [size] bytes each. *)
Fixpoint find_entries (size : nat) (entries : list Z) (signature : list Z) (a : acpi) : run (option Z * acpi) :=
  match entries with
  | [] => Ret (None, a)
  | e :: entries =>
      base ← rd_le size m e;
      if base =? 0 then find_entries size entries signature a
      else
        let a := acpi_map_phys base PAGE_SIZE a in
        hit ← sig_match base signature;
        if (hit : bool) then
          len ← sdt_length m base;
          let a := acpi_map_phys base len a in
          sum ← acpi_checksum base len;
          if sum =? 0 then Ret (Some base, a) else find_entries size entries signature a
        else find_entries size entries signature a
  end.

(** [count] and the addresses of the entries. *)
Definition table_entries (size : Z) (table : Z) : run (list Z) :=
  len ← sdt_length m table;
  let count := u32 (u64 (len - SDT_HEADER) / size) in
  Ret ((fun i => table + SDT_HEADER + size * i) <$> seqZ 0 count).

Definition acpi_find_table (signature : list Z) (a : acpi) : run (Z * acpi) :=
  if (acpi_rsdt a =? 0) && (acpi_xsdt a =? 0) then Ret (0, a)
  else
    '(r, a) ← (if negb (acpi_xsdt a =? 0) then es ← table_entries 8 (acpi_xsdt a); find_entries 8 es signature a else Ret (None, a));
    match r with
    | Some sdt => Ret (sdt, a)
    | None =>
        '(r, a) ← (if negb (acpi_rsdt a =? 0) then es ← table_entries 4 (acpi_rsdt a); find_entries 4 es signature a else Ret (None, a));
        match r with Some sdt => Ret (sdt, a) | None => Ret (0, a) end
    end.

(** ** rsdp.c *)

Definition ROM_START : Z := 0x000E0000.
Definition ROM_END : Z := 0x000FFFFF.

(** [for (addr = search_start; addr < search_end; addr += 16)] *)
Definition scan_range (search_start search_end : Z) : run (option Z) :=
  loop (fun addr =>
    if addr <? search_end then
      hit ← sig_match addr ACPI_SIG_RSDP;
      if (hit : bool) then
        sum ← acpi_checksum addr RSDP_SIZE;
        if sum =? 0 then Ret (inr (Some addr)) else Ret (inl (u32 (addr + 16)))
      else Ret (inl (u32 (addr + 16)))
    else Ret (inr None)) search_start.

Definition acpi_rsdp_scan (a : acpi) : run (Z * acpi) :=
  w ← rd_le 2 m 0x40E;
  let ebda_base := u32 (Z.shiftl w 4) in
  let search_start := ebda_base in
  let search_end := u32 (ebda_base + 1024) in
  let '(search_start, search_end) :=
    if (search_start =? 0) || (search_end <? search_start) then (ROM_START, ROM_END) else (search_start, search_end) in
  let a := acpi_map_phys search_start 1024 a in
  r ← scan_range search_start search_end;
  match r with
  | Some addr => Ret (1, set_rsdp addr a)
  | None =>
      let a := acpi_map_phys ROM_START 0x00020000 a in
      r ← scan_range ROM_START ROM_END;
      match r with
      | Some addr => Ret (1, set_rsdp addr a)
      | None => Ret (0, a)
      end
  end.

(** ** rsdt.c *)

(** The RSDT, checked: shared by [acpi_init] and [acpi_parse_xsdt]. *)
Definition use_rsdt (a : acpi) : run (Z * acpi) :=
  r ← rsdp_rsdt_address m (acpi_rsdp a);
  let a := set_rsdt r a in
  if r =? 0 then Ret (0, a)
  else
    let a := acpi_map_phys r PAGE_SIZE a in
    len ← sdt_length m r;
    sum ← acpi_checksum r len;
    if negb (sum =? 0) then Ret (0, a) else Ret (1, a).

Definition acpi_parse_rsdt (a : acpi) : run Z :=
  if acpi_rsdp a =? 0 then Ret 0
  else rev ← rsdp_revision m (acpi_rsdp a); if rev <? 2 then Ret 0 else Ret 1.

Definition acpi_parse_xsdt (a : acpi) : run (Z * acpi) :=
  ok ← acpi_parse_rsdt a;
  if ok =? 0 then Ret (0, a)
  else
    x ← rsdp_xsdt_address m (acpi_rsdp a);
    if x =? 0 then use_rsdt a
    else
      let a := acpi_map_phys x PAGE_SIZE (set_xsdt x a) in
      len ← sdt_length m x;
      sum ← acpi_checksum x len;
      if negb (sum =? 0) then Ret (0, set_xsdt 0 a) else Ret (1, a).

(** ** madt.c: what is logged for each entry *)

Inductive madt_line :=
  | LapicLine (apic_id processor_id flags : Z)
  | IoapicLine (ioapic_id addr gsi_base : Z)
  | OverrideLine (bus source gsi flags : Z)
  | AddrLine (addr : Z)
  | X2apicLine (len : Z)
  | UnknownLine (type len : Z).

Definition madt_entry_line (p type len : Z) : run madt_line :=
  if type =? 0 then proc ← rd8 m (p + 2); id ← rd8 m (p + 3); fl ← rd_le 4 m (p + 4); Ret (LapicLine id proc fl)
  else if type =? 1 then id ← rd8 m (p + 2); ad ← rd_le 4 m (p + 4); g ← rd_le 4 m (p + 8); Ret (IoapicLine id ad g)
  else if type =? 2 then
    b ← rd8 m (p + 2); sr ← rd8 m (p + 3); g ← rd_le 4 m (p + 4); fl ← rd_le 2 m (p + 8); Ret (OverrideLine b sr g fl)
  else if type =? 5 then ad ← rd_le 8 m (p + 4); Ret (AddrLine ad)
  else if type =? 9 then Ret (X2apicLine len)
  else Ret (UnknownLine type len).

(** The walk over the entries that the four readers of a MADT share: from
    [off] on, [body] per entry, which may end it. *)
Definition madt_walk {S} (madt off : Z) (body : Z -> Z -> Z -> S -> run (S + S)) (s : S) : run S :=
  length ← sdt_length m madt;
  loop (fun '(ptr, off, s) =>
    if off + 2 <=? length then
      type ← rd8 m ptr;
      len ← rd8 m (ptr + 1);
      if len =? 0 then Ret (inr s)
      else
        r ← body ptr type len s;
        match r with
        | inl s => Ret (inl (ptr + len, u32 (off + len), s))
        | inr s => Ret (inr s)
        end
    else Ret (inr s)) (madt + off, off, s).

Definition acpi_print_madt (madt : Z) : run (list madt_line) :=
  madt_walk madt SDT_HEADER (fun p type len ls => l ← madt_entry_line p type len; Ret (inl (ls ++ [l]))) [].

(** The lines of the MADT are the log of [acpi_init]. *)
Definition acpi_init (a : acpi) : run (Z * list madt_line * acpi) :=
  '(ok, a) ← acpi_rsdp_scan a;
  if ok =? 0 then Ret (0, [], a)
  else
    rev ← rsdp_revision m (acpi_rsdp a);
    '(ok, a) ← (if 2 <=? rev then acpi_parse_xsdt a else use_rsdt a);
    if ok =? 0 then Ret (0, [], a)
    else
      '(madt, a) ← acpi_find_table ACPI_SIG_MADT a;
      '(ls, a) ← (if negb (madt =? 0) then ls ← acpi_print_madt madt; Ret (ls, set_madt madt a) else Ret ([], a));
      '(fadt, a) ← acpi_find_table ACPI_SIG_FADT a;
      Ret (1, ls, if negb (fadt =? 0) then set_fadt fadt a else a).
End Memory.

(** ** Memory that can be read *)

Section Full.
Context (m : memory).
Hypothesis full : forall a, exists b, m a = Some b /\ byte_ok b.

Definition byte (a : Z) : Z := default 0 (m (u64 a)).
Definition bytes (a n : Z) : list Z := byte <$> seqZ a n.
Definition value (n a : Z) : Z := le_val (bytes a n).

Lemma rd8_full a : rd8 m a = Ret (byte a).
Proof. unfold rd8, byte. by destruct (full (u64 a)) as (b & -> & _). Qed.

Lemma byte_byte a : byte_ok (byte a).
Proof. unfold byte. by destruct (full (u64 a)) as (b & -> & ?). Qed.

Lemma rd_bytes_full a n : rd_bytes m a n = Ret (bytes a (Z.of_nat n)).
Proof.
  revert a. induction n as [|n IH]; intros a; [done|]. cbn [rd_bytes]. rewrite rd8_full, bind_ret, IH, bind_ret.
  unfold bytes. rewrite (seqZ_cons a (Z.of_nat (S n))) by lia. cbn. unfold Z.succ. do 4 f_equal. lia.
Qed.

Lemma rd_le_full n a : rd_le n m a = Ret (value (Z.of_nat n) a).
Proof. unfold rd_le. by rewrite rd_bytes_full. Qed.

Lemma value_bound n a : 0 <= n -> 0 <= value n a < 256 ^ n.
Proof.
  intros Hn. unfold value. assert (Z.of_nat (length (bytes a n)) = n) as El by (unfold bytes; rewrite length_fmap, length_seqZ; lia).
  rewrite <- El at 3. apply le_val_bound. apply Forall_fmap, Forall_forall. intros x _. apply byte_byte.
Qed.

Lemma checksum_full data n sum :
  checksum_loop m data n sum = Ret (foldl (fun s b => u8 (s + b)) sum (bytes data (Z.of_nat n))).
Proof.
  revert data sum. induction n as [|n IH]; intros data sum; [done|]. cbn [checksum_loop]. rewrite rd8_full, bind_ret, IH.
  unfold bytes. rewrite (seqZ_cons data (Z.of_nat (S n))) by lia. cbn. unfold Z.succ. do 4 f_equal. lia.
Qed.

Definition sum_list (l : list Z) : Z := foldr Z.add 0 l.

Lemma foldl_u8 l s : foldl (fun s b => u8 (s + b)) s l = if decide (l = []) then s else u8 (s + sum_list l).
Proof.
  revert s. induction l as [|b l IH]; intros s; [done|]. cbn [foldl sum_list foldr]. rewrite IH, (decide_False (P := b :: l = [])) by done.
  case_decide as El; [subst; cbn; by rewrite Z.add_0_r|]. unfold u8. rewrite Z.add_mod_idemp_l by lia. f_equal. fold (sum_list l). lia.
Qed.

(** The sum of the bytes, modulo 256. *)
Lemma acpi_checksum_full data n : acpi_checksum m data n = Ret (u8 (sum_list (bytes data n))).
Proof.
  unfold acpi_checksum. rewrite checksum_full, foldl_u8. destruct (decide (0 <= n)).
  - rewrite Z2Nat.id by done. case_decide as E; [by rewrite E|done].
  - unfold bytes. by rewrite !seqZ_nil by lia.
Qed.

Lemma sig_match_full p sig : sig_match m p sig = Ret (bool_decide (bytes p (Z.of_nat (length sig)) = sig)).
Proof.
  revert p. induction sig as [|c sig IH]; intros p; [done|]. cbn [sig_match length]. rewrite rd8_full, bind_ret.
  unfold bytes in *. rewrite (seqZ_cons p (Z.of_nat (S (length sig)))) by lia. cbn [fmap list_fmap].
  replace (Z.pred (Z.of_nat (S (length sig)))) with (Z.of_nat (length sig)) by lia. unfold Z.succ. rewrite IH.
  destruct (Z.eqb_spec (byte p) c) as [E|E]; f_equal.
  - apply bool_decide_ext. split; [intros ->; by rewrite E|by intros [= _ ?]].
  - symmetry. apply bool_decide_eq_false_2. by intros [= ? _].
Qed.

(** ** The search for a table *)

Definition table_length (t : Z) : Z := value 4 (t + 4).

(** A table with the signature whose bytes sum up to zero. *)
Definition valid_table (sig : list Z) (t : Z) : Prop :=
  t <> 0 /\ bytes t (Z.of_nat (length sig)) = sig /\ u8 (sum_list (bytes t (table_length t))) = 0.
#[global] Instance valid_table_dec sig t : Decision (valid_table sig t).
Proof. unfold valid_table. apply _. Defined.

Lemma find_entries_full size es sig a :
  exists a', find_entries m size es sig a = Ret (head (filter (valid_table sig) (value (Z.of_nat size) <$> es)), a') /\
    acpi_rsdp a' = acpi_rsdp a /\ acpi_rsdt a' = acpi_rsdt a /\ acpi_xsdt a' = acpi_xsdt a /\ acpi_madt a' = acpi_madt a.
Proof.
  revert a. induction es as [|e es IH]; intros a; [by exists a|]. cbn [find_entries fmap list_fmap]. rewrite rd_le_full, bind_ret, filter_cons.
  assert (Hmap : forall p n b, acpi_rsdp (acpi_map_phys p n b) = acpi_rsdp b /\ acpi_rsdt (acpi_map_phys p n b) = acpi_rsdt b /\
    acpi_xsdt (acpi_map_phys p n b) = acpi_xsdt b /\ acpi_madt (acpi_map_phys p n b) = acpi_madt b)
    by (intros p n b; unfold acpi_map_phys; repeat case_match; done).
  set (t := value _ e). destruct (Z.eqb_spec t 0) as [E0|E0].
  { rewrite decide_False by (unfold valid_table; tauto). apply IH. }
  rewrite sig_match_full, bind_ret. destruct (bool_decide_reflect (bytes t (Z.of_nat (length sig)) = sig)) as [Es|Es].
  - unfold sdt_length. rewrite rd_le_full, bind_ret, acpi_checksum_full, bind_ret. change (Z.of_nat 4) with 4. fold (table_length t).
    set (a1 := acpi_map_phys t PAGE_SIZE a). set (a2 := acpi_map_phys t (table_length t) a1).
    destruct (Hmap t PAGE_SIZE a) as (? & ? & ? & ?), (Hmap t (table_length t) a1) as (? & ? & ? & ?). subst a1 a2.
    destruct (Z.eqb_spec (u8 (sum_list (bytes t (table_length t)))) 0) as [Ec|Ec].
    + rewrite decide_True by done. eexists. split; [done|]. split_and!; congruence.
    + rewrite decide_False by (unfold valid_table; tauto).
      destruct (IH (acpi_map_phys t (table_length t) (acpi_map_phys t PAGE_SIZE a))) as (a' & -> & ? & ? & ? & ?). eexists. split; [done|]. split_and!; congruence.
  - rewrite decide_False by (unfold valid_table; tauto). destruct (Hmap t PAGE_SIZE a) as (? & ? & ? & ?).
    destruct (IH (acpi_map_phys t PAGE_SIZE a)) as (a' & -> & ? & ? & ? & ?). eexists. split; [done|]. split_and!; congruence.
Qed.

(** The tables a root table lists, in entries of [size] bytes. *)
Definition listed (size root : Z) : list Z :=
  if decide (root = 0) then []
  else (fun i => value size (root + SDT_HEADER + size * i)) <$> seqZ 0 (u32 (u64 (table_length root - SDT_HEADER) / size)).

Lemma table_entries_full size root : root <> 0 ->
  exists es, table_entries m size root = Ret es /\ value size <$> es = listed size root.
Proof.
  intros Hr. unfold table_entries, sdt_length. rewrite rd_le_full, bind_ret. eexists. split; [done|].
  unfold listed. rewrite decide_False by done. rewrite <- list_fmap_compose. done.
Qed.

Lemma find_table_full sig a :
  exists a', acpi_find_table m sig a = Ret (default 0 (head (filter (valid_table sig) (listed 8 (acpi_xsdt a) ++ listed 4 (acpi_rsdt a)))), a') /\
    acpi_rsdp a' = acpi_rsdp a /\ acpi_rsdt a' = acpi_rsdt a /\ acpi_xsdt a' = acpi_xsdt a /\ acpi_madt a' = acpi_madt a.
Proof.
  assert (Hsearch : forall (size : nat) root b, exists b', (if negb (root =? 0) then es ← table_entries m (Z.of_nat size) root; find_entries m size es sig b
      else Ret (None, b)) = Ret (head (filter (valid_table sig) (listed (Z.of_nat size) root)), b') /\
    acpi_rsdp b' = acpi_rsdp b /\ acpi_rsdt b' = acpi_rsdt b /\ acpi_xsdt b' = acpi_xsdt b /\ acpi_madt b' = acpi_madt b).
  { intros size root b. destruct (Z.eqb_spec root 0) as [->|Hr]; cbn [negb]; [by exists b|].
    destruct (table_entries_full (Z.of_nat size) root Hr) as (es & -> & <-). rewrite bind_ret. apply find_entries_full. }
  unfold acpi_find_table. rewrite filter_app. destruct (Z.eqb_spec (acpi_rsdt a) 0) as [E1|E1], (Z.eqb_spec (acpi_xsdt a) 0) as [E2|E2]; cbn [andb].
  { rewrite E1, E2. by exists a. }
  all: destruct (Hsearch 8%nat (acpi_xsdt a) a) as (a1 & Ha1 & F1 & F2 & F3 & F4); change (Z.of_nat 8) with 8 in Ha1.
  all: rewrite (proj2 (Z.eqb_eq _ _) E2) in Ha1 || rewrite (proj2 (Z.eqb_neq _ _) E2) in Ha1; rewrite Ha1, bind_ret.
  all: destruct (filter (valid_table sig) (listed 8 (acpi_xsdt a))) as [|t ts]; cbn [head app]; [|by exists a1].
  all: destruct (Hsearch 4%nat (acpi_rsdt a1) a1) as (a2 & Ha2 & G1 & G2 & G3 & G4); change (Z.of_nat 4) with 4 in Ha2.
  all: rewrite Ha2, bind_ret, F2; exists a2; split; [by destruct (filter (valid_table sig) (listed 4 (acpi_rsdt a)))|split_and!; congruence].
Qed.

(** ** The search for the root pointer *)

Definition valid_rsdp (p : Z) : Prop := bytes p 8 = ACPI_SIG_RSDP /\ u8 (sum_list (bytes p RSDP_SIZE)) = 0.

(** The addresses looked at. *)
Definition candidate (start end_ q : Z) : Prop := start <= q < end_ /\ (q - start) mod 16 = 0.

(** The first valid root pointer of a range. *)
Definition first_rsdp (start end_ : Z) (r : option Z) : Prop :=
  match r with
  | Some p => candidate start end_ p /\ valid_rsdp p /\ forall q, candidate start end_ q -> q < p -> ~ valid_rsdp q
  | None => forall q, candidate start end_ q -> ~ valid_rsdp q
  end.

Lemma scan_range_full start end_ :
  0 <= start -> end_ + 16 < 2 ^ 32 -> exists r, scan_range m start end_ = Ret r /\ first_rsdp start end_ r.
Proof.
  intros Hs He. unfold scan_range.
  loop_with (fun addr => start <= addr /\ (addr - start) mod 16 = 0 /\ forall q, candidate start end_ q -> q < addr -> ~ valid_rsdp q)
    (fun r => first_rsdp start end_ r) (fun addr => Z.max 0 (end_ - addr)) as (r & -> & Hr); [..|eauto].
  - intros addr (H1 & H2 & H3). destruct (Z.ltb_spec addr end_) as [Hlt|Hge]; cycle 1.
    { right. eexists. split; [done|]. intros q Hq. apply H3; [done|]. destruct Hq as [? _]. lia. }
    assert (candidate start end_ addr) as Hc by (split; [lia|done]). rewrite sig_match_full, bind_ret. change (Z.of_nat _) with 8.
    assert (Hnext : ~ valid_rsdp addr -> exists s', Ret (A := Z + option Z) (inl (u32 (addr + 16))) = Ret (inl s') /\
      (start <= s' /\ (s' - start) mod 16 = 0 /\ forall q, candidate start end_ q -> q < s' -> ~ valid_rsdp q) /\
      0 <= Z.max 0 (end_ - s') < Z.max 0 (end_ - addr)).
    { intros Hn. rewrite u32_small by lia. eexists. split; [done|]. split; [|lia]. split; [lia|]. split; [Z.div_mod_to_equations; lia|].
      intros q Hq Hqs. destruct (decide (q < addr)); [by apply H3|]. assert (q = addr) as ->; [|done].
      destruct Hq as [? Hq]. Z.div_mod_to_equations; lia. }
    destruct (bool_decide_reflect (bytes addr 8 = ACPI_SIG_RSDP)) as [Es|Es].
    + rewrite acpi_checksum_full, bind_ret. destruct (Z.eqb_spec (u8 (sum_list (bytes addr RSDP_SIZE))) 0) as [Ec|Ec].
      * right. eexists. split; [done|]. repeat split; try done; tauto.
      * left. apply Hnext. unfold valid_rsdp. tauto.
    + left. apply Hnext. unfold valid_rsdp. tauto.
  - split; [lia|]. split; [by rewrite Z.sub_diag|]. intros q [? _] ?. lia.
  - lia.
Qed.

(** The range scanned first: the extended BIOS data area, or the ROM. *)
Definition first_range : Z * Z :=
  let base := 16 * value 2 0x40E in if decide (base = 0) then (ROM_START, ROM_END) else (base, base + 1024).

Lemma rsdp_scan_full a :
  exists r a', acpi_rsdp_scan m a = Ret (r, a') /\ acpi_rsdt a' = acpi_rsdt a /\ acpi_xsdt a' = acpi_xsdt a /\ acpi_madt a' = acpi_madt a /\
    ((r = 1 /\ (first_rsdp first_range.1 first_range.2 (Some (acpi_rsdp a')) \/
                (first_rsdp first_range.1 first_range.2 None /\ first_rsdp ROM_START ROM_END (Some (acpi_rsdp a'))))) \/
     (r = 0 /\ first_rsdp first_range.1 first_range.2 None /\ first_rsdp ROM_START ROM_END None)).
Proof.
  assert (Hmap : forall p n b, acpi_rsdt (acpi_map_phys p n b) = acpi_rsdt b /\
    acpi_xsdt (acpi_map_phys p n b) = acpi_xsdt b /\ acpi_madt (acpi_map_phys p n b) = acpi_madt b)
    by (intros p n b; unfold acpi_map_phys; repeat case_match; done).
  unfold acpi_rsdp_scan. rewrite rd_le_full, bind_ret. pose proof (value_bound 2 0x40E ltac:(lia)) as Hw.
  change (Z.of_nat 2) with 2. rewrite Z.shiftl_mul_pow2 by lia. change (2 ^ 4) with 16. rewrite Z.mul_comm.
  rewrite !(u32_small (16 * _)), u32_small by lia.
  match goal with |- context [if ?c then (ROM_START, ROM_END) else ?e] => replace (if c then (ROM_START, ROM_END) else e) with first_range end.
  2: { unfold first_range. destruct (Z.eqb_spec (16 * value 2 0x40E) 0); cbn [orb];
       [by rewrite decide_True|rewrite decide_False by done]. by rewrite (proj2 (Z.ltb_ge _ _)) by lia. }
  assert (0 <= first_range.1 /\ first_range.2 + 16 < 2 ^ 32) as [Hr1 Hr2].
  { unfold first_range, ROM_START, ROM_END. case_decide; cbn; lia. }
  destruct first_range as [st en]. cbn [fst snd] in *. destruct (scan_range_full st en Hr1 Hr2) as ([p|] & -> & Hf); rewrite bind_ret.
  { destruct (Hmap st 1024 a) as (? & ? & ?). eexists _, _. split; [done|]. split_and!; try done. left. split; [done|]. by left. }
  destruct (Hmap st 1024 a) as (? & ? & ?), (Hmap ROM_START 0x00020000 (acpi_map_phys st 1024 a)) as (? & ? & ?).
  destruct (scan_range_full ROM_START ROM_END) as ([p|] & -> & Hg); [done..| |]; rewrite bind_ret; eexists _, _; (split; [done|]).
  - split_and!; cbn [set_rsdp acpi_rsdt acpi_xsdt acpi_madt]; try congruence. left. split; [done|]. by right.
  - split_and!; cbn [set_rsdp acpi_rsdt acpi_xsdt acpi_madt]; try congruence. by right.
Qed.

(** ** Walking a MADT *)

(** The entries of a MADT: address, type, length. *)
Fixpoint madt_entries (fuel : nat) (length ptr off : Z) : list (Z * Z * Z) :=
  match fuel with
  | O => []
  | S fuel =>
      if off + 2 <=? length then
        if byte (ptr + 1) =? 0 then []
        else (ptr, byte ptr, byte (ptr + 1)) :: madt_entries fuel length (ptr + byte (ptr + 1)) (off + byte (ptr + 1))
      else []
  end.

Fixpoint fold_entries {S} (body : Z -> Z -> Z -> S -> run (S + S)) (es : list (Z * Z * Z)) (s : S) : run S :=
  match es with
  | [] => Ret s
  | (p, t, l) :: es =>
      r ← body p t l s;
      match r with inl s => fold_entries body es s | inr s => Ret s end
  end.

Definition entries_of (madt off : Z) : list (Z * Z * Z) :=
  madt_entries (Z.to_nat (table_length madt - off)) (table_length madt) (madt + off) off.

Lemma madt_entries_fuel f g length ptr off :
  length - off <= Z.of_nat f -> length - off <= Z.of_nat g -> madt_entries f length ptr off = madt_entries g length ptr off.
Proof.
  revert g ptr off. induction f as [|f IH]; intros g ptr off Hf Hg.
  { destruct g; [done|]. cbn. by rewrite (proj2 (Z.leb_gt _ _)) by lia. }
  destruct g as [|g]; cbn [madt_entries].
  { by rewrite (proj2 (Z.leb_gt _ _)) by lia. }
  destruct (_ <=? _); [|done]. destruct (Z.eqb_spec (byte (ptr + 1)) 0); [done|]. pose proof (byte_byte (ptr + 1)) as [? ?].
  f_equal. apply IH; lia.
Qed.

(** A walk is a fold over the entries. *)
Lemma madt_walk_full {S} (I : S -> Prop) madt off (body : Z -> Z -> Z -> S -> run (S + S)) s :
  0 <= off -> table_length madt <= 2 ^ 32 - 257 -> I s ->
  (forall p t l s, I s -> exists r, body p t l s = Ret r /\ match r with inl s' => I s' | inr _ => True end) ->
  exists s', madt_walk m madt off body s = Ret s' /\ fold_entries body (entries_of madt off) s = Ret s'.
Proof.
  intros Ho Hl HI Hbody. unfold madt_walk, sdt_length. rewrite rd_le_full, bind_ret. change (Z.of_nat 4) with 4. fold (table_length madt).
  set (len := table_length madt) in *.
  loop_with (fun '(ptr, o, s1) => 0 <= o /\ I s1 /\ fold_entries body (madt_entries (Z.to_nat (len - o)) len ptr o) s1 = fold_entries body (entries_of madt off) s)
    (fun s' => fold_entries body (entries_of madt off) s = Ret s') (fun '(ptr, o, s1) => Z.max 0 (len - o)) as (s' & -> & Hs'); [..|eauto].
  - intros [[ptr o] s1] (H0 & HI1 & Hf). destruct (Z.leb_spec (o + 2) len) as [Hle|Hgt]; cycle 1.
    { right. exists s1. split; [done|]. rewrite <- Hf. destruct (Z.to_nat (len - o)) eqn:En; [done|]. cbn.
      by rewrite (proj2 (Z.leb_gt _ _)) by lia. }
    destruct (Z.to_nat (len - o)) as [|n] eqn:En; [lia|]. cbn [madt_entries] in Hf. rewrite (proj2 (Z.leb_le _ _)) in Hf by lia.
    rewrite !rd8_full, !bind_ret. destruct (Z.eqb_spec (byte (ptr + 1)) 0) as [Ez|Ez].
    { right. eauto. }
    pose proof (byte_byte (ptr + 1)) as [? ?]. cbn [fold_entries] in Hf. destruct (Hbody ptr (byte ptr) (byte (ptr + 1)) s1 HI1) as ([s2|s2] & Hb & HI2).
    + left. rewrite Hb, bind_ret in *. eexists. split; [done|]. cbn. rewrite u32_small by lia.
      split; [|lia]. split; [lia|]. split; [done|]. rewrite <- Hf. cbn [mbind run_bind]. f_equal. apply madt_entries_fuel; lia.
    + right. rewrite Hb, bind_ret in *. eauto.
  - done.
  - pose proof (value_bound 4 (madt + 4) ltac:(lia)) as Hb. fold (table_length madt) in Hb. fold len in Hb. lia.
Qed.
End Full.

(** ** What is promised *)

(** The first valid table with the signature, 0 if there is none. *)
Definition found (m : memory) (sig : list Z) (a : acpi) : Z :=
  default 0 (head (filter (valid_table m sig) (listed m 8 (acpi_xsdt a) ++ listed m 4 (acpi_rsdt a)))).

(** Memory is there and holds bytes. *)
Definition readable (m : memory) : Prop := forall a, exists b, m a = Some b /\ byte_ok b.

(** Whatever the firmware left in memory, the search for a table ends and
    returns the first entry - those of the XSDT before those of the RSDT - that
    is not null, carries the signature and whose bytes sum up to zero modulo
    256, or null when no entry does. *)
Theorem find_table_first m sig a :
  readable m -> exists a', acpi_find_table m sig a = Ret (found m sig a, a').
Proof. intros Hm. destruct (find_table_full m Hm sig a) as (a' & -> & _). by exists a'. Qed.

Lemma map_phys_fields p n a :
  acpi_rsdp (acpi_map_phys p n a) = acpi_rsdp a /\ acpi_madt (acpi_map_phys p n a) = acpi_madt a.
Proof. unfold acpi_map_phys. by repeat case_match. Qed.

Lemma use_rsdt_full m a : readable m ->
  exists r a', use_rsdt m a = Ret (r, a') /\ acpi_rsdp a' = acpi_rsdp a /\ acpi_madt a' = acpi_madt a.
Proof.
  intros Hm. unfold use_rsdt, rsdp_rsdt_address, sdt_length. rewrite (rd_le_full m Hm), bind_ret.
  case_match; [eexists _, _; by split|]. rewrite (rd_le_full m Hm), bind_ret, (acpi_checksum_full m Hm), bind_ret.
  set (p := value _ _ _). destruct (map_phys_fields p PAGE_SIZE (set_rsdt p a)). case_match; eexists _, _; by split.
Qed.

Lemma parse_xsdt_full m a : readable m ->
  exists r a', acpi_parse_xsdt m a = Ret (r, a') /\ acpi_rsdp a' = acpi_rsdp a /\ acpi_madt a' = acpi_madt a.
Proof.
  intros Hm. unfold acpi_parse_xsdt, acpi_parse_rsdt, rsdp_revision, rsdp_xsdt_address, sdt_length. destruct (acpi_rsdp a =? 0); [eexists _, _; by split|].
  rewrite (rd8_full m Hm), bind_ret. destruct (_ <? 2); [eexists _, _; by split|]. rewrite bind_ret. cbn [Z.eqb].
  rewrite (rd_le_full m Hm), bind_ret. case_match; [by apply use_rsdt_full|].
  rewrite (rd_le_full m Hm), bind_ret, (acpi_checksum_full m Hm), bind_ret. set (p := value _ _ _).
  destruct (map_phys_fields p PAGE_SIZE (set_xsdt p a)). case_match; eexists _, _; by split.
Qed.

Lemma entry_line_full m p t l : readable m -> exists e, madt_entry_line m p t l = Ret e.
Proof.
  intros Hm. unfold madt_entry_line. repeat (case_match; [|]); rewrite ?(rd8_full m Hm), ?bind_ret;
    repeat (rewrite ?(rd_le_full m Hm), ?(rd8_full m Hm), ?bind_ret); eauto.
Qed.

Lemma print_madt_full m madt : readable m -> table_length m madt <= 2 ^ 32 - 257 -> exists ls, acpi_print_madt m madt = Ret ls.
Proof.
  intros Hm Hl. unfold acpi_print_madt.
  destruct (madt_walk_full m Hm (fun _ => True) madt SDT_HEADER (fun p type len ls => l ← madt_entry_line m p type len; Ret (inl (ls ++ [l]))) [])
    as (ls & -> & _); [done|done|done| |eauto].
  intros p t l s _. destruct (entry_line_full m p t l Hm) as (e & ->). by eexists.
Qed.

(** C17: Start-up of ACPI ends for every content of memory (a MADT being shorter
    than 4 GB - 256); if it reports success, the root pointer it keeps has the
    right signature and checksum, and the MADT it keeps is the first valid one
    that the root tables list, the one kept before if they list none. *)
Theorem acpi_init_sound m a :
  readable m -> (forall t, valid_table m ACPI_SIG_MADT t -> table_length m t <= 2 ^ 32 - 257) ->
  exists ok ls a', acpi_init m a = Ret (ok, ls, a') /\
    (ok = 1 -> valid_rsdp m (acpi_rsdp a') /\
       acpi_madt a' = if found m ACPI_SIG_MADT a' =? 0 then acpi_madt a else found m ACPI_SIG_MADT a') /\
    (ok = 0 -> acpi_madt a' = acpi_madt a).
Proof.
  intros Hm Hl. unfold acpi_init. destruct (rsdp_scan_full m Hm a) as (r & a1 & -> & _ & _ & M1 & Hr). rewrite bind_ret.
  destruct (Z.eqb_spec r 0) as [E0|E0]; [eexists _, _, _; split; [done|]; split; [lia|done]|].
  assert (valid_rsdp m (acpi_rsdp a1)) as Hv by (unfold first_rsdp in Hr; destruct Hr as [[_ [Hr|[_ Hr]]]|[? _]]; [tauto..|done]).
  unfold rsdp_revision. rewrite (rd8_full m Hm), bind_ret.
  assert (exists ok a2, (if 2 <=? byte m (acpi_rsdp a1 + 15) then acpi_parse_xsdt m a1 else use_rsdt m a1) = Ret (ok, a2) /\
    acpi_rsdp a2 = acpi_rsdp a1 /\ acpi_madt a2 = acpi_madt a1) as (ok & a2 & -> & R2 & M2).
  { destruct (2 <=? _); [by apply parse_xsdt_full|by apply use_rsdt_full]. }
  rewrite bind_ret. destruct (Z.eqb_spec ok 0) as [E1|E1]; [eexists _, _, _; split; [done|]; split; [lia|congruence]|].
  destruct (find_table_full m Hm ACPI_SIG_MADT a2) as (a3 & -> & R3 & T3 & X3 & M3). fold (found m ACPI_SIG_MADT a2). rewrite bind_ret.
  set (t := found m ACPI_SIG_MADT a2).
  assert (exists ls a4, (if negb (t =? 0) then ls ← acpi_print_madt m t; Ret (ls, set_madt t a3) else Ret ([], a3)) = Ret (ls, a4) /\
    acpi_rsdp a4 = acpi_rsdp a3 /\ acpi_rsdt a4 = acpi_rsdt a3 /\ acpi_xsdt a4 = acpi_xsdt a3 /\ acpi_madt a4 = if t =? 0 then acpi_madt a3 else t)
    as (ls & a4 & -> & R4 & T4 & X4 & M4).
  { destruct (Z.eqb_spec t 0) as [Et|Et]; cbn [negb]; [by eexists _, _|].
    destruct (print_madt_full m t Hm) as (ls & ->); [|by eexists _, _]. apply Hl. subst t. unfold found in *.
    destruct (filter _ _) as [|x xs] eqn:Ef; [done|]. cbn. assert (x ∈ x :: xs) as Hx by left. rewrite <- Ef in Hx.
    by apply list_elem_of_filter in Hx as [? _]. }
  rewrite bind_ret. destruct (find_table_full m Hm ACPI_SIG_FADT a4) as (a5 & -> & R5 & T5 & X5 & M5). rewrite bind_ret.
  eexists _, _, _. split; [done|]. split; [|lia]. intros _. match goal with |- valid_rsdp m (acpi_rsdp ?x) /\ _ => set (a6 := x) end.
  assert (acpi_rsdp a6 = acpi_rsdp a5 /\ acpi_rsdt a6 = acpi_rsdt a5 /\ acpi_xsdt a6 = acpi_xsdt a5 /\ acpi_madt a6 = acpi_madt a5) as (R6 & T6 & X6 & M6)
    by (subst a6; by destruct (negb _)).
  assert (found m ACPI_SIG_MADT a6 = t) as -> by (subst t; unfold found; congruence).
  split; [congruence|]. rewrite M6, M5, M4, M3, M2, M1. done.
Qed.

(** With the usual address of the local APICs, 0xFEE00000, the dump of a MADT
    lists nothing: it starts behind the common header, where that address lies,
    and takes its two low bytes for an entry of length zero. *)
Theorem print_madt_empty m madt :
  readable m -> table_length m madt <= 2 ^ 32 - 257 -> value m 4 (madt + 36) = 0xFEE00000 -> acpi_print_madt m madt = Ret [].
Proof.
  intros Hm Hl Hv. unfold acpi_print_madt.
  destruct (madt_walk_full m Hm (fun _ => True) madt SDT_HEADER (fun p type len ls => l ← madt_entry_line m p type len; Ret (inl (ls ++ [l]))) [])
    as (ls & -> & Hf); [done|done|done| |].
  { intros p t l s _. destruct (entry_line_full m p t l Hm) as (e & ->). by eexists. }
  rewrite <- Hf. unfold entries_of. destruct (Z.to_nat (table_length m madt - SDT_HEADER)) as [|n]; [done|]. cbn [madt_entries].
  destruct (_ <=? _); [|done].
  assert (byte m (madt + SDT_HEADER + 1) = 0) as ->; [|done].
  unfold value, bytes in Hv. do 4 rewrite seqZ_cons in Hv by lia. cbn [fmap list_fmap le_val] in Hv.
  assert (Z.succ (madt + 36) = madt + SDT_HEADER + 1) as E1 by (unfold SDT_HEADER; lia). rewrite E1 in Hv.
  pose proof (byte_byte m Hm (madt + 36)) as [? ?]. pose proof (byte_byte m Hm (madt + SDT_HEADER + 1)) as [? ?].
  clear -Hv H H0 H1 H2. Z.div_mod_to_equations; lia.
Qed.

(** ** A small firmware *)

(** Zeros but for some segments. *)
Fixpoint seg_byte (segs : list (Z * list Z)) (a : Z) : Z :=
  match segs with
  | [] => 0
  | (p, l) :: segs => if (p <=? a) && (a <? p + Z.of_nat (length l)) then default 0 (l !! Z.to_nat (a - p)) else seg_byte segs a
  end.
Definition image (segs : list (Z * list Z)) : memory := fun a => Some (seg_byte segs a).

(** A table whose byte 9 makes the sum zero. *)
Definition sealed (l : list Z) : list Z := <[9%nat := u8 (- sum_list l)]> l.

Definition sdt (sig body : list Z) : list Z :=
  sealed (sig ++ le_bytes 4 (SDT_HEADER + Z.of_nat (length body)) ++ replicate 28 0 ++ body).

(** A MADT of two processors, an I/O APIC and an address override. *)
Definition demo_madt : list Z :=
  sdt ACPI_SIG_MADT (le_bytes 4 0xFEE00000 ++ le_bytes 4 1 ++
    ([0; 8; 0; 0] ++ le_bytes 4 1) ++ ([0; 8; 1; 2] ++ le_bytes 4 1) ++ ([1; 12; 3; 0] ++ le_bytes 4 0xFEC00000 ++ le_bytes 4 0)).

Definition demo_rsdp : list Z := let l := ACPI_SIG_RSDP ++ replicate 7 0 ++ [0] ++ le_bytes 4 0x2000 in <[8%nat := u8 (- sum_list l)]> l.

Definition firmware : memory :=
  image [(0xE0010, demo_rsdp); (0x2000, sdt [82; 83; 68; 84] (le_bytes 4 0x3000)); (0x3000, demo_madt)].

Definition no_acpi : acpi := mkAcpi 0 0 0 0 0 true [].

Lemma image_bytes segs k : (forallb (fun s => forallb (fun b => (0 <=? b) && (b <? k)) s.2) segs = true) -> 0 < k ->
  forall a, 0 <= seg_byte segs a < k.
Proof.
  intros Hs Hk a. induction segs as [|[p l] segs IH]; cbn in *; [lia|]. rewrite andb_true_iff in Hs. destruct Hs as [Hl Hs].
  case_match; [|auto]. destruct (l !! Z.to_nat (a - p)) as [b|] eqn:E; [|cbn; lia]. cbn.
  rewrite forallb_forall in Hl. specialize (Hl b ltac:(eapply list_elem_of_In, list_elem_of_lookup_2, E)). lia.
Qed.

Lemma firmware_bytes a : exists b, firmware a = Some b /\ 0 <= b < 255.
Proof. eexists. split; [done|]. apply image_bytes; [vm_compute; done|lia]. Defined.

Lemma firmware_readable : readable firmware.
Proof. intros a. destruct (firmware_bytes a) as (b & -> & ?). exists b. split; [done|]. unfold byte_ok. lia. Defined.

Lemma firmware_lengths t : table_length firmware t <= 2 ^ 32 - 257.
Proof.
  unfold table_length, value, bytes. do 4 rewrite seqZ_cons by lia. rewrite seqZ_nil by lia. cbn [fmap list_fmap le_val].
  assert (forall a, 0 <= byte firmware a < 255) as H by (intros a; unfold byte; by destruct (firmware_bytes (u64 a)) as (b & -> & ?)).
  pose proof (H (t + 4)). pose proof (H (Z.succ (t + 4))). pose proof (H (Z.succ (Z.succ (t + 4)))). pose proof (H (Z.succ (Z.succ (Z.succ (t + 4))))).
  lia.
Qed.

Lemma find_table_first_witness :
  exists a', acpi_find_table firmware ACPI_SIG_MADT (set_rsdt 0x2000 no_acpi) = Ret (found firmware ACPI_SIG_MADT (set_rsdt 0x2000 no_acpi), a').
Proof. exact (find_table_first firmware ACPI_SIG_MADT _ firmware_readable). Defined.

Lemma acpi_init_sound_witness :
  exists ok ls a', acpi_init firmware no_acpi = Ret (ok, ls, a') /\
    (ok = 1 -> valid_rsdp firmware (acpi_rsdp a') /\
       acpi_madt a' = if found firmware ACPI_SIG_MADT a' =? 0 then acpi_madt no_acpi else found firmware ACPI_SIG_MADT a') /\
    (ok = 0 -> acpi_madt a' = acpi_madt no_acpi).
Proof. exact (acpi_init_sound firmware no_acpi firmware_readable (fun t _ => firmware_lengths t)). Defined.

Example demo_init : (r ← acpi_init firmware no_acpi; Ret (r.1.1, acpi_rsdp r.2, acpi_rsdt r.2, acpi_madt r.2)) = Ret (1, 0xE0010, 0x2000, 0x3000).
Proof. vm_compute. done. Qed.
