(* ===== verification/Smbios.v ===== *)
(** * pexpert/x86_64/smbios.c

    The firmware's description of the machine: an entry point with checksums in
    low memory, and a table of structures, each a formatted area followed by a
    set of strings.  Memory is a partial map of bytes; a read outside of it is a
    [Fault].  Shown: in a table as the specification describes it the structures
    and their strings are found, and what is not there is not found; the search
    for the entry point accepts only what passes its checks; and a table without
    its terminator is read past its end. *)

From S2P Require Import Prelude.

Definition memory : Type := Z -> option Z.
Definition byte_at (m : memory) (a : Z) : run Z := of_option (m a).
Fixpoint bytes_at (m : memory) (a : Z) (n : nat) : run (list Z) :=
  match n with O => Ret [] | S n => b ← byte_at m a; l ← bytes_at m (a + 1) n; Ret (b :: l) end.
Definition le_at (m : memory) (a : Z) (n : nat) : run Z := l ← bytes_at m a n; Ret (le_val l).

Record smbios_info := mkInfo { table_address : Z; table_length : Z; structure_count : Z; major : Z; minor : Z; version3 : bool }.

(** ** Entry point *)

(** [true] when equal. *)
Fixpoint smbios_memcmp (m : memory) (a : Z) (b : list Z) : run bool :=
  match b with
  | [] => Ret true
  | c :: b => x ← byte_at m a; if negb (x =? c) then Ret false else smbios_memcmp m (a + 1) b
  end.

Fixpoint byte_sum (m : memory) (a : Z) (len : nat) (sum : Z) : run Z :=
  match len with O => Ret sum | S len => x ← byte_at m a; byte_sum m (a + 1) len (u8 (sum + x)) end.
Definition smbios_checksum (m : memory) (a len : Z) : run bool := s ← byte_sum m a (Z.to_nat len) 0; Ret (s =? 0).

Definition SMBIOS_SCAN_START : Z := 0xF0000.
Definition SMBIOS_SCAN_END : Z := 0x100000.

(** The conditions are tested from left to right, each only if the ones before
    hold. *)
Definition both (c : run bool) (d : run bool) : run bool := x ← c; if (x : bool) then d else Ret false.

Definition entry3_ok (m : memory) (addr : Z) : run bool :=
  both (smbios_memcmp m addr (str "_SM3_"))
    (len ← byte_at m (addr + 6);
     both (Ret ((24 <=? len) && (len <=? 0x40) && (addr + len <=? SMBIOS_SCAN_END))) (smbios_checksum m addr len)).

Definition entry2_ok (m : memory) (addr : Z) : run bool :=
  both (smbios_memcmp m addr (str "_SM_"))
    (len ← byte_at m (addr + 5);
     both (Ret ((31 <=? len) && (len <=? 0x40) && (addr + len <=? SMBIOS_SCAN_END)))
       (both (smbios_checksum m addr len) (both (smbios_memcmp m (addr + 16) (str "_DMI_")) (smbios_checksum m (addr + 16) 15)))).

Definition info3 (m : memory) (addr : Z) : run smbios_info :=
  a ← le_at m (addr + 16) 8; l ← le_at m (addr + 12) 4; mj ← byte_at m (addr + 7); mn ← byte_at m (addr + 8);
  Ret (mkInfo a l 0 mj mn true).
Definition info2 (m : memory) (addr : Z) : run smbios_info :=
  a ← le_at m (addr + 24) 4; l ← le_at m (addr + 22) 2; n ← le_at m (addr + 28) 2; mj ← byte_at m (addr + 6); mn ← byte_at m (addr + 7);
  Ret (mkInfo a l n mj mn false).

Definition entry_at (m : memory) (addr : Z) : run (option smbios_info) :=
  three ← entry3_ok m addr;
  if (three : bool) then i ← info3 m addr; Ret (Some i)
  else
    two ← entry2_ok m addr;
    if (two : bool) then i ← info2 m addr; Ret (Some i) else Ret None.

(** [None]: 0 is returned. *)
Definition smbios_init (m : memory) : run (option smbios_info) :=
  loop (fun addr =>
    if SMBIOS_SCAN_END <=? addr then Ret (inr None)
    else i ← entry_at m addr; match i with Some i => Ret (inr (Some i)) | None => Ret (inl (addr + 16)) end) SMBIOS_SCAN_START.

(** ** Structures *)

(** [while ( *p) p++;] *)
Definition to_nul (m : memory) (p : Z) : run Z := loop (fun p => b ← byte_at m p; if b =? 0 then Ret (inr p) else Ret (inl (p + 1))) p.

(** The [for] loop over the strings before the one wanted; 0 is null. *)
Fixpoint skip_strings (m : memory) (n : nat) (p : Z) : run Z :=
  match n with
  | O => b ← byte_at m p; Ret (if b =? 0 then 0 else p)
  | S n => b ← byte_at m p; if b =? 0 then Ret 0 else p ← to_nul m p; skip_strings m n (p + 1)
  end.

Definition smbios_get_string (m : memory) (h index : Z) : run Z :=
  if (h =? 0) || (index =? 0) then Ret 0
  else len ← byte_at m (h + 1); skip_strings m (Z.to_nat (index - 1)) (h + len).

(** Behind the next two NULs. *)
Definition smbios_next (m : memory) (h : Z) : run Z :=
  if h =? 0 then Ret 0 else
  len ← byte_at m (h + 1);
  p ← loop (fun p =>
    a ← byte_at m p;
    if negb (a =? 0) then Ret (inl (p + 1))
    else b ← byte_at m (p + 1); if b =? 0 then Ret (inr p) else Ret (inl (p + 1))) (h + len);
  Ret (p + 2).

Definition find_round (m : memory) (info : smbios_info) (type end_ : Z) (st : Z * Z) : run (Z * Z + Z) :=
  let '(p, count) := st in
  if negb (u64 (p + 4) <=? end_) then Ret (inr 0)
  else
    len ← byte_at m (p + 1);
    if len <? 4 then Ret (inr 0)
    else if end_ <? u64 (p + len) then Ret (inr 0)
    else
      t ← byte_at m p;
      if t =? 127 then Ret (inr 0)
      else if t =? type then Ret (inr p)
      else
        q ← smbios_next m p;
        if (q <=? p) || (end_ <? q) then Ret (inr 0)
        else if version3 info then Ret (inl (q, count))
        else
          let count := u16 (count + 1) in
          if structure_count info <=? count then Ret (inr 0) else Ret (inl (q, count)).

(** The address of the structure; 0 is null. *)
Definition smbios_find_type (m : memory) (info : smbios_info) (type : Z) : run Z :=
  loop (find_round m info type (u64 (table_address info + table_length info))) (table_address info, 0).

(** ** What is printed *)

(** A line of the report: a label and a text, [None] for N/A. *)
Definition text_at (m : memory) (p : Z) : run (option (list Z)) :=
  if p =? 0 then Ret None
  else e ← to_nul m p; l ← bytes_at m p (Z.to_nat (e - p)); Ret (Some l).

Definition field (m : memory) (h off : Z) : run (option (list Z)) := i ← byte_at m (h + off); p ← smbios_get_string m h i; text_at m p.

Inductive report := NotFound | Invalid | Fields (l : list (option (list Z))) (uuid : option (list Z)).

Definition uuid_order : list Z := [3; 2; 1; 0; 5; 4; 7; 6; 8; 9; 10; 11; 12; 13; 14; 15].
(** The bytes of the UUID in the order they are printed in. *)
Definition smbios_print_uuid (m : memory) (h : Z) : run (option (list Z)) :=
  len ← byte_at m (h + 1);
  if len <? 24 then Ret None
  else l ← foldr (fun i r => b ← byte_at m (h + 8 + i); l ← r; Ret (b :: l)) (Ret []) uuid_order; Ret (Some l).

Definition smbios_print_system (m : memory) (info : smbios_info) : run report :=
  h ← smbios_find_type m info 1;
  if h =? 0 then Ret NotFound
  else
    len ← byte_at m (h + 1);
    if len <? 8 then Ret Invalid
    else
      a ← field m h 4; b ← field m h 5; c ← field m h 6; d ← field m h 7;
      u ← smbios_print_uuid m h;
      Ret (Fields [a; b; c; d] u).

Definition smbios_print_bios (m : memory) (info : smbios_info) : run report :=
  h ← smbios_find_type m info 0;
  if h =? 0 then Ret NotFound
  else
    len ← byte_at m (h + 1);
    if len <? 8 then Ret Invalid
    else a ← field m h 4; b ← field m h 5; c ← field m h 8; Ret (Fields [a; b; c] None).

(** The version and the layout of the table are printed too: they are the
    fields of [info]. *)
Definition smbios_print (m : memory) (info : smbios_info) : run (report * report) :=
  b ← smbios_print_bios m info; s ← smbios_print_system m info; Ret (b, s).

Definition smbios_test (m : memory) : run (option (smbios_info * (report * report))) :=
  i ← smbios_init m;
  match i with
  | None => Ret None
  | Some i => r ← smbios_print m i; Ret (Some (i, r))
  end.

(** ** Tables as the specification describes them *)

Definition holds (m : memory) (a : Z) (l : list Z) : Prop := forall i x, l !! i = Some x -> m (a + Z.of_nat i) = Some x.

Lemma holds_app m a l k : holds m a (l ++ k) <-> holds m a l /\ holds m (a + Z.of_nat (length l)) k.
Proof.
  split.
  - intros H. split; intros i x Hi; [apply H; by apply lookup_app_l_Some|]. rewrite <- Z.add_assoc, <- Nat2Z.inj_add. apply H. rewrite lookup_app_r by lia. by replace (length l + i - length l)%nat with i by lia.
  - intros [Hl Hk] i x Hi. apply lookup_app_Some in Hi as [Hi|[Hge Hi]]; [by apply Hl|]. specialize (Hk _ _ Hi). by replace (a + Z.of_nat (length l) + Z.of_nat (i - length l)) with (a + Z.of_nat i) in Hk by lia.
Qed.

Lemma holds_cons m a x l : holds m a (x :: l) <-> m a = Some x /\ holds m (a + 1) l.
Proof.
  change (x :: l) with ([x] ++ l). rewrite holds_app. cbn [length]. split; intros [H1 H2]; (split; [|done]).
  - specialize (H1 0%nat x eq_refl). by rewrite Z.add_0_r in H1.
  - intros [|i] y Hi; [|done]. injection Hi as <-. by rewrite Z.add_0_r.
Qed.

Lemma byte_some m a x : m a = Some x -> byte_at m a = Ret x.
Proof. unfold byte_at. by intros ->. Qed.

Lemma holds_byte m a l i x : holds m a l -> l !! i = Some x -> byte_at m (a + Z.of_nat i) = Ret x.
Proof. intros H Hi. unfold byte_at. by rewrite (H i x Hi). Qed.

(** A string: characters other than NUL, at least one. *)
Definition string_ok (s : list Z) : Prop := s <> [] /\ Forall (fun c => c <> 0) s.
Definition string_set (ss : list (list Z)) : list Z := match ss with [] => [0; 0] | _ => (ss ≫= (fun s => s ++ [0])) ++ [0] end.

Record structure := mkStruct { s_type : Z; s_handle : Z * Z; s_body : list Z; s_strings : list (list Z) }.
Definition s_length (s : structure) : Z := 4 + Z.of_nat (length (s_body s)).
Definition formatted (s : structure) : list Z := [s_type s; s_length s; (s_handle s).1; (s_handle s).2] ++ s_body s.
Definition encode (s : structure) : list Z := formatted s ++ string_set (s_strings s).
Definition structure_ok (s : structure) : Prop := byte_ok (s_type s) /\ s_length s < 256 /\ Forall string_ok (s_strings s).

Lemma length_formatted s : Z.of_nat (length (formatted s)) = s_length s.
Proof. unfold formatted, s_length. rewrite length_app. cbn [length]. lia. Qed.

(** Behind a string is its NUL. *)
Lemma to_nul_string m p s : holds m p (s ++ [0]) -> Forall (fun c => c <> 0) s -> Z.of_nat (length s) < 2 ^ 66 -> to_nul m p = Ret (p + Z.of_nat (length s)).
Proof.
  intros Hh Hs Hl. unfold to_nul.
  loop_with (fun q => exists i, q = p + Z.of_nat i /\ (i <= length s)%nat) (fun q => q = p + Z.of_nat (length s)) (fun q => p + Z.of_nat (length s) - q) as (q & -> & ->); [| | |done].
  - intros q (i & -> & Hi). destruct (decide (i = length s)) as [->|Hne].
    + right. rewrite (holds_byte m p (s ++ [0]) (length s) 0 Hh), bind_ret by (by rewrite list_lookup_middle). by eexists.
    + left. destruct (lookup_lt_is_Some_2 s i) as [c Hc]; [lia|]. rewrite (holds_byte m p (s ++ [0]) i c Hh), bind_ret by (by apply lookup_app_l_Some).
      rewrite Forall_lookup in Hs. rewrite (proj2 (Z.eqb_neq c 0)) by (by eapply Hs). eexists. split; [done|]. split; [exists (S i); lia|lia].
  - exists 0%nat. lia.
  - lia.
Qed.

Definition tail_set (ss : list (list Z)) : list Z := (ss ≫= (fun s => s ++ [0])) ++ [0].

Lemma tail_set_cons s ss : tail_set (s :: ss) = s ++ [0] ++ tail_set ss.
Proof. unfold tail_set. cbn [mbind list_bind]. by rewrite <- !app_assoc. Qed.

(** A string set is a string, its NUL and the rest; the empty set looks like an
    empty string. *)
Lemma string_set_split ss : exists c r, string_set ss = c ++ [0] ++ tail_set r /\ ((ss = [] /\ c = [] /\ r = []) \/ ss = c :: r).
Proof.
  destruct ss as [|s ss]; [exists [], []; split; [done|by left]|]. exists s, ss. split; [|by right]. rewrite <- tail_set_cons. done.
Qed.

(** The place of a string in its set. *)
Fixpoint place (ss : list (list Z)) (n : nat) : Z :=
  match n, ss with S n, s :: ss => Z.of_nat (length s) + 1 + place ss n | _, _ => 0 end.

Lemma skip_strings_spec m ss : Forall string_ok ss -> forall n p,
  holds m p (tail_set ss) -> 0 < p -> Z.of_nat (length (tail_set ss)) < 2 ^ 64 ->
  skip_strings m n p = Ret (if (n <? length ss)%nat then p + place ss n else 0).
Proof.
  induction 1 as [|s ss [Hne Hs] _ IH]; intros n p Hh Hp Hl.
  { unfold tail_set in Hh. cbn in Hh. apply holds_cons in Hh as [H0 _]. destruct n; cbn [skip_strings]; unfold byte_at; by rewrite H0. }
  rewrite tail_set_cons in Hh, Hl. rewrite !length_app in Hl. cbn [length] in Hl. pose proof Hh as Hh'. rewrite app_assoc in Hh. apply holds_app in Hh as [Hstr Hrest].
  rewrite length_app in Hrest. cbn [length] in Hrest. destruct s as [|c s]; [done|]. apply holds_cons in Hh' as [H0 _].
  assert (c <> 0) as Hc by (by inversion Hs). destruct n as [|n]; cbn [skip_strings]; unfold byte_at; rewrite H0; cbn [of_option]; rewrite bind_ret, (proj2 (Z.eqb_neq c 0)) by done.
  { cbn [place]. by rewrite Z.add_0_r. }
  rewrite (to_nul_string m p (c :: s) Hstr Hs), bind_ret by lia. replace (p + Z.of_nat (length (c :: s)) + 1) with (p + Z.of_nat (length (c :: s) + 1)) by lia.
  rewrite IH by (done || lia). cbn [length place]. change (S n <? S (length ss))%nat with (n <? length ss)%nat. destruct (n <? length ss)%nat; [|done]. f_equal. lia.
Qed.

(** A string of a structure is found and read. *)
Lemma get_string_spec m h s i :
  holds m h (encode s) -> structure_ok s -> 0 < h -> Z.of_nat (length (encode s)) < 2 ^ 64 -> 0 <= i < 256 ->
  (p ← smbios_get_string m h i; text_at m p) = Ret (if decide (i = 0) then None else s_strings s !! Z.to_nat (i - 1)).
Proof.
  intros Hh (_ & _ & Hss) Hp Hl Hi. unfold smbios_get_string. rewrite (proj2 (Z.eqb_neq h 0)) by lia. cbn [orb]. destruct (Z.eqb_spec i 0) as [->|Hi0]; [done|]. rewrite decide_False by done.
  rewrite (holds_byte m h (encode s) 1 (s_length s) Hh eq_refl : byte_at m (h + 1) = _), bind_ret. unfold encode in Hh, Hl. apply holds_app in Hh as [_ Hset]. rewrite length_formatted in Hset.
  rewrite length_app in Hl. assert (0 < h + s_length s) as Hb by (unfold s_length; lia). revert Hset Hl Hb. generalize (h + s_length s) as b. intros b Hset Hl Hb.
  assert (holds m b (tail_set (s_strings s)) /\ Z.of_nat (length (tail_set (s_strings s))) < 2 ^ 64) as [Ht Hlt].
  { destruct (s_strings s); [|split; [done|unfold string_set in Hl; unfold tail_set; lia]]. split; [|done]. apply (holds_app m b [0] [0]) in Hset. apply Hset. }
  rewrite (skip_strings_spec m (s_strings s) Hss _ b Ht Hb Hlt), bind_ret. generalize (Z.to_nat (i - 1)). clear Hset Hl. revert b Hb Ht Hlt. induction Hss as [|c ss [Hne Hc] Hss IH]; intros b Hb Ht Hlt n; [done|].
  rewrite tail_set_cons in Ht, Hlt. rewrite !length_app in Hlt. cbn [length] in Hlt. pose proof Ht as Ht'. rewrite app_assoc in Ht. apply holds_app in Ht as [Hstr Hrest]. rewrite length_app in Hrest. cbn [length] in Hrest.
  destruct n as [|n]; cbn [length place].
  - cbn [Nat.ltb Nat.leb]. unfold text_at. rewrite Z.add_0_r, (proj2 (Z.eqb_neq b 0)), (to_nul_string m b c Hstr Hc), bind_ret by lia. replace (Z.to_nat (b + Z.of_nat (length c) - b)) with (length c) by lia.
    apply holds_app in Ht' as [Hcs _]. clear -Hcs. cbn [lookup list_lookup]. assert (bytes_at m b (length c) = Ret c) as ->; [|done].
    revert b Hcs. induction c as [|x c IH]; intros b Hcs; cbn [bytes_at length]; [done|]. apply holds_cons in Hcs as [Hx Hcs]. unfold byte_at. rewrite Hx. cbn [of_option]. by rewrite bind_ret, (IH _ Hcs), bind_ret.
  - change (S n <? S (length ss))%nat with (n <? length ss)%nat. specialize (IH (b + Z.of_nat (length c + 1)) ltac:(lia) Hrest ltac:(lia) n). change ((c :: ss) !! S n) with (ss !! n).
    rewrite <- IH. destruct (n <? length ss)%nat; [|done]. apply (f_equal (text_at m)). lia.
Qed.

(** The structure behind. *)
Lemma next_spec m h s :
  h <> 0 -> holds m h (encode s) -> structure_ok s -> Z.of_nat (length (encode s)) < 2 ^ 64 -> smbios_next m h = Ret (h + Z.of_nat (length (encode s))).
Proof.
  intros Hh0 Hh (_ & _ & Hss) Hl. unfold smbios_next. rewrite (proj2 (Z.eqb_neq h 0)) by done. rewrite (holds_byte m h (encode s) 1 (s_length s) Hh eq_refl : byte_at m (h + 1) = _), bind_ret.
  set (E := h + Z.of_nat (length (encode s))). assert (E = h + s_length s + Z.of_nat (length (string_set (s_strings s)))) as HE by (subst E; unfold encode; rewrite length_app, Nat2Z.inj_add, length_formatted; lia).
  unfold encode in Hh. apply holds_app in Hh as [_ Hset]. rewrite length_formatted in Hset.
  loop_with (fun q => exists c r, holds m q (c ++ [0] ++ tail_set r) /\ q + Z.of_nat (length (c ++ [0] ++ tail_set r)) = E /\ Forall (fun c => c <> 0) c /\ Forall string_ok r)
    (fun q => q + 2 = E) (fun q => E - q) as (q & -> & <-); [| | |by rewrite bind_ret].
  - intros q (c & r & Hq & Hlen & Hc & Hr). cbn beta. destruct c as [|x c].
    + cbn [app] in Hq, Hlen. apply holds_cons in Hq as [H0 Hq]. rewrite (byte_some m q 0 H0), bind_ret. cbn [Z.eqb negb]. destruct Hr as [|s' r [Hne Hs'] Hr].
      * right. cbn in Hq. apply holds_cons in Hq as [H1 _]. rewrite (byte_some m _ 0 H1), bind_ret. cbn [Z.eqb]. eexists. split; [done|]. cbn in Hlen. lia.
      * left. rewrite tail_set_cons in Hq, Hlen. destruct s' as [|y s']; [done|]. pose proof Hq as Hy. apply holds_cons in Hy as [Hy _]. rewrite (byte_some m _ y Hy), bind_ret.
        assert (y <> 0) as Hy0 by (by inversion Hs'). rewrite (proj2 (Z.eqb_neq y 0)) by done. cbn [length] in Hlen. eexists. split; [done|]. split; [|lia]. exists (y :: s'), r. split_and!; try done. lia.
    + left. apply holds_cons in Hq as [H0 Hq]. rewrite (byte_some m q x H0), bind_ret. apply Forall_cons in Hc as [Hx Hc]. rewrite (proj2 (Z.eqb_neq x 0)) by done. cbn [negb].
      cbn [length app] in Hlen. eexists. split; [done|]. split; [|lia]. exists c, r. split_and!; try done. cbn [app]. lia.
  - destruct (string_set_split (s_strings s)) as (c & r & Es & Hcase). exists c, r. rewrite <- Es. split; [done|]. split; [lia|].
    destruct Hcase as [(_ & -> & ->)|Hs]; [done|]. rewrite Hs in Hss. apply Forall_cons in Hss as [[_ ?] ?]. done.
  - assert (length (string_set (s_strings s)) <= length (encode s))%nat by (unfold encode; rewrite length_app; lia). lia.
Qed.

(** Where the first structure of a type is; the end-of-table structure hides
    what follows. *)
Fixpoint find_addr (a type : Z) (sts : list structure) : Z :=
  match sts with
  | [] => 0
  | s :: sts => if s_type s =? 127 then 0 else if s_type s =? type then a else find_addr (a + Z.of_nat (length (encode s))) type sts
  end.

Definition table_bytes (sts : list structure) : list Z := sts ≫= encode.

(** The structures are in memory; the length is theirs or, where a structure
    marks the end of the table, at least that - the entry point of SMBIOS 3 has
    the largest size, and whatever follows the mark is not looked at. *)
Record table_ok (m : memory) (info : smbios_info) (sts : list structure) : Prop :=
  { tk_bytes : holds m (table_address info) (table_bytes sts);
    tk_length : Z.of_nat (length (table_bytes sts)) <= table_length info;
    tk_end : table_length info = Z.of_nat (length (table_bytes sts)) \/ Exists (fun s => s_type s = 127) sts;
    tk_place : 0 < table_address info /\ table_address info + table_length info + 4 < 2 ^ 64;
    tk_count : version3 info = true \/ (structure_count info = Z.of_nat (length sts) /\ Z.of_nat (length sts) < 2 ^ 16);
    tk_structures : Forall structure_ok sts }.

Lemma table_bytes_app l k : table_bytes (l ++ k) = table_bytes l ++ table_bytes k.
Proof. unfold table_bytes. apply bind_app. Qed.

(** One structure further. *)
Lemma find_round_spec m info sts type l s k count :
  table_ok m info sts -> sts = l ++ s :: k -> version3 info = true \/ count = Z.of_nat (length l) ->
  let p := table_address info + Z.of_nat (length (table_bytes l)) in
  let e := table_address info + table_length info in
  0 < p /\ find_round m info type e (p, count) =
    if s_type s =? 127 then Ret (inr 0) else if s_type s =? type then Ret (inr p)
    else if version3 info then Ret (inl (p + Z.of_nat (length (encode s)), count))
    else if decide (k = []) then Ret (inr 0) else Ret (inl (p + Z.of_nat (length (encode s)), count + 1)).
Proof.
  intros [Hb Hl _ [Hp He] Hc Hs] Ests Hcount p e. rewrite Ests, table_bytes_app in Hb, Hl. apply holds_app in Hb as [_ Hb]. fold p in Hb.
  change (table_bytes (s :: k)) with (encode s ++ table_bytes k) in Hb, Hl. apply holds_app in Hb as [Hb _]. rewrite !length_app in Hl.
  assert (structure_ok s) as Hok by (rewrite Ests, Forall_app, Forall_cons in Hs; tauto). pose proof Hok as (Hty & Hlen & _). split; [lia|].
  assert (s_length s + 2 <= Z.of_nat (length (encode s))) as Hsz. { unfold encode. rewrite length_app, Nat2Z.inj_add, length_formatted. destruct (string_set_split (s_strings s)) as (c & r & -> & _). rewrite !length_app. unfold tail_set. rewrite length_app. cbn [length]. lia. }
  assert (4 <= s_length s) as H4 by (unfold s_length; lia).
  unfold find_round. rewrite !u64_small by (pose proof (Zle_0_nat (length (encode s))); lia). rewrite (proj2 (Z.leb_le (p + 4) e)) by lia. cbn [negb]. rewrite (holds_byte m p (encode s) 1 (s_length s) Hb eq_refl : byte_at m (p + 1) = _), bind_ret.
  rewrite u64_small by lia. rewrite (proj2 (Z.ltb_ge _ 4)), (proj2 (Z.ltb_ge e _)) by lia. pose proof (holds_byte m p (encode s) 0 (s_type s) Hb eq_refl) as H0. rewrite Z.add_0_r in H0. rewrite H0, bind_ret.
  destruct (s_type s =? 127); [done|]. destruct (s_type s =? type); [done|]. rewrite (next_spec m p s ltac:(lia) Hb Hok), bind_ret by lia. rewrite (proj2 (Z.leb_gt _ p)), (proj2 (Z.ltb_ge e _)) by lia. cbn [orb].
  destruct (version3 info) eqn:Ev; [done|]. destruct Hc as [?|[Ec Hn]]; [done|]. destruct Hcount as [?|Ecount]; [done|]. rewrite Ests, length_app in Ec, Hn. cbn [length] in Ec, Hn. rewrite u16_small, Ec by lia. subst count.
  case_decide as Hk; [subst k; cbn [length]; by rewrite (proj2 (Z.leb_le _ _)) by lia|]. rewrite (proj2 (Z.leb_gt _ _)); [done|]. destruct k; [done|cbn [length]; lia].
Qed.

Lemma find_type_spec m info sts type :
  table_ok m info sts -> smbios_find_type m info type = Ret (find_addr (table_address info) type sts).
Proof.
  intros Hok. pose proof Hok as [Hb Hl Hend [Hp He] Hc Hs]. unfold smbios_find_type. rewrite u64_small by lia. set (a := table_address info) in *. set (e := a + table_length info) in *.
  loop_with (fun '(p, count) => exists l k, sts = l ++ k /\ p = a + Z.of_nat (length (table_bytes l)) /\ find_addr p type k = find_addr a type sts /\ (version3 info = true \/ count = Z.of_nat (length l)) /\ Forall (fun s => s_type s <> 127) l)
    (fun q => q = find_addr a type sts) (fun '(p, _) => e - p) as (q & -> & ->); [| | |done].
  - intros [p count] (l & k & Ek & Ep & Ef & Hcount & Hno). destruct k as [|s k].
    { right. rewrite app_nil_r in Ek. subst l. destruct Hend as [Hend|Hend]; [|by apply Forall_Exists_neg in Hno]. unfold find_round. rewrite u64_small by (subst e; lia). rewrite (proj2 (Z.leb_gt _ _)) by (subst e; lia). cbn [negb]. eexists. split; [done|]. by rewrite <- Ef. }
    destruct (find_round_spec m info sts type l s k count Hok Ek Hcount) as [Hpos Hr]. fold a in Hpos, Hr. fold e in Hr. rewrite <- Ep in Hr, Hpos. rewrite Hr, <- Ef. cbn [find_addr].
    destruct (Z.eqb_spec (s_type s) 127) as [|N127]; [right; by eexists|]. destruct (s_type s =? type); [right; by eexists|].
    assert (Forall (fun s => s_type s <> 127) (l ++ [s])) as Hno' by (apply Forall_app; split; [done|by constructor]).
    assert (exists l' k', sts = l' ++ k' /\ l' = l ++ [s] /\ k' = k /\ p + Z.of_nat (length (encode s)) = a + Z.of_nat (length (table_bytes l'))) as (l' & k' & E1 & -> & -> & E2).
    { eexists (l ++ [s]), k. split; [by rewrite <- app_assoc|]. split_and!; try done. rewrite Ep, table_bytes_app, length_app. assert (table_bytes [s] = encode s) as -> by (unfold table_bytes; cbn [mbind list_bind]; apply app_nil_r). lia. }
    assert (0 < Z.of_nat (length (encode s))) as Hpos' by (unfold encode; rewrite length_app; cbn; lia).
    assert (a + Z.of_nat (length (table_bytes (l ++ [s]))) <= e) as Hle by (subst e; rewrite E1, (table_bytes_app (l ++ [s]) k), length_app in Hl; lia).
    destruct (version3 info); [left|case_decide as Hk; [right|left]].
    + eexists. split; [done|]. split; [|lia]. exists (l ++ [s]), k. split_and!; try done. by left.
    + subst k. by eexists.
    + eexists. split; [done|]. split; [|lia]. exists (l ++ [s]), k. split_and!; try done. right. rewrite length_app. cbn [length]. destruct Hcount; [done|lia].
  - exists [], sts. split_and!; try done; [cbn; lia|by right].
  - subst e. lia.
Qed.

(** C34: SMBIOS tables.  In a table of structures laid out as the specification
    says, of just the given length or of a smaller one that a structure of type
    127 ends (SMBIOS 3 gives a maximum), the search returns the first structure
    of a type before that end, and null when there is none; and a string of the
    structure is found by its number, from 1 on, and read back as it was
    written; for 0 and for the numbers that the structure has not the result is
    null. *)
Theorem smbios_read_back m info sts type :
  table_ok m info sts ->
  exists h, smbios_find_type m info type = Ret h /\ h = find_addr (table_address info) type sts /\
    (h <> 0 -> exists s, s ∈ sts /\ s_type s = type /\ holds m h (encode s) /\
       forall i, 0 <= i < 256 -> (p ← smbios_get_string m h i; text_at m p) = Ret (if decide (i = 0) then None else s_strings s !! Z.to_nat (i - 1))).
Proof.
  intros Hok. exists (find_addr (table_address info) type sts). split; [by apply find_type_spec|]. split; [done|]. destruct Hok as [Hb Hl _ [Hp He] _ Hs].
  assert (table_address info + Z.of_nat (length (table_bytes sts)) + 4 < 2 ^ 64) as He' by lia. clear Hl He.
  revert Hb Hp He'. generalize (table_address info). induction Hs as [|s sts Hok Hs IH]; intros a Hb Hp He Hne; [done|]. change (table_bytes (s :: sts)) with (encode s ++ table_bytes sts) in Hb, He. rewrite length_app in He.
  apply holds_app in Hb as [Hs1 Hb]. cbn [find_addr] in *. destruct (s_type s =? 127); [done|]. destruct (Z.eqb_spec (s_type s) type) as [Et|_].
  - exists s. split; [by left|]. split_and!; try done. intros i Hi. apply (get_string_spec m a s i Hs1 Hok); lia.
  - destruct (IH _ Hb ltac:(lia) ltac:(lia) Hne) as (s' & ? & ?). exists s'. split; [by right|done].
Qed.

Definition demo_structures : list structure :=
  [mkStruct 0 (0, 0) [1; 2; 0; 0xE0; 3] [str "ACME"; str "1.0"; str "2024"]; mkStruct 1 (1, 0) [1; 2; 0; 0] [str "Board"; str "Model"]; mkStruct 127 (2, 0) [] []].
Definition demo_memory : memory := fun a => table_bytes demo_structures !! Z.to_nat (a - 0x1000).
Definition demo_info : smbios_info := mkInfo 0x1000 0x800 0 3 0 true.

Lemma demo_table_ok : table_ok demo_memory demo_info demo_structures.
Proof.
  constructor; [|by vm_compute|right; by apply (bool_decide_unpack _)|by vm_compute|by left|].
  - intros i x Hi. unfold demo_memory. cbn [table_address demo_info]. by replace (Z.to_nat (0x1000 + Z.of_nat i - 0x1000)) with i by lia.
  - repeat constructor; try done; vm_compute; try done; lia.
Qed.

Lemma smbios_read_back_witness :
  exists h, smbios_find_type demo_memory demo_info 1 = Ret h /\ h = find_addr (table_address demo_info) 1 demo_structures /\
    (h <> 0 -> exists s, s ∈ demo_structures /\ s_type s = 1 /\ holds demo_memory h (encode s) /\
       forall i, 0 <= i < 256 -> (p ← smbios_get_string demo_memory h i; text_at demo_memory p) = Ret (if decide (i = 0) then None else s_strings s !! Z.to_nat (i - 1))).
Proof. apply smbios_read_back. exact demo_table_ok. Defined.

Lemma demo_report : smbios_print_system demo_memory demo_info = Ret (Fields [Some (str "Board"); Some (str "Model"); None; None] None) /\
  smbios_print_bios demo_memory demo_info = Ret (Fields [Some (str "ACME"); Some (str "1.0"); Some (str "2024")] None).
Proof. by vm_compute. Qed.

(** ** The search for the entry point *)

(** Memory that can be read, up to the longest entry point behind the area. *)
Definition readable (m : memory) : Prop := forall a, SMBIOS_SCAN_START <= a < SMBIOS_SCAN_END + 0x40 -> exists b, m a = Some b /\ byte_ok b.

Section Search.
Context (m : memory).
Hypothesis mem_ok : readable m.

Lemma byte_readable a : SMBIOS_SCAN_START <= a < SMBIOS_SCAN_END + 0x40 -> exists b, byte_at m a = Ret b /\ byte_ok b.
Proof. intros Ha. destruct (mem_ok a Ha) as (b & Hb & ?). exists b. split; [by apply byte_some|done]. Qed.

Lemma memcmp_returns l a : SMBIOS_SCAN_START <= a -> a + Z.of_nat (length l) <= SMBIOS_SCAN_END + 0x40 -> exists r, smbios_memcmp m a l = Ret r.
Proof.
  revert a. induction l as [|c l IH]; intros a Ha Hl; cbn [smbios_memcmp length] in *; [by eexists|]. destruct (byte_readable a) as (b & -> & _); [lia|]. rewrite bind_ret.
  destruct (b =? c); cbn [negb]; [|by eexists]. apply IH; lia.
Qed.

Lemma checksum_returns a len : SMBIOS_SCAN_START <= a -> 0 <= len -> a + len <= SMBIOS_SCAN_END + 0x40 -> exists r, smbios_checksum m a len = Ret r.
Proof.
  intros Ha H0 Hl. unfold smbios_checksum. assert (forall n a s, SMBIOS_SCAN_START <= a -> a + Z.of_nat n <= SMBIOS_SCAN_END + 0x40 -> exists r, byte_sum m a n s = Ret r) as H.
  { induction n as [|n IH]; intros b s Hb Hn; cbn [byte_sum]; [by eexists|]. destruct (byte_readable b) as (x & -> & _); [lia|]. rewrite bind_ret. apply IH; lia. }
  destruct (H (Z.to_nat len) a 0) as [r ->]; [lia|lia|]. by eexists.
Qed.

Lemma both_returns c d : (exists r, c = Ret r) -> (c = Ret true -> exists r, d = Ret r) -> exists r, both c d = Ret r.
Proof. intros [[] ->] Hd; cbn; [by apply Hd|by eexists]. Qed.

Lemma bytes_returns n a : SMBIOS_SCAN_START <= a -> a + Z.of_nat n <= SMBIOS_SCAN_END + 0x40 -> exists l, bytes_at m a n = Ret l.
Proof.
  revert a. induction n as [|n IH]; intros a Ha Hn; cbn [bytes_at]; [by eexists|]. destruct (byte_readable a) as (b & -> & _); [lia|]. rewrite bind_ret. destruct (IH (a + 1)) as [l ->]; [lia|lia|]. by eexists.
Qed.

Lemma both_ret a b : both (Ret a) b = if (a : bool) then b else Ret false.
Proof. done. Qed.

Lemma entry_returns addr : SMBIOS_SCAN_START <= addr < SMBIOS_SCAN_END ->
  exists i, entry_at m addr = Ret i /\ (is_Some i -> entry3_ok m addr = Ret true \/ entry2_ok m addr = Ret true).
Proof.
  intros Ha. assert (exists r, entry3_ok m addr = Ret r) as [r3 E3].
  { unfold entry3_ok. apply both_returns; [apply memcmp_returns; cbn; lia|]. intros _. destruct (byte_readable (addr + 6)) as (len & -> & Hb); [lia|]. rewrite bind_ret. apply both_returns; [by eexists|].
    intros [= Hc]. unfold byte_ok in Hb. apply checksum_returns; lia. }
  assert (exists r, entry2_ok m addr = Ret r) as [r2 E2].
  { unfold entry2_ok. apply both_returns; [apply memcmp_returns; cbn; lia|]. intros _. destruct (byte_readable (addr + 5)) as (len & -> & Hb); [lia|]. rewrite bind_ret. apply both_returns; [by eexists|].
    intros [= Hc]. unfold byte_ok in Hb. apply both_returns; [apply checksum_returns; lia|]. intros _. apply both_returns; [apply memcmp_returns; cbn; lia|]. intros _. apply checksum_returns; lia. }
  assert (forall n a, addr <= a -> a + Z.of_nat n <= addr + 0x40 -> exists v, le_at m a n = Ret v) as Hle.
  { intros n a H1 H2. unfold le_at. destruct (bytes_returns n a) as [l ->]; [lia|lia|]. by eexists. }
  assert (forall k, 0 <= k < 0x40 -> exists b, byte_at m (addr + k) = Ret b) as Hby by (intros k Hk; destruct (byte_readable (addr + k)) as (b & ? & _); [lia|]; by eexists).
  unfold entry_at. rewrite E3, bind_ret. destruct r3; [|rewrite E2, bind_ret; destruct r2; [|by eexists]].
  - unfold info3. destruct (Hle 8%nat (addr + 16)) as [v1 ->]; [lia|lia|]. destruct (Hle 4%nat (addr + 12)) as [v2 ->]; [lia|lia|]. destruct (Hby 7) as [v3 ->]; [lia|]. destruct (Hby 8) as [v4 ->]; [lia|].
    rewrite !bind_ret. eexists. split; [done|]. by left.
  - unfold info2. destruct (Hle 4%nat (addr + 24)) as [v1 ->]; [lia|lia|]. destruct (Hle 2%nat (addr + 22)) as [v2 ->]; [lia|lia|]. destruct (Hle 2%nat (addr + 28)) as [v3 ->]; [lia|lia|]. destruct (Hby 6) as [v4 ->]; [lia|]. destruct (Hby 7) as [v5 ->]; [lia|].
    rewrite !bind_ret. eexists. split; [done|]. by right.
Qed.

(** The search ends; what it finds lies on a boundary of 16 and has passed the
    checks, and there is none before it. *)
Theorem smbios_init_sound :
  exists i, smbios_init m = Ret i /\
    match i with
    | Some i => exists addr, SMBIOS_SCAN_START <= addr < SMBIOS_SCAN_END /\ (16 | addr) /\ entry_at m addr = Ret (Some i) /\ (entry3_ok m addr = Ret true \/ entry2_ok m addr = Ret true) /\
        (forall b, SMBIOS_SCAN_START <= b < addr -> (16 | b) -> entry_at m b = Ret None)
    | None => forall b, SMBIOS_SCAN_START <= b < SMBIOS_SCAN_END -> (16 | b) -> entry_at m b = Ret None
    end.
Proof.
  unfold smbios_init.
  loop_with (fun a => SMBIOS_SCAN_START <= a <= SMBIOS_SCAN_END /\ (16 | a) /\ forall b, SMBIOS_SCAN_START <= b < a -> (16 | b) -> entry_at m b = Ret None)
    (fun i => match i with
      | Some i => exists addr, SMBIOS_SCAN_START <= addr < SMBIOS_SCAN_END /\ (16 | addr) /\ entry_at m addr = Ret (Some i) /\ (entry3_ok m addr = Ret true \/ entry2_ok m addr = Ret true) /\
          (forall b, SMBIOS_SCAN_START <= b < addr -> (16 | b) -> entry_at m b = Ret None)
      | None => forall b, SMBIOS_SCAN_START <= b < SMBIOS_SCAN_END -> (16 | b) -> entry_at m b = Ret None
      end) (fun a => SMBIOS_SCAN_END - a) as (i & -> & Hi); [| | |by exists i].
  - intros a (Ha & Hd & Hb). cbn beta. destruct (Z.leb_spec SMBIOS_SCAN_END a). { right. eexists. split; [done|]. intros b Hb1 Hb2. apply Hb; [lia|done]. }
    destruct (entry_returns a) as (i & Ei & Hok); [lia|]. rewrite Ei, bind_ret. destruct i as [i|].
    + right. eexists. split; [done|]. exists a. split_and!; try done; try lia. apply Hok. by eexists.
    + left. eexists. split; [done|]. destruct Hd as [z Hz]. unfold SMBIOS_SCAN_END, SMBIOS_SCAN_START in *. split; [|lia]. split; [lia|]. split; [exists (z + 1); lia|].
      intros b Hb1 [y Hy]. destruct (decide (b = a)) as [->|]; [done|]. apply Hb; [lia|by exists y].
  - split; [unfold SMBIOS_SCAN_START, SMBIOS_SCAN_END; lia|]. split; [by exists 0xF000|]. intros; lia.
  - unfold SMBIOS_SCAN_START, SMBIOS_SCAN_END. lia.
Qed.
End Search.

(** ** What the code gets wrong *)

(** The search for the two NULs does not look at the end of the table: a table
    that lacks them is read past its end. *)
Lemma next_reads_past_table :
  smbios_find_type (fun a => ([1; 4; 0; 0] ++ str "Board") !! Z.to_nat (a - 0x1000)) (mkInfo 0x1000 9 0 3 0 true) 2 = Fault.
Proof. by vm_compute. Qed.
