(* ===== verification/Smp.v ===== *)
(** * osfmk/x86_64: spinlock.c, lapic.c, ioapic.c, smp.c

    Several processors: the lock they share, the two kinds of interrupt
    controllers, the enumeration and the start of the other processors.
    Writes to device registers are recorded, what they answer is a parameter.
    Another processor acts by what the code did: the interrupt commands that
    were written start it at a page, where it runs the trampoline if that is
    what the page holds, and enters the kernel at the address, on the stack and
    under the number that it finds in memory; only when it arrives is a
    parameter.
    Shown: mutual exclusion for every interleaving, which processors are found
    and come on line, and that start-up leaves all interrupt lines masked. *)

From S2P Require Import Prelude Pmm Acpi.
Import Pmm.Pmm.

(** ** spinlock.c *)

(** [__sync_lock_test_and_set(&lock->locked, 1)]: the old value, the new one. *)
Definition test_and_set (locked : Z) : Z * Z := (locked, 1).

(** One round of the loop of [spinlock_acquire]. *)
Definition acquire_round (locked : Z) : run (Z + Z) :=
  let '(old, locked) := test_and_set locked in if negb (old =? 0) then Ret (inl locked) else Ret (inr locked).

Definition spinlock_acquire (locked : Z) : run Z := loop acquire_round locked.

Definition spinlock_release (locked : Z) : Z := 0.

Definition spinlock_try (locked : Z) : Z * Z := let '(old, locked) := test_and_set locked in (Z.b2z (old =? 0), locked).

(** ** State of smp.c, lapic.c and ioapic.c *)

Definition SMP_MAX_CPUS : Z := 8.
Definition LAPIC_BASE_DEFAULT : Z := 0xFEE00000.
Definition LAPIC_ID : Z := 0x20.
Definition LAPIC_TPR : Z := 0x80.
Definition LAPIC_EOI : Z := 0xB0.
Definition LAPIC_SPURIOUS : Z := 0xF0.
Definition LAPIC_ICR_LOW : Z := 0x300.
Definition LAPIC_ICR_HIGH : Z := 0x310.
Definition LAPIC_LVT_LINT0 : Z := 0x350.
Definition LAPIC_LVT_LINT1 : Z := 0x360.
Definition ICR_DEL_INIT : Z := 5.
Definition ICR_DEL_SIPI : Z := 6.
Definition ICR_SHORTHAND_ALL_EXC : Z := 3.
Definition IOAPIC_REGSEL : Z := 0x00.
Definition IOAPIC_WIN : Z := 0x10.
Definition IOAPIC_VER_REG : Z := 0x01.
Definition IOAPIC_REDIR_BASE : Z := 0x10.
Definition TRAMP_PHYS_CODE : Z := 0x8000.
Definition TRAMP_PHYS_DATA : Z := 0x8200.

Record cpu := mkCpu { id : Z; apic_id : Z; bsp : Z; online : Z; ready : Z }.
Definition set_up (c : cpu) : cpu := mkCpu (id c) (apic_id c) (bsp c) 1 1.

(** [mmio] holds the writes to device registers and [mapped_io] the regions
    mapped for them, latest first; [reads] counts the reads of registers. *)
Record smp := mkSmp
  { cpus : list cpu; cpu_count : Z; bsp_cpu : option nat;
    lapic_base : Z; ioapic_base : Z; ioapic_gsi_base : Z;
    mmio : list (Z * Z); reads : Z; mapped_io : list (Z * Z); frames : pmm; ram : memory }.

Definition set_cpus (l : list cpu) (s : smp) : smp :=
  mkSmp l (cpu_count s) (bsp_cpu s) (lapic_base s) (ioapic_base s) (ioapic_gsi_base s) (mmio s) (reads s) (mapped_io s) (frames s) (ram s).
Definition set_count (n : Z) (b : option nat) (s : smp) : smp :=
  mkSmp (cpus s) n b (lapic_base s) (ioapic_base s) (ioapic_gsi_base s) (mmio s) (reads s) (mapped_io s) (frames s) (ram s).
Definition set_lapic (b : Z) (s : smp) : smp :=
  mkSmp (cpus s) (cpu_count s) (bsp_cpu s) b (ioapic_base s) (ioapic_gsi_base s) (mmio s) (reads s) (mapped_io s) (frames s) (ram s).
Definition set_ioapic (b g : Z) (s : smp) : smp :=
  mkSmp (cpus s) (cpu_count s) (bsp_cpu s) (lapic_base s) b g (mmio s) (reads s) (mapped_io s) (frames s) (ram s).
Definition mmio_write (a v : Z) (s : smp) : smp :=
  mkSmp (cpus s) (cpu_count s) (bsp_cpu s) (lapic_base s) (ioapic_base s) (ioapic_gsi_base s) ((a, v) :: mmio s) (reads s) (mapped_io s) (frames s) (ram s).
Definition count_read (s : smp) : smp :=
  mkSmp (cpus s) (cpu_count s) (bsp_cpu s) (lapic_base s) (ioapic_base s) (ioapic_gsi_base s) (mmio s) (reads s + 1) (mapped_io s) (frames s) (ram s).
Definition map_io (a n : Z) (s : smp) : smp :=
  mkSmp (cpus s) (cpu_count s) (bsp_cpu s) (lapic_base s) (ioapic_base s) (ioapic_gsi_base s) (mmio s) (reads s) ((a, n) :: mapped_io s) (frames s) (ram s).
Definition set_frames (f : pmm) (s : smp) : smp :=
  mkSmp (cpus s) (cpu_count s) (bsp_cpu s) (lapic_base s) (ioapic_base s) (ioapic_gsi_base s) (mmio s) (reads s) (mapped_io s) f (ram s).
Definition set_ram (m : memory) (s : smp) : smp :=
  mkSmp (cpus s) (cpu_count s) (bsp_cpu s) (lapic_base s) (ioapic_base s) (ioapic_gsi_base s) (mmio s) (reads s) (mapped_io s) (frames s) m.

(** Stores to memory. *)
Definition poke (a v : Z) (m : memory) : memory := fun x => if x =? a then Some v else m x.
Fixpoint poke_bytes (a : Z) (l : list Z) (m : memory) : memory :=
  match l with
  | [] => m
  | b :: l => poke_bytes (a + 1) l (poke a b m)
  end.

(** [&cpus[i]] is outside of the array from 8 on. *)
Definition cpu_update (i : Z) (f : cpu -> cpu) (s : smp) : run smp :=
  match cpus s !! Z.to_nat i with
  | Some c => Ret (set_cpus (<[Z.to_nat i := f c]> (cpus s)) s)
  | None => Fault
  end.

Section Machine.
(** What a register reads as, after the writes so far and that many reads. *)
Context (mmio_in : list (Z * Z) -> Z -> Z -> Z).
(** How many other processors come to the end of the trampoline before the
    given poll of the flag, while the processor with that number is started. *)
Context (arrives : Z -> Z -> nat).
(** The code of the trampoline, the address of the stacks, the page tables and
    the entry point. *)
Context (trampoline : list Z) (ap_stacks cr3 ap_entry_addr : Z).

Definition mmio_read (a : Z) (s : smp) : Z * smp := (u32 (mmio_in (mmio s) (reads s) a), count_read s).

(** ** lapic.c *)

Definition lapic_read (reg : Z) (s : smp) : Z * smp := mmio_read (lapic_base s + reg) s.
Definition lapic_write (reg v : Z) (s : smp) : smp := mmio_write (lapic_base s + reg) v s.
Definition lapic_eoi (s : smp) : smp := lapic_write LAPIC_EOI 0 s.
Definition lapic_get_id (s : smp) : Z * smp := let '(v, s) := lapic_read LAPIC_ID s in (u8 (Z.shiftr v 24), s).

Definition lapic_enable (s : smp) : smp :=
  let s := lapic_write LAPIC_TPR 0x00 s in
  let s := lapic_write LAPIC_SPURIOUS (Z.lor 0x100 0xFF) s in
  let s := lapic_write LAPIC_LVT_LINT0 0x0700 s in
  lapic_write LAPIC_LVT_LINT1 0x0400 s.

Definition lapic_send_ipi (dest vector delivery shorthand : Z) (s : smp) : smp :=
  let s := lapic_write LAPIC_ICR_HIGH (u32 (Z.shiftl dest 24)) s in
  lapic_write LAPIC_ICR_LOW (u32 (Z.lor (Z.lor vector (Z.shiftl delivery 8)) (Z.shiftl shorthand 18))) s.

Definition MADT_SIZE : Z := 44.

Definition lapic_init (madt : Z) (s : smp) : run smp :=
  let s := set_lapic LAPIC_BASE_DEFAULT s in
  s ← (if madt =? 0 then Ret s
       else madt_walk (ram s) madt MADT_SIZE (fun p type len s =>
              if type =? 5 then a ← rd_le 8 (ram s) (p + 4); Ret (inr (set_lapic a s)) else Ret (inl s)) s);
  let s := lapic_enable (map_io LAPIC_BASE_DEFAULT 0x1000 s) in
  Ret (lapic_get_id s).2.

(** ** ioapic.c *)

Definition ioapic_read (reg : Z) (s : smp) : Z * smp :=
  mmio_read (ioapic_base s + IOAPIC_WIN) (mmio_write (ioapic_base s + IOAPIC_REGSEL) reg s).
Definition ioapic_write (reg v : Z) (s : smp) : smp :=
  mmio_write (ioapic_base s + IOAPIC_WIN) v (mmio_write (ioapic_base s + IOAPIC_REGSEL) reg s).

Fixpoint redirect_each (ns : list Z) (low high : Z) (s : smp) : smp :=
  match ns with
  | [] => s
  | i :: ns =>
      let reg := IOAPIC_REDIR_BASE + i * 2 in
      redirect_each ns low high (ioapic_write (reg + 1) high (ioapic_write reg low s))
  end.

Definition ioapic_set_redirect (vector dest_apic_id : Z) (masked : bool) (s : smp) : smp :=
  let low := Z.lor (Z.lor (Z.lor (Z.lor vector (Z.shiftl 0 8)) (Z.shiftl 0 11)) (Z.shiftl 1 13)) (Z.shiftl 1 15) in
  let low := if masked then Z.lor low (Z.shiftl 1 16) else low in
  redirect_each (seqZ 0 24) low (u32 (Z.shiftl dest_apic_id 24)) s.

Definition ioapic_mask_all (s : smp) : smp :=
  let '(v, s) := ioapic_read IOAPIC_VER_REG s in
  let max := Z.land (Z.shiftr v 16) 0xFF in
  let max := if max =? 0 then 23 else max in
  redirect_each (seqZ 0 (max + 1)) (Z.shiftl 1 16) 0 s.

Definition ioapic_init (madt : Z) (s : smp) : run smp :=
  let s := set_ioapic 0 0 s in
  if madt =? 0 then Ret s
  else
    s ← madt_walk (ram s) madt MADT_SIZE (fun p type len s =>
          if type =? 1 then
            a ← rd_le 4 (ram s) (p + 4); g ← rd_le 4 (ram s) (p + 8); Ret (inr (set_ioapic a g s))
          else Ret (inl s)) s;
    if ioapic_base s =? 0 then Ret s
    else
      let s := ioapic_mask_all (map_io (ioapic_base s) 0x1000 s) in
      Ret (ioapic_read IOAPIC_VER_REG s).2.

(** ** smp.c *)

(** The loop ends when the delivery is over or after a million reads. *)
Definition lapic_wait_delivery (s : smp) : run smp :=
  loop (fun '(i, s) =>
    if i <? 1000000 then
      let '(v, s) := lapic_read LAPIC_ICR_LOW s in
      if Z.land v (Z.shiftl 1 12) =? 0 then Ret (inr s) else Ret (inl (u32 (i + 1), s))
    else Ret (inr s)) (0, s).

(** What a started processor does, with the data at [TRAMP_PHYS_DATA]. *)
Definition ap_entry (s : smp) : run smp :=
  i ← rd_le 4 (ram s) (TRAMP_PHYS_DATA + 24);
  s ← cpu_update i set_up s;
  let s := lapic_enable s in
  Ret (set_ram (poke_bytes (TRAMP_PHYS_DATA + 28) (le_bytes 4 1) (ram s)) s).

Definition copy_trampoline (s : smp) : smp := set_ram (poke_bytes TRAMP_PHYS_CODE trampoline (ram s)) s.

(** One entry of the MADT. *)
Definition enumerate_entry (p type len : Z) (s : smp) : run (smp + smp) :=
  if type =? 0 then
    flags ← rd_le 4 (ram s) (p + 4);
    if Z.land flags 1 =? 0 then Ret (inl s)
    else if SMP_MAX_CPUS <=? cpu_count s then Ret (inr s)
    else
      a ← rd8 (ram s) (p + 3);
      proc ← rd8 (ram s) (p + 2);
      let b := if proc =? 0 then 1 else 0 in
      s ← cpu_update (cpu_count s) (fun _ => mkCpu (u8 (cpu_count s)) a b 0 0) s;
      Ret (inl (set_count (cpu_count s + 1) (if b =? 1 then Some (Z.to_nat (cpu_count s)) else bsp_cpu s) s))
  else Ret (inl s).

Definition enumerate_cpus (madt : Z) (s : smp) : run smp :=
  if madt =? 0 then Ret s else madt_walk (ram s) madt MADT_SIZE enumerate_entry s.

(** [tramp->stack = ...; ...; tramp->ready = 0] *)
Definition put_tramp (c : cpu) (s : smp) : smp :=
  let stack_top := u64 (ap_stacks + 8192 * id c + 8192) in
  set_ram (poke_bytes TRAMP_PHYS_DATA
    (le_bytes 8 stack_top ++ le_bytes 8 cr3 ++ le_bytes 8 ap_entry_addr ++ le_bytes 4 (id c) ++ le_bytes 4 0) (ram s)) s.

(** High word 0, then the command. *)
Definition send_icr (cmd : Z) (s : smp) : run smp :=
  let s := lapic_write LAPIC_ICR_LOW cmd (lapic_write LAPIC_ICR_HIGH 0 s) in lapic_wait_delivery s.

Definition INIT_CMD : Z := Z.lor (Z.lor (Z.shiftl ICR_DEL_INIT 8) (Z.shiftl 1 14)) (Z.shiftl ICR_SHORTHAND_ALL_EXC 18).
Definition SIPI_CMD : Z := Z.lor (Z.lor (Z.lor 0x08 (Z.shiftl ICR_DEL_SIPI 8)) (Z.shiftl 1 14)) (Z.shiftl ICR_SHORTHAND_ALL_EXC 18).

(** The processors that the commands go to, "all excluding self": INIT makes them
    wait, the next SIPI starts them at the page of its vector.  The writes are
    latest first. *)
Inductive ap_state := Halted | Waiting | Running (vector : Z).
Definition icr_step (a : ap_state) (cmd : Z) : ap_state :=
  if negb (Z.land (Z.shiftr cmd 18) 3 =? 3) then a
  else
    let mode := Z.land (Z.shiftr cmd 8) 7 in
    if mode =? 5 then Waiting
    else if mode =? 6 then match a with Waiting => Running (Z.land cmd 0xFF) | _ => a end
    else a.
Fixpoint aps (base : Z) (writes : list (Z * Z)) : ap_state :=
  match writes with
  | [] => Halted
  | (a, v) :: writes => if a =? base + 0x300 then icr_step (aps base writes) v else aps base writes
  end.

(** One of them comes to the end of the trampoline, if that is the code it was
    started at: it leaves its mark and calls the function that the data name. *)
Definition ap_comes (s : smp) : run smp :=
  match aps (lapic_base s) (mmio s) with
  | Running v =>
      code ← rd_bytes (ram s) (v * 4096) (length trampoline);
      entry ← rd_le 8 (ram s) (TRAMP_PHYS_DATA + 16);
      if bool_decide (v * 4096 = TRAMP_PHYS_CODE /\ code = trampoline /\ entry = u64 ap_entry_addr)
      then ap_entry (set_ram (poke_bytes 0x82F0 [0xEE] (ram s)) s)
      else Ret s
  | _ => Ret s
  end.
Fixpoint aps_come (n : nat) (s : smp) : run smp :=
  match n with
  | O => Ret s
  | S n => s ← ap_comes s; aps_come n s
  end.

(** One round of polling [tramp->ready]. *)
Definition ready_round (c : cpu) (st : Z * smp) : run (Z * smp + bool * smp) :=
  let '(i, s) := st in
  if i <? 1000000 then
    s ← aps_come (arrives (id c) i) s;
    r ← rd_le 4 (ram s) (TRAMP_PHYS_DATA + 28);
    if negb (r =? 0) then Ret (inr (true, s)) else Ret (inl (u32 (i + 1), s))
  else Ret (inr (false, s)).

(** The delays have no effect on the state; the other processors act while the
    flag is polled. *)
Definition start_ap (c : cpu) (s : smp) : run smp :=
  let s := put_tramp c s in
  s ← send_icr INIT_CMD s;
  s ← send_icr SIPI_CMD s;
  s ← send_icr SIPI_CMD s;
  '(up, s) ← loop (ready_round c) (0, s);
  if (up : bool) then cpu_update (id c) set_up s else Ret s.

Fixpoint start_each (ns : list Z) (s : smp) : run smp :=
  match ns with
  | [] => Ret s
  | i :: ns =>
      s ← match cpus s !! Z.to_nat i with
          | Some c => if negb (bsp c =? 0) then cpu_update i set_up s else start_ap c s
          | None => Fault
          end;
      start_each ns s
  end.

Definition smp_init (madt : Z) (s : smp) : run smp :=
  let s := set_count 0 None s in
  s ← enumerate_cpus madt s;
  if cpu_count s =? 0 then Ret s
  else if cpu_count s =? 1 then
    match bsp_cpu s with
    | Some i => cpu_update (Z.of_nat i) (fun c => mkCpu (id c) (apic_id c) (bsp c) 1 (ready c)) s
    | None => Fault
    end
  else
    s ← lapic_init madt s;
    f ← pmm_reserve TRAMP_PHYS_CODE Pmm.PAGE_SIZE (frames s);
    f ← pmm_reserve TRAMP_PHYS_DATA Pmm.PAGE_SIZE f;
    let s := copy_trampoline (set_frames f s) in
    let s := set_ram (poke_bytes 0x82F0 (le_bytes 4 0) (ram s)) s in
    s ← start_each (seqZ 0 (cpu_count s)) s;
    ioapic_init madt s.

Definition smp_get_cpu_count (s : smp) : Z := cpu_count s.
Definition smp_get_cpu (i : Z) (s : smp) : option cpu := if cpu_count s <=? i then None else cpus s !! Z.to_nat i.
Definition smp_current_cpu (s : smp) : option nat := bsp_cpu s.
End Machine.

(** ** The lock *)

Inductive place := Idle | Spinning | Critical.

(** One atomic step of one processor: a call of [spinlock_acquire], a round of
    its loop, a call of [spinlock_try], a [spinlock_release] by the holder. *)
Inductive lock_step : Z * list place -> Z * list place -> Prop :=
  | step_call i l ps : ps !! i = Some Idle -> lock_step (l, ps) (l, <[i := Spinning]> ps)
  | step_round i l l' ps : ps !! i = Some Spinning -> acquire_round l = Ret (inl l') -> lock_step (l, ps) (l', ps)
  | step_acquired i l l' ps : ps !! i = Some Spinning -> acquire_round l = Ret (inr l') -> lock_step (l, ps) (l', <[i := Critical]> ps)
  | step_try i l l' ps : ps !! i = Some Idle -> spinlock_try l = (1, l') -> lock_step (l, ps) (l', <[i := Critical]> ps)
  | step_try_fails i l l' ps : ps !! i = Some Idle -> spinlock_try l = (0, l') -> lock_step (l, ps) (l', ps)
  | step_release i l ps : ps !! i = Some Critical -> lock_step (l, ps) (spinlock_release l, <[i := Idle]> ps).

(** The word is 0 exactly when nobody holds the lock; at most one does. *)
Definition lock_inv (st : Z * list place) : Prop :=
  (st.1 = 0 <-> forall i, st.2 !! i <> Some Critical) /\
  (forall i j, st.2 !! i = Some Critical -> st.2 !! j = Some Critical -> i = j).

Lemma insert_place (ps : list place) i p q j : ps !! i = Some q -> <[i := p]> ps !! j = if decide (j = i) then Some p else ps !! j.
Proof.
  intros Hi. pose proof (lookup_lt_Some _ _ _ Hi). case_decide; [subst; by apply list_lookup_insert_eq|by apply list_lookup_insert_ne].
Qed.

(** A processor outside of the critical section moves but does not enter. *)
Lemma lock_inv_move l ps i p q :
  lock_inv (l, ps) -> ps !! i = Some q -> q <> Critical -> p <> Critical -> lock_inv (l, <[i := p]> ps).
Proof.
  intros [H1 H2] Hi Hq Hp. cbn in *. assert (forall j, <[i := p]> ps !! j = Some Critical <-> ps !! j = Some Critical) as E.
  { intros j. rewrite (insert_place _ _ _ _ _ Hi). case_decide; [subst|done]. rewrite Hi. split; congruence. }
  split; cbn.
  - rewrite H1. split; intros H j Hj; apply (H j), E; done.
  - intros j k Hj Hk. apply H2; by apply E.
Qed.

(** It enters when the word was 0. *)
Lemma lock_inv_enter ps i q : lock_inv (0, ps) -> ps !! i = Some q -> lock_inv (1, <[i := Critical]> ps).
Proof.
  intros [H1 _] Hi. cbn in *. assert (forall j, ps !! j <> Some Critical) as Hn by (by apply H1).
  assert (forall j, <[i := Critical]> ps !! j = Some Critical -> j = i) as E.
  { intros j. rewrite (insert_place _ _ _ _ _ Hi). case_decide; [done|]. intros Hj. by destruct (Hn j). }
  split; cbn.
  - split; [done|]. intros H. destruct (H i). rewrite (insert_place _ _ _ _ _ Hi). by rewrite decide_True.
  - intros j k Hj Hk. by rewrite (E j Hj), (E k Hk).
Qed.

Lemma lock_inv_held l ps : l <> 0 -> lock_inv (l, ps) -> lock_inv (1, ps).
Proof. intros Hl [H1 H2]. cbn in *. split; [|done]. cbn. rewrite <- H1. lia. Qed.

Lemma lock_step_inv st st' : lock_inv st -> lock_step st st' -> lock_inv st'.
Proof.
  intros Hinv Hst. destruct Hst as [i l ps Hi|i l l' ps Hi Hr|i l l' ps Hi Hr|i l l' ps Hi Hr|i l l' ps Hi Hr|i l ps Hi].
  - by eapply lock_inv_move.
  - unfold acquire_round in Hr. cbn in Hr. destruct (Z.eqb_spec l 0); cbn in Hr; [done|]. injection Hr as <-. by eapply lock_inv_held.
  - unfold acquire_round in Hr. cbn in Hr. destruct (Z.eqb_spec l 0); cbn in Hr; [|done]. injection Hr as <-. subst. by eapply lock_inv_enter.
  - unfold spinlock_try in Hr. cbn in Hr. destruct (Z.eqb_spec l 0); cbn in Hr; [|done]. injection Hr as <-. subst. by eapply lock_inv_enter.
  - unfold spinlock_try in Hr. cbn in Hr. destruct (Z.eqb_spec l 0); cbn in Hr; [done|]. injection Hr as <-. by eapply lock_inv_held.
  - destruct Hinv as [_ H2]. cbn in H2. assert (forall j, <[i := Idle]> ps !! j <> Some Critical) as Hn.
    { intros j. rewrite (insert_place _ _ _ _ _ Hi). case_decide as Hj; [done|]. intros H. by destruct Hj, (H2 j i). }
    split; cbn; [done|]. intros j k Hj. by destruct (Hn j).
Qed.

(** C7: However the steps of any number of processors are interleaved, at most
    one of them is between acquiring the lock, waiting or by trying, and
    releasing it; and when nobody is, the next round of every waiting
    processor acquires it. *)
Theorem mutual_exclusion n l ps :
  rtc lock_step (0, replicate n Idle) (l, ps) ->
  (forall i j, ps !! i = Some Critical -> ps !! j = Some Critical -> i = j) /\
  ((forall i, ps !! i <> Some Critical) -> acquire_round l = Ret (inr 1)).
Proof.
  intros Hr. assert (lock_inv (l, ps)) as [H1 H2].
  { revert Hr. apply (rtc_ind_r (fun st => lock_inv st)); [|intros st st' _ Hst Hinv; by eapply lock_step_inv].
    assert (forall i, replicate n Idle !! i <> Some Critical) as Hn by (intros i Hi; by apply lookup_replicate in Hi as [? _]).
    split; cbn; [done|]. intros i j Hi. by destruct (Hn i). }
  split; [exact H2|]. intros Hn. cbn in H1. rewrite (proj2 H1 Hn). done.
Qed.

Lemma mutual_exclusion_witness :
  (forall i j, [Critical; Spinning] !! i = Some Critical -> [Critical; Spinning] !! j = Some Critical -> i = j) /\
  ((forall i, [Critical; Spinning] !! i <> Some Critical) -> acquire_round 1 = Ret (inr 1)).
Proof.
  apply (mutual_exclusion 2).
  eapply rtc_l; [exact (step_call 0 0 [Idle; Idle] eq_refl)|].
  eapply rtc_l; [exact (step_call 1 0 [Spinning; Idle] eq_refl)|].
  eapply rtc_l; [exact (step_acquired 0 0 1 [Spinning; Spinning] eq_refl eq_refl)|].
  eapply rtc_l; [exact (step_round 1 1 1 [Critical; Spinning] eq_refl eq_refl)|]. reflexivity.
Defined.

(** Alone, a processor that asks for a lock it holds waits for ever. *)
Theorem acquire_twice_hangs : spinlock_acquire 0 = Ret 1 /\ spinlock_acquire 1 = Spin.
Proof.
  split.
  - unfold spinlock_acquire. destruct (loop_total (fun l => l = 0) (fun r => r = 1) (fun _ => 0) acquire_round 0) as (r & -> & ->); try done.
    intros l ->. right. by exists 1.
  - apply (loop_forever (fun l => l = 1)); [|done]. intros l ->. by exists 1.
Qed.

(** ** Enumeration *)

(** An enabled processor's entry, and the record made for the [i]th. *)
Definition lapic_on (m : memory) (e : Z * Z * Z) : Prop := e.1.2 = 0 /\ Z.land (value m 4 (e.1.1 + 4)) 1 <> 0.
#[global] Instance lapic_on_dec m e : Decision (lapic_on m e).
Proof. unfold lapic_on. apply _. Defined.

Definition cpu_of (m : memory) (i : nat) (e : Z * Z * Z) : cpu :=
  mkCpu (Z.of_nat i) (byte m (e.1.1 + 3)) (if byte m (e.1.1 + 2) =? 0 then 1 else 0) 0 0.

(** The processors in use. *)
Definition active (s : smp) : list cpu := take (Z.to_nat (cpu_count s)) (cpus s).

(** [bsp_cpu] points to a boot processor, if there is one. *)
Definition bsp_ok (s : smp) : Prop :=
  match bsp_cpu s with
  | Some i => exists c, active s !! i = Some c /\ bsp c = 1
  | None => Forall (fun c => bsp c = 0) (active s)
  end.

Lemma take_insert_S (l : list cpu) k c : (k < length l)%nat -> take (S k) (<[k := c]> l) = take k l ++ [c].
Proof.
  intros Hk. rewrite (take_S_r _ _ c) by (by apply list_lookup_insert_eq). by rewrite take_insert_ge by lia.
Qed.

Section Enumerate.
Context (m : memory).
Hypothesis m_full : readable m.

Lemma enumerate_fold es s :
  ram s = m -> length (cpus s) = 8%nat -> 0 <= cpu_count s <= 8 -> bsp_ok s ->
  exists s' l n b, fold_entries enumerate_entry es s = Ret s' /\ s' = set_count n b (set_cpus l s) /\
    length l = 8%nat /\ 0 <= n <= 8 /\ bsp_ok s' /\
    active s' = active s ++ imap (fun i => cpu_of m (Z.to_nat (cpu_count s) + i)) (take (8 - Z.to_nat (cpu_count s)) (filter (lapic_on m) es)).
Proof.
  revert s. induction es as [|[[p t] len] es IH]; intros s Er El Hn Hb.
  { exists s, (cpus s), (cpu_count s), (bsp_cpu s). rewrite filter_nil, take_nil, app_nil_r. split_and!; try done; try lia. by destruct s. }
  cbn [fold_entries]. unfold enumerate_entry at 2. rewrite Er. rewrite filter_cons.
  destruct (Z.eqb_spec t 0) as [Et|Et]; cycle 1.
  { rewrite bind_ret, decide_False by (intros [? ?]; done). by apply IH. }
  rewrite (rd_le_full m m_full), bind_ret. change (Z.of_nat 4) with 4.
  destruct (Z.eqb_spec (Z.land (value m 4 (p + 4)) 1) 0) as [Ef|Ef].
  { rewrite bind_ret, decide_False by (intros [? ?]; done). by apply IH. }
  rewrite decide_True by (split; done). unfold SMP_MAX_CPUS. destruct (Z.leb_spec 8 (cpu_count s)) as [Hfull|Hroom].
  { rewrite bind_ret. exists s, (cpus s), (cpu_count s), (bsp_cpu s). replace (8 - Z.to_nat (cpu_count s))%nat with 0%nat by lia.
    rewrite take_0, app_nil_r. split_and!; try done; try lia. by destruct s. }
  rewrite !(rd8_full m m_full), !bind_ret. unfold cpu_update. set (k := Z.to_nat (cpu_count s)).
  destruct (lookup_lt_is_Some_2 (cpus s) k ltac:(lia)) as [c0 Hc0]. rewrite Hc0, !bind_ret. cbn [set_cpus cpu_count bsp_cpu].
  set (c := mkCpu (u8 (cpu_count s)) (byte m (p + 3)) (if byte m (p + 2) =? 0 then 1 else 0) 0 0).
  assert (c = cpu_of m (k + 0) (p, t, len)) as Ec.
  { subst c. unfold cpu_of. cbn. rewrite u8_small by lia. f_equal. lia. }
  set (s1 := set_count _ _ _).
  assert (active s1 = active s ++ [c]) as Ha.
  { unfold active. cbn. replace (Z.to_nat (cpu_count s + 1)) with (S k) by lia. by rewrite take_insert_S by lia. }
  assert (length (active s) = k) as Hk by (unfold active; rewrite length_take; lia).
  destruct (IH s1) as (s' & l & n & b & -> & -> & L' & N' & B' & A').
  - done.
  - cbn. by rewrite length_insert.
  - cbn. lia.
  - unfold bsp_ok. rewrite Ha. cbn [s1 set_count bsp_cpu].
    destruct (Z.eqb_spec (byte m (p + 2)) 0) as [Ep|Ep]; cbn [Z.eqb Pos.eqb].
    + exists c. split; [apply list_lookup_middle; lia|]. rewrite Ec. cbn. by rewrite Ep.
    + unfold bsp_ok in Hb. destruct (bsp_cpu s) as [i|].
      * destruct Hb as (x & Hx & ?). exists x. split; [|done]. by apply lookup_app_l_Some.
      * apply Forall_app. split; [done|]. constructor; [|done]. rewrite Ec. cbn. by rewrite (proj2 (Z.eqb_neq _ _)).
  - exists (set_count n b (set_cpus l s1)), l, n, b. split_and!; try done; try lia. rewrite A', Ha, <- app_assoc. f_equal.
    cbn [s1 set_count cpu_count]. replace (8 - k)%nat with (S (8 - Z.to_nat (cpu_count s + 1)))%nat by lia. cbn [take imap app]. rewrite Ec. f_equal.
    apply imap_ext. intros i x _. cbn. f_equal. lia.
Qed.
End Enumerate.

(** ** The I/O APIC *)

(** The register that is selected, and what the registers hold, after the
    writes [w]: a write to the window goes to the selected register. *)
Fixpoint selected (base : Z) (w : list (Z * Z)) : option Z :=
  match w with
  | [] => None
  | (a, v) :: w => if a =? base + IOAPIC_REGSEL then Some v else selected base w
  end.

Fixpoint ioapic_reg (base : Z) (w : list (Z * Z)) (reg : Z) : option Z :=
  match w with
  | [] => None
  | (a, v) :: w => if (a =? base + IOAPIC_WIN) && bool_decide (selected base w = Some reg) then Some v else ioapic_reg base w reg
  end.

Lemma ioapic_reg_select base v w reg : ioapic_reg base ((base + IOAPIC_REGSEL, v) :: w) reg = ioapic_reg base w reg.
Proof. cbn [ioapic_reg]. unfold IOAPIC_REGSEL, IOAPIC_WIN. by rewrite (proj2 (Z.eqb_neq _ _)) by lia. Qed.

Lemma ioapic_write_reg reg v s r :
  ioapic_reg (ioapic_base s) (mmio (ioapic_write reg v s)) r = if decide (r = reg) then Some v else ioapic_reg (ioapic_base s) (mmio s) r.
Proof.
  unfold ioapic_write. cbn [mmio_write mmio ioapic_base ioapic_reg selected]. rewrite !Z.eqb_refl.
  unfold IOAPIC_REGSEL, IOAPIC_WIN. rewrite (proj2 (Z.eqb_neq (ioapic_base s + 0) _)) by lia. cbn [andb].
  case_decide; [subst; by rewrite bool_decide_true|]. by rewrite bool_decide_false by congruence.
Qed.

(** Everything but the record of device accesses. *)
Definition core (s : smp) : list cpu * Z * option nat * Z * Z * list (Z * Z) * pmm * memory :=
  (cpus s, cpu_count s, bsp_cpu s, lapic_base s, ioapic_base s, mapped_io s, frames s, ram s).

Lemma core_fields s s' : core s' = core s ->
  cpus s' = cpus s /\ cpu_count s' = cpu_count s /\ bsp_cpu s' = bsp_cpu s /\ lapic_base s' = lapic_base s /\
  ioapic_base s' = ioapic_base s /\ mapped_io s' = mapped_io s /\ frames s' = frames s /\ ram s' = ram s.
Proof. by intros [= ? ? ? ? ? ? ? ?]. Qed.

Lemma redirect_each_spec low high n a s :
  0 <= a -> let s' := redirect_each (seqZ a (Z.of_nat n)) low high s in
  core s' = core s /\ reads s' = reads s /\
  forall i, 0 <= i ->
    let reg k := ioapic_reg (ioapic_base s) (mmio s') (IOAPIC_REDIR_BASE + i * 2 + k) in
    if decide (a <= i < a + Z.of_nat n) then reg 0 = Some low /\ reg 1 = Some high
    else reg 0 = ioapic_reg (ioapic_base s) (mmio s) (IOAPIC_REDIR_BASE + i * 2 + 0) /\
         reg 1 = ioapic_reg (ioapic_base s) (mmio s) (IOAPIC_REDIR_BASE + i * 2 + 1).
Proof.
  revert a s. induction n as [|n IH]; intros a s Ha s'.
  { split_and!; [done..|]. intros i Hi. by rewrite decide_False by lia. }
  subst s'. rewrite seqZ_cons by lia. cbn [redirect_each]. replace (Z.pred (Z.of_nat (S n))) with (Z.of_nat n) by lia.
  set (s1 := ioapic_write _ _ _). destruct (IH (Z.succ a) s1 ltac:(lia)) as (C & R & H). split_and!; [by rewrite C|by rewrite R|].
  assert (Hs1 : forall r, ioapic_reg (ioapic_base s) (mmio s1) r = if decide (r = IOAPIC_REDIR_BASE + a * 2 + 1) then Some high
    else if decide (r = IOAPIC_REDIR_BASE + a * 2) then Some low else ioapic_reg (ioapic_base s) (mmio s) r).
  { intros r. subst s1. change (ioapic_base s) with (ioapic_base (ioapic_write (IOAPIC_REDIR_BASE + a * 2) low s)) at 1.
    rewrite ioapic_write_reg. case_decide; [done|].
    change (ioapic_base (ioapic_write (IOAPIC_REDIR_BASE + a * 2) low s)) with (ioapic_base s). by rewrite ioapic_write_reg. }
  intros i Hi. specialize (H i Hi). change (ioapic_base s1) with (ioapic_base s) in H. cbn zeta in *.
  rewrite !Hs1 in H. revert H. repeat case_decide; try lia; intros [-> ->]; split; try done; lia.
Qed.

Definition max_redir (v : Z) : Z := let max := Z.land (Z.shiftr v 16) 0xFF in if max =? 0 then 23 else max.

Section Devices.
Context (mmio_in : list (Z * Z) -> Z -> Z -> Z).

Lemma mask_all_spec s :
  let v := u32 (mmio_in ((ioapic_base s + IOAPIC_REGSEL, IOAPIC_VER_REG) :: mmio s) (reads s) (ioapic_base s + IOAPIC_WIN)) in
  let s' := ioapic_mask_all mmio_in s in
  core s' = core s /\ forall i, 0 <= i <= max_redir v ->
    ioapic_reg (ioapic_base s) (mmio s') (IOAPIC_REDIR_BASE + i * 2) = Some 0x10000 /\
    ioapic_reg (ioapic_base s) (mmio s') (IOAPIC_REDIR_BASE + i * 2 + 1) = Some 0.
Proof.
  intros v s'. unfold ioapic_mask_all, ioapic_read, mmio_read in s'. cbn in s'.
  subst s'. fold v. change (if _ =? 0 then 23 else _) with (max_redir v).
  assert (0 <= max_redir v) as Hmax by (unfold max_redir; cbn zeta; rewrite Z.land_ones with (n := 8) by lia; case_match; [lia|]; apply Z.mod_pos_bound; lia).
  match goal with |- context [redirect_each _ _ _ ?x] => set (s1 := x) end.
  replace (max_redir v + 1) with (Z.of_nat (Z.to_nat (max_redir v + 1))) by lia.
  destruct (redirect_each_spec (Z.shiftl 1 16) 0 (Z.to_nat (max_redir v + 1)) 0 s1 ltac:(lia)) as (C & _ & H).
  split; [by rewrite C|]. intros i Hi. specialize (H i ltac:(lia)). rewrite decide_True in H by lia. cbn zeta in H.
  rewrite Z.add_0_r in H. exact H.
Qed.

(** The first I/O APIC of the table. *)
Definition first_ioapic (m : memory) (madt : Z) : option (Z * Z * Z) := head (filter (fun e => e.1.2 = 1) (entries_of m madt MADT_SIZE)).

Lemma ioapic_walk m es s :
  readable m -> ram s = m ->
  fold_entries (fun p type len s => if type =? 1 then a ← rd_le 4 (ram s) (p + 4); g ← rd_le 4 (ram s) (p + 8); Ret (inr (set_ioapic a g s)) else Ret (inl s)) es s =
  Ret (match head (filter (fun e => e.1.2 = 1) es) with Some (p, _, _) => set_ioapic (value m 4 (p + 4)) (value m 4 (p + 8)) s | None => s end).
Proof.
  intros Hm Er. induction es as [|[[p t] l] es IH]; [done|]. cbn [fold_entries]. rewrite filter_cons. cbn [fst snd].
  destruct (Z.eqb_spec t 1) as [E|E].
  - rewrite decide_True by done. rewrite Er, !(rd_le_full m Hm), !bind_ret. done.
  - rewrite decide_False, bind_ret by done. apply IH.
Qed.

(** When the tables name an I/O APIC, the first one, at [base], is used,
    its registers are mapped, and after the initialisation every one of its
    redirection entries, as many as its version register says, is masked. *)
Theorem ioapic_init_masks madt s p t l :
  readable (ram s) -> madt <> 0 -> table_length (ram s) madt <= 2 ^ 32 - 257 ->
  first_ioapic (ram s) madt = Some (p, t, l) -> value (ram s) 4 (p + 4) <> 0 ->
  let base := value (ram s) 4 (p + 4) in
  exists s', ioapic_init mmio_in madt s = Ret s' /\ ioapic_base s' = base /\ (base, 0x1000) ∈ mapped_io s' /\
    forall i, 0 <= i <= max_redir (u32 (mmio_in ((base + IOAPIC_REGSEL, IOAPIC_VER_REG) :: mmio s) (reads s) (base + IOAPIC_WIN))) ->
      ioapic_reg base (mmio s') (IOAPIC_REDIR_BASE + i * 2) = Some 0x10000 /\
      ioapic_reg base (mmio s') (IOAPIC_REDIR_BASE + i * 2 + 1) = Some 0.
Proof.
  intros Hm Hmadt Hl Hf Hb base. unfold ioapic_init. rewrite (proj2 (Z.eqb_neq _ _)) by done.
  change (ram (set_ioapic 0 0 s)) with (ram s). match goal with |- context [madt_walk _ _ _ ?b ?x] =>
    destruct (madt_walk_full (ram s) Hm (fun s0 => ram s0 = ram s) madt MADT_SIZE b x) as (s1 & -> & Hs1) end; [done|done|done| |].
  { intros q t' l' s0 E0. destruct (t' =? 1); [rewrite E0, !(rd_le_full _ Hm), !bind_ret|]; by eexists. }
  rewrite (ioapic_walk (ram s)) in Hs1 by done. unfold first_ioapic in Hf. rewrite Hf in Hs1. injection Hs1 as <-.
  rewrite bind_ret. cbn [set_ioapic ioapic_base]. rewrite (proj2 (Z.eqb_neq _ _)) by done. fold base.
  match goal with |- context [ioapic_mask_all _ ?x] => set (s2 := x) end.
  destruct (mask_all_spec s2) as [Hc Hmask]. change (ioapic_base s2) with base in Hmask. change (mmio s2) with (mmio s) in Hmask.
  change (reads s2) with (reads s) in Hmask. set (s3 := ioapic_mask_all mmio_in s2) in *. clearbody s3. destruct (core_fields _ _ Hc) as (_ & _ & _ & _ & Hbase & Hio & _ & _).
  eexists. split; [done|]. split; [exact Hbase|]. split.
  - cbn. rewrite Hio. left.
  - intros i Hi. cbn [ioapic_read mmio_read snd count_read mmio_write mmio]. rewrite Hbase. change (ioapic_base s2) with base.
    rewrite !ioapic_reg_select. by apply Hmask.
Qed.
End Devices.

(** ** Starting the other processors *)

Lemma poke_bytes_lookup l a m x :
  poke_bytes a l m x = if decide (a <= x < a + Z.of_nat (length l)) then l !! Z.to_nat (x - a) else m x.
Proof.
  revert a m. induction l as [|b l IH]; intros a m; cbn [poke_bytes length]; [by rewrite decide_False by lia|].
  rewrite IH. unfold poke. destruct (Z.eqb_spec x a) as [->|Hx].
  - rewrite decide_False, decide_True by lia. by rewrite Z.sub_diag.
  - repeat case_decide; try lia; [|done]. replace (Z.to_nat (x - a)) with (S (Z.to_nat (x - (a + 1)))) by lia. done.
Qed.

Lemma poke_readable a l m : readable m -> Forall byte_ok l -> readable (poke_bytes a l m).
Proof.
  intros Hm Hl x. rewrite poke_bytes_lookup. case_decide; [|apply Hm].
  destruct (lookup_lt_is_Some_2 l (Z.to_nat (x - a)) ltac:(lia)) as [b Hb]. exists b. split; [done|]. by eapply Forall_lookup_1.
Qed.

(** Bytes read back. *)
Lemma rd_bytes_known m a l :
  0 <= a -> a + Z.of_nat (length l) <= 2 ^ 64 -> (forall k, (k < length l)%nat -> m (a + Z.of_nat k) = l !! k) -> rd_bytes m a (length l) = Ret l.
Proof.
  revert a. induction l as [|b l IH]; intros a Ha He Hk; [done|]. cbn [rd_bytes length] in *. unfold rd8. rewrite u64_small by lia.
  pose proof (Hk 0%nat ltac:(lia)) as H0. rewrite Z.add_0_r in H0. rewrite H0. cbn [of_option lookup list_lookup]. rewrite bind_ret, IH; [done|lia..|].
  intros k Hlt. specialize (Hk (S k) ltac:(lia)). rewrite <- Z.add_assoc. replace (1 + Z.of_nat k) with (Z.of_nat (S k)) by lia. done.
Qed.

(** Memory that only differs in the page of the trampoline. *)
Definition same_but_tramp (m m' : memory) : Prop := readable m' /\ forall x, ~ (0x8000 <= x < 0x9000) -> m' x = m x.

Lemma poke_tramp a l m m' :
  same_but_tramp m m' -> Forall byte_ok l -> 0x8000 <= a -> a + Z.of_nat (length l) <= 0x9000 -> same_but_tramp m (poke_bytes a l m').
Proof.
  intros [Hr Hs] Hl Ha He. split; [by apply poke_readable|]. intros x Hx. rewrite poke_bytes_lookup, decide_False by lia. by apply Hs.
Qed.

Lemma rd_bytes_same m m' a n :
  0 <= a -> a + Z.of_nat n <= 2 ^ 64 -> (forall x, a <= x < a + Z.of_nat n -> m' x = m x) -> rd_bytes m' a n = rd_bytes m a n.
Proof.
  revert a. induction n as [|n IH]; intros a Ha He Hs; [done|]. cbn [rd_bytes]. unfold rd8. rewrite u64_small, Hs by lia. rewrite IH by (lia || (intros; apply Hs; lia)). done.
Qed.

(** A store does not change what is read beside it. *)
Lemma rd_bytes_beside m a n b l :
  0 <= a -> a + Z.of_nat n <= 2 ^ 64 -> a + Z.of_nat n <= b \/ b + Z.of_nat (length l) <= a -> rd_bytes (poke_bytes b l m) a n = rd_bytes m a n.
Proof. intros Ha He Hd. apply rd_bytes_same; [done..|]. intros x Hx. rewrite poke_bytes_lookup. by rewrite decide_False by lia. Qed.
Lemma rd_le_beside m a n b l :
  0 <= a -> a + Z.of_nat n <= 2 ^ 64 -> a + Z.of_nat n <= b \/ b + Z.of_nat (length l) <= a -> rd_le n (poke_bytes b l m) a = rd_le n m a.
Proof. intros. unfold rd_le. by rewrite rd_bytes_beside. Qed.

(** A number inside of what was stored. *)
Lemma rd_le_stored m a pre n v post :
  0 <= a -> a + Z.of_nat (length (pre ++ le_bytes n v ++ post)) <= 2 ^ 64 ->
  rd_le n (poke_bytes a (pre ++ le_bytes n v ++ post) m) (a + Z.of_nat (length pre)) = Ret (v mod 256 ^ Z.of_nat n).
Proof.
  intros Ha He. rewrite !length_app, length_le_bytes in He. unfold rd_le. pose proof (rd_bytes_known (poke_bytes a (pre ++ le_bytes n v ++ post) m) (a + Z.of_nat (length pre)) (le_bytes n v)) as H.
  rewrite length_le_bytes in H. rewrite H; [by rewrite bind_ret, le_val_bytes|lia|lia|].
  intros k Hk. rewrite poke_bytes_lookup, decide_True by (rewrite !length_app, length_le_bytes; lia).
  replace (Z.to_nat (a + Z.of_nat (length pre) + Z.of_nat k - a)) with (length pre + k)%nat by lia.
  rewrite lookup_app_r by lia. rewrite lookup_app_l by (rewrite length_le_bytes; lia). f_equal. lia.
Qed.

Section Start.
Context (mmio_in : list (Z * Z) -> Z -> Z -> Z) (arrives : Z -> Z -> nat) (trampoline : list Z) (ap_stacks cr3 ap_entry_addr : Z).
Context (Htramp : (length trampoline <= 0x200)%nat).
Let start_ap := start_ap mmio_in arrives trampoline ap_stacks cr3 ap_entry_addr.
Let start_each := start_each mmio_in arrives trampoline ap_stacks cr3 ap_entry_addr.

Lemma wait_delivery_spec s : exists s', lapic_wait_delivery mmio_in s = Ret s' /\ core s' = core s /\ mmio s' = mmio s.
Proof.
  unfold lapic_wait_delivery.
  loop_with (fun '(i, s1) => 0 <= i <= 1000000 /\ core s1 = core s /\ mmio s1 = mmio s) (fun s' => core s' = core s /\ mmio s' = mmio s) (fun '(i, _) => 1000000 - i)
    as (s' & -> & Hs'); [..|eauto].
  - intros [i s1] [Hi Hc]. destruct (Z.ltb_spec i 1000000) as [Hlt|Hge]; [|right; eauto].
    cbn [lapic_read mmio_read]. destruct (_ =? 0); [right; by eexists|]. left. rewrite u32_small by lia. eexists. split; [done|]. cbn. split; [|lia]. by split; [lia|].
  - done.
  - done.
Qed.

(** A command to all the others. *)
Lemma send_icr_spec cmd s :
  exists s', send_icr mmio_in cmd s = Ret s' /\ core s' = core s /\ aps (lapic_base s') (mmio s') = icr_step (aps (lapic_base s) (mmio s)) cmd.
Proof.
  unfold send_icr. destruct (wait_delivery_spec (lapic_write LAPIC_ICR_LOW cmd (lapic_write LAPIC_ICR_HIGH 0 s))) as (s' & -> & Hs' & Hw). exists s'. split; [done|]. split; [exact Hs'|].
  destruct (core_fields _ _ Hs') as (_ & _ & _ & E & _). rewrite E, Hw. cbn [lapic_write mmio_write mmio lapic_base aps]. unfold LAPIC_ICR_LOW, LAPIC_ICR_HIGH.
  rewrite Z.eqb_refl. by rewrite (proj2 (Z.eqb_neq (lapic_base s + 0x310) _)) by lia.
Qed.

(** [s'] is [s] but for processors, registers and the trampoline's page. *)
Record started (s s' : smp) : Prop :=
  { st_count : cpu_count s' = cpu_count s;
    st_bsp : bsp_cpu s' = bsp_cpu s;
    st_frames : frames s' = frames s;
    st_ram : same_but_tramp (ram s) (ram s') }.

Lemma same_refl m : readable m -> same_but_tramp m m.
Proof. by split. Qed.

Lemma same_trans m1 m2 m3 : same_but_tramp m1 m2 -> same_but_tramp m2 m3 -> same_but_tramp m1 m3.
Proof. intros [_ H1] [R2 H2]. split; [done|]. intros x Hx. by rewrite H2, H1. Qed.

Lemma started_trans s s1 s2 : started s s1 -> started s1 s2 -> started s s2.
Proof. intros [? ? ? R1] [? ? ? R2]. constructor; [congruence..|by eapply same_trans]. Qed.

(** The code of the trampoline is in its place. *)
Definition loaded (m : memory) : Prop := rd_bytes m TRAMP_PHYS_CODE (length trampoline) = Ret trampoline.

(** The others are on their way through the trampoline, to become number [i]. *)
Record on_the_way (i : nat) (flag : Z) (s : smp) : Prop :=
  { ow_state : aps (lapic_base s) (mmio s) = Running 8;
    ow_ram : readable (ram s);
    ow_code : loaded (ram s);
    ow_entry : rd_le 8 (ram s) (TRAMP_PHYS_DATA + 16) = Ret (u64 ap_entry_addr);
    ow_id : rd_le 4 (ram s) (TRAMP_PHYS_DATA + 24) = Ret (Z.of_nat i);
    ow_flag : rd_le 4 (ram s) (TRAMP_PHYS_DATA + 28) = Ret flag }.

Lemma aps_enable s : aps (lapic_base (lapic_enable s)) (mmio (lapic_enable s)) = aps (lapic_base s) (mmio s).
Proof.
  unfold lapic_enable, lapic_write, mmio_write. cbn [mmio lapic_base aps]. unfold LAPIC_TPR, LAPIC_SPURIOUS, LAPIC_LVT_LINT0, LAPIC_LVT_LINT1.
  by rewrite !(proj2 (Z.eqb_neq (lapic_base s + _) (lapic_base s + 0x300))) by lia.
Qed.

(** What is read from a page of which one part was stored to. *)
Ltac beside := unfold loaded, TRAMP_PHYS_CODE, TRAMP_PHYS_DATA in *; cbn [ram set_ram set_cpus lapic_enable lapic_write mmio_write];
  repeat first [rewrite rd_bytes_beside by (rewrite ?length_le_bytes; cbn [length]; lia) | rewrite rd_le_beside by (rewrite ?length_le_bytes; cbn [length]; lia)].

(** One that arrives enters itself as number [i] and sets the flag. *)
Lemma ap_comes_spec i flag c s :
  on_the_way i flag s -> cpus s !! i = Some c ->
  exists s', ap_comes trampoline ap_entry_addr s = Ret s' /\ started s s' /\ on_the_way i 1 s' /\ cpus s' = <[i := set_up c]> (cpus s).
Proof.
  intros [Ha Hr Hc He Hi Hf] Hcpu. unfold ap_comes. rewrite Ha. change (8 * 4096) with TRAMP_PHYS_CODE. rewrite Hc, bind_ret, He, bind_ret. rewrite bool_decide_true by done.
  unfold ap_entry. assert (rd_le 4 (ram (set_ram (poke_bytes 0x82F0 [0xEE] (ram s)) s)) (TRAMP_PHYS_DATA + 24) = Ret (Z.of_nat i)) as -> by (beside; exact Hi). rewrite bind_ret.
  unfold cpu_update. cbn [cpus set_ram]. rewrite Nat2Z.id, Hcpu, bind_ret. eexists. split; [done|].
  set (m := poke_bytes (TRAMP_PHYS_DATA + 28) (le_bytes 4 1) (poke_bytes 0x82F0 [0xEE] (ram s))).
  assert (Hm : same_but_tramp (ram s) m).
  { apply poke_tramp; [|apply le_bytes_ok|unfold TRAMP_PHYS_DATA; lia|rewrite length_le_bytes; unfold TRAMP_PHYS_DATA; lia]. apply poke_tramp; [by apply same_refl|repeat constructor; done|lia|cbn; lia]. }
  split; [by constructor|]. split; [|done]. constructor.
  - change (aps (lapic_base (lapic_enable (set_cpus [] s))) (mmio (lapic_enable (set_cpus [] s))) = Running 8). rewrite aps_enable. exact Ha.
  - apply Hm.
  - change (loaded m). unfold m. beside. exact Hc.
  - change (rd_le 8 m (TRAMP_PHYS_DATA + 16) = Ret (u64 ap_entry_addr)). unfold m. beside. exact He.
  - change (rd_le 4 m (TRAMP_PHYS_DATA + 24) = Ret (Z.of_nat i)). unfold m. beside. exact Hi.
  - change (rd_le 4 m (TRAMP_PHYS_DATA + 28) = Ret 1). unfold m.
    pose proof (rd_le_stored (poke_bytes 0x82F0 [0xEE] (ram s)) (TRAMP_PHYS_DATA + 28) [] 4 1 []) as H. cbn [app length] in H. rewrite app_nil_r, Z.add_0_r in H. rewrite H; [done|done|by rewrite length_le_bytes].
Qed.

Lemma aps_come_spec n i flag c s :
  on_the_way i flag s -> cpus s !! i = Some c ->
  exists s', aps_come trampoline ap_entry_addr n s = Ret s' /\ started s s' /\ on_the_way i (if (n =? 0)%nat then flag else 1) s' /\
    cpus s' = if (n =? 0)%nat then cpus s else <[i := set_up c]> (cpus s).
Proof.
  revert flag c s. induction n as [|n IH]; intros flag c s Ho Hc; cbn [aps_come].
  { exists s. split; [done|]. split; [constructor; try done; apply same_refl, Ho|done]. }
  destruct (ap_comes_spec i flag c s Ho Hc) as (s1 & -> & S1 & O1 & C1). rewrite bind_ret. pose proof (lookup_lt_Some _ _ _ Hc).
  destruct (IH 1 (set_up c) s1 O1) as (s2 & -> & S2 & O2 & C2); [by rewrite C1, list_lookup_insert_eq|]. exists s2. split; [done|]. split; [by eapply started_trans|]. cbn [Nat.eqb].
  destruct (n =? 0)%nat; [by rewrite C2|]. split; [done|]. rewrite C2, C1. by rewrite list_insert_insert_eq.
Qed.

(** Whether another processor comes in time. *)
Definition up (i : Z) : Prop := exists n, 0 <= n < 1000000 /\ arrives i n <> 0%nat.

Lemma poll_spec c i s :
  on_the_way i 0 s -> cpus s !! i = Some c -> id c = Z.of_nat i ->
  exists (b : bool) s', loop (ready_round arrives trampoline ap_entry_addr c) (0, s) = Ret (b, s') /\ started s s' /\ loaded (ram s') /\
    (b = true /\ up (id c) /\ cpus s' = <[i := set_up c]> (cpus s) \/ b = false /\ ~ up (id c) /\ cpus s' = cpus s).
Proof.
  intros Ho Hc Hi.
  loop_with (fun '(n, s1) => 0 <= n <= 1000000 /\ on_the_way i 0 s1 /\ started s s1 /\ cpus s1 = cpus s /\ forall k, 0 <= k < n -> arrives (id c) k = 0%nat)
    (fun '(b, s') => started s s' /\ loaded (ram s') /\ (b = true /\ up (id c) /\ cpus s' = <[i := set_up c]> (cpus s) \/ b = false /\ ~ up (id c) /\ cpus s' = cpus s))
    (fun '(n, _) => 1000000 - n) as ([b s'] & -> & H').
  - intros [n s1] (Hn & O1 & S1 & C1 & Hk). unfold ready_round. destruct (Z.ltb_spec n 1000000) as [Hlt|Hge]; cycle 1.
    { right. eexists (_, _). split; [done|]. split; [done|]. split; [apply O1|]. right. split_and!; [done| |done]. intros (k & Hk1 & Hk2). apply Hk2, Hk. lia. }
    destruct (aps_come_spec (arrives (id c) n) i 0 c s1 O1) as (s2 & -> & S2 & O2 & C2); [by rewrite C1|]. rewrite bind_ret, (ow_flag _ _ _ O2), bind_ret.
    destruct (Nat.eqb_spec (arrives (id c) n) 0) as [E|E].
    + left. rewrite u32_small by lia. eexists (_, _). split; [done|]. split; [|lia]. split; [lia|]. split; [done|]. split; [by eapply started_trans|]. split; [congruence|].
      intros k Hk'. destruct (decide (k = n)) as [->|]; [done|]. apply Hk. lia.
    + right. eexists (_, _). split; [done|]. split; [by eapply started_trans|]. split; [apply O2|]. left. split; [done|]. split; [exists n; split; [lia|done]|]. by rewrite C2, C1.
  - split; [lia|]. split; [done|]. split; [constructor; try done; apply same_refl, Ho|]. split; [done|]. intros; lia.
  - lia.
  - by exists b, s'.
Qed.

(** The data of the trampoline as they are stored. *)
Lemma put_tramp_spec c i s :
  readable (ram s) -> loaded (ram s) -> id c = Z.of_nat i -> (i < 8)%nat ->
  let m := ram (put_tramp ap_stacks cr3 ap_entry_addr c s) in
  same_but_tramp (ram s) m /\ loaded m /\ rd_le 8 m (TRAMP_PHYS_DATA + 16) = Ret (u64 ap_entry_addr) /\
  rd_le 4 m (TRAMP_PHYS_DATA + 24) = Ret (Z.of_nat i) /\ rd_le 4 m (TRAMP_PHYS_DATA + 28) = Ret 0.
Proof.
  intros Hr Hl Hi H8. cbn [put_tramp ram set_ram]. set (st := le_bytes 8 (u64 _)). set (cr := le_bytes 8 cr3). set (en := le_bytes 8 ap_entry_addr).
  assert (length st = 8%nat /\ length cr = 8%nat /\ length en = 8%nat) as (L1 & L2 & L3) by (split_and!; apply length_le_bytes).
  assert (Hlen : length (st ++ cr ++ en ++ le_bytes 4 (id c) ++ le_bytes 4 0) = 32%nat) by (rewrite !length_app, !length_le_bytes; lia).
  split_and!.
  - apply poke_tramp; [by apply same_refl| |unfold TRAMP_PHYS_DATA; lia|rewrite Hlen; unfold TRAMP_PHYS_DATA; lia]. rewrite !Forall_app. split_and!; apply le_bytes_ok.
  - unfold loaded in *. rewrite rd_bytes_beside; [done|unfold TRAMP_PHYS_CODE; lia|unfold TRAMP_PHYS_CODE; lia|unfold TRAMP_PHYS_CODE, TRAMP_PHYS_DATA; lia].
  - pose proof (rd_le_stored (ram s) TRAMP_PHYS_DATA (st ++ cr) 8 ap_entry_addr (le_bytes 4 (id c) ++ le_bytes 4 0)) as H. fold en in H. rewrite <- app_assoc, (length_app st cr), L1, L2 in H.
    change (Z.of_nat (8 + 8)) with 16 in H. rewrite H; [done|unfold TRAMP_PHYS_DATA; lia|rewrite Hlen; unfold TRAMP_PHYS_DATA; lia].
  - pose proof (rd_le_stored (ram s) TRAMP_PHYS_DATA (st ++ cr ++ en) 4 (id c) (le_bytes 4 0)) as H. rewrite <- !app_assoc, !length_app, L1, L2, L3 in H.
    change (Z.of_nat (8 + (8 + 8))) with 24 in H. rewrite H; [|unfold TRAMP_PHYS_DATA; lia|rewrite !length_le_bytes; unfold TRAMP_PHYS_DATA; lia]. rewrite Hi, Z.mod_small by (cbn; lia). done.
  - pose proof (rd_le_stored (ram s) TRAMP_PHYS_DATA (st ++ cr ++ en ++ le_bytes 4 (id c)) 4 0 []) as H. rewrite app_nil_r, <- !app_assoc, !length_app, L1, L2, L3, !length_le_bytes in H.
    change (Z.of_nat (8 + (8 + (8 + 4)))) with 28 in H. rewrite H; [done|unfold TRAMP_PHYS_DATA; lia..].
Qed.

Lemma start_ap_spec c s i :
  readable (ram s) -> loaded (ram s) -> cpus s !! i = Some c -> id c = Z.of_nat i -> (i < 8)%nat ->
  exists s', start_ap c s = Ret s' /\ started s s' /\ loaded (ram s') /\
    (up (id c) /\ cpus s' = <[i := set_up c]> (cpus s) \/ ~ up (id c) /\ cpus s' = cpus s).
Proof.
  intros Hm Hld Hc Hi H8. unfold start_ap, Smp.start_ap. destruct (put_tramp_spec c i s Hm Hld Hi H8) as (R0 & L0 & T1 & T2 & T3). set (s0 := put_tramp _ _ _ _ _) in *.
  destruct (send_icr_spec INIT_CMD s0) as (s1 & -> & C1 & A1). rewrite bind_ret.
  destruct (send_icr_spec SIPI_CMD s1) as (s2 & -> & C2 & A2). rewrite bind_ret.
  destruct (send_icr_spec SIPI_CMD s2) as (s3 & -> & C3 & A3). rewrite bind_ret.
  assert (core s3 = core s0) as C by congruence. destruct (core_fields _ _ C) as (F1 & F2 & F3 & _ & _ & _ & F7 & F8).
  assert (aps (lapic_base s3) (mmio s3) = Running 8) as HA by (rewrite A3, A2, A1; by destruct (aps _ _)).
  assert (S3 : started s s3) by (constructor; [by rewrite F2|by rewrite F3|by rewrite F7|by rewrite F8]).
  assert (O3 : on_the_way i 0 s3) by (constructor; rewrite ?F8; try done; apply R0).
  assert (cpus s3 = cpus s) as F1' by (by rewrite F1). destruct (poll_spec c i s3 O3) as (b & s4 & -> & S4 & L4 & H4); [by rewrite F1'|done|]. rewrite bind_ret.
  pose proof (started_trans _ _ _ S3 S4) as S5. destruct H4 as [(-> & Hu & C4)|(-> & Hu & C4)]; [|exists s4; split; [done|]; split; [done|]; split; [done|]; right; split; [done|congruence]].
  unfold cpu_update. rewrite Hi, Nat2Z.id, C4, F1', list_lookup_insert_eq by (by eapply lookup_lt_Some). rewrite list_insert_insert_eq.
  eexists. split; [done|]. split; [destruct S5; by constructor|]. split; [done|]. left. rewrite Hi in Hu. by split.
Qed.

(** What start-up makes of a processor. *)
Definition brought_up (c c' : cpu) : Prop := (bsp c <> 0 \/ up (id c)) /\ c' = set_up c \/ ~ (bsp c <> 0 \/ up (id c)) /\ c' = c.

Lemma start_each_spec n a s :
  readable (ram s) -> loaded (ram s) -> (a + n <= 8)%nat ->
  (forall k, (a <= k < a + n)%nat -> exists c, cpus s !! k = Some c /\ id c = Z.of_nat k) ->
  exists s', start_each (seqZ (Z.of_nat a) (Z.of_nat n)) s = Ret s' /\ started s s' /\
    (forall k, ~ (a <= k < a + n)%nat -> cpus s' !! k = cpus s !! k) /\
    (forall k c, (a <= k < a + n)%nat -> cpus s !! k = Some c -> exists c', cpus s' !! k = Some c' /\ brought_up c c').
Proof.
  unfold start_each. revert a s. induction n as [|n IH]; intros a s Hm Hld H8 Hk.
  { exists s. split; [done|]. split; [constructor; try done; by apply same_refl|]. split; [done|]. intros; lia. }
  rewrite seqZ_cons by lia. cbn [Smp.start_each]. rewrite Nat2Z.id. replace (Z.succ (Z.of_nat a)) with (Z.of_nat (S a)) by lia.
  replace (Z.pred (Z.of_nat (S n))) with (Z.of_nat n) by lia. destruct (Hk a ltac:(lia)) as (c & Hc & Hid). rewrite Hc. pose proof (lookup_lt_Some _ _ _ Hc) as Hlt.
  assert (exists s1 c', (if negb (bsp c =? 0) then cpu_update (Z.of_nat a) set_up s else start_ap c s) = Ret s1 /\
    started s s1 /\ loaded (ram s1) /\ cpus s1 = <[a := c']> (cpus s) /\ brought_up c c') as (s1 & c' & E1 & S1 & L1 & C1 & B1).
  { unfold brought_up. destruct (Z.eqb_spec (bsp c) 0) as [Hb|Hb]; cbn [negb].
    - destruct (start_ap_spec c s a Hm Hld Hc Hid ltac:(lia)) as (s1 & -> & S1 & L1 & [[Hu C1]|[Hu C1]]).
      + exists s1, (set_up c). split_and!; auto.
      + exists s1, c. split_and!; auto; [by rewrite list_insert_id|]. right. split; [|done]. intros [?|?]; done.
    - unfold cpu_update. rewrite Nat2Z.id, Hc. eexists _, _. split; [done|]. split; [constructor; (done || by apply same_refl)|]. split; [done|]. split; [done|]. left. auto. }
  unfold start_ap in E1. rewrite E1, bind_ret. destruct (IH (S a) s1) as (s' & -> & S2 & K1 & K2).
  - apply (st_ram _ _ S1).
  - done.
  - lia.
  - intros k Hr. rewrite C1, list_lookup_insert_ne by lia. apply Hk. lia.
  - exists s'. split; [done|]. split; [by eapply started_trans|]. split.
    + intros k Hn. rewrite K1 by lia. rewrite C1, list_lookup_insert_ne by lia. done.
    + intros k d Hr Hd. destruct (decide (k = a)) as [->|Hne].
      * rewrite K1 by lia. rewrite C1, list_lookup_insert_eq by done. exists c'. rewrite Hc in Hd. injection Hd as <-. done.
      * apply K2; [lia|]. by rewrite C1, list_lookup_insert_ne by lia.
Qed.
End Start.

(** An invariant of the walk holds at its end. *)
Lemma fold_entries_inv {S} (I : S -> Prop) (body : Z -> Z -> Z -> S -> run (S + S)) es s s' :
  (forall p t l s r, I s -> body p t l s = Ret r -> match r with inl s' => I s' | inr s' => I s' end) ->
  I s -> fold_entries body es s = Ret s' -> I s'.
Proof.
  intros Hbody. revert s. induction es as [|[[p t] l] es IH]; intros s HI Hf; cbn [fold_entries] in Hf; [by injection Hf as <-|].
  destruct (body p t l s) as [r| |] eqn:E; [|done..]. specialize (Hbody p t l s r HI E). rewrite bind_ret in Hf.
  destruct r as [s1|s1]; [by apply (IH s1)|by injection Hf as <-].
Qed.

(** What lapic_init and ioapic_init leave alone. *)
Definition kernel_part (s : smp) : list cpu * Z * option nat * pmm * memory := (cpus s, cpu_count s, bsp_cpu s, frames s, ram s).

Lemma kernel_part_fields s s' : kernel_part s' = kernel_part s ->
  cpus s' = cpus s /\ cpu_count s' = cpu_count s /\ bsp_cpu s' = bsp_cpu s /\ frames s' = frames s /\ ram s' = ram s.
Proof. by intros [= ? ? ? ? ?]. Qed.

Section Init.
Context (mmio_in : list (Z * Z) -> Z -> Z -> Z).

Lemma lapic_init_spec madt s :
  readable (ram s) -> table_length (ram s) madt <= 2 ^ 32 - 257 ->
  exists s', lapic_init mmio_in madt s = Ret s' /\ kernel_part s' = kernel_part s.
Proof.
  intros Hm Hl. unfold lapic_init. set (s0 := set_lapic LAPIC_BASE_DEFAULT s).
  lazymatch goal with |- exists _, mbind _ ?w = _ /\ _ => assert (exists s1, w = Ret s1 /\ kernel_part s1 = kernel_part s) as (s1 & -> & K1) end.
  { destruct (madt =? 0); [by exists s0|]. change (ram s0) with (ram s).
    match goal with |- context [madt_walk _ _ _ ?b ?x] =>
      destruct (madt_walk_full (ram s) Hm (fun t => kernel_part t = kernel_part s) madt MADT_SIZE b x) as (s1 & -> & Hs1) end; [done|done|done| |].
    - intros p t l t0 K. destruct (t =? 5); [|by eexists]. destruct (kernel_part_fields _ _ K) as (_ & _ & _ & _ & ->).
      rewrite (rd_le_full _ Hm), bind_ret. by eexists.
    - exists s1. split; [done|]. revert Hs1. apply (fold_entries_inv (fun t => kernel_part t = kernel_part s)); [|done].
      intros p t l t0 r K. destruct (t =? 5); [|by intros [= <-]]. destruct (kernel_part_fields _ _ K) as (_ & _ & _ & _ & ->).
      rewrite (rd_le_full _ Hm), bind_ret. by intros [= <-]. }
  rewrite bind_ret. eexists. by split.
Qed.

Lemma ioapic_init_spec madt s :
  readable (ram s) -> table_length (ram s) madt <= 2 ^ 32 - 257 ->
  exists s', ioapic_init mmio_in madt s = Ret s' /\ kernel_part s' = kernel_part s.
Proof.
  intros Hm Hl. unfold ioapic_init. destruct (madt =? 0); [by eexists|]. change (ram (set_ioapic 0 0 s)) with (ram s).
  match goal with |- context [madt_walk _ _ _ ?b ?x] =>
    destruct (madt_walk_full (ram s) Hm (fun s0 => ram s0 = ram s) madt MADT_SIZE b x) as (s1 & -> & Hs1) end; [done|done|done| |].
  { intros q t' l' s0 E0. destruct (t' =? 1); [rewrite E0, !(rd_le_full _ Hm), !bind_ret|]; by eexists. }
  rewrite (ioapic_walk (ram s)) in Hs1 by done. rewrite bind_ret.
  assert (kernel_part s1 = kernel_part s) as K1 by (injection Hs1 as <-; by destruct (head _) as [[[p t] l]|]).
  destruct (ioapic_base s1 =? 0); [by exists s1|]. destruct (mask_all_spec mmio_in (map_io (ioapic_base s1) 0x1000 s1)) as [Hc _].
  destruct (core_fields _ _ Hc) as (F1 & F2 & F3 & _ & _ & _ & F7 & F8). eexists. split; [done|]. rewrite <- K1. unfold kernel_part.
  set (s2 := ioapic_mask_all _ _) in *. clearbody s2. cbn. by rewrite F1, F2, F3, F7, F8.
Qed.
End Init.

(** The processors the table lists, at most eight. *)
Definition listed_cpus (m : memory) (madt : Z) : list cpu :=
  imap (cpu_of m) (take 8 (filter (lapic_on m) (entries_of m madt MADT_SIZE))).

Lemma enumerate_spec madt s :
  readable (ram s) -> length (cpus s) = 8%nat -> madt <> 0 -> table_length (ram s) madt <= 2 ^ 32 - 257 ->
  exists s' l n b, enumerate_cpus madt (set_count 0 None s) = Ret s' /\ s' = set_count n b (set_cpus l s) /\ length l = 8%nat /\
    0 <= n <= 8 /\ bsp_ok s' /\ active s' = listed_cpus (ram s) madt.
Proof.
  intros Hm H8 Hmadt Hl. unfold enumerate_cpus. rewrite (proj2 (Z.eqb_neq _ _)) by done. set (s0 := set_count 0 None s).
  change (ram s0) with (ram s).
  destruct (madt_walk_full (ram s) Hm (fun t => ram t = ram s /\ length (cpus t) = 8%nat /\ 0 <= cpu_count t) madt MADT_SIZE enumerate_entry s0)
    as (s1 & -> & Hs1); [done|done|by split_and!| |].
  - intros p t l t0 (Er & El & Hc). unfold enumerate_entry. rewrite Er. destruct (t =? 0); [|by eexists].
    rewrite (rd_le_full _ Hm), bind_ret. destruct (_ =? 0); [by eexists|]. destruct (Z.leb_spec SMP_MAX_CPUS (cpu_count t0)) as [|Hlt]; [by eexists|].
    rewrite !(rd8_full _ Hm), !bind_ret. unfold cpu_update, SMP_MAX_CPUS in *.
    destruct (lookup_lt_is_Some_2 (cpus t0) (Z.to_nat (cpu_count t0)) ltac:(lia)) as [c0 ->]. rewrite bind_ret.
    eexists. split; [done|]. cbn. rewrite length_insert. split_and!; [done|done|lia].
  - destruct (enumerate_fold (ram s) Hm (entries_of (ram s) madt MADT_SIZE) s0) as (s' & l & n & b & E & -> & L & N & B & A); try done.
    { constructor. }
    rewrite E in Hs1. injection Hs1 as <-. exists (set_count n b (set_cpus l s)), l, n, b. split_and!; try done; lia.
Qed.

Lemma active_lookup s k : (k < Z.to_nat (cpu_count s))%nat -> active s !! k = cpus s !! k.
Proof. intros. unfold active. by rewrite lookup_take_lt by lia. Qed.

Lemma listed_id m madt k c : listed_cpus m madt !! k = Some c -> id c = Z.of_nat k.
Proof. unfold listed_cpus. rewrite list_lookup_imap. intros (e & _ & ->)%fmap_Some. done. Qed.

Section Boot.
Context (mmio_in : list (Z * Z) -> Z -> Z -> Z) (arrives : Z -> Z -> nat) (trampoline : list Z) (ap_stacks cr3 ap_entry_addr : Z).
Let smp_init := smp_init mmio_in arrives trampoline ap_stacks cr3 ap_entry_addr.

Lemma table_length_same m m' madt : same_but_tramp m m' -> 0x9000 <= madt -> madt + 8 <= 2 ^ 64 -> table_length m' madt = table_length m madt.
Proof.
  intros [_ Hs] H1 H2. unfold table_length, value, bytes. f_equal. apply list_fmap_ext. intros i x Hx.
  apply lookup_seqZ in Hx as [-> ?]. unfold byte. rewrite u64_small by lia. by rewrite Hs by lia.
Qed.

(** C15: With two or more processors in the MADT, and a trampoline of at most
    512 bytes, start-up records the enabled ones in the order of the table, at
    most eight; it ends although it waits for each; the boot processor is
    marked as on line, and of the others exactly those during whose start some
    processor, woken by the INIT and SIPI commands that go to all but the
    sender, came through the trampoline within a million looks at the flag; and
    the page of the trampoline is taken from the frame allocator.  The other
    processors act between looks at the flag.  The MADT is outside the first
    0x9000 bytes, where the trampoline's page is, and its length is at most
    2^32 - 257. *)
Theorem smp_init_online madt s :
  readable (ram s) -> length (cpus s) = 8%nat -> pmm_inv (frames s) -> 0x9000 <= madt -> madt + 8 <= 2 ^ 64 ->
  table_length (ram s) madt <= 2 ^ 32 - 257 -> Forall byte_ok trampoline -> (length trampoline <= 0x200)%nat ->
  (2 <= length (listed_cpus (ram s) madt))%nat ->
  exists s', smp_init madt s = Ret s' /\ cpu_count s' = Z.of_nat (length (listed_cpus (ram s) madt)) /\
    Forall2 (brought_up arrives) (listed_cpus (ram s) madt) (active s') /\ 0x8000 ∉ free_frames (frames s').
Proof.
  intros Hm H8 Hp Ha He Hl Ht Htl H2. unfold smp_init, Smp.smp_init.
  destruct (enumerate_spec madt s Hm H8 ltac:(lia) Hl) as (s1 & l & n & b & -> & E1 & L & N & _ & A1). rewrite bind_ret.
  assert (Hr1 : ram s1 = ram s) by (by subst). assert (Hf1 : frames s1 = frames s) by (by subst). assert (Hn1 : cpu_count s1 = n) by (by subst).
  assert (Hc1 : cpus s1 = l) by (by subst). clear E1.
  assert (Z.of_nat (length (listed_cpus (ram s) madt)) = n) as En by (rewrite <- A1; unfold active; rewrite Hn1, Hc1, length_take; lia).
  rewrite !(proj2 (Z.eqb_neq (cpu_count s1) _)) by lia.
  destruct (lapic_init_spec mmio_in madt s1) as (s2 & -> & K2); [by rewrite Hr1..|]. rewrite bind_ret.
  destruct (kernel_part_fields _ _ K2) as (C2 & N2 & _ & F2 & R2).
  destruct (pmm_reserve_spec TRAMP_PHYS_CODE Pmm.PAGE_SIZE (frames s2)) as (f1 & -> & Hi1 & Hf1'); [congruence|done..|]. rewrite bind_ret.
  destruct (pmm_reserve_spec TRAMP_PHYS_DATA Pmm.PAGE_SIZE f1) as (f2 & -> & Hi2 & Hf2'); [done..|]. rewrite bind_ret.
  match goal with |- context [start_each _ _ _ _ _ _ _ ?x] => set (s3 := x) end.
  assert (same_but_tramp (ram s) (ram s3)) as R3.
  { unfold s3. cbn [set_ram ram copy_trampoline set_frames]. rewrite R2, Hr1.
    apply poke_tramp; [|apply le_bytes_ok|done|by rewrite length_le_bytes].
    apply poke_tramp; [by apply same_refl|done|done|]. unfold TRAMP_PHYS_CODE. lia. }
  change (cpu_count s3) with (cpu_count s2). rewrite N2, Hn1, <- En.
  assert (loaded trampoline (ram s3)) as LD3.
  { unfold loaded, s3. cbn [set_ram ram copy_trampoline set_frames]. rewrite rd_bytes_beside by (rewrite ?length_le_bytes; unfold TRAMP_PHYS_CODE; lia).
    apply rd_bytes_known; [unfold TRAMP_PHYS_CODE; lia..|]. intros k Hk. rewrite poke_bytes_lookup, decide_True by lia. f_equal. lia. }
  change 0 with (Z.of_nat 0).
  destruct (start_each_spec mmio_in arrives trampoline ap_stacks cr3 ap_entry_addr Htl (length (listed_cpus (ram s) madt)) 0 s3) as (s4 & -> & S4 & _ & L4).
  { apply R3. } { done. } { lia. }
  { intros k Hk. change (cpus s3) with (cpus s2). rewrite C2. rewrite <- active_lookup by lia. rewrite A1.
    destruct (lookup_lt_is_Some_2 (listed_cpus (ram s) madt) k ltac:(lia)) as [c Hc]. exists c. split; [done|]. by eapply listed_id. }
  rewrite bind_ret. destruct S4 as [N4 _ F4 R4]. pose proof (same_trans _ _ _ R3 R4) as R5.
  destruct (ioapic_init_spec mmio_in madt s4) as (s5 & -> & K5); [apply R5|by rewrite (table_length_same (ram s))|].
  destruct (kernel_part_fields _ _ K5) as (C5 & N5 & _ & F5 & _). exists s5. split; [done|].
  assert (cpu_count s5 = n) as E5 by (rewrite N5, N4; change (cpu_count s3) with (cpu_count s2); congruence).
  split; [lia|]. split.
  - assert (Hlk : forall k c, listed_cpus (ram s) madt !! k = Some c -> exists c', active s5 !! k = Some c' /\ brought_up arrives c c').
    { intros k c Hk. pose proof (lookup_lt_Some _ _ _ Hk). rewrite active_lookup by lia. rewrite C5. apply L4; [lia|].
      change (cpus s3) with (cpus s2). by rewrite C2, <- active_lookup, A1 by lia. }
    apply Forall2_same_length_lookup_2; [|intros k c c' Hk Hk'; destruct (Hlk k c Hk) as (c2 & E & ?); by simplify_eq].
    apply Nat.le_antisymm; [|unfold active; rewrite length_take; lia]. destruct (length (listed_cpus (ram s) madt)) as [|k] eqn:El; [lia|].
    destruct (lookup_lt_is_Some_2 (listed_cpus (ram s) madt) k ltac:(lia)) as [c Hk]. destruct (Hlk k c Hk) as (c' & Hc' & _). apply lookup_lt_Some in Hc'. lia.
  - rewrite F5, F4. change (frames s3) with f2. rewrite Hf2'. intros [Hin Hno]. apply Hno. unfold overlaps, TRAMP_PHYS_DATA, Pmm.PAGE_SIZE.
    vm_compute. split; done.
Qed.

(** A single processor whose number in the table is not 0 is not recognised as
    the boot processor, and [bsp_cpu->online] is a store through null. *)
Theorem smp_init_null_bsp madt s c :
  readable (ram s) -> length (cpus s) = 8%nat -> madt <> 0 -> table_length (ram s) madt <= 2 ^ 32 - 257 ->
  listed_cpus (ram s) madt = [c] -> bsp c = 0 -> smp_init madt s = Fault.
Proof.
  intros Hm H8 Hmadt Hl Hc Hb. unfold smp_init, Smp.smp_init.
  destruct (enumerate_spec madt s Hm H8 Hmadt Hl) as (s1 & l & n & b & -> & E1 & L & N & B1 & A1). rewrite bind_ret.
  assert (cpu_count s1 = 1) as ->.
  { assert (length (active s1) = 1%nat) as H1 by (by rewrite A1, Hc). subst s1. unfold active in H1. rewrite length_take in H1. cbn in *. lia. }
  cbn [Z.eqb Pos.eqb]. unfold bsp_ok in B1. rewrite A1, Hc in B1. destruct (bsp_cpu s1) as [i|]; [|done].
  destruct B1 as (x & Hi & Hx). apply list_lookup_singleton_Some in Hi as [_ <-]. lia.
Qed.
End Boot.

(** The address override of a MADT is used for the registers, but the region
    that is mapped stays the default one. *)
Theorem lapic_override_unmapped mmio_in madt s p t l :
  readable (ram s) -> madt <> 0 -> table_length (ram s) madt <= 2 ^ 32 - 257 ->
  head (filter (fun e => e.1.2 = 5) (entries_of (ram s) madt MADT_SIZE)) = Some (p, t, l) ->
  exists s', lapic_init mmio_in madt s = Ret s' /\ lapic_base s' = value (ram s) 8 (p + 4) /\
    mapped_io s' = (LAPIC_BASE_DEFAULT, 0x1000) :: mapped_io s.
Proof.
  intros Hm Hmadt Hl Hf. unfold lapic_init. rewrite (proj2 (Z.eqb_neq _ _)) by done. set (s0 := set_lapic LAPIC_BASE_DEFAULT s).
  change (ram s0) with (ram s). match goal with |- context [madt_walk _ _ _ ?b ?x] =>
    destruct (madt_walk_full (ram s) Hm (fun s0 => ram s0 = ram s) madt MADT_SIZE b x) as (s1 & -> & Hs1) end; [done|done|done| |].
  { intros q t' l' s2 E0. destruct (t' =? 5); [rewrite E0, !(rd_le_full _ Hm), !bind_ret|]; by eexists. }
  assert (s1 = set_lapic (value (ram s) 8 (p + 4)) s0) as ->.
  { change (ram s) with (ram s0) in *. clearbody s0. revert Hs1 Hf. generalize (entries_of (ram s0) madt MADT_SIZE). intros es. induction es as [|[[q t'] l'] es IH]; [done|].
    cbn [fold_entries]. rewrite filter_cons. cbn [fst snd]. destruct (Z.eqb_spec t' 5).
    - rewrite decide_True by done. rewrite (rd_le_full _ Hm), !bind_ret. by intros [= <-] [= <- <- <-].
    - rewrite decide_False, bind_ret by done. exact IH. }
  eexists. split; [done|]. by split.
Qed.

(** ** The small firmware *)

Definition boot_state : smp := mkSmp (replicate 8 (mkCpu 0 0 0 0 0)) 0 None 0 0 0 [] 0 [] (mkPmm [0x7000; 0x8000; 0x9000] 0) firmware.

(** A version register with 24 entries; one processor comes, late, while the
    second is started. *)
Definition some_device (w : list (Z * Z)) (n a : Z) : Z := 0x170011.
Definition answers (i n : Z) : nat := if (i =? 1) && (n =? 500) then 1 else 0.

Lemma ioapic_init_masks_witness :
  let base := value firmware 4 (0x3000 + 60 + 4) in
  exists s', ioapic_init some_device 0x3000 boot_state = Ret s' /\ ioapic_base s' = base /\ (base, 0x1000) ∈ mapped_io s' /\
    forall i, 0 <= i <= max_redir (u32 (some_device ((base + IOAPIC_REGSEL, IOAPIC_VER_REG) :: mmio boot_state) (reads boot_state) (base + IOAPIC_WIN))) ->
      ioapic_reg base (mmio s') (IOAPIC_REDIR_BASE + i * 2) = Some 0x10000 /\
      ioapic_reg base (mmio s') (IOAPIC_REDIR_BASE + i * 2 + 1) = Some 0.
Proof.
  apply (ioapic_init_masks some_device 0x3000 boot_state (0x3000 + 60) 1 12 firmware_readable); [done|apply firmware_lengths|vm_compute; done|vm_compute; done].
Defined.

Lemma smp_init_online_witness :
  exists s', smp_init some_device answers [0xFA; 0xFC] 0x400000 0x1000 0x100000 0x9000 (set_ram (image [(0x9000, demo_madt)]) boot_state) = Ret s' /\
    cpu_count s' = Z.of_nat (length (listed_cpus (image [(0x9000, demo_madt)]) 0x9000)) /\
    Forall2 (brought_up answers) (listed_cpus (image [(0x9000, demo_madt)]) 0x9000) (active s') /\ 0x8000 ∉ free_frames (frames s').
Proof.
  apply (smp_init_online some_device answers [0xFA; 0xFC] 0x400000 0x1000 0x100000 0x9000 (set_ram (image [(0x9000, demo_madt)]) boot_state)).
  - intros a. eexists. split; [done|]. apply image_bytes; [vm_compute; done|lia].
  - done.
  - split_and!; [apply (bool_decide_unpack _); reflexivity|repeat constructor|done].
  - done.
  - done.
  - vm_compute. done.
  - repeat constructor; done.
  - cbn. lia.
  - vm_compute. lia.
Defined.

Example two_processors : listed_cpus firmware 0x3000 = [mkCpu 0 0 1 0 0; mkCpu 1 2 0 0 0].
Proof. vm_compute. done. Qed.
