(* ===== verification/Platform.v ===== *)
(** * The platform's chips: vga.c, serial.c, pic.c, idt.c, tsc.c, pit.c

    Text screen and serial line, interrupt controllers and descriptors, clocks.
    Shown: the screen is a terminal - what is printed stands where it should and
    the cursor never leaves it; which interrupt lines are open; descriptors
    hold the address they were given; where the clocks' arithmetic wraps. *)

From S2P Require Import Prelude.

(** ** osfmk/console: vga.c and serial.c *)

Module Vga.

Definition VGA_WIDTH : Z := 80.
Definition VGA_HEIGHT : Z := 25.

(** [crtc] holds the two registers of the hardware's cursor, [sent] what went
    over the serial line, [reads] counts the reads of its status. *)
Record vga := mkVga
  { vga_buffer : list Z; terminal_row : Z; terminal_col : Z; terminal_attribute : Z; crtc : Z * Z; sent : list Z; reads : Z }.
Definition set_buffer (l : list Z) (s : vga) : vga :=
  mkVga l (terminal_row s) (terminal_col s) (terminal_attribute s) (crtc s) (sent s) (reads s).
Definition set_pos (r c : Z) (s : vga) : vga := mkVga (vga_buffer s) r c (terminal_attribute s) (crtc s) (sent s) (reads s).
Definition set_crtc (hi lo : Z) (s : vga) : vga :=
  mkVga (vga_buffer s) (terminal_row s) (terminal_col s) (terminal_attribute s) (hi, lo) (sent s) (reads s).

(** [vga_buffer[off] = v] *)
Definition put_cell (off v : Z) (s : vga) : run vga :=
  if (0 <=? off) && (off <? Z.of_nat (length (vga_buffer s))) then Ret (set_buffer (<[Z.to_nat off := u16 v]> (vga_buffer s)) s) else Fault.

Definition blank (s : vga) : Z := Z.lor 0x0020 (Z.shiftl (terminal_attribute s) 8).

Definition vga_update_cursor (s : vga) : vga :=
  let pos := u16 (terminal_row s * VGA_WIDTH + terminal_col s) in
  set_crtc (u8 (Z.land (Z.shiftr pos 8) 0xFF)) (u8 (Z.land pos 0xFF)) s.

(** [for (i = 0; ...) vga_buffer[i] = vga_buffer[i + VGA_WIDTH]] *)
Fixpoint move_up (is_ : list Z) (s : vga) : run vga :=
  match is_ with
  | [] => Ret s
  | i :: is_ => v ← of_option (vga_buffer s !! Z.to_nat (i + VGA_WIDTH)); s ← put_cell i v s; move_up is_ s
  end.

Fixpoint fill_cells (is_ : list Z) (v : Z) (s : vga) : run vga :=
  match is_ with
  | [] => Ret s
  | i :: is_ => s ← put_cell i v s; fill_cells is_ v s
  end.

Definition vga_scroll (s : vga) : run vga :=
  s ← move_up (seqZ 0 (VGA_WIDTH * (VGA_HEIGHT - 1))) s;
  s ← fill_cells (seqZ (VGA_WIDTH * (VGA_HEIGHT - 1)) VGA_WIDTH) (blank s) s;
  Ret (vga_update_cursor (set_pos (VGA_HEIGHT - 1) (terminal_col s) s)).

Section Serial.
(** The status register of the serial line at each read. *)
Context (lsr : Z -> Z).

Definition serial_putchar (c : Z) (s : vga) : run vga :=
  n ← loop (fun n => if Z.land (lsr n) 0x20 =? 0 then Ret (inl (n + 1)) else Ret (inr (n + 1))) (reads s);
  Ret (mkVga (vga_buffer s) (terminal_row s) (terminal_col s) (terminal_attribute s) (crtc s) (sent s ++ [u8 c]) n).

Fixpoint serial_print (str : list Z) (s : vga) : run vga :=
  match str with
  | [] => Ret s
  | c :: str => if c =? 0 then Ret s else s ← serial_putchar c s; serial_print str s
  end.

Definition vga_putchar (c : Z) (s : vga) : run vga :=
  s ← serial_putchar c s;
  s ← (if c =? 10 then Ret (set_pos (u32 (terminal_row s + 1)) 0 s)
       else if c =? 13 then Ret (set_pos (terminal_row s) 0 s)
       else
         let offset := u32 (terminal_row s * VGA_WIDTH + terminal_col s) in
         s ← put_cell offset (Z.lor (u16 c) (Z.shiftl (terminal_attribute s) 8)) s;
         Ret (set_pos (terminal_row s) (u32 (terminal_col s + 1)) s));
  let s := if VGA_WIDTH <=? terminal_col s then set_pos (u32 (terminal_row s + 1)) 0 s else s in
  s ← (if VGA_HEIGHT <=? terminal_row s then vga_scroll s else Ret s);
  Ret (vga_update_cursor s).

Fixpoint vga_print (str : list Z) (s : vga) : run vga :=
  match str with
  | [] => Ret s
  | c :: str => if c =? 0 then Ret s else s ← vga_putchar c s; vga_print str s
  end.

(** Up to the line it logs; [serial_init] programs the line before. *)
Definition vga_init (s : vga) : run vga :=
  let s := vga_update_cursor (mkVga (vga_buffer s) 0 0 0x07 (crtc s) (sent s) (reads s)) in
  serial_print [10] s.
End Serial.

(** The writes to the ports of the line, in order. *)
Definition COM1 : Z := 0x3F8.
Definition serial_init : list (Z * Z) :=
  [(COM1 + 1, 0x00); (COM1 + 3, 0x80); (COM1 + 0, 0x01); (COM1 + 1, 0x00);
   (COM1 + 3, 0x03); (COM1 + 2, 0xC7); (COM1 + 4, 0x0B); (COM1 + 5, 0x01)].

(** What the status register and the data register read as. *)
Definition serial_getchar (status data : Z) : Z := if Z.land status 0x01 =? 0 then -1 else u8 data.

Definition vga_backspace (s : vga) : run vga :=
  let at_ (r c : Z) (s : vga) :=
    s ← put_cell (u32 (r * VGA_WIDTH + c)) (blank s) (set_pos r c s); Ret (vga_update_cursor s) in
  if 0 <? terminal_col s then at_ (terminal_row s) (terminal_col s - 1) s
  else if 0 <? terminal_row s then at_ (terminal_row s - 1) (VGA_WIDTH - 1) s
  else Ret s.

Definition vga_clear (s : vga) : run vga :=
  s ← fill_cells (seqZ 0 (VGA_WIDTH * VGA_HEIGHT)) (blank s) s;
  Ret (vga_update_cursor (set_pos 0 0 s)).

(** ** The terminal it is meant to be *)

(** Cells and the place of the cursor, counted through the rows. *)
Definition terminal : Type := list Z * Z.

Definition cell (attr c : Z) : Z := u16 (Z.lor (u16 c) (Z.shiftl attr 8)).

(** Past the end the text moves up a row. *)
Definition settle (attr : Z) (t : terminal) : terminal :=
  if decide (2000 <= t.2) then (drop 80 t.1 ++ replicate 80 (cell attr 0x20), t.2 - 80) else t.

Definition term_put (attr : Z) (t : terminal) (c : Z) : terminal :=
  if decide (c = 10) then settle attr (t.1, t.2 - t.2 mod 80 + 80)
  else if decide (c = 13) then (t.1, t.2 - t.2 mod 80)
  else settle attr (<[Z.to_nat t.2 := cell attr c]> t.1, t.2 + 1).

(** The terminal a state stands for. *)
Definition shows (s : vga) : terminal := (vga_buffer s, terminal_row s * 80 + terminal_col s).

Record vga_ok (s : vga) : Prop :=
  { ok_size : length (vga_buffer s) = 2000%nat;
    ok_cells : Forall (fun x => 0 <= x < 2 ^ 16) (vga_buffer s);
    ok_row : 0 <= terminal_row s < 25;
    ok_col : 0 <= terminal_col s < 80;
    ok_attr : 0 <= terminal_attribute s < 256 }.

Lemma put_cell_ok off v s : 0 <= off < Z.of_nat (length (vga_buffer s)) ->
  put_cell off v s = Ret (set_buffer (<[Z.to_nat off := u16 v]> (vga_buffer s)) s).
Proof. intros. unfold put_cell. by rewrite (proj2 (Z.leb_le _ _)), (proj2 (Z.ltb_lt _ _)) by lia. Qed.

Lemma set_buffer_id s : set_buffer (vga_buffer s) s = s.
Proof. by destruct s. Qed.

Lemma fill_cells_spec n (a : nat) v s :
  (a + n <= length (vga_buffer s))%nat ->
  fill_cells (seqZ (Z.of_nat a) (Z.of_nat n)) v s =
  Ret (set_buffer (take a (vga_buffer s) ++ replicate n (u16 v) ++ drop (a + n) (vga_buffer s)) s).
Proof.
  revert a s. induction n as [|n IH]; intros a s Hl.
  { cbn. rewrite Nat.add_0_r, take_drop. by rewrite set_buffer_id. }
  rewrite seqZ_cons by lia. cbn [fill_cells]. rewrite put_cell_ok, bind_ret, Nat2Z.id by lia.
  replace (Z.succ (Z.of_nat a)) with (Z.of_nat (S a)) by lia. replace (Z.pred (Z.of_nat (S n))) with (Z.of_nat n) by lia.
  rewrite IH by (cbn; rewrite length_insert; lia). cbn [set_buffer vga_buffer]. f_equal. unfold set_buffer. cbn. f_equal.
  rewrite (take_S_r _ _ (u16 v)) by (apply list_lookup_insert_eq; lia). rewrite take_insert_ge by lia.
  rewrite drop_insert_lt by lia. rewrite <- !app_assoc. cbn. do 3 f_equal. f_equal. lia.
Qed.

Lemma move_up_spec n (a : nat) l s :
  vga_buffer s = take a (drop 80 l) ++ drop a l -> (a + n + 80 <= length l)%nat -> Forall (fun x => 0 <= x < 2 ^ 16) l ->
  move_up (seqZ (Z.of_nat a) (Z.of_nat n)) s = Ret (set_buffer (take (a + n) (drop 80 l) ++ drop (a + n) l) s).
Proof.
  revert a s. induction n as [|n IH]; intros a s Hs Hl Hb.
  { rewrite Nat.add_0_r, <- Hs. by rewrite set_buffer_id. }
  assert (length (take a (drop 80 l)) = a) as Ht by (rewrite length_take, length_drop; lia).
  rewrite seqZ_cons by lia. cbn [move_up]. unfold VGA_WIDTH at 1. replace (Z.to_nat (Z.of_nat a + 80)) with (a + 80)%nat by lia.
  destruct (lookup_lt_is_Some_2 l (a + 80)%nat ltac:(lia)) as [x Hx]. rewrite Hs at 1.
  rewrite lookup_app_r by lia. rewrite Ht, lookup_drop. replace (a + (a + 80 - a))%nat with (a + 80)%nat by lia. rewrite Hx. cbn [of_option].
  rewrite bind_ret, put_cell_ok, bind_ret, Nat2Z.id by (rewrite Hs, length_app, length_drop; lia).
  replace (Z.succ (Z.of_nat a)) with (Z.of_nat (S a)) by lia. replace (Z.pred (Z.of_nat (S n))) with (Z.of_nat n) by lia.
  assert (0 <= x < 2 ^ 16) as Hxb by exact (Forall_lookup_1 _ _ _ _ Hb Hx). rewrite (u16_small x) by done.
  rewrite IH; [|cbn|lia|done].
  - replace (S a + n)%nat with (a + S n)%nat by lia. done.
  - rewrite Hs, insert_app_r_alt by lia. rewrite Ht, Nat.sub_diag.
    rewrite (take_S_r (drop 80 l) a x) by (rewrite lookup_drop, Nat.add_comm; done). rewrite <- app_assoc. f_equal.
    destruct (lookup_lt_is_Some_2 l a ltac:(lia)) as [y Hy]. by rewrite (drop_S _ _ _ Hy).
Qed.

Lemma cells_u16 attr c : 0 <= cell attr c < 2 ^ 16.
Proof. apply Z.mod_pos_bound. lia. Qed.

(** The text moves up by a row, the last row is blank. *)
Lemma vga_scroll_spec s :
  length (vga_buffer s) = 2000%nat -> Forall (fun x => 0 <= x < 2 ^ 16) (vga_buffer s) ->
  vga_scroll s = Ret (vga_update_cursor (set_pos 24 (terminal_col s)
    (set_buffer (drop 80 (vga_buffer s) ++ replicate 80 (cell (terminal_attribute s) 0x20)) s))).
Proof.
  intros Hl Hb. unfold vga_scroll, VGA_WIDTH, VGA_HEIGHT. change (80 * (25 - 1)) with (Z.of_nat 1920). change 0 with (Z.of_nat 0) at 1.
  rewrite (move_up_spec 1920 0 (vga_buffer s)); [|by rewrite take_0|cbn; lia|done]. rewrite bind_ret. change (0 + 1920)%nat with 1920%nat.
  match goal with |- context [fill_cells (seqZ ?a 80)] => change (seqZ a 80) with (seqZ a (Z.of_nat 80)) end. rewrite fill_cells_spec; cbn [set_buffer vga_buffer].
  - rewrite bind_ret. f_equal. f_equal. unfold set_pos, set_buffer. cbn [vga_buffer terminal_row terminal_col terminal_attribute crtc sent reads].
    f_equal. rewrite take_app_length' by (rewrite length_take, length_drop; lia). rewrite take_ge by (rewrite length_drop; lia).
    rewrite (drop_ge _ (1920 + 80)), app_nil_r by (rewrite length_app, !length_drop; lia). done.
  - rewrite length_app, length_take, !length_drop. lia.
Qed.

(** The position of the hardware's cursor. *)
Definition hw_pos (s : vga) : Z := 256 * (crtc s).1 + (crtc s).2.

Lemma update_cursor_pos s : vga_ok s -> hw_pos (vga_update_cursor s) = (shows s).2.
Proof.
  intros [_ _ Hr Hc _]. unfold hw_pos, vga_update_cursor, shows, VGA_WIDTH. cbn [crtc set_crtc fst snd].
  set (p := terminal_row s * 80 + terminal_col s). assert (0 <= p < 2000) by (subst p; lia).
  rewrite (u16_small p) by lia. change 0xFF with (Z.ones 8). rewrite !Z.land_ones, Z.shiftr_div_pow2 by lia. unfold u8.
  rewrite !Z.mod_mod by lia. change (2 ^ 8) with 256. Z.div_mod_to_equations; lia.
Qed.

(** Cursor and cells after a character was handled: wrap and scroll. *)
Lemma putchar_tail s r c :
  length (vga_buffer s) = 2000%nat -> Forall (fun x => 0 <= x < 2 ^ 16) (vga_buffer s) -> 0 <= terminal_attribute s < 256 ->
  0 <= r <= 25 -> 0 <= c <= 80 -> (r = 25 -> c = 0) ->
  exists s', (let s1 := set_pos r c s in
    let s2 := if VGA_WIDTH <=? terminal_col s1 then set_pos (u32 (terminal_row s1 + 1)) 0 s1 else s1 in
    s3 ← (if VGA_HEIGHT <=? terminal_row s2 then vga_scroll s2 else Ret s2); Ret (vga_update_cursor s3)) = Ret s' /\
    vga_ok s' /\ shows s' = settle (terminal_attribute s) (vga_buffer s, r * 80 + c) /\ hw_pos s' = (shows s').2 /\
    sent s' = sent s /\ terminal_attribute s' = terminal_attribute s.
Proof.
  intros Hl Hb Ha Hr Hc Hrc. unfold VGA_WIDTH, VGA_HEIGHT. cbn zeta. cbn [set_pos terminal_col terminal_row].
  assert (exists r1 c1, (if 80 <=? c then set_pos (u32 (r + 1)) 0 (set_pos r c s) else set_pos r c s) = set_pos r1 c1 s /\
    0 <= c1 < 80 /\ 0 <= r1 <= 25 /\ r1 * 80 + c1 = r * 80 + c) as (r1 & c1 & -> & Hc1 & Hr1 & Epos).
  { destruct (Z.leb_spec 80 c).
    - exists (r + 1), 0. rewrite u32_small by lia. split; [done|]. lia.
    - exists r, c. split; [done|]. lia. }
  rewrite <- Epos. cbn [set_pos terminal_row]. unfold settle. cbn [fst snd].
  assert (Hend : forall s3, vga_ok s3 -> vga_ok (vga_update_cursor s3) /\ shows (vga_update_cursor s3) = shows s3 /\
    hw_pos (vga_update_cursor s3) = (shows (vga_update_cursor s3)).2 /\ sent (vga_update_cursor s3) = sent s3 /\
    terminal_attribute (vga_update_cursor s3) = terminal_attribute s3).
  { intros s3 H3. split_and!; try done; [by destruct H3|exact (update_cursor_pos s3 H3)]. }
  destruct (Z.leb_spec 25 r1) as [Hs|Hs].
  - rewrite vga_scroll_spec by done. rewrite bind_ret. cbn [set_pos vga_buffer terminal_col terminal_attribute].
    rewrite decide_True by lia. eexists. split; [done|].
    match goal with |- context [vga_update_cursor (vga_update_cursor ?x)] => set (s3 := x) end.
    assert (vga_ok s3) as H3.
    { constructor; cbn [s3 set_pos set_buffer vga_buffer terminal_row terminal_col terminal_attribute]; try lia.
      - rewrite length_app, length_drop, length_replicate. lia.
      - apply Forall_app. split; [by apply Forall_drop|]. apply Forall_replicate, cells_u16. }
    destruct (Hend s3 H3) as (O3 & S3 & P3 & N3 & A3). destruct (Hend _ O3) as (O4 & S4 & P4 & N4 & A4).
    split_and!; try done. rewrite S4, S3. unfold shows. cbn. f_equal. lia.
  - rewrite bind_ret, decide_False by lia. eexists. split; [done|].
    assert (vga_ok (set_pos r1 c1 s)) as H3 by (constructor; cbn; try done; lia).
    destruct (Hend _ H3) as (O3 & S3 & P3 & N3 & A3). split_and!; try done.
Qed.

Section Ready.
Context (lsr : Z -> Z).
(** The transmitter becomes empty again, within 2^60 reads. *)
Hypothesis ready : forall n, exists k, 0 <= k < 2 ^ 60 /\ Z.land (lsr (n + k)) 0x20 <> 0.

Lemma serial_putchar_spec c s :
  exists n, serial_putchar lsr c s = Ret (mkVga (vga_buffer s) (terminal_row s) (terminal_col s) (terminal_attribute s) (crtc s) (sent s ++ [u8 c]) n).
Proof.
  unfold serial_putchar. destruct (ready (reads s)) as (k & Hk & Hr).
  loop_with (fun n => reads s <= n <= reads s + k) (fun _ => True) (fun n => reads s + k - n) as (n & -> & _); [..|by exists n].
  - intros n Hn. destruct (Z.eqb_spec (Z.land (lsr n) 0x20) 0) as [E|E]; [|right; by eexists]. left. eexists. split; [done|].
    assert (n <> reads s + k) by congruence. lia.
  - lia.
  - lia.
Qed.

Lemma shows_row s : vga_ok s -> (shows s).2 - (shows s).2 mod 80 = terminal_row s * 80.
Proof. intros [_ _ Hr Hc _]. cbn. Z.div_mod_to_equations; lia. Qed.

Lemma putchar_spec c s :
  vga_ok s -> exists s', vga_putchar lsr c s = Ret s' /\ vga_ok s' /\ shows s' = term_put (terminal_attribute s) (shows s) c /\
    hw_pos s' = (shows s').2 /\ sent s' = sent s ++ [u8 c] /\ terminal_attribute s' = terminal_attribute s.
Proof.
  intros Hok. pose proof (shows_row s Hok) as Hrow. destruct Hok as [Hl Hb Hr Hc Ha]. unfold vga_putchar.
  destruct (serial_putchar_spec c s) as (n & ->). rewrite bind_ret. set (s0 := mkVga _ _ _ _ _ _ _).
  unfold term_put. destruct (Z.eqb_spec c 10) as [E|E]; [|destruct (Z.eqb_spec c 13) as [E'|E']].
  - rewrite bind_ret, decide_True, Hrow by done. cbn [s0 terminal_row]. rewrite u32_small by lia.
    replace (terminal_row s * 80 + 80) with ((terminal_row s + 1) * 80 + 0) by lia. apply (putchar_tail s0); done || lia.
  - rewrite bind_ret, decide_False, decide_True, Hrow by done. cbn [s0 terminal_row].
    destruct (putchar_tail s0 (terminal_row s) 0 Hl Hb Ha) as (s' & Hs' & O & S & P & N & A); [lia..|]. exists s'.
    split_and!; try done. rewrite S. unfold settle. cbn [fst snd]. rewrite decide_False by lia. cbn [s0 vga_buffer shows fst]. f_equal. lia.
  - rewrite !decide_False by done. assert (VGA_WIDTH = 80) as EW by done. cbn [s0 terminal_row terminal_col]. rewrite u32_small by (rewrite EW; lia).
    rewrite put_cell_ok by (cbn [s0 vga_buffer]; rewrite EW; lia). rewrite !bind_ret. cbn [set_buffer terminal_row terminal_col s0].
    rewrite u32_small by lia. set (s1 := set_buffer _ _).
    destruct (putchar_tail s1 (terminal_row s) (terminal_col s + 1)) as (s' & Hs' & O & S & P & N & A); try lia.
    + cbn. by rewrite length_insert.
    + cbn. apply Forall_insert; [done|]. apply Z.mod_pos_bound. lia.
    + done.
    + exists s'. split_and!; try done. rewrite S. cbn. do 2 f_equal. lia.
Qed.
End Ready.

(** The characters up to the terminator. *)
Fixpoint text (str : list Z) : list Z :=
  match str with
  | [] => []
  | c :: str => if c =? 0 then [] else c :: text str
  end.

(** C16: The text console refines a terminal of 25 rows of 80 cells: printing
    any string ends, never stores outside of the screen's memory, leaves the
    cells and the cursor as the terminal's after the same characters (with line
    feed, carriage return, wrapping and scrolling), moves the hardware's cursor
    there and sends the same characters over the serial line. *)
Theorem vga_print_refines lsr str s :
  (forall n, exists k, 0 <= k < 2 ^ 60 /\ Z.land (lsr (n + k)) 0x20 <> 0) -> vga_ok s -> hw_pos s = (shows s).2 ->
  exists s', vga_print lsr str s = Ret s' /\ vga_ok s' /\ shows s' = foldl (term_put (terminal_attribute s)) (shows s) (text str) /\
    hw_pos s' = (shows s').2 /\ sent s' = sent s ++ (u8 <$> text str).
Proof.
  intros Hready. revert s. induction str as [|c str IH]; intros s Hok Hp; cbn [vga_print text].
  { exists s. rewrite app_nil_r. done. }
  destruct (c =? 0). { exists s. rewrite app_nil_r. done. }
  destruct (putchar_spec lsr Hready c s Hok) as (s1 & -> & O1 & S1 & P1 & N1 & A1). rewrite bind_ret.
  destruct (IH s1 O1 P1) as (s' & -> & O' & S' & P' & N'). exists s'. split_and!; try done.
  - rewrite S', A1, S1. done.
  - rewrite N', N1, <- app_assoc. done.
Qed.

Definition cleared : vga := mkVga (replicate 2000 0x0720) 0 0 7 (0, 0) [] 0.

Lemma cleared_ok : vga_ok cleared.
Proof. constructor; try done. apply Forall_replicate. lia. Defined.

Lemma vga_print_refines_witness :
  exists s', vga_print (fun _ => 0x60) [72; 105; 10; 33] cleared = Ret s' /\ vga_ok s' /\
    shows s' = foldl (term_put 7) (shows cleared) [72; 105; 10; 33] /\ hw_pos s' = (shows s').2 /\
    sent s' = sent cleared ++ (u8 <$> [72; 105; 10; 33]).
Proof.
  apply (vga_print_refines (fun _ => 0x60) [72; 105; 10; 33] cleared); [|exact cleared_ok|done].
  intros n. exists 0. split; [lia|done].
Defined.

(** Start-up puts a terminal there whatever the screen holds. *)
Lemma vga_init_ok lsr s :
  (forall n, exists k, 0 <= k < 2 ^ 60 /\ Z.land (lsr (n + k)) 0x20 <> 0) ->
  length (vga_buffer s) = 2000%nat -> Forall (fun x => 0 <= x < 2 ^ 16) (vga_buffer s) ->
  exists s', vga_init lsr s = Ret s' /\ vga_ok s' /\ shows s' = (vga_buffer s, 0) /\ hw_pos s' = (shows s').2.
Proof.
  intros Hready Hl Hb. unfold vga_init. cbn [serial_print Z.eqb]. set (s0 := vga_update_cursor _).
  destruct (serial_putchar_spec lsr Hready 10 s0) as (n & ->). rewrite bind_ret. eexists. split; [done|]. split; [by constructor|done].
Qed.

(** The divisor latch is reached while bit 7 of the line control register is
    set: the line runs at 115200 baud, 8 data bits, no parity. *)
Fixpoint divisor (w : list (Z * Z)) (lcr dl : Z) : Z * Z :=
  match w with
  | [] => (lcr, dl)
  | (p, v) :: w =>
      if p =? COM1 + 3 then divisor w v dl
      else if (p =? COM1) && Z.testbit lcr 7 then divisor w lcr (Z.land dl 0xFF00 + v)
      else if (p =? COM1 + 1) && Z.testbit lcr 7 then divisor w lcr (Z.land dl 0xFF + 256 * v)
      else divisor w lcr dl
  end.

Lemma divisor_closed p v w lcr dl : Z.testbit lcr 7 = false -> p <> COM1 + 3 -> divisor ((p, v) :: w) lcr dl = divisor w lcr dl.
Proof. intros E H. cbn [divisor]. by rewrite (proj2 (Z.eqb_neq _ _) H), E, !andb_false_r. Qed.

Lemma serial_init_line lcr : 0 <= lcr < 128 -> divisor serial_init lcr 12 = (0x03, 1).
Proof.
  intros H. assert (Z.testbit lcr 7 = false) as E.
  { destruct (decide (lcr = 0)) as [->|]; [done|]. apply Z.bits_above_log2; [lia|]. apply Z.log2_lt_pow2; lia. }
  unfold serial_init. rewrite divisor_closed by done. vm_compute. done.
Qed.

(** Erasing the last character, also across a line; at the top left nothing. *)
Lemma backspace_spec s : vga_ok s ->
  exists s', vga_backspace s = Ret s' /\ vga_ok s' /\ terminal_attribute s' = terminal_attribute s /\
    shows s' = if decide ((shows s).2 = 0) then shows s
               else (<[Z.to_nat ((shows s).2 - 1) := cell (terminal_attribute s) 0x20]> (shows s).1, (shows s).2 - 1).
Proof.
  intros [Hl Hb Hr Hc Ha]. unfold vga_backspace, VGA_WIDTH. cbn [shows fst snd].
  assert (Hat : forall r c, 0 <= r < 25 -> 0 <= c < 80 ->
    exists s', (s1 ← put_cell (u32 (r * 80 + c)) (blank s) (set_pos r c s); Ret (vga_update_cursor s1)) = Ret s' /\ vga_ok s' /\ terminal_attribute s' = terminal_attribute s /\
      shows s' = (<[Z.to_nat (r * 80 + c) := cell (terminal_attribute s) 0x20]> (vga_buffer s), r * 80 + c)).
  { intros r c Hr' Hc'. rewrite u32_small by lia. rewrite put_cell_ok by (cbn; lia). rewrite bind_ret. eexists. split; [done|].
    split; [|by split]. constructor; cbn; try done; [by rewrite length_insert|]. apply Forall_insert; [done|]. apply Z.mod_pos_bound. lia. }
  destruct (Z.ltb_spec 0 (terminal_col s)); [|destruct (Z.ltb_spec 0 (terminal_row s))].
  - rewrite decide_False by lia. replace (terminal_row s * 80 + terminal_col s - 1) with (terminal_row s * 80 + (terminal_col s - 1)) by lia. apply Hat; lia.
  - rewrite decide_False by lia. replace (terminal_row s * 80 + terminal_col s - 1) with ((terminal_row s - 1) * 80 + (80 - 1)) by lia. apply Hat; lia.
  - rewrite decide_True by lia. exists s. split_and!; try done.
Qed.

(** A character from 128 on is negative as a [char]: its cell loses the colour
    attribute, which is overwritten with ones. *)
Theorem high_char_attribute attr c : 0 <= attr < 256 -> -128 <= c < 0 -> cell attr c = 0xFF00 + u8 c.
Proof.
  intros Ha Hc. unfold cell. assert (u16 c = 0xFF00 + u8 c /\ 128 <= u8 c < 256) as [-> Hu] by ilia.
  assert (Z.lor (0xFF00 + u8 c) (Z.shiftl attr 8) = 0xFF00 + u8 c) as ->; [|apply u16_small; lia].
  assert (0xFF00 + u8 c = Z.lor 0xFF00 (u8 c)) as ->.
  { rewrite Z.add_nocarry_lxor, Z.lxor_lor; [done|..]; apply Z.bits_inj'; intros i Hi; rewrite Z.land_spec, Z.bits_0.
    all: change 0xFF00 with (Z.shiftl 0xFF 8); rewrite Z.shiftl_spec by lia; destruct (decide (i < 8));
      [by rewrite Z.testbit_neg_r by lia|].
    all: rewrite <- (Z.mod_small (u8 c) (2 ^ 8)) by lia; by rewrite Z.mod_pow2_bits_high, andb_false_r by lia. }
  apply Z.bits_inj'. intros i Hi. rewrite !Z.lor_spec, Z.shiftl_spec by lia. change 0xFF00 with (Z.shiftl (Z.ones 8) 8).
  rewrite Z.shiftl_spec by lia. destruct (decide (i < 8)); [rewrite !(Z.testbit_neg_r _ (i - 8)) by lia; by rewrite orb_false_r|].
  destruct (decide (i < 16)); [rewrite Z.ones_spec_low by lia; done|]. rewrite Z.ones_spec_high by lia.
  rewrite <- (Z.mod_small attr (2 ^ 8)) by lia. by rewrite Z.mod_pow2_bits_high, orb_false_r by lia.
Qed.
End Vga.

(** ** osfmk/x86_64/pic.c *)

Module Pic.

Definition PIC1_CMD : Z := 0x20.
Definition PIC1_DATA : Z := 0x21.
Definition PIC2_CMD : Z := 0xA0.
Definition PIC2_DATA : Z := 0xA1.

(** An 8259: after the first initialisation word on the command port the next
    three words on the data port are the offset of its vectors, the cascade
    and the mode; otherwise the data port is the mask.  [eois] counts the
    non-specific ends of interrupt. *)
Record chip := mkChip { icw : nat; offset : Z; cascade : Z; mode : Z; imr : Z; eois : Z }.

Definition chip_cmd (v : Z) (c : chip) : chip :=
  if v =? 0x11 then mkChip 2 (offset c) (cascade c) (mode c) 0 (eois c)
  else if v =? 0x20 then mkChip (icw c) (offset c) (cascade c) (mode c) (imr c) (eois c + 1)
  else c.
Definition chip_data (v : Z) (c : chip) : chip :=
  match icw c with
  | 2%nat => mkChip 3 v (cascade c) (mode c) (imr c) (eois c)
  | 3%nat => mkChip 4 (offset c) v (mode c) (imr c) (eois c)
  | 4%nat => mkChip 0 (offset c) (cascade c) v (imr c) (eois c)
  | _ => mkChip (icw c) (offset c) (cascade c) (mode c) v (eois c)
  end.

Record pics := mkPics { master : chip; slave : chip }.

Definition outb (port v : Z) (p : pics) : pics :=
  if port =? PIC1_CMD then mkPics (chip_cmd v (master p)) (slave p)
  else if port =? PIC1_DATA then mkPics (chip_data v (master p)) (slave p)
  else if port =? PIC2_CMD then mkPics (master p) (chip_cmd v (slave p))
  else if port =? PIC2_DATA then mkPics (master p) (chip_data v (slave p))
  else p.
Definition inb (port : Z) (p : pics) : Z := if port =? PIC1_DATA then imr (master p) else imr (slave p).

Definition pic_remap (master_offset slave_offset : Z) (p : pics) : pics :=
  let a1 := inb PIC1_DATA p in
  let a2 := inb PIC2_DATA p in
  let p := outb PIC1_CMD 0x11 p in
  let p := outb PIC2_CMD 0x11 p in
  let p := outb PIC1_DATA master_offset p in
  let p := outb PIC2_DATA slave_offset p in
  let p := outb PIC1_DATA 0x04 p in
  let p := outb PIC2_DATA 0x02 p in
  let p := outb PIC1_DATA 0x01 p in
  let p := outb PIC2_DATA 0x01 p in
  let p := outb PIC1_DATA a1 p in
  outb PIC2_DATA a2 p.

Definition pic_enable_irq (irq : Z) (p : pics) : pics :=
  if irq <? 8 then outb PIC1_DATA (u8 (Z.land (inb PIC1_DATA p) (Z.lnot (Z.shiftl 1 irq)))) p
  else outb PIC2_DATA (u8 (Z.land (inb PIC2_DATA p) (Z.lnot (Z.shiftl 1 (irq - 8))))) p.

Definition pic_disable_irq (irq : Z) (p : pics) : pics :=
  let '(port, irq) := if irq <? 8 then (PIC1_DATA, irq) else (PIC2_DATA, u8 (irq - 8)) in
  outb port (u8 (Z.lor (inb port p) (Z.shiftl 1 irq))) p.

Definition pic_send_eoi (irq : Z) (p : pics) : pics :=
  let p := if 8 <=? irq then outb PIC2_CMD 0x20 p else p in outb PIC1_CMD 0x20 p.

Definition pic_init (p : pics) : pics :=
  let p := pic_remap 0x20 0x28 p in
  let p := outb PIC1_DATA 0xFD p in
  outb PIC2_DATA 0xFF p.

(** Whether a line is masked, and whether its interrupts arrive: those of the
    second chip come through line 2 of the first. *)
Definition masked (p : pics) (irq : Z) : bool :=
  if irq <? 8 then Z.testbit (imr (master p)) irq else Z.testbit (imr (slave p)) (irq - 8).
Definition delivered (p : pics) (irq : Z) : bool := negb (masked p irq) && ((irq <? 8) || negb (masked p 2)).

Record pics_ok (p : pics) : Prop :=
  { ok_ops : icw (master p) = 0%nat /\ icw (slave p) = 0%nat;
    ok_masks : 0 <= imr (master p) < 256 /\ 0 <= imr (slave p) < 256 }.

Lemma u8_testbit x i : 0 <= i < 8 -> Z.testbit (u8 x) i = Z.testbit x i.
Proof. intros. unfold u8. by rewrite Z.mod_pow2_bits_low by lia. Qed.

Lemma bit_testbit k i : 0 <= k -> 0 <= i -> Z.testbit (Z.shiftl 1 k) i = bool_decide (i = k).
Proof.
  intros Hk Hi. rewrite Z.shiftl_1_l. destruct (decide (i = k)) as [->|Hne].
  - by rewrite Z.pow2_bits_true, bool_decide_true by lia.
  - by rewrite Z.pow2_bits_false, bool_decide_false by lia.
Qed.

Lemma enable_masked p irq j :
  pics_ok p -> 0 <= irq < 16 -> 0 <= j < 16 -> masked (pic_enable_irq irq p) j = masked p j && negb (bool_decide (j = irq)).
Proof.
  intros [[I1 I2] _] Hi Hj. unfold pic_enable_irq, masked. destruct (Z.ltb_spec irq 8); cbn; unfold chip_data; rewrite ?I1, ?I2; cbn;
    destruct (Z.ltb_spec j 8); try (rewrite bool_decide_false by lia; by rewrite andb_true_r).
  - rewrite u8_testbit, Z.land_spec, Z.lnot_spec, bit_testbit by lia. done.
  - rewrite u8_testbit, Z.land_spec, Z.lnot_spec, bit_testbit by lia. f_equal. f_equal. apply bool_decide_ext. lia.
Qed.

Lemma disable_masked p irq j :
  pics_ok p -> 0 <= irq < 16 -> 0 <= j < 16 -> masked (pic_disable_irq irq p) j = masked p j || bool_decide (j = irq).
Proof.
  intros [[I1 I2] _] Hi Hj. unfold pic_disable_irq, masked. destruct (Z.ltb_spec irq 8); cbn; unfold chip_data; rewrite ?I1, ?I2; cbn;
    destruct (Z.ltb_spec j 8); try (rewrite bool_decide_false by lia; by rewrite orb_false_r).
  - rewrite u8_testbit, Z.lor_spec, bit_testbit by lia. done.
  - rewrite u8_testbit, Z.lor_spec, u8_small, bit_testbit by lia. f_equal. apply bool_decide_ext. lia.
Qed.

Lemma enable_ok p irq : pics_ok p -> pics_ok (pic_enable_irq irq p).
Proof.
  intros [[I1 I2] [M1 M2]]. unfold pic_enable_irq. destruct (irq <? 8); constructor; cbn; unfold chip_data; rewrite ?I1, ?I2; cbn;
    split; try done; ilia.
Qed.

Lemma disable_ok p irq : pics_ok p -> pics_ok (pic_disable_irq irq p).
Proof.
  intros [[I1 I2] [M1 M2]]. unfold pic_disable_irq. destruct (irq <? 8); constructor; cbn; unfold chip_data; rewrite ?I1, ?I2; cbn;
    split; try done; ilia.
Qed.

(** From any state of the two controllers, initialisation moves their
    vectors to 0x20 and 0x28, cascades them, and leaves only line 1 open; from
    then on enabling and disabling a line changes the mask of that line and of
    no other. *)
Theorem pic_lines p :
  let p0 := pic_init p in
  pics_ok p0 /\ offset (master p0) = 0x20 /\ offset (slave p0) = 0x28 /\ cascade (master p0) = 4 /\ cascade (slave p0) = 2 /\
  (forall j, 0 <= j < 16 -> masked p0 j = negb (j =? 1)) /\
  (forall q irq j, pics_ok q -> 0 <= irq < 16 -> 0 <= j < 16 ->
     masked (pic_enable_irq irq q) j = masked q j && negb (bool_decide (j = irq)) /\
     masked (pic_disable_irq irq q) j = masked q j || bool_decide (j = irq)).
Proof.
  assert (pic_init p = mkPics (mkChip 0 0x20 4 1 0xFD (eois (master p))) (mkChip 0 0x28 2 1 0xFF (eois (slave p)))) as -> by done.
  cbn zeta. split_and!; try done.
  - intros j Hj. unfold masked. cbn [imr master slave].
    assert (j = 0 \/ j = 1 \/ j = 2 \/ j = 3 \/ j = 4 \/ j = 5 \/ j = 6 \/ j = 7 \/ j = 8 \/ j = 9 \/ j = 10 \/ j = 11 \/ j = 12 \/ j = 13 \/ j = 14 \/ j = 15)
      as Hcases by lia.
    repeat destruct Hcases as [->|Hcases]; try subst; reflexivity.
  - intros q irq j Hq Hi Hj. by rewrite enable_masked, disable_masked.
Qed.

(** The controllers after the lines of a list were enabled, one after the
    other. *)
Definition enable_all (irqs : list Z) (p : pics) : pics := foldl (fun p irq => pic_enable_irq irq p) p irqs.

(** Nothing but [pic_enable_irq(2)] opens the line through which the second
    controller's interrupts come: enabling one of its lines has no effect. *)
Theorem slave_lines_stay_closed p irqs irq :
  Forall (fun i => 0 <= i < 16 /\ i <> 2) irqs -> 8 <= irq < 16 -> delivered (enable_all irqs (pic_init p)) irq = false.
Proof.
  intros Hirqs Hirq.
  assert (forall q, pics_ok q -> masked q 2 = true -> pics_ok (enable_all irqs q) /\ masked (enable_all irqs q) 2 = true) as H.
  { induction Hirqs as [|i irqs [Hi Hn] _ IH]; intros q Hq Hm; [done|]. cbn. apply IH; [by apply enable_ok|].
    rewrite enable_masked by (done || lia). by rewrite Hm, bool_decide_false by lia. }
  destruct (H (pic_init p)) as [_ Hm]; [|done|].
  - constructor; done.
  - unfold delivered. rewrite Hm. rewrite (proj2 (Z.ltb_ge _ _)) by lia. by rewrite andb_false_r.
Qed.
End Pic.

(** ** osfmk/x86_64/idt.c *)

Module Idt.

Definition IDT_ENTRIES : Z := 256.

Record idt_entry := mkGate
  { offset_low : Z; sel : Z; ist : Z; flags : Z; offset_mid : Z; offset_high : Z; reserved : Z }.

Definition idt_set_gate (num base s f : Z) (idt : list idt_entry) : list idt_entry :=
  <[Z.to_nat (u8 num) := mkGate (Z.land base 0xFFFF) s 0 f (Z.land (Z.shiftr base 16) 0xFFFF) (u32 (Z.shiftr base 32)) 0]> idt.

(** The stubs' addresses. *)
Definition idt_init (exc_handler irq_default : Z -> Z) (idt : list idt_entry) : list idt_entry :=
  let idt := foldl (fun idt i => idt_set_gate i 0 0x08 0 idt) idt (seqZ 0 IDT_ENTRIES) in
  let idt := foldl (fun idt i => idt_set_gate i (exc_handler i) 0x08 0x8E idt) idt (seqZ 0 32) in
  foldl (fun idt i => idt_set_gate (0x20 + i) (irq_default i) 0x08 0x8E idt) idt (seqZ 0 16).

(** Where the processor goes through a gate, and whether it is present. *)
Definition gate_address (g : idt_entry) : Z := offset_low g + 2 ^ 16 * offset_mid g + 2 ^ 32 * offset_high g.
Definition gate_present (g : idt_entry) : bool := Z.testbit (flags g) 7.

Definition gate (base s f : Z) : idt_entry :=
  mkGate (Z.land base 0xFFFF) s 0 f (Z.land (Z.shiftr base 16) 0xFFFF) (u32 (Z.shiftr base 32)) 0.

Lemma gate_address_gate base s f : 0 <= base < 2 ^ 64 -> gate_address (gate base s f) = base.
Proof.
  intros Hb. unfold gate_address, gate. cbn [offset_low offset_mid offset_high]. change 0xFFFF with (Z.ones 16).
  rewrite !Z.land_ones, !Z.shiftr_div_pow2 by lia. unfold u32. pow2_consts. Z.div_mod_to_equations; lia.
Qed.

(** A run of gates. *)
Lemma set_gates_lookup (num base : Z -> Z) s f n a (idt : list idt_entry) v :
  length idt = 256%nat -> (v < 256)%nat -> (forall i, a <= i < a + Z.of_nat n -> 0 <= num i < 256) ->
  (forall i j, num i = num j -> i = j) ->
  let idt' := foldl (fun t i => idt_set_gate (num i) (base i) s f t) idt (seqZ a (Z.of_nat n)) in
  length idt' = 256%nat /\
  ((exists i, a <= i < a + Z.of_nat n /\ num i = Z.of_nat v /\ idt' !! v = Some (gate (base i) s f)) \/
   ((forall i, a <= i < a + Z.of_nat n -> num i <> Z.of_nat v) /\ idt' !! v = idt !! v)).
Proof.
  intros Hl Hv Hnum Hinj. revert a idt Hl Hnum. induction n as [|n IH]; intros a idt Hl Hnum idt'.
  { split; [done|]. right. split; [lia|done]. }
  subst idt'. rewrite seqZ_cons by lia. cbn [foldl]. replace (Z.pred (Z.of_nat (S n))) with (Z.of_nat n) by lia.
  pose proof (Hnum a ltac:(lia)) as Ha. set (idt1 := idt_set_gate (num a) (base a) s f idt).
  assert (idt1 = <[Z.to_nat (num a) := gate (base a) s f]> idt) as E1 by (unfold idt1, idt_set_gate; by rewrite (u8_small (num a)) by lia).
  clearbody idt1. assert (length idt1 = 256%nat) as L1 by (by rewrite E1, length_insert).
  destruct (IH (Z.succ a) idt1 L1 ltac:(intros; apply Hnum; lia)) as [L2 [(i & Hi & En & Hlk)|[Hno Hlk]]]; (split; [exact L2|]).
  - left. exists i. split; [lia|]. done.
  - destruct (decide (num a = Z.of_nat v)) as [Ea|Ea].
    + left. exists a. split; [lia|]. split; [done|]. rewrite Hlk, E1. rewrite Ea, Nat2Z.id. by apply list_lookup_insert_eq; lia.
    + right. split.
      * intros i Hi Ei. destruct (decide (i = a)) as [->|]; [done|]. apply (Hno i); [lia|done].
      * rewrite Hlk, E1. apply list_lookup_insert_ne. lia.
Qed.

(** Initialisation fills the table so that every exception and every
    interrupt line of the two controllers leads, through a present gate of the
    kernel's code segment, to its own stub - the address put together from the
    three pieces is the stub's - and every other vector is not present. *)
Theorem idt_init_vectors exc irq idt v :
  length idt = 256%nat -> (forall i, 0 <= exc i < 2 ^ 64) -> (forall i, 0 <= irq i < 2 ^ 64) -> 0 <= v < 256 ->
  exists g, idt_init exc irq idt !! Z.to_nat v = Some g /\ sel g = 0x08 /\
    gate_present g = (v <? 48) /\ (v < 32 -> gate_address g = exc v) /\ (32 <= v < 48 -> gate_address g = irq (v - 32)).
Proof.
  intros Hl He Hi Hv. unfold idt_init. change IDT_ENTRIES with (Z.of_nat 256). change (seqZ 0 32) with (seqZ 0 (Z.of_nat 32)). change (seqZ 0 16) with (seqZ 0 (Z.of_nat 16)).
  destruct (set_gates_lookup (fun i => i) (fun _ => 0) 0x08 0 256 0 idt (Z.to_nat v) Hl ltac:(lia) ltac:(cbn; lia) ltac:(cbn; lia))
    as [L1 [(i1 & R1 & E1 & H1)|[H1 _]]]; [|destruct (H1 v); lia].
  set (t1 := foldl _ idt _) in *.
  destruct (set_gates_lookup (fun i => i) exc 0x08 0x8E 32 0 t1 (Z.to_nat v) L1 ltac:(lia) ltac:(cbn; lia) ltac:(cbn; lia)) as [L2 H2]. set (t2 := foldl _ t1 _) in *.
  destruct (set_gates_lookup (fun i => 0x20 + i) irq 0x08 0x8E 16 0 t2 (Z.to_nat v) L2 ltac:(lia) ltac:(cbn; lia) ltac:(cbn; lia)) as [_ H3].
  destruct H3 as [(i3 & R3 & E3 & ->)|[N3 ->]].
  { eexists. split; [done|]. split; [done|]. rewrite gate_address_gate by done. split; [symmetry; apply Z.ltb_lt; lia|]. split; [lia|]. intros _. f_equal. lia. }
  destruct H2 as [(i2 & R2 & E2 & ->)|[N2 ->]].
  { eexists. split; [done|]. split; [done|]. rewrite gate_address_gate by done. split; [symmetry; apply Z.ltb_lt; lia|]. split; [|lia]. intros _. f_equal. lia. }
  assert (48 <= v) as Hge.
  { destruct (decide (48 <= v)); [done|]. destruct (decide (v < 32)); [destruct (N2 v); lia|destruct (N3 (v - 32)); lia]. }
  eexists. split; [exact H1|]. split; [done|]. split; [symmetry; by apply Z.ltb_ge|]. split; lia.
Qed.

Lemma idt_init_vectors_witness :
  exists g, idt_init (fun i => 0x100000 + i mod 256) (fun i => 0x200000 + i mod 256) (replicate 256 (gate 0 0 0)) !! Z.to_nat 14 = Some g /\ sel g = 0x08 /\
    gate_present g = (14 <? 48) /\ (14 < 32 -> gate_address g = 0x100000 + 14 mod 256) /\ (32 <= 14 < 48 -> gate_address g = 0x200000 + (14 - 32) mod 256).
Proof.
  apply (idt_init_vectors (fun i => 0x100000 + i mod 256) (fun i => 0x200000 + i mod 256) (replicate 256 (gate 0 0 0)) 14).
  - by rewrite length_replicate.
  - intros i. pose proof (Z.mod_pos_bound i 256 ltac:(lia)). lia.
  - intros i. pose proof (Z.mod_pos_bound i 256 ltac:(lia)). lia.
  - lia.
Defined.
End Idt.

(** ** osfmk/x86_64: tsc.c and pit.c *)

Module Clock.

Definition PIT_BASE_FREQ : Z := 1193182.

(** Division by zero is a fault. *)
Definition udiv (a b : Z) : run Z := if b =? 0 then Fault else Ret (a / b).

(** [g_tsc_freq], [g_pit_hz], the reload value of the timer chip, and how often
    its port and the two counters were read. *)
Record clock := mkClock { g_tsc_freq : Z; g_pit_hz : Z; reload : Z; g_pit_ticks : Z; port_reads : Z; tsc_reads : Z; tick_reads : Z }.
Definition set_freq (f : Z) (s : clock) : clock := mkClock f (g_pit_hz s) (reload s) (g_pit_ticks s) (port_reads s) (tsc_reads s) (tick_reads s).

Section Hardware.
(** The bytes read from the timer's port, the time stamps, and the tick counter
    that the interrupt advances, at each read. *)
Context (ch0 tsc ticks : Z -> Z).

Definition tsc_rdtsc_raw (s : clock) : Z * clock :=
  (u64 (tsc (tsc_reads s)), mkClock (g_tsc_freq s) (g_pit_hz s) (reload s) (g_pit_ticks s) (port_reads s) (tsc_reads s + 1) (tick_reads s)).

Definition pit_read_count (s : clock) : Z * clock :=
  let n := port_reads s in
  (Z.lor (u8 (ch0 n)) (Z.shiftl (u8 (ch0 (n + 1))) 8),
   mkClock (g_tsc_freq s) (g_pit_hz s) (reload s) (g_pit_ticks s) (n + 2) (tsc_reads s) (tick_reads s)).

Definition tsc_disable (s : clock) : clock := set_freq 0 s.

Definition tsc_calibrate (s : clock) : run clock :=
  '(start_count, s) ← loop (fun s =>
     let '(c, s) := pit_read_count s in if 0xFFF0 <? c then Ret (inl s) else Ret (inr (c, s))) s;
  let '(start_tsc, s) := tsc_rdtsc_raw s in
  s ← loop (fun s => let '(c, s) := pit_read_count s in if negb (c =? 0) then Ret (inl s) else Ret (inr s)) s;
  let '(end_tsc, s) := tsc_rdtsc_raw s in
  f ← udiv (u64 (u64 (end_tsc - start_tsc) * PIT_BASE_FREQ)) start_count;
  Ret (set_freq f s).

Definition tsc_rdtsc (s : clock) : Z * clock := tsc_rdtsc_raw s.
Definition tsc_mhz (s : clock) : Z := u32 (g_tsc_freq s / 1000000).
Definition tsc_ghz (s : clock) : Z := u32 (g_tsc_freq s / 1000000000).

Definition tsc_us (s : clock) : run (Z * clock) :=
  if g_tsc_freq s =? 0 then Ret (0, s) else let '(t, s) := tsc_rdtsc_raw s in q ← udiv t (g_tsc_freq s / 1000000); Ret (q, s).
Definition tsc_ms (s : clock) : run (Z * clock) :=
  if g_tsc_freq s =? 0 then Ret (0, s) else let '(t, s) := tsc_rdtsc_raw s in q ← udiv t (g_tsc_freq s / 1000); Ret (q, s).
Definition tsc_ns (s : clock) : run (Z * clock) :=
  if g_tsc_freq s =? 0 then Ret (0, s)
  else let '(t, s) := tsc_rdtsc_raw s in q ← udiv (u64 (t * 1000000000)) (g_tsc_freq s); Ret (q, s).

(** The milliseconds it logs. *)
Definition tsc_task_end (start : Z) (s : clock) : run (Z * clock) :=
  let '(end_, s) := tsc_rdtsc_raw s in
  q ← udiv (u64 (end_ - start)) (g_tsc_freq s / 1000);
  Ret (u32 q, s).

(** pit.c: the two bytes the chip gets make its reload value. *)
Definition pit_set_freq (hz : Z) (s : clock) : run clock :=
  divisor ← udiv PIT_BASE_FREQ hz;
  Ret (mkClock (g_tsc_freq s) hz (u8 (Z.land divisor 0xFF) + 256 * u8 (Z.land (Z.shiftr divisor 8) 0xFF)) (g_pit_ticks s)
         (port_reads s) (tsc_reads s) (tick_reads s)).

Definition pit_init (hz : Z) (s : clock) : run clock :=
  pit_set_freq hz (mkClock (g_tsc_freq s) (g_pit_hz s) (reload s) 0 (port_reads s) (tsc_reads s) (tick_reads s)).

Definition read_ticks (s : clock) : Z * clock :=
  (u32 (ticks (tick_reads s)), mkClock (g_tsc_freq s) (g_pit_hz s) (reload s) (g_pit_ticks s) (port_reads s) (tsc_reads s) (tick_reads s + 1)).

Definition pit_sleep (ms : Z) (s : clock) : run clock :=
  let '(start, s) := read_ticks s in
  let n := u32 (ms * g_pit_hz s) / 1000 in
  loop (fun s => let '(t, s) := read_ticks s in if u32 (t - start) <? n then Ret (inl s) else Ret (inr s)) s.

(** ** Sleeping *)

(** [pit_sleep] returns as soon as the counter, also when it wraps around, is
    far enough from where it started. *)
Lemma pit_sleep_returns ms s k :
  0 < k < 2 ^ 60 -> u32 (ms * g_pit_hz s) / 1000 <= u32 (u32 (ticks (tick_reads s + k)) - u32 (ticks (tick_reads s))) ->
  exists s', pit_sleep ms s = Ret s' /\ tick_reads s < tick_reads s' <= tick_reads s + k + 1 /\
    u32 (ms * g_pit_hz s) / 1000 <= u32 (u32 (ticks (tick_reads s' - 1)) - u32 (ticks (tick_reads s))).
Proof.
  intros Hk Hend. unfold pit_sleep, read_ticks at 1. cbn [fst snd g_pit_hz]. set (start := u32 (ticks (tick_reads s))) in *.
  set (n := u32 (ms * g_pit_hz s) / 1000) in *.
  loop_with (fun s1 => tick_reads s < tick_reads s1 <= tick_reads s + k)
    (fun s' => tick_reads s < tick_reads s' <= tick_reads s + k + 1 /\ n <= u32 (u32 (ticks (tick_reads s' - 1)) - start))
    (fun s1 => tick_reads s + k - tick_reads s1) as (s' & -> & Hs'); [..|eauto].
  - intros s1 Hs1. unfold read_ticks. cbn [fst snd]. destruct (Z.ltb_spec (u32 (u32 (ticks (tick_reads s1)) - start)) n) as [Hlt|Hge].
    + left. eexists. split; [done|]. cbn. assert (tick_reads s1 <> tick_reads s + k) by (intros E; rewrite E in Hlt; lia). lia.
    + right. eexists. split; [done|]. cbn. replace (tick_reads s1 + 1 - 1) with (tick_reads s1) by lia. lia.
  - cbn. lia.
  - cbn. lia.
Qed.

(** ** Where the arithmetic is right, and where it is not *)

(** The chip gets the divisor for the frequencies it can make. *)
Theorem pit_set_freq_reload hz s : 19 <= hz <= PIT_BASE_FREQ -> exists s', pit_set_freq hz s = Ret s' /\ reload s' = PIT_BASE_FREQ / hz.
Proof.
  intros Hhz. unfold pit_set_freq, udiv. rewrite (proj2 (Z.eqb_neq _ _)) by lia. rewrite bind_ret. eexists. split; [done|]. cbn [reload].
  assert (0 <= PIT_BASE_FREQ / hz < 2 ^ 16) as Hd.
  { unfold PIT_BASE_FREQ in *. split; [apply Z.div_pos; lia|]. apply Z.div_lt_upper_bound; lia. }
  set (d := PIT_BASE_FREQ / hz) in *. change 0xFF with (Z.ones 8). rewrite !Z.land_ones, Z.shiftr_div_pow2 by lia. unfold u8.
  rewrite !Z.mod_mod by lia. change (2 ^ 8) with 256 in *. Z.div_mod_to_equations; lia.
Qed.

(** Below 19 Hz the divisor does not fit, and the timer runs at another rate. *)
Theorem pit_set_freq_too_slow s : (s' ← pit_set_freq 18 s; Ret (reload s')) = Ret 751.
Proof. vm_compute. done. Qed.
End Hardware.

(** C39: The milliseconds reported for [t] ticks at [f] ticks a second, [f] at
    least a thousand, are never too few, and too many by at most the factor
    [f / (f - 999)] that cutting the rate to whole kilohertz costs. *)
Theorem tsc_ms_accurate tsc s :
  1000 <= g_tsc_freq s ->
  let t := u64 (tsc (tsc_reads s)) in
  exists q s', tsc_ms tsc s = Ret (q, s') /\ 1000 * t / g_tsc_freq s <= q /\ q * (g_tsc_freq s - 999) <= 1000 * t.
Proof.
  intros Hf t. unfold tsc_ms. rewrite (proj2 (Z.eqb_neq _ _)) by lia. cbn [tsc_rdtsc_raw fst snd g_tsc_freq]. unfold udiv.
  set (f := g_tsc_freq s) in *. set (d := f / 1000). assert (1000 * d <= f < 1000 * d + 1000) as Hd by (subst d; Z.div_mod_to_equations; lia).
  rewrite (proj2 (Z.eqb_neq d 0)) by lia. rewrite bind_ret. fold t. eexists _, _. split; [done|].
  assert (0 <= t) as Ht by (subst t; ilia). pose proof (Z.div_mod t d ltac:(lia)) as Hq. pose proof (Z.mod_pos_bound t d ltac:(lia)) as Hr.
  assert (0 <= t / d) by (apply Z.div_pos; lia). set (q := t / d) in *. clearbody q. split; [|nia].
  apply Z.lt_succ_r, Z.div_lt_upper_bound; nia.
Qed.

Lemma tsc_ms_accurate_witness :
  let t := u64 7000000 in
  exists q s', tsc_ms (fun _ => 7000000) (mkClock 2400000 100 0 0 0 0 0) = Ret (q, s') /\ 1000 * t / 2400000 <= q /\ q * (2400000 - 999) <= 1000 * t.
Proof. apply (tsc_ms_accurate (fun _ => 7000000) (mkClock 2400000 100 0 0 0 0 0)). cbn. lia. Defined.

(** Nanoseconds wrap: at one gigahertz the clock falls back to 0 after 18
    seconds. *)
Theorem tsc_ns_falls_back :
  let at_ (t : Z) := r ← tsc_ns (fun _ => t) (mkClock 1000000000 0 0 0 0 0 0); Ret r.1 in
  at_ 18446744073 = Ret 18446744073 /\ at_ 18446744074 = Ret 0.
Proof. vm_compute. done. Qed.

(** After the time base was frozen, or for a processor below a kilohertz, the
    end of a measurement divides by zero. *)
Theorem tsc_task_end_faults tsc start s : tsc_task_end tsc start (tsc_disable s) = Fault.
Proof. done. Qed.
End Clock.
