(* ===== verification/Loader.v ===== *)
(** * pexpert/x86_64/loader_config.c: console, splash screen and countdown

    The console of the pre-boot environment: characters on the frame buffer when
    there is one and on the text screen otherwise, with a cursor of its own; the
    splash screen; the countdown to the boot, and what follows it.  The boot
    arguments and the shell's commands are in Boot.v.  Shown: whatever is
    printed, the console stays on the screen; the countdown ends, with a boot
    only when the time is over and no key was seen, and with the shell only for
    a key; and what it shows when a second passes between two looks. *)

From S2P Require Import Prelude Boot Fb Font Platform.
Import Platform.Vga.

Definition FONT_W : Z := 9.
Definition FONT_H : Z := 8.
Definition LCLR_BG : Z := 0x00101218.
Definition LCLR_FG : Z := 0x00E8E8ED.
Definition LCLR_DIM : Z := 0x008E8E93.
Definition LCLR_ACCENT : Z := 0x000A84FF.
Definition LOADER_BOOT_DELAY_S : Z := 5.

(** [disp]: the frame buffer; [text]: the text screen. *)
Record loader := mkLoader
  { fb_console : bool; lrow : Z; lcol : Z; lcols : Z; lrows : Z; lfg : Z; lbg : Z; fonts : fontstate; disp : fbstate; text : vga }.
Definition at_cell (r c : Z) (s : loader) : loader := mkLoader (fb_console s) r c (lcols s) (lrows s) (lfg s) (lbg s) (fonts s) (disp s) (text s).
Definition set_disp (d : fbstate) (s : loader) : loader := mkLoader (fb_console s) (lrow s) (lcol s) (lcols s) (lrows s) (lfg s) (lbg s) (fonts s) d (text s).
Definition set_text (t : vga) (s : loader) : loader := mkLoader (fb_console s) (lrow s) (lcol s) (lcols s) (lrows s) (lfg s) (lbg s) (fonts s) (disp s) t.
Definition set_fg (c : Z) (s : loader) : loader := mkLoader (fb_console s) (lrow s) (lcol s) (lcols s) (lrows s) c (lbg s) (fonts s) (disp s) (text s).

Section Output.
(** The memory that glyph pointers lead to, and the serial line's status. *)
Context (low_mem lsr : Z -> Z).

(** A glyph at the cursor. *)
Definition put_glyph (c : Z) (s : loader) : run loader :=
  d ← font_draw_glyph low_mem (u32 (lcol s * FONT_W)) (u32 (lrow s * FONT_H)) c (lfg s) (lbg s) (fonts s) (disp s);
  Ret (set_disp d s).

(** [c] is a signed character. *)
Definition lputc (c : Z) (s : loader) : run loader :=
  if negb (fb_console s) then t ← (if c =? 8 then vga_backspace (text s) else vga_putchar lsr c (text s)); Ret (set_text t s)
  else if c =? 8 then (if 0 <? lcol s then put_glyph 32 (at_cell (lrow s) (lcol s - 1) s) else Ret s)
  else
    s ← (if c =? 10 then Ret (at_cell (u32 (lrow s + 1)) 0 s)
         else if c =? 13 then Ret (at_cell (lrow s) 0 s)
         else if (0x20 <=? c) && (c <? 0x7F) then s ← put_glyph c s; Ret (at_cell (lrow s) (u32 (lcol s + 1)) s)
         else Ret s);
    let s := if lcols s <=? lcol s then at_cell (u32 (lrow s + 1)) 0 s else s in
    if lrows s <=? lrow s then
      d ← framebuffer_scroll_up FONT_H (disp s); Ret (at_cell (u32 (lrows s - 1)) (lcol s) (set_disp d s))
    else Ret s.

Fixpoint lputs (str : list Z) (s : loader) : run loader :=
  match str with
  | [] => Ret s
  | c :: str => if c =? 0 then Ret s else s ← lputc c s; lputs str s
  end.

(** [lprintf] of a text before and behind a string: at most 511 characters. *)
Definition lprint_args (before args after : list Z) (s : loader) : run loader := lputs (take 511 (before ++ args ++ after)) s.

Definition lcenter (str : list Z) (s : loader) : run loader :=
  let len := Z.of_nat (length str) in
  s ← lputs str (at_cell (lrow s) (if len <? lcols s then (lcols s - len) / 2 else 0) s);
  lputc 10 s.

Definition none_or (args : list Z) : list Z := if bool_decide (args = []) then str "(none)" else args.

Definition draw_splash (args : list Z) (s : loader) : run loader :=
  if negb (fb_console s) then
    s ← lputs [10] s;
    s ← lputs (replicate 62 61 ++ [10]) s;
    s ← lputs (str "   XKERN LOADER :: pre-boot configuration environment" ++ [10]) s;
    s ← lputs (replicate 62 61 ++ [10]) s;
    s ← lprint_args (str "   boot-args: ") (none_or args) [10] s;
    lputs [10] s
  else
    d ← framebuffer_clear LCLR_BG (disp s);
    d ← framebuffer_fill_rect 0 (u32 (u32 (lrows s * FONT_H) / 3 - 8)) (u32 (lcols s * FONT_W)) 2 LCLR_ACCENT d;
    let s := at_cell (lrows s / 3) (lcol s) (set_disp d s) in
    s ← lcenter (str "XKERN LOADER") (set_fg LCLR_ACCENT s);
    s ← lcenter (str "pre-boot configuration environment") (set_fg LCLR_DIM s);
    s ← lputc 10 (set_fg LCLR_FG s);
    s ← lprint_args (str "  boot-args: ") (none_or args) [10] s;
    d ← framebuffer_flush (disp s);
    Ret (set_disp d s).
End Output.

(** ** Countdown *)

Section Countdown.
(** What the keyboard returns at each call, and the ticks at each look. *)
Context (key ticks : Z -> Z).

(** One round: the numbers of calls and looks, the number on the screen, and
    those shown so far. *)
Definition count_round (deadline : Z) (st : Z * Z * Z * list Z) : run (Z * Z * Z * list Z + Z * list Z) :=
  let '(i, n, last, out) := st in
  if 0 <=? key i then Ret (inr (0, out))
  else
    let remaining := s32 (u32 (deadline - u32 (ticks n)) / 1000) + 1 in
    let '(last, out) := if negb (remaining =? last) then (remaining, out ++ [if 0 <? remaining then remaining else 0]) else (last, out) in
    if s32 (u32 (deadline - u32 (ticks (n + 1)))) <=? 0 then Ret (inr (1, out)) else Ret (inl (i + 1, n + 2, last, out)).

Definition countdown (seconds : Z) : run (Z * list Z) :=
  loop (count_round (u32 (u32 (ticks 0) + u32 (u32 seconds * 1000)))) (0, 1, -1, []).

(** The end of [loader_main]: [input] is typed into the shell. *)
Definition loader_main (fuel : nat) (input : list Z) (g : boot_config) : run (action * boot_config) :=
  '(r, _) ← countdown LOADER_BOOT_DELAY_S;
  if r =? 0 then loader_shell fuel input g else Ret (BootKernel, boot_kernel g).
End Countdown.

(** ** The console stays on the screen *)

Record loader_ok (s : loader) : Prop :=
  { lk_fb : fb_console s = true;
    lk_display : display_ok (disp s);
    lk_font : active (fonts s) = FONT_9X8;
    lk_cols : lcols s = width (fb (disp s)) / FONT_W;
    lk_rows : lrows s = height (fb (disp s)) / FONT_H;
    lk_col : 0 <= lcol s < lcols s;
    lk_row : 0 <= lrow s < lrows s;
    lk_fg : 0 <= lfg s < 2 ^ 24;
    lk_bg : 0 <= lbg s < 2 ^ 24 }.

Section Safe.
Context (low_mem lsr : Z -> Z).

Lemma loader_moved s d r c :
  loader_ok s -> display_ok d -> fmt d = fmt (disp s) -> 0 <= r < lrows s -> 0 <= c < lcols s -> loader_ok (at_cell r c (set_disp d s)).
Proof. intros [] Hd Hf Hr Hc. destruct (fmt_sizes _ _ Hf) as (Ef & _). constructor; cbn; rewrite ?Ef; done. Qed.

Lemma sizes_small s : loader_ok s -> lcols s * FONT_W <= width (fb (disp s)) < 2 ^ 32 /\ lrows s * FONT_H <= height (fb (disp s)) /\ height (fb (disp s)) < 2 ^ 31.
Proof.
  intros [_ Hd _ Ec Er _ _ _ _]. pose proof (ok_height _ (dp_ok _ Hd)). pose proof (width_small _ (dp_ok _ Hd)). rewrite Ec, Er. unfold FONT_W, FONT_H.
  pose proof (Z.mul_div_le (width (fb (disp s))) 9 ltac:(lia)). pose proof (Z.mul_div_le (height (fb (disp s))) 8 ltac:(lia)). lia.
Qed.

(** A glyph lies in its cell of the screen. *)
Lemma put_glyph_spec c s :
  loader_ok s -> printable c = true -> exists d, put_glyph low_mem c s = Ret (set_disp d s) /\ display_ok d /\ fmt d = fmt (disp s).
Proof.
  intros Hk Hc. destruct (sizes_small s Hk) as (Hw & Hh & Hh'). destruct Hk as [_ Hd Hf _ _ Hx Hy Hfg Hbg]. unfold FONT_W, FONT_H in *.
  assert (font_ok (fonts s)) as Ht by (unfold font_ok; rewrite Hf; done). destruct (glyph_ok (fonts s) c Ht Hc) as (p & Ep & _).
  unfold put_glyph, font_draw_glyph. rewrite not_printable, Hc, Ep. cbn [negb]. rewrite bind_ret, (proj2 (Z.eqb_neq (lbg s) _)) by lia. unfold FONT_W, FONT_H. rewrite !u32_small by lia.
  pose proof (font_sizes (fonts s) Ht) as (_ & _ & Hfh). assert (font_h (font_of (active (fonts s))) = 8) as E8 by (by rewrite Hf).
  destruct (draw_glyph_rows low_mem (font_of (active (fonts s))) p (lcol s * 9) (lrow s * 8) (lfg s) (lbg s) (disp s) (dp_ok _ Hd)) as (d & -> & D); try done; [lia..|]. rewrite bind_ret.
  exists d. split; [done|]. split; [by eapply drawn_display|exact (dr_fmt _ _ _ _ D)].
Qed.

(** Wrapping and scrolling after a character. *)
Lemma lputc_tail s r c d :
  loader_ok s -> display_ok d -> fmt d = fmt (disp s) -> 0 <= r <= lrows s -> 0 <= c <= lcols s -> (r = lrows s -> c < lcols s) ->
  exists s', (let s := at_cell r c (set_disp d s) in let s := if lcols s <=? lcol s then at_cell (u32 (lrow s + 1)) 0 s else s in
     if lrows s <=? lrow s then d ← framebuffer_scroll_up FONT_H (disp s); Ret (at_cell (u32 (lrows s - 1)) (lcol s) (set_disp d s)) else Ret s) = Ret s' /\
    loader_ok s' /\ fmt (disp s') = fmt (disp s) /\ lcols s' = lcols s /\ lrows s' = lrows s.
Proof.
  intros Hk Hd Hf Hr Hc Hrc. destruct (sizes_small s Hk) as (_ & Hh & Hh'). unfold FONT_H in *. pose proof (lk_row _ Hk). pose proof (lk_col _ Hk). destruct (fmt_sizes _ _ Hf) as (Ef & _).
  set (r1 := if lcols s <=? c then r + 1 else r). set (c1 := if lcols s <=? c then 0 else c).
  assert (0 <= c1 < lcols s /\ 0 <= r1 <= lrows s) as [Hc1 Hr1] by (subst r1 c1; destruct (Z.leb_spec (lcols s) c); lia).
  cbn zeta. cbn [lcols lcol at_cell set_disp lrow]. replace (if lcols s <=? c then _ else _) with (at_cell r1 c1 (set_disp d s)); [|subst r1 c1; destruct (Z.leb_spec (lcols s) c); [rewrite u32_small by lia|]; done].
  cbn [lrows lrow at_cell set_disp disp lcol]. destruct (Z.leb_spec (lrows s) r1).
  - destruct (scroll_spec d 8 Hd) as (d' & -> & Hd' & Hf' & _); [rewrite Ef; lia|]. rewrite bind_ret, u32_small by lia. eexists. split; [done|].
    split; [|split; [cbn; congruence|done]]. change (loader_ok (at_cell (lrows s - 1) c1 (set_disp d' s))). apply (loader_moved s); try done; [congruence|lia].
  - eexists. split; [done|]. split; [by apply loader_moved; try lia|done].
Qed.

Lemma lputc_spec c s :
  loader_ok s -> exists s', lputc low_mem lsr c s = Ret s' /\ loader_ok s' /\ fmt (disp s') = fmt (disp s) /\ lcols s' = lcols s /\ lrows s' = lrows s.
Proof.
  intros Hk. pose proof (lk_row _ Hk) as Hr. pose proof (lk_col _ Hk) as Hc. destruct (sizes_small s Hk) as (Hw & Hh & Hh'). unfold FONT_W, FONT_H in *.
  assert (forall r c, at_cell r c s = at_cell r c (set_disp (disp s) s)) as Hid by done. assert (s = at_cell (lrow s) (lcol s) (set_disp (disp s) s)) as Hs by (by destruct s).
  pose proof (lk_display _ Hk) as Hd. unfold lputc. rewrite (lk_fb _ Hk). cbn [negb]. destruct (c =? 8).
  { destruct (Z.ltb_spec 0 (lcol s)); [|by exists s]. assert (loader_ok (at_cell (lrow s) (lcol s - 1) s)) as Hk1 by (rewrite Hid; apply loader_moved; try done; lia).
    destruct (put_glyph_spec 32 _ Hk1 eq_refl) as (d & -> & Hd' & Hf). eexists. split; [done|]. split; [|done]. change (loader_ok (at_cell (lrow s) (lcol s - 1) (set_disp d s))). apply (loader_moved s); try done; lia. }
  destruct (c =? 10). { rewrite bind_ret, u32_small, Hid by lia. apply lputc_tail; try done; lia. }
  destruct (c =? 13). { rewrite bind_ret, Hid. apply lputc_tail; try done; lia. }
  destruct (Z.leb_spec 0x20 c), (Z.ltb_spec c 0x7F); cbn [andb]; [|rewrite bind_ret, Hs; apply (lputc_tail s); try done; lia..].
  destruct (put_glyph_spec c s Hk) as (d & -> & Hd' & Hf); [unfold printable; rewrite u8_small by lia; apply andb_true_iff; split; apply Z.leb_le; lia|].
  rewrite !bind_ret. cbn [lrow lcol set_disp]. rewrite u32_small by lia. apply (lputc_tail s); try done; lia.
Qed.

Lemma lputs_spec str s :
  loader_ok s -> exists s', lputs low_mem lsr str s = Ret s' /\ loader_ok s' /\ fmt (disp s') = fmt (disp s) /\ lcols s' = lcols s /\ lrows s' = lrows s.
Proof.
  revert s. induction str as [|c str IH]; intros s Hk; cbn [lputs]; [by exists s|]. destruct (c =? 0); [by exists s|].
  destruct (lputc_spec c s Hk) as (s1 & -> & Hk1 & F1 & C1 & R1). rewrite bind_ret. destruct (IH s1 Hk1) as (s2 & -> & Hk2 & F2 & C2 & R2). exists s2. split_and!; try done; congruence.
Qed.

Lemma lcenter_spec str s : loader_ok s -> exists s', lcenter low_mem lsr str s = Ret s' /\ loader_ok s'.
Proof.
  intros Hk. pose proof (lk_row _ Hk). pose proof (lk_col _ Hk). unfold lcenter. set (c := if _ <? _ then _ else _).
  assert (0 <= c < lcols s) as Hc by (subst c; destruct (Z.ltb_spec (Z.of_nat (length str)) (lcols s)); Z.div_mod_to_equations; lia).
  destruct (lputs_spec str (at_cell (lrow s) c s)) as (s1 & -> & Hk1 & _).
  { assert (at_cell (lrow s) c s = at_cell (lrow s) c (set_disp (disp s) s)) as -> by done. by apply loader_moved; [done|apply Hk|done..]. }
  rewrite bind_ret. destruct (lputc_spec 10 s1 Hk1) as (s2 & -> & Hk2 & _). by exists s2.
Qed.

Lemma set_fg_ok c s : loader_ok s -> 0 <= c < 2 ^ 24 -> loader_ok (set_fg c s).
Proof. intros [] Hc. by constructor. Qed.

Lemma clear_ok color d : display_ok d -> exists d', framebuffer_clear color d = Ret d' /\ display_ok d' /\ fmt d' = fmt d.
Proof.
  intros Hd. pose proof (ok_width _ (dp_ok _ Hd)). pose proof (ok_height _ (dp_ok _ Hd)). unfold framebuffer_clear.
  destruct (fill_rect_drawn d 0 0 (width (fb d)) (height (fb d)) color (dp_ok _ Hd)) as (d1 & -> & D); [lia..|]. rewrite bind_ret. pose proof (drawn_display _ _ _ _ Hd D) as Hd1.
  destruct (flush_spec d1 (dp_ok _ Hd1)) as (d2 & -> & F). destruct (flushed_display _ _ Hd1 F). exists d2. split_and!; try done. rewrite (fl_fmt _ _ F). exact (dr_fmt _ _ _ _ D).
Qed.

(** Whatever the boot arguments are, and however small the screen is, as long as
    it has a cell, the splash screen is drawn within it and the console can go
    on. *)
Theorem splash_safe args s : loader_ok s -> exists s', draw_splash low_mem lsr args s = Ret s' /\ loader_ok s'.
Proof.
  intros Hk. unfold draw_splash. rewrite (lk_fb _ Hk). cbn [negb]. pose proof (lk_row _ Hk) as Hr. pose proof (lk_col _ Hk) as Hc.
  destruct (clear_ok LCLR_BG (disp s) (lk_display _ Hk)) as (d1 & -> & Hd1 & F1). rewrite bind_ret.
  destruct (fill_rect_drawn d1 0 (u32 (u32 (lrows s * FONT_H) / 3 - 8)) (u32 (lcols s * FONT_W)) 2 LCLR_ACCENT (dp_ok _ Hd1)) as (d2 & -> & D2); [lia|apply u32_range|apply u32_range|lia|]. rewrite bind_ret.
  pose proof (drawn_display _ _ _ _ Hd1 D2) as Hd2. assert (fmt d2 = fmt (disp s)) as F2 by (rewrite (dr_fmt _ _ _ _ D2); done).
  pose proof (loader_moved s d2 (lrows s / 3) (lcol s) Hk Hd2 F2 ltac:(Z.div_mod_to_equations; lia) Hc) as K0. cbn zeta. cbn [lrows lcol set_disp].
  destruct (lcenter_spec (str "XKERN LOADER") _ (set_fg_ok LCLR_ACCENT _ K0 ltac:(done))) as (s1 & -> & K1). rewrite bind_ret.
  destruct (lcenter_spec (str "pre-boot configuration environment") _ (set_fg_ok LCLR_DIM _ K1 ltac:(done))) as (s2 & -> & K2). rewrite bind_ret.
  destruct (lputc_spec 10 _ (set_fg_ok LCLR_FG _ K2 ltac:(done))) as (s3 & -> & K3 & _). rewrite bind_ret. unfold lprint_args.
  destruct (lputs_spec (take 511 (str "  boot-args: " ++ none_or args ++ [10])) s3 K3) as (s4 & -> & K4 & _). rewrite bind_ret.
  destruct (flush_spec (disp s4) (dp_ok _ (lk_display _ K4))) as (d5 & -> & F5). rewrite bind_ret. eexists. split; [done|].
  assert (set_disp d5 s4 = at_cell (lrow s4) (lcol s4) (set_disp d5 s4)) as -> by done. apply loader_moved; try done; [|exact (fl_fmt _ _ F5)|apply K4|apply K4].
  by destruct (flushed_display _ _ (lk_display _ K4) F5).
Qed.
End Safe.

(** ** The countdown ends *)

Section Ends.
Context (key T : Z -> Z).
(** Ticks are milliseconds that pass: never back, less than twelve days from one
    look to the next, and one at least in 2^30 looks. *)
Hypothesis ticks_mono : forall n, 0 <= n -> T n <= T (n + 1) < T n + 2 ^ 30.
Hypothesis ticks_pass : forall n, 0 <= n -> exists k, 0 <= k < 2 ^ 30 /\ T n < T (n + k).

Lemma ticks_le n m : 0 <= n <= m -> T n <= T m.
Proof.
  intros Hn. replace m with (n + Z.of_nat (Z.to_nat (m - n))) by lia. induction (Z.to_nat (m - n)) as [|k IH]; [by rewrite Z.add_0_r|].
  pose proof (ticks_mono (n + Z.of_nat k) ltac:(lia)). replace (n + Z.of_nat (S k)) with (n + Z.of_nat k + 1) by lia. lia.
Qed.

(** After [m] milliseconds' worth of looks. *)
Lemma ticks_reach m : exists k, 0 <= k <= Z.of_nat m * 2 ^ 30 /\ T 0 + Z.of_nat m <= T k.
Proof.
  induction m as [|m (k & Hk & IH)]; [exists 0; lia|]. destruct (ticks_pass k ltac:(lia)) as (j & Hj & Hp). exists (k + j). lia.
Qed.

Lemma time_left E n : - 2 ^ 31 <= E - T n < 2 ^ 31 -> s32 (u32 (u32 E - u32 (T n))) = E - T n.
Proof. intros H. rewrite <- (s32_small (E - T n)) by done. unfold s32, u32. Z.div_mod_to_equations. lia. Qed.

(** The kernel is booted only when the time is over and no key was seen before;
    the shell is entered only for a key that came in time. *)
Theorem countdown_ends seconds :
  0 <= seconds -> seconds * 1000 < 2 ^ 30 ->
  exists r out, countdown key T seconds = Ret (r, out) /\
    ((r = 1 /\ exists i, 0 <= i /\ T 0 + seconds * 1000 <= T (2 * i + 2) /\ forall j, 0 <= j <= i -> key j < 0) \/
     (r = 0 /\ exists i, 0 <= i /\ 0 <= key i /\ forall j, 0 <= j < i -> key j < 0 /\ T (2 * j + 2) < T 0 + seconds * 1000)).
Proof.
  intros Hs Hs'. unfold countdown. set (E := T 0 + seconds * 1000). assert (u32 (u32 (T 0) + u32 (u32 seconds * 1000)) = u32 E) as ->.
  { rewrite (u32_small seconds), (u32_small (seconds * 1000)) by lia. unfold E, u32. by rewrite Zplus_mod_idemp_l. }
  destruct (ticks_reach (Z.to_nat (seconds * 1000))) as (N & HN & HTN).
  loop_with (fun '(i, n, last, out) => 0 <= i /\ n = 2 * i + 1 /\ T (2 * i) <= E /\ forall j, 0 <= j < i -> key j < 0 /\ T (2 * j + 2) < E)
    (fun '(r, out) => (r = 1 /\ exists i, 0 <= i /\ E <= T (2 * i + 2) /\ forall j, 0 <= j <= i -> key j < 0) \/ (r = 0 /\ exists i, 0 <= i /\ 0 <= key i /\ forall j, 0 <= j < i -> key j < 0 /\ T (2 * j + 2) < E))
    (fun '(i, n, last, out) => Z.max 0 (N - n)) as ([r out] & -> & H); [| | |by exists r, out].
  - intros [[[i n] last] out] (Hi & -> & HT & Hj). unfold count_round. destruct (Z.leb_spec 0 (key i)) as [Hk|Hk].
    { right. eexists (_, _). split; [done|]. right. split; [done|]. by exists i. }
    set (rem := s32 (_ / 1000) + 1). destruct (if negb (rem =? last) then _ else _) as [last' out'].
    pose proof (ticks_mono (2 * i) ltac:(lia)). pose proof (ticks_mono (2 * i + 1) ltac:(lia)). pose proof (ticks_le 0 (2 * i + 2) ltac:(lia)) as Hle. replace (2 * i + 1 + 1) with (2 * i + 2) in * by lia.
    rewrite time_left by (unfold E in *; lia). destruct (Z.leb_spec (E - T (2 * i + 2)) 0) as [Hd|Hd].
    + right. eexists (_, _). split; [done|]. left. split; [done|]. exists i. split; [done|]. split; [lia|]. intros j Hji. destruct (decide (j = i)) as [->|]; [done|]. apply Hj. lia.
    + left. eexists (_, _, _, _). split; [done|]. split.
      * split; [lia|]. split; [lia|]. replace (2 * (i + 1)) with (2 * i + 2) by lia. split; [lia|]. intros j Hji. destruct (decide (j = i)) as [->|]; [split; [done|lia]|]. apply Hj. lia.
      * assert (2 * i + 2 < N); [|lia]. apply Z.nle_gt. intros Hge. pose proof (ticks_le N (2 * i + 2) ltac:(lia)). unfold E in *. lia.
  - split; [lia|]. split; [lia|]. split; [rewrite Z.mul_0_r; unfold E; lia|]. intros j ?. lia.
  - lia.
Qed.
End Ends.

(** A key at the third call, and a clock that ticks every fourth look. *)
Definition some_key (i : Z) : Z := if i =? 2 then 113 else -1.
Definition slow_clock (n : Z) : Z := n / 4.

Lemma countdown_ends_witness : exists r out, countdown some_key slow_clock 5 = Ret (r, out) /\ r = 0.
Proof.
  destruct (countdown_ends some_key slow_clock) with (seconds := 5) as (r & out & E & H); [| |lia|lia|].
  - intros n Hn. unfold slow_clock. Z.div_mod_to_equations. lia.
  - intros n Hn. exists 4. split; [lia|]. unfold slow_clock. Z.div_mod_to_equations. lia.
  - exists r, out. split; [done|]. destruct H as [(_ & i & Hi & Ht & Hk)|[? _]]; [|done]. unfold slow_clock in Ht. specialize (Hk 2). change (some_key 2) with 113 in Hk. Z.div_mod_to_equations. lia.
Defined.

(** When the time runs out between two looks of one round, the screen says that
    the kernel boots in 4294968 seconds. *)
Definition late_clock (n : Z) : Z := nth (Z.to_nat n) [0; 500; 999; 1001] 1001.
Lemma countdown_overshoots : countdown (fun _ => -1) late_clock 1 = Ret (1, [1; 4294968]).
Proof. vm_compute. reflexivity. Qed.

(** The loader boots the kernel by itself, with the arguments that were set, and
    gives the shell the keys otherwise. *)
Lemma loader_boots g : loader_main (fun _ => -1) (fun n => 5000 * n) 10 [] g = Ret (BootKernel, boot_kernel g).
Proof. unfold loader_main. assert (countdown (fun _ => -1) (fun n => 5000 * n) LOADER_BOOT_DELAY_S = Ret (1, [1])) as -> by (vm_compute; reflexivity). by rewrite bind_ret. Qed.
