(* ===== verification/E1000.v ===== *)
(** * iokit/IONetFamily/e1000.c: the network card's driver

    Rings of descriptors in memory that driver and card share.  What registers
    read as is a parameter; the card's side of the rings is a step of its own.
    Shown: frames pass the receive ring in order, none lost or doubled, for
    every interleaving of card and driver; what a transmission puts on the
    wire; the card's address.  And what a timeout leaves behind. *)

From S2P Require Import Prelude Pmm Paging Ramfs Pci Net.
Import Pmm.Pmm Vm.

Definition E1000_CTRL : Z := 0x0000.
Definition E1000_STATUS : Z := 0x0008.
Definition E1000_EEC : Z := 0x0014.
Definition E1000_IMS : Z := 0x00D0.
Definition E1000_RCTL : Z := 0x0100.
Definition E1000_TCTL : Z := 0x0400.
Definition E1000_RDBAL : Z := 0x2800.
Definition E1000_RDBAH : Z := 0x2804.
Definition E1000_RDLEN : Z := 0x2808.
Definition E1000_RDH : Z := 0x2810.
Definition E1000_RDT : Z := 0x2818.
Definition E1000_TDBAL : Z := 0x3800.
Definition E1000_TDBAH : Z := 0x3804.
Definition E1000_TDLEN : Z := 0x3808.
Definition E1000_TDH : Z := 0x3810.
Definition E1000_TDT : Z := 0x3818.
Definition CTRL_SLU : Z := Z.shiftl 1 6.
Definition STATUS_LU : Z := Z.shiftl 1 1.
Definition TXD_CMD : Z := Z.lor (Z.lor 0x01 0x02) 0x08.
Definition TXD_STAT_DD : Z := 0x01.
Definition RX_DESC_COUNT : Z := 32.
Definition TX_DESC_COUNT : Z := 8.
Definition RX_BUF_SIZE : Z := 2048.
Definition PCI_COMMAND : Z := 0x04.

(** ** State *)

Record rx_desc := mkRx { rx_addr : Z; rx_length : Z; rx_status : Z }.
Record tx_desc := mkTx { tx_addr : Z; tx_length : Z; tx_cmd : Z; tx_status : Z }.

(** [mmio] 0 is null; [tx_page] is the page transmissions go through, once
    allocated, with its contents; [written] holds the register writes, latest
    first, [reads] counts the reads. *)
Record nic := mkNic
  { mmio : Z; link_up : Z; rx_ring : list rx_desc; rx_bufs : list (list Z); rx_tail : Z;
    tx_ring : list tx_desc; tx_tail : Z; tx_page : option (Z * list Z);
    mac : list Z; netdev : bool; written : list (Z * Z); reads : Z; mach : vm pmm }.

Definition set_mmio (a l : Z) (s : nic) : nic :=
  mkNic a l (rx_ring s) (rx_bufs s) (rx_tail s) (tx_ring s) (tx_tail s) (tx_page s) (mac s) (netdev s) (written s) (reads s) (mach s).
Definition set_rx (r : list rx_desc) (b : list (list Z)) (t : Z) (s : nic) : nic :=
  mkNic (mmio s) (link_up s) r b t (tx_ring s) (tx_tail s) (tx_page s) (mac s) (netdev s) (written s) (reads s) (mach s).
Definition set_tx (r : list tx_desc) (t : Z) (p : option (Z * list Z)) (s : nic) : nic :=
  mkNic (mmio s) (link_up s) (rx_ring s) (rx_bufs s) (rx_tail s) r t p (mac s) (netdev s) (written s) (reads s) (mach s).
Definition set_mac (m : list Z) (s : nic) : nic :=
  mkNic (mmio s) (link_up s) (rx_ring s) (rx_bufs s) (rx_tail s) (tx_ring s) (tx_tail s) (tx_page s) m (netdev s) (written s) (reads s) (mach s).
Definition set_netdev (b : bool) (s : nic) : nic :=
  mkNic (mmio s) (link_up s) (rx_ring s) (rx_bufs s) (rx_tail s) (tx_ring s) (tx_tail s) (tx_page s) (mac s) b (written s) (reads s) (mach s).
Definition set_mach (v : vm pmm) (s : nic) : nic :=
  mkNic (mmio s) (link_up s) (rx_ring s) (rx_bufs s) (rx_tail s) (tx_ring s) (tx_tail s) (tx_page s) (mac s) (netdev s) (written s) (reads s) v.

Definition wr (off v : Z) (s : nic) : nic :=
  mkNic (mmio s) (link_up s) (rx_ring s) (rx_bufs s) (rx_tail s) (tx_ring s) (tx_tail s) (tx_page s) (mac s) (netdev s)
    ((off, v) :: written s) (reads s) (mach s).

Section Card.
(** What a register reads as, at each read. *)
Context (reg : Z -> Z -> Z).
(** How many polls a transmission takes; [None]: more than the driver makes. *)
Context (tx_done : option Z).

Definition rd (off : Z) (s : nic) : Z * nic :=
  (u32 (reg (reads s) off),
   mkNic (mmio s) (link_up s) (rx_ring s) (rx_bufs s) (rx_tail s) (tx_ring s) (tx_tail s) (tx_page s) (mac s) (netdev s)
     (written s) (reads s + 1) (mach s)).

(** ** The card's address *)

Definition EED_START : Z := 1.
Definition EED_DONE : Z := Z.shiftl 1 4.

Definition eeprom_read (word : Z) (s : nic) : run (Z * nic) :=
  let s := wr E1000_EEC (Z.lor EED_START (Z.shiftl word 8)) s in
  '(spins, data, s) ← loop (fun '(spins, data, s) =>
     if spins <? 200000 then
       let '(data, s) := rd E1000_EEC s in
       if negb (Z.land data EED_DONE =? 0) then Ret (inr (spins, data, s)) else Ret (inl (u32 (spins + 1), data, s))
     else Ret (inr (spins, data, s))) (0, 0, s);
  let s := wr E1000_EEC 0 s in
  if 200000 <=? spins then Ret (0xFFFF, s) else Ret (u16 (Z.shiftr data 16), s).

Definition default_mac : list Z := [0x52; 0x54; 0x00; 0x12; 0x34; 0x56].

Definition e1000_read_mac (s : nic) : run nic :=
  '(w0, s) ← eeprom_read 0 s;
  '(w1, s) ← eeprom_read 1 s;
  '(w2, s) ← eeprom_read 2 s;
  if (Z.land (Z.land w0 w1) w2 =? 0xFFFF) || (Z.lor (Z.lor w0 w1) w2 =? 0) then Ret (set_mac default_mac s)
  else Ret (set_mac [Z.land w0 0xFF; Z.shiftr w0 8; Z.land w1 0xFF; Z.shiftr w1 8; Z.land w2 0xFF; Z.shiftr w2 8] s).

(** ** Data path *)

(** 0 is null. *)
Definition alloc_page_ident (s : nic) : run (Z * nic) :=
  let '(p, v) := new_frame (mach s) in
  let p := u32 p in
  if p =? 0 then Ret (0, set_mach v s)
  else v ← paging_map_region p p Pmm.PAGE_SIZE PAGE_WRITE v; Ret (p, set_mach v s).

(** The frame is copied into the page of the first transmission. *)
Definition bounce_page (s : nic) : run (option (Z * list Z) * nic) :=
  match tx_page s with
  | Some pg => Ret (Some pg, s)
  | None => '(p, s) ← alloc_page_ident s; if p =? 0 then Ret (None, s) else Ret (Some (p, replicate 4096 0), s)
  end.

Definition e1000_send (frame : list Z) (s : nic) : run (Z * nic) :=
  let len := Z.of_nat (length frame) in
  if (mmio s =? 0) || (link_up s =? 0) || (RX_BUF_SIZE - 4 <? len) then Ret (-1, s)
  else
    let '(tdh, s) := rd E1000_TDH s in
    let tdt := tx_tail s in
    let next := u32 (tdt + 1) mod TX_DESC_COUNT in
    if next =? tdh then Ret (-1, s)
    else
      '(pg, s) ← bounce_page s;
      match pg with
      | None => Ret (-1, s)
      | Some (phys, page) =>
          let page := frame ++ drop (length frame) page in
          let d := mkTx phys (u16 len) TXD_CMD 0 in
          if (tdt <? Z.of_nat (length (tx_ring s))) && (len <=? Z.of_nat (length page)) then
            let s := set_tx (<[Z.to_nat tdt := d]> (tx_ring s)) next (Some (phys, page)) (wr E1000_TDT next s) in
            done ← loop (fun spins =>
              if spins <? 200000 then
                if (match tx_done with Some k => k <=? spins | None => false end) then Ret (inr true) else Ret (inl (u32 (spins + 1)))
              else Ret (inr false)) 0;
            if (done : bool) then Ret (0, s) else Ret (-1, s)
          else Fault
      end.

(** One round of the loop of [e1000_poll]: a frame for the stack, if it has a
    length the stack takes. *)
Definition poll_round (s : nic) : run (option (list Z) * nic + nic) :=
  match rx_ring s !! Z.to_nat (rx_tail s), rx_bufs s !! Z.to_nat (rx_tail s) with
  | Some d, Some buf =>
      if Z.land (rx_status d) TXD_STAT_DD =? 0 then Ret (inr s)
      else
        let len := rx_length d in
        f ← (if negb (len =? 0) && (len <=? NET_FRAMESZ) then bs ← bytes_at buf 0 (Z.to_nat len); Ret (Some bs) else Ret None);
        let r := <[Z.to_nat (rx_tail s) := mkRx (rx_addr d) (rx_length d) 0]> (rx_ring s) in
        let s := wr E1000_RDT (rx_tail s) s in
        Ret (inl (f, set_rx r (rx_bufs s) (u32 (rx_tail s + 1) mod RX_DESC_COUNT) s))
  | _, _ => Fault
  end.

Definition cons_opt (o : option (list Z)) (l : list (list Z)) : list (list Z) := match o with Some f => l ++ [f] | None => l end.

(** The frames handed to [ether_rx], in order. *)
Definition e1000_poll (s : nic) : run (list (list Z) * nic) :=
  if (mmio s =? 0) || (link_up s =? 0) then Ret ([], s)
  else
    let '(_, s) := rd E1000_STATUS s in
    let '(_, s) := rd E1000_STATUS s in
    loop (fun '(l, s) => r ← poll_round s; match r with inl (f, s) => Ret (inl (cons_opt f l, s)) | inr s => Ret (inr (l, s)) end)
      ([], set_mmio (mmio s) 1 s).

(** ** Start and stop *)

Definition is_e1000 (d : pci_device) : bool :=
  negb (Pci.present d =? 0) && (vendor_id d =? 0x8086) &&
  ((device_id d =? 0x100E) || (device_id d =? 0x100F) || (device_id d =? 0x10EA)).

Fixpoint e1000_probe (ds : list pci_device) : option pci_device :=
  match ds with
  | [] => None
  | d :: ds => if is_e1000 d then Some d else e1000_probe ds
  end.

(** The receive descriptors with a page each; [None]: out of pages. *)
Fixpoint fill_rx (n : nat) (ring : list rx_desc) (bufs : list (list Z)) (s : nic) : run (option (list rx_desc * list (list Z)) * nic) :=
  match n with
  | O => Ret (Some (ring, bufs), s)
  | S n => '(p, s) ← alloc_page_ident s; if p =? 0 then Ret (None, s) else fill_rx n (ring ++ [mkRx p 0 0]) (bufs ++ [replicate 4096 0]) s
  end.

(** What the command register's doubleword reads as; its new value is written
    back to the configuration space. *)
Definition e1000_init (ds : list pci_device) (command : Z) (s : nic) : run (Z * list port_write * nic) :=
  match e1000_probe ds with
  | None => Ret (-1, [], s)
  | Some d =>
      let cmd := Z.lor command (Z.lor (Z.lor (Z.shiftl 1 0) (Z.shiftl 1 1)) (Z.shiftl 1 2)) in
      let out := pci_config_write (pd_bus d) (pd_dev d) (pd_func d) PCI_COMMAND cmd in
      let bar0 := nth 0 (bar d) 0 in
      if negb (Z.land bar0 1 =? 0) then Ret (-1, out, s)
      else
        let mmio_phys := Z.land bar0 (u32 (Z.lnot 0xF)) in
        v ← paging_map_region mmio_phys mmio_phys (128 * 1024) PAGE_WRITE (mach s);
        let s := wr E1000_CTRL CTRL_SLU (wr E1000_IMS 0 (set_mmio mmio_phys (link_up s) (set_mach v s))) in
        s ← e1000_read_mac s;
        '(rx_phys, s) ← alloc_page_ident s;
        if rx_phys =? 0 then Ret (-1, out, s)
        else
          '(rings, s) ← fill_rx (Z.to_nat RX_DESC_COUNT) [] [] s;
          match rings with
          | None => Ret (-1, out, s)
          | Some (ring, bufs) =>
              let s := wr E1000_RDLEN (RX_DESC_COUNT * 16) (wr E1000_RDBAH 0 (wr E1000_RDBAL rx_phys s)) in
              let s := set_rx ring bufs 0 (wr E1000_RDT (RX_DESC_COUNT - 1) (wr E1000_RDH 0 s)) in
              '(tx_phys, s) ← alloc_page_ident s;
              if tx_phys =? 0 then Ret (-1, out, s)
              else
                let s := wr E1000_TDLEN (TX_DESC_COUNT * 16) (wr E1000_TDBAH 0 (wr E1000_TDBAL tx_phys s)) in
                let s := set_tx (replicate (Z.to_nat TX_DESC_COUNT) (mkTx 0 0 0 0)) 0 (tx_page s) (wr E1000_TDT 0 (wr E1000_TDH 0 s)) in
                let rctl := Z.lor (Z.lor (Z.lor (Z.shiftl 1 1) (Z.shiftl 1 3)) (Z.shiftl 1 4)) (Z.shiftl 1 15) in
                let tctl := Z.lor (Z.lor (Z.lor (Z.shiftl 1 1) (Z.shiftl 1 3)) (Z.shiftl 0x0F 4)) (Z.shiftl 0x40 12) in
                let s := wr E1000_TCTL tctl (wr E1000_RCTL rctl s) in
                s ← loop (fun '(i, s) =>
                      if i <? 100000 then
                        let '(st, s) := rd E1000_STATUS s in
                        if negb (Z.land st STATUS_LU =? 0) then Ret (inr s) else Ret (inl (u32 (i + 1), s))
                      else Ret (inr s)) (0, s);
                let '(_, s) := rd E1000_STATUS s in
                Ret (0, out, set_netdev true (set_mmio (mmio s) 1 s))
          end
  end.

Definition e1000_exit (s : nic) : nic :=
  if mmio s =? 0 then s
  else set_mmio 0 0 (set_netdev false (wr E1000_CTRL 0 (wr E1000_TCTL 0 (wr E1000_RCTL 0 s)))).
End Card.

(** ** The receive ring is a queue *)

(** The tail register: the card may fill the descriptors from its head up to,
    but without, this one. *)
Fixpoint last_write (off : Z) (w : list (Z * Z)) : Z :=
  match w with
  | [] => 0
  | (o, v) :: w => if o =? off then v else last_write off w
  end.
Definition rdt (s : nic) : Z := last_write E1000_RDT (written s).

(** The card's step: a frame into the buffer of the descriptor at its head. *)
Definition card_receive (f : list Z) (st h : Z) (s : nic) : nic :=
  match rx_ring s !! Z.to_nat h, rx_bufs s !! Z.to_nat h with
  | Some d, Some buf =>
      set_rx (<[Z.to_nat h := mkRx (rx_addr d) (Z.of_nat (length f)) st]> (rx_ring s))
        (<[Z.to_nat h := f ++ drop (length f) buf]> (rx_bufs s)) (rx_tail s) s
  | _, _ => s
  end.

(** Card and driver, with the card's head, the frames it took in and those the
    driver handed on. *)
Definition system : Type := nic * Z * list (list Z) * list (list Z).

Inductive rx_step : system -> system -> Prop :=
  | step_card s h rs out f st :
      (1 <= length f <= 2048)%nat -> Z.land st TXD_STAT_DD <> 0 -> h <> rdt s ->
      rx_step (s, h, rs, out) (card_receive f st h s, (h + 1) mod 32, rs ++ [f], out)
  | step_driver s h rs out o s' :
      poll_round s = Ret (inl (o, s')) -> rx_step (s, h, rs, out) (s', h, rs, cons_opt o out)
  | step_idle s h rs out s' : poll_round s = Ret (inr s') -> rx_step (s, h, rs, out) (s', h, rs, out).

(** The frames the stack takes. *)
Definition accepted (f : list Z) : Prop := Z.of_nat (length f) <= NET_FRAMESZ.
#[global] Instance accepted_dec f : Decision (accepted f).
Proof. unfold accepted. apply _. Defined.

(** The ring as [e1000_init] leaves it. *)
Record rx_fresh (s : nic) : Prop :=
  { fr_ring : length (rx_ring s) = 32%nat;
    fr_idle : Forall (fun d => Z.land (rx_status d) TXD_STAT_DD = 0) (rx_ring s);
    fr_bufs : length (rx_bufs s) = 32%nat;
    fr_room : Forall (fun b => (2048 <= length b)%nat) (rx_bufs s);
    fr_tail : rx_tail s = 0;
    fr_rdt : rdt s = 31 }.

(** The [i]th descriptor from [t] on. *)
Definition slot (t i : Z) : nat := Z.to_nat ((t + i) mod 32).

Lemma slot_lt t i : (slot t i < 32)%nat.
Proof. unfold slot. pose proof (Z.mod_pos_bound (t + i) 32 ltac:(lia)). lia. Qed.

Lemma rx_slot_inj t i j : 0 <= i < 32 -> 0 <= j < 32 -> slot t i = slot t j -> i = j.
Proof.
  unfold slot. intros Hi Hj E. pose proof (Z.mod_pos_bound (t + i) 32 ltac:(lia)). pose proof (Z.mod_pos_bound (t + j) 32 ltac:(lia)).
  assert ((t + i) mod 32 = (t + j) mod 32) as E' by lia. clear E. Z.div_mod_to_equations; lia.
Qed.

Lemma slot_next t i : slot ((t + 1) mod 32) i = slot t (i + 1).
Proof. unfold slot. rewrite Z.add_mod_idemp_l by lia. do 2 f_equal. lia. Qed.

(** The descriptor at the slot [i] holds the frame [f]. *)
Definition holds (s : nic) (i : nat) (f : list Z) : Prop :=
  (1 <= length f <= 2048)%nat /\
  exists d buf, rx_ring s !! i = Some d /\ Z.land (rx_status d) TXD_STAT_DD <> 0 /\ rx_length d = Z.of_nat (length f) /\
    rx_bufs s !! i = Some buf /\ take (length f) buf = f.
Definition idle (s : nic) (i : nat) : Prop := exists d, rx_ring s !! i = Some d /\ Z.land (rx_status d) TXD_STAT_DD = 0.

(** The frames [q] wait between the driver's tail and the card's head. *)
Record ring_inv (s : nic) (h : Z) (q : list (list Z)) : Prop :=
  { ri_ring : length (rx_ring s) = 32%nat;
    ri_bufs : length (rx_bufs s) = 32%nat;
    ri_room : Forall (fun b => (2048 <= length b)%nat) (rx_bufs s);
    ri_tail : 0 <= rx_tail s < 32;
    ri_rdt : rdt s = (rx_tail s + 31) mod 32;
    ri_count : (length q <= 31)%nat;
    ri_head : h = (rx_tail s + Z.of_nat (length q)) mod 32;
    ri_full : forall i f, q !! i = Some f -> holds s (slot (rx_tail s) (Z.of_nat i)) f;
    ri_idle : forall i, Z.of_nat (length q) <= i < 32 -> idle s (slot (rx_tail s) i) }.

Lemma card_inv s h q f st :
  ring_inv s h q -> (1 <= length f <= 2048)%nat -> Z.land st TXD_STAT_DD <> 0 -> h <> rdt s ->
  ring_inv (card_receive f st h s) ((h + 1) mod 32) (q ++ [f]).
Proof.
  intros [L1 L2 Rm T Rd C H F I] Hf Hst Hne. assert (length q < 31)%nat as Hq.
  { destruct (decide (length q = 31%nat)) as [E|]; [|lia]. rewrite H, Rd, E in Hne. done. }
  assert (Z.to_nat h = slot (rx_tail s) (Z.of_nat (length q))) as Eh by (unfold slot; by rewrite H).
  pose proof (slot_lt (rx_tail s) (Z.of_nat (length q))) as Hlt. unfold card_receive. rewrite Eh. set (k := slot _ _) in *.
  destruct (lookup_lt_is_Some_2 (rx_ring s) k ltac:(lia)) as [d Hd]. destruct (lookup_lt_is_Some_2 (rx_bufs s) k ltac:(lia)) as [b Hb].
  rewrite Hd, Hb. assert (2048 <= length b)%nat as Lb by (by eapply (Forall_lookup_1 _ _ _ _ Rm Hb)).
  assert (Hother : forall i, 0 <= i < 32 -> i <> Z.of_nat (length q) -> slot (rx_tail s) i <> k)
    by (intros i Hi Hn E; apply Hn; eapply rx_slot_inj; [| |exact E]; lia).
  constructor; cbn [set_rx rx_ring rx_bufs rx_tail]; rewrite ?length_insert; try done.
  - apply Forall_insert; [done|]. rewrite length_app, length_drop. lia.
  - rewrite length_app. cbn. lia.
  - rewrite H, length_app. cbn. rewrite Z.add_mod_idemp_l by lia. f_equal. lia.
  - intros i g Hg. apply lookup_app_Some in Hg as [Hg|[Hge Hg]].
    + pose proof (lookup_lt_Some _ _ _ Hg). destruct (F i g Hg) as (Hl & d' & b' & E1 & E2 & E3 & E4 & E5). split; [done|].
      exists d', b'. cbn. rewrite !list_lookup_insert_ne by (symmetry; apply Hother; lia). done.
    + apply list_lookup_singleton_Some in Hg as [Hi <-]. assert (i = length q) as -> by lia. fold k. split; [done|].
      exists (mkRx (rx_addr d) (Z.of_nat (length f)) st), (f ++ drop (length f) b). cbn.
      rewrite !list_lookup_insert_eq by lia. split_and!; try done. by rewrite take_app_length.
  - intros i Hi. rewrite length_app in Hi. cbn in Hi. destruct (I i ltac:(lia)) as (d' & E1 & E2). exists d'. cbn.
    rewrite list_lookup_insert_ne by (symmetry; apply Hother; lia). done.
Qed.

(** A round with a frame waiting hands on the first. *)
Lemma round_full s h f q :
  ring_inv s h (f :: q) ->
  exists s', poll_round s = Ret (inl (if decide (accepted f) then Some f else None, s')) /\ ring_inv s' h q.
Proof.
  intros [L1 L2 Rm T Rd C H F I]. cbn [length] in *. destruct (F 0%nat f eq_refl) as (Hl & d & buf & E1 & E2 & E3 & E4 & E5).
  assert (slot (rx_tail s) 0 = Z.to_nat (rx_tail s)) as Es by (unfold slot; rewrite Z.add_0_r, Z.mod_small by lia; done).
  change (Z.of_nat 0) with 0 in *. rewrite Es in *. unfold poll_round. rewrite E1, E4. rewrite (proj2 (Z.eqb_neq _ _)) by done. rewrite E3.
  assert (2048 <= length buf)%nat as Lb by (by eapply (Forall_lookup_1 _ _ _ _ Rm E4)).
  assert ((if negb (Z.of_nat (length f) =? 0) && (Z.of_nat (length f) <=? NET_FRAMESZ) then
      bs ← bytes_at buf 0 (Z.to_nat (Z.of_nat (length f))); Ret (Some bs) else Ret None) = Ret (if decide (accepted f) then Some f else None)) as ->.
  { rewrite (proj2 (Z.eqb_neq _ 0)) by lia. cbn [negb andb]. unfold accepted. destruct (Z.leb_spec (Z.of_nat (length f)) NET_FRAMESZ).
    - rewrite Nat2Z.id, bytes_at_ok by lia. rewrite bind_ret, decide_True by done. by rewrite drop_0, E5.
    - by rewrite decide_False by lia. }
  rewrite bind_ret. eexists. split; [done|]. unfold RX_DESC_COUNT.
  change (rx_tail (wr E1000_RDT (rx_tail s) s)) with (rx_tail s). rewrite (u32_small (rx_tail s + 1)) by lia.
  assert (Hother : forall i, 0 <= i < 31 -> slot (rx_tail s) (i + 1) <> Z.to_nat (rx_tail s)).
  { intros i Hi E. rewrite <- Es in E. apply rx_slot_inj in E; lia. }
  pose proof (Z.mod_pos_bound (rx_tail s + 1) 32 ltac:(lia)) as Hb.
  constructor; cbn [set_rx wr rx_ring rx_bufs rx_tail]; rewrite ?length_insert; try done.
  - unfold rdt. cbn. rewrite Z.add_mod_idemp_l by lia. replace (rx_tail s + 1 + 31) with (rx_tail s + 1 * 32) by lia.
    by rewrite Z.mod_add, Z.mod_small by lia.
  - lia.
  - rewrite H, Z.add_mod_idemp_l by lia. f_equal. lia.
  - intros i g Hg. pose proof (lookup_lt_Some _ _ _ Hg). rewrite slot_next.
    destruct (F (S i) g Hg) as (Hl' & d' & b' & G1 & G2 & G3 & G4 & G5). replace (Z.of_nat (S i)) with (Z.of_nat i + 1) in * by lia.
    split; [done|]. exists d', b'. cbn. rewrite list_lookup_insert_ne by (symmetry; apply Hother; lia). done.
  - intros i Hi. rewrite slot_next. destruct (decide (i = 31)) as [->|Hn].
    + replace (slot (rx_tail s) (31 + 1)) with (Z.to_nat (rx_tail s)) by
        (rewrite <- Es; unfold slot; f_equal; change (31 + 1) with (0 + 1 * 32); rewrite Z.add_assoc, Z.mod_add by lia; done).
      eexists. cbn. rewrite list_lookup_insert_eq by lia. done.
    + destruct (I (i + 1) ltac:(lia)) as (d' & G1 & G2). exists d'. cbn. rewrite list_lookup_insert_ne by (symmetry; apply Hother; lia). done.
Qed.

(** A round with nothing waiting ends the loop. *)
Lemma round_empty s h : ring_inv s h [] -> poll_round s = Ret (inr s).
Proof.
  intros [L1 L2 Rm T Rd C H F I]. destruct (I 0 ltac:(cbn; lia)) as (d & E1 & E2).
  assert (slot (rx_tail s) 0 = Z.to_nat (rx_tail s)) as Es by (unfold slot; rewrite Z.add_0_r, Z.mod_small by lia; done).
  rewrite Es in E1. unfold poll_round. rewrite E1. destruct (lookup_lt_is_Some_2 (rx_bufs s) (Z.to_nat (rx_tail s)) ltac:(lia)) as [b ->].
  by rewrite E2.
Qed.

Lemma fresh_inv s : rx_fresh s -> ring_inv s 0 [].
Proof.
  intros [L1 I L2 Rm T Rd]. constructor; try done; rewrite ?T; try done; try lia; try (cbn; lia).
  - intros i Hi. pose proof (slot_lt 0 i). destruct (lookup_lt_is_Some_2 (rx_ring s) (slot 0 i) ltac:(lia)) as [d Hd].
    exists d. split; [done|]. exact (Forall_lookup_1 _ _ _ _ I Hd).
Qed.

Definition system_inv (y : system) : Prop :=
  let '(s, h, rs, out) := y in exists done q, ring_inv s h q /\ rs = done ++ q /\ out = filter accepted done.

Lemma rx_step_inv y y' : system_inv y -> rx_step y y' -> system_inv y'.
Proof.
  intros Hinv Hst. destruct Hst as [s h rs out f st Hf Hs Hne|s h rs out o s' Hr|s h rs out s' Hr]; destruct Hinv as (dn & q & Hi & -> & ->).
  - exists dn, (q ++ [f]). split_and!; [by apply card_inv|by rewrite app_assoc|done].
  - destruct q as [|f q]; [by rewrite (round_empty s h) in Hr|]. destruct (round_full s h f q Hi) as (s2 & E & Hi2). rewrite E in Hr.
    injection Hr as <- <-. exists (dn ++ [f]), q. split_and!; [done|by rewrite <- app_assoc|]. rewrite filter_app, filter_cons, filter_nil.
    case_decide; cbn; [done|by rewrite app_nil_r].
  - destruct q as [|f q]; [|destruct (round_full s h f q Hi) as (s2 & E & Hi2); by rewrite E in Hr].
    rewrite (round_empty s h Hi) in Hr. injection Hr as <-. by exists dn, [].
Qed.

(** C8: However the card's filling of descriptors and the rounds of the
    driver's loop are interleaved, the frames the stack gets are those the card
    took in, in their order, each once, without the ones that are too long for
    the stack; at most 31 wait in the ring; a round hands on the first one that
    waits and ends the loop only when none does. *)
Theorem rx_ring_fifo s0 s h rs out :
  rx_fresh s0 -> rtc rx_step (s0, 0, [], []) (s, h, rs, out) ->
  exists done waiting, rs = done ++ waiting /\ out = filter accepted done /\ (length waiting <= 31)%nat /\
    match waiting with
    | [] => poll_round s = Ret (inr s)
    | f :: _ => exists s', poll_round s = Ret (inl (if decide (accepted f) then Some f else None, s'))
    end.
Proof.
  intros Hf Hr. assert (system_inv (s, h, rs, out)) as (dn & q & Hi & -> & ->).
  { revert Hr. apply (rtc_ind_r system_inv); [|intros y y' _ Hst Hinv; by eapply rx_step_inv].
    exists [], []. split_and!; [by apply fresh_inv|done..]. }
  exists dn, q. split_and!; [done|done|apply (ri_count _ _ _ Hi)|]. destruct q as [|f q]; [by eapply round_empty|].
  destruct (round_full s h f q Hi) as (s' & E & _). eauto.
Qed.

(** Left alone with the ring, the driver's loop ends with it empty. *)
Lemma poll_drains reg s h q :
  mmio s <> 0 -> link_up s <> 0 -> ring_inv s h q ->
  exists s', e1000_poll reg s = Ret (filter accepted q, s') /\ ring_inv s' h [].
Proof.
  intros Hm Hl Hi. unfold e1000_poll. rewrite !(proj2 (Z.eqb_neq _ 0)) by done. cbn [orb rd].
  match goal with |- context [loop _ ([], ?x)] => set (s1 := x) end. assert (ring_inv s1 h q) as Hi1 by (by destruct Hi; constructor).
  loop_with (fun '(l, s2) => exists q2, ring_inv s2 h q2 /\ l ++ filter accepted q2 = filter accepted q)
    (fun '(l, s') => l = filter accepted q /\ ring_inv s' h [])
    (fun '(l, s2) => Z.of_nat (length (filter (fun d => Z.land (rx_status d) TXD_STAT_DD <> 0) (rx_ring s2)))) as ([l s'] & -> & -> & Hs'); [..|eauto].
  - intros [l s2] (q2 & Hi2 & Hl2). destruct q2 as [|f q2].
    + right. rewrite (round_empty s2 h Hi2), bind_ret. exists (l, s2). rewrite app_nil_r in Hl2. done.
    + left. destruct (round_full s2 h f q2 Hi2) as (s3 & E & Hi3). rewrite E, bind_ret. eexists. split; [done|]. split.
      * exists q2. split; [done|]. rewrite filter_cons in Hl2. rewrite <- Hl2. case_decide; cbn; [by rewrite <- app_assoc|done].
      * split; [lia|]. destruct Hi2 as [L1 L2 Rm T Rd C H F I]. destruct (F 0%nat f eq_refl) as (_ & d & buf & E1 & E2 & _ & E4 & _).
        change (Z.of_nat 0) with 0 in *. unfold slot in E1, E4. rewrite Z.add_0_r, Z.mod_small in E1, E4 by lia.
        unfold poll_round in E. rewrite E1, E4, (proj2 (Z.eqb_neq _ _)) in E by done.
        match type of E with mbind _ ?m = _ => destruct m as [o| |]; [|done..] end. rewrite bind_ret in E. injection E as _ <-. cbn [set_rx wr rx_ring].
        rewrite <- (take_drop_middle (rx_ring s2) (Z.to_nat (rx_tail s2)) d E1) at 2.
        rewrite insert_take_drop by (by eapply lookup_lt_Some). rewrite !filter_app, !filter_cons. cbn [rx_status].
        rewrite decide_False by (intros H0; by apply H0). rewrite decide_True by done. rewrite !length_app. cbn. lia.
  - by exists q.
  - pose proof (ri_ring _ _ _ Hi1) as L. pose proof (length_filter (fun d => Z.land (rx_status d) TXD_STAT_DD <> 0) (rx_ring s1)). lia.
Qed.

(** ** Transmission *)

(** What the card sends for a descriptor: bytes of the page it points to. *)
Definition card_transmit (d : tx_desc) (s : nic) : option (list Z) :=
  match tx_page s with
  | Some (phys, page) => if decide (tx_addr d = phys) then Some (take (Z.to_nat (tx_length d)) page) else None
  | None => None
  end.

Lemma send_poll tx_done :
  loop (fun spins => if spins <? 200000 then
      if (match tx_done with Some k => k <=? spins | None => false end) then Ret (inr true) else Ret (inl (u32 (spins + 1)))
    else Ret (inr false)) 0 = Ret (match tx_done with Some k => k <? 200000 | None => false end).
Proof.
  loop_with (fun n => 0 <= n <= 200000 /\ match tx_done with Some k => n = 0 \/ n <= k | None => True end)
    (fun b => b = match tx_done with Some k => k <? 200000 | None => false end) (fun n => 200000 - n) as (b & -> & ->); [..|done].
  - intros n [Hn Hk]. destruct tx_done as [k|]; destruct (Z.ltb_spec n 200000) as [Hlt|Hge].
    + destruct (Z.leb_spec k n).
      * right. eexists. split; [done|]. symmetry. apply Z.ltb_lt. lia.
      * left. rewrite u32_small by lia. eexists. split; [done|]. lia.
    + right. eexists. split; [done|]. symmetry. apply Z.ltb_ge. lia.
    + left. rewrite u32_small by lia. eexists. split; [done|]. lia.
    + right. by eexists.
  - split; [lia|]. destruct tx_done; [by left|done].
  - lia.
Qed.

(** The driver may send: the card is up and the page is there. *)
Record tx_ready (s : nic) (phys : Z) (page : list Z) : Prop :=
  { tr_up : mmio s <> 0 /\ link_up s <> 0;
    tr_ring : length (tx_ring s) = 8%nat;
    tr_tail : 0 <= tx_tail s < 8;
    tr_page : tx_page s = Some (phys, page) /\ length page = 4096%nat }.

Lemma send_spec reg tx_done frame s phys page :
  tx_ready s phys page -> (length frame <= 2044)%nat -> u32 (reg (reads s) E1000_TDH) <> (tx_tail s + 1) mod 8 ->
  exists s', e1000_send reg tx_done frame s =
      Ret (if (match tx_done with Some k => k <? 200000 | None => false end) then 0 else -1, s') /\
    tx_ready s' phys (frame ++ drop (length frame) page) /\
    tx_tail s' = (tx_tail s + 1) mod 8 /\
    tx_ring s' = <[Z.to_nat (tx_tail s) := mkTx phys (Z.of_nat (length frame)) TXD_CMD 0]> (tx_ring s) /\
    written s' = (E1000_TDT, (tx_tail s + 1) mod 8) :: written s.
Proof.
  intros [[H1 H2] L T [P1 P2]] Hlen Hfull. unfold e1000_send. rewrite !(proj2 (Z.eqb_neq _ 0)) by done. cbn [orb]. unfold RX_BUF_SIZE.
  rewrite (proj2 (Z.ltb_ge _ _)) by lia. unfold rd. cbn [tx_tail]. unfold TX_DESC_COUNT. rewrite (u32_small (tx_tail s + 1)) by lia.
  rewrite (proj2 (Z.eqb_neq _ _)) by congruence. unfold bounce_page. cbn [tx_page]. rewrite P1, bind_ret. cbn [tx_ring].
  rewrite (proj2 (Z.ltb_lt _ _)), (proj2 (Z.leb_le _ _)) by (rewrite ?length_app, ?length_drop; lia). cbn [andb].
  rewrite send_poll, bind_ret, u16_small by lia. eexists. split; [by destruct (match tx_done with Some k => k <? 200000 | None => false end)|].
  split; [|done]. constructor; cbn [set_tx wr mmio link_up tx_ring tx_tail tx_page].
  - done.
  - by rewrite length_insert.
  - apply Z.mod_pos_bound. lia.
  - split; [done|]. rewrite length_app, length_drop. lia.
Qed.

(** When there is room in the ring and the card finishes within the
    driver's polls, sending a frame of up to 2044 bytes returns 0, the
    descriptor given to the card makes it transmit exactly the frame, and the
    tail register is moved past it. *)
Theorem e1000_send_transmits reg k frame s phys page :
  tx_ready s phys page -> (length frame <= 2044)%nat -> u32 (reg (reads s) E1000_TDH) <> (tx_tail s + 1) mod 8 -> k < 200000 ->
  exists s' d, e1000_send reg (Some k) frame s = Ret (0, s') /\ tx_ring s' !! Z.to_nat (tx_tail s) = Some d /\
    card_transmit d s' = Some frame /\ last_write E1000_TDT (written s') = (tx_tail s + 1) mod 8.
Proof.
  intros Hr Hlen Hfull Hk. destruct (send_spec reg (Some k) frame s phys page Hr Hlen Hfull) as (s' & -> & Hr' & Ht & Hring & Hw).
  rewrite (proj2 (Z.ltb_lt _ _)) by lia. eexists s', _. split; [done|]. rewrite Hring, Hw.
  split; [apply list_lookup_insert_eq; pose proof (tr_ring _ _ _ Hr); pose proof (tr_tail _ _ _ Hr); lia|]. split; [|done].
  unfold card_transmit. rewrite (proj1 (tr_page _ _ _ Hr')). cbn [tx_addr tx_length]. rewrite decide_True, Nat2Z.id by done. by rewrite take_app_length.
Qed.

(** One page serves all transmissions: after a timeout the descriptor is still
    the card's, and the next frame is what it will transmit for it. *)
Theorem timeout_overwrites_frame reg f1 f2 s phys page :
  tx_ready s phys page -> (length f1 <= length f2 <= 2044)%nat ->
  u32 (reg (reads s) E1000_TDH) <> (tx_tail s + 1) mod 8 ->
  (forall s1, tx_tail s1 = (tx_tail s + 1) mod 8 -> u32 (reg (reads s1) E1000_TDH) <> (tx_tail s1 + 1) mod 8) ->
  exists s1 s2 r d, e1000_send reg None f1 s = Ret (-1, s1) /\ e1000_send reg None f2 s1 = Ret (r, s2) /\
    tx_ring s2 !! Z.to_nat (tx_tail s) = Some d /\ card_transmit d s2 = Some (take (length f1) f2).
Proof.
  intros Hr Hlen H1 H2. destruct (send_spec reg None f1 s phys page Hr ltac:(lia) H1) as (s1 & E1 & Hr1 & T1 & R1 & _).
  destruct (send_spec reg None f2 s1 phys _ Hr1 ltac:(lia) (H2 s1 T1)) as (s2 & E2 & Hr2 & T2 & R2 & _).
  pose proof (tr_ring _ _ _ Hr). pose proof (tr_tail _ _ _ Hr) as Ht.
  exists s1, s2, (-1), (mkTx phys (Z.of_nat (length f1)) TXD_CMD 0). split_and!; [done|done| |].
  - rewrite R2, R1, list_lookup_insert_ne; [apply list_lookup_insert_eq; lia|]. rewrite T1. intros E.
    pose proof (Z.mod_pos_bound (tx_tail s + 1) 8 ltac:(lia)). assert ((tx_tail s + 1) mod 8 = tx_tail s) as E' by lia.
    clear -E' Ht. Z.div_mod_to_equations; lia.
  - unfold card_transmit. rewrite (proj1 (tr_page _ _ _ Hr2)). cbn [tx_addr tx_length]. rewrite decide_True, Nat2Z.id by done.
    rewrite take_app_le by lia. done.
Qed.

(** ** The card's address *)

Lemma eeprom_read_spec reg word s :
  exists w s', eeprom_read reg word s = Ret (w, s') /\ 0 <= w < 2 ^ 16.
Proof.
  unfold eeprom_read. set (s0 := wr _ _ _).
  loop_with (fun '(n, d, _) => 0 <= n <= 200000) (fun _ => True) (fun '(n, d, _) => 200000 - n) as ([[n d] s1] & -> & _).
  - intros [[n d] s1] Hn. destruct (Z.ltb_spec n 200000); [|right; by eexists]. cbn [rd]. destruct (negb _); [right; by eexists|].
    left. rewrite u32_small by lia. eexists. split; [done|]. cbn. lia.
  - lia.
  - lia.
  - rewrite bind_ret. destruct (200000 <=? n); eexists _, _; (split; [done|]); [lia|apply Z.mod_pos_bound; lia].
Qed.

(** Whatever the card answers, reading its address ends with six bytes. *)
Theorem read_mac_bytes reg s : exists s', e1000_read_mac reg s = Ret s' /\ length (mac s') = 6%nat /\ Forall byte_ok (mac s').
Proof.
  unfold e1000_read_mac. destruct (eeprom_read_spec reg 0 s) as (w0 & s0 & -> & B0). rewrite bind_ret.
  destruct (eeprom_read_spec reg 1 s0) as (w1 & s1 & -> & B1). rewrite bind_ret. destruct (eeprom_read_spec reg 2 s1) as (w2 & s2 & -> & B2). rewrite bind_ret.
  destruct (_ || _); eexists; (split; [done|]); (split; [done|]); cbn; [repeat constructor; done|].
  assert (forall w, 0 <= w < 2 ^ 16 -> byte_ok (Z.land w 255) /\ byte_ok (Z.shiftr w 8)) as Hb.
  { intros w Hw. change 255 with (Z.ones 8). rewrite Z.land_ones, Z.shiftr_div_pow2 by lia. unfold byte_ok. change (2 ^ 8) with 256.
    split; Z.div_mod_to_equations; lia. }
  destruct (Hb w0 B0), (Hb w1 B1), (Hb w2 B2). repeat (apply Forall_cons_2; [done|]). by apply Forall_nil_2.
Qed.

(** ** A small run *)

Definition new_nic : nic :=
  mkNic 0xFEB00000 1 (replicate 32 (mkRx 0 0 0)) (replicate 32 (replicate 2048 0)) 0 (replicate 8 (mkTx 0 0 0 0)) 0
    (Some (0x5000, replicate 4096 0)) default_mac true [(E1000_RDT, 31)] 0 (mkVm ∅ (mkPmm [] 0) 0).

Lemma new_nic_fresh : rx_fresh new_nic.
Proof.
  constructor; try done; cbn [new_nic rx_ring rx_bufs]; rewrite ?length_replicate; try done; apply Forall_replicate; [done|].
  by rewrite length_replicate.
Defined.

(** A frame comes in and is handed on. *)
Lemma rx_ring_fifo_witness :
  exists s, rtc rx_step (new_nic, 0, [], []) (s, 1, [[7; 8; 9]], []) /\
  exists done waiting, [[7; 8; 9]] = done ++ waiting /\ [] = filter accepted done /\ (length waiting <= 31)%nat /\
    match waiting with
    | [] => poll_round s = Ret (inr s)
    | f :: _ => exists s', poll_round s = Ret (inl (if decide (accepted f) then Some f else None, s'))
    end.
Proof.
  exists (card_receive [7; 8; 9] 3 0 new_nic).
  assert (rtc rx_step (new_nic, 0, [], []) (card_receive [7; 8; 9] 3 0 new_nic, 1, [[7; 8; 9]], [])) as Hr.
  { apply rtc_once. apply (step_card new_nic 0 [] [] [7; 8; 9] 3); [cbn; lia|done|done]. }
  split; [exact Hr|]. exact (rx_ring_fifo new_nic _ 1 [[7; 8; 9]] [] new_nic_fresh Hr).
Defined.

Lemma e1000_send_transmits_witness :
  exists s' d, e1000_send (fun _ _ => 0) (Some 17) [1; 2; 3] new_nic = Ret (0, s') /\ tx_ring s' !! Z.to_nat (tx_tail new_nic) = Some d /\
    card_transmit d s' = Some [1; 2; 3] /\ last_write E1000_TDT (written s') = (tx_tail new_nic + 1) mod 8.
Proof.
  apply (e1000_send_transmits (fun _ _ => 0) 17 [1; 2; 3] new_nic 0x5000 (replicate 4096 0)); [|cbn; lia|done|lia].
  constructor; [done|done|cbn; lia|split; [done|by rewrite length_replicate]].
Defined.
