(* ===== verification/Storage.v ===== *)
(** * iokit/IOStorageFamily: devfs/devfs.c, ssd/ssd.c and main.c

    The table of block devices that disk drivers register with, the generic
    solid-state disks on top of it and the names of disks.  Shown: names stay
    distinct, a registered device is found by its name until it is taken out,
    and transfers by name reach the driver that registered it. *)

From S2P Require Import Prelude Printf.

(** ** devfs.c: the table *)

Definition DEVFS_NAME_MAX : Z := 24.
Definition DEVFS_MAX_DEVICES : nat := 32.
Inductive devfs_type := DEVFS_BLOCK_DEV | DEVFS_CHAR_DEV.

(** [D] stands for a driver's function together with its private data; [None]
    is a null pointer. *)
Record devfs_device (D : Type) := mkDev
  { name : list Z; type : devfs_type; block_size : Z; blocks : Z; model : list Z; read : option D; write : option D }.
Arguments mkDev {D}.
Arguments name {D}. Arguments type {D}. Arguments block_size {D}. Arguments blocks {D}. Arguments model {D}. Arguments read {D}. Arguments write {D}.

(** [strncpy] of [n] and a terminator behind: a longer text makes [strncpy]
    clear memory behind the destination ([CString.strncpy_overrun]). *)
Definition copy_text (n : nat) (l : list Z) : run (list Z) := if (length l <? n)%nat then Ret l else Fault.

Section Table.
Context {D : Type}.
Abbreviation table := (list (devfs_device D)).

Definition devfs_find (nm : list Z) (g : table) : option (devfs_device D) := snd <$> list_find (fun d => name d = nm) g.

Definition devfs_register (d : devfs_device D) (g : table) : run (Z * table) :=
  if (DEVFS_MAX_DEVICES <=? length g)%nat then Ret (-1, g)
  else
    match devfs_find (name d) g with
    | Some _ => Ret (-1, g)
    | None =>
        n ← copy_text 23 (name d);
        m ← copy_text 47 (model d);
        Ret (Z.of_nat (length g), g ++ [mkDev n (type d) (block_size d) (blocks d) m (read d) (write d)])
    end.

Fixpoint devfs_unregister (nm : list Z) (g : table) : Z * table :=
  match g with
  | [] => (-1, [])
  | d :: g => if decide (name d = nm) then (0, g) else let '(r, g) := devfs_unregister nm g in (r, d :: g)
  end.

Definition devfs_count (g : table) : Z := Z.of_nat (length g).
Definition devfs_get (i : Z) (g : table) : option (devfs_device D) := if (i <? 0) || (devfs_count g <=? i) then None else g !! Z.to_nat i.

(** What a driver's function does: the result, the buffer, the machine. *)
Context {S : Type} (call : bool -> D -> Z -> Z -> list Z -> S -> run (Z * list Z * S)).

Definition devfs_rw (w : bool) (nm : list Z) (lba count : Z) (buf : list Z) (g : table) (s : S) : run (Z * list Z * S) :=
  match devfs_find nm g with
  | None => Ret (-1, buf, s)
  | Some d => match (if w then write d else read d) with None => Ret (-1, buf, s) | Some f => call w f lba count buf s end
  end.
Definition devfs_read := devfs_rw false.
Definition devfs_write := devfs_rw true.
End Table.

(** ** ssd.c *)

Definition SSD_MAX_DEVICES : nat := 8.
Definition SSD_SECTOR_SIZE : Z := 512.

(** [F] is the type of the functions passed in; [None] is null. *)
Record ssd_device (F : Type) := mkSsd { lba_count : Z; sector_size : Z; ssd_model : list Z; do_read : option F; do_write : option F }.
Arguments mkSsd {F}. Arguments lba_count {F}. Arguments sector_size {F}. Arguments ssd_model {F}. Arguments do_read {F}. Arguments do_write {F}.

Section Ssd.
Context {D F : Type}.

Definition ssd_name (n : nat) : list Z := str "ssd" ++ [u8 (97 + Z.of_nat n)].

Definition ssd_register (m : list Z) (lbas : Z) (r w : option F) (l : list (ssd_device F)) (g : list (devfs_device D)) : run (Z * list (ssd_device F) * list (devfs_device D)) :=
  if (SSD_MAX_DEVICES <=? length l)%nat then Ret (-1, l, g)
  else
    t ← copy_text 40 m;
    '(_, g) ← devfs_register (mkDev (ssd_name (length l)) DEVFS_BLOCK_DEV SSD_SECTOR_SIZE (lbas / 2048) (take 47 m) None None) g;
    Ret (Z.of_nat (length l), l ++ [mkSsd lbas SSD_SECTOR_SIZE t r w], g).

Context {S : Type} (call : F -> Z -> Z -> list Z -> S -> run (Z * list Z * S)).
Definition ssd_rw (write : bool) (dev_id lba count : Z) (buf : list Z) (l : list (ssd_device F)) (s : S) : run (Z * list Z * S) :=
  if (dev_id <? 0) || (Z.of_nat (length l) <=? dev_id) then Ret (-1, buf, s)
  else
    d ← of_option (l !! Z.to_nat dev_id);
    match (if write then do_write d else do_read d) with None => Ret (-1, buf, s) | Some f => call f lba count buf s end.
Definition ssd_read := ssd_rw false.
Definition ssd_write := ssd_rw true.
Definition ssd_init : list (ssd_device F) := [].
End Ssd.

(** ** The table is a map from names *)

(** What the table promises: no name twice, no more than its slots, texts that
    fit their fields. *)
Record table_ok {D} (g : list (devfs_device D)) : Prop :=
  { to_names : NoDup (name <$> g); to_size : (length g <= DEVFS_MAX_DEVICES)%nat; to_texts : Forall (fun d => (length (name d) < 23)%nat /\ (length (model d) < 47)%nat) g }.

Section Map.
Context {D : Type}.
Implicit Types (g : list (devfs_device D)) (d : devfs_device D).

Lemma find_some nm g d : NoDup (name <$> g) -> devfs_find nm g = Some d <-> d ∈ g /\ name d = nm.
Proof.
  intros Hnd. unfold devfs_find. split.
  - intros ([i x] & H & [= <-])%fmap_Some. apply list_find_Some in H as (Hi & Hn & _). split; [by eapply list_elem_of_lookup_2|done].
  - intros [Hin Hn]. destruct (list_find (fun d => name d = nm) g) as [[i x]|] eqn:E; cbn.
    + apply list_find_Some in E as (Hi & Hx & _). f_equal. apply list_elem_of_lookup in Hin as [j Hj]. assert (i = j) as ->; [|congruence].
      apply (NoDup_lookup _ _ _ nm Hnd); rewrite list_lookup_fmap; [rewrite Hi|rewrite Hj]; cbn; by f_equal.
    + apply list_find_None in E. rewrite Forall_forall in E. by destruct (E d Hin).
Qed.

Lemma find_none nm g : devfs_find nm g = None <-> nm ∉ name <$> g.
Proof.
  unfold devfs_find. rewrite fmap_None, list_find_None, Forall_forall. split.
  - intros H (d & -> & Hd)%list_elem_of_fmap. by apply (H d).
  - intros H d Hd E. apply H. rewrite <- E. by apply list_elem_of_fmap_2.
Qed.

(** The rest of the table without a name. *)
Definition without (nm : list Z) g := filter (fun d => name d <> nm) g.

Lemma without_none nm g : nm ∉ name <$> g -> without nm g = g.
Proof. intros H. unfold without. induction g as [|d g IH]; [done|]. rewrite fmap_cons, not_elem_of_cons in H. rewrite filter_cons_True by naive_solver. f_equal. apply IH, H. Qed.

Lemma unregister_without nm g : NoDup (name <$> g) -> devfs_unregister nm g = (if decide (nm ∈ name <$> g) then 0 else -1, without nm g).
Proof.
  induction g as [|d g IH]; intros Hnd; cbn [devfs_unregister]; [done|]. rewrite fmap_cons, NoDup_cons in Hnd. destruct Hnd as [Hd Hnd]. destruct (decide (name d = nm)) as [<-|Hne].
  - rewrite decide_True by (rewrite fmap_cons; left). unfold without. rewrite filter_cons_False by tauto. fold (without (name d) g). by rewrite without_none.
  - rewrite (IH Hnd). unfold without at 2. rewrite filter_cons_True by done. fold (without nm g). destruct (decide (nm ∈ name <$> g)); [rewrite decide_True|rewrite decide_False]; try done; rewrite fmap_cons, elem_of_cons; naive_solver.
Qed.

Lemma table_register d g :
  table_ok g -> (length (name d) < 23)%nat -> (length (model d) < 47)%nat ->
  exists r g', devfs_register d g = Ret (r, g') /\ table_ok g' /\
    ((r = -1 /\ g' = g /\ (length g = DEVFS_MAX_DEVICES \/ is_Some (devfs_find (name d) g))) \/
     (r = Z.of_nat (length g) /\ devfs_get r g' = Some d /\ forall n, devfs_find n g' = if decide (n = name d) then Some d else devfs_find n g)).
Proof.
  intros [Hnd Hsz Htx] Hn Hm. unfold devfs_register. destruct (Nat.leb_spec DEVFS_MAX_DEVICES (length g)).
  { eexists _, _. split; [done|]. split; [done|]. left. split_and!; try done. left. lia. }
  destruct (devfs_find (name d) g) as [x|] eqn:Ef. { eexists _, _. split; [done|]. split; [done|]. left. split_and!; try done. right. by eexists. }
  unfold copy_text. rewrite !(proj2 (Nat.ltb_lt _ _)), !bind_ret by done. eexists _, _. split; [done|]. apply find_none in Ef. destruct d as [n t bs bc m r w]. cbn in *.
  assert (NoDup (name <$> g ++ [mkDev n t bs bc m r w])) as Hnd'.
  { rewrite fmap_app. apply NoDup_app. split; [done|]. split; [|apply NoDup_singleton]. intros x Hx ->%list_elem_of_singleton. done. }
  split; [constructor; [done|rewrite length_app; cbn; lia|apply Forall_app; split; [done|]; by constructor]|]. right. split; [done|]. split.
  { unfold devfs_get, devfs_count. rewrite (proj2 (Z.ltb_ge _ _)), (proj2 (Z.leb_gt _ _)) by (rewrite ?length_app; cbn; lia). cbn. rewrite Nat2Z.id, lookup_app_r, Nat.sub_diag by lia. done. }
  intros k. destruct (decide (k = n)) as [->|Hk]. { apply (find_some _ _ _ Hnd'). split; [|done]. apply elem_of_app. right. by left. }
  destruct (devfs_find k g) as [x|] eqn:Ek.
  { apply (find_some _ _ _ Hnd'). apply (find_some _ _ _ Hnd) in Ek as [? ?]. split; [|done]. apply elem_of_app. by left. }
  apply find_none. apply find_none in Ek. rewrite fmap_app, elem_of_app. intros [?|?%list_elem_of_singleton]; done.
Qed.

Lemma table_unregister nm g :
  table_ok g -> let '(r, g') := devfs_unregister nm g in
  table_ok g' /\ (r = 0 <-> is_Some (devfs_find nm g)) /\ forall n, devfs_find n g' = if decide (n = nm) then None else devfs_find n g.
Proof.
  intros [Hnd Hsz Htx]. rewrite unregister_without by done.
  assert (NoDup (name <$> without nm g)) as Hnd' by (unfold without; eapply sublist_NoDup; [done|]; apply fmap_sublist, sublist_filter).
  split.
  { constructor; [done|etrans; [|exact Hsz]; apply length_filter|]. apply Forall_forall. intros x [_ Hx]%list_elem_of_filter. rewrite Forall_forall in Htx. by apply Htx. }
  split.
  { destruct (decide (nm ∈ name <$> g)) as [Hi|Hi].
    - split; [|done]. intros _. destruct (devfs_find nm g) eqn:E; [done|]. by apply find_none in E.
    - apply find_none in Hi. rewrite Hi. split; [done|by intros [? ?]]. }
  intros k. destruct (decide (k = nm)) as [->|Hk]. { apply find_none. intros (x & E & [Hx _]%list_elem_of_filter)%list_elem_of_fmap. by apply Hx. }
  destruct (devfs_find k g) as [x|] eqn:Ek.
  { apply (find_some _ _ _ Hnd'). apply (find_some _ _ _ Hnd) in Ek as [? <-]. split; [|done]. by apply list_elem_of_filter. }
  apply find_none. apply find_none in Ek. intros (x & E & [_ Hx]%list_elem_of_filter)%list_elem_of_fmap. apply Ek. rewrite E. by apply list_elem_of_fmap_2.
Qed.

(** A transfer by name is the driver's; an unknown name and a device without a
    function, such as the generic solid-state disks, are refused. *)
Lemma storage_rw {S} (call : bool -> D -> Z -> Z -> list Z -> S -> run (Z * list Z * S)) (w : bool) d lba count buf g s :
  table_ok g -> d ∈ g -> devfs_rw call w (name d) lba count buf g s =
    match (if w then write d else read d) with Some f => call w f lba count buf s | None => Ret (-1, buf, s) end.
Proof. intros [Hnd _ _] Hd. unfold devfs_rw. by rewrite (proj2 (find_some (name d) g d Hnd)). Qed.
End Map.

(** ** main.c: names of disks *)

Record counts := mkCounts { g_loop_count : Z; g_disk_count : Z; g_nvme_count : Z; g_ssd_count : Z }.
Inductive stor := IO_STOR_LOOP | IO_STOR_DISK | IO_STOR_NVME | IO_STOR_SSD.

(** [None]: a null pointer or a type that is none of the four; the log is left
    out. *)
Definition io_storage_assign (type : option stor) (partition : Z) (out : option (list Z)) (out_size : Z) (c : counts) : run (Z * option (list Z) * counts) :=
  match out, type with
  | None, _ | Some _, None => Ret (-1, out, c)
  | Some b, Some t =>
      if out_size =? 0 then Ret (-1, out, c)
      else
        let whole n fmt set := n1 ← int32 (n + 1); '(b, _) ← snprintf b out_size (str fmt) [AWord (u32 n)]; Ret (0, Some b, set n1) in
        let part n fmt := '(b, _) ← snprintf b out_size (str fmt) [AWord (u32 n); AWord (u32 partition)]; Ret (0, Some b, c) in
        match t with
        | IO_STOR_LOOP => whole (g_loop_count c) "loop%d" (fun n => mkCounts n (g_disk_count c) (g_nvme_count c) (g_ssd_count c))
        | IO_STOR_DISK =>
            if partition <? 0 then whole (g_disk_count c) "disk%d" (fun n => mkCounts (g_loop_count c) n (g_nvme_count c) (g_ssd_count c))
            else part (g_disk_count c) "disk%dp%d"
        | IO_STOR_NVME =>
            if partition <? 0 then whole (g_nvme_count c) "nvme%dn1" (fun n => mkCounts (g_loop_count c) (g_disk_count c) n (g_ssd_count c))
            else part (g_nvme_count c) "nvme%dn1p%d"
        | IO_STOR_SSD => whole (g_ssd_count c) "ssd%d" (fun n => mkCounts (g_loop_count c) (g_disk_count c) (g_nvme_count c) n)
        end
  end.

(** The partitions of the first disk, [disk0], are named after the next. *)
Lemma partition_of_next_disk :
  exists b1 c b2, io_storage_assign (Some IO_STOR_DISK) (-1) (Some (replicate 24 0)) 24 (mkCounts 0 0 0 0) = Ret (0, Some b1, c) /\ take 6 b1 = str "disk0" ++ [0] /\ io_storage_assign (Some IO_STOR_DISK) 1 (Some (replicate 24 0)) 24 c = Ret (0, Some b2, c) /\ take 8 b2 = str "disk1p1" ++ [0].
Proof. eexists _, _, _. split; [vm_compute; reflexivity|]. split; [done|]. split; [vm_compute; reflexivity|]. done. Qed.
