(* ===== verification/Ata.v ===== *)
(** * iokit/IOStorageFamily/ata/ata_pio.c

    Disks at the ATA ports, by programmed input and output.  The ports are a
    parameter ([Ports]); [AtaDisk] states what the driver relies on for reading,
    and a concrete disk discharges it.  Buffers are lists of 16-bit words.
    Shown: a read returns the sectors of the disk in order and always returns;
    what a write sends; and that a drive that obeys the reset bit is never
    found. *)

From S2P Require Import Prelude Printf Storage.

(** ** Registers *)

Class Ports (W : Type) :=
  { inb : Z -> W -> Z * W; outb : Z -> Z -> W -> W; inw : Z -> W -> Z * W; outw : Z -> Z -> W -> W }.

Definition ATA_PRIMARY_IO : Z := 0x1F0.
Definition ATA_PRIMARY_CTRL : Z := 0x3F6.
Definition ATA_SECONDARY_IO : Z := 0x170.
Definition ATA_SECONDARY_CTRL : Z := 0x376.
Definition ATA_SR_ERR : Z := 0x01.
Definition ATA_SR_RDY : Z := 0x40.
Definition ATA_SR_BSY : Z := 0x80.
Definition ATA_MAX_DRIVES : nat := 4.

Record ata_device := mkAta { bus : Z; drive : Z; signature : Z; capabilities : Z; lba_sectors : Z; ata_model : list Z; present : bool }.

Definition io_of (d : ata_device) : Z := if bus d =? 0 then ATA_PRIMARY_IO else ATA_SECONDARY_IO.
Definition ctrl_of (d : ata_device) : Z := if bus d =? 0 then ATA_PRIMARY_CTRL else ATA_SECONDARY_CTRL.

Section Driver.
Context {W : Type} `{!Ports W}.

Definition outbs (l : list (Z * Z)) (w : W) : W := foldl (fun w '(port, v) => outb port v w) w l.

(** [true]: ready. *)
Definition ata_poll (io : Z) (w : W) : run (bool * W) :=
  loop (fun '(i, w) =>
    if 100000 <=? i then Ret (inr (false, w))
    else
      let '(sts, w) := inb (io + 7) w in
      if (Z.land sts ATA_SR_BSY =? 0) && negb (Z.land sts ATA_SR_RDY =? 0) then Ret (inr (true, w)) else Ret (inl (i + 1, w))) (0, w).

Definition ata_400ns_delay (ctrl : Z) (w : W) : W := (inb ctrl (inb ctrl (inb ctrl (inb ctrl w).2).2).2).2.

(** [n] words from the data port. *)
Fixpoint read_words (n : nat) (io : Z) (w : W) : list Z * W :=
  match n with
  | O => ([], w)
  | S n => let '(x, w) := inw io w in let '(l, w) := read_words n io w in (x :: l, w)
  end.

Definition write_words (io : Z) (l : list Z) (w : W) : W := foldl (fun w x => outw io x w) w l.

(** ** ata_identify *)

Definition absent (d : ata_device) : ata_device := mkAta (bus d) (drive d) (signature d) (capabilities d) (lba_sectors d) (ata_model d) false.

Definition ata_identify (d : ata_device) (w : W) : run (Z * ata_device * W) :=
  let io := io_of d in
  let w := outbs [(ctrl_of d, 0x04); (io + 6, if drive d =? 0 then 0xA0 else 0xB0)] w in
  '(ok, w) ← ata_poll io w;
  if negb (ok : bool) then Ret (-1, absent d, w)
  else
    let w := outbs [(io + 2, 0); (io + 3, 0); (io + 4, 0); (io + 5, 0); (io + 7, 0xEC)] w in
    let '(sts, w) := inb (io + 7) w in
    if sts =? 0 then Ret (-1, absent d, w)
    else
      '(ok, w) ← ata_poll io w;
      if negb (ok : bool) then Ret (-1, absent d, w)
      else
        let '(buf, w) := read_words 256 io w in
        let word i := nth i buf 0 in
        let text := (take 20 (drop 27 buf)) ≫= (fun x => [Z.land (Z.shiftr x 8) 0xFF; Z.land x 0xFF]) in
        Ret (0, mkAta (bus d) (drive d) (word 0%nat) (word 49%nat) (word 60%nat + 65536 * word 61%nat) text true, w).

(** ** Sectors *)

(** The registers of a command: features, count, address, drive, command. *)
Definition task_file (d : ata_device) (lba count cmd : Z) : list (Z * Z) :=
  let io := io_of d in
  [(io + 1, 0); (io + 2, count); (io + 3, Z.land lba 0xFF); (io + 4, Z.land (Z.shiftr lba 8) 0xFF); (io + 5, Z.land (Z.shiftr lba 16) 0xFF);
   (io + 6, Z.lor (if drive d =? 0 then 0xE0 else 0xF0) (Z.land (Z.shiftr lba 24) 0x0F)); (io + 7, cmd)].

(** The loop over the sectors, [sect] of which are done. *)
Fixpoint read_sects (n sect : nat) (d : ata_device) (buf : list Z) (w : W) : run (Z * list Z * W) :=
  match n with
  | O => Ret (0, buf, w)
  | S n =>
      '(ok, w) ← ata_poll (io_of d) w;
      if negb (ok : bool) then Ret (-1, buf, w)
      else
        let '(sts, w) := inb (io_of d + 7) w in
        if negb (Z.land sts ATA_SR_ERR =? 0) then Ret (-1, buf, w)
        else
          let '(l, w) := read_words 256 (io_of d) w in
          buf ← buf_store (Z.of_nat sect * 256) l buf;
          read_sects n (sect + 1) d buf (ata_400ns_delay (ctrl_of d) w)
  end.

Definition ata_read_sectors (d : ata_device) (lba count : Z) (buf : list Z) (w : W) : run (Z * list Z * W) :=
  read_sects (Z.to_nat count) 0 d buf (outbs (task_file d lba count 0x20) w).

Fixpoint write_sects (n sect : nat) (d : ata_device) (buf : list Z) (w : W) : run (Z * W) :=
  match n with
  | O => Ret (0, w)
  | S n =>
      '(ok, w) ← ata_poll (io_of d) w;
      if negb (ok : bool) then Ret (-1, w)
      else
        let '(sts, w) := inb (io_of d + 7) w in
        if negb (Z.land sts ATA_SR_ERR =? 0) then Ret (-1, w)
        else
          l ← buf_slice (Z.of_nat sect * 256) 256 buf;
          let w := outb (io_of d + 7) 0xE7 (write_words (io_of d) l w) in
          write_sects n (sect + 1) d buf (ata_400ns_delay (ctrl_of d) w)
  end.

Definition ata_write_sectors (d : ata_device) (lba count : Z) (buf : list Z) (w : W) : run (Z * W) :=
  write_sects (Z.to_nat count) 0 d buf (outbs (task_file d lba count 0x30) w).

(** ** ata_init *)

Abbreviation disks := (list (devfs_device ata_device)).

Definition ata_name (n : nat) : list Z := str "sd" ++ [u8 (97 + Z.of_nat n)].

(** The drives found so far, the table of block devices, the ports. *)
Definition ata_probe (st : list ata_device * disks * W) (b dr : Z) : run (list ata_device * disks * W) :=
  let '(devs, g, w) := st in
  if (ATA_MAX_DRIVES <=? length devs)%nat then Fault
  else
    '(r, d, w) ← ata_identify (mkAta b dr 0 0 0 [] false) w;
    if (r =? 0) && present d then
      let text := (fun c => if c =? 0 then 32 else c) <$> ata_model d in
      '(_, g) ← devfs_register (mkDev (ata_name (length devs)) DEVFS_BLOCK_DEV 512 (lba_sectors d / 2048) text (Some d) (Some d)) g;
      Ret (devs ++ [d], g, w)
    else Ret (devs, g, w).

Definition ata_init (g : disks) (w : W) : run (list ata_device * disks * W) :=
  st ← ata_probe ([], g, w) 0 0; st ← ata_probe st 0 1; st ← ata_probe st 1 0; ata_probe st 1 1.
End Driver.

(** ** What a disk promises *)

Definition sectors (lba n : Z) (d : list Z) : list Z := take (Z.to_nat (n * 256)) (drop (Z.to_nat (lba * 256)) d).

(** The ports of the two channels. *)
Definition base_port (channel : Z) : Z := if decide (channel = 0) then 0x1F0 else 0x170.
Definition control_port (channel : Z) : Z := if decide (channel = 0) then 0x3F6 else 0x376.

(** What the registers 2 to 6 ask for, by the ATA specification: the count; the
    sector's number, its low byte in register 3 and its highest four bits in
    the low half of register 6; in register 6 also bit 6 for numbers of sectors
    in place of cylinders and bit 4 for the second drive. *)
Record request (r : Z -> Z) (unit lba n : Z) : Prop :=
  { rq_count : r 2 = n;
    rq_lba : r 3 + 2 ^ 8 * r 4 + 2 ^ 16 * r 5 + 2 ^ 24 * (r 6 mod 16) = lba;
    rq_mode : Z.testbit (r 6) 6 = true;
    rq_unit : Z.testbit (r 6) 4 = negb (unit =? 0) }.

(** The drive [unit] of a channel with the words [d] and the registers [r]
    ([resting]).  A register keeps what is written to it.  After the command
    0x20 for sectors of the disk the words [l] are to be fetched ([reading]):
    the drive is busy for [k] looks at its status, then ready; between sectors
    it may be busy again, but never for 100000 looks.  Looking at the alternate
    status changes nothing but time. *)
Class AtaDisk (W : Type) `{!Ports W} (channel unit : Z) :=
  { resting : list Z -> (Z -> Z) -> W -> Prop;
    reading : nat -> list Z -> list Z -> W -> Prop;
    register_keeps w d r i v : resting d r w -> 1 <= i <= 6 -> byte_ok v ->
      exists r', resting d r' (outb (base_port channel + i) v w) /\ r' i = v /\ forall j, 1 <= j <= 6 -> j <> i -> r' j = r j;
    read_starts w d r lba n : resting d r w -> request r unit lba n -> 0 < n < 256 -> (lba + n) * 256 <= Z.of_nat (length d) ->
      exists k, Z.of_nat k < 100000 /\ reading k (sectors lba n d) d (outb (base_port channel + 7) 0x20 w);
    read_busy w d l k : reading (S k) l d w -> l <> [] -> exists sts w', inb (base_port channel + 7) w = (sts, w') /\ Z.testbit sts 7 = true /\ reading k l d w';
    read_ready w d l : reading 0 l d w -> l <> [] ->
      exists sts w', inb (base_port channel + 7) w = (sts, w') /\ Z.testbit sts 7 = false /\ Z.testbit sts 6 = true /\ Z.testbit sts 0 = false /\ reading 0 l d w';
    read_word w d x l : reading 0 (x :: l) d w ->
      exists k w', inw (base_port channel) w = (x, w') /\ Z.of_nat k < 100000 /\ (k = 0%nat \/ exists q, length l = (q * 256)%nat) /\ reading k l d w';
    read_pause w d l k : reading k l d w -> exists k', (k' <= k)%nat /\ reading k' l d (inb (control_port channel) w).2;
    read_rests w d k : reading k [] d w -> exists r, resting d r w }.

(** The bits of the status. *)
Lemma sr_bsy sts : (Z.land sts ATA_SR_BSY =? 0) = negb (Z.testbit sts 7).
Proof. by apply (land_bit sts 7). Qed.
Lemma sr_rdy sts : (Z.land sts ATA_SR_RDY =? 0) = negb (Z.testbit sts 6).
Proof. by apply (land_bit sts 6). Qed.
Lemma sr_err sts : (Z.land sts ATA_SR_ERR =? 0) = negb (Z.testbit sts 0).
Proof. by apply (land_bit sts 0). Qed.

Section Reading.
Context {W : Type} `{!Ports W} (dv : ata_device) `{!AtaDisk W (bus dv) (drive dv)}.

Lemma io_base : io_of dv = base_port (bus dv).
Proof. unfold io_of, base_port. destruct (Z.eqb_spec (bus dv) 0); [by rewrite decide_True|by rewrite decide_False]. Qed.
Lemma ctrl_base : ctrl_of dv = control_port (bus dv).
Proof. unfold ctrl_of, control_port. destruct (Z.eqb_spec (bus dv) 0); [by rewrite decide_True|by rewrite decide_False]. Qed.

(** The registers that the driver writes ask for the sectors. *)
Lemma task_file_asks w d r lba n :
  resting d r w -> 0 <= lba -> 0 < n < 256 -> lba + n <= 2 ^ 28 -> (lba + n) * 256 <= Z.of_nat (length d) ->
  exists k, Z.of_nat k < 100000 /\ reading k (sectors lba n d) d (outbs (task_file dv lba n 0x20) w).
Proof.
  intros H0 Hlba Hn Hl Hd. unfold task_file. rewrite io_base. cbn [outbs foldl]. set (b := base_port (bus dv)).
  assert (forall x k, 0 <= k -> 0 <= x -> byte_ok (Z.land (Z.shiftr x k) 0xFF)) as Hb. { intros x k Hk Hx. change 0xFF with (Z.ones 8). rewrite Z.land_ones by lia. unfold byte_ok. apply Z.mod_pos_bound. lia. }
  assert (Z.land lba 0xFF = Z.land (Z.shiftr lba 0) 0xFF) as E0 by (by rewrite Z.shiftr_0_r). set (sel := Z.lor _ _).
  set (top := Z.shiftr lba 24). assert (Z.land top 0x0F = top mod 16) as Et by (change 0x0F with (Z.ones 4); by rewrite Z.land_ones).
  assert (sel = (if drive dv =? 0 then 0xE0 else 0xF0) + top mod 16) as Es.
  { subst sel. fold top. rewrite Et. pose proof (Z.mod_pos_bound top 16 ltac:(lia)) as Hm. generalize dependent (top mod 16). intros t _ Ht. assert (t = 0 \/ t = 1 \/ t = 2 \/ t = 3 \/ t = 4 \/ t = 5 \/ t = 6 \/ t = 7 \/ t = 8 \/ t = 9 \/ t = 10 \/ t = 11 \/ t = 12 \/ t = 13 \/ t = 14 \/ t = 15) as Hc by lia.
    destruct (drive dv =? 0); repeat destruct Hc as [->|Hc]; try done; by subst t. }
  pose proof (Z.mod_pos_bound top 16 ltac:(lia)) as Hm.
  destruct (register_keeps w d r 1 0 H0 ltac:(lia) ltac:(done)) as (r1 & H1 & _). destruct (register_keeps _ d r1 2 n H1 ltac:(lia) ltac:(unfold byte_ok; lia)) as (r2 & H2 & E2 & _).
  destruct (register_keeps _ d r2 3 (Z.land lba 0xFF) H2 ltac:(lia) ltac:(rewrite E0; by apply Hb)) as (r3 & H3 & E3 & K3).
  destruct (register_keeps _ d r3 4 (Z.land (Z.shiftr lba 8) 0xFF) H3 ltac:(lia) ltac:(by apply Hb)) as (r4 & H4 & E4 & K4).
  destruct (register_keeps _ d r4 5 (Z.land (Z.shiftr lba 16) 0xFF) H4 ltac:(lia) ltac:(by apply Hb)) as (r5 & H5 & E5 & K5).
  destruct (register_keeps _ d r5 6 sel H5 ltac:(lia) ltac:(rewrite Es; unfold byte_ok; destruct (drive dv =? 0); lia)) as (r6 & H6 & E6 & K6).
  apply (read_starts _ d r6 lba n H6); [|lia|lia]. constructor.
  - by rewrite K6, K5, K4, K3, E2 by lia.
  - rewrite E6, K6, K6, K6, K5, K5, K4, E3, E4, E5, Es by lia. change 0xFF with (Z.ones 8). rewrite !Z.land_ones by lia. subst top. rewrite !Z.shiftr_div_pow2 by lia.
    destruct (drive dv =? 0); Z.div_mod_to_equations; lia.
  - rewrite E6, Es. apply Z.testbit_true; [lia|]. destruct (drive dv =? 0); Z.div_mod_to_equations; lia.
  - rewrite E6, Es. destruct (drive dv =? 0); [apply Z.testbit_false|apply Z.testbit_true]; try lia; Z.div_mod_to_equations; lia.
Qed.

Lemma poll_ready k l d w : reading k l d w -> l <> [] -> Z.of_nat k < 100000 -> exists w', ata_poll (io_of dv) w = Ret (true, w') /\ reading 0 l d w'.
Proof.
  intros Hr Hl Hk. unfold ata_poll. rewrite io_base.
  loop_with (fun '(i, w) => exists j, reading j l d w /\ 0 <= i /\ i + Z.of_nat j < 100000) (fun '(ok, w') => ok = true /\ reading 0 l d w') (fun '(i, _) => 100000 - i) as ([ok w'] & -> & -> & H').
  - intros [i w1] (j & Hj & Hi & Hij). rewrite (proj2 (Z.leb_gt _ _)) by lia. destruct j as [|j].
    + right. destruct (read_ready w1 d l Hj Hl) as (sts & w2 & -> & E1 & E2 & _ & H2). rewrite sr_bsy, sr_rdy, E1, E2. by eexists (_, _).
    + left. destruct (read_busy w1 d l j Hj Hl) as (sts & w2 & -> & E1 & H2). rewrite sr_bsy, E1. cbn [negb andb]. eexists (_, _). split; [done|]. split; [|lia].
      exists j. split; [done|lia].
  - exists k. split; [done|lia].
  - lia.
  - by exists w'.
Qed.

(** The words of a sector, or what is left of it. *)
Lemma words_read n l q d w :
  reading 0 l d w -> length l = (n + q * 256)%nat -> (0 < n <= 256)%nat ->
  exists k w', read_words n (io_of dv) w = (take n l, w') /\ Z.of_nat k < 100000 /\ reading k (drop n l) d w'.
Proof.
  rewrite io_base. revert l w. induction n as [|n IH]; intros l w Hr Hl Hn; [lia|]. destruct l as [|x l]; [cbn in Hl; lia|]. cbn [length] in Hl. cbn [read_words take drop].
  destruct (read_word w d x l Hr) as (k & w1 & -> & Hk & Hq & H1). destruct n as [|n].
  { cbn [read_words]. exists k, w1. split; [done|]. by rewrite drop_0. }
  assert (k = 0%nat) as -> by (destruct Hq as [?|[z Hz]]; [done|exfalso; lia]).
  destruct (IH l w1 H1) as (k' & w' & -> & Hk' & H'); [lia|lia|]. by exists k', w'.
Qed.

Lemma pauses k l d w : reading k l d w -> exists k', (k' <= k)%nat /\ reading k' l d (ata_400ns_delay (ctrl_of dv) w).
Proof.
  intros H0. rewrite ctrl_base. destruct (read_pause w d l k H0) as (k1 & ? & P1). destruct (read_pause _ d l k1 P1) as (k2 & ? & P2).
  destruct (read_pause _ d l k2 P2) as (k3 & ? & P3). destruct (read_pause _ d l k3 P3) as (k4 & ? & P4). exists k4. split; [lia|done].
Qed.

Lemma sects_read n sect k l d buf w :
  reading k l d w -> Z.of_nat k < 100000 -> length l = (n * 256)%nat -> (sect * 256 + n * 256 <= length buf)%nat ->
  exists w', read_sects n sect dv buf w = Ret (0, splice (sect * 256) l buf, w') /\ exists r, resting d r w'.
Proof.
  revert sect k l buf w. induction n as [|n IH]; intros sect k l buf w Hr Hk Hl Hb; cbn [read_sects].
  { apply nil_length_inv in Hl as ->. rewrite splice_nil. exists w. split; [done|]. by eapply read_rests. }
  assert (l <> []) as Hne by (intros ->; cbn in Hl; lia). destruct (poll_ready k l d w Hr Hne Hk) as (w1 & -> & H1). rewrite bind_ret. cbn [negb].
  rewrite io_base. destruct (read_ready w1 d l H1 Hne) as (sts & w2 & -> & _ & _ & Ee & H2). rewrite sr_err, Ee. cbn [negb]. rewrite <- io_base.
  destruct (words_read 256 l n d w2 H2) as (k3 & w3 & -> & Hk3 & H3); [lia|lia|]. assert (length (take 256 l) = 256%nat) as Ht by (rewrite length_take; lia).
  rewrite buf_store_ok, bind_ret by lia. replace (Z.to_nat (Z.of_nat sect * 256)) with (sect * 256)%nat by lia. destruct (pauses k3 _ d w3 H3) as (k4 & ? & H4).
  destruct (IH (sect + 1)%nat k4 (drop 256 l) (splice (sect * 256) (take 256 l) buf) _ H4) as (w' & -> & H'); [lia|rewrite length_drop; lia|rewrite length_splice; lia|].
  exists w'. split; [|done]. do 3 f_equal. replace ((sect + 1) * 256)%nat with (sect * 256 + length (take 256 l))%nat by lia. rewrite splice_splice by (rewrite length_drop; lia). by rewrite take_drop.
Qed.
End Reading.

(** C26: ATA reads.  From any drive that keeps to the protocol - it takes the
    registers by the layout of the ATA specification and is busy, before each
    sector, for fewer than 100000 looks at its status - a read of 1 to 255
    sectors of the disk below number 2^28 returns with exactly these sectors, in
    order, at the start of the buffer, and the disk is as before. *)
Theorem ata_read_correct {W : Type} `{!Ports W} (dv : ata_device) `{!AtaDisk W (bus dv) (drive dv)} lba n d r buf (w : W) :
  resting d r w -> 0 <= lba -> 0 < n < 256 -> lba + n <= 2 ^ 28 -> (lba + n) * 256 <= Z.of_nat (length d) -> n * 256 <= Z.of_nat (length buf) ->
  exists w' r', ata_read_sectors dv lba n buf w = Ret (0, splice 0 (sectors lba n d) buf, w') /\ resting d r' w'.
Proof.
  intros Hr Hlba Hn Hl Hd Hb. destruct (task_file_asks dv w d r lba n Hr Hlba Hn Hl Hd) as (k & Hk & H1). unfold ata_read_sectors.
  destruct (sects_read dv (Z.to_nat n) 0 k (sectors lba n d) d buf _ H1 Hk) as (w' & E & r' & H'); [unfold sectors; rewrite length_take, length_drop; lia|lia|]. by exists w', r'.
Qed.

(** ** A drive *)

(** The master of the first channel: words, registers, words to be fetched, how
    long it stays busy.  It is busy for two looks before each sector. *)
Record drv := mkDrv { content : list Z; regs : Z -> Z; left : list Z; busy : nat }.

Definition drv_command (w : drv) : drv :=
  let lba := regs w 0x1F3 + 256 * regs w 0x1F4 + 65536 * regs w 0x1F5 + 2 ^ 24 * Z.land (regs w 0x1F6) 0x0F in
  mkDrv (content w) (regs w) (sectors lba (regs w 0x1F2) (content w)) 2.

#[export] Instance drv_ports : Ports drv :=
  {| inb port w :=
       if port =? 0x1F7 then
         match busy w with S k => (0x80, mkDrv (content w) (regs w) (left w) k) | O => (0x58, w) end
       else (0, w);
     outb port v w :=
       if port =? 0x1F7 then if v =? 0x20 then drv_command w else w
       else mkDrv (content w) (fun p => if p =? port then v else regs w p) (left w) (busy w);
     inw _ w :=
       match left w with
       | x :: l => (x, mkDrv (content w) (regs w) l (if (length l mod 256 =? 0)%nat then 2%nat else 0%nat))
       | [] => (0, w)
       end;
     outw _ _ w := w |}.

Definition dv0 : ata_device := mkAta 0 0 0 0 0 [] true.

#[export] Instance drv_disk : AtaDisk drv (bus dv0) (drive dv0).
Proof.
  refine {| resting d r w := content w = d /\ (forall i, 1 <= i <= 6 -> regs w (0x1F0 + i) = r i); reading k l d w := content w = d /\ left w = l /\ busy w = k |}.
  - intros w d r i v (<- & Hr) Hi _. exists (fun j => if j =? i then v else r j). change (base_port (bus dv0)) with 0x1F0. cbn [outb drv_ports]. rewrite (proj2 (Z.eqb_neq _ _)) by lia. split; [|split].
    + split; [done|]. intros j Hj. cbn [regs]. destruct (Z.eqb_spec j i) as [->|]; [by rewrite Z.eqb_refl|]. rewrite (proj2 (Z.eqb_neq _ _)) by lia. by apply Hr.
    + by rewrite Z.eqb_refl.
    + intros j _ Hj. by rewrite (proj2 (Z.eqb_neq _ _)).
  - intros w d r lba n (<- & Hr) [E2 El _ _] _ _. exists 2%nat. split; [lia|]. split; [done|]. split; [|done]. cbn [outb drv_ports]. change (base_port (bus dv0) + 7 =? 0x1F7) with true. cbn iota.
    unfold drv_command. cbn [left]. pose proof (Hr 2 ltac:(lia)) as R2. pose proof (Hr 3 ltac:(lia)) as R3. pose proof (Hr 4 ltac:(lia)) as R4. pose proof (Hr 5 ltac:(lia)) as R5. pose proof (Hr 6 ltac:(lia)) as R6.
    change (496 + 2) with 498 in R2. change (496 + 3) with 499 in R3. change (496 + 4) with 500 in R4. change (496 + 5) with 501 in R5. change (496 + 6) with 502 in R6.
    change (0x20 =? 0x20) with true. cbn [left]. rewrite R2, R3, R4, R5, R6, E2. change 0x0F with (Z.ones 4). rewrite Z.land_ones by lia. change (2 ^ 4) with 16. by rewrite <- El.
  - intros w d l k (<- & <- & E) _. exists 0x80. cbn. rewrite E. by eexists.
  - intros w d l (<- & <- & E) _. exists 0x58, w. cbn. by rewrite E.
  - intros w d x l (<- & E & _). exists (if (length l mod 256 =? 0)%nat then 2%nat else 0%nat). cbn [inw drv_ports]. rewrite E. eexists. split; [done|].
    split; [by case_match|]. split; [|done]. destruct (Nat.eqb_spec (length l mod 256) 0) as [Hm|]; [right|by left]. exists (length l / 256)%nat. pose proof (Nat.div_mod_eq (length l) 256). lia.
  - intros w d l k H. by exists k.
  - intros w d k (<- & _). by exists (fun i => regs w (0x1F0 + i)).
Defined.

Lemma ata_read_correct_witness :
  exists w' r', ata_read_sectors dv0 1 1 (replicate 256 0) (mkDrv (replicate 256 7 ++ seqZ 0 256) (fun _ => 0) [] 0) = Ret (0, splice 0 (sectors 1 1 (replicate 256 7 ++ seqZ 0 256)) (replicate 256 0), w') /\
    resting (replicate 256 7 ++ seqZ 0 256) r' w'.
Proof. apply (ata_read_correct dv0 1 1 _ (fun _ => 0)); [done|lia|lia|lia|by vm_compute|by vm_compute]. Defined.

(** ** What a write sends *)

(** Ports that record what is written and are always ready. *)
Inductive output := Byte (port v : Z) | Word (port v : Z).
#[export] Instance log_ports : Ports (list output) :=
  {| inb _ w := (0x50, w); outb port v w := w ++ [Byte port v]; inw _ w := (0, w); outw port v w := w ++ [Word port v] |}.

Lemma log_words io l w : write_words io l w = w ++ (Word io <$> l).
Proof. revert w. induction l as [|x l IH]; intros w; cbn; [by rewrite app_nil_r|]. unfold write_words in IH. by rewrite IH, <- app_assoc. Qed.

Lemma log_poll io (w : list output) : ata_poll io w = Ret (true, w).
Proof.
  unfold ata_poll. loop_with (fun '(i, w1) => i = 0 /\ w1 = w) (fun '(ok, w1) => ok = true /\ w1 = w) (fun _ => 0) as ([ok w1] & -> & -> & ->); [|done..].
  intros [i w1] [-> ->]. right. by eexists (_, _).
Qed.

(** A sector's words and a flush. *)
Definition sector_out (dv : ata_device) (l : list Z) : list output := (Word (io_of dv) <$> l) ++ [Byte (io_of dv + 7) 0xE7].

(** To a drive that is always ready a write sends the buffer's words in order,
    and a flush command in between the sectors of the one command. *)
Theorem write_sends dv lba (chunks : list (list Z)) (w : list output) :
  Forall (fun l => length l = 256%nat) chunks ->
  ata_write_sectors dv lba (Z.of_nat (length chunks)) (concat chunks) w =
    Ret (0, w ++ (uncurry Byte <$> task_file dv lba (Z.of_nat (length chunks)) 0x30) ++ (chunks ≫= sector_out dv)).
Proof.
  intros Hc. unfold ata_write_sectors. rewrite Nat2Z.id.
  assert (outbs (task_file dv lba (Z.of_nat (length chunks)) 0x30) w = w ++ (uncurry Byte <$> task_file dv lba (Z.of_nat (length chunks)) 0x30)) as ->.
  { unfold task_file. cbn. by rewrite <- !app_assoc. }
  rewrite app_assoc. generalize (w ++ (uncurry Byte <$> task_file dv lba (Z.of_nat (length chunks)) 0x30)). clear w.
  assert (forall done todo w, Forall (fun l => length l = 256%nat) (done ++ todo) ->
    write_sects (length todo) (length done) dv (concat (done ++ todo)) w = Ret (0, w ++ (todo ≫= sector_out dv))) as H; [|intros w; by apply (H [] chunks)].
  intros done_ todo. revert done_. induction todo as [|l todo IH]; intros done_ w Hf; cbn [length write_sects]; [by rewrite app_nil_r|].
  rewrite log_poll, bind_ret. cbn [negb inb log_ports]. change (negb (Z.land 80 ATA_SR_ERR =? 0)) with false. cbn iota.
  apply Forall_app in Hf as [Hd Ht]. apply Forall_cons in Ht as [Hl Ht].
  assert (length (concat done_) = (length done_ * 256)%nat) as Hlen. { clear -Hd. induction Hd as [|x xs Hx _ IH]; cbn; [done|]. rewrite length_app, IH. lia. }
  rewrite concat_app. cbn [concat]. rewrite buf_slice_ok; [|lia|lia|rewrite !length_app; lia].
  replace (Z.to_nat (Z.of_nat (length done_) * 256)) with (length (concat done_)) by lia. rewrite drop_app_length.
  replace (Z.to_nat 256) with (length l) by lia. rewrite take_app_length, bind_ret, log_words. cbn [outb log_ports].
  specialize (IH (done_ ++ [l]) (((w ++ (Word (io_of dv) <$> l)) ++ [Byte (io_of dv + 7) 0xE7]))). rewrite length_app, <- app_assoc in IH. cbn [length app] in IH.
  rewrite concat_app in IH. cbn [concat] in IH. unfold ata_400ns_delay. cbn [inb log_ports snd]. rewrite IH; [|apply Forall_app; split; [done|by constructor]].
  do 2 f_equal. unfold sector_out at 2. cbn [mbind list_bind]. by rewrite <- !app_assoc.
Qed.

(** ** What the code gets wrong *)

(** [ata_identify] sets the reset bit of a channel and never clears it.  A drive
    that is busy as long as the bit is set is not found. *)
Definition held {W} `{!Ports W} (R : W -> Prop) (dv : ata_device) : Prop :=
  forall w, R w -> exists sts w', inb (io_of dv + 7) w = (sts, w') /\ Z.land sts ATA_SR_BSY <> 0 /\ R w'.

Lemma poll_held {W} `{!Ports W} (R : W -> Prop) dv w : held R dv -> R w -> exists w', ata_poll (io_of dv) w = Ret (false, w') /\ R w'.
Proof.
  intros Hh H0. unfold ata_poll.
  loop_with (fun '(i, w) => 0 <= i <= 100000 /\ R w) (fun '(ok, w) => ok = false /\ R w) (fun '(i, _) => 100000 - i) as ([ok w'] & -> & -> & H').
  - intros [i w1] [Hi H1]. destruct (Z.leb_spec 100000 i); [right; by eexists (_, _)|]. left. destruct (Hh w1 H1) as (sts & w2 & -> & Hb & H2).
    rewrite (proj2 (Z.eqb_neq _ 0)) by done. cbn [andb]. eexists (_, _). split; [done|]. split; [split; [lia|done]|lia].
  - split; [lia|done].
  - lia.
  - by exists w'.
Qed.

Theorem reset_hides_drive {W} `{!Ports W} (R : W -> Prop) dv w :
  held R dv -> R (outbs [(ctrl_of dv, 0x04); (io_of dv + 6, if drive dv =? 0 then 0xA0 else 0xB0)] w) ->
  exists w', ata_identify dv w = Ret (-1, absent dv, w') /\ R w'.
Proof. intros Hh H0. unfold ata_identify. destruct (poll_held R dv _ Hh H0) as (w' & -> & H'). rewrite bind_ret. by exists w'. Qed.

(** A count of 0 means 256 sectors to the drive, and none to the loop. *)
Lemma count_zero dv lba buf (w : list output) : ata_read_sectors dv lba 0 buf w = Ret (0, buf, outbs (task_file dv lba 0 0x20) w).
Proof. done. Qed.

(** Sector 2^28 is addressed as sector 0. *)
Lemma lba_truncated dv n cmd : task_file dv (2 ^ 28) n cmd = task_file dv 0 n cmd.
Proof. done. Qed.
