(* ===== verification/Usb.v ===== *)
(** * iokit/IOUSBFamily: core/usb.c, core/usb_irq.c and dev/usbdev.c

    The memory that USB controllers reach by DMA comes from a pool of page
    frames; devices describe themselves by lists of descriptors; interfaces are
    classified and entered into a registry.  Shown: blocks of the pool never
    overlap, are aligned, lie in frames of the pool and keep their bytes;
    interfaces and endpoints are found in the descriptors where they are and no
    descriptor makes the search for interfaces leave its buffer; and the
    requests and descriptors on which the code fails or hangs. *)

From S2P Require Import Prelude Pmm Paging.
Import Pmm.Pmm Vm.

(** ** Time

    [tsc_ms] counts milliseconds in 64 bits; the drivers see the lower 32. *)
Definition usb_now_ms (tsc_ms : Z) : Z := u32 tsc_ms.

(** From [a] to [b]: a sleep of [n] milliseconds takes at most a second longer. *)
Definition slept (n a b : Z) : Prop := a + n <= b <= a + n + 1000.

(** While the lower 32 bits do not wrap around they advance with the clock. *)
Lemma usb_now_later a b : a <= b -> usb_now_ms a + (b - a) < 2 ^ 32 -> usb_now_ms b = usb_now_ms a + (b - a).
Proof.
  intros Hab Hw. unfold usb_now_ms, u32 in *. pose proof (Z.mod_pos_bound a (2 ^ 32) ltac:(lia)). rewrite <- (Z.mod_small (a mod 2 ^ 32 + (b - a)) (2 ^ 32)) by lia.
  rewrite Z.add_mod_idemp_l by lia. f_equal. lia.
Qed.
Lemma usb_now_range a : 0 <= usb_now_ms a < 2 ^ 32.
Proof. apply u32_range. Qed.

(** ** usb.c: the DMA pool *)

Definition USB_DMA_PAGE_SIZE : Z := 4096.
Definition USB_DMA_MAX_PAGES : Z := 2048.
Definition USB_DMA_MIN_ALIGN : Z := 256.

(** [ALIGN(x, a)] on 32 bits. *)
Definition ALIGN (x a : Z) : Z := Z.land (u32 (u32 (x + a) - 1)) (u32 (Z.lnot (u32 (a - 1)))).

Record usb_dma_page := mkPage { phys : Z; used : Z }.

Section Pool.
Context {A : Type} `{!FrameAllocator A}.

(** [g_dma_npages] is the number of pages; [ram] are the bytes of low memory,
    which is mapped at its physical addresses. *)
Record dma := mkDma
  { g_dma_pages : list usb_dma_page; g_dma_cur : Z; g_dma_va_base : Z; g_dma_va_end : Z; g_dma_total : Z;
    mach : vm A; ram : Z -> Z }.
Definition g_dma_npages (s : dma) : Z := Z.of_nat (length (g_dma_pages s)).
Definition set_mach (v : vm A) (s : dma) : dma :=
  mkDma (g_dma_pages s) (g_dma_cur s) (g_dma_va_base s) (g_dma_va_end s) (g_dma_total s) v (ram s).
Definition set_cur (c : Z) (s : dma) : dma :=
  mkDma (g_dma_pages s) c (g_dma_va_base s) (g_dma_va_end s) (g_dma_total s) (mach s) (ram s).

Definition usb_dma_grow_page (s : dma) : run (Z * dma) :=
  if USB_DMA_MAX_PAGES <=? g_dma_npages s then Ret (-1, s)
  else
    let '(p, v) := new_frame (mach s) in
    if p =? 0 then Ret (-1, set_mach v s)
    else
      v ← paging_map_page p p (Z.lor PAGE_PRESENT PAGE_WRITE) v;
      let base := if (g_dma_va_base s =? 0) || (p <? g_dma_va_base s) then p else g_dma_va_base s in
      let end_ := if g_dma_va_end s <? u64 (p + USB_DMA_PAGE_SIZE) then u64 (p + USB_DMA_PAGE_SIZE) else g_dma_va_end s in
      Ret (0, mkDma (g_dma_pages s ++ [mkPage p 0]) (g_dma_npages s) base end_ (g_dma_total s) v (ram s)).

(** The processor's cache line, which [usb_dma_detect_cpu] asks for, is below. *)
Definition usb_dma_pool_init (s : dma) : run dma :=
  if g_dma_npages s =? 0 then '(_, s) ← usb_dma_grow_page s; Ret s else Ret s.

Definition usb_dma_reset (s : dma) : dma :=
  mkDma ((fun p => mkPage (phys p) 0) <$> g_dma_pages s) 0 (g_dma_va_base s) (g_dma_va_end s) 0 (mach s) (ram s).

(** One round of the search for a page with room: the address, 0 for null. *)
Definition carve_round (size align : Z) (s : dma) : run (dma + Z * dma) :=
  match g_dma_pages s !! Z.to_nat (g_dma_cur s) with
  | None => Fault
  | Some p =>
      let start := ALIGN (used p) align in
      if u32 (start + size) <=? USB_DMA_PAGE_SIZE then
        let pages := <[Z.to_nat (g_dma_cur s) := mkPage (phys p) (u32 (start + size))]> (g_dma_pages s) in
        Ret (inr (u64 (phys p + start),
          mkDma pages (g_dma_cur s) (g_dma_va_base s) (g_dma_va_end s) (u32 (g_dma_total s + size)) (mach s) (ram s)))
      else if u32 (g_dma_cur s + 1) <? g_dma_npages s then Ret (inl (set_cur (u32 (g_dma_cur s + 1)) s))
      else
        '(r, s) ← usb_dma_grow_page s;
        if r =? 0 then Ret (inl s) else Ret (inr (0, s))
  end.

Definition usb_dma_carve (size align : Z) (s : dma) : run (Z * dma) :=
  let align := if align <? 16 then 16 else align in
  '(r, s) ← (if g_dma_npages s =? 0 then usb_dma_grow_page s else Ret (0, s));
  if r =? 0 then loop (carve_round size align) s else Ret (0, s).

(** [klibc.memset(p, 0, size)] *)
Definition zeroed (p size : Z) (m : Z -> Z) : Z -> Z := fun x => if (p <=? x) && (x <? p + size) then 0 else m x.
Definition zero (p size : Z) (s : dma) : dma :=
  mkDma (g_dma_pages s) (g_dma_cur s) (g_dma_va_base s) (g_dma_va_end s) (g_dma_total s) (mach s) (zeroed p size (ram s)).

Definition usb_dma_alloc (size : Z) (s : dma) : run (Z * dma) :=
  let rounded := u32 (Z.land (u64 (u64 (size + USB_DMA_MIN_ALIGN) - 1)) (u64 (Z.lnot (USB_DMA_MIN_ALIGN - 1)))) in
  '(va, s) ← usb_dma_carve rounded USB_DMA_MIN_ALIGN s;
  if va =? 0 then Ret (0, s) else Ret (va, zero va size s).

Definition usb_dma_alloc_aligned (size align : Z) (s : dma) : run (Z * dma) :=
  let align := if align <? USB_DMA_MIN_ALIGN then USB_DMA_MIN_ALIGN else align in
  let rounded := u32 (Z.land (u64 (u64 (size + align) - 1)) (u32 (Z.lnot (u32 (align - 1))))) in
  '(va, s) ← usb_dma_carve rounded align s;
  if va =? 0 then Ret (0, s) else Ret (va, zero va size s).

Definition usb_alloc (size : Z) (s : dma) : run (Z * dma) := usb_dma_alloc size s.
End Pool.
Arguments dma : clear implicits.

(** ** Blocks of the pool *)

(** [size] rounded up to a multiple of [2^k]. *)
Definition round_up (k x : Z) : Z := (x + 2 ^ k - 1) / 2 ^ k * 2 ^ k.

Lemma mask_down32 n x :
  0 <= n -> 0 <= x < 2 ^ 32 -> Z.land x (u32 (Z.lnot (Z.ones n))) = x / 2 ^ n * 2 ^ n.
Proof.
  intros Hn Hx. unfold u32. rewrite <- Z.land_ones by lia.
  rewrite Z.land_comm, <- Z.land_assoc, (Z.land_comm (Z.ones 32)), Z.land_ones, Z.mod_small by lia.
  rewrite Z.land_comm, <- Z.ldiff_land, Z.ldiff_ones_r by lia.
  by rewrite Z.shiftl_mul_pow2, Z.shiftr_div_pow2 by lia.
Qed.

Lemma ALIGN_round k x : 0 <= k <= 12 -> 0 <= x <= 2 ^ 20 -> ALIGN x (2 ^ k) = round_up k x.
Proof.
  intros Hk Hx. unfold ALIGN, round_up.
  assert (1 <= 2 ^ k <= 2 ^ 12) as Hp by (split; [lia|apply Z.pow_le_mono_r; lia]).
  rewrite (u32_small (x + 2 ^ k)), (u32_small (x + 2 ^ k - 1)), (u32_small (2 ^ k - 1)) by lia.
  replace (2 ^ k - 1) with (Z.ones k) by (rewrite Z.ones_equiv; lia). apply mask_down32; lia.
Qed.

Lemma round_up_bounds k x : 0 <= k -> x <= round_up k x < x + 2 ^ k /\ round_up k x mod 2 ^ k = 0.
Proof.
  intros Hk. unfold round_up. assert (0 < 2 ^ k) by lia. split; [|by rewrite Z.mod_mul by lia].
  Z.div_mod_to_equations. nia.
Qed.

(** A page is a whole number of aligned blocks. *)
Lemma round_up_page k x : 0 <= k <= 12 -> x <= 4096 -> round_up k x <= 4096.
Proof.
  intros Hk Hx. assert (4096 = 2 ^ (12 - k) * 2 ^ k) as E by (rewrite <- Z.pow_add_r by lia; replace (12 - k + k) with 12 by lia; done).
  assert (0 < 2 ^ k) as Hp by lia. unfold round_up. rewrite E. apply Z.mul_le_mono_nonneg_r; [lia|].
  apply Z.lt_succ_r, Z.div_lt_upper_bound; [done|]. nia.
Qed.

Section Blocks.
Context {A : Type} `{!FrameAllocator A}.
Implicit Types s : dma A.

(** A block: its address and its length. *)
Abbreviation blocks := (list (Z * Z)).

Definition inside (p : usb_dma_page) (b : Z * Z) : Prop := phys p <= b.1 /\ 0 < b.2 /\ b.1 + b.2 <= phys p + used p.
Definition apart (b c : Z * Z) : Prop := b.1 + b.2 <= c.1 \/ c.1 + c.2 <= b.1.

(** [live]: the blocks handed out since the last reset. *)
Record pool_ok (s : dma A) (live : blocks) : Prop :=
  { pool_vm : exists own, vm_ok (mach s) own;
    pool_page : Forall (fun p => frame_ok (phys p) /\ 0 <= used p <= 4096 /\ phys p ∉ fa_frames (alloc (mach s))) (g_dma_pages s);
    pool_nodup : NoDup (phys <$> g_dma_pages s);
    pool_size : g_dma_npages s <= USB_DMA_MAX_PAGES;
    pool_cur : 0 <= g_dma_cur s < g_dma_npages s \/ g_dma_pages s = [] /\ g_dma_cur s = 0;
    pool_inside : Forall (fun b => exists p, p ∈ g_dma_pages s /\ inside p b) live;
    pool_apart : ForallOrdPairs apart live }.

(** No frame is left, or no place in the table of pages. *)
Definition exhausted (s : dma A) : Prop := g_dma_npages s = USB_DMA_MAX_PAGES \/ fa_frames (alloc (mach s)) = ∅.

Lemma low_pml4 f : frame_ok f -> PML4_INDEX f <> 511.
Proof.
  intros [[H1 H2] _]. unfold PML4_INDEX. rewrite Z.shiftr_div_pow2 by lia. rewrite Z.div_small by (unfold PMM_MAX_ADDR in H2; lia). done.
Qed.

Lemma grow_spec s live :
  pool_ok s live ->
  exists r s', usb_dma_grow_page s = Ret (r, s') /\ pool_ok s' live /\ ram s' = ram s /\
    ((r = 0 /\ (exists f, g_dma_pages s' = g_dma_pages s ++ [mkPage f 0]) /\ g_dma_cur s' = g_dma_npages s /\ ~ exhausted s) \/
     (r = -1 /\ g_dma_pages s' = g_dma_pages s /\ g_dma_cur s' = g_dma_cur s /\ exhausted s')).
Proof.
  intros Hok. pose proof Hok as [[own Hvm] Hpg Hnd Hsz Hcur Hin Hap]. unfold usb_dma_grow_page.
  destruct (Z.leb_spec USB_DMA_MAX_PAGES (g_dma_npages s)).
  { exists (-1), s. split_and!; try done. right. split_and!; try done. left. lia. }
  destruct (decide (fa_frames (alloc (mach s)) = ∅)) as [He|He].
  { unfold new_frame. destruct (fa_alloc (alloc (mach s))) as [f a] eqn:Ea.
    assert (f = 0) as ->.
    { destruct (decide (f = 0)); [done|]. destruct (fa_alloc_some _ _ _ (ok_inv _ _ Hvm) Ea n) as (_ & Hf & _). set_solver. }
    destruct (fa_alloc_none _ _ (ok_inv _ _ Hvm) Ea) as [_ ->]. exists (-1), s. cbn [Z.eqb]. split_and!; try done.
    { by destruct s as [? ? ? ? ? [] ?]. } right. split_and!; try done. by right. }
  destruct (new_frame_some _ _ Hvm He) as (f & v1 & -> & Hf0 & Htook & _). rewrite (proj2 (Z.eqb_neq _ _) Hf0).
  pose proof Htook as (_ & _ & Hf & Hfok & Hfr & _).
  destruct (paging_map_page_spec v1 own f f (Z.lor PAGE_PRESENT PAGE_WRITE)) as (v2 & own2 & -> & Hvm2 & _ & _ & Hsub & _);
    [by eapply took_frame_ok|by apply low_pml4|]. rewrite bind_ret.
  eexists 0, _. split; [done|]. split; [|split; [done|left; split_and!; [done|by eauto|done|intros [?|?]; [lia|done]]]].
  constructor; cbn [g_dma_pages g_dma_cur mach]; unfold g_dma_npages in *; cbn [g_dma_pages].
  - by exists own2.
  - apply Forall_app. split.
    + eapply Forall_impl; [exact Hpg|]. intros p (? & ? & ?). split; [done|]. split; [done|]. set_solver.
    + constructor; [|done]. cbn. split; [done|]. split; [lia|]. set_solver.
  - rewrite fmap_app, NoDup_app. split_and!; [done| |apply NoDup_singleton]. intros x Hx Hx'. cbn in Hx'.
    apply list_elem_of_singleton in Hx' as ->. apply list_elem_of_fmap in Hx as (p & E & Hp). rewrite Forall_forall in Hpg.
    destruct (Hpg p Hp) as (_ & _ & Hn). rewrite <- E in Hn. done.
  - rewrite length_app. cbn. lia.
  - left. rewrite length_app. cbn. lia.
  - eapply Forall_impl; [exact Hin|]. intros b (p & Hp & Hb). exists p. split; [|done]. apply elem_of_app. by left.
  - done.
Qed.

(** A page whose bytes in use grow. *)
Lemma pool_page_grow s live i p u :
  pool_ok s live -> g_dma_pages s !! i = Some p -> used p <= u <= 4096 ->
  forall t, pool_ok (mkDma (<[i := mkPage (phys p) u]> (g_dma_pages s)) (g_dma_cur s) (g_dma_va_base s) (g_dma_va_end s) t (mach s) (ram s)) live.
Proof.
  intros [Hvm Hpg Hnd Hsz Hcur Hin Hap] Hp Hu t. pose proof (lookup_lt_Some _ _ _ Hp) as Hlt.
  constructor; unfold g_dma_npages in *; cbn [g_dma_pages g_dma_cur mach]; rewrite ?length_insert; try done.
  - apply Forall_insert; [done|]. rewrite Forall_lookup in Hpg. destruct (Hpg i p Hp) as (? & ? & ?). cbn. split; [done|]. split; [lia|done].
  - rewrite list_fmap_insert. cbn. rewrite list_insert_id; [done|]. by rewrite list_lookup_fmap, Hp.
  - destruct Hcur as [Hcur|[E _]]; [by left|]. by rewrite E in Hp.
  - eapply Forall_impl; [exact Hin|]. intros b (q & Hq & Hb). apply list_elem_of_lookup in Hq as (j & Hj). destruct (decide (i = j)) as [<-|Hne].
    + exists (mkPage (phys p) u). assert (q = p) as -> by congruence. split; [|unfold inside in *; cbn; lia].
      apply list_elem_of_lookup. exists i. by rewrite list_lookup_insert_eq.
    + exists q. split; [|done]. apply list_elem_of_lookup. exists j. by rewrite list_lookup_insert_ne.
Qed.

(** Frames are whole pages: different ones are apart. *)
Lemma frames_apart f g : frame_ok f -> frame_ok g -> f <> g -> f + 4096 <= g \/ g + 4096 <= f.
Proof. intros [_ Hf] [_ Hg] Hne. unfold aligned, PAGE_SIZE in *. Z.div_mod_to_equations. lia. Qed.

(** A new block behind the bytes in use of one page. *)
Lemma pool_block s live p b :
  pool_ok s live -> p ∈ g_dma_pages s -> 0 < b.2 -> phys p + used p <= b.1 -> b.1 + b.2 <= phys p + 4096 -> Forall (apart b) live.
Proof.
  intros [_ Hpg Hnd _ _ Hin _] Hp Hb H1 H2. eapply Forall_impl; [exact Hin|]. intros c (q & Hq & Hc1 & Hc2 & Hc3).
  rewrite Forall_forall in Hpg. destruct (Hpg p Hp) as (Fp & Up & _), (Hpg q Hq) as (Fq & Uq & _). unfold apart.
  destruct (decide (phys p = phys q)) as [E|E].
  - assert (p = q) as <-; [|lia]. apply list_elem_of_lookup in Hp as (i & Hi), Hq as (j & Hj).
    assert (i = j) as <-; [|congruence]. apply (NoDup_lookup _ i j (phys p) Hnd); rewrite list_lookup_fmap; [by rewrite Hi|by rewrite Hj; cbn; rewrite E].
  - destruct (frames_apart _ _ Fp Fq E); lia.
Qed.

(** What an allocation does: a block with its bytes, or nothing. *)
Definition carved (size k : Z) (live : blocks) (s : dma A) (r : Z * dma A) : Prop :=
  ram r.2 = ram s /\ (exhausted s -> exhausted r.2) /\
  ((r.1 = 0 /\ pool_ok r.2 live /\ exhausted r.2) \/
   (0 < r.1 < PMM_MAX_ADDR /\ r.1 mod 2 ^ k = 0 /\ pool_ok r.2 ((r.1, size) :: live))).

(** The page to start with. *)
Lemma first_page s live :
  pool_ok s live ->
  exists r s', (if g_dma_npages s =? 0 then usb_dma_grow_page s else Ret (0, s)) = Ret (r, s') /\ pool_ok s' live /\ ram s' = ram s /\
    (exhausted s -> exhausted s') /\ (r = 0 /\ 0 < g_dma_npages s' \/ r = -1 /\ exhausted s').
Proof.
  intros Hok. destruct (Z.eqb_spec (g_dma_npages s) 0) as [E|E].
  - destruct (grow_spec s live Hok) as (r & s' & -> & Hok' & Hr & [(-> & (f & Ef) & _ & Hnx)|(-> & _ & _ & Hex)]);
      eexists _, s'; split_and!; try done; [left|by right]. split; [done|]. unfold g_dma_npages. rewrite Ef, length_app. cbn. lia.
  - exists 0, s. split_and!; try done. left. unfold g_dma_npages in *. lia.
Qed.

(** Rounds that are left for a search. *)
Definition pages_left (s : dma A) : Z := (2048 - g_dma_npages s) * 4096 + (g_dma_npages s - g_dma_cur s).

Lemma pages_left_bound s live : pool_ok s live -> pages_left s < 2 ^ 66.
Proof.
  intros Hok. pose proof (pool_size _ _ Hok). unfold pages_left, g_dma_npages, USB_DMA_MAX_PAGES in *. destruct (pool_cur _ _ Hok) as [?|[_ E]]; lia.
Qed.

(** A page without room: the search goes on or ends without a block. *)
Lemma next_page s live :
  pool_ok s live -> 0 < g_dma_npages s -> 0 <= g_dma_cur s < g_dma_npages s ->
  let next := (if u32 (g_dma_cur s + 1) <? g_dma_npages s then Ret (inl (set_cur (u32 (g_dma_cur s + 1)) s))
               else '(r, s) ← usb_dma_grow_page s; if r =? 0 then Ret (inl s) else Ret (inr (0, s))) : run (dma A + Z * dma A) in
  (exists s', next = Ret (inl s') /\ (pool_ok s' live /\ ram s' = ram s /\ (exhausted s -> exhausted s') /\ 0 < g_dma_npages s') /\
     0 <= pages_left s' < pages_left s) \/
  (exists s', next = Ret (inr (0, s')) /\ pool_ok s' live /\ ram s' = ram s /\ exhausted s').
Proof.
  intros Hok Hn Hc. pose proof (pool_size _ _ Hok) as Hsz. unfold USB_DMA_MAX_PAGES, pages_left in *.
  rewrite u32_small by lia. destruct (Z.ltb_spec (g_dma_cur s + 1) (g_dma_npages s)).
  - left. eexists. split; [done|]. split; [|cbn [set_cur g_dma_cur g_dma_pages] in *; unfold g_dma_npages in *; cbn in *; lia].
    split_and!; try done. destruct Hok. constructor; try done. left. cbn. unfold g_dma_npages in *. cbn. lia.
  - destruct (grow_spec s live Hok) as (r & s2 & -> & Hok2 & Hr2 & [(-> & (f & Ef) & Ec & Hnx)|(-> & _ & _ & Hex)]); rewrite bind_ret; cbn [Z.eqb].
    + left. exists s2. pose proof (pool_size _ _ Hok2) as Hs2. unfold g_dma_npages, USB_DMA_MAX_PAGES in *. rewrite Ef, length_app in *. cbn in *.
      rewrite Ec. split_and!; try done; lia.
    + right. eexists. by split_and!.
Qed.

Lemma cur_page s live : pool_ok s live -> 0 < g_dma_npages s ->
  0 <= g_dma_cur s < g_dma_npages s /\ exists p, g_dma_pages s !! Z.to_nat (g_dma_cur s) = Some p /\ frame_ok (phys p) /\ 0 <= used p <= 4096.
Proof.
  intros [_ Hpg _ _ Hcur _ _] Hn. assert (0 <= g_dma_cur s < g_dma_npages s) as Hc.
  { destruct Hcur as [?|[E _]]; [done|]. unfold g_dma_npages in Hn. by rewrite E in Hn. }
  split; [done|]. destruct (lookup_lt_is_Some_2 (g_dma_pages s) (Z.to_nat (g_dma_cur s))) as [p Hp]; [unfold g_dma_npages in *; lia|].
  exists p. rewrite Forall_lookup in Hpg. destruct (Hpg _ _ Hp) as (? & ? & _). done.
Qed.

(** Room in the current page: the block is behind the bytes in use. *)
Lemma page_room s live k size p t :
  pool_ok s live -> 8 <= k <= 12 -> 0 < size -> 0 <= g_dma_cur s -> g_dma_pages s !! Z.to_nat (g_dma_cur s) = Some p -> frame_ok (phys p) ->
  0 <= used p -> round_up k (used p) + size <= 4096 ->
  let va := phys p + round_up k (used p) in
  0 < va < PMM_MAX_ADDR /\ va mod 2 ^ k = 0 /\
  pool_ok (mkDma (<[Z.to_nat (g_dma_cur s) := mkPage (phys p) (round_up k (used p) + size)]> (g_dma_pages s))
             (g_dma_cur s) (g_dma_va_base s) (g_dma_va_end s) t (mach s) (ram s)) ((va, size) :: live).
Proof.
  intros Hok Hk Hs Hc Hp [Fp Fa] Hu Hfit va. destruct (round_up_bounds k (used p) ltac:(lia)) as [Hb Hm].
  assert (4096 = 2 ^ (12 - k) * 2 ^ k) as E by (rewrite <- Z.pow_add_r by lia; replace (12 - k + k) with 12 by lia; done).
  assert (exists a, phys p = a * 4096) as (a & Ea). { exists (phys p / 4096). unfold aligned, PAGE_SIZE in Fa. Z.div_mod_to_equations. lia. }
  assert (exists m, PMM_MAX_ADDR = m * 4096) as (m & Em) by (by exists 0xC0000).
  split; [lia|]. split; [subst va; rewrite Ea, E, Z.mul_assoc, (Z.add_comm (_ * _)), Z.mod_add by lia; done|].
  pose proof (pool_page_grow s live _ p (round_up k (used p) + size) Hok Hp ltac:(lia) t) as [? ? ? ? ? ? ?].
  constructor; try done.
  - constructor; [|done]. exists (mkPage (phys p) (round_up k (used p) + size)). split; [|unfold inside; cbn; lia].
    cbn. apply list_elem_of_lookup. exists (Z.to_nat (g_dma_cur s)). apply list_lookup_insert_eq. by eapply lookup_lt_Some.
  - constructor; [|done]. eapply (pool_block s live p); cbn; try done; try lia. by eapply list_elem_of_lookup_2.
Qed.

Lemma carve_spec size k s live :
  pool_ok s live -> 8 <= k <= 12 -> 0 < size <= 4096 ->
  exists r, usb_dma_carve size (2 ^ k) s = Ret r /\ carved size k live s r.
Proof.
  intros Hok Hk Hs. unfold usb_dma_carve. assert (2 ^ 8 <= 2 ^ k) by (apply Z.pow_le_mono_r; lia). change (2 ^ 8) with 256 in *.
  rewrite (proj2 (Z.ltb_ge (2 ^ k) 16)) by lia. destruct (first_page s live Hok) as (r1 & s1 & -> & Hok1 & Hr1 & Hx1 & Hc).
  rewrite bind_ret. destruct Hc as [[-> Hn]|[-> Hex]]; cbn [Z.eqb]; [|eexists; split; [done|]; split; [done|]; split; [done|]; by left].
  loop_with (fun s' => pool_ok s' live /\ ram s' = ram s1 /\ (exhausted s1 -> exhausted s') /\ 0 < g_dma_npages s') (carved size k live s1)
    pages_left as (r & -> & Hr & Hx & Hv); [..|exists r; split; [done|]; split; [congruence|]; auto].
  - intros s' (Hok' & Hr' & Hx' & Hn'). destruct (cur_page s' live Hok' Hn') as (Hc & p & Hp & Fp & Up). unfold carve_round. rewrite Hp.
    rewrite ALIGN_round by lia. pose proof (round_up_page k (used p) ltac:(lia) ltac:(lia)). pose proof (round_up_bounds k (used p) ltac:(lia)) as [Hb _].
    rewrite u32_small by lia. unfold USB_DMA_PAGE_SIZE. destruct (Z.leb_spec (round_up k (used p) + size) 4096).
    + right. destruct (page_room s' live k size p (u32 (g_dma_total s' + size)) Hok') as (Hv & Hm & Hok2); try done; try lia. eexists. split; [done|].
      rewrite u64_small by (unfold PMM_MAX_ADDR in *; lia). split; [done|].
      split; [intros Hx; specialize (Hx' Hx); unfold exhausted, g_dma_npages in *; cbn; by rewrite length_insert|]. by right.
    + destruct (next_page s' live Hok' Hn' Hc) as [(s2 & -> & (? & ? & ? & ?) & ?)|(s2 & -> & ? & ? & ?)]; [left|right]; eexists; (split; [done|]).
      * split; [|done]. split_and!; try done; [congruence|auto].
      * split; [cbn; congruence|]. split; [done|]. by left.
  - done.
  - by eapply pages_left_bound.
Qed.

(** ** Requests *)

Inductive request := Alloc (size : Z) | Aligned (size align : Z).

Definition serve (q : request) (s : dma A) : run (Z * dma A) :=
  match q with Alloc n => usb_dma_alloc n s | Aligned n a => usb_dma_alloc_aligned n a s end.

(** The addresses that a sequence of requests gets. *)
Fixpoint serve_all (qs : list request) (s : dma A) : run (list Z * dma A) :=
  match qs with
  | [] => Ret ([], s)
  | q :: qs => '(va, s) ← serve q s; '(vs, s) ← serve_all qs s; Ret (va :: vs, s)
  end.

Definition req_size (q : request) : Z := match q with Alloc n | Aligned n _ => n end.
Definition req_log (q : request) : Z := match q with Alloc _ => 8 | Aligned _ a => if a <? 256 then 8 else Z.log2 a end.

(** At most a page, aligned to a power of two of at most a page. *)
Definition req_ok (q : request) : Prop :=
  0 < req_size q <= 4096 /\ match q with Alloc _ => True | Aligned _ a => a <= 256 \/ a = 2 ^ Z.log2 a /\ a <= 4096 end.

Definition block (q : request) (va : Z) : Z * Z := (va, round_up (req_log q) (req_size q)).

(** The blocks of the requests that were served, latest first. *)
Fixpoint served (qs : list request) (vs : list Z) (live : blocks) : blocks :=
  match qs, vs with
  | q :: qs, va :: vs => served qs vs (if decide (va = 0) then live else block q va :: live)
  | _, _ => live
  end.

Lemma req_log_bounds q : req_ok q -> 8 <= req_log q <= 12.
Proof.
  destruct q as [n|n a]; cbn; [lia|]. intros (_ & Ha). destruct (Z.ltb_spec a 256); [lia|].
  assert (8 <= Z.log2 a) by (change 8 with (Z.log2 256); by apply Z.log2_le_mono).
  assert (Z.log2 a <= 12) by (change 12 with (Z.log2 4096); apply Z.log2_le_mono; lia). lia.
Qed.

Lemma serve_carve q s : req_ok q ->
  serve q s = ('(va, s) ← usb_dma_carve (round_up (req_log q) (req_size q)) (2 ^ req_log q) s;
               if va =? 0 then Ret (0, s) else Ret (va, zero va (req_size q) s)).
Proof.
  intros Hq. pose proof (req_log_bounds q Hq) as Hl.
  assert (Hround : forall n k mask, 0 < n <= 4096 -> 0 <= k <= 12 ->
    mask = u64 (Z.lnot (Z.ones k)) \/ mask = u32 (Z.lnot (Z.ones k)) ->
    u32 (Z.land (u64 (u64 (n + 2 ^ k) - 1)) mask) = round_up k n).
  { intros n k mask Hn Hk Hm. assert (1 <= 2 ^ k <= 2 ^ 12) as Hp by (split; [lia|apply Z.pow_le_mono_r; lia]). change (2 ^ 12) with 4096 in Hp.
    rewrite (u64_small (n + 2 ^ k)), (u64_small (n + 2 ^ k - 1)) by lia.
    assert (Z.land (n + 2 ^ k - 1) mask = round_up k n) as -> by (destruct Hm as [->| ->]; [apply mask_down|apply mask_down32]; lia).
    destruct (round_up_bounds k n ltac:(lia)) as [Hb _]. apply u32_small. lia. }
  destruct q as [n|n a]; cbn [serve req_size req_log] in *.
  - unfold usb_dma_alloc. change USB_DMA_MIN_ALIGN with (2 ^ 8). rewrite (Hround n 8 _ (proj1 Hq) ltac:(lia)) by (by left). done.
  - unfold usb_dma_alloc_aligned. destruct Hq as [Hn Ha]. cbn [req_size] in Hn. change (a <? USB_DMA_MIN_ALIGN) with (a <? 256). destruct (Z.ltb_spec a 256).
    + change USB_DMA_MIN_ALIGN with (2 ^ 8). rewrite (Hround n 8 _ Hn ltac:(lia)) by (by right). done.
    + assert (a = 2 ^ Z.log2 a) as Ea. { destruct Ha as [?|[? _]]; [|done]. assert (a = 256) as -> by lia. done. }
      set (k := Z.log2 a) in *. clearbody k. subst a. rewrite (Hround n k); [done|lia|lia|]. right.
      assert (1 <= 2 ^ k <= 2 ^ 12) by (split; [lia|apply Z.pow_le_mono_r; lia]).
      rewrite (u32_small (2 ^ k - 1)) by lia. by rewrite Z.ones_equiv, Z.sub_1_r.
Qed.

(** The bytes of a block. *)
Definition in_block (b : Z * Z) (x : Z) : Prop := b.1 <= x < b.1 + b.2.

Definition cleared (q : request) (va : Z) (m : Z -> Z) : Prop := forall x, va <= x < va + req_size q -> m x = 0.

Lemma serve_spec q s live :
  pool_ok s live -> req_ok q ->
  exists va s', serve q s = Ret (va, s') /\ (exhausted s -> exhausted s') /\
    ((va = 0 /\ pool_ok s' live /\ exhausted s' /\ ram s' = ram s) \/
     (0 < va < PMM_MAX_ADDR /\ va mod 2 ^ req_log q = 0 /\ pool_ok s' (block q va :: live) /\ cleared q va (ram s') /\
      forall b x, b ∈ live -> in_block b x -> ram s' x = ram s x)).
Proof.
  intros Hok Hq. pose proof (req_log_bounds q Hq) as Hl. rewrite serve_carve by done. destruct Hq as [Hn _].
  destruct (round_up_bounds (req_log q) (req_size q) ltac:(lia)) as [Hb _]. pose proof (round_up_page (req_log q) (req_size q) ltac:(lia) ltac:(lia)).
  destruct (carve_spec (round_up (req_log q) (req_size q)) (req_log q) s live Hok Hl ltac:(lia)) as ([va s1] & -> & Hr & Hx & Hc).
  rewrite bind_ret. cbn [fst snd] in *. destruct Hc as [(-> & Hp & Hex)|(Hv & Hm & Hp)].
  { exists 0, s1. split; [done|]. split; [done|]. left. by split_and!. }
  rewrite (proj2 (Z.eqb_neq va 0)) by lia. exists va, (zero va (req_size q) s1). split; [done|]. split; [done|]. right. split_and!; try done; try lia.
  - destruct Hp. by constructor.
  - intros x Hxr. cbn. unfold zeroed. by rewrite (proj2 (Z.leb_le _ _)), (proj2 (Z.ltb_lt _ _)) by lia.
  - intros b x Hb' Hxr. cbn. unfold zeroed. rewrite Hr. pose proof (pool_apart _ _ Hp) as Hap. inversion Hap as [|? ? Ha _ E]. subst.
    rewrite Forall_forall in Ha. specialize (Ha b Hb'). unfold apart, in_block in *. cbn [fst snd] in *.
    destruct (Z.leb_spec va x), (Z.ltb_spec x (va + req_size q)); cbn; try done. lia.
Qed.

Lemma serve_all_spec qs s live :
  pool_ok s live -> Forall req_ok qs ->
  exists vs s', serve_all qs s = Ret (vs, s') /\ length vs = length qs /\
    pool_ok s' (served qs vs live) /\ ForallOrdPairs apart (served qs vs live) /\
    (forall i q va, qs !! i = Some q -> vs !! i = Some va -> va <> 0 ->
       0 < va < PMM_MAX_ADDR /\ va mod 2 ^ req_log q = 0 /\ cleared q va (ram s')) /\
    (forall b x, b ∈ live -> in_block b x -> ram s' x = ram s x) /\
    (exhausted s \/ 0 ∈ vs -> exhausted s').
Proof.
  revert s live. induction qs as [|q qs IH]; intros s live Hok Hqs; cbn [serve_all].
  { exists [], s. split_and!; try done; [by destruct Hok|]. by intros [?|?%elem_of_nil]. }
  apply Forall_cons in Hqs as [Hq Hqs]. destruct (serve_spec q s live Hok Hq) as (va & s1 & -> & Hx & H1). rewrite bind_ret.
  assert (pool_ok s1 (if decide (va = 0) then live else block q va :: live)) as Hok1.
  { destruct H1 as [(-> & ? & _)|(? & _ & ? & _)]; [done|]. by rewrite decide_False by lia. }
  destruct (IH s1 _ Hok1 Hqs) as (vs & s' & -> & Hl & Hp & Ha & Hz & Hk & He). rewrite bind_ret.
  exists (va :: vs), s'. cbn [length served]. split_and!; try done; [by rewrite Hl| | |].
  - intros [|i] q' va' Eq Ev Hv; [|by eapply Hz]. injection Eq as <-. injection Ev as <-. destruct H1 as [(-> & _)|(Hr & Hm & _ & Hc & _)]; [done|].
    split_and!; try done; try lia. intros x Hxr. rewrite (Hk (block q va) x), Hc; [done|done| |].
    + rewrite decide_False by done. left.
    + destruct (round_up_bounds (req_log q) (req_size q)); [pose proof (req_log_bounds q Hq); lia|]. unfold in_block. cbn. lia.
  - intros b x Hb Hbx. rewrite (Hk b x); [|by destruct (decide (va = 0)); [|right]|done].
    destruct H1 as [(_ & _ & _ & ->)|(_ & _ & _ & _ & H1)]; [done|]. by eapply H1.
  - intros [E|E]; apply He; [left; by apply Hx|]. apply elem_of_cons in E as [<-|E]; [left|by right].
    destruct H1 as [(_ & _ & ? & _)|(? & _)]; [done|lia].
Qed.

(** C18: Whatever sequence of requests of at most a page the drivers make, the
    pool answers each; blocks that were handed out never overlap, start at
    multiples of what was asked for, lie below 3 GiB in frames that the page
    allocator no longer has, read as zero and keep their bytes whatever is
    allocated afterwards; null is returned only when frames or the table of
    pages ran out. *)
Theorem dma_blocks_separate qs s live :
  pool_ok s live -> Forall req_ok qs ->
  exists vs s', serve_all qs s = Ret (vs, s') /\ length vs = length qs /\
    pool_ok s' (served qs vs live) /\ ForallOrdPairs apart (served qs vs live) /\
    (forall i q va, qs !! i = Some q -> vs !! i = Some va -> va <> 0 ->
       0 < va < PMM_MAX_ADDR /\ va mod 2 ^ req_log q = 0 /\ cleared q va (ram s')) /\
    (forall b x, b ∈ live -> in_block b x -> ram s' x = ram s x) /\
    (0 ∈ vs -> exhausted s').
Proof.
  intros Hok Hqs. destruct (serve_all_spec qs s live Hok Hqs) as (vs & s' & H1 & H2 & H3 & H4 & H5 & H6 & H7).
  exists vs, s'. split_and!; try done. auto.
Qed.

(** Fresh pages after a reset: nothing is live. *)
Lemma reset_ok s live : pool_ok s live -> pool_ok (usb_dma_reset s) [].
Proof.
  intros [Hvm Hpg Hnd Hsz Hcur _ _]. constructor; unfold g_dma_npages in *; cbn [usb_dma_reset g_dma_pages g_dma_cur mach];
    rewrite ?length_fmap; try done; try (by constructor).
  - apply Forall_fmap. eapply Forall_impl; [exact Hpg|]. intros p (? & ? & ?). cbn. split; [done|]. split; [lia|done].
  - rewrite <- list_fmap_compose. done.
  - destruct (g_dma_pages s); cbn in *; [by right|left; lia].
Qed.

(** A request for more than a page never succeeds, and takes every frame that
    the pool can get before it fails. *)
Theorem oversize_drains n s live :
  pool_ok s live -> 4096 < n <= 2 ^ 31 ->
  exists s', usb_dma_alloc n s = Ret (0, s') /\ pool_ok s' live /\ exhausted s'.
Proof.
  intros Hok Hn. unfold usb_dma_alloc. change USB_DMA_MIN_ALIGN with (2 ^ 8). change (2 ^ 8 - 1) with (Z.ones 8).
  rewrite (u64_small (n + 2 ^ 8)), (u64_small (n + 2 ^ 8 - 1)), mask_down by lia.
  change ((n + 2 ^ 8 - 1) / 2 ^ 8 * 2 ^ 8) with (round_up 8 n). destruct (round_up_bounds 8 n ltac:(lia)) as [Hb _].
  rewrite u32_small by lia. set (z := round_up 8 n) in *. unfold usb_dma_carve. change (2 ^ 8 <? 16) with false. cbn iota.
  destruct (first_page s live Hok) as (r1 & s1 & -> & Hok1 & _ & _ & Hc).
  rewrite bind_ret. destruct Hc as [[-> Hp]|[-> Hex]]; cbn [Z.eqb]; [|rewrite bind_ret; cbn [Z.eqb]; by eauto].
  loop_with (fun s' => pool_ok s' live /\ 0 < g_dma_npages s') (fun r => r.1 = 0 /\ pool_ok r.2 live /\ exhausted r.2)
    pages_left as ([va s2] & -> & Hv & Hok2 & Hex2).
  - intros s' (Hok' & Hn'). destruct (cur_page s' live Hok' Hn') as (Hc & p & Hp' & _ & Up). unfold carve_round. rewrite Hp'.
    rewrite ALIGN_round by lia. destruct (round_up_bounds 8 (used p) ltac:(lia)) as [Hb' _]. rewrite u32_small by lia.
    unfold USB_DMA_PAGE_SIZE. rewrite (proj2 (Z.leb_gt _ _)) by lia.
    destruct (next_page s' live Hok' Hn' Hc) as [(s2 & -> & (? & _ & _ & ?) & ?)|(s2 & -> & ? & _ & ?)]; [left|right]; eexists; (split; [done|]); [split; [done|lia]|done].
  - done.
  - by eapply pages_left_bound.
  - rewrite bind_ret. cbn [fst snd] in *. subst va. cbn [Z.eqb]. eauto.
Qed.
End Blocks.

(** A machine with seven free frames and an empty pool. *)
Definition demo_pool : dma pmm :=
  mkDma [] 0 0 0 0 (Demo.demo [0x2000; 0x3000; 0x4000; 0x5000; 0x6000; 0x7000; 0x8000]) (fun _ => 0xAA).

Lemma demo_pool_ok : pool_ok demo_pool [].
Proof.
  constructor; cbn [demo_pool g_dma_pages g_dma_cur mach fmap list_fmap]; [|by constructor|by constructor|done|by right|by constructor|by constructor].
  exists {[0x1000 := []]}. apply Demo.demo_ok; [|cbn; lia].
  split; [by apply (bool_decide_unpack _)|repeat constructor; done].
Defined.

Lemma dma_blocks_separate_witness :
  exists vs s', serve_all [Alloc 100; Aligned 4096 4096; Alloc 300] demo_pool = Ret (vs, s') /\ length vs = 3%nat /\
    pool_ok s' (served [Alloc 100; Aligned 4096 4096; Alloc 300] vs []).
Proof.
  destruct (dma_blocks_separate [Alloc 100; Aligned 4096 4096; Alloc 300] demo_pool [] demo_pool_ok) as (vs & s' & H1 & H2 & H3 & _).
  - apply Forall_cons; split; [split; cbn; [lia|done]|]. apply Forall_cons; split; [split; cbn; [lia|right; split; [done|lia]]|].
    apply Forall_cons; split; [split; cbn; [lia|done]|by apply Forall_nil].
  - eauto.
Defined.

(** Two blocks share a page, a whole page is its own; the frames come from the
    top of the allocator's stack, where the tables take theirs as well. *)
Example demo_blocks : ('(vs, _) ← serve_all [Alloc 100; Aligned 32 32; Aligned 4096 4096] demo_pool; Ret vs) = Ret [0x8000; 0x8100; 0x4000].
Proof. vm_compute. reflexivity. Qed.

(** ** usb.c: cache maintenance *)

(** The lines [usb_dma_cache_clean] and [usb_dma_cache_inv] flush. *)
Definition cache_lines (line va len : Z) : run (list Z) :=
  let a := Z.land va (u64 (Z.lnot (u32 (line - 1)))) in
  let end_ := Z.land (u64 (va + len + line - 1)) (u64 (Z.lnot (u32 (line - 1)))) in
  loop (fun '(a, l) => if a <? end_ then Ret (inl (u64 (a + line), l ++ [a])) else Ret (inr l)) (a, []).

Definition usb_dma_cache_clean (has_clflush : bool) (line va len : Z) : run (list Z) :=
  if negb has_clflush || (len =? 0) then Ret [] else cache_lines line va len.

Definition USB_DMA_FROM_DEVICE : Z := 2.
Definition usb_dma_cache_sync (has_clflush : bool) (line va len dir : Z) : run (list Z) :=
  if dir =? USB_DMA_FROM_DEVICE then Ret [] else usb_dma_cache_clean has_clflush line va len.

(** Every byte of the range lies in a line that is flushed. *)
Lemma cache_lines_cover k va len :
  0 <= k <= 12 -> 0 <= va < 2 ^ 40 -> 0 <= len < 2 ^ 32 ->
  exists l, cache_lines (2 ^ k) va len = Ret l /\ forall x, va <= x < va + len -> exists a, a ∈ l /\ a <= x < a + 2 ^ k.
Proof.
  intros Hk Hva Hlen. assert (1 <= 2 ^ k <= 2 ^ 12) as Hp by (split; [lia|apply Z.pow_le_mono_r; lia]). change (2 ^ 12) with 4096 in Hp.
  unfold cache_lines. rewrite (u32_small (2 ^ k - 1)) by lia. replace (2 ^ k - 1) with (Z.ones k) by (rewrite Z.ones_equiv; lia).
  rewrite !(mask_down k) by (rewrite ?u64_small; lia). rewrite (u64_small (va + len + 2 ^ k - 1)) by lia.
  set (a0 := va / 2 ^ k * 2 ^ k). set (e := (va + len + 2 ^ k - 1) / 2 ^ k * 2 ^ k).
  assert (a0 <= va < a0 + 2 ^ k /\ va + len <= e < va + len + 2 ^ k) as [Ha0 He] by (subst a0 e; Z.div_mod_to_equations; nia).
  loop_with (fun '(a, l) => 0 <= a < 2 ^ 41 /\ a mod 2 ^ k = 0 /\ forall x, a0 <= x < a -> exists b, b ∈ l /\ b <= x < b + 2 ^ k)
    (fun l => forall x, va <= x < e -> exists b, b ∈ l /\ b <= x < b + 2 ^ k) (fun '(a, _) => 2 ^ 42 - a) as (l & -> & Hl).
  - intros [a l] (Hr & Hm & Hc). destruct (Z.ltb_spec a e).
    + left. eexists. split; [done|]. rewrite u64_small by lia. split; [|lia]. split_and!; try lia.
      * rewrite <- (Z.mul_1_l (2 ^ k)) at 1. by rewrite Z.mod_add by lia.
      * intros x Hx. destruct (decide (x < a)) as [H'|H'].
        -- destruct (Hc x ltac:(lia)) as (b & Hb & ?). exists b. split; [|done]. apply elem_of_app. by left.
        -- exists a. split; [|lia]. apply elem_of_app. right. by apply list_elem_of_singleton.
    + right. eexists. split; [done|]. intros x Hx. apply Hc. lia.
  - assert (0 <= a0) by (subst a0; apply Z.mul_nonneg_nonneg; [apply Z.div_pos|]; lia).
    split; [lia|]. split; [subst a0; by rewrite Z.mod_mul by lia|]. intros. lia.
  - lia.
  - exists l. split; [done|]. intros x Hx. apply Hl. lia.
Qed.

(** ** usb.c: free pipes

    [struct usb_pipe] keeps its controller and the link of the free list in one
    union. *)
Record usb_pipe := mkPipe { link : Z; eptype : Z; ep : Z; devaddr : Z; speed : Z; maxpacket : Z; pipe_type : Z }.
Definition set_link (l : Z) (p : usb_pipe) : usb_pipe := mkPipe l (eptype p) (ep p) (devaddr p) (speed p) (maxpacket p) (pipe_type p).

(** Pipes by address, and the head of each controller's free list. *)
Record pipes := mkPipes { heap : gmap Z usb_pipe; freelist : gmap Z Z }.

Definition usb_add_freelist (pipe : Z) (s : pipes) : run pipes :=
  if pipe =? 0 then Ret s
  else
    p ← of_option (heap s !! pipe);
    let cntl := link p in
    l ← of_option (freelist s !! cntl);
    Ret (mkPipes (<[pipe := set_link l p]> (heap s)) (<[cntl := pipe]> (freelist s))).

(** [pfree] is the address of a link: the controller's or a pipe's. *)
Definition usb_get_freelist (cntl eptype' : Z) (s : pipes) : run (Z * pipes) :=
  l ← of_option (freelist s !! cntl);
  loop (fun '(prev, pipe) =>
    if pipe =? 0 then Ret (inr (0, s))
    else
      p ← of_option (heap s !! pipe);
      if eptype p =? eptype' then
        match prev with
        | None => Ret (inr (pipe, mkPipes (heap s) (<[cntl := link p]> (freelist s))))
        | Some q =>
            qp ← of_option (heap s !! q);
            Ret (inr (pipe, mkPipes (<[q := set_link (link p) qp]> (heap s)) (freelist s)))
        end
      else Ret (inl (Some pipe, link p))) (None, l).

(** ** usb.c: descriptors *)

Definition USB_DT_INTERFACE : Z := 4.
Definition USB_DT_ENDPOINT : Z := 5.
Definition USB_HIGHSPEED : Z := 2.
Definition USB_SUPERSPEED : Z := 3.
Definition USB_MAX_IFACES : Z := 8.
Definition IFACE_SIZE : Z := 9.

(** A byte of a descriptor buffer; reading outside of it is a fault. *)
Definition at_ (buf : list Z) (off : Z) : run Z := if off <? 0 then Fault else of_option (buf !! Z.to_nat off).

(** [__fls] *)
Definition fls (word : Z) : run Z :=
  loop (fun '(bit, w) => if w =? 0 then Ret (inr bit) else Ret (inl (bit + 1, Z.shiftr w 1))) (-1, word).

Definition usb_get_period (speed bInterval : Z) : run Z :=
  if negb (speed =? USB_HIGHSPEED) then (if bInterval <=? 0 then Ret 0 else fls bInterval)
  else if bInterval <=? 4 then Ret 0 else Ret (bInterval - 4).

(** The endpoint descriptor behind the interface descriptor at [iface]; [None]
    is null. *)
Definition usb_find_desc (buf : list Z) (iface imax type dir : Z) : run (option Z) :=
  loop (fun e =>
    if iface + imax <=? e then Ret (inr None)
    else
      t ← at_ buf (e + 1);
      if t =? USB_DT_INTERFACE then Ret (inr None)
      else
        hit ← (if t =? USB_DT_ENDPOINT then
                 a ← at_ buf (e + 2);
                 if Z.land a 0x80 =? dir then m ← at_ buf (e + 3); Ret (Z.land m 0x03 =? type) else Ret false
               else Ret false);
        if (hit : bool) then Ret (inr (Some e))
        else len ← at_ buf e; Ret (inl (e + len))) (iface + IFACE_SIZE).

(** The walk of [configure_usb_device] over the configuration: the offsets of
    the interface descriptors. *)
Definition collect_ifaces (buf : list Z) (total : Z) : run (list Z) :=
  loop (fun '(p, l) =>
    if p <? total then
      len ← at_ buf p;
      if (len <? 2) || (total <? p + len) then Ret (inr l)
      else
        t ← at_ buf (p + 1);
        if t =? USB_DT_INTERFACE then
          if (len <? IFACE_SIZE) || (Z.of_nat (length l) =? USB_MAX_IFACES) then Ret (inr l)
          else Ret (inl (p + len, l ++ [p]))
        else Ret (inl (p + len, l))
    else Ret (inr l)) (9, []).

(** ** dev/usbdev.c *)

Inductive usbdev_type := USBDEV_NONE | USBDEV_HUB | USBDEV_KEYBOARD | USBDEV_MOUSE | USBDEV_MASS_STORAGE | USBDEV_HID | USBDEV_VENDOR.
#[global] Instance usbdev_type_eq_dec : EqDecision usbdev_type.
Proof. solve_decision. Defined.

Record usbdev_entry := mkEntry { e_type : usbdev_type; e_bus : Z; e_addr : Z; e_port : Z; e_speed : Z; e_iface : Z; e_vid : Z; e_pid : Z; e_product : list Z }.
Definition USBDEV_MAX : nat := 16.
Definition PRODUCT_SIZE : Z := 32.

(** Class, subclass and protocol of an interface. *)
Definition classify (class subclass protocol : Z) : usbdev_type :=
  if class =? 9 then USBDEV_HUB
  else if class =? 3 then
    if (subclass =? 1) && (protocol =? 1) then USBDEV_KEYBOARD
    else if (subclass =? 1) && (protocol =? 2) then USBDEV_MOUSE
    else USBDEV_HID
  else if class =? 8 then (if protocol =? 0x50 then USBDEV_MASS_STORAGE else USBDEV_VENDOR)
  else USBDEV_VENDOR.

Definition usbdev_classify (buf : list Z) (iface : Z) : run usbdev_type :=
  c ← at_ buf (iface + 5); sc ← at_ buf (iface + 6); pr ← at_ buf (iface + 7); Ret (classify c sc pr).

(** The characters of a string descriptor in a buffer of 64 bytes, for an array
    of [outsz] bytes: those before the terminator.  [None]: the transfer failed. *)
Definition usbdev_read_string (answer : option (list Z)) (idx outsz : Z) : run (list Z) :=
  if (idx =? 0) || (outsz <? 2) then Ret []
  else match answer with
  | None => Ret []
  | Some buf =>
      b0 ← at_ buf 0; b1 ← at_ buf 1;
      if (b0 <? 4) || negb (b1 =? 3) then Ret []
      else
        let n := (b0 - 2) / 2 in
        let n := if outsz - 1 <? n then outsz - 1 else n in
        foldr (fun i r => c ← at_ buf (2 + i * 2); l ← r; Ret ((if (0x20 <=? c) && (c <? 0x7f) then c else 63) :: l)) (Ret []) (seqZ 0 n)
  end.

Definition usbdev_register (e : usbdev_entry) (g : list usbdev_entry) : Z * list usbdev_entry :=
  if (USBDEV_MAX <=? length g)%nat then (-1, g) else (Z.of_nat (length g), g ++ [e]).

Definition usbdev_count (g : list usbdev_entry) : Z := Z.of_nat (length g).
Definition usbdev_get (i : Z) (g : list usbdev_entry) : option usbdev_entry :=
  if (i <? 0) || (Z.of_nat (length g) <=? i) then None else g !! Z.to_nat i.

(** ** Descriptors in their buffer *)

(** A descriptor begins with its length and its type. *)
Definition dtype (d : list Z) : Z := nth 1 d 0.
Definition desc_ok (d : list Z) : Prop :=
  Forall byte_ok d /\ (2 <= length d)%nat /\ head d = Some (Z.of_nat (length d)) /\
  (dtype d = USB_DT_INTERFACE -> length d = 9%nat) /\ (dtype d = USB_DT_ENDPOINT -> (7 <= length d)%nat).

Definition size_of (ds : list (list Z)) : Z := Z.of_nat (length (mjoin ds)).

(** Where the interface descriptors of [ds] lie, [ds] itself lying at [o]. *)
Fixpoint iface_offs (o : Z) (ds : list (list Z)) : list Z :=
  match ds with
  | [] => []
  | d :: ds => (if decide (dtype d = USB_DT_INTERFACE) then [o] else []) ++ iface_offs (o + Z.of_nat (length d)) ds
  end.

(** The endpoint of type [type] and direction [dir] that comes first in [ds]. *)
Definition endpoint (type dir : Z) (d : list Z) : Prop :=
  dtype d = USB_DT_ENDPOINT /\ Z.land (nth 2 d 0) 0x80 = dir /\ Z.land (nth 3 d 0) 0x03 = type.
#[global] Instance endpoint_dec type dir d : Decision (endpoint type dir d).
Proof. unfold endpoint. apply _. Defined.

Fixpoint first_endpoint (type dir o : Z) (ds : list (list Z)) : option Z :=
  match ds with
  | [] => None
  | d :: ds => if decide (endpoint type dir d) then Some o else first_endpoint type dir (o + Z.of_nat (length d)) ds
  end.

Lemma size_of_cons d ds : size_of (d :: ds) = Z.of_nat (length d) + size_of ds.
Proof. unfold size_of. change (mjoin (d :: ds)) with (d ++ mjoin ds). rewrite length_app. lia. Qed.

Lemma size_of_app ds es : size_of (ds ++ es) = size_of ds + size_of es.
Proof. unfold size_of. rewrite join_app, length_app. lia. Qed.

Lemma size_of_snoc ds d : size_of (ds ++ [d]) = size_of ds + Z.of_nat (length d).
Proof. rewrite size_of_app, size_of_cons. unfold size_of. cbn. lia. Qed.

Lemma iface_offs_app o ds es : iface_offs o (ds ++ es) = iface_offs o ds ++ iface_offs (o + size_of ds) es.
Proof.
  revert o. induction ds as [|d ds IH]; intros o; cbn [app iface_offs]; [by rewrite Z.add_0_r|].
  rewrite IH, <- app_assoc. rewrite size_of_cons. do 3 f_equal. lia.
Qed.

Lemma at_ok buf i b : buf !! i = Some b -> at_ buf (Z.of_nat i) = Ret b.
Proof. intros H. unfold at_. rewrite (proj2 (Z.ltb_ge _ _)) by lia. by rewrite Nat2Z.id, H. Qed.

(** A byte of a descriptor among others. *)
Lemma at_mid a d b i : (i < length d)%nat -> at_ (a ++ d ++ b) (Z.of_nat (length a) + Z.of_nat i) = Ret (nth i d 0).
Proof.
  intros Hi. rewrite <- Nat2Z.inj_add. apply at_ok. rewrite lookup_app_r by lia. replace (length a + i - length a)%nat with i by lia.
  rewrite lookup_app_l by done. destruct (lookup_lt_is_Some_2 d i Hi) as [x Hx]. rewrite Hx. f_equal. symmetry. by apply nth_lookup_Some.
Qed.

Lemma at_bind {B} a d b o i (k : Z -> run B) :
  o = Z.of_nat (length a) -> (i < length d)%nat -> (x ← at_ (a ++ d ++ b) (o + Z.of_nat i); k x) = k (nth i d 0).
Proof. intros -> Hi. by rewrite at_mid. Qed.

Lemma mjoin_split pre d post : mjoin (pre ++ d :: post) = mjoin pre ++ d ++ mjoin post :> list Z.
Proof. by rewrite join_app. Qed.

Lemma desc_len d : desc_ok d -> nth 0 d 0 = Z.of_nat (length d) /\ Z.of_nat (length d) < 256.
Proof.
  intros (Hb & _ & Hh & _). destruct d as [|x d]; [done|]. cbn [head nth] in *.
  apply Forall_cons in Hb as [Hb _]. unfold byte_ok in Hb. assert (x = Z.of_nat (length (x :: d))) by congruence. lia.
Qed.

(** The walk over a configuration finds its interfaces, the first eight. *)
Lemma collect_spec hdr ds :
  length hdr = 9%nat -> Forall desc_ok ds -> size_of ds < 65536 ->
  collect_ifaces (hdr ++ mjoin ds) (9 + size_of ds) = Ret (take 8 (iface_offs 9 ds)).
Proof.
  intros Hh Hds Hsz. unfold collect_ifaces.
  loop_with (fun '(p, l) => exists pre post, ds = pre ++ post /\ p = 9 + size_of pre /\ l = iface_offs 9 pre /\ (length l <= 8)%nat)
    (fun l => l = take 8 (iface_offs 9 ds)) (fun '(p, _) => 65545 - p) as (l & -> & ->); [..|done].
  - intros [p l] (pre & post & -> & -> & -> & Hl). apply Forall_app in Hds as [_ Hpost]. rewrite iface_offs_app.
    assert (size_of (pre ++ post) = size_of pre + size_of post) as Es by apply size_of_app. rewrite Es in *.
    destruct post as [|d post].
    { right. rewrite (proj2 (Z.ltb_ge _ _)) by (unfold size_of in *; cbn in *; lia). eexists. split; [done|]. cbn. rewrite app_nil_r, take_ge; done. }
    apply Forall_cons in Hpost as [Hd _]. destruct (desc_len d Hd) as [E0 El]. destruct Hd as (_ & H2 & _ & Hi & _).
    rewrite size_of_cons in *. assert (0 <= size_of pre /\ 0 <= size_of post) as [? ?] by (unfold size_of; lia).
    rewrite (proj2 (Z.ltb_lt (9 + size_of pre) _)) by lia. rewrite mjoin_split.
    replace (hdr ++ mjoin pre ++ d ++ mjoin post) with ((hdr ++ mjoin pre) ++ d ++ mjoin post) by (by rewrite <- app_assoc).
    assert (9 + size_of pre = Z.of_nat (length (hdr ++ mjoin pre))) as Eo by (rewrite length_app, Hh; unfold size_of; lia).
    pose proof (fun B k => at_bind (B := B) (hdr ++ mjoin pre) d (mjoin post) (9 + size_of pre) 0 k Eo ltac:(lia)) as A0.
    pose proof (fun B k => at_bind (B := B) (hdr ++ mjoin pre) d (mjoin post) (9 + size_of pre) 1 k Eo ltac:(lia)) as A1.
    change (Z.of_nat 0) with 0 in A0. change (Z.of_nat 1) with 1 in A1. rewrite Z.add_0_r in A0. rewrite A0, E0.
    rewrite (proj2 (Z.ltb_ge _ 2)), (proj2 (Z.ltb_ge _ (9 + size_of pre + _))) by lia. cbn [orb]. rewrite A1.
    cbn [iface_offs]. change (nth 1 d 0) with (dtype d). unfold USB_DT_INTERFACE in *. destruct (Z.eqb_spec (dtype d) 4) as [Et|Et].
    + rewrite decide_True by done. rewrite (Hi Et). unfold IFACE_SIZE. change (Z.of_nat 9 <? 9) with false. cbn [orb]. unfold USB_MAX_IFACES.
      destruct (Z.eqb_spec (Z.of_nat (length (iface_offs 9 pre))) 8) as [E8|E8].
      * right. eexists. split; [done|]. rewrite take_app_le, take_ge by lia. done.
      * left. eexists. split; [done|]. split; [|lia]. exists (pre ++ [d]), post. rewrite <- app_assoc. split_and!; try done.
        -- rewrite size_of_snoc. lia.
        -- rewrite iface_offs_app. cbn [iface_offs]. by rewrite decide_True by done.
        -- rewrite length_app. cbn. lia.
    + rewrite decide_False by done. left. eexists. split; [done|]. split; [|lia]. exists (pre ++ [d]), post. rewrite <- app_assoc. split_and!; try done.
      * rewrite size_of_snoc. lia.
      * rewrite iface_offs_app. cbn [iface_offs]. by rewrite decide_False, app_nil_r by done.
  - exists [], ds. split_and!; try done. cbn. lia.
  - lia.
Qed.

(** Behind an interface descriptor, up to the next one or to the end, the first
    endpoint asked for is found. *)
Lemma find_desc_spec before ifd eps after type dir :
  length ifd = 9%nat -> Forall desc_ok eps -> Forall (fun d => dtype d <> USB_DT_INTERFACE) eps -> size_of eps < 65536 ->
  usb_find_desc (before ++ ifd ++ mjoin eps ++ after) (Z.of_nat (length before)) (9 + size_of eps) type dir =
  Ret (first_endpoint type dir (Z.of_nat (length before) + 9) eps).
Proof.
  intros Hi Heps Hni Hsz. unfold usb_find_desc, IFACE_SIZE. set (o := Z.of_nat (length before) + 9).
  loop_with (fun e => exists pre post, eps = pre ++ post /\ e = o + size_of pre /\ first_endpoint type dir o eps = first_endpoint type dir e post)
    (fun r => r = first_endpoint type dir o eps) (fun e => o + 65536 - e) as (r & -> & ->); [..|done].
  - intros e (pre & post & -> & -> & ->). apply Forall_app in Heps as [_ Hpost], Hni as [_ Hni]. rewrite size_of_app in *.
    destruct post as [|d post].
    { right. rewrite (proj2 (Z.leb_le _ _)) by (unfold size_of in *; cbn in *; lia). by eexists. }
    apply Forall_cons in Hpost as [Hd _], Hni as [Hn _]. destruct (desc_len d Hd) as [E0 El]. destruct Hd as (_ & H2 & _ & _ & He).
    rewrite size_of_cons in *. assert (0 <= size_of pre /\ 0 <= size_of post) as [? ?] by (unfold size_of; lia).
    rewrite (proj2 (Z.leb_gt _ (o + _))) by lia. rewrite mjoin_split.
    replace (before ++ ifd ++ (mjoin pre ++ d ++ mjoin post) ++ after)
      with ((before ++ ifd ++ mjoin pre) ++ d ++ (mjoin post ++ after)) by (by rewrite !app_assoc).
    set (a := before ++ ifd ++ mjoin pre). set (b := mjoin post ++ after).
    assert (o + size_of pre = Z.of_nat (length a)) as Eo by (subst a o; rewrite !length_app, Hi; unfold size_of; lia).
    set (e := o + size_of pre) in *.
    assert (A0 : forall B (k : Z -> run B), (x ← at_ (a ++ d ++ b) e; k x) = k (nth 0 d 0)).
    { intros B k. rewrite <- (at_bind a d b e 0 k Eo) by lia. by rewrite Z.add_0_r. }
    rewrite (at_bind a d b e 1 _ Eo) by lia. change (nth 1 d 0) with (dtype d). unfold USB_DT_INTERFACE, USB_DT_ENDPOINT in *.
    rewrite (proj2 (Z.eqb_neq _ _) Hn). cbn [first_endpoint].
    assert ((if dtype d =? 5 then a0 ← at_ (a ++ d ++ b) (e + 2); (if Z.land a0 128 =? dir then m ← at_ (a ++ d ++ b) (e + 3); Ret (Z.land m 3 =? type) else Ret false) else Ret false)
      = Ret (bool_decide (endpoint type dir d))) as ->.
    { unfold endpoint, USB_DT_ENDPOINT. destruct (Z.eqb_spec (dtype d) 5) as [E5|E5]; [|by rewrite bool_decide_false by tauto].
      specialize (He E5). rewrite (at_bind a d b e 2 _ Eo) by lia. destruct (Z.eqb_spec (Z.land (nth 2 d 0) 128) dir); [|by rewrite bool_decide_false by tauto].
      rewrite (at_bind a d b e 3 _ Eo) by lia. f_equal. destruct (Z.eqb_spec (Z.land (nth 3 d 0) 3) type); [by rewrite bool_decide_true|by rewrite bool_decide_false by tauto]. }
    rewrite bind_ret. case_bool_decide as Hep.
    + right. rewrite decide_True by done. by eexists.
    + left. rewrite decide_False, A0, E0 by done. eexists. split; [done|]. split; [|lia].
      exists (pre ++ [d]), post. rewrite <- app_assoc, size_of_snoc. split_and!; try done. subst e. lia.
  - exists [], eps. assert (size_of [] = 0) as E0 by done. rewrite E0, Z.add_0_r. done.
  - lia.
Qed.

(** A descriptor of length 0 behind an interface keeps the search in place. *)
Theorem find_desc_hangs before ifd after type dir imax t :
  length ifd = 9%nat -> 9 < imax -> t <> USB_DT_INTERFACE -> t <> USB_DT_ENDPOINT ->
  usb_find_desc (before ++ ifd ++ 0 :: t :: after) (Z.of_nat (length before)) imax type dir = Spin.
Proof.
  intros Hi Him Ht He. unfold usb_find_desc, IFACE_SIZE. set (o := Z.of_nat (length before) + 9).
  apply (loop_forever (fun e => e = o)); [|done]. intros e ->. exists o. split; [|done].
  rewrite (proj2 (Z.leb_gt _ o)) by lia. replace (before ++ ifd ++ 0 :: t :: after) with ((before ++ ifd) ++ [0; t] ++ after) by (by rewrite <- app_assoc).
  assert (o = Z.of_nat (length (before ++ ifd))) as Eo by (rewrite length_app, Hi; lia).
  rewrite (at_bind _ [0; t] after o 1 _ Eo) by (cbn; lia). cbn [nth]. rewrite (proj2 (Z.eqb_neq _ _) Ht), (proj2 (Z.eqb_neq _ _) He), bind_ret.
  rewrite <- (Z.add_0_r o) at 1. rewrite (at_bind _ [0; t] after o 0 _ Eo) by (cbn; lia). cbn [nth]. by rewrite Z.add_0_r.
Qed.

(** Whatever bytes a device sends, the walk over its interfaces ends inside of
    the configuration and finds at most eight. *)
Lemma collect_total buf total :
  Forall byte_ok buf -> 0 <= total <= Z.of_nat (length buf) -> total < 65536 ->
  exists l, collect_ifaces buf total = Ret l /\ (length l <= 8)%nat /\ Forall (fun o => 9 <= o /\ o + 9 <= total) l.
Proof.
  intros Hb Ht Hsz. unfold collect_ifaces.
  loop_with (fun '(p, l) => 9 <= p /\ (p = 9 \/ p <= total) /\ (length l <= 8)%nat /\ Forall (fun o => 9 <= o /\ o + 9 <= total) l)
    (fun l => (length l <= 8)%nat /\ Forall (fun o => 9 <= o /\ o + 9 <= total) l) (fun '(p, _) => 65545 - p) as (l & -> & ? & ?); [..|by eauto].
  - intros [p l] (Hp & Hp' & Hl & Hf).
    assert (A : forall o, 0 <= o < total -> exists x, at_ buf o = Ret x /\ byte_ok x).
    { intros o Ho. destruct (lookup_lt_is_Some_2 buf (Z.to_nat o)) as [x Hx]; [lia|]. exists x. rewrite Forall_lookup in Hb. split; [|by eapply Hb].
      rewrite <- (Z2Nat.id o) by lia. by apply at_ok. }
    destruct (Z.ltb_spec p total); [|right; by eexists]. destruct (A p) as (len & -> & Bl); [lia|]. rewrite bind_ret.
    destruct (Z.ltb_spec len 2); [right; by eexists|]. destruct (Z.ltb_spec total (p + len)); [right; by eexists|]. cbn [orb].
    unfold byte_ok in Bl. destruct (A (p + 1)) as (t & -> & _); [lia|]. rewrite bind_ret. unfold IFACE_SIZE, USB_MAX_IFACES.
    destruct (t =? USB_DT_INTERFACE); [|left; eexists; split; [done|]; split; [by auto with lia|lia]].
    destruct (Z.ltb_spec len 9); [right; by eexists|]. destruct (Z.eqb_spec (Z.of_nat (length l)) 8); [right; by eexists|]. cbn [orb].
    left. eexists. split; [done|]. split; [|lia]. rewrite length_app. cbn. split_and!; try lia. apply Forall_app. split; [done|]. constructor; [lia|done].
  - split; [lia|]. split; [lia|]. split; [cbn; lia|done].
  - lia.
Qed.

(** ** usb.c: configuration of a device *)

Record usb_ctrlrequest := mkReq { bRequestType : Z; bRequest : Z; wValue : Z; wIndex : Z; wLength : Z }.
Definition USB_REQ_GET_DESCRIPTOR : Z := 6.
Definition USB_REQ_SET_CONFIGURATION : Z := 9.

(** What is done to a device: its control pipe is set up for packets of a size,
    requests are sent, class drivers are offered interfaces. *)
Inductive event :=
  | Pipe (maxpacket : Z)
  | Control (r : usb_ctrlrequest)
  | Driver (t : usbdev_type) (iface imax : Z).

Definition le16 (buf : list Z) (off : Z) : run Z := a ← at_ buf off; b ← at_ buf (off + 1); Ret (a + 256 * b).

Section Configure.
Context {A : Type} `{!FrameAllocator A}.
(** The device's answer to each request, whether the controller has a pipe to
    give, which interfaces the class drivers take; what the stack holds. *)
Context (answer : nat -> usb_ctrlrequest -> option (list Z)) (repipe : nat -> bool) (claims : usbdev_type -> Z -> Z -> bool) (stale : list Z).

Record enum := mkEnum { events : list event; pool : dma A; g_entries : list usbdev_entry }.
Definition note (e : event) (s : enum) : enum := mkEnum (events s ++ [e]) (pool s) (g_entries s).
Definition set_pool (p : dma A) (s : enum) : enum := mkEnum (events s) p (g_entries s).

(** [usb_send_default_control]: the receiving buffer, if the transfer worked. *)
Definition control (r : usb_ctrlrequest) (old : list Z) (s : enum) : option (list Z) * enum :=
  let got bs := let bs := take (Z.to_nat (wLength r)) bs in bs ++ drop (length bs) old in
  (got <$> answer (length (events s)) r, note (Control r) s).

Definition get_descriptor (type idx len : Z) : usb_ctrlrequest := mkReq 0x80 USB_REQ_GET_DESCRIPTOR (Z.lor (Z.shiftl type 8) idx) 0 len.

Definition get_device_info8 (s : enum) : option (list Z) * enum := control (get_descriptor 1 0 8) (take 8 stale) s.
Definition get_device_info18 (s : enum) : option (list Z) * enum := control (get_descriptor 1 0 18) (take 18 stale) s.

Definition get_device_config (s : enum) : run (option (list Z) * enum) :=
  let '(o, s) := control (get_descriptor 2 0 9) (take 9 stale) s in
  match o with
  | None => Ret (None, s)
  | Some cfg =>
      total ← le16 cfg 2;
      '(va, p) ← usb_alloc total (pool s);
      let s := set_pool p s in
      if va =? 0 then Ret (None, s)
      else
        let '(o, s) := control (get_descriptor 2 0 total) (replicate (Z.to_nat total) 0) s in
        match o with
        | None => Ret (None, s)
        | Some config => t ← le16 config 2; if negb (t =? total) then Ret (None, s) else Ret (Some config, s)
        end
  end.

Definition set_configuration (val : Z) (s : enum) : bool * enum :=
  let '(o, s) := control (mkReq 0 USB_REQ_SET_CONFIGURATION val 0 0) [] s in (bool_decide (is_Some o), s).

(** [None]: -1.  The class drivers' own requests are not part of the model. *)
Definition usbdev_attach (buf : list Z) (iface imax : Z) (s : enum) : run (option usbdev_type * enum) :=
  t ← usbdev_classify buf iface;
  if decide (t = USBDEV_VENDOR) then Ret (None, s)
  else
    let s := note (Driver t iface imax) s in
    Ret (if claims t iface imax then Some t else None, s).

Section Device.
Context (bus addr port speed : Z).

Definition register (buf : list Z) (iface : Z) (t : usbdev_type) (vid pid iProduct : Z) (s : enum) : run enum :=
  if (USBDEV_MAX <=? length (g_entries s))%nat then Ret s
  else
    inum ← at_ buf (iface + 2);
    let '(ans, s) := if iProduct =? 0 then (None, s) else control (get_descriptor 3 iProduct 64) (replicate 64 0) s in
    product ← usbdev_read_string ans iProduct PRODUCT_SIZE;
    Ret (mkEnum (events s) (pool s) (usbdev_register (mkEntry t bus addr (u8 port) speed inum vid pid product) (g_entries s)).2).

(** The loop over the interfaces: how many were taken, the type of the first. *)
Fixpoint attach_each (buf : list Z) (config_end vid pid iProduct : Z) (offs : list Z) (count : Z) (first : usbdev_type) (s : enum)
    : run (Z * usbdev_type * enum) :=
  match offs with
  | [] => Ret (count, first, s)
  | o :: rest =>
      let next := match rest with n :: _ => n | [] => config_end end in
      '(r, s) ← usbdev_attach buf o (next - o) s;
      match r with
      | None => attach_each buf config_end vid pid iProduct rest count first s
      | Some t =>
          s ← register buf o t vid pid iProduct s;
          attach_each buf config_end vid pid iProduct rest (count + 1) (if decide (first = USBDEV_NONE) then t else first) s
      end
  end.

(** The interface the device keeps: the first hub, or the first of all. *)
Fixpoint primary (buf : list Z) (offs : list Z) : run (option Z) :=
  match offs with
  | [] => Ret None
  | o :: offs => t ← usbdev_classify buf o; if decide (t = USBDEV_HUB) then Ret (Some o) else primary buf offs
  end.

(** [bMaxPacketSize0] is an exponent on a super-speed device. *)
Definition max_packet (mp : Z) : run Z :=
  if (speed =? USB_SUPERSPEED) && (mp <? 512) then (if 31 <=? mp then Fault else Ret (u16 (Z.shiftl 1 mp))) else Ret mp.

(** Vendor, product and the index of its name, when the descriptor is whole. *)
Definition device_ids (dd : option (list Z)) : run (Z * Z * Z) :=
  match dd with
  | None => Ret (0, 0, 0)
  | Some dd => l ← at_ dd 0; v ← le16 dd 8; p ← le16 dd 10; i ← at_ dd 15; if 18 <=? l then Ret (v, p, i) else Ret (0, 0, 0)
  end.

Definition canonical (first : usbdev_type) (config : list Z) (total : Z) (offs : list Z) : run (option (Z * Z)) :=
  o ← (if decide (first = USBDEV_HUB) then primary config offs else Ret (head offs));
  Ret (match o with Some o => Some (o, total - o) | None => None end).

(** Behind [get_device_config]. *)
Definition configure_ifaces (config : list Z) (vid pid iprod : Z) (s : enum) : run (Z * option (Z * Z) * enum) :=
  total ← le16 config 2;
  offs ← collect_ifaces config total;
  val ← at_ config 5;
  let '(ok, s) := set_configuration val s in
  if negb ok then Ret (0, None, s)
  else
    '(count, first, s) ← attach_each config total vid pid iprod offs 0 USBDEV_NONE s;
    if count =? 0 then Ret (0, None, s)
    else o ← canonical first config total offs; Ret (count, o, s).

Definition configure_usb_device (s : enum) : run (Z * option (Z * Z) * enum) :=
  let '(o, s) := get_device_info8 s in
  match o with
  | None => Ret (0, None, s)
  | Some dinfo =>
      mp ← at_ dinfo 7;
      mp ← max_packet mp;
      if mp <? 8 then Ret (0, None, s)
      else
        let ok := repipe (length (events s)) in
        let s := note (Pipe mp) s in
        if negb ok then Ret (-1, None, s)
        else
          let '(dd, s) := get_device_info18 s in
          '(vid, pid, iprod) ← device_ids dd;
          '(config, s) ← get_device_config s;
          match config with
          | None => Ret (0, None, s)
          | Some config => configure_ifaces config vid pid iprod s
          end
  end.

(** ** What a device is offered *)

(** The calls of class drivers. *)
Definition drivers (es : list event) : list (usbdev_type * Z * Z) :=
  omap (fun e => match e with Driver t o n => Some (t, o, n) | _ => None end) es.

Definition class_of (config : list Z) (o : Z) : usbdev_type :=
  let b i := nth (Z.to_nat (o + i)) config 0 in classify (b 5) (b 6) (b 7).

(** Each interface of the list with the bytes up to the next one of the list,
    the last with all bytes up to [end_], for its class. *)
Fixpoint offers (config : list Z) (end_ : Z) (offs : list Z) : list (usbdev_type * Z * Z) :=
  match offs with
  | [] => []
  | o :: rest =>
      let next := match rest with n :: _ => n | [] => end_ end in
      (if decide (class_of config o = USBDEV_VENDOR) then [] else [(class_of config o, o, next - o)]) ++ offers config end_ rest
  end.

Definition taken (l : list (usbdev_type * Z * Z)) : list (usbdev_type * Z * Z) := List.filter (fun '(t, o, n) => claims t o n) l.

Lemma at_nth buf o : 0 <= o < Z.of_nat (length buf) -> at_ buf o = Ret (nth (Z.to_nat o) buf 0).
Proof.
  intros Ho. destruct (lookup_lt_is_Some_2 buf (Z.to_nat o)) as [x Hx]; [lia|].
  rewrite (nth_lookup_Some _ _ _ _ Hx). rewrite <- (Z2Nat.id o) at 1 by lia. by apply at_ok.
Qed.

Lemma classify_nth buf o : 0 <= o -> o + 9 <= Z.of_nat (length buf) -> usbdev_classify buf o = Ret (class_of buf o).
Proof. intros. unfold usbdev_classify. by rewrite !at_nth by lia. Qed.

Lemma read_string_total ans idx outsz :
  (forall buf, ans = Some buf -> (64 <= length buf)%nat) -> outsz <= 32 -> exists l, usbdev_read_string ans idx outsz = Ret l.
Proof.
  intros Ha Ho. unfold usbdev_read_string. destruct ((idx =? 0) || (outsz <? 2)) eqn:E0; [by eauto|]. apply orb_false_iff in E0 as [_ E0%Z.ltb_ge].
  destruct ans as [buf|]; [|by eauto]. specialize (Ha buf eq_refl). rewrite !at_nth, !bind_ret by lia.
  destruct ((_ <? 4) || _) eqn:E; [by eauto|]. set (n := if _ <? _ then _ else _). assert (n <= 31) as Hn by (subst n; case_match; lia). clearbody n.
  assert (H : forall i, i ∈ seqZ 0 n -> 0 <= i < 31) by (intros i Hi%elem_of_seqZ; lia). induction (seqZ 0 n) as [|i is_ IH]; [by eauto|].
  cbn [foldr]. pose proof (H i (list_elem_of_here _ _)). rewrite at_nth, bind_ret by lia. destruct IH as [l ->]; [intros j Hj; apply H; by right|]. rewrite bind_ret. eauto.
Qed.

Lemma control_length r old s buf : (Z.to_nat (wLength r) <= length old)%nat -> (control r old s).1 = Some buf -> (length old <= length buf)%nat.
Proof.
  intros Hl. unfold control. cbn [fst]. destruct (answer _ r); [|done]. cbn. intros [= <-]. rewrite length_app, length_drop, length_take. lia.
Qed.

Lemma drivers_app es fs : drivers (es ++ fs) = drivers es ++ drivers fs.
Proof. apply omap_app. Qed.

Lemma register_spec buf o t vid pid iprod s :
  0 <= o -> o + 9 <= Z.of_nat (length buf) -> (length (g_entries s) <= 16)%nat ->
  exists s', register buf o t vid pid iprod s = Ret s' /\ drivers (events s') = drivers (events s) /\ pool s' = pool s /\
    (length (g_entries s') <= 16)%nat /\ e_type <$> g_entries s' = take 16 ((e_type <$> g_entries s) ++ [t]).
Proof.
  intros Ho Hl Hg. unfold register, USBDEV_MAX. destruct (Nat.leb_spec 16 (length (g_entries s))).
  { exists s. split_and!; try done. rewrite take_app_le, take_ge by (rewrite length_fmap; lia). done. }
  rewrite at_nth, bind_ret by lia.
  assert (exists ans s1, (if iprod =? 0 then (None, s) else control (get_descriptor 3 iprod 64) (replicate 64 0) s) = (ans, s1) /\
    (forall buf, ans = Some buf -> (64 <= length buf)%nat) /\ drivers (events s1) = drivers (events s) /\ pool s1 = pool s /\ g_entries s1 = g_entries s)
    as (ans & s1 & -> & Ha & Hd & Hp & He).
  { destruct (iprod =? 0); [eexists _, _; by split_and!|]. eexists _, _. split; [apply surjective_pairing|]. split_and!; try done.
    - intros b Hb. apply (control_length _ _ _ _) in Hb; [by rewrite length_replicate in Hb|]. cbn. lia.
    - cbn. by rewrite drivers_app, app_nil_r. }
  destruct (read_string_total ans iprod PRODUCT_SIZE Ha ltac:(done)) as [prod ->]. rewrite bind_ret.
  eexists. split; [done|]. cbn [events pool g_entries]. unfold usbdev_register, USBDEV_MAX. rewrite He, (proj2 (Nat.leb_gt _ _)) by done. cbn [snd].
  split_and!; try done; [rewrite length_app; cbn; lia|]. rewrite fmap_app. cbn. rewrite take_ge; [done|]. rewrite length_app, length_fmap. cbn. lia.
Qed.

Definition in_config (config : list Z) (o : Z) : Prop := 0 <= o /\ o + 9 <= Z.of_nat (length config).
Definition types (l : list (usbdev_type * Z * Z)) : list usbdev_type := (fun '(t, _, _) => t) <$> l.

Lemma attach_each_spec config end_ vid pid iprod offs count first s :
  Forall (in_config config) offs -> (length (g_entries s) <= 16)%nat ->
  let got := taken (offers config end_ offs) in
  exists first' s', attach_each config end_ vid pid iprod offs count first s = Ret (count + Z.of_nat (length got), first', s') /\
    drivers (events s') = drivers (events s) ++ offers config end_ offs /\
    e_type <$> g_entries s' = take 16 ((e_type <$> g_entries s) ++ types got).
Proof.
  revert count first s. induction offs as [|o rest IH]; intros count first s Hin Hg; cbn [attach_each offers].
  { exists first, s. split_and!; [|by rewrite app_nil_r|].
    - do 3 f_equal. cbn. lia.
    - cbn. rewrite app_nil_r, take_ge; [done|]. by rewrite length_fmap. }
  apply Forall_cons in Hin as [[Ho1 Ho2] Hin]. set (next := match rest with [] => end_ | n :: _ => n end).
  unfold usbdev_attach. rewrite classify_nth, bind_ret by done. set (t := class_of config o).
  destruct (decide (t = USBDEV_VENDOR)) as [Et|Et]; [rewrite bind_ret; by apply IH|]. rewrite bind_ret.
  set (s1 := note _ s). assert (drivers (events s1) = drivers (events s) ++ [(t, o, next - o)]) as Hd1 by (cbn; by rewrite drivers_app).
  unfold taken in *. cbn [List.filter app]. destruct (claims t o (next - o)) eqn:Ec.
  - destruct (register_spec config o t vid pid iprod s1 Ho1 Ho2 Hg) as (s2 & -> & Hd2 & _ & Hg2 & He2). rewrite bind_ret.
    destruct (IH (count + 1) (if decide (first = USBDEV_NONE) then t else first) s2 Hin Hg2) as (f' & s' & -> & Hd' & He'). exists f', s'. split_and!.
    + cbn [length app]. do 3 f_equal. lia.
    + rewrite Hd', Hd2, Hd1, <- app_assoc. done.
    + rewrite He', He2. cbn [app]. change (types ((t, o, next - o) :: ?x)) with (t :: types x).
      change (g_entries s1) with (g_entries s). destruct (decide (length (g_entries s) = 16%nat)) as [E|E].
      * rewrite (take_app_le (e_type <$> g_entries s) [t]), (take_ge (e_type <$> g_entries s)), !take_app_le by (rewrite length_fmap; lia). done.
      * rewrite (take_ge ((e_type <$> g_entries s) ++ [t])) by (rewrite length_app, length_fmap; cbn; lia). by rewrite <- app_assoc.
  - destruct (IH count first s1 Hin Hg) as (f' & s' & -> & Hd' & He'). exists f', s'. split_and!; try done.
    rewrite Hd', Hd1, <- app_assoc. done.
Qed.

Lemma primary_total config offs : Forall (in_config config) offs -> exists o, primary config offs = Ret o.
Proof.
  induction 1 as [|o offs [H1 H2] _ IH]; cbn; [by eauto|]. rewrite classify_nth, bind_ret by done. destruct (decide _); eauto.
Qed.

Lemma iface_offs_in hdr ds o : length hdr = 9%nat -> Forall desc_ok ds -> o ∈ iface_offs 9 ds -> in_config (hdr ++ mjoin ds) o.
Proof.
  intros Hh Hds. unfold in_config. rewrite length_app, Hh. change (Z.of_nat (9 + length (mjoin ds))) with (Z.of_nat (9 + length (mjoin ds))).
  assert (H : forall b ds, 0 <= b -> Forall desc_ok ds -> o ∈ iface_offs b ds -> b <= o /\ o + 9 <= b + size_of ds).
  { intros b ds'. revert b. induction ds' as [|d ds' IH]; intros b Hb Hd Ho; cbn [iface_offs] in Ho; [by apply elem_of_nil in Ho|].
    apply Forall_cons in Hd as [(_ & _ & _ & Hi & _) Hd]. rewrite size_of_cons. apply elem_of_app in Ho as [Ho|Ho].
    - destruct (decide (dtype d = USB_DT_INTERFACE)) as [E|E]; [|by apply elem_of_nil in Ho]. apply list_elem_of_singleton in Ho as ->. rewrite (Hi E). unfold size_of. lia.
    - specialize (IH (b + Z.of_nat (length d)) ltac:(lia) Hd Ho). lia. }
  intros Ho. specialize (H 9 ds ltac:(lia) Hds Ho). unfold size_of in H. lia.
Qed.

(** A device that answers with the descriptors [dd] and [config] and accepts
    its configuration. *)
Definition device_answers (dd config : list Z) : Prop :=
  forall n, (forall len, answer n (get_descriptor 1 0 len) = Some dd) /\ (forall len, answer n (get_descriptor 2 0 len) = Some config) /\
    forall v, is_Some (answer n (mkReq 0 USB_REQ_SET_CONFIGURATION v 0 0)).

Lemma configure_ifaces_spec hdr ds vid pid iprod s :
  length hdr = 9%nat -> Forall desc_ok ds -> size_of ds < 65536 -> nth 2 hdr 0 + 256 * nth 3 hdr 0 = 9 + size_of ds ->
  (forall n v, is_Some (answer n (mkReq 0 USB_REQ_SET_CONFIGURATION v 0 0))) -> (length (g_entries s) <= 16)%nat ->
  let config := hdr ++ mjoin ds in let offered := offers config (9 + size_of ds) (take 8 (iface_offs 9 ds)) in
  exists o s', configure_ifaces config vid pid iprod s = Ret (Z.of_nat (length (taken offered)), o, s') /\
    drivers (events s') = drivers (events s) ++ offered /\ e_type <$> g_entries s' = take 16 ((e_type <$> g_entries s) ++ types (taken offered)).
Proof.
  intros Hh Hds Hsz Ht Hset Hg config offered. unfold configure_ifaces.
  assert (Hn : forall i, (i < 9)%nat -> nth i config 0 = nth i hdr 0) by (intros i Hi; apply app_nth1; lia).
  assert (Hlc : (9 <= length config)%nat) by (subst config; rewrite length_app; lia).
  unfold le16. rewrite !at_nth, !bind_ret by lia. change (Z.to_nat 2) with 2%nat. change (Z.to_nat (2 + 1)) with 3%nat. rewrite !Hn, Ht by lia.
  pose proof (collect_spec hdr ds Hh Hds Hsz) as Hcol. fold config in Hcol. rewrite Hcol, !bind_ret. unfold set_configuration, control. cbn zeta.
  destruct (Hset (length (events s)) (nth (Z.to_nat 5) hdr 0)) as [bs ->]. cbn [fmap option_fmap option_map].
  rewrite bool_decide_true by (by eexists). cbn [negb]. set (s1 := note _ s).
  assert (Forall (in_config config) (take 8 (iface_offs 9 ds))) as Hin.
  { apply Forall_take, Forall_forall. intros o Ho. by apply iface_offs_in. }
  destruct (attach_each_spec config (9 + size_of ds) vid pid iprod (take 8 (iface_offs 9 ds)) 0 USBDEV_NONE s1 Hin Hg) as (f & s' & -> & Hd & He).
  rewrite bind_ret. assert (drivers (events s1) = drivers (events s)) as Hd1 by (cbn; by rewrite drivers_app, app_nil_r). rewrite Hd1 in Hd.
  rewrite Z.add_0_l. fold offered. destruct (Z.eqb_spec (Z.of_nat (length (taken offered))) 0) as [E|E].
  { exists None, s'. rewrite E. by split_and!. }
  unfold canonical. destruct (primary_total config _ Hin) as [o Ho].
  destruct (decide (f = USBDEV_HUB)); [rewrite Ho|]; rewrite !bind_ret; eexists _, s'; by split_and!.
Qed.

(** A size of control packets with which enumeration goes on; super-speed
    devices give its exponent. *)
Definition packet_ok (mp : Z) : Prop := if decide (speed = USB_SUPERSPEED) then 3 <= mp < 16 else 8 <= mp.

Lemma max_packet_spec mp : packet_ok mp -> exists n, max_packet mp = Ret n /\ 8 <= n.
Proof.
  unfold packet_ok, max_packet. destruct (decide (speed = USB_SUPERSPEED)) as [->|Hs]; intros Hmp.
  - rewrite Z.eqb_refl, (proj2 (Z.ltb_lt mp 512)), (proj2 (Z.leb_gt 31 mp)) by lia. cbn [andb]. eexists. split; [done|]. rewrite Z.shiftl_mul_pow2, Z.mul_1_l by lia.
    pose proof (Z.pow_le_mono_r 2 3 mp). pose proof (Z.pow_le_mono_r 2 mp 15). rewrite u16_small by lia. lia.
  - rewrite (proj2 (Z.eqb_neq _ _) Hs). by exists mp.
Qed.

(** C23: Configuration of a device, of any speed, that answers every request -
    with a descriptor of an allowed packet size and with a configuration of any
    number of interfaces, each followed by endpoints and other descriptors -
    when there are pipes and memory for it.  Each of its first eight interfaces
    of a known class is offered to the driver of that class, once and in order,
    with exactly the bytes up to the next interface; the last of these eight is
    offered all bytes up to the end of the configuration, also when a ninth
    interface follows, and interfaces after the eighth are not offered.  The
    result counts the interfaces that the drivers took, and these are entered
    into the registry as far as it has room. *)
Theorem configure_offers dd hdr ds s va p' :
  let config := hdr ++ mjoin ds in
  let offered := offers config (9 + size_of ds) (take 8 (iface_offs 9 ds)) in
  device_answers dd config -> (forall n, repipe n = true) -> length dd = 18%nat -> packet_ok (nth 7 dd 0) ->
  length hdr = 9%nat -> Forall desc_ok ds -> size_of ds < 65536 -> nth 2 hdr 0 + 256 * nth 3 hdr 0 = 9 + size_of ds ->
  usb_alloc (9 + size_of ds) (pool s) = Ret (va, p') -> va <> 0 -> (length (g_entries s) <= 16)%nat ->
  exists o s', configure_usb_device s = Ret (Z.of_nat (length (taken offered)), o, s') /\
    drivers (events s') = drivers (events s) ++ offered /\
    e_type <$> g_entries s' = take 16 ((e_type <$> g_entries s) ++ types (taken offered)).
Proof.
  intros config offered Hans Hpipe Hdd Hmp Hh Hds Hsz Ht Hal Hva Hg.
  assert (Hlc : length config = Z.to_nat (9 + size_of ds)) by (subst config; rewrite length_app; unfold size_of; lia).
  assert (Hrecv : forall (l : list Z) n old, (n <= length l)%nat -> length old = n -> take n l ++ drop (length (take n l)) old = take n l).
  { intros l n old Hl Ho. rewrite length_take, drop_ge, app_nil_r by lia. done. }
  unfold configure_usb_device, get_device_info8, control. cbn zeta. rewrite (proj1 (Hans _)). cbn [fmap option_fmap option_map wLength get_descriptor].
  change (Z.to_nat 8) with 8%nat. set (b8 := take 8 dd ++ _).
  assert (nth 7 b8 0 = nth 7 dd 0 /\ (8 <= length b8)%nat) as [E7 L8].
  { subst b8. split; [|rewrite length_app, length_take; lia]. rewrite app_nth1 by (rewrite length_take; lia).
    rewrite <- (take_drop 8 dd) at 2. by rewrite app_nth1 by (rewrite length_take; lia). }
  rewrite at_nth, bind_ret by lia. change (Z.to_nat 7) with 7%nat. rewrite E7. destruct (max_packet_spec _ Hmp) as (mp & -> & Hmp8).
  rewrite bind_ret, (proj2 (Z.ltb_ge mp 8)) by lia. rewrite Hpipe. cbn [negb]. unfold get_device_info18, control. rewrite (proj1 (Hans _)).
  cbn [fmap option_fmap option_map wLength get_descriptor]. set (b18 := take (Z.to_nat 18) dd ++ _).
  assert (18 <= length b18)%nat as L18 by (subst b18; rewrite length_app, length_take; lia).
  assert (exists ids, device_ids (Some b18) = Ret ids) as [[[vid pid] iprod] ->].
  { unfold device_ids, le16. rewrite !at_nth, !bind_ret by lia. destruct (_ <=? _); eauto. }
  rewrite bind_ret. unfold get_device_config, control. rewrite (proj1 (proj2 (Hans _))). cbn [fmap option_fmap option_map wLength get_descriptor].
  assert (take (Z.to_nat 9) config = hdr) as T9 by (subst config; change (Z.to_nat 9) with 9%nat; rewrite <- Hh; apply take_app_length).
  rewrite T9. set (b9 := hdr ++ _). assert (le16 b9 2 = Ret (9 + size_of ds)) as ->.
  { unfold le16. assert (9 <= length b9)%nat by (subst b9; rewrite length_app; lia). rewrite !at_nth, !bind_ret by lia.
    subst b9. change (Z.to_nat 2) with 2%nat. change (Z.to_nat (2 + 1)) with 3%nat. rewrite !app_nth1 by lia. by rewrite Ht. }
  rewrite bind_ret. cbn [pool note]. rewrite Hal, bind_ret, (proj2 (Z.eqb_neq _ _) Hva). rewrite (proj1 (proj2 (Hans _))).
  cbn [fmap option_fmap option_map]. rewrite Hrecv by (rewrite ?length_replicate; lia). rewrite take_ge by lia.
  assert (le16 config 2 = Ret (9 + size_of ds)) as ->.
  { unfold le16. assert (9 <= length config)%nat by (subst config; rewrite length_app; lia). rewrite !at_nth, !bind_ret by lia.
    subst config. change (Z.to_nat 2) with 2%nat. change (Z.to_nat (2 + 1)) with 3%nat. rewrite !app_nth1 by lia. by rewrite Ht. }
  rewrite bind_ret, Z.eqb_refl. cbn [negb]. rewrite bind_ret. set (s1 := note _ _).
  destruct (configure_ifaces_spec hdr ds vid pid iprod s1) as (o & s' & Hrun & Hd & He); try done; [apply Hans|].
  exists o, s'. split_and!; try done. rewrite Hd. f_equal. cbn. by rewrite !drivers_app, !app_nil_r.
Qed.
End Device.
End Configure.
Arguments enum : clear implicits.

(** A keyboard with a second interface for its mouse. *)
Definition demo_dd : list Z := [18; 1; 0; 2; 0; 0; 0; 8; 0x6D; 4; 0x1C; 0xC3; 0; 1; 1; 2; 0; 1].
Definition demo_hdr : list Z := [9; 2; 59; 0; 2; 1; 0; 0xA0; 50].
Definition demo_descs : list (list Z) :=
  [[9; 4; 0; 0; 1; 3; 1; 1; 0]; [9; 0x21; 0x11; 1; 0; 1; 0x22; 65; 0]; [7; 5; 0x81; 3; 8; 0; 10];
   [9; 4; 1; 0; 1; 3; 1; 2; 0]; [9; 0x21; 0x11; 1; 0; 1; 0x22; 52; 0]; [7; 5; 0x82; 3; 4; 0; 10]].
Definition demo_answer (n : nat) (r : usb_ctrlrequest) : option (list Z) :=
  if bRequest r =? 6 then
    (if wValue r =? 256 then Some demo_dd else if wValue r =? 512 then Some (demo_hdr ++ mjoin demo_descs) else None)
  else Some [].
Definition demo_enum : enum pmm := mkEnum [] demo_pool [].

Lemma configure_offers_witness :
  exists o s', configure_usb_device demo_answer (fun _ => true) (fun t _ _ => bool_decide (t = USBDEV_KEYBOARD)) [] 4 1 0 0 demo_enum = Ret (1, o, s') /\
    drivers (events s') = [(USBDEV_KEYBOARD, 9, 25); (USBDEV_MOUSE, 34, 25)] /\ e_type <$> g_entries s' = [USBDEV_KEYBOARD].
Proof.
  assert (('(va, _) ← usb_alloc 59 demo_pool; Ret va) = Ret 0x8000) as Hva by (vm_compute; reflexivity).
  destruct (usb_alloc 59 demo_pool) as [[va p']| |] eqn:Hal; [|done|done]. cbn in Hva. injection Hva as ->.
  assert (offers (demo_hdr ++ mjoin demo_descs) (9 + size_of demo_descs) (take 8 (iface_offs 9 demo_descs)) =
    [(USBDEV_KEYBOARD, 9, 25); (USBDEV_MOUSE, 34, 25)]) as Eo by (vm_compute; reflexivity).
  destruct (configure_offers demo_answer (fun _ => true) (fun t _ _ => bool_decide (t = USBDEV_KEYBOARD)) [] 4 1 0 0 demo_dd demo_hdr demo_descs demo_enum 0x8000 p')
    as (o & s' & H1 & H2 & H3).
  - intros n. split; [done|]. split; [done|]. intros v. by eexists.
  - done.
  - done.
  - unfold packet_ok. rewrite decide_False by done. cbn. lia.
  - done.
  - repeat (apply Forall_cons; split); [..|by apply Forall_nil];
      (split; [by apply (bool_decide_unpack _)|]); (split; [cbn; lia|]); (split; [done|]); split; intros ?; try done; cbn; lia.
  - vm_compute. reflexivity.
  - vm_compute. reflexivity.
  - assert (9 + size_of demo_descs = 59) as -> by (vm_compute; reflexivity). exact Hal.
  - done.
  - cbn. lia.
  - rewrite Eo in H1, H2, H3. exists o, s'. split; [exact H1|]. split; [exact H2|exact H3].
Defined.

(** ** The free list of pipes *)

(** The pipes on the list that starts at [p]. *)
Fixpoint chain (h : gmap Z usb_pipe) (p : Z) (l : list Z) : Prop :=
  match l with
  | [] => p = 0
  | x :: l => p = x /\ x <> 0 /\ exists q, h !! x = Some q /\ chain h (link q) l
  end.

Lemma chain_other h p l x q : x ∉ l -> chain h p l -> chain (<[x := q]> h) p l.
Proof.
  revert p. induction l as [|y l IH]; intros p Hx Hc; [done|]. destruct Hc as (-> & Hy & r & Hr & Hc). apply not_elem_of_cons in Hx as [Hxy Hx].
  split; [done|]. split; [done|]. exists r. rewrite lookup_insert_ne by done. auto.
Qed.

(** A pipe that is given back is the first of its controller's list. *)
Lemma add_freelist_spec s c f l p q :
  freelist s !! c = Some f -> chain (heap s) f l -> heap s !! p = Some q -> link q = c -> p <> 0 -> p ∉ l ->
  exists s', usb_add_freelist p s = Ret s' /\ freelist s' !! c = Some p /\ chain (heap s') p (p :: l).
Proof.
  intros Hf Hc Hq <- Hp Hl. unfold usb_add_freelist. rewrite (proj2 (Z.eqb_neq _ _) Hp), Hq. cbn [of_option]. rewrite bind_ret, Hf. cbn [of_option].
  rewrite bind_ret. eexists. split; [done|]. cbn [freelist heap]. split; [by rewrite lookup_insert_eq|].
  split; [done|]. split; [done|]. eexists. split; [by rewrite lookup_insert_eq|]. by apply chain_other.
Qed.

(** The pipe that was given back last among those of the type asked for is
    taken off; the others stay in their order. *)
Lemma get_freelist_spec s c f l1 p l2 t :
  freelist s !! c = Some f -> NoDup (l1 ++ p :: l2) -> chain (heap s) f (l1 ++ p :: l2) -> Z.of_nat (length l1) < 2 ^ 60 ->
  (forall x q, x ∈ l1 -> heap s !! x = Some q -> eptype q <> t) -> (forall q, heap s !! p = Some q -> eptype q = t) ->
  exists s' f', usb_get_freelist c t s = Ret (p, s') /\ freelist s' !! c = Some f' /\ chain (heap s') f' (l1 ++ l2).
Proof.
  intros Hf Hnd Hc Hlen Hno Hyes. unfold usb_get_freelist. rewrite Hf. cbn [of_option]. rewrite bind_ret.
  (* links up to [prev] as they are *)
  assert (Hseg : forall a b x, chain (heap s) f (a ++ x :: b) -> exists q, heap s !! x = Some q /\ x <> 0 /\ chain (heap s) (link q) b).
  { clear. intros a. generalize f. induction a as [|y a IH]; intros g b x Hch; destruct Hch as (-> & Hx & q & Hq & Hch); [by eauto|]. by apply (IH (link q)). }
  loop_with (fun '(prev, pipe) => exists a b, l1 = a ++ b /\ pipe = (match b with [] => p | y :: _ => y end) /\ prev = last a)
    (fun r => r.1 = p /\ exists f', freelist r.2 !! c = Some f' /\ chain (heap r.2) f' (l1 ++ l2))
    (fun '(prev, pipe) => match prev with None => Z.of_nat (length l1) + 1 | Some x => Z.of_nat (length l1) - Z.of_nat (match list_find (fun y => y = x) l1 with Some (i, _) => i | None => O end) end)
    as ([r s'] & -> & Er & f' & Hf' & Hc'); cbn [fst snd] in *; [..|subst r; by eauto].
  - intros [prev pipe] (a & b & -> & -> & ->). destruct b as [|y b].
    + rewrite app_nil_r in *. destruct (Hseg a l2 p Hc) as (q & Hq & Hp0 & Hrest).
      rewrite (proj2 (Z.eqb_neq _ _) Hp0), Hq. cbn [of_option]. rewrite bind_ret, (Hyes q Hq), Z.eqb_refl. right.
      destruct (last a) as [x|] eqn:El.
      * apply last_Some in El as [a' ->]. destruct (Hseg a' (p :: l2) x) as (qx & Hqx & Hx0 & _); [by rewrite <- app_assoc in Hc|]. rewrite Hqx. cbn [of_option].
        rewrite bind_ret. eexists. split; [done|]. cbn [fst snd freelist heap]. split; [done|]. exists f. split; [done|].
        rewrite <- app_assoc in Hnd, Hc. cbn [app] in *. rewrite <- app_assoc. cbn [app].
        clear -Hc Hqx Hrest Hnd Hx0. revert f Hc Hnd. induction a' as [|z a' IH]; intros g Hc Hnd; cbn [app] in *.
        -- destruct Hc as (-> & _ & q0 & Hq0 & Hc). assert (q0 = qx) as -> by congruence. split; [done|]. split; [done|]. eexists. split; [by rewrite lookup_insert_eq|].
           cbn [link set_link]. apply chain_other; [|done]. apply NoDup_cons in Hnd as [Hn _]. intros Hin. apply Hn. by right.
        -- apply NoDup_cons in Hnd as [Hz Hnd]. destruct Hc as (-> & Hz0 & qz & Hqz & Hc). split; [done|]. split; [done|]. exists qz.
           assert (x <> z) by (intros <-; apply Hz; apply elem_of_app; right; by left). rewrite lookup_insert_ne by done. split; [done|]. by apply IH.
      * apply last_None in El as ->. eexists. split; [done|]. cbn [fst snd freelist heap app] in *. split; [done|]. eexists. split; [by rewrite lookup_insert_eq|]. done.
    + rewrite <- app_assoc in *. cbn [app] in *. destruct (Hseg a (b ++ p :: l2) y Hc) as (q & Hq & Hy0 & Hrest).
      rewrite (proj2 (Z.eqb_neq _ _) Hy0), Hq. cbn [of_option]. rewrite bind_ret. rewrite (proj2 (Z.eqb_neq _ _)).
      2: { apply (Hno y); [apply elem_of_app; right; by left|done]. }
      left. eexists. split; [done|]. split.
      * exists (a ++ [y]), b. rewrite <- app_assoc, last_snoc. split_and!; try done. destruct b; by destruct Hrest as [-> _].
      * assert (list_find (fun z => z = y) (a ++ y :: b) = Some (length a, y)) as ->.
        { apply list_find_Some. split_and!; [by rewrite list_lookup_middle|done|]. intros j z Hj Hlt ->.
          rewrite lookup_app_l in Hj by done. apply NoDup_app in Hnd as (_ & Hn & _). apply (Hn y); [by eapply list_elem_of_lookup_2|by left]. }
        rewrite length_app. cbn [length]. destruct (last a) as [x|] eqn:El; [|apply last_None in El as ->; cbn [length app]; lia].
        apply last_Some in El as [a' ->]. assert (list_find (fun z => z = x) ((a' ++ [x]) ++ y :: b) = Some (length a', x)) as ->; [|rewrite length_app; cbn [length]; lia].
        rewrite <- app_assoc in *. cbn [app] in *. apply list_find_Some. split_and!; [by rewrite list_lookup_middle|done|]. intros j z Hj Hlt ->.
        rewrite lookup_app_l in Hj by done. apply NoDup_app in Hnd as (_ & Hn & _). apply (Hn x); [by eapply list_elem_of_lookup_2|by left].
  - exists [], l1. split_and!; try done. destruct l1; by destruct Hc as [-> _].
  - lia.
Qed.

(** ** usb_irq.c *)

Definition USB_IRQ_MAX : Z := 16.
(** [handler, arg] per line, [None] where [used] is 0. *)
Abbreviation irq_table := (list (option (Z * Z))).

Inductive irq_action := Call (fn arg : Z) | LapicEoi | OutB (port v : Z).

Definition usb_irq_register (irq fn arg : Z) (g : irq_table) : Z * irq_table :=
  if (USB_IRQ_MAX <=? irq) || (fn =? 0) then (-1, g) else (0, <[Z.to_nat irq := Some (fn, arg)]> g).

Definition kernel_irq_dispatch (vector : Z) (g : irq_table) : list irq_action :=
  let irq := u8 (vector - 0x20) in
  (if irq <? USB_IRQ_MAX then match g !! Z.to_nat irq with Some (Some (fn, arg)) => [Call fn arg] | _ => [] end else []) ++
  [LapicEoi] ++ (if 8 <=? irq then [OutB 0xA0 0x20] else []) ++ [OutB 0x20 0x20].

(** A registered handler, and no other, runs on its vector, before the
    interrupt is acknowledged. *)
Lemma irq_runs_handler irq fn arg g v :
  length g = 16%nat -> 0 <= irq < 16 -> fn <> 0 -> 0 <= v < 256 ->
  let g' := (usb_irq_register irq fn arg g).2 in
  (v = 0x20 + irq -> head (kernel_irq_dispatch v g') = Some (Call fn arg)) /\
  (v <> 0x20 + irq -> kernel_irq_dispatch v g' = kernel_irq_dispatch v g).
Proof.
  intros Hl Hi Hf Hv g'. assert (g' = <[Z.to_nat irq := Some (fn, arg)]> g) as ->.
  { subst g'. unfold usb_irq_register, USB_IRQ_MAX. by rewrite (proj2 (Z.leb_gt 16 irq)), (proj2 (Z.eqb_neq fn 0)) by lia. }
  unfold kernel_irq_dispatch, USB_IRQ_MAX. split.
  - intros ->. assert (u8 (0x20 + irq - 0x20) = irq) as -> by (rewrite u8_small; lia). rewrite (proj2 (Z.ltb_lt irq 16)) by lia. by rewrite list_lookup_insert_eq by lia.
  - intros Hne. destruct (Z.ltb_spec (u8 (v - 0x20)) 16); [|done]. rewrite list_lookup_insert_ne; [done|]. ilia.
Qed.
