(* ===== verification/UsbHid.v ===== *)
(** * iokit/IOUSBFamily/hid/usbhid.c

    USB keyboards and mice: reports are polled from the interrupt pipes,
    keystrokes go to the text console, to the kernel's keyboard queue and to the
    ring of the device file, movements are summed until they are sampled.
    Shown: which characters reports type and where they arrive, that movements
    are neither lost nor counted twice, that the device file gives back what was
    typed; and what happens to shifted digits, to a full ring and to devices
    with long reports. *)

From S2P Require Import Prelude Hid Platform Usb.
Import Platform.Vga.

(** ** State *)

(** [inbox]: the reports the controller has for the pipe, in order. *)
Record pipe_node := mkNode
  { is_mouse : bool; prev_report : list Z; last_report : list Z; report_size : Z; dx_acc : Z; dy_acc : Z; buttons : Z; inbox : list (list Z) }.
Definition new_node (m : bool) (size : Z) (rs : list (list Z)) : pipe_node := mkNode m (replicate 8 0) (replicate 16 0) size 0 0 0 rs.

(** The lists are in the order of the links: the newest first. *)
Record hid := mkHid
  { keyboards : list pipe_node; mice : list pipe_node; g_kbd_ring : list Z; g_kbd_rp : Z; g_kbd_wp : Z;
    g_usb_kbd_present : Z; g_usb_mouse_present : Z; console : vga; keys : kbd }.
Definition set_keyboards (l : list pipe_node) (s : hid) : hid :=
  mkHid l (mice s) (g_kbd_ring s) (g_kbd_rp s) (g_kbd_wp s) (g_usb_kbd_present s) (g_usb_mouse_present s) (console s) (keys s).
Definition set_mice (l : list pipe_node) (s : hid) : hid :=
  mkHid (keyboards s) l (g_kbd_ring s) (g_kbd_rp s) (g_kbd_wp s) (g_usb_kbd_present s) (g_usb_mouse_present s) (console s) (keys s).
Definition set_ring (r : list Z) (rp wp : Z) (s : hid) : hid :=
  mkHid (keyboards s) (mice s) r rp wp (g_usb_kbd_present s) (g_usb_mouse_present s) (console s) (keys s).
Definition set_out (v : vga) (k : kbd) (s : hid) : hid :=
  mkHid (keyboards s) (mice s) (g_kbd_ring s) (g_kbd_rp s) (g_kbd_wp s) (g_usb_kbd_present s) (g_usb_mouse_present s) v k.

(** ** The ring of the device file *)

Definition usbhid_kbd_push_char (c : Z) (s : hid) : run hid :=
  if c =? 0 then Ret s
  else
    let i := Z.to_nat (Z.land (g_kbd_wp s) 255) in
    if (i <? length (g_kbd_ring s))%nat then Ret (set_ring (<[i := c]> (g_kbd_ring s)) (g_kbd_rp s) (u32 (g_kbd_wp s + 1)) s) else Fault.

(** [len] as the number of characters to go. *)
Fixpoint kbd_drain (len : nat) (s : hid) : run (list Z * hid) :=
  match len with
  | O => Ret ([], s)
  | S len =>
      if g_kbd_rp s =? g_kbd_wp s then Ret ([], s)
      else
        c ← of_option (g_kbd_ring s !! Z.to_nat (Z.land (g_kbd_rp s) 255));
        '(l, s) ← kbd_drain len (set_ring (g_kbd_ring s) (u32 (g_kbd_rp s + 1)) (g_kbd_wp s) s);
        Ret (c :: l, s)
  end.

(** The bytes stored to the caller's buffer; their number is returned. *)
Definition usbhid_kbd_read (len : Z) (s : hid) : run (list Z * hid) := kbd_drain (Z.to_nat len) s.

(** [None]: a node without private data. *)
Definition usbhid_hid_read (pn : option pipe_node) (len : Z) : run (Z * list Z) :=
  let sz := match pn with Some n => if report_size n =? 0 then 8 else report_size n | None => 8 end in
  let len := if sz <? len then sz else len in
  match pn with
  | None => Ret (len, [])
  | Some n => if len <=? Z.of_nat (length (last_report n)) then Ret (len, take (Z.to_nat len) (last_report n)) else Fault
  end.

(** ** Reports *)

Definition HID_KBD_REPORT_SIZE : nat := 8.

Definition g_hid_key_to_char : list Z :=
  [0; 0; 0; 0] ++ str "abcdefghijklmnopqrstuvwxyz1234567890" ++ [10; 0; 8; 9] ++ str " -=[]\#;'`,./" ++ replicate 199 0.

(** [report[2..7]] *)
Definition key_slots (report : list Z) : list Z := take 6 (drop 2 report).
Definition key_in_report (report : list Z) (key : Z) : bool := existsb (fun k => k =? key) (key_slots report).

Section Poll.
Context (lsr : Z -> Z).
(** What the report's buffer on the stack holds before; a packet shorter than
    the buffer leaves it there. *)
Context (stale : list Z).

(** Screen, queue and ring. *)
Definition emit (c : Z) (s : hid) : run hid :=
  v ← (if c =? 8 then vga_backspace (console s) else vga_putchar lsr (s8 c) (console s));
  k ← kbd_push c (keys s);
  usbhid_kbd_push_char c (set_out v k s).

Fixpoint type_keys (ks : list Z) (modifiers : Z) (prev : list Z) (s : hid) : run hid :=
  match ks with
  | [] => Ret s
  | key :: ks =>
      if key =? 0 then type_keys ks modifiers prev s
      else if key_in_report prev key then type_keys ks modifiers prev s
      else
        c ← of_option (g_hid_key_to_char !! Z.to_nat key);
        if c =? 0 then type_keys ks modifiers prev s
        else
          let c := if negb (Z.land modifiers 0x22 =? 0) then u8 (c - 32) else c in
          s ← emit c s;
          type_keys ks modifiers prev s
  end.

Definition parse_keyboard_report (node : pipe_node) (report : list Z) (s : hid) : run (pipe_node * hid) :=
  m ← of_option (report !! 0%nat);
  s ← type_keys (key_slots report) m (prev_report node) s;
  Ret (mkNode (is_mouse node) (take HID_KBD_REPORT_SIZE report) (last_report node) (report_size node) (dx_acc node) (dy_acc node) (buttons node) (inbox node), s).

Definition parse_mouse_report (node : pipe_node) (report : list Z) : run pipe_node :=
  b ← of_option (report !! 0%nat); dx ← of_option (report !! 1%nat); dy ← of_option (report !! 2%nat);
  ax ← int32 (dx_acc node + s8 dx);
  ay ← int32 (dy_acc node + s8 dy);
  Ret (mkNode (is_mouse node) (prev_report node) (take 16 report) (report_size node) ax ay (Z.land b 0x07) (inbox node)).

(** [u8 data[16]]: the controller copies a whole packet into it. *)
Definition receive (packet : list Z) : run (list Z) :=
  if (16 <? length packet)%nat then Fault else Ret (packet ++ drop (length packet) stale).

(** The loop over the reports of one pipe. *)
Fixpoint poll_node (packets : list (list Z)) (node : pipe_node) (s : hid) : run (pipe_node * hid) :=
  match packets with
  | [] => Ret (mkNode (is_mouse node) (prev_report node) (last_report node) (report_size node) (dx_acc node) (dy_acc node) (buttons node) [], s)
  | p :: packets =>
      data ← receive p;
      if is_mouse node then n ← parse_mouse_report node data; poll_node packets n s
      else '(n, s) ← parse_keyboard_report node data s; poll_node packets n s
  end.

Fixpoint poll_nodes (nodes : list pipe_node) (s : hid) : run (list pipe_node * hid) :=
  match nodes with
  | [] => Ret ([], s)
  | n :: nodes => '(n, s) ← poll_node (inbox n) n s; '(l, s) ← poll_nodes nodes s; Ret (n :: l, s)
  end.

Definition usb_check_event (s : hid) : run hid :=
  '(l, s) ← poll_nodes (keyboards s) s;
  let s := set_keyboards l s in
  '(l, s) ← poll_nodes (mice s) s;
  Ret (set_mice l s).

(** [usb_getchar] without the fall-back to the PS/2 controller, which
    [atkbd_poll] is: what is returned, and the state. *)
Definition usb_getchar (status data : Z) (s : hid) : run (Z * hid) :=
  s ← usb_check_event s;
  '(c, k) ← atkbd_getchar (keys s);
  let s := set_out (console s) k s in
  if 0 <=? c then Ret (0, s) else Ret (serial_getchar status data, s).
End Poll.

Fixpoint sum_nodes (nodes : list pipe_node) (adx ady btn : Z) : run (Z * Z * Z * list pipe_node) :=
  match nodes with
  | [] => Ret (adx, ady, btn, [])
  | n :: nodes =>
      x ← int32 (adx + dx_acc n);
      y ← int32 (ady + dy_acc n);
      '(x, y, b, l) ← sum_nodes nodes x y (Z.lor btn (buttons n));
      Ret (x, y, b, mkNode (is_mouse n) (prev_report n) (last_report n) (report_size n) 0 0 (buttons n) (inbox n) :: l)
  end.

(** The caller's [dx] and [dy] are added to; [None]: no mouse. *)
Definition usb_mouse_sample (dx dy : Z) (s : hid) : run (option (Z * Z * Z) * hid) :=
  if g_usb_mouse_present s =? 0 then Ret (None, s)
  else
    '(adx, ady, btn, l) ← sum_nodes (mice s) 0 0 0;
    dx ← int32 (dx + adx);
    dy ← int32 (dy + ady);
    Ret (Some (dx, dy, btn), set_mice l s).

(** ** Set-up *)

(** Whether the device took the protocol, a pipe and memory could be had. *)
Record luck := mkLuck { protocol_set : bool; pipe_got : bool; memory_got : bool }.

Definition hid_boot_init (is_mouse : bool) (l : luck) (s : hid) : bool * hid :=
  if negb (protocol_set l) then (false, s)
  else if negb (pipe_got l) then (false, s)
  else if negb (memory_got l) then (false, s)
  else
    let node := new_node is_mouse 0 [] in
    if is_mouse then
      (true, mkHid (keyboards s) (node :: mice s) (g_kbd_ring s) (g_kbd_rp s) (g_kbd_wp s) (g_usb_kbd_present s) 1 (console s) (keys s))
    else (true, mkHid (node :: keyboards s) (mice s) (g_kbd_ring s) (g_kbd_rp s) (g_kbd_wp s) 1 (g_usb_mouse_present s) (console s) (keys s)).

(** The endpoint's packet size; [None]: no interrupt endpoint. *)
Definition int_in_size (buf : list Z) (iface imax : Z) : run (option Z) :=
  e ← usb_find_desc buf iface imax 3 0x80;
  match e with None => Ret None | Some e => m ← le16 buf (e + 4); Ret (Some m) end.

(** The nodes in the device tree that the set-up functions add are left out. *)
Definition usb_kbd_setup (buf : list Z) (iface imax : Z) (l : luck) (s : hid) : run (Z * hid) :=
  m ← int_in_size buf iface imax;
  match m with
  | None => Ret (-1, s)
  | Some m =>
      if (m <? 8) || (16 <? m) then Ret (-1, s)
      else let '(ok, s) := hid_boot_init false l s in Ret (if (ok : bool) then 0 else -1, s)
  end.

Definition usb_mouse_setup (buf : list Z) (iface imax : Z) (l : luck) (s : hid) : run (Z * hid) :=
  m ← int_in_size buf iface imax;
  match m with
  | None => Ret (-1, s)
  | Some m =>
      if (m <? 3) || (8 <? m) then Ret (-1, s)
      else let '(ok, s) := hid_boot_init true l s in Ret (if (ok : bool) then 0 else -1, s)
  end.

Definition usb_hid_generic_setup (buf : list Z) (iface imax : Z) (l : luck) (s : hid) : run (Z * hid) :=
  m ← int_in_size buf iface imax;
  match m with
  | None => Ret (-1, s)
  | Some m =>
      let sz := if (m <? 1) || (64 <? m) then 8 else m in
      if negb (pipe_got l) then Ret (-1, s)
      else if negb (memory_got l) then Ret (-1, s)
      else Ret (0, mkHid (keyboards s) (new_node true sz [] :: mice s) (g_kbd_ring s) (g_kbd_rp s) (g_kbd_wp s) (g_usb_kbd_present s) 1 (console s) (keys s))
  end.

(** ** What reports type *)

(** The characters of the keyboard page of the HID usage tables, US layout:
    letters, digits, enter, backspace, tab, space and the keys behind it; 0 for
    keys without one. *)
Definition letter (key : Z) : Prop := 4 <= key <= 29.
Definition char_of (key : Z) : Z :=
  if decide (letter key) then 97 + (key - 4)
  else if decide (30 <= key <= 38) then 49 + (key - 30)
  else if decide (39 <= key <= 56) then nth (Z.to_nat (key - 39)) [48; 10; 0; 8; 9; 32; 45; 61; 91; 93; 92; 35; 59; 39; 96; 44; 46; 47] 0
  else 0.

(** The left or the right shift key is down. *)
Definition shifted (m : Z) : Prop := Z.testbit m 1 = true \/ Z.testbit m 5 = true.
#[global] Instance shifted_dec m : Decision (shifted m).
Proof. unfold shifted. apply _. Defined.

(** Shift makes letters capital; of other characters it takes 32. *)
Definition key_char (m key : Z) : Z :=
  if decide (shifted m) then if decide (letter key) then 65 + (key - 4) else (char_of key - 32) mod 256 else char_of key.

(** A key of the report that was not down in the one before and has a
    character. *)
Definition pressed (prev : list Z) (key : Z) : Prop := key <> 0 /\ (key ∉ key_slots prev) /\ char_of key <> 0.
#[global] Instance pressed_dec prev key : Decision (pressed prev key).
Proof. unfold pressed. apply _. Defined.

Definition typed (prev report : list Z) : list Z := key_char (nth 0 report 0) <$> filter (pressed prev) (key_slots report).

(** A character on the terminal: backspace erases the last cell. *)
Definition type_on (attr : Z) (t : terminal) (c : Z) : terminal :=
  if decide (c = 8) then
    if decide (t.2 = 0) then t else (<[Z.to_nat (t.2 - 1) := cell attr 0x20]> t.1, t.2 - 1)
  else term_put attr t (s8 c).

(** A character in the queue of 255. *)
Definition queue_on (q : list Z) (c : Z) : list Z := if (length q <? 255)%nat then q ++ [u8 c] else q.

(** The characters of the ring between the read and the write position. *)
Definition unread (s : hid) : Z := (g_kbd_wp s - g_kbd_rp s) mod 2 ^ 32.
Definition pending (s : hid) : list Z := (fun i => nth (Z.to_nat ((g_kbd_rp s + i) mod 256)) (g_kbd_ring s) 0) <$> seqZ 0 (unread s).

Record hid_ok (s : hid) : Prop :=
  { hk_console : vga_ok (console s);
    hk_keys : ring_ok (keys s);
    hk_ring : length (g_kbd_ring s) = 256%nat;
    hk_rp : 0 <= g_kbd_rp s < 2 ^ 32;
    hk_wp : 0 <= g_kbd_wp s < 2 ^ 32 }.

(** The characters [cs] went out. *)
Record emitted (cs : list Z) (s s' : hid) : Prop :=
  { em_ok : hid_ok s';
    em_screen : shows (console s') = foldl (type_on (terminal_attribute (console s))) (shows (console s)) cs;
    em_attr : terminal_attribute (console s') = terminal_attribute (console s);
    em_keys : queued (keys s') = foldl queue_on (queued (keys s)) cs;
    em_ring : unread s + Z.of_nat (length cs) <= 256 -> pending s' = pending s ++ filter (fun c => c <> 0) cs /\ unread s' <= unread s + Z.of_nat (length cs);
    em_nodes : keyboards s' = keyboards s /\ mice s' = mice s /\ g_usb_kbd_present s' = g_usb_kbd_present s /\ g_usb_mouse_present s' = g_usb_mouse_present s }.

Lemma emitted_nil s : hid_ok s -> emitted [] s s.
Proof. intros Hok. constructor; try done. intros _. rewrite filter_nil, app_nil_r. cbn. split; [done|lia]. Qed.

Lemma emitted_app cs ds s1 s2 s3 : emitted cs s1 s2 -> emitted ds s2 s3 -> emitted (cs ++ ds) s1 s3.
Proof.
  intros [O1 S1 A1 K1 R1 N1] [O2 S2 A2 K2 R2 N2]. constructor; try done.
  - by rewrite S2, A1, S1, foldl_app.
  - congruence.
  - by rewrite K2, K1, foldl_app.
  - rewrite length_app. intros Hle. destruct R1 as [R1 U1]; [lia|]. destruct R2 as [R2 U2]; [lia|]. rewrite R2, R1, filter_app, <- app_assoc. split; [done|lia].
  - destruct N1 as (? & ? & ? & ?), N2 as (? & ? & ? & ?). split_and!; congruence.
Qed.

Lemma land255 x : 0 <= x -> Z.land x 255 = x mod 256.
Proof. intros. change 255 with (Z.ones 8). by rewrite Z.land_ones by lia. Qed.

(** One character in the ring. *)
Lemma ring_push c s : hid_ok s -> exists s', usbhid_kbd_push_char c s = Ret s' /\ length (g_kbd_ring s') = 256%nat /\ g_kbd_rp s' = g_kbd_rp s /\
    0 <= g_kbd_wp s' < 2 ^ 32 /\ console s' = console s /\ keys s' = keys s /\ keyboards s' = keyboards s /\ mice s' = mice s /\
    g_usb_kbd_present s' = g_usb_kbd_present s /\ g_usb_mouse_present s' = g_usb_mouse_present s /\
    (unread s < 256 -> pending s' = pending s ++ filter (fun c => c <> 0) [c] /\ unread s' <= unread s + 1).
Proof.
  intros [_ _ Hl Hr Hw]. unfold usbhid_kbd_push_char. destruct (Z.eqb_spec c 0) as [->|Hc].
  { exists s. split_and!; try done; try lia. intros _. rewrite filter_cons_False by tauto. rewrite filter_nil, app_nil_r. split; [done|lia]. }
  rewrite land255 by lia. pose proof (Z.mod_pos_bound (g_kbd_wp s) 256 ltac:(lia)). rewrite (proj2 (Nat.ltb_lt _ _)) by lia. eexists. split; [done|].
  cbn [set_ring g_kbd_ring g_kbd_rp g_kbd_wp console keys keyboards mice g_usb_kbd_present g_usb_mouse_present]. pose proof (u32_range (g_kbd_wp s + 1)).
  split_and!; try done; try lia; [by rewrite length_insert|]. intros Hu. rewrite filter_cons_True, filter_nil by done.
  unfold pending, unread in *. cbn [set_ring g_kbd_ring g_kbd_rp g_kbd_wp].
  assert ((u32 (g_kbd_wp s + 1) - g_kbd_rp s) mod 2 ^ 32 = (g_kbd_wp s - g_kbd_rp s) mod 2 ^ 32 + 1) as -> by ilia. split; [|lia].
  set (n := (g_kbd_wp s - g_kbd_rp s) mod 2 ^ 32) in *. assert (0 <= n) by (subst n; apply Z.mod_pos_bound; lia).
  assert (g_kbd_wp s mod 256 = (g_kbd_rp s + n) mod 256) as Ew by (subst n; ilia).
  rewrite seqZ_app, fmap_app by lia. f_equal.
  - apply list_fmap_ext. intros i x Hx%lookup_seqZ. destruct Hx as [-> Hx]. rewrite !(nth_lookup _ _ 0). rewrite list_lookup_insert_ne; [done|].
    rewrite Ew. Z.div_mod_to_equations. lia.
  - rewrite seqZ_cons, seqZ_nil, Z.add_0_l by lia. cbn [fmap list_fmap]. rewrite Ew. f_equal. apply nth_lookup_Some. apply list_lookup_insert_eq. pose proof (Z.mod_pos_bound (g_kbd_rp s + n) 256). lia.
Qed.

Section Typing.
Context (lsr : Z -> Z) (stale : list Z).
Hypothesis ready : forall n, exists k, 0 <= k < 2 ^ 60 /\ Z.land (lsr (n + k)) 0x20 <> 0.

Lemma emit_spec c s : hid_ok s -> 0 <= c < 256 -> exists s', emit lsr c s = Ret s' /\ emitted [c] s s'.
Proof.
  intros Hok Hc. pose proof Hok as [Hv Hk Hl Hr Hw]. unfold emit.
  assert (exists v, (if c =? 8 then vga_backspace (console s) else vga_putchar lsr (s8 c) (console s)) = Ret v /\ vga_ok v /\
    shows v = type_on (terminal_attribute (console s)) (shows (console s)) c /\ terminal_attribute v = terminal_attribute (console s)) as (v & -> & Hv' & Hs & Ha).
  { unfold type_on. destruct (Z.eqb_spec c 8) as [->|Hne].
    - destruct (backspace_spec (console s) Hv) as (v & Hb & Hok' & Ha & Hs). exists v. rewrite decide_True by done. by split_and!.
    - rewrite decide_False by done. destruct (putchar_spec lsr ready (s8 c) (console s) Hv) as (v & -> & ? & ? & _ & _ & ?). eauto. }
  rewrite bind_ret. destruct (push_queued c (keys s) Hk) as (k & -> & Hk' & Hq). rewrite bind_ret.
  destruct (ring_push c (set_out v k s)) as (s' & -> & Hl' & Erp & Hw' & Ec & Ek & N1 & N2 & N3 & N4 & Hp); [by constructor|].
  exists s'. split; [done|]. constructor; cbn [foldl length].
  - constructor; rewrite ?Ec, ?Ek, ?Erp; done.
  - by rewrite Ec.
  - by rewrite Ec.
  - by rewrite Ek.
  - intros Hle. apply Hp. change (unread (set_out v k s)) with (unread s). lia.
  - done.
Qed.

Lemma table_bytes : Forall byte_ok g_hid_key_to_char.
Proof. by apply (bool_decide_unpack _). Qed.

(** The table of the driver is the one of the specification. *)
Lemma table_chars key : byte_ok key -> g_hid_key_to_char !! Z.to_nat key = Some (char_of key).
Proof.
  intros Hk. assert (forallb (fun k => bool_decide (g_hid_key_to_char !! Z.to_nat k = Some (char_of k))) (seqZ 0 256) = true) as H by (vm_compute; reflexivity).
  rewrite forallb_forall in H. apply (bool_decide_unpack _). rewrite (H key); [done|]. apply list_elem_of_In, elem_of_seqZ. unfold byte_ok in Hk. lia.
Qed.

Lemma char_of_byte key : byte_ok key -> byte_ok (char_of key).
Proof. intros Hk%table_chars. pose proof table_bytes as Hb. rewrite Forall_lookup in Hb. eauto. Qed.

Lemma shifted_mask m : negb (Z.land m 0x22 =? 0) = bool_decide (shifted m).
Proof.
  unfold shifted. destruct (Z.eqb_spec (Z.land m 0x22) 0) as [E|E]; cbn [negb]; symmetry; [apply bool_decide_false|apply bool_decide_true].
  - assert (forall i, Z.testbit m i && Z.testbit 0x22 i = false) as H by (intros i; by rewrite <- Z.land_spec, E, Z.bits_0). pose proof (H 1) as H1. pose proof (H 5) as H5. change (Z.testbit 34 1) with true in H1. change (Z.testbit 34 5) with true in H5. rewrite andb_true_r in H1, H5. intros [?|?]; congruence.
  - destruct (Z.testbit m 1) eqn:E1; [by left|]. destruct (Z.testbit m 5) eqn:E5; [by right|]. exfalso. apply E. apply Z.bits_inj_0. intros i. rewrite Z.land_spec.
    destruct (Z.testbit 0x22 i) eqn:Ei; [|apply andb_false_r]. rewrite andb_true_r. destruct (decide (i = 1)) as [->|]; [done|]. destruct (decide (i = 5)) as [->|]; [done|]. exfalso.
    destruct (Z.neg_nonneg_cases i); [by rewrite Z.testbit_neg_r in Ei|]. destruct (decide (i < 6)); [|rewrite Z.bits_above_log2 in Ei; [done|lia|cbn; lia]].
    assert (i = 0 \/ i = 2 \/ i = 3 \/ i = 4) as [->|[->|[->| ->]]] by lia; done.
Qed.

Lemma key_char_code m key : byte_ok key -> (if negb (Z.land m 0x22 =? 0) then u8 (char_of key - 32) else char_of key) = key_char m key.
Proof.
  intros Hk. rewrite shifted_mask. unfold key_char. rewrite bool_decide_decide. destruct (decide (shifted m)); [|done]. destruct (decide (letter key)) as [Hl|]; [|done].
  unfold char_of. rewrite decide_True by done. unfold letter in Hl. rewrite u8_small by lia. lia.
Qed.

Lemma key_char_byte m key : byte_ok key -> byte_ok (key_char m key).
Proof. intros Hk. rewrite <- key_char_code by done. pose proof (char_of_byte key Hk). destruct (negb _); [unfold byte_ok; apply u8_range|done]. Qed.

Lemma type_keys_spec ks m prev s :
  hid_ok s -> Forall byte_ok ks -> exists s', type_keys lsr ks m prev s = Ret s' /\ emitted (key_char m <$> filter (pressed prev) ks) s s'.
Proof.
  intros Hok Hks. revert s Hok. induction ks as [|key ks IH]; intros s Hok; cbn [type_keys].
  { exists s. split; [done|]. by apply emitted_nil. }
  apply Forall_cons in Hks as [Hb Hks]. specialize (IH Hks). rewrite filter_cons.
  destruct (Z.eqb_spec key 0) as [->|H0]; [rewrite decide_False by (unfold pressed; tauto); by apply IH|].
  destruct (key_in_report prev key) eqn:Ei.
  { rewrite decide_False; [by apply IH|]. intros (_ & Hn & _). apply existsb_exists in Ei as (k & Hk%list_elem_of_In & E%Z.eqb_eq). by subst k. }
  assert (key ∉ key_slots prev) as Hni.
  { intros Hin. assert (key_in_report prev key = true) as H; [|congruence]. apply existsb_exists. exists key. split; [by apply list_elem_of_In|apply Z.eqb_refl]. }
  rewrite table_chars by done. cbn [of_option]. rewrite bind_ret. destruct (Z.eqb_spec (char_of key) 0) as [Ec|Hc0].
  { rewrite decide_False by (unfold pressed; tauto). by apply IH. }
  rewrite decide_True by (unfold pressed; split_and!; congruence).
  rewrite key_char_code by done.
  destruct (emit_spec (key_char m key) s Hok (key_char_byte m key Hb)) as (s1 & -> & E1). rewrite bind_ret. destruct (IH s1 (em_ok _ _ _ E1)) as (s2 & -> & E2).
  exists s2. split; [done|]. rewrite fmap_cons. by apply (emitted_app [_] _ s s1 s2).
Qed.

(** ** Polling *)

(** A packet as it stands in the report's buffer. *)
Definition filled (p : list Z) : list Z := p ++ drop (length p) stale.

(** What set-up makes sure of: a report has its [k] bytes and fits. *)
Definition packet_ok (k : nat) (p : list Z) : Prop := (k <= length p <= 16)%nat /\ Forall byte_ok p.

(** The characters of a sequence of reports. *)
Fixpoint typed_all (prev : list Z) (packets : list (list Z)) : list Z :=
  match packets with
  | [] => []
  | p :: packets => typed prev p ++ typed_all (take 8 p) packets
  end.

(** The movement of a sequence of reports, and the buttons of the last. *)
Definition motion (i : nat) (packets : list (list Z)) : Z := foldr (fun p a => s8 (nth i p 0) + a) 0 packets.
Definition last_buttons (b : Z) (packets : list (list Z)) : Z := foldl (fun _ p => Z.land (nth 0 p 0) 0x07) b packets.

Definition kbd_node_ok (n : pipe_node) : Prop := is_mouse n = false /\ Forall (packet_ok 8) (inbox n).
Definition mouse_node_ok (n : pipe_node) : Prop :=
  is_mouse n = true /\ Forall (packet_ok 3) (inbox n) /\
  Z.abs (dx_acc n) + 128 * Z.of_nat (length (inbox n)) < 2 ^ 31 /\ Z.abs (dy_acc n) + 128 * Z.of_nat (length (inbox n)) < 2 ^ 31.

Hypothesis stale_size : length stale = 16%nat.
Hypothesis stale_bytes : Forall byte_ok stale.

Lemma filled_ok k p : packet_ok k p -> receive stale p = Ret (filled p) /\ length (filled p) = 16%nat /\ Forall byte_ok (filled p) /\
    (forall i, (i < k)%nat -> nth i (filled p) 0 = nth i p 0) /\ take k (filled p) = take k p.
Proof.
  intros [Hl Hb]. unfold receive, filled. rewrite (proj2 (Nat.ltb_ge _ _)) by lia. split; [done|]. split; [rewrite length_app, length_drop; lia|].
  split; [apply Forall_app; split; [done|]; by apply Forall_drop|]. split; [intros i Hi; apply app_nth1; lia|apply take_app_le; lia].
Qed.

Lemma byte_nth (l : list Z) i : (i < length l)%nat -> l !! i = Some (nth i l 0).
Proof. intros Hi. destruct (lookup_lt_is_Some_2 l i Hi) as [x Hx]. rewrite Hx. f_equal. symmetry. by apply nth_lookup_Some. Qed.

Lemma slots_take (p : list Z) : key_slots p = key_slots (take 8 p).
Proof. unfold key_slots. by rewrite skipn_firstn_comm, take_take. Qed.

Lemma poll_kbd_spec packets n s :
  hid_ok s -> is_mouse n = false -> Forall (packet_ok 8) packets ->
  exists n' s', poll_node lsr stale packets n s = Ret (n', s') /\ emitted (typed_all (prev_report n) packets) s s' /\ inbox n' = [] /\ is_mouse n' = false.
Proof.
  revert n s. induction packets as [|p packets IH]; intros n s Hok Hm Hp; cbn [poll_node typed_all].
  { eexists _, s. split; [done|]. split; [by apply emitted_nil|done]. }
  apply Forall_cons in Hp as [Hp Hps]. destruct (filled_ok 8 p Hp) as (-> & Hl & Hb & Hn & Ht). rewrite bind_ret, Hm. unfold parse_keyboard_report.
  rewrite byte_nth by lia. cbn [of_option]. rewrite bind_ret, Hn, (slots_take (filled p)), Ht, <- slots_take by lia. unfold HID_KBD_REPORT_SIZE. rewrite Ht.
  destruct (type_keys_spec (key_slots p) (nth 0 p 0) (prev_report n) s Hok) as (s1 & -> & E1).
  { unfold key_slots. apply Forall_take, Forall_drop, Hp. }
  rewrite !bind_ret. set (n1 := mkNode _ _ _ _ _ _ _ _). destruct (IH n1 s1 (em_ok _ _ _ E1) Hm Hps) as (n' & s' & -> & E' & H').
  exists n', s'. split; [done|]. split; [|done]. by eapply emitted_app.
Qed.

Lemma poll_kbds_spec nodes s :
  hid_ok s -> Forall kbd_node_ok nodes ->
  exists l s', poll_nodes lsr stale nodes s = Ret (l, s') /\ emitted (nodes ≫= (fun n => typed_all (prev_report n) (inbox n))) s s' /\
    Forall (fun n => inbox n = [] /\ is_mouse n = false) l.
Proof.
  intros Hok Hn. revert s Hok. induction Hn as [|n nodes [Hm Hp] _ IH]; intros s Hok; cbn [poll_nodes].
  { exists [], s. split; [done|]. split; [by apply emitted_nil|done]. }
  destruct (poll_kbd_spec (inbox n) n s Hok Hm Hp) as (n' & s1 & -> & E1 & Hn'). rewrite bind_ret.
  destruct (IH s1 (em_ok _ _ _ E1)) as (l & s' & -> & E' & Hl). rewrite bind_ret. exists (n' :: l), s'. split; [done|]. split; [by eapply emitted_app|by constructor].
Qed.

Lemma s8_bound x : -128 <= s8 x < 128.
Proof. unfold s8. pose proof (Z.mod_pos_bound (x + 2 ^ 7) (2 ^ 8) ltac:(lia)). lia. Qed.

Lemma poll_mouse_spec packets n s :
  is_mouse n = true -> Forall (packet_ok 3) packets ->
  Z.abs (dx_acc n) + 128 * Z.of_nat (length packets) < 2 ^ 31 -> Z.abs (dy_acc n) + 128 * Z.of_nat (length packets) < 2 ^ 31 ->
  exists n', poll_node lsr stale packets n s = Ret (n', s) /\ is_mouse n' = true /\ inbox n' = [] /\
    dx_acc n' = dx_acc n + motion 1 packets /\ dy_acc n' = dy_acc n + motion 2 packets /\ buttons n' = last_buttons (buttons n) packets.
Proof.
  revert n. induction packets as [|p packets IH]; intros n Hm Hp Hx Hy; cbn [poll_node].
  { eexists. split; [done|]. cbn. rewrite !Z.add_0_r. done. }
  apply Forall_cons in Hp as [Hp Hps]. destruct (filled_ok 3 p Hp) as (-> & Hl & Hb & Hn & Ht). rewrite bind_ret, Hm. unfold parse_mouse_report.
  rewrite !byte_nth by lia. cbn [of_option]. rewrite !bind_ret, !Hn by lia. cbn [length] in Hx, Hy.
  pose proof (s8_bound (nth 1 p 0)). pose proof (s8_bound (nth 2 p 0)). rewrite !int32_ok, !bind_ret by lia.
  set (n1 := mkNode _ _ _ _ _ _ _ _). destruct (IH n1 Hm Hps) as (n' & -> & ? & ? & Ex & Ey & Eb); [cbn [dx_acc n1]; lia|cbn [dy_acc n1]; lia|].
  exists n'. split_and!; try done; [rewrite Ex; cbn [n1 dx_acc motion foldr]; unfold motion; cbn [foldr]; lia|rewrite Ey; cbn [n1 dy_acc]; unfold motion; cbn [foldr]; lia].
Qed.

(** A mouse after its reports were polled. *)
Definition moved (n n' : pipe_node) : Prop :=
  dx_acc n' = dx_acc n + motion 1 (inbox n) /\ dy_acc n' = dy_acc n + motion 2 (inbox n) /\ buttons n' = last_buttons (buttons n) (inbox n) /\ inbox n' = [] /\ is_mouse n' = true.

Lemma poll_mice_spec nodes s :
  Forall mouse_node_ok nodes -> exists l, poll_nodes lsr stale nodes s = Ret (l, s) /\ Forall2 moved nodes l.
Proof.
  induction 1 as [|n nodes (Hm & Hp & Hx & Hy) _ (l & IH & Hl)]; cbn [poll_nodes]; [by exists []|].
  destruct (poll_mouse_spec (inbox n) n s Hm Hp Hx Hy) as (n' & -> & ? & ? & ? & ? & ?). rewrite bind_ret, IH, bind_ret. exists (n' :: l). split; [done|].
  constructor; [|done]. by split_and!.
Qed.
End Typing.

(** C24: Polling USB input.  Whatever reports keyboards (packets of 8 to 16
    bytes) and mice (3 to 16) have sent, all are taken; exactly the keys that
    were not down in the report before and that have a character on a US
    keyboard type it, in order: on the screen, into the kernel's keyboard
    queue, which drops characters while 255 wait in it, and into the ring of
    the device file while no more than 256 are unread there.  With a shift key
    down a letter is a capital, and any other character is the one 32 below it,
    modulo 256: shift and 1 type 0x11, shift and space a NUL, which the ring
    leaves out.  Each mouse's movement is the sum of its reports', its buttons
    are those of the last.  The serial line, to which the screen is echoed, is
    ready again and again, and the mouse's sums stay within 32 bits. *)
Theorem usb_events_delivered lsr stale s :
  (forall n, exists k, 0 <= k < 2 ^ 60 /\ Z.land (lsr (n + k)) 0x20 <> 0) -> length stale = 16%nat -> Forall byte_ok stale ->
  hid_ok s -> Forall kbd_node_ok (keyboards s) -> Forall mouse_node_ok (mice s) ->
  let cs := keyboards s ≫= (fun n => typed_all (prev_report n) (inbox n)) in
  exists s', usb_check_event lsr stale s = Ret s' /\ hid_ok s' /\
    shows (console s') = foldl (type_on (terminal_attribute (console s))) (shows (console s)) cs /\
    queued (keys s') = foldl queue_on (queued (keys s)) cs /\
    (unread s + Z.of_nat (length cs) <= 256 -> pending s' = pending s ++ filter (fun c => c <> 0) cs) /\
    Forall2 moved (mice s) (mice s') /\ Forall (fun n => inbox n = []) (keyboards s').
Proof.
  intros Hready Hs1 Hs2 Hok Hk Hm cs. unfold usb_check_event.
  destruct (poll_kbds_spec lsr stale Hready Hs1 Hs2 (keyboards s) s Hok Hk) as (l & s1 & -> & [O1 S1 A1 K1 R1 (N1 & N2 & _)] & Hl). rewrite bind_ret.
  cbn [set_keyboards mice]. rewrite N2. destruct (poll_mice_spec lsr stale Hs1 Hs2 (mice s) (set_keyboards l s1) Hm) as (l2 & -> & Hl2). rewrite bind_ret.
  eexists. split; [done|]. cbn [set_mice set_keyboards console keys mice keyboards]. split; [by destruct O1|]. split_and!; try done.
  - intros Hu. by destruct (R1 Hu).
  - eapply Forall_impl; [exact Hl|]. by intros n [? _].
Qed.

Definition demo_hid : hid :=
  mkHid [mkNode false (replicate 8 0) (replicate 16 0) 0 0 0 0 [[0; 0; 4; 0; 0; 0; 0; 0]; [2; 0; 4; 5; 0; 0; 0; 0]]]
    [mkNode true (replicate 8 0) (replicate 16 0) 0 5 0 0 [[1; 3; 255]]] (replicate 256 0) 0 0 1 1 cleared
    (mkKbd (replicate 128 0) (replicate 128 0) (replicate 128 0) 0 (replicate 256 0) 0 0).

Lemma demo_hid_ok : hid_ok demo_hid.
Proof. constructor; cbn [demo_hid console keys g_kbd_ring g_kbd_rp g_kbd_wp]; [exact cleared_ok|constructor; cbn; done || lia|done|lia|lia]. Qed.

Lemma usb_events_delivered_witness :
  exists s', usb_check_event (fun _ => 0x60) (replicate 16 0) demo_hid = Ret s' /\ hid_ok s' /\
    shows (console s') = foldl (type_on (terminal_attribute (console demo_hid))) (shows (console demo_hid)) (str "aB") /\
    queued (keys s') = foldl queue_on (queued (keys demo_hid)) (str "aB") /\
    (unread demo_hid + Z.of_nat (length (str "aB")) <= 256 -> pending s' = pending demo_hid ++ filter (fun c => c <> 0) (str "aB")) /\
    Forall2 moved (mice demo_hid) (mice s') /\ Forall (fun n => inbox n = []) (keyboards s').
Proof.
  apply (usb_events_delivered (fun _ => 0x60) (replicate 16 0) demo_hid).
  - intros n. exists 0. done.
  - done.
  - by apply (bool_decide_unpack _).
  - exact demo_hid_ok.
  - constructor; [|done]. split; [done|]. repeat (constructor; [split; [cbn; lia|by apply (bool_decide_unpack _)]|]). constructor.
  - constructor; [|done]. split; [done|]. split; [|cbn; lia]. constructor; [|done]. split; [cbn; lia|by apply (bool_decide_unpack _)].
Defined.

(** ** Reading the device file *)

Lemma pending_cons s :
  hid_ok s -> g_kbd_rp s <> g_kbd_wp s ->
  pending s = nth (Z.to_nat (g_kbd_rp s mod 256)) (g_kbd_ring s) 0 :: pending (set_ring (g_kbd_ring s) (u32 (g_kbd_rp s + 1)) (g_kbd_wp s) s).
Proof.
  intros [_ _ Hl Hr Hw] Hne. unfold pending, unread. cbn [set_ring g_kbd_ring g_kbd_rp g_kbd_wp].
  set (n := (g_kbd_wp s - g_kbd_rp s) mod 2 ^ 32).
  assert (0 < n) by (subst n; assert ((g_kbd_wp s - g_kbd_rp s) mod 2 ^ 32 <> 0) by (Z.div_mod_to_equations; lia); pose proof (Z.mod_pos_bound (g_kbd_wp s - g_kbd_rp s) (2 ^ 32)); lia).
  assert ((g_kbd_wp s - u32 (g_kbd_rp s + 1)) mod 2 ^ 32 = n - 1) as -> by (subst n; ilia).
  rewrite seqZ_cons by done. rewrite fmap_cons, Z.add_0_r. f_equal. replace (Z.succ 0) with (1 + 0) by lia. replace (Z.pred n) with (n - 1) by lia. rewrite <- (fmap_add_seqZ 1 0), <- list_fmap_compose.
  apply list_fmap_ext. intros i x _. cbn. f_equal. f_equal. ilia.
Qed.

(** The device file gives back, in order and once, what was typed. *)
Theorem kbd_read_fifo len s :
  hid_ok s -> 0 <= len -> exists s', usbhid_kbd_read len s = Ret (take (Z.to_nat len) (pending s), s') /\ hid_ok s' /\ pending s' = drop (Z.to_nat len) (pending s).
Proof.
  intros Hok _. unfold usbhid_kbd_read. generalize (Z.to_nat len) as k. intros k. revert s Hok. induction k as [|k IH]; intros s Hok; cbn [kbd_drain]; [by exists s|].
  pose proof Hok as [Hv Hk Hl Hr Hw]. destruct (Z.eqb_spec (g_kbd_rp s) (g_kbd_wp s)) as [E|Hne].
  { exists s. assert (pending s = []) as ->; [|done]. unfold pending, unread. by rewrite E, Z.sub_diag. }
  rewrite land255 by lia. pose proof (Z.mod_pos_bound (g_kbd_rp s) 256 ltac:(lia)). rewrite byte_nth by lia. cbn [of_option]. rewrite bind_ret.
  destruct (IH (set_ring (g_kbd_ring s) (u32 (g_kbd_rp s + 1)) (g_kbd_wp s) s)) as (s' & -> & Hok' & Hp).
  { constructor; cbn; try done. apply u32_range. }
  rewrite bind_ret, (pending_cons s Hok Hne). exists s'. by split_and!.
Qed.

(** ** Sampling the mice *)

Definition total (f : pipe_node -> Z) (l : list pipe_node) : Z := foldr (fun n a => f n + a) 0 l.
Definition reach (f : pipe_node -> Z) (l : list pipe_node) : Z := foldr (fun n a => Z.abs (f n) + a) 0 l.

Lemma total_reach f l : Z.abs (total f l) <= reach f l /\ 0 <= reach f l.
Proof. unfold total, reach. induction l; cbn [foldr]; lia. Qed.

Definition settled (n : pipe_node) : pipe_node := mkNode (is_mouse n) (prev_report n) (last_report n) (report_size n) 0 0 (buttons n) (inbox n).

Lemma sum_nodes_spec l x y b :
  Z.abs x + reach dx_acc l < 2 ^ 31 -> Z.abs y + reach dy_acc l < 2 ^ 31 ->
  sum_nodes l x y b = Ret (x + total dx_acc l, y + total dy_acc l, foldl (fun b n => Z.lor b (buttons n)) b l, settled <$> l).
Proof.
  revert x y b. induction l as [|n l IH]; intros x y b Hx Hy; cbn [sum_nodes reach total foldr foldl] in *; [by rewrite !Z.add_0_r|].
  pose proof (total_reach dx_acc l) as [_ ?]. pose proof (total_reach dy_acc l) as [_ ?]. unfold reach in *.
  rewrite !int32_ok, !bind_ret by lia. rewrite IH, bind_ret by (unfold reach; lia). unfold total. by rewrite !Z.add_assoc.
Qed.

(** A sample hands over the movement of all mice and leaves none behind. *)
Theorem mouse_sample_sums dx dy s :
  g_usb_mouse_present s <> 0 -> Z.abs dx + reach dx_acc (mice s) < 2 ^ 31 -> Z.abs dy + reach dy_acc (mice s) < 2 ^ 31 ->
  usb_mouse_sample dx dy s =
    Ret (Some (dx + total dx_acc (mice s), dy + total dy_acc (mice s), foldl (fun b n => Z.lor b (buttons n)) 0 (mice s)), set_mice (settled <$> mice s) s).
Proof.
  intros Hp Hx Hy. unfold usb_mouse_sample. rewrite (proj2 (Z.eqb_neq _ _)) by done. rewrite sum_nodes_spec, bind_ret by lia.
  pose proof (total_reach dx_acc (mice s)). pose proof (total_reach dy_acc (mice s)). by rewrite !int32_ok, !bind_ret by lia.
Qed.

(** ** Set-up keeps what polling relies on *)

Lemma kbd_setup_bounds buf iface imax l s s' :
  usb_kbd_setup buf iface imax l s = Ret (0, s') ->
  exists m, int_in_size buf iface imax = Ret (Some m) /\ 8 <= m <= 16 /\ keyboards s' = new_node false 0 [] :: keyboards s /\ g_usb_kbd_present s' = 1.
Proof.
  unfold usb_kbd_setup. destruct (int_in_size buf iface imax) as [[m|]| |]; cbn; try done. destruct (Z.ltb_spec m 8); [done|]. destruct (Z.ltb_spec 16 m); [done|]. cbn [orb].
  unfold hid_boot_init. destruct (protocol_set l); [|done]. destruct (pipe_got l); [|done]. destruct (memory_got l); [|done]. cbn. intros [= <-]. exists m. by split_and!; try lia.
Qed.

(** ** What the code gets wrong *)

(** A generic device whose packets are longer than the buffer: the poll writes
    past its end. *)
Theorem long_report_overruns lsr stale p n s : (16 < length p)%nat -> inbox n = [p] -> poll_nodes lsr stale [n] s = Fault.
Proof. intros Hl Hi. cbn [poll_nodes]. rewrite Hi. cbn [poll_node]. unfold receive. by rewrite (proj2 (Nat.ltb_lt _ _)). Qed.

(** ... and it is such a device that set-up accepts. *)
Definition wide_endpoint : list Z := [9; 4; 0; 0; 1; 3; 0; 0; 0; 7; 5; 0x81; 3; 64; 0; 10].

Lemma generic_accepts_wide : int_in_size wide_endpoint 0 16 = Ret (Some 64) /\
  exists s', usb_hid_generic_setup wide_endpoint 0 16 (mkLuck true true true) demo_hid = Ret (0, s') /\ head (mice s') = Some (new_node true 64 []).
Proof. split; [by vm_compute|]. eexists. split; [by vm_compute|]. by vm_compute. Qed.

(** Its device file then reads past the report it keeps. *)
Lemma wide_read_overruns : usbhid_hid_read (Some (new_node true 64 [])) 64 = Fault.
Proof. by vm_compute. Qed.

(** Shift subtracts 32 from every key's character: [shift]-[1] is a control
    character, [shift]-space is nothing. *)
Lemma shift_breaks_digits : key_char 2 30 = 0x11 /\ key_char 2 44 = 0 /\ key_char 2 4 = 65.
Proof. by vm_compute. Qed.

(** The ring does not look at the read position: 256 characters that nobody has
    read make room for none, and the next one makes 257 of them. *)
Lemma ring_overflows :
  exists s, foldl (fun r c => s ← r; usbhid_kbd_push_char c s) (Ret demo_hid) (65 :: replicate 256 66) = Ret s /\
    unread s = 257 /\ pending s = replicate 257 66.
Proof. eexists. split; [vm_compute; reflexivity|]. by vm_compute. Qed.

(** A key that was typed is taken from the queue and 0 is returned for it. *)
Lemma getchar_drops_key :
  exists s, usb_getchar (fun _ => 0x60) (replicate 16 0) 0 0 demo_hid = Ret (0, s) /\ queued (keys s) = str "B".
Proof. eexists. split; [vm_compute; reflexivity|]. by vm_compute. Qed.
