(* ===== verification/UsbMsc.v ===== *)
(** * iokit/IOUSBFamily/msc/usbmsc.c

    USB disks: SCSI commands in the Bulk-Only Transport.  A command block goes
    out, data follows in either direction in pieces that keep within 64 KiB, a
    status block comes back.  What the host controller and the device do is a
    parameter ([Transport]); what the driver relies on is the interface
    [BotDisk], which a concrete device discharges.  Shown: reads and writes of
    blocks act on the disk as on an array, through every split of the buffer;
    and the buffers and ranges for which they do not. *)

From S2P Require Import Prelude Printf Storage Usb.

(** ** State *)

(** The two bulk pipes and the control pipe of a device in the state [W]: bytes
    sent, bytes received, a request without data. *)
Class Transport (W : Type) :=
  { bulk_out : list Z -> W -> bool * W;
    bulk_in : Z -> W -> option (list Z) * W;
    request : usb_ctrlrequest -> W -> bool * W }.

Record usbmsc_dev := mkMsc { block_len : Z; block_count : Z; model : list Z }.

Definition CBW_SIGNATURE : Z := 0x43425355.
Definition CSW_SIGNATURE : Z := 0x53425355.
Definition CBW_SIZE : nat := 31.
Definition CSW_SIZE : Z := 13.
Definition USB_DIR_IN : Z := 0x80.
Definition USB_DIR_OUT : Z := 0.
Definition MSC_MAX_CHUNK : Z := 32 * 1024.

Definition scsi_be16 (v : Z) : list Z := [u8 (Z.shiftr v 8); u8 v].
Definition scsi_be32 (v : Z) : list Z := [u8 (Z.shiftr v 24); u8 (Z.shiftr v 16); u8 (Z.shiftr v 8); u8 v].
Definition be_to_cpu32 (p : list Z) : run Z :=
  a ← of_option (p !! 0%nat); b ← of_option (p !! 1%nat); c ← of_option (p !! 2%nat); d ← of_option (p !! 3%nat);
  Ret (Z.lor (Z.lor (Z.lor (Z.shiftl a 24) (Z.shiftl b 16)) (Z.shiftl c 8)) d).

(** [struct cbw_pkt], packed; [cb] is copied into an array of zeroes. *)
Definition cbw_pkt (tag datalen flags cblen : Z) (cb : list Z) : list Z :=
  le_bytes 4 CBW_SIGNATURE ++ le_bytes 4 tag ++ le_bytes 4 datalen ++ [flags; 0; cblen] ++ splice 0 (take (Z.to_nat cblen) cb) (replicate 16 0).

(** The least of what is left, the limit and the room in the 64 KiB window. *)
Definition piece (addr left : Z) : Z :=
  let room := 0x10000 - Z.land addr 0xffff in
  let len := left in
  let len := if MSC_MAX_CHUNK <? len then MSC_MAX_CHUNK else len in
  if room <? len then room else len.

Section Driver.
Context {W : Type} `{!Transport W}.
(** What the status block on the stack holds before it is received. *)
Context (stale : list Z).

Record msc := mkState { g_tag : Z; world : W }.
Definition set_world (w : W) (s : msc) : msc := mkState (g_tag s) w.

(** The loop over the data at the address [p]; [data] is the buffer. *)
Definition data_phase (dir p datalen : Z) (data : list Z) (s : msc) : run (bool * list Z * msc) :=
  loop (fun '(done, data, s) =>
    if datalen <=? done then Ret (inr (true, data, s))
    else
      let len := piece (u32 (p + done)) (datalen - done) in
      if dir =? USB_DIR_IN then
        let '(got, w) := bulk_in len (world s) in
        match got with
        | None => Ret (inr (false, data, set_world w s))
        | Some bs => data ← buf_store done (take (Z.to_nat len) bs) data; Ret (inl (done + len, data, set_world w s))
        end
      else
        bs ← buf_slice done len data;
        let '(ok, w) := bulk_out bs (world s) in
        if (ok : bool) then Ret (inl (done + len, data, set_world w s)) else Ret (inr (false, data, set_world w s))) (0, data, s).

(** Signature, tag and status. *)
Definition csw_good (csw : list Z) (tag : Z) : bool :=
  (le_val (take 4 csw) =? CSW_SIGNATURE) && (le_val (take 4 (drop 4 csw)) =? tag) && (nth 12 csw 0 =? 0).

Definition msc_command (cb : list Z) (cblen dir p datalen : Z) (data : list Z) (s : msc) : run (bool * list Z * msc) :=
  let tag := u32 (g_tag s + 1) in
  let cbw := cbw_pkt tag datalen (if (dir =? USB_DIR_IN) && negb (datalen =? 0) then 0x80 else 0) cblen cb in
  let '(ok, w) := bulk_out cbw (world s) in
  let s := mkState tag w in
  if negb ok then Ret (false, data, s)
  else
    '(ok, data, s) ← (if datalen =? 0 then Ret (true, data, s) else data_phase dir p datalen data s);
    if negb ok then Ret (false, data, s)
    else
      let '(got, w) := bulk_in CSW_SIZE (world s) in
      let s := set_world w s in
      match got with
      | None => Ret (false, data, s)
      | Some bs => Ret (csw_good (splice 0 (take 13 bs) stale) tag, data, s)
      end.

(** ** Commands *)

(** [u8 cb[16] = { op }] *)
Definition new_cb (op : Z) : list Z := op :: replicate 15 0.

(** The arrays' addresses on the stack, which only decide on the split. *)
Context (sense_va inquiry_va capacity_va : Z).

Definition msc_request_sense (s : msc) : run msc :=
  let cb := splice 7 (scsi_be16 18) (new_cb 0x03) in
  '(_, _, s) ← msc_command cb 6 USB_DIR_IN sense_va 18 (replicate 18 0) s;
  Ret s.

Definition scsi_test_unit_ready (s : msc) : run (bool * msc) :=
  '(ok, _, s) ← msc_command (new_cb 0x00) 6 USB_DIR_OUT 0 0 [] s;
  Ret (ok, s).

Definition scsi_inquiry (s : msc) : run (bool * list Z * msc) :=
  msc_command (<[4%nat := 36]> (new_cb 0x12)) 6 USB_DIR_IN inquiry_va 36 (replicate 36 0) s.

(** Number of the last block and length of a block. *)
Definition scsi_read_capacity (s : msc) : run (option (Z * Z) * msc) :=
  '(ok, data, s) ← msc_command (new_cb 0x25) 10 USB_DIR_IN capacity_va 8 (replicate 8 0) s;
  if negb ok then Ret (None, s)
  else n ← be_to_cpu32 data; l ← be_to_cpu32 (drop 4 data); Ret (Some (n, l), s).

(** How many blocks the next command moves. *)
Definition rw_chunk (bl p remaining : Z) : Z :=
  let max_by_addr := (0x10000 - Z.land (u32 p) 0xffff) / bl in
  let chunk := remaining in
  let chunk := if MSC_MAX_CHUNK / bl <? chunk then MSC_MAX_CHUNK / bl else chunk in
  let chunk := if chunk =? 0 then 1 else chunk in
  if max_by_addr <? chunk then max_by_addr else chunk.

Definition rw_cb (write : bool) (lba chunk : Z) : list Z :=
  splice 7 (scsi_be16 (u16 chunk)) (splice 2 (scsi_be32 lba) (<[0%nat := if write then 0x2A else 0x28]> (replicate 16 0))).

(** [buf] is the memory at [p]; [off] is how far [p] has advanced in it. *)
Definition rw_round (bl : Z) (write : bool) (p : Z) (st : Z * Z * Z * list Z * msc) : run (Z * Z * Z * list Z * msc + Z * list Z * msc) :=
  let '(lba, off, remaining, buf, s) := st in
  if remaining =? 0 then Ret (inr (0, buf, s))
  else if bl =? 0 then Fault
  else
    let chunk := rw_chunk bl (p + off) remaining in
    let bytes := u32 (chunk * bl) in
    data ← buf_slice off bytes buf;
    '(ok, data, s) ← msc_command (rw_cb write lba chunk) 10 (if write then USB_DIR_OUT else USB_DIR_IN) (p + off) bytes data s;
    buf ← buf_store off data buf;
    if negb ok then s ← msc_request_sense s; Ret (inr (-1, buf, s))
    else Ret (inl (u32 (lba + chunk), off + bytes, u32 (remaining - chunk), buf, s)).

Definition scsi_rw10 (d : usbmsc_dev) (write : bool) (lba nblocks p : Z) (buf : list Z) (s : msc) : run (Z * list Z * msc) :=
  loop (rw_round (block_len d) write p) (lba, 0, nblocks, buf, s).

(** [None]: a device without private data. *)
Definition usbdisk_rw (write : bool) (d : option usbmsc_dev) (lba count p : Z) (buf : list Z) (s : msc) : run (Z * list Z * msc) :=
  match d with
  | None => Ret (-1, buf, s)
  | Some d => if block_count d <? u32 (lba + count) then Ret (-1, buf, s) else scsi_rw10 d write lba count p buf s
  end.
Definition usbdisk_read := usbdisk_rw false.
Definition usbdisk_write := usbdisk_rw true.

(** ** Set-up *)

Definition clear_halt (buf : list Z) (iface imax dir : Z) (s : msc) : run msc :=
  e ← usb_find_desc buf iface imax 2 dir;
  match e with
  | None => Ret s
  | Some e => a ← at_ buf (e + 2); Ret (set_world (request (mkReq 0x02 1 0 a 0) (world s)).2 s)
  end.

Definition msc_reset (buf : list Z) (iface imax : Z) (s : msc) : run (Z * msc) :=
  n ← at_ buf (iface + 2);
  let '(ok, w) := request (mkReq 0x21 0xFF 0 n 0) (world s) in
  let s := set_world w s in
  if negb ok then Ret (-1, s)
  else s ← clear_halt buf iface imax USB_DIR_IN s; s ← clear_halt buf iface imax USB_DIR_OUT s; Ret (0, s).

(** The loop of twenty tries. *)
Fixpoint wait_ready (tries : nat) (s : msc) : run (bool * msc) :=
  match tries with
  | O => Ret (false, s)
  | S tries =>
      '(ok, s) ← scsi_test_unit_ready s;
      if (ok : bool) then Ret (true, s) else s ← msc_request_sense s; wait_ready tries s
  end.

(** The strings in [inquiry] run to a NUL; behind the array is other memory. *)
Definition model_text (inquiry : list Z) : run (list Z) :=
  vendor ← Klog.c_str (drop 8 inquiry);
  product ← Klog.c_str (drop 16 inquiry);
  '(b, _) ← snprintf (replicate 48 0) 48 (str "%.8s %.16s") [AStr (Some vendor); AStr (Some product)];
  Klog.c_str b.

(** The state of the driver and the table of block devices. *)
Abbreviation disks := (list (devfs_device usbmsc_dev)).
Record driver := mkDriver { bot : msc; g_disk_count : Z; devices : disks }.

Definition publish (inquiry : list Z) (nblocks blocklen : Z) (s : driver) : run (Z * driver) :=
  let blocklen := if (blocklen =? 0) || (4096 <? blocklen) then 512 else blocklen in
  n ← int32 (g_disk_count s + 1);
  '(b, _) ← snprintf (replicate 24 0) DEVFS_NAME_MAX (str "ud%d") [AWord (u32 (g_disk_count s))];
  name ← Klog.c_str b;
  text ← model_text inquiry;
  let d := mkMsc blocklen (u32 (nblocks + 1)) text in
  nm ← copy_text 23 name;
  md ← copy_text 47 text;
  '(_, g) ← devfs_register (mkDev nm DEVFS_BLOCK_DEV blocklen (block_count d) md (Some d) (Some d)) (devices s);
  Ret (0, mkDriver (bot s) n g).

(** [got]: memory and both pipes could be had.  On failure the pipes are given
    back. *)
Definition usb_msc_setup (buf : list Z) (iface imax : Z) (got : bool) (s : driver) : run (Z * driver) :=
  in_ep ← usb_find_desc buf iface imax 2 USB_DIR_IN;
  out_ep ← usb_find_desc buf iface imax 2 USB_DIR_OUT;
  if negb (bool_decide (is_Some in_ep) && bool_decide (is_Some out_ep) && got) then Ret (-1, s)
  else
    let fail m := Ret (-1, mkDriver m (g_disk_count s) (devices s)) in
    '(_, m) ← msc_reset buf iface imax (bot s);
    '(ok, inquiry, m) ← scsi_inquiry m;
    if negb ok then fail m
    else
      '(ready, m) ← wait_ready 20 m;
      if negb (ready : bool) then fail m
      else
        '(cap, m) ← scsi_read_capacity m;
        match cap with
        | None => fail m
        | Some (nblocks, blocklen) => publish inquiry nblocks blocklen (mkDriver m (g_disk_count s) (devices s))
        end.
End Driver.
Arguments msc : clear implicits.
Arguments driver : clear implicits.
Arguments mkDriver {W}.
Arguments mkState {W} g_tag world.

(** ** What a disk promises *)

Definition segment (off n : Z) (d : list Z) : list Z := take (Z.to_nat n) (drop (Z.to_nat off) d).

(** Numbers in a packet: the lowest byte first, or the highest. *)
Definition le32_at (o : nat) (p : list Z) : Z := nth o p 0 + 2 ^ 8 * nth (o + 1) p 0 + 2 ^ 16 * nth (o + 2) p 0 + 2 ^ 24 * nth (o + 3) p 0.
Definition be32_at (o : nat) (p : list Z) : Z := 2 ^ 24 * nth o p 0 + 2 ^ 16 * nth (o + 1) p 0 + 2 ^ 8 * nth (o + 2) p 0 + nth (o + 3) p 0.
Definition be16_at (o : nat) (p : list Z) : Z := 2 ^ 8 * nth o p 0 + nth (o + 1) p 0.

(** A packet that, by the specifications of the Bulk-Only Transport and of SCSI,
    wraps the command [op] - [READ(10)] is 0x28, [WRITE(10)] 0x2A - for [n]
    blocks from [lba] on the first unit: the letters USBC; the tag, the number
    of bytes and their direction; unit 0 and a command of ten bytes; opcode,
    flags, block number, group, number of blocks and control byte. *)
Record command_packet (op tag lba n bytes direction : Z) (p : list Z) : Prop :=
  { cp_length : length p = 31%nat;
    cp_bytes : Forall byte_ok p;
    cp_signature : take 4 p = str "USBC";
    cp_tag : le32_at 4 p = tag;
    cp_transfer : le32_at 8 p = bytes;
    cp_direction : nth 12 p 0 = direction;
    cp_unit : nth 13 p 0 = 0;
    cp_cblen : nth 14 p 0 = 10;
    cp_op : nth 15 p 0 = op;
    cp_flags : nth 16 p 0 = 0;
    cp_lba : be32_at 17 p = lba;
    cp_group : nth 21 p 0 = 0;
    cp_blocks : be16_at 22 p = n;
    cp_control : nth 24 p 0 = 0 }.

(** The status block of a command that worked: the letters USBS, the tag, no
    bytes left over, status 0. *)
Definition csw_pkt (tag : Z) : list Z :=
  str "USBS" ++ [tag mod 256; tag / 2 ^ 8 mod 256; tag / 2 ^ 16 mod 256; tag / 2 ^ 24 mod 256; 0; 0; 0; 0; 0].

(** A device with the bytes [d]: idle ([holds]), with data to send and then the
    status ([sends]), or with data to take at an offset ([takes]).  [READ(10)]
    and [WRITE(10)] within the disk start a transfer, which goes on with pieces
    of any length; the status of the tag ends it. *)
Class BotDisk (W : Type) `{!Transport W} (bl : Z) :=
  { holds : list Z -> W -> Prop;
    sends : list Z -> Z -> list Z -> W -> Prop;
    takes : Z -> Z -> Z -> list Z -> W -> Prop;
    read_starts w d p tag lba n : holds d w -> command_packet 0x28 tag lba n (n * bl) 0x80 p -> 0 < n -> (lba + n) * bl <= Z.of_nat (length d) ->
      exists w', bulk_out p w = (true, w') /\ sends (segment (lba * bl) (n * bl) d) tag d w';
    read_goes_on w d tag l len : sends l tag d w -> 0 < len <= Z.of_nat (length l) ->
      exists w', bulk_in len w = (Some (take (Z.to_nat len) l), w') /\ sends (drop (Z.to_nat len) l) tag d w';
    read_ends w d tag : sends [] tag d w -> exists w', bulk_in 13 w = (Some (csw_pkt tag), w') /\ holds d w';
    write_starts w d p tag lba n : holds d w -> command_packet 0x2A tag lba n (n * bl) 0 p -> 0 < n -> (lba + n) * bl <= Z.of_nat (length d) ->
      exists w', bulk_out p w = (true, w') /\ takes (lba * bl) (n * bl) tag d w';
    write_goes_on w d tag off need bs : takes off need tag d w -> 0 < Z.of_nat (length bs) <= need ->
      exists w', bulk_out bs w = (true, w') /\ takes (off + Z.of_nat (length bs)) (need - Z.of_nat (length bs)) tag (splice (Z.to_nat off) bs d) w';
    write_ends w d tag off : takes off 0 tag d w -> exists w', bulk_in 13 w = (Some (csw_pkt tag), w') /\ holds d w' }.

(** The driver's packets are such packets. *)
Lemma cbw_command (write : bool) tag lba n bytes direction :
  0 <= tag < 2 ^ 32 -> 0 <= lba < 2 ^ 32 -> 0 <= n < 2 ^ 16 -> 0 <= bytes < 2 ^ 32 -> byte_ok direction ->
  command_packet (if write then 0x2A else 0x28) tag lba n bytes direction (cbw_pkt tag bytes direction 10 (rw_cb write lba n)).
Proof.
  intros Ht Hl Hn Hb Hd. rewrite <- (u16_small n) at 1 by lia. set (p := cbw_pkt _ _ _ _ _).
  assert (p = str "USBC" ++ le_bytes 4 tag ++ le_bytes 4 bytes ++ [direction; 0; 10; if write then 0x2A else 0x28; 0] ++ scsi_be32 lba ++ [0] ++ scsi_be16 (u16 n) ++ replicate 7 0) as -> by done.
  constructor; try done.
  - apply Forall_app; split; [by apply (bool_decide_unpack _)|]. do 2 (apply Forall_app; split; [apply le_bytes_ok|]).
    change (Forall byte_ok [direction; 0; 10; if write then 0x2A else 0x28; 0; u8 (Z.shiftr lba 24); u8 (Z.shiftr lba 16); u8 (Z.shiftr lba 8); u8 lba; 0; u8 (Z.shiftr (u16 n) 8); u8 (u16 n); 0; 0; 0; 0; 0; 0; 0]).
    assert (forall x, byte_ok (u8 x)) as U by (intros x; apply u8_range). assert (byte_ok (if write then 0x2A else 0x28)) by (by destruct write).
    repeat (apply Forall_cons_2; [first [done|apply U]|]). apply Forall_nil_2.
  - unfold le32_at. cbn. unfold u8. Z.div_mod_to_equations. lia.
  - unfold le32_at. cbn. unfold u8. Z.div_mod_to_equations. lia.
  - unfold be32_at. cbn [nth Nat.add app str]. change (nth 17 ?l 0) with (u8 (Z.shiftr lba 24)). cbn. unfold u8. rewrite !Z.shiftr_div_pow2 by lia. Z.div_mod_to_equations. lia.
  - unfold be16_at. cbn. unfold u8, u16. rewrite !Z.shiftr_div_pow2 by lia. Z.div_mod_to_equations. lia.
Qed.

Lemma splice_whole a l : length a = length l -> splice 0 a l = a.
Proof. intros H. unfold splice. rewrite take_0, app_nil_l, Nat.add_0_l. rewrite drop_ge by lia. apply app_nil_r. Qed.

Lemma csw_pkt_good tag stale : 0 <= tag < 2 ^ 32 -> length stale = 13%nat -> csw_good (splice 0 (take 13 (csw_pkt tag)) stale) tag = true.
Proof.
  intros Ht Hl. assert (length (csw_pkt tag) = 13%nat) as Hc by done. rewrite take_ge, splice_whole by lia.
  unfold csw_good. assert (le_val (take 4 (drop 4 (csw_pkt tag))) = tag) as ->; [cbn; Z.div_mod_to_equations; lia|]. by rewrite (Z.eqb_refl tag).
Qed.

Lemma land_window x : 0 <= Z.land x 0xffff < 0x10000.
Proof. change 0xffff with (Z.ones 16). rewrite Z.land_ones by lia. apply Z.mod_pos_bound. lia. Qed.

Lemma piece_bounds addr left : 0 < left -> 0 < piece addr left <= left.
Proof.
  intros Hl. pose proof (land_window addr). unfold piece, MSC_MAX_CHUNK. destruct (Z.ltb_spec (32 * 1024) left).
  - destruct (Z.ltb_spec (65536 - Z.land addr 65535) (32 * 1024)); lia.
  - destruct (Z.ltb_spec (65536 - Z.land addr 65535) left); lia.
Qed.

Lemma length_segment off n d : 0 <= off -> 0 <= n -> off + n <= Z.of_nat (length d) -> Z.of_nat (length (segment off n d)) = n.
Proof. intros. unfold segment. rewrite length_take, length_drop. lia. Qed.

(** Consecutive pieces. *)
Lemma take_segment a n d : 0 <= a -> 0 <= n -> take (Z.to_nat a) d ++ segment a n d = take (Z.to_nat (a + n)) d.
Proof. intros. unfold segment. rewrite take_take_drop. f_equal. lia. Qed.

Lemma segment_app off a n d : 0 <= off -> 0 <= a -> 0 <= n -> segment off (a + n) d = segment off a d ++ segment (off + a) n d.
Proof.
  intros. unfold segment. rewrite Z2Nat.inj_add, Z2Nat.inj_add by done. rewrite <- (drop_drop d). symmetry. apply take_take_drop.
Qed.

Section Refinement.
Context {W : Type} `{!Transport W} (bl : Z) `{!BotDisk W bl}.
Context (stale : list Z).
Hypothesis stale_size : length stale = 13%nat.

(** The data of a read arrives in order. *)
Lemma data_in p datalen l tag d data s :
  sends l tag d (world s) -> Z.of_nat (length l) = datalen -> datalen < 2 ^ 32 -> length data = length l ->
  exists s', data_phase USB_DIR_IN p datalen data s = Ret (true, l, s') /\ sends [] tag d (world s') /\ g_tag s' = g_tag s.
Proof.
  intros Hs Hl Hm Hd. unfold data_phase.
  loop_with (fun '(done, buf, s1) => 0 <= done <= datalen /\ buf = splice 0 (take (Z.to_nat done) l) data /\ sends (drop (Z.to_nat done) l) tag d (world s1) /\ g_tag s1 = g_tag s)
    (fun '(ok, buf, s') => ok = true /\ buf = l /\ sends [] tag d (world s') /\ g_tag s' = g_tag s)
    (fun '(done, _, _) => datalen - done) as ([[ok buf] s'] & -> & -> & -> & H1 & H2).
  - intros [[done buf] s1] (Hn & -> & H1 & H2). destruct (Z.leb_spec datalen done).
    { right. eexists (_, _, _). split; [done|]. replace (Z.to_nat done) with (length l) in * by lia. rewrite firstn_all. rewrite drop_all in H1. rewrite splice_whole by lia. done. }
    left. set (len := piece _ _). pose proof (piece_bounds (u32 (p + done)) (datalen - done) ltac:(lia)) as Hp. fold len in Hp. cbn [Z.eqb USB_DIR_IN Pos.eqb].
    destruct (read_goes_on (world s1) d tag (drop (Z.to_nat done) l) len H1) as (w' & -> & H1'); [rewrite length_drop; lia|].
    rewrite take_take, Nat.min_id. rewrite buf_store_ok; [|lia|rewrite length_splice by (rewrite length_take; lia); rewrite length_take, length_drop; lia].
    rewrite bind_ret. eexists (_, _, _). split; [done|]. split; [|lia]. split; [lia|].
    assert (Z.to_nat (done + len) = (Z.to_nat done + Z.to_nat len)%nat) as E by lia. rewrite E. cbn [world set_world g_tag]. rewrite <- drop_drop. split; [|done].
    replace (Z.to_nat done) with (0 + length (take (Z.to_nat done) l))%nat at 1 by (rewrite length_take; lia). rewrite splice_splice; [by rewrite take_take_drop|].
    rewrite !length_take, length_drop. lia.
  - split_and!; try done; try lia.
  - lia.
  - by exists s'.
Qed.

(** The data of a write lands in order. *)
Lemma data_out p off tag d data s :
  takes off (Z.of_nat (length data)) tag d (world s) -> 0 <= off -> off + Z.of_nat (length data) <= Z.of_nat (length d) -> Z.of_nat (length data) < 2 ^ 32 ->
  exists s', data_phase USB_DIR_OUT p (Z.of_nat (length data)) data s = Ret (true, data, s') /\
    takes (off + Z.of_nat (length data)) 0 tag (splice (Z.to_nat off) data d) (world s') /\ g_tag s' = g_tag s.
Proof.
  intros Hs Ho Hf Hm. set (n := Z.of_nat (length data)) in *. unfold data_phase.
  loop_with (fun '(done, buf, s1) => 0 <= done <= n /\ buf = data /\
      takes (off + done) (n - done) tag (splice (Z.to_nat off) (take (Z.to_nat done) data) d) (world s1) /\ g_tag s1 = g_tag s)
    (fun '(ok, buf, s') => ok = true /\ buf = data /\ takes (off + n) 0 tag (splice (Z.to_nat off) data d) (world s') /\ g_tag s' = g_tag s)
    (fun '(done, _, _) => n - done) as ([[ok buf] s'] & -> & -> & -> & H1 & H2).
  - intros [[done buf] s1] (Hn & -> & H1 & H2). destruct (Z.leb_spec n done).
    { right. eexists (_, _, _). split; [done|]. assert (done = n) as -> by lia. rewrite Z.sub_diag in H1. by rewrite take_ge in H1 by lia. }
    left. set (len := piece _ _). pose proof (piece_bounds (u32 (p + done)) (n - done) ltac:(lia)) as Hp. fold len in Hp.
    change (USB_DIR_OUT =? USB_DIR_IN) with false. cbn iota. rewrite buf_slice_ok by lia. fold (segment done len data). rewrite bind_ret.
    pose proof (length_segment done len data ltac:(lia) ltac:(lia) ltac:(lia)) as Hsl.
    destruct (write_goes_on (world s1) _ tag _ _ (segment done len data) H1) as (w' & -> & H1'); [lia|]. eexists (_, _, _). split; [done|]. split; [|lia].
    split; [lia|]. split; [done|]. cbn [world set_world g_tag]. split; [|done]. rewrite Hsl in H1'. replace (off + (done + len)) with (off + done + len) by lia. replace (n - (done + len)) with (n - done - len) by lia.
    rewrite <- take_segment by lia. rewrite <- splice_splice; [|rewrite length_take; lia]. rewrite length_take. by replace (Z.to_nat off + Z.to_nat done `min` length data)%nat with (Z.to_nat (off + done)) by lia.
  - split; [lia|]. split; [done|]. rewrite Z.add_0_r, Z.sub_0_r. by rewrite take_0, splice_nil.
  - lia.
  - by exists s'.
Qed.

(** One command. *)
Lemma command_reads lba n p d data s :
  holds d (world s) -> 0 <= lba < 2 ^ 32 -> 0 < n < 2 ^ 16 -> 0 < bl -> n * bl < 2 ^ 32 -> (lba + n) * bl <= Z.of_nat (length d) -> Z.of_nat (length data) = n * bl ->
  exists s', msc_command stale (rw_cb false lba n) 10 USB_DIR_IN p (n * bl) data s = Ret (true, segment (lba * bl) (n * bl) d, s') /\ holds d (world s').
Proof.
  intros Hh Hlba Hn Hbl Hm Hf Hd. unfold msc_command, CSW_SIZE. set (tag := u32 (g_tag s + 1)). assert (0 <= tag < 2 ^ 32) as Ht by apply u32_range.
  assert ((n * bl =? 0) = false) as E0 by lia. rewrite E0. cbn [USB_DIR_IN Z.eqb Pos.eqb andb negb].
  destruct (read_starts (world s) d _ tag lba n Hh (cbw_command false tag lba n (n * bl) 0x80 Ht Hlba ltac:(lia) ltac:(nia) ltac:(done)) ltac:(lia) Hf) as (w1 & -> & H1). cbn [negb].
  assert (Z.of_nat (length (segment (lba * bl) (n * bl) d)) = n * bl) as Hs by (apply length_segment; nia).
  destruct (data_in p (n * bl) _ tag d data (mkState tag w1) H1 Hs Hm) as (s2 & -> & H2 & Et); [lia|]. rewrite bind_ret. cbn [negb].
  destruct (read_ends (world s2) d tag H2) as (w3 & -> & H3). rewrite csw_pkt_good by done. by eexists.
Qed.

Lemma command_writes lba n p d data s :
  holds d (world s) -> 0 <= lba < 2 ^ 32 -> 0 < n < 2 ^ 16 -> 0 < bl -> n * bl < 2 ^ 32 -> (lba + n) * bl <= Z.of_nat (length d) -> Z.of_nat (length data) = n * bl ->
  exists s', msc_command stale (rw_cb true lba n) 10 USB_DIR_OUT p (n * bl) data s = Ret (true, data, s') /\ holds (splice (Z.to_nat (lba * bl)) data d) (world s').
Proof.
  intros Hh Hlba Hn Hbl Hm Hf Hd. unfold msc_command, CSW_SIZE. set (tag := u32 (g_tag s + 1)). assert (0 <= tag < 2 ^ 32) as Ht by apply u32_range.
  assert ((n * bl =? 0) = false) as E0 by lia. rewrite E0. change (USB_DIR_OUT =? USB_DIR_IN) with false. cbn [andb].
  destruct (write_starts (world s) d _ tag lba n Hh (cbw_command true tag lba n (n * bl) 0 Ht Hlba ltac:(lia) ltac:(nia) ltac:(done)) ltac:(lia) Hf) as (w1 & -> & H1). cbn [negb]. rewrite <- Hd in *.
  destruct (data_out p (lba * bl) tag d data (mkState tag w1) H1) as (s2 & -> & H2 & Et); [nia|nia|lia|]. rewrite bind_ret. cbn [negb].
  destruct (write_ends (world s2) _ tag _ H2) as (w3 & -> & H3). rewrite csw_pkt_good by done. by eexists.
Qed.

(** A buffer on a block boundary, blocks that divide the window: a command
    always moves some blocks. *)
Context (sense_va : Z).
Hypothesis bl_range : 0 < bl <= MSC_MAX_CHUNK.
Hypothesis bl_window : (bl | 0x10000).

Lemma rw_chunk_bounds p left : (bl | p) -> 0 < left -> 0 < rw_chunk bl p left <= left /\ rw_chunk bl p left * bl <= MSC_MAX_CHUNK.
Proof.
  intros Hp Hl. unfold rw_chunk. set (m := Z.land (u32 p) 0xffff). pose proof (land_window (u32 p)) as Hm. fold m in Hm.
  assert (bl | 0x10000 - m) as Hd.
  { assert (m = p mod 0x10000) as ->.
    { subst m. change 0xffff with (Z.ones 16). rewrite Z.land_ones by lia. ilia. }
    apply Z.divide_sub_r; [done|]. apply Z.mod_divide in Hp; [|lia]. apply Z.mod_divide; [lia|]. destruct bl_window as [z Hz]. rewrite Hz. rewrite (Z.mul_comm z), Z.rem_mul_r by nia. rewrite Hp, Z.add_0_l, Z.mul_comm. apply Z.mod_mul. lia. }
  assert (0 < (0x10000 - m) / bl) as H1. { destruct Hd as [z Hz]. rewrite Hz, Z.div_mul by lia. nia. }
  assert (0 < MSC_MAX_CHUNK / bl) as H2 by (apply Z.div_str_pos; lia). pose proof (Z.mul_div_le MSC_MAX_CHUNK bl ltac:(lia)) as H3.
  destruct (Z.ltb_spec (MSC_MAX_CHUNK / bl) left).
  - rewrite (proj2 (Z.eqb_neq _ _)) by lia. destruct (Z.ltb_spec ((65536 - m) / bl) (MSC_MAX_CHUNK / bl)); nia.
  - rewrite (proj2 (Z.eqb_neq left 0)) by lia. destruct (Z.ltb_spec ((65536 - m) / bl) left); nia.
Qed.

(** The loop, for a buffer [B k] and a disk [D k] after [k] blocks. *)
Lemma rw_loop (write : bool) p lba n (B D : Z -> list Z) s :
  (bl | p) -> 0 <= lba -> lba + n < 2 ^ 32 -> 0 <= n -> holds (D 0) (world s) ->
  (forall k c s, 0 <= k -> 0 < c < 2 ^ 16 -> c * bl < 2 ^ 32 -> k + c <= n -> holds (D k) (world s) -> exists data data' s',
    buf_slice (k * bl) (c * bl) (B k) = Ret data /\
    msc_command stale (rw_cb write (lba + k) c) 10 (if write then USB_DIR_OUT else USB_DIR_IN) (p + k * bl) (c * bl) data s = Ret (true, data', s') /\
    buf_store (k * bl) data' (B k) = Ret (B (k + c)) /\ holds (D (k + c)) (world s')) ->
  exists s', loop (rw_round stale sense_va bl write p) (lba, 0, n, B 0, s) = Ret (0, B n, s') /\ holds (D n) (world s').
Proof.
  intros Hp Hlba Hn Hn0 H0 Hstep.
  loop_with (fun '(l, off, r, buf, s1) => exists k, 0 <= k <= n /\ l = lba + k /\ off = k * bl /\ r = n - k /\ buf = B k /\ holds (D k) (world s1))
    (fun '(rc, buf, s') => rc = 0 /\ buf = B n /\ holds (D n) (world s')) (fun '(_, _, r, _, _) => r) as ([[rc buf] s'] & -> & -> & -> & H').
  - intros [[[[l off] r] buf] s1] (k & Hk & -> & -> & -> & -> & H1). unfold rw_round. destruct (Z.eqb_spec (n - k) 0).
    { right. eexists (_, _, _). split; [done|]. by replace n with k by lia. }
    left. rewrite (proj2 (Z.eqb_neq bl 0)) by lia. destruct (rw_chunk_bounds (p + k * bl) (n - k)) as [Hc Hcb]; [apply Z.divide_add_r; [done|]; apply Z.divide_factor_r|lia|].
    set (c := rw_chunk _ _ _) in *. unfold MSC_MAX_CHUNK in *. rewrite (u32_small (c * bl)) by nia.
    destruct (Hstep k c s1) as (data & data' & s2 & -> & E2 & E3 & H2); [lia|nia|nia|lia|done|]. rewrite bind_ret, E2, bind_ret, E3, bind_ret. cbn [negb].
    eexists (_, _, _, _, _). split; [done|]. rewrite !u32_small by lia. split; [|lia]. exists (k + c). split_and!; try done; lia.
  - exists 0. split_and!; try done; lia.
  - lia.
  - by exists s'.
Qed.

Lemma splice_segment a n (l : list Z) : 0 <= a -> 0 <= n -> a + n <= Z.of_nat (length l) -> splice (Z.to_nat a) (segment a n l) l = l.
Proof.
  intros. unfold splice. pose proof (length_segment a n l ltac:(lia) ltac:(lia) ltac:(lia)). rewrite app_assoc, take_segment by lia.
  replace (Z.to_nat a + length (segment a n l))%nat with (Z.to_nat (a + n)) by lia. apply take_drop.
Qed.

Lemma rw10_reads p lba n d buf s :
  (bl | p) -> 0 <= lba -> 0 <= n -> lba + n < 2 ^ 32 -> holds d (world s) -> (lba + n) * bl <= Z.of_nat (length d) -> Z.of_nat (length buf) = n * bl ->
  exists s', loop (rw_round stale sense_va bl false p) (lba, 0, n, buf, s) = Ret (0, segment (lba * bl) (n * bl) d, s') /\ holds d (world s').
Proof.
  intros Hp Hlba Hn Hl Hh Hf Hb. pose (B k := splice 0 (segment (lba * bl) (k * bl) d) buf).
  assert (forall k, 0 <= k <= n -> Z.of_nat (length (segment (lba * bl) (k * bl) d)) = k * bl) as Hs by (intros k Hk; apply length_segment; nia).
  assert (forall k, 0 <= k <= n -> length (B k) = length buf) as Hlen.
  { intros k Hk. apply length_splice. pose proof (Hs k Hk). nia. }
  destruct (rw_loop false p lba n B (fun _ => d) s) as (s' & E & H'); try done.
  - intros k c s1 Hk Hc Hcb Hkc H1. pose proof (Hlen k ltac:(lia)) as Hlk. pose proof (Hs k ltac:(lia)) as Hsk.
    destruct (command_reads (lba + k) c (p + k * bl) d (segment (k * bl) (c * bl) (B k)) s1 H1) as (s2 & E2 & H2); [lia|lia|lia|lia|nia|apply length_segment; nia|].
    eexists _, _, s2. split; [apply buf_slice_ok; nia|]. split; [exact E2|]. split; [|done].
    assert (Z.of_nat (length (segment ((lba + k) * bl) (c * bl) d)) = c * bl) as Hsc by (apply length_segment; nia).
    rewrite buf_store_ok by nia. f_equal. unfold B. replace (Z.to_nat (k * bl)) with (0 + length (segment (lba * bl) (k * bl) d))%nat by lia.
    rewrite splice_splice by nia. f_equal. rewrite !Z.mul_add_distr_r. symmetry. apply segment_app; nia.
  - exists s'. split; [|done]. assert (B 0 = buf) as EB by (apply splice_nil). rewrite EB in E. rewrite E. do 3 f_equal. unfold B. apply splice_whole. pose proof (Hs n ltac:(lia)). lia.
Qed.

Lemma rw10_writes p lba n d buf s :
  (bl | p) -> 0 <= lba -> 0 <= n -> lba + n < 2 ^ 32 -> holds d (world s) -> (lba + n) * bl <= Z.of_nat (length d) -> Z.of_nat (length buf) = n * bl ->
  exists s', loop (rw_round stale sense_va bl true p) (lba, 0, n, buf, s) = Ret (0, buf, s') /\ holds (splice (Z.to_nat (lba * bl)) buf d) (world s').
Proof.
  intros Hp Hlba Hn Hl Hh Hf Hb. pose (D k := splice (Z.to_nat (lba * bl)) (take (Z.to_nat (k * bl)) buf) d).
  assert (forall k, 0 <= k <= n -> length (D k) = length d) as Hlen.
  { intros k Hk. apply length_splice. rewrite length_take. nia. }
  destruct (rw_loop true p lba n (fun _ => buf) D s) as (s' & E & H'); try done.
  - unfold D. by rewrite Z.mul_0_l, take_0, splice_nil.
  - intros k c s1 Hk Hc Hcb Hkc H1. pose proof (Hlen k ltac:(lia)) as Hlk.
    assert (Z.of_nat (length (segment (k * bl) (c * bl) buf)) = c * bl) as Hsc by (apply length_segment; nia).
    destruct (command_writes (lba + k) c (p + k * bl) (D k) (segment (k * bl) (c * bl) buf) s1 H1) as (s2 & E2 & H2); [lia|lia|lia|lia|nia|done|].
    eexists _, _, s2. split; [apply buf_slice_ok; nia|]. split; [exact E2|]. split.
    { rewrite buf_store_ok by nia. f_equal. apply splice_segment; nia. }
    unfold D in *. rewrite (Z.mul_add_distr_r k), <- take_segment by nia. rewrite <- splice_splice; [|rewrite length_take; nia].
    assert (length (take (Z.to_nat (k * bl)) buf) = Z.to_nat (k * bl)) as Et by (rewrite length_take; nia). rewrite Et.
    by replace (Z.to_nat (lba * bl) + Z.to_nat (k * bl))%nat with (Z.to_nat ((lba + k) * bl)) by nia.
  - exists s'. split; [done|]. unfold D in H'. by rewrite take_ge in H' by lia.
Qed.
End Refinement.

(** C25: USB disks.  Over any device that keeps to the Bulk-Only Transport, and
    for a buffer on a block boundary, reading and writing blocks act on the
    disk as on an array of bytes: a read returns the blocks and changes
    nothing, a write puts the buffer's bytes in their place; the commands, the
    splits at 64 KiB and the status blocks do not show.  What the device is
    sent is read by the layouts of the specifications (little-endian tag and
    length, big-endian block number and count).  A range that ends behind the
    disk is refused before anything is sent, provided that its end, a sum of 32
    bits in the code, does not wrap around; with a sum of 2^32 or more nothing
    is said.  A block is of at most 32 KiB and divides 64 KiB, and a request is
    of fewer than 256 blocks into a buffer of just their size. *)
Theorem usbdisk_refines_array {W : Type} `{!Transport W} (bl : Z) `{!BotDisk W bl} stale sense_va dv lba count p d buf (s : msc W) :
  length stale = 13%nat -> block_len dv = bl -> 0 < bl <= MSC_MAX_CHUNK -> (bl | 0x10000) -> (bl | p) ->
  0 <= lba -> 0 <= count < 256 -> lba + count < 2 ^ 32 ->
  Z.of_nat (length d) = block_count dv * bl -> Z.of_nat (length buf) = count * bl -> holds d (world s) ->
  (lba + count <= block_count dv ->
    (exists s', usbdisk_read stale sense_va (Some dv) lba count p buf s = Ret (0, segment (lba * bl) (count * bl) d, s') /\ holds d (world s')) /\
    (exists s', usbdisk_write stale sense_va (Some dv) lba count p buf s = Ret (0, buf, s') /\ holds (splice (Z.to_nat (lba * bl)) buf d) (world s'))) /\
  (block_count dv < lba + count ->
    usbdisk_read stale sense_va (Some dv) lba count p buf s = Ret (-1, buf, s) /\ usbdisk_write stale sense_va (Some dv) lba count p buf s = Ret (-1, buf, s)).
Proof.
  intros Hst Hdv Hbl Hw Hp Hlba Hc Hlc Hd Hb Hh. unfold usbdisk_read, usbdisk_write, usbdisk_rw, scsi_rw10. rewrite u32_small, Hdv by lia. split; intros Hr.
  - rewrite (proj2 (Z.ltb_ge _ _)) by lia. split; [apply rw10_reads|apply rw10_writes]; try done; nia.
  - by rewrite (proj2 (Z.ltb_lt _ _)).
Qed.

(** ** A device *)

Inductive phase := Idle | Sending (l : list Z) (tag : Z) | Taking (off need tag : Z).
Record device := mkDevice { bytes : list Z; doing : phase }.

(** Blocks of 512 bytes; no command but [READ(10)] and [WRITE(10)]. *)
Definition device_command (cbw : list Z) (d : device) : bool * device :=
  let tag := le32_at 4 cbw in
  let lba := be32_at 17 cbw in
  let n := be16_at 22 cbw in
  let op := nth 15 cbw 0 in
  if negb (bool_decide (length cbw = 31%nat) && bool_decide (take 4 cbw = str "USBC")) then (false, d)
  else if op =? 0x28 then (true, mkDevice (bytes d) (Sending (segment (lba * 512) (n * 512) (bytes d)) tag))
  else if op =? 0x2A then (true, mkDevice (bytes d) (Taking (lba * 512) (n * 512) tag))
  else (false, d).

#[export] Instance device_transport : Transport device :=
  {| bulk_out bs d :=
       match doing d with
       | Idle => device_command bs d
       | Taking off need tag =>
           let n := Z.of_nat (length bs) in
           if n <=? need then (true, mkDevice (splice (Z.to_nat off) bs (bytes d)) (Taking (off + n) (need - n) tag)) else (false, d)
       | Sending _ _ => (false, d)
       end;
     bulk_in len d :=
       match doing d with
       | Sending [] tag | Taking _ 0 tag => if len =? 13 then (Some (csw_pkt tag), mkDevice (bytes d) Idle) else (None, d)
       | Sending l tag => if len <=? Z.of_nat (length l) then (Some (take (Z.to_nat len) l), mkDevice (bytes d) (Sending (drop (Z.to_nat len) l) tag)) else (None, d)
       | _ => (None, d)
       end;
     request _ d := (true, d) |}.

Lemma device_command_rw (write : bool) tag lba n bytes_ direction p d :
  command_packet (if write then 0x2A else 0x28) tag lba n bytes_ direction p ->
  device_command p d = (true, mkDevice (bytes d) (if write then Taking (lba * 512) (n * 512) tag else Sending (segment (lba * 512) (n * 512) (bytes d)) tag)).
Proof.
  intros H. unfold device_command. rewrite (cp_tag _ _ _ _ _ _ _ H), (cp_lba _ _ _ _ _ _ _ H), (cp_blocks _ _ _ _ _ _ _ H), (cp_op _ _ _ _ _ _ _ H).
  rewrite !bool_decide_true by apply H. by destruct write.
Qed.

#[export] Instance device_disk : BotDisk device 512.
Proof.
  refine {| holds d w := w = mkDevice d Idle; sends l tag d w := w = mkDevice d (Sending l tag); takes off need tag d w := w = mkDevice d (Taking off need tag) |}.
  - intros w d p tag lba n -> Hp _ _. eexists. split; [|done]. by apply (device_command_rw false _ _ _ _ _ _ (mkDevice d Idle) Hp).
  - intros w d tag l len -> Hlen. eexists. split; [|done]. cbn [bulk_in device_transport doing bytes]. destruct l as [|b l]; [cbn in Hlen; lia|]. by rewrite (proj2 (Z.leb_le _ _)) by lia.
  - intros w d tag ->. by eexists.
  - intros w d p tag lba n -> Hp _ _. eexists. split; [|done]. by apply (device_command_rw true _ _ _ _ _ _ (mkDevice d Idle) Hp).
  - intros w d tag off need bs -> Hlen. eexists. split; [|done]. cbn [bulk_out device_transport doing bytes]. by rewrite (proj2 (Z.leb_le _ _)) by lia.
  - intros w d tag off ->. by eexists.
Defined.

Definition demo_disk : list Z := replicate 512 1 ++ replicate 512 2 ++ replicate 512 3.
Definition demo_dev : usbmsc_dev := mkMsc 512 3 [].

(** Two blocks to a buffer at the end of a 64 KiB window, in two commands. *)
Lemma usbdisk_refines_array_witness :
  let s := mkState 7 (mkDevice demo_disk Idle) in
  let p := 0x1FE00 in
  let buf := replicate 1024 9 in
  (1 + 2 <= block_count demo_dev ->
    (exists s', usbdisk_read (replicate 13 0) 0 (Some demo_dev) 1 2 p buf s = Ret (0, segment (1 * 512) (2 * 512) demo_disk, s') /\ holds demo_disk (world s')) /\
    (exists s', usbdisk_write (replicate 13 0) 0 (Some demo_dev) 1 2 p buf s = Ret (0, buf, s') /\ holds (splice (Z.to_nat (1 * 512)) buf demo_disk) (world s'))) /\
  (block_count demo_dev < 1 + 2 ->
    usbdisk_read (replicate 13 0) 0 (Some demo_dev) 1 2 p buf s = Ret (-1, buf, s) /\ usbdisk_write (replicate 13 0) 0 (Some demo_dev) 1 2 p buf s = Ret (-1, buf, s)).
Proof.
  intros s p buf. apply (usbdisk_refines_array 512 (replicate 13 0) 0 demo_dev 1 2 p demo_disk buf s); try done; try lia.
  - by exists 128.
  - by exists 255.
Defined.

(** ** What the code gets wrong *)

(** A buffer with less than a block of room before a 64 KiB boundary: commands
    for no blocks are sent for ever. *)
Theorem rw10_hangs stale s :
  length stale = 13%nat -> doing (world s) = Idle ->
  scsi_rw10 stale 0 demo_dev false 0 1 0x1FF00 (replicate 512 0) s = Spin.
Proof.
  intros Hst Hi. unfold scsi_rw10. apply (loop_forever (fun '(l, off, r, buf, s1) => l = 0 /\ off = 0 /\ r = 1 /\ length buf = 512%nat /\ doing (world s1) = Idle)); [|done].
  intros [[[[l off] r] buf] s1] (-> & -> & -> & Hb & H1). unfold rw_round. cbn [Z.eqb demo_dev block_len]. assert (rw_chunk 512 (0x1FF00 + 0) 1 = 0) as -> by done.
  change (u32 (0 * 512)) with 0. rewrite buf_slice_ok by lia. change (take (Z.to_nat 0) (drop (Z.to_nat 0) buf)) with (@nil Z). rewrite bind_ret. unfold msc_command. rewrite Z.eqb_refl. cbn [negb andb].
  destruct s1 as [tag [bs ph]]. cbn in H1. subst ph. pose proof (u32_range (tag + 1)) as Ht. cbn [g_tag world]. set (t := u32 (tag + 1)) in *. change (0 =? 0) with true. cbn [negb].
  assert (device_command (cbw_pkt t 0 0 10 (rw_cb false 0 0)) (mkDevice bs Idle) = (true, mkDevice bs (Sending [] t))) as E.
  { by apply (device_command_rw false t 0 0 0 0), (cbw_command false). }
  cbn [bulk_out device_transport doing]. rewrite E. cbn [negb]. rewrite bind_ret. cbn [negb world bulk_in device_transport doing bytes]. change (CSW_SIZE =? 13) with true. cbn iota beta.
  rewrite csw_pkt_good by done. rewrite bind_ret. rewrite buf_store_ok by (cbn [length]; lia). rewrite bind_ret. cbn [negb]. eexists (_, _, _, _, _). split; [done|].
  split_and!; try done.
Qed.

(** The sum of the range wraps: block 2^32 - 1 of a disk of 3 blocks is asked
    for. *)
Lemma range_wraps stale s : usbdisk_read stale 0 (Some demo_dev) (2 ^ 32 - 1) 1 0 (replicate 512 0) s = scsi_rw10 stale 0 demo_dev false (2 ^ 32 - 1) 1 0 (replicate 512 0) s.
Proof. done. Qed.

(** The sense data's length stands behind the six bytes of the command that are
    sent: it asks for no bytes. *)
Lemma sense_length_lost tag : nth 19 (cbw_pkt tag 18 0x80 6 (splice 7 (scsi_be16 18) (new_cb 0x03))) 0 = 0 /\
  cbw_pkt tag 18 0x80 6 (splice 7 (scsi_be16 18) (new_cb 0x03)) = cbw_pkt tag 18 0x80 6 (new_cb 0x03).
Proof. done. Qed.

(** The precision of [%.8s] is ignored and the fields of an inquiry have no
    terminator: the text is read past the end of the array. *)
Theorem inquiry_overread inquiry : length inquiry = 36%nat -> Forall (fun c => c <> 0) (drop 8 inquiry) -> model_text inquiry = Fault.
Proof.
  intros _ H. unfold model_text. assert (forall l, Forall (fun c => c <> 0) l -> Klog.c_str l = Fault) as Hf; [|by rewrite (Hf _ H)].
  clear. induction 1 as [|c l Hc _ IH]; cbn [Klog.c_str]; [done|]. by rewrite (proj2 (Z.eqb_neq c 0)), IH.
Qed.

(** Precision aside, the vendor's field runs into the product's. *)
Lemma model_repeats : model_text (replicate 8 0 ++ str "ACME    Disk" ++ replicate 16 0) = Ret (str "ACME    Disk Disk").
Proof. by vm_compute. Qed.

(** A device that tells its size is entered as a disk that a transfer by name
    reaches. *)
Lemma publish_registers (s : driver device) :
  g_disk_count s = 0 -> table_ok (devices s) -> devfs_find (str "ud0") (devices s) = None -> (length (devices s) < DEVFS_MAX_DEVICES)%nat ->
  exists s', publish (replicate 8 0 ++ str "ACME    Disk" ++ replicate 16 0) 2 512 s = Ret (0, s') /\ g_disk_count s' = 1 /\
    exists d, devfs_find (str "ud0") (devices s') = Some d /\ read d = Some (mkMsc 512 3 (str "ACME    Disk Disk")) /\ blocks d = 3.
Proof.
  intros Hc Ht Hf Hl. unfold publish. rewrite Hc, model_repeats. cbn [Z.eqb Z.ltb orb].
  assert (snprintf (replicate 24 0) DEVFS_NAME_MAX (str "ud%d") [AWord (u32 0)] = Ret (str "ud0" ++ replicate 21 0, 3)) as -> by (by vm_compute).
  rewrite int32_ok, !bind_ret by lia. assert (Klog.c_str (str "ud0" ++ replicate 21 0) = Ret (str "ud0")) as -> by (by vm_compute).
  rewrite !bind_ret. assert (copy_text 23 (str "ud0") = Ret (str "ud0")) as -> by done. assert (copy_text 47 (str "ACME    Disk Disk") = Ret (str "ACME    Disk Disk")) as -> by done.
  rewrite !bind_ret. set (d := mkDev _ _ _ _ _ _ _). destruct (table_register d (devices s) Ht) as (r & g' & -> & _ & H'); [cbn; lia|cbn; lia|]. rewrite bind_ret.
  eexists. split; [done|]. split; [done|]. exists d. destruct H' as [(_ & _ & [?|Hs])|(_ & _ & H')]; [lia| |].
  - change (name d) with (str "ud0") in Hs. rewrite Hf in Hs. by destruct Hs.
  - cbn [devices]. rewrite H'. by rewrite decide_True.
Qed.
