(* ===== verification/Xhci.v ===== *)
(** * iokit/IOUSBFamily/usb3/xhci.c: rings, events, commands and transfers

    The driver and the controller share rings of transfer request blocks in
    memory.  A block belongs to the side that the ring's cycle bit names; the
    bit flips with every lap.  The driver writes requests and reads events, the
    controller the other way round.  [fetch] is the controller's side of a
    request ring as the xHCI specification describes it.  Shown: a controller
    reads exactly the requests that were queued, in order, over any number of
    laps; the driver takes exactly the events that the controller has posted and
    stops; waiting ends; and transfers that stop in the middle are not noticed. *)

From S2P Require Import Prelude Usb.

(** ** Rings *)

Definition XHCI_RING_ITEMS : nat := 16.
Definition XHCI_RING_SIZE : Z := 256.
Definition TRB_C : Z := 1.
Definition TRB_LK_TC : Z := 2.
Definition TRB_TR_IOC : Z := 32.
Definition TRB_TR_IDT : Z := 64.
Definition TR_NORMAL : Z := 1.
Definition TR_SETUP : Z := 2.
Definition TR_DATA : Z := 3.
Definition TR_STATUS : Z := 4.
Definition TR_LINK : Z := 6.
Definition CR_ENABLE_SLOT : Z := 9.
Definition CR_DISABLE_SLOT : Z := 10.
Definition CR_ADDRESS_DEVICE : Z := 11.
Definition CR_CONFIGURE_ENDPOINT : Z := 12.
Definition CR_EVALUATE_CONTEXT : Z := 13.
Definition ER_TRANSFER : Z := 32.
Definition ER_COMMAND_COMPLETE : Z := 33.
Definition ER_PORT_STATUS_CHANGE : Z := 34.
Definition CC_SUCCESS : Z := 1.
Definition XHCI_PORTSC_CCS : Z := 1.
Definition XHCI_PORTSC_PED : Z := 2.
Definition XHCI_PORTSC_PR : Z := 16.

Definition TRB_TYPE (t : Z) : Z := Z.land (Z.shiftr t 10) 0x3f.

Record xhci_trb := mkTrb { ptr_low : Z; ptr_high : Z; status : Z; trb_control : Z }.
Definition zero_trb : xhci_trb := mkTrb 0 0 0 0.

Record xhci_ring := mkRing { ring : list xhci_trb; evt : xhci_trb; eidx : Z; nidx : Z; cs : Z }.
(** Memory from the pool is zeroed. *)
Definition new_ring : xhci_ring := mkRing (replicate XHCI_RING_ITEMS zero_trb) zero_trb 0 0 1.

(** The [data] argument: a pointer, or for immediate data the bytes behind it. *)
Inductive payload := At (p : Z) | Bytes (l : list Z).

Definition xhci_trb_fill (r : xhci_ring) (data : payload) (xferlen flags : Z) : run xhci_ring :=
  old ← of_option (ring r !! Z.to_nat (nidx r));
  let imm := negb (Z.land flags TRB_TR_IDT =? 0) in
  words ← (match data with
           | Bytes l =>
               if imm && (xferlen <=? 8) && (xferlen <=? Z.of_nat (length l)) then
                 let b := splice 0 (take (Z.to_nat xferlen) l) (le_bytes 4 (ptr_low old) ++ le_bytes 4 (ptr_high old)) in
                 Ret (le_val (take 4 b), le_val (drop 4 b))
               else Fault
           | At p => if imm then Fault else Ret (u32 p, 0)
           end);
  let t := mkTrb words.1 words.2 (u32 xferlen) (Z.lor flags (if cs r =? 0 then 0 else TRB_C)) in
  Ret (mkRing (<[Z.to_nat (nidx r) := t]> (ring r)) (evt r) (eidx r) (nidx r) (cs r)).

(** [base]: the address of the ring. *)
Definition xhci_trb_queue (base : Z) (r : xhci_ring) (data : payload) (xferlen flags : Z) : run xhci_ring :=
  r ← (if Z.of_nat XHCI_RING_ITEMS - 1 <=? nidx r then
         r ← xhci_trb_fill r (At base) 0 (Z.lor (Z.shiftl TR_LINK 10) TRB_LK_TC);
         Ret (mkRing (ring r) (evt r) (eidx r) 0 (Z.lxor (cs r) 1))
       else Ret r);
  r ← xhci_trb_fill r data xferlen flags;
  Ret (mkRing (ring r) (evt r) (eidx r) (u32 (nidx r + 1)) (cs r)).

Definition xhci_ring_busy (r : xhci_ring) : bool := negb (eidx r =? nidx r).

(** ** The controller *)

(** Rings by their address; what the driver has told the controller: where it
    stands in the event ring, the doorbells.  [ms]: [tsc_ms]. *)
Record xhci := mkXhci
  { rings : gmap Z xhci_ring; cmds : Z; evts : Z; portscs : list Z; erdp : Z; doorbells : list (Z * Z); ms : Z }.
Definition set_rings (g : gmap Z xhci_ring) (s : xhci) : xhci := mkXhci g (cmds s) (evts s) (portscs s) (erdp s) (doorbells s) (ms s).
Definition set_ring_at (a : Z) (r : xhci_ring) (s : xhci) : xhci := set_rings (<[a := r]> (rings s)) s.
Definition set_ports (l : list Z) (s : xhci) : xhci := mkXhci (rings s) (cmds s) (evts s) l (erdp s) (doorbells s) (ms s).
Definition set_erdp (a : Z) (s : xhci) : xhci := mkXhci (rings s) (cmds s) (evts s) (portscs s) a (doorbells s) (ms s).

Definition xhci_doorbell (slotid value : Z) (s : xhci) : xhci :=
  mkXhci (rings s) (cmds s) (evts s) (portscs s) (erdp s) (doorbells s ++ [(slotid, value)]) (ms s).

(** [XHCI_RING] *)
Definition XHCI_RING (p : Z) : Z := Z.land (u32 p) (Z.lnot (XHCI_RING_SIZE - 1)).

Definition port_clear (portsc : Z) : Z :=
  Z.lor (Z.land (Z.land portsc (u32 (Z.lnot (Z.lor XHCI_PORTSC_PED XHCI_PORTSC_PR)))) (u32 (Z.lnot (Z.shiftl 0xf 5)))) (Z.shiftl 1 5).

(** The [switch] of [xhci_process_events]; the log is left out. *)
Definition handle_event (t : xhci_trb) (s : xhci) : run xhci :=
  let type := TRB_TYPE (trb_control t) in
  if (type =? ER_TRANSFER) || (type =? ER_COMMAND_COMPLETE) then
    let base := XHCI_RING (ptr_low t) in
    r ← of_option (rings s !! base);
    Ret (set_ring_at base (mkRing (ring r) t (u32 ((ptr_low t - base) / 16 + 1)) (nidx r) (cs r)) s)
  else if type =? ER_PORT_STATUS_CHANGE then
    let port := u32 (Z.land (Z.shiftr (ptr_low t) 24) 0xff - 1) in
    p ← of_option (portscs s !! Z.to_nat port);
    Ret (set_ports (<[Z.to_nat port := port_clear p]> (portscs s)) s)
  else Ret s.

Definition event_round (s : xhci) : run (xhci + xhci) :=
  e ← of_option (rings s !! evts s);
  let n := nidx e in
  let c := cs e in
  t ← of_option (ring e !! Z.to_nat n);
  if negb (Z.land (trb_control t) TRB_C =? (if c =? 0 then 0 else 1)) then Ret (inr s)
  else
    s ← handle_event t s;
    e ← of_option (rings s !! evts s);
    let n := u32 (n + 1) in
    let '(n, c) := if n =? Z.of_nat XHCI_RING_ITEMS then (0, if c =? 0 then 1 else 0) else (n, cs e) in
    let s := set_ring_at (evts s) (mkRing (ring e) (evt e) (eidx e) n c) s in
    Ret (inl (set_erdp (Z.lor (evts s + 16 * n) 8) s)).

Definition xhci_process_events (s : xhci) : run xhci := loop event_round s.

(** ** Waiting, commands and transfers *)

Section Hardware.
(** What happens while the driver sleeps for a number of milliseconds. *)
Context (usb_msleep : Z -> xhci -> xhci).

(** The completion code, or -1. *)
Definition wait_round (a end_ : Z) (s : xhci) : run (xhci + Z * xhci) :=
  s ← xhci_process_events s;
  r ← of_option (rings s !! a);
  if negb (xhci_ring_busy r) then Ret (inr (Z.land (Z.shiftr (status (evt r)) 24) 0xff, s))
  else if end_ <=? usb_now_ms (ms s) then Ret (inr (-1, s))
  else Ret (inl (usb_msleep 1 s)).

Definition xhci_event_wait (a timeout : Z) (s : xhci) : run (Z * xhci) := loop (wait_round a (u32 (usb_now_ms (ms s) + timeout))) s.

Definition queue_at (a : Z) (data : payload) (xferlen flags : Z) (s : xhci) : run xhci :=
  r ← of_option (rings s !! a);
  r ← xhci_trb_queue a r data xferlen flags;
  Ret (set_ring_at a r s).

(** [inctx]: the address of an input context and the second word of its slot
    context; [None] is null. *)
Definition xhci_cmd_submit (inctx : option (Z * Z)) (flags : Z) (s : xhci) : run (Z * xhci) :=
  let send p :=
    s ← queue_at (cmds s) (At p) 0 flags s;
    xhci_event_wait (cmds s) 1000 (xhci_doorbell 0 0 s) in
  match inctx with
  | None => send 0
  | Some (p, ctx1) =>
      let port := u32 (Z.land (Z.shiftr ctx1 16) 0xff - 1) in
      portsc ← of_option (portscs s !! Z.to_nat port);
      if Z.land portsc XHCI_PORTSC_CCS =? 0 then Ret (-1, s) else send p
  end.

(** The slot, or -1. *)
Definition xhci_cmd_enable_slot (s : xhci) : run (Z * xhci) :=
  '(cc, s) ← xhci_cmd_submit None (Z.shiftl CR_ENABLE_SLOT 10) s;
  if negb (cc =? CC_SUCCESS) then Ret (-1, s)
  else r ← of_option (rings s !! cmds s); Ret (Z.land (Z.shiftr (trb_control (evt r)) 24) 0xff, s).

Definition xhci_cmd (cr : Z) (inctx : option (Z * Z)) (slotid : Z) (s : xhci) : run (Z * xhci) :=
  xhci_cmd_submit inctx (Z.lor (Z.shiftl cr 10) (u32 (Z.shiftl slotid 24))) s.
Definition xhci_cmd_disable_slot (slotid : Z) := xhci_cmd CR_DISABLE_SLOT None slotid.
Definition xhci_cmd_address_device (slotid : Z) (inctx : Z * Z) := xhci_cmd CR_ADDRESS_DEVICE (Some inctx) slotid.
Definition xhci_cmd_configure_endpoint (slotid : Z) (inctx : Z * Z) := xhci_cmd CR_CONFIGURE_ENDPOINT (Some inctx) slotid.
Definition xhci_cmd_evaluate_context (slotid : Z) (inctx : Z * Z) := xhci_cmd CR_EVALUATE_CONTEXT (Some inctx) slotid.

(** [struct xhci_pipe]: the address of its ring and what the transfers use. *)
Record xhci_pipe := mkPipe { reqs : Z; slotid : Z; epid : Z; maxpacket : Z; buf : Z; bufused : bool }.

Definition xhci_xfer_setup (p : xhci_pipe) (dir : bool) (cmd : list Z) (data datalen : Z) (s : xhci) : run xhci :=
  let len := negb (datalen =? 0) in
  s ← queue_at (reqs p) (Bytes cmd) 8 (Z.lor (Z.lor (Z.shiftl TR_SETUP 10) TRB_TR_IDT) (Z.shiftl (if len then if dir then 3 else 2 else 0) 16)) s;
  s ← (if len then queue_at (reqs p) (At data) datalen (Z.lor (Z.shiftl TR_DATA 10) (Z.shiftl (if dir then 1 else 0) 16)) s else Ret s);
  s ← queue_at (reqs p) (At 0) 0 (Z.lor (Z.lor (Z.shiftl TR_STATUS 10) TRB_TR_IOC) (Z.shiftl (if dir then 0 else 1) 16)) s;
  Ret (xhci_doorbell (slotid p) (epid p) s).

Definition xhci_xfer_normal (p : xhci_pipe) (data datalen : Z) (s : xhci) : run xhci :=
  s ← queue_at (reqs p) (At data) datalen (Z.lor (Z.shiftl TR_NORMAL 10) TRB_TR_IOC) s;
  Ret (xhci_doorbell (slotid p) (epid p) s).

(** [cmd]: the eight bytes of a request; [time]: [usb_xfer_time]. *)
Definition xhci_send_pipe (p : xhci_pipe) (dir : bool) (cmd : option (list Z)) (data datalen time : Z) (s : xhci) : run (Z * xhci) :=
  let finish s := '(cc, s) ← xhci_event_wait (reqs p) time s; Ret (if cc =? CC_SUCCESS then 0 else -1, s) in
  match cmd with
  | Some req =>
      b ← of_option (req !! 1%nat);
      if b =? 5 then Ret (0, s) else s ← xhci_xfer_setup p dir req data datalen s; finish s
  | None => s ← xhci_xfer_normal p data datalen s; finish s
  end.

(** [true]: [maxpacket] bytes were copied from the pipe's buffer. *)
Definition xhci_poll_intr (p : xhci_pipe) (s : xhci) : run (bool * xhci_pipe * xhci) :=
  if negb (bufused p) then
    s ← xhci_xfer_normal p (buf p) (maxpacket p) s;
    Ret (false, mkPipe (reqs p) (slotid p) (epid p) (maxpacket p) (buf p) true, s)
  else
    s ← xhci_process_events s;
    r ← of_option (rings s !! reqs p);
    if xhci_ring_busy r then Ret (false, p, s)
    else s ← xhci_xfer_normal p (buf p) (maxpacket p) s; Ret (true, p, s).

(** ** Ports of the root hub *)

(** [USB_FULLSPEED], [USB_LOWSPEED], [USB_HIGHSPEED], [USB_SUPERSPEED] are 0 to 3. *)
Definition speed_from_xhci : list Z := [-1; 0; 1; 2; 3] ++ replicate 11 (-1).

Definition xhci_hub_detect (port : Z) (s : xhci) : run Z :=
  portsc ← of_option (portscs s !! Z.to_nat port);
  Ret (if Z.land portsc XHCI_PORTSC_CCS =? 0 then 0 else 1).

Definition reset_round (port end_ : Z) (s : xhci) : run (xhci + Z * xhci) :=
  portsc ← of_option (portscs s !! Z.to_nat port);
  if Z.land portsc XHCI_PORTSC_CCS =? 0 then Ret (inr (-1, s))
  else if negb (Z.land portsc XHCI_PORTSC_PED =? 0) then
    v ← of_option (speed_from_xhci !! Z.to_nat (Z.land (Z.shiftr portsc 10) 0xf)); Ret (inr (v, s))
  else if end_ <=? usb_now_ms (ms s) then Ret (inr (-1, s))
  else Ret (inl (usb_msleep 1 s)).

(** The speed of the device, or -1. *)
Definition xhci_hub_reset (port : Z) (s : xhci) : run (Z * xhci) :=
  portsc ← of_option (portscs s !! Z.to_nat port);
  if Z.land portsc XHCI_PORTSC_CCS =? 0 then Ret (-1, s)
  else
    let pls := Z.land (Z.shiftr portsc 5) 0xf in
    if pls =? 0 then loop (reset_round port (u32 (usb_now_ms (ms s) + 100))) s
    else if pls =? 7 then
      let s := set_ports (<[Z.to_nat port := Z.lor portsc XHCI_PORTSC_PR]> (portscs s)) s in
      loop (reset_round port (u32 (usb_now_ms (ms s) + 100))) s
    else Ret (-1, s).
End Hardware.

(** ** The controller's side of a request ring *)

(** From the block at [deq] on, as long as the cycle bit is the controller's:
    a link leads back to the start and toggles the controller's bit. *)
Fixpoint fetch (fuel : nat) (base deq ccs : Z) (l : list xhci_trb) : list xhci_trb :=
  match fuel, l !! Z.to_nat deq with
  | S fuel, Some t =>
      if Z.land (trb_control t) TRB_C =? ccs then
        if TRB_TYPE (trb_control t) =? TR_LINK then
          if ptr_low t =? base then fetch fuel base 0 (if Z.land (trb_control t) TRB_LK_TC =? 0 then ccs else 1 - ccs) l else []
        else t :: fetch fuel base (deq + 1) ccs l
      else []
  | _, _ => []
  end.

(** A request as it is queued, and the block of it in the lap [k]. *)
Record req := mkReq { r_data : payload; r_len : Z; r_flags : Z }.

Definition cycle (k : Z) : Z := (k + 1) mod 2.
Definition words (d : payload) : Z * Z := match d with At p => (u32 p, 0) | Bytes l => (le_val (take 4 l), le_val (drop 4 (take 8 l))) end.
Definition block (k : Z) (q : req) : xhci_trb := mkTrb (words (r_data q)).1 (words (r_data q)).2 (u32 (r_len q)) (Z.lor (r_flags q) (cycle k)).

(** Requests as the driver makes them: the cycle bit is the ring's, links are
    its own, immediate data has eight bytes. *)
Definition data_ok (d : payload) (len flags : Z) : Prop :=
  match d with
  | At _ => Z.land flags TRB_TR_IDT = 0
  | Bytes l => Z.land flags TRB_TR_IDT <> 0 /\ len = 8 /\ (8 <= length l)%nat
  end.
Definition req_ok (q : req) : Prop :=
  Z.land (r_flags q) TRB_C = 0 /\ TRB_TYPE (r_flags q) <> TR_LINK /\ data_ok (r_data q) (r_len q) (r_flags q).

Fixpoint queue_all (base : Z) (qs : list req) (r : xhci_ring) : run xhci_ring :=
  match qs with
  | [] => Ret r
  | q :: qs => r ← xhci_trb_queue base r (r_data q) (r_len q) (r_flags q); queue_all base qs r
  end.

Definition link_block (base k : Z) : xhci_trb := mkTrb (u32 base) 0 0 (Z.lor (Z.lor (Z.shiftl TR_LINK 10) TRB_LK_TC) (cycle k)).

(** The ring after the requests [h]: the last fifteen of them, the link of the
    last lap that was completed. *)
Record ring_ok (base : Z) (h : list req) (r : xhci_ring) : Prop :=
  { rk_length : length (ring r) = 16%nat;
    rk_nidx : nidx r = if decide (h = []) then 0 else (Z.of_nat (length h) - 1) mod 15 + 1;
    rk_cs : cs r = if decide (h = []) then 1 else cycle ((Z.of_nat (length h) - 1) / 15);
    rk_blocks : forall i q, h !! i = Some q -> (length h <= i + 15)%nat -> ring r !! (i mod 15)%nat = Some (block (Z.of_nat i / 15) q);
    rk_fresh : forall j, (length h <= j < 15)%nat -> ring r !! j = Some zero_trb;
    rk_link : ring r !! 15%nat = Some (if (length h <=? 15)%nat then zero_trb else link_block base ((Z.of_nat (length h) - 1) / 15 - 1)) }.

Lemma new_ring_ok base : ring_ok base [] new_ring.
Proof.
  constructor; try done. intros j Hj. unfold new_ring, ring, XHCI_RING_ITEMS. apply lookup_replicate. split; [done|lia].
Qed.

Lemma trb_fill_spec r d len flags :
  (Z.to_nat (nidx r) < length (ring r))%nat -> data_ok d len flags ->
  xhci_trb_fill r d len flags =
    Ret (mkRing (<[Z.to_nat (nidx r) := mkTrb (words d).1 (words d).2 (u32 len) (Z.lor flags (if cs r =? 0 then 0 else 1))]> (ring r)) (evt r) (eidx r) (nidx r) (cs r)).
Proof.
  intros Hn Hd. unfold data_ok in Hd. unfold xhci_trb_fill. destruct (lookup_lt_is_Some_2 _ _ Hn) as [old ->]. cbn [of_option]. rewrite bind_ret. destruct d as [p|l].
  - rewrite Hd. cbn [Z.eqb negb]. by rewrite bind_ret.
  - destruct Hd as (Hi & -> & Hl). rewrite (proj2 (Z.eqb_neq (Z.land flags TRB_TR_IDT) 0)) by done. cbn [negb andb]. rewrite (proj2 (Z.leb_le 8 (Z.of_nat (length l)))) by lia. cbn [Z.leb Z.compare Pos.compare Pos.compare_cont andb].
    rewrite bind_ret. change (Z.to_nat 8) with 8%nat.
    assert (splice 0 (take 8 l) (le_bytes 4 (ptr_low old) ++ le_bytes 4 (ptr_high old)) = take 8 l) as ->.
    { unfold splice. rewrite take_0, app_nil_l, Nat.add_0_l, length_take, Nat.min_l by lia. rewrite drop_ge, app_nil_r; [done|]. by rewrite length_app, !length_le_bytes. }
    cbn [fst snd words]. by rewrite take_take, Nat.min_l by lia.
Qed.

Lemma cycle_cases k : (cycle k = 0 /\ cycle (k + 1) = 1) \/ (cycle k = 1 /\ cycle (k + 1) = 0).
Proof. unfold cycle. Z.div_mod_to_equations. lia. Qed.

Lemma cycle_bit k : (if cycle k =? 0 then 0 else 1) = cycle k.
Proof. destruct (cycle_cases k) as [[-> _]|[-> _]]; done. Qed.

Lemma cycle_flip k : Z.lxor (cycle k) 1 = cycle (k + 1).
Proof. destruct (cycle_cases k) as [[-> ->]|[-> ->]]; done. Qed.

(** The ring when the next block is about to be written, in the lap of it. *)
Record ring_ready (base : Z) (h : list req) (r : xhci_ring) : Prop :=
  { rr_length : length (ring r) = 16%nat;
    rr_nidx : nidx r = Z.of_nat (length h) mod 15;
    rr_cs : cs r = cycle (Z.of_nat (length h) / 15);
    rr_blocks : forall i q, h !! i = Some q -> (length h <= i + 15)%nat -> ring r !! (i mod 15)%nat = Some (block (Z.of_nat i / 15) q);
    rr_fresh : forall j, (length h <= j < 15)%nat -> ring r !! j = Some zero_trb;
    rr_link : ring r !! 15%nat = Some (if (length h <? 15)%nat then zero_trb else link_block base (Z.of_nat (length h) / 15 - 1)) }.

Lemma wrap_spec base h r :
  ring_ok base h r -> exists r', (if Z.of_nat XHCI_RING_ITEMS - 1 <=? nidx r then
      r ← xhci_trb_fill r (At base) 0 (Z.lor (Z.shiftl TR_LINK 10) TRB_LK_TC); Ret (mkRing (ring r) (evt r) (eidx r) 0 (Z.lxor (cs r) 1))
    else Ret r) = Ret r' /\ ring_ready base h r'.
Proof.
  intros [Hl Hn Hc Hb Hf Hk]. change (Z.of_nat XHCI_RING_ITEMS - 1) with 15. set (P := Z.of_nat (length h)) in *.
  destruct (decide (h = [])) as [->|Hne].
  { rewrite Hn. exists r. split; [done|]. constructor; cbn; try done. }
  assert (0 < P) as HP by (subst P; destruct h; [done|cbn; lia]). pose proof (Z.mod_pos_bound (P - 1) 15 ltac:(lia)) as Hm.
  destruct (Z.leb_spec 15 (nidx r)) as [Hw|Hw].
  - assert (P mod 15 = 0 /\ P / 15 = (P - 1) / 15 + 1) as [E0 E1] by (Z.div_mod_to_equations; lia).
    rewrite trb_fill_spec, bind_ret by (done || lia). replace (Z.to_nat (nidx r)) with 15%nat by lia.
    eexists. split; [done|]. cbn [ring nidx cs]. constructor; cbn [ring nidx cs].
    + by rewrite length_insert.
    + fold P. by rewrite E0.
    + fold P. by rewrite Hc, cycle_flip, E1.
    + intros i q Hi Hl'. rewrite list_lookup_insert_ne by (pose proof (Nat.mod_upper_bound i 15); lia). by apply Hb.
    + intros j Hj. rewrite list_lookup_insert_ne by lia. by apply Hf.
    + rewrite list_lookup_insert_eq by lia. rewrite (proj2 (Nat.ltb_ge _ _)) by (Z.div_mod_to_equations; lia). fold P. rewrite E1, Z.add_simpl_r, Hc. unfold link_block. by rewrite <- cycle_bit at 2.
  - assert (P mod 15 = nidx r /\ P / 15 = (P - 1) / 15) as [E0 E1] by (Z.div_mod_to_equations; lia).
    exists r. split; [done|]. constructor; try done; fold P; [by rewrite E1| ]. rewrite Hk, E1. assert (P <> 15) by (intros E; assert ((P - 1) mod 15 = 14) by (by rewrite E); lia).
    destruct (Nat.leb_spec (length h) 15), (Nat.ltb_spec (length h) 15); done || (exfalso; lia).
Qed.

Lemma queue_spec base h r q :
  ring_ok base h r -> req_ok q -> exists r', xhci_trb_queue base r (r_data q) (r_len q) (r_flags q) = Ret r' /\ ring_ok base (h ++ [q]) r'.
Proof.
  intros Hok (_ & _ & Hd). unfold xhci_trb_queue. destruct (wrap_spec base h r Hok) as (r1 & -> & [Hl Hn Hc Hb Hf Hk]). rewrite bind_ret.
  set (P := Z.of_nat (length h)) in *. pose proof (Z.mod_pos_bound P 15 ltac:(lia)) as Hm. rewrite trb_fill_spec, bind_ret by (done || lia).
  eexists. split; [done|]. cbn [ring nidx cs]. rewrite Hc, cycle_bit, Hn. assert (Z.of_nat (length (h ++ [q])) = P + 1) as EL by (rewrite length_app; cbn; lia).
  assert (Z.to_nat (P mod 15) = (length h mod 15)%nat) as Es by (subst P; rewrite <- (Nat2Z.inj_mod _ 15), Nat2Z.id; done).
  constructor; cbn [ring nidx cs]; rewrite ?EL, ?Z.add_simpl_r, ?Es.
  - by rewrite length_insert.
  - rewrite decide_False by (by destruct h). apply u32_small. lia.
  - by rewrite decide_False by (by destruct h).
  - intros i x Hi Hle. rewrite length_app in Hle. cbn in Hle. destruct (decide (i = length h)) as [->|Hne].
    + rewrite list_lookup_middle in Hi by done. injection Hi as <-. rewrite list_lookup_insert_eq by (pose proof (Nat.mod_upper_bound (length h) 15); lia). done.
    + apply lookup_lt_Some in Hi as Hlt. rewrite length_app in Hlt. cbn in Hlt. rewrite lookup_app_l in Hi by lia.
      rewrite list_lookup_insert_ne; [apply Hb; [done|lia]|]. intros E. pose proof (Nat.div_mod_eq i 15). pose proof (Nat.div_mod_eq (length h) 15). lia.
  - intros j Hj. rewrite length_app in Hj. cbn in Hj. rewrite Nat.mod_small by lia. rewrite list_lookup_insert_ne by lia. apply Hf. lia.
  - rewrite list_lookup_insert_ne by (pose proof (Nat.mod_upper_bound (length h) 15); lia). rewrite Hk, length_app. cbn [length].
    destruct (Nat.ltb_spec (length h) 15), (Nat.leb_spec (length h + 1) 15); done || lia.
Qed.

Lemma queue_all_spec base h qs r :
  ring_ok base h r -> Forall req_ok qs -> exists r', queue_all base qs r = Ret r' /\ ring_ok base (h ++ qs) r'.
Proof.
  intros Hok Hqs. revert h r Hok. induction Hqs as [|q qs Hq _ IH]; intros h r Hok; cbn [queue_all]; [rewrite app_nil_r; by eexists|].
  destruct (queue_spec base h r q Hok Hq) as (r1 & -> & H1). rewrite bind_ret. destruct (IH _ _ H1) as (r' & -> & H'). rewrite <- app_assoc in H'. by eexists.
Qed.

Fixpoint blocks_from (i : nat) (l : list req) : list xhci_trb :=
  match l with [] => [] | q :: l => block (Z.of_nat i / 15) q :: blocks_from (S i) l end.

Lemma block_bits flags k : Z.land flags TRB_C = 0 -> Z.land (Z.lor flags (cycle k)) TRB_C = cycle k /\ TRB_TYPE (Z.lor flags (cycle k)) = TRB_TYPE flags.
Proof.
  intros H. rewrite Z.land_lor_distr_l, H, Z.lor_0_l. unfold TRB_TYPE. rewrite Z.shiftr_lor. destruct (cycle_cases k) as [[-> _]|[-> _]]; cbn [Z.land Z.shiftr Z.shiftl Pos.iter Z.div2 Pos.div2]; by rewrite Z.lor_0_r.
Qed.

Lemma cycle_other k j : j = k - 1 -> cycle j <> cycle k.
Proof. intros ->. unfold cycle. Z.div_mod_to_equations. lia. Qed.

(** The controller at the place of the next request, which is not there yet. *)
Lemma fetch_stops base h r fuel :
  ring_ok base h r -> Forall req_ok h -> fetch fuel base (Z.of_nat (length h) mod 15) (cycle (Z.of_nat (length h) / 15)) (ring r) = [].
Proof.
  intros [Hl _ _ Hb Hf _] Hq. destruct fuel as [|fuel]; [done|]. cbn [fetch].
  assert (Z.to_nat (Z.of_nat (length h) mod 15) = (length h mod 15)%nat) as -> by (rewrite <- (Nat2Z.inj_mod _ 15); apply Nat2Z.id).
  destruct (Nat.lt_ge_cases (length h) 15) as [Hlt|Hge].
  { rewrite Nat.mod_small by done. rewrite Hf by lia. rewrite Z.div_small by lia. done. }
  destruct (lookup_lt_is_Some_2 h (length h - 15)) as [q Eq]; [lia|]. assert (length h mod 15 = (length h - 15) mod 15)%nat as ->.
  { rewrite <- (Nat.Div0.mod_add (length h - 15) 1 15). f_equal. lia. }
  rewrite (Hb _ q Eq) by lia. cbn [block trb_control]. rewrite Forall_lookup in Hq. destruct (Hq _ _ Eq) as (Hc & _). destruct (block_bits _ (Z.of_nat (length h - 15) / 15) Hc) as [-> _].
  rewrite (proj2 (Z.eqb_neq _ _)); [done|]. apply cycle_other. replace (Z.of_nat (length h - 15)) with (Z.of_nat (length h) + (-1) * 15) by lia. rewrite Z.div_add; lia.
Qed.

(** The controller behind the last block of a lap. *)
Lemma fetch_link base h r fuel C :
  ring_ok base h r -> u32 base = base -> (C < length h <= C + 15)%nat -> Z.of_nat C mod 15 = 14 ->
  fetch (S fuel) base 15 (cycle (Z.of_nat C / 15)) (ring r) =
    if decide (length h = C + 1)%nat then [] else fetch fuel base 0 (cycle (Z.of_nat (C + 1) / 15)) (ring r).
Proof.
  intros [_ _ _ _ _ Hk] Hbase HC Hm. cbn [fetch]. change (Z.to_nat 15) with 15%nat. rewrite Hk. set (k := Z.of_nat C / 15).
  assert (Z.of_nat (C + 1) / 15 = k + 1) as -> by (subst k; Z.div_mod_to_equations; lia). destruct (decide (length h = C + 1)%nat) as [E|Hne].
  - destruct (Nat.leb_spec (length h) 15) as [H15|H15].
    + assert (k = 0) as -> by (subst k; Z.div_mod_to_equations; lia). done.
    + cbn [link_block trb_control]. destruct (block_bits (Z.lor (Z.shiftl TR_LINK 10) TRB_LK_TC) ((Z.of_nat (length h) - 1) / 15 - 1) eq_refl) as [-> _].
      rewrite (proj2 (Z.eqb_neq _ _)); [done|]. apply cycle_other. subst k. do 2 f_equal. lia.
  - rewrite (proj2 (Nat.leb_gt _ _)) by (Z.div_mod_to_equations; lia). cbn [link_block trb_control ptr_low].
    assert ((Z.of_nat (length h) - 1) / 15 - 1 = k) as -> by (subst k; Z.div_mod_to_equations; lia).
    destruct (block_bits (Z.lor (Z.shiftl TR_LINK 10) TRB_LK_TC) k eq_refl) as [-> ->]. rewrite Z.eqb_refl, Hbase. cbn [TRB_TYPE TR_LINK TRB_LK_TC]. rewrite !Z.eqb_refl.
    destruct (cycle_cases k) as [[-> ->]|[-> ->]]; done.
Qed.

Lemma fetch_spec base h r : ring_ok base h r -> Forall req_ok h -> u32 base = base -> forall n C fuel,
  length h = (C + n)%nat -> (n <= 15)%nat -> (2 * n < fuel)%nat ->
  fetch fuel base (Z.of_nat C mod 15) (cycle (Z.of_nat C / 15)) (ring r) = blocks_from C (drop C h).
Proof.
  intros Hok Hq Hbase n. induction n as [|n IH]; intros C fuel HC Hn Hfuel.
  { rewrite Nat.add_0_r in HC. subst C. rewrite drop_all. by apply fetch_stops. }
  destruct fuel as [|[|fuel]]; [lia|lia|]. destruct (lookup_lt_is_Some_2 h C) as [q Eq]; [lia|]. rewrite (drop_S h q C Eq). cbn [blocks_from].
  pose proof Hok as [_ _ _ Hb _ _]. rewrite Forall_lookup in Hq. destruct (Hq _ _ Eq) as (Hc & Ht & _).
  assert (Z.to_nat (Z.of_nat C mod 15) = (C mod 15)%nat) as EC by (rewrite <- (Nat2Z.inj_mod _ 15); apply Nat2Z.id).
  change (fetch (S (S fuel)) base (Z.of_nat C mod 15) (cycle (Z.of_nat C / 15)) (ring r)) with
    (match ring r !! Z.to_nat (Z.of_nat C mod 15) with
     | Some t => if Z.land (trb_control t) TRB_C =? cycle (Z.of_nat C / 15) then
         if TRB_TYPE (trb_control t) =? TR_LINK then if ptr_low t =? base then fetch (S fuel) base 0 (if Z.land (trb_control t) TRB_LK_TC =? 0 then cycle (Z.of_nat C / 15) else 1 - cycle (Z.of_nat C / 15)) (ring r) else []
         else t :: fetch (S fuel) base (Z.of_nat C mod 15 + 1) (cycle (Z.of_nat C / 15)) (ring r) else []
     | None => [] end).
  rewrite EC, (Hb C q Eq) by lia. cbn [block trb_control]. destruct (block_bits _ (Z.of_nat C / 15) Hc) as [-> ->]. rewrite Z.eqb_refl, (proj2 (Z.eqb_neq _ _)) by done. f_equal.
  destruct (decide (Z.of_nat C mod 15 = 14)) as [E14|Hne].
  - rewrite E14. change (14 + 1) with 15. rewrite (fetch_link base h r fuel C Hok Hbase) by (done || lia). case_decide as Hd.
    + rewrite drop_ge by lia. done.
    + rewrite <- (IH (S C) fuel) by lia. replace (S C) with (C + 1)%nat by lia. f_equal. Z.div_mod_to_equations. lia.
  - rewrite <- (IH (S C) (S fuel)) by lia. f_equal; [|f_equal]; Z.div_mod_to_equations; lia.
Qed.

(** C19: Request rings.  Whatever requests are queued on a fresh ring, over any
    number of laps, queueing never fails; and a controller that has taken the
    first [C] of them, at most fifteen behind, reads exactly the others, in
    their order, and stops. *)
Theorem xhci_ring_fifo base qs C :
  u32 base = base -> Forall req_ok qs -> (C <= length qs <= C + 15)%nat ->
  exists r, queue_all base qs new_ring = Ret r /\
    fetch 32 base (Z.of_nat C mod 15) (cycle (Z.of_nat C / 15)) (ring r) = blocks_from C (drop C qs).
Proof.
  intros Hb Hq HC. destruct (queue_all_spec base [] qs new_ring (new_ring_ok base) Hq) as (r & -> & Hok). exists r. split; [done|].
  apply (fetch_spec base qs r Hok Hq Hb (length qs - C)); lia.
Qed.

(** Twenty requests, seventeen of them taken: the ring has wrapped. *)
Lemma xhci_ring_fifo_witness :
  exists r, queue_all 0x1000 ((fun i => mkReq (At (0x2000 + i)) 8 (Z.lor (Z.shiftl TR_NORMAL 10) TRB_TR_IOC)) <$> seqZ 0 20) new_ring = Ret r /\
    fetch 32 0x1000 (Z.of_nat 17 mod 15) (cycle (Z.of_nat 17 / 15)) (ring r) =
      blocks_from 17 (drop 17 ((fun i => mkReq (At (0x2000 + i)) 8 (Z.lor (Z.shiftl TR_NORMAL 10) TRB_TR_IOC)) <$> seqZ 0 20)).
Proof.
  apply xhci_ring_fifo; [done| |split; apply Nat.leb_le; by vm_compute].
  apply Forall_fmap, Forall_forall. intros i _. by split_and!.
Defined.

(** ** The driver's side of the event ring *)

Definition is_completion (t : xhci_trb) : bool := (TRB_TYPE (trb_control t) =? ER_TRANSFER) || (TRB_TYPE (trb_control t) =? ER_COMMAND_COMPLETE).

(** An event tells of a block in a ring that there is, or of a port. *)
Definition event_ok (s : xhci) (t : xhci_trb) : Prop :=
  if is_completion t then XHCI_RING (ptr_low t) <> evts s /\ is_Some (rings s !! XHCI_RING (ptr_low t))
  else TRB_TYPE (trb_control t) = ER_PORT_STATUS_CHANGE -> 0 < Z.land (Z.shiftr (ptr_low t) 24) 0xff <= Z.of_nat (length (portscs s)).

(** The place and the bit of the [j]th event behind the driver's position. *)
Definition place (e : xhci_ring) (j : nat) : Z := (nidx e + Z.of_nat j) mod 16.
Definition lap_bit (e : xhci_ring) (j : nat) : Z := if nidx e + Z.of_nat j <? 16 then cs e else 1 - cs e.

(** The controller has posted [es]: they lie in the ring from the driver's
    position on, with the bit of their lap, and the next block is old. *)
Record posted (es : list xhci_trb) (e : xhci_ring) : Prop :=
  { po_nidx : 0 <= nidx e < 16;
    po_cs : cs e = 0 \/ cs e = 1;
    po_room : (length es < 16)%nat;
    po_events : forall j t, es !! j = Some t -> ring e !! Z.to_nat (place e j) = Some t /\ Z.land (trb_control t) TRB_C = lap_bit e j;
    po_next : exists t, ring e !! Z.to_nat (place e (length es)) = Some t /\ Z.land (trb_control t) TRB_C <> lap_bit e (length es) }.

(** A ring after events: the last completion in it counts. *)
Definition noted (a : Z) (r : xhci_ring) (t : xhci_trb) : xhci_ring :=
  if is_completion t && (XHCI_RING (ptr_low t) =? a) then mkRing (ring r) t (u32 ((ptr_low t - a) / 16 + 1)) (nidx r) (cs r) else r.
Definition after (a : Z) (es : list xhci_trb) (r : xhci_ring) : xhci_ring := foldl (noted a) r es.

Definition moved (e : xhci_ring) (j : nat) : xhci_ring := mkRing (ring e) (evt e) (eidx e) (place e j) (lap_bit e j).

(** The state when the first events [es] have been taken. *)
Record taken (s : xhci) (e : xhci_ring) (es : list xhci_trb) (s' : xhci) : Prop :=
  { ta_evts : evts s' = evts s;
    ta_ring : rings s' !! evts s = Some (moved e (length es));
    ta_rings : forall a, a <> evts s -> rings s' !! a = after a es <$> rings s !! a;
    ta_ports : length (portscs s') = length (portscs s);
    ta_rest : cmds s' = cmds s /\ doorbells s' = doorbells s /\ ms s' = ms s }.

Lemma handle_spec s e es t s1 :
  taken s e es s1 -> event_ok s t ->
  exists s2, handle_event t s1 = Ret s2 /\ evts s2 = evts s /\ rings s2 !! evts s = Some (moved e (length es)) /\
    (forall a, a <> evts s -> rings s2 !! a = after a (es ++ [t]) <$> rings s !! a) /\ length (portscs s2) = length (portscs s) /\
    cmds s2 = cmds s /\ doorbells s2 = doorbells s /\ ms s2 = ms s.
Proof.
  intros [E1 E2 E3 E4 E5] Ht. unfold handle_event. fold (is_completion t). unfold event_ok in Ht.
  assert (forall a, after a (es ++ [t]) <$> rings s !! a = (fun r => noted a r t) <$> (after a es <$> rings s !! a)) as Ea.
  { intros a. unfold after. destruct (rings s !! a); cbn; [|done]. by rewrite foldl_app. }
  destruct (is_completion t) eqn:Ec.
  - destruct Ht as [Hne [r Hr]]. set (b := XHCI_RING (ptr_low t)) in *. rewrite (E3 b Hne), Hr. cbn [fmap option_fmap option_map of_option]. rewrite bind_ret. eexists. split; [done|]. cbn.
    split_and!; try done; try tauto; [by rewrite lookup_insert_ne|]. intros a Ha. rewrite Ea. destruct (decide (a = b)) as [->|Hab].
    + rewrite lookup_insert_eq, Hr. cbn. unfold noted. rewrite Ec. fold b. by rewrite Z.eqb_refl.
    + rewrite lookup_insert_ne, E3 by done. destruct (rings s !! a); cbn; [|done]. unfold noted. fold b. by rewrite (proj2 (Z.eqb_neq b a)), andb_false_r.
  - assert (forall a, a <> evts s -> rings s1 !! a = after a (es ++ [t]) <$> rings s !! a) as H3.
    { intros a Ha. rewrite Ea, E3 by done. destruct (rings s !! a); cbn; [|done]. unfold noted. by rewrite Ec. }
    destruct (Z.eqb_spec (TRB_TYPE (trb_control t)) ER_PORT_STATUS_CHANGE) as [Ep|_]; [|exists s1; split; [done|]; tauto].
    specialize (Ht Ep). pose proof (land_bound (Z.shiftr (ptr_low t) 24) 0xff 8 ltac:(lia) ltac:(lia)). rewrite u32_small by lia. destruct (lookup_lt_is_Some_2 (portscs s1) (Z.to_nat (Z.land (Z.shiftr (ptr_low t) 24) 255 - 1))) as [p ->]; [lia|]. cbn [of_option]. rewrite bind_ret.
    eexists. split; [done|]. cbn [set_ports evts rings portscs cmds doorbells ms]. rewrite length_insert. tauto.
Qed.

Lemma place_next e j : 0 <= nidx e < 16 -> cs e = 0 \/ cs e = 1 -> (j < 15)%nat ->
  (if u32 (place e j + 1) =? 16 then (0, if lap_bit e j =? 0 then 1 else 0) else (u32 (place e j + 1), lap_bit e j)) = (place e (S j), lap_bit e (S j)).
Proof.
  intros Hn Hc Hj. unfold place, lap_bit. pose proof (Z.mod_pos_bound (nidx e + Z.of_nat j) 16 ltac:(lia)). rewrite u32_small by lia.
  destruct (Z.eqb_spec ((nidx e + Z.of_nat j) mod 16 + 1) 16) as [E|E].
  - assert (nidx e + Z.of_nat j = 15) as E15 by (Z.div_mod_to_equations; lia). rewrite E15. replace (nidx e + Z.of_nat (S j)) with 16 by lia. cbn. destruct Hc as [-> | ->]; done.
  - f_equal; [Z.div_mod_to_equations; lia|]. destruct (Z.ltb_spec (nidx e + Z.of_nat j) 16), (Z.ltb_spec (nidx e + Z.of_nat (S j)) 16); try done; Z.div_mod_to_equations; lia.
Qed.

Lemma lap_bit_cases e j : cs e = 0 \/ cs e = 1 -> (if lap_bit e j =? 0 then 0 else 1) = lap_bit e j.
Proof. unfold lap_bit. intros [-> | ->]; by destruct (nidx e + Z.of_nat j <? 16). Qed.

(** Events.  When the controller has posted events, over the end of the ring
    or not, the driver takes exactly these, in order, and returns: each request
    ring has noted the last completion in it, the event ring stands at the first
    block that is not posted, and the controller has been told so. *)
Theorem process_events_takes s e es :
  rings s !! evts s = Some e -> posted es e -> es <> [] -> Forall (event_ok s) es ->
  exists s', xhci_process_events s = Ret s' /\ taken s e es s' /\ erdp s' = Z.lor (evts s + 16 * place e (length es)) 8.
Proof.
  intros He [Hn Hc Hr Hev Hnext] Hne Hok. unfold xhci_process_events.
  assert (forall j, (j <= length es)%nat -> (place e j - nidx e) mod 16 = Z.of_nat j) as Hpl.
  { intros j Hj. unfold place. Z.div_mod_to_equations. lia. }
  loop_with (fun s1 => exists j, (j <= length es)%nat /\ taken s e (take j es) s1 /\ (j <> 0%nat -> erdp s1 = Z.lor (evts s + 16 * place e j) 8))
    (fun s' => taken s e es s' /\ erdp s' = Z.lor (evts s + 16 * place e (length es)) 8)
    (fun s1 => match rings s1 !! evts s with Some r => Z.of_nat (length es) - (nidx r - nidx e) mod 16 | None => 0 end) as (s' & -> & H').
  - intros s1 (j & Hj & Ht & Hd). pose proof Ht as [E1 E2 E3 E4 E5]. rewrite length_take, Nat.min_l in E2 by done. unfold event_round. rewrite E1, E2. cbn [of_option]. rewrite bind_ret. cbn [nidx cs ring moved].
    rewrite (Hpl j) by done. destruct (decide (j = length es)) as [->|Hlt].
    { right. destruct Hnext as (t & -> & Hbit). cbn [of_option]. rewrite bind_ret, lap_bit_cases, (proj2 (Z.eqb_neq _ _)) by done. cbn [negb]. rewrite take_ge in Ht by done. eexists. split; [done|]. split; [done|].
      apply Hd. by destruct es. }
    left. destruct (lookup_lt_is_Some_2 es j) as [t Et]; [lia|]. destruct (Hev j t Et) as [-> Hbit]. cbn [of_option]. rewrite bind_ret, lap_bit_cases, Hbit, Z.eqb_refl by done. cbn [negb].
    rewrite Forall_lookup in Hok. destruct (handle_spec s e (take j es) t s1 Ht (Hok _ _ Et)) as (s2 & -> & F1 & F2 & F3 & F4 & F5). rewrite length_take, Nat.min_l in F2 by done.
    rewrite bind_ret, F1, F2. cbn [of_option]. rewrite bind_ret. cbn [cs moved ring evt eidx nidx]. change (Z.of_nat XHCI_RING_ITEMS) with 16. rewrite place_next by (done || lia).
    eexists. split; [done|]. cbn [set_erdp set_ring_at set_rings rings]. rewrite lookup_insert_eq. cbn [nidx]. rewrite (Hpl (S j)) by lia. split; [|lia].
    exists (S j). split; [lia|]. split; [|intros _; cbn; by rewrite F1]. constructor; cbn [evts rings portscs cmds doorbells ms set_erdp set_ring_at set_rings]; try done.
    + rewrite lookup_insert_eq, length_take, Nat.min_l by lia. done.
    + intros a Ha. rewrite lookup_insert_ne by done. by rewrite (take_S_r _ _ _ Et), F3.
  - exists 0%nat. split; [lia|]. split; [|done]. constructor; try done.
    + rewrite He. cbn [take length]. unfold moved, place, lap_bit. rewrite Z.add_0_r, Z.mod_small, (proj2 (Z.ltb_lt _ _)) by lia. by destruct e.
    + intros a Ha. cbn [take after foldl]. by destruct (rings s !! a).
  - rewrite He, Z.sub_diag, Z.mod_0_l by lia. lia.
  - by exists s'.
Qed.

(** Two events over the end of the ring, for a transfer and for a command. *)
Definition demo_events : list xhci_trb :=
  [mkTrb 0x2020 0 (Z.shiftl CC_SUCCESS 24) (Z.lor (Z.shiftl ER_TRANSFER 10) 1); mkTrb 0x3000 0 (Z.shiftl CC_SUCCESS 24) (Z.shiftl ER_COMMAND_COMPLETE 10)].
Definition demo_evts : xhci_ring :=
  mkRing (<[15%nat := mkTrb 0x2020 0 (Z.shiftl CC_SUCCESS 24) (Z.lor (Z.shiftl ER_TRANSFER 10) 1)]>
    (<[0%nat := mkTrb 0x3000 0 (Z.shiftl CC_SUCCESS 24) (Z.shiftl ER_COMMAND_COMPLETE 10)]> (replicate 16 (mkTrb 0 0 0 1)))) zero_trb 0 15 1.
Definition demo_xhci : xhci := mkXhci (<[0x1000 := demo_evts]> (<[0x2000 := new_ring]> (<[0x3000 := new_ring]> ∅))) 0x3000 0x1000 [0; 0] 0 [] 7.

Lemma process_events_takes_witness :
  exists s', xhci_process_events demo_xhci = Ret s' /\ taken demo_xhci demo_evts demo_events s' /\
    erdp s' = Z.lor (evts demo_xhci + 16 * place demo_evts (length demo_events)) 8.
Proof.
  apply process_events_takes; [done| |done|].
  - constructor; [cbn; lia|by right|cbn; lia| |by eexists].
    intros [|[|j]] t Hj; [injection Hj as <-; done|injection Hj as <-; done|done].
  - repeat constructor; cbn; by try eexists.
Defined.

(** Nothing is posted: nothing happens. *)
Lemma process_events_idle s e : rings s !! evts s = Some e -> posted [] e -> xhci_process_events s = Ret s.
Proof.
  intros He [Hn Hc _ _ (t & Ht & Hb)]. unfold xhci_process_events. loop_with (fun s1 => s1 = s) (fun s' => s' = s) (fun _ => 0) as (s' & -> & ->); [|done..].
  intros s1 ->. right. exists s. split; [|done]. unfold event_round. rewrite He. cbn [of_option]. rewrite bind_ret. cbn [length] in Ht, Hb.
  unfold place, lap_bit in *. rewrite Z.add_0_r, Z.mod_small in Ht by lia. rewrite Z.add_0_r, (proj2 (Z.ltb_lt _ _)) in Hb by lia. rewrite Ht. cbn [of_option]. rewrite bind_ret.
  assert ((if cs e =? 0 then 0 else 1) = cs e) as -> by (by destruct Hc as [-> | ->]). by rewrite (proj2 (Z.eqb_neq _ _)).
Qed.

Lemma process_events_returns s e es :
  rings s !! evts s = Some e -> posted es e -> Forall (event_ok s) es -> exists s', xhci_process_events s = Ret s' /\ taken s e es s'.
Proof.
  intros He Hp Hok. destruct (decide (es = [])) as [->|Hne].
  - exists s. split; [by eapply process_events_idle|]. pose proof Hp as [Hn _ _ _ _]. constructor; try done.
    + rewrite He. unfold moved, place, lap_bit. cbn [length]. rewrite Z.add_0_r, Z.mod_small, (proj2 (Z.ltb_lt _ _)) by lia. by destruct e.
    + intros a _. by destruct (rings s !! a).
  - destruct (process_events_takes s e es He Hp Hne Hok) as (s' & ? & ? & _). by exists s'.
Qed.

(** ** Waiting *)

(** A completion of the ring's last block ends the wait for it; one of an
    earlier block, as after an error in the middle of a transfer, does not. *)
Lemma completion_noticed a r t i :
  is_completion t = true -> XHCI_RING (ptr_low t) = a -> ptr_low t = a + 16 * i -> 0 <= i < 16 ->
  xhci_ring_busy (noted a r t) = negb (nidx r =? i + 1).
Proof.
  intros Hc Hr Hp Hi. unfold noted, xhci_ring_busy. rewrite Hc, Hr, Z.eqb_refl. cbn [andb eidx nidx]. rewrite Hp. replace (a + 16 * i - a) with (i * 16) by lia. rewrite Z.div_mul, u32_small by lia.
  by rewrite Z.eqb_sym.
Qed.

Section Waiting.
Context (usb_msleep : Z -> xhci -> xhci) (a : Z) (live : xhci -> Prop).
(** While the driver waits the event ring stays readable, the ring stays, and
    the clock goes on. *)
Hypothesis live_ring : forall s, live s -> a <> evts s /\ is_Some (rings s !! a) /\
  exists e es, rings s !! evts s = Some e /\ posted es e /\ Forall (event_ok s) es.
Hypothesis live_sleep : forall s s', live s -> xhci_process_events s = Ret s' -> live (usb_msleep 1 s') /\ slept 1 (ms s') (ms (usb_msleep 1 s')).

(** Waiting ends, with the code of the completion or with -1 after the time. *)
Lemma event_wait_ends timeout s :
  live s -> 0 <= timeout -> usb_now_ms (ms s) + timeout + 1001 < 2 ^ 32 ->
  exists rc s' r, xhci_event_wait usb_msleep a timeout s = Ret (rc, s') /\ rings s' !! a = Some r /\
    (xhci_ring_busy r = false /\ rc = Z.land (Z.shiftr (status (evt r)) 24) 0xff \/ xhci_ring_busy r = true /\ rc = -1 /\ ms s + timeout <= ms s').
Proof.
  intros Hl Ht Hw. unfold xhci_event_wait. pose proof (usb_now_range (ms s)). rewrite u32_small by lia. set (end_ := usb_now_ms (ms s) + timeout) in *.
  loop_with (fun s1 => live s1 /\ ms s <= ms s1 <= ms s + timeout + 1001) (fun '(rc, s') => exists r, rings s' !! a = Some r /\
      (xhci_ring_busy r = false /\ rc = Z.land (Z.shiftr (status (evt r)) 24) 0xff \/ xhci_ring_busy r = true /\ rc = -1 /\ ms s + timeout <= ms s'))
    (fun s1 => Z.max 0 (ms s + timeout - ms s1)) as ([rc s'] & -> & r & Hr & H').
  - intros s1 [H1 Hms]. destruct (live_ring s1 H1) as (Hne & [r Hr] & e & es & He & Hp & Hok). destruct (process_events_returns s1 e es He Hp Hok) as (s2 & E2 & Ht2).
    unfold wait_round. rewrite E2, bind_ret. rewrite (ta_rings _ _ _ _ Ht2 a Hne), Hr. cbn [fmap option_fmap option_map of_option]. rewrite bind_ret.
    pose proof (ta_rings _ _ _ _ Ht2 a Hne) as Hra. rewrite Hr in Hra. cbn in Hra. destruct (ta_rest _ _ _ _ Ht2) as (_ & _ & Em). rewrite (usb_now_later (ms s) (ms s2)) by lia.
    destruct (xhci_ring_busy (after a es r)) eqn:Eb; cbn [negb]; [|right; eexists (_, _); split; [done|]; exists (after a es r); split; [done|]; by left].
    destruct (Z.leb_spec end_ (usb_now_ms (ms s) + (ms s2 - ms s))) as [Hend|Hend]; [right; eexists (_, _); split; [done|]; exists (after a es r); split; [done|]; right; split_and!; [done..|lia]|].
    left. eexists. split; [done|]. destruct (live_sleep s1 s2 H1 E2) as [H3 H4]. unfold slept in H4. split; [split; [done|]|]; lia.
  - split; [done|lia].
  - lia.
  - by exists rc, s', r.
Qed.
End Waiting.

(** A controller that answers the last request of a pipe's ring while the driver
    sleeps: a transfer goes through. *)
Definition answers (a code n : Z) (s : xhci) : xhci :=
  match rings s !! a, rings s !! evts s with
  | Some r, Some e =>
      let t := mkTrb (a + 16 * (nidx r - 1)) 0 (Z.shiftl code 24) (Z.lor (Z.shiftl ER_TRANSFER 10) (cs e)) in
      let s := set_ring_at (evts s) (mkRing (<[Z.to_nat (nidx e) := t]> (ring e)) (evt e) (eidx e) (nidx e) (cs e)) s in
      mkXhci (rings s) (cmds s) (evts s) (portscs s) (erdp s) (doorbells s) (ms s + n)
  | _, _ => s
  end.
Definition idle_xhci : xhci := mkXhci (<[0x1000 := new_ring]> (<[0x2000 := new_ring]> (<[0x3000 := new_ring]> ∅))) 0x3000 0x1000 [0; 0] 0 [] 7.
Definition demo_pipe : xhci_pipe := mkPipe 0x2000 1 3 64 0x5000 false.

Lemma transfer_succeeds :
  exists s, xhci_send_pipe (answers 0x2000 CC_SUCCESS) demo_pipe false None 0x6000 512 5000 idle_xhci = Ret (0, s) /\ doorbells s = [(1, 3)] /\ ms s = 8.
Proof. eexists. split; [vm_compute; reflexivity|]. by vm_compute. Qed.

(** A short packet (13) moved data, but counts as a failure. *)
Lemma short_packet_fails :
  exists s, xhci_send_pipe (answers 0x2000 13) demo_pipe true None 0x6000 512 5000 idle_xhci = Ret (-1, s).
Proof. eexists. vm_compute; reflexivity. Qed.
