(* ===== verification/UsbHub.v ===== *)
(** * iokit/IOUSBFamily: enumeration of core/usb.c and hub/usbhub.c

    Every port of a hub is looked at, reset, given an address and configured;
    a hub that is found there is enumerated in turn, before the next port.
    What the ports of the root hub, the control pipes, the class drivers and
    the clock do is a parameter ([Bus]).  Shown: enumeration of the whole tree
    ends whatever the devices do, each port has its turn once and in order, and
    each address is given to exactly one device; and what a failed pipe does to
    the count of devices. *)

From S2P Require Import Prelude Usb.

(** ** State *)

(** [hub]: the address of the hub that the device is connected to, 0 for the
    root hub. *)
Record usbdevice := mkDevice { port : Z; speed : Z; devaddr : Z; hub : Z }.

(** The root hub's operations; control transfers on a device's default pipe,
    with the receiving buffer if they worked; pipes; memory; the class drivers
    of dev/usbdev.c other than hubs, with the configuration and the interface;
    the millisecond clock. *)
Class Bus (W : Type) :=
  { cntl_type : Z;
    root_detect : Z -> W -> Z * W;
    root_reset : Z -> W -> Z * W;
    root_disconnect : Z -> W -> W;
    ask : usbdevice -> usb_ctrlrequest -> W -> option (list Z) * W;
    alloc_pipe : usbdevice -> Z -> W -> bool * W;
    realloc_pipe : usbdevice -> Z -> W -> bool * W;
    free_pipe : usbdevice -> W -> W;
    alloc_bytes : Z -> W -> bool * W;
    alloc_device : W -> bool * W;
    driver : usbdev_type -> usbdevice -> list Z -> Z -> Z -> W -> bool * W;
    tsc_ms : W -> Z;
    usb_msleep : Z -> W -> W }.

Definition USB_MAXADDR : Z := 127.
Definition USB_TIME_RSTRCY : Z := 10.
Definition USB_TIME_SETADDR_RECOVERY : Z := 2.
Definition USB_TIME_DRST : Z := 10.
Definition usb_time_sigatt : Z := 200.
Definition USB_REQ_SET_ADDRESS : Z := 5.
Definition USB_PORT_FEAT_ENABLE : Z := 1.
Definition USB_PORT_FEAT_RESET : Z := 4.
Definition USB_PORT_FEAT_POWER : Z := 8.

Definition speed_to_ctlsize : list Z := [8; 8; 64; 512].

Section Enumerate.
Context {W : Type} `{!Bus W}.

Definition now (w : W) : Z := usb_now_ms (tsc_ms w).

(** ** hub/usbhub.c: requests to a hub *)

Definition get_hub_desc (d : usbdevice) (w : W) : option (list Z) * W := ask d (mkReq 0xA0 6 (Z.shiftl 0x29 8) 0 7) w.
Definition set_port_feature (d : usbdevice) (p feature : Z) (w : W) : bool * W :=
  let '(o, w) := ask d (mkReq 0x23 3 feature (u16 (p + 1)) 0) w in (bool_decide (is_Some o), w).
Definition clear_port_feature (d : usbdevice) (p feature : Z) (w : W) : bool * W :=
  let '(o, w) := ask d (mkReq 0x23 1 feature (u16 (p + 1)) 0) w in (bool_decide (is_Some o), w).
Definition status_request (p : Z) : usb_ctrlrequest := mkReq 0xA3 0 0 (u16 (p + 1)) 4.
(** [wPortStatus]. *)
Definition get_port_status (d : usbdevice) (p : Z) (w : W) : run (option Z * W) :=
  let '(o, w) := ask d (status_request p) w in
  match o with
  | None => Ret (None, w)
  | Some l => v ← le16 l 0; Ret (Some v, w)
  end.

Definition usb_hub_detect (d : usbdevice) (p : Z) (w : W) : run (Z * W) :=
  '(sts, w) ← get_port_status d p w;
  Ret (match sts with None => -1 | Some v => if Z.land v 1 =? 0 then 0 else 1 end, w).

Definition usb_hub_disconnect (d : usbdevice) (p : Z) (w : W) : W := (clear_port_feature d p USB_PORT_FEAT_ENABLE w).2.

(** The loop until the reset is over; [None]: failed. *)
Definition reset_wait (d : usbdevice) (p end_ : Z) (w : W) : run (option Z * W) :=
  loop (fun w =>
    '(sts, w) ← get_port_status d p w;
    match sts with
    | None => Ret (inr (None, w))
    | Some v =>
        if Z.land v 0x10 =? 0 then Ret (inr (Some v, w))
        else if end_ <=? now w then Ret (inr (None, w))
        else Ret (inl (usb_msleep 5 w))
    end) w.

(** The speed of the device, or -1. *)
Definition usb_hub_reset (d : usbdevice) (p : Z) (w : W) : run (Z * W) :=
  let '(ok, w) := set_port_feature d p USB_PORT_FEAT_RESET w in
  if negb ok then Ret (-1, usb_hub_disconnect d p w)
  else
    '(sts, w) ← reset_wait d p (u32 (now w + USB_TIME_DRST * 2)) w;
    match sts with
    | None => Ret (-1, usb_hub_disconnect d p w)
    | Some v => Ret (if Z.land v 1 =? 0 then -1 else Z.shiftr (Z.land v (Z.shiftl 3 9)) 9, w)
    end.

(** [hub->op]: of the root hub, which its controller's driver implements, or
    of a hub that is a device. *)
Definition op_detect (h : option usbdevice) (p : Z) (w : W) : run (Z * W) :=
  match h with None => Ret (root_detect p w) | Some d => usb_hub_detect d p w end.
Definition op_reset (h : option usbdevice) (p : Z) (w : W) : run (Z * W) :=
  match h with None => Ret (root_reset p w) | Some d => usb_hub_reset d p w end.
Definition op_disconnect (h : option usbdevice) (p : Z) (w : W) : W :=
  match h with None => root_disconnect p w | Some d => usb_hub_disconnect d p w end.
Definition hub_addr (h : option usbdevice) : Z := match h with None => 0 | Some d => devaddr d end.

(** ** core/usb.c *)

(** The controller's last address, all its devices, the registry, the bus. *)
Record ctl := mkCtl { maxaddr : Z; devices : list usbdevice; registry : list usbdev_entry; bus : W }.
Definition set_bus (w : W) (c : ctl) : ctl := mkCtl (maxaddr c) (devices c) (registry c) w.
Definition lift {A} (r : A * W) (c : ctl) : A * ctl := (r.1, set_bus r.2 c).

(** The result, the device with its address, the controller. *)
Definition usb_set_address (d : usbdevice) (c : ctl) : run (Z * usbdevice * ctl) :=
  if USB_MAXADDR <=? maxaddr c then Ret (-1, d, c)
  else
    size ← of_option (if speed d <? 0 then None else speed_to_ctlsize !! Z.to_nat (speed d));
    let '(ok, c) := lift (alloc_pipe d size (usb_msleep USB_TIME_RSTRCY (bus c))) c in
    if negb ok then Ret (-1, d, c)
    else
      let '(o, c) := lift (ask d (mkReq 0 USB_REQ_SET_ADDRESS (maxaddr c + 1) 0 0) (bus c)) c in
      if decide (o = None) then Ret (-1, d, set_bus (free_pipe d (bus c)) c)
      else
        let a := u8 (maxaddr c + 1) in
        let d := mkDevice (port d) (speed d) a (hub d) in
        let '(ok, w) := realloc_pipe d size (usb_msleep USB_TIME_SETADDR_RECOVERY (bus c)) in
        Ret (if ok then 0 else -1, d, mkCtl a (devices c) (registry c) w).

Definition get_config (d : usbdevice) (c : ctl) : run (option (list Z) * ctl) :=
  let '(o, c) := lift (ask d (get_descriptor 2 0 9) (bus c)) c in
  match o with
  | None => Ret (None, c)
  | Some cfg =>
      total ← le16 cfg 2;
      let '(ok, c) := lift (alloc_bytes total (bus c)) c in
      if negb ok then Ret (None, c)
      else
        let '(o, c) := lift (ask d (get_descriptor 2 0 total) (bus c)) c in
        match o with
        | None => Ret (None, c)
        | Some config => t ← le16 config 2; Ret (if negb (t =? total) then None else Some config, c)
        end
  end.

(** [usbdev_register]. *)
Definition enter (d : usbdevice) (config : list Z) (iface : Z) (t : usbdev_type) (ids : Z * Z * Z) (c : ctl) : run ctl :=
  let '(vid, pid, iProduct) := ids in
  if (USBDEV_MAX <=? length (registry c))%nat then Ret c
  else
    inum ← at_ config (iface + 2);
    let '(o, c) := if iProduct =? 0 then (None, c) else lift (ask d (get_descriptor 3 iProduct 64) (bus c)) c in
    product ← usbdev_read_string o iProduct PRODUCT_SIZE;
    Ret (mkCtl (maxaddr c) (devices c) (usbdev_register (mkEntry t cntl_type (devaddr d) (u8 (port d)) (speed d) inum vid pid product) (registry c)).2 (bus c)).

Section Setup.
(** [usb_hub_setup]. *)
Context (hub_setup : usbdevice -> ctl -> run (Z * ctl)).

(** [usbdev_attach]; [None]: -1. *)
Definition attach (d : usbdevice) (config : list Z) (iface imax : Z) (c : ctl) : run (option usbdev_type * ctl) :=
  t ← usbdev_classify config iface;
  match t with
  | USBDEV_HUB => '(r, c) ← hub_setup d c; Ret (if negb (r =? 0) then None else Some t, c)
  | USBDEV_NONE | USBDEV_VENDOR => Ret (None, c)
  | _ => let '(ok, c) := lift (driver t d config iface imax (bus c)) c in Ret (if (ok : bool) then Some t else None, c)
  end.

(** The loop over the interfaces: how many were taken, the type of the first. *)
Fixpoint attach_ifaces (d : usbdevice) (config : list Z) (config_end : Z) (ids : Z * Z * Z) (offs : list Z) (count : Z) (first : usbdev_type) (c : ctl)
    : run (Z * usbdev_type * ctl) :=
  match offs with
  | [] => Ret (count, first, c)
  | o :: rest =>
      let next := match rest with n :: _ => n | [] => config_end end in
      '(r, c) ← attach d config o (next - o) c;
      match r with
      | None => attach_ifaces d config config_end ids rest count first c
      | Some t =>
          c ← enter d config o t ids c;
          attach_ifaces d config config_end ids rest (count + 1) (if decide (first = USBDEV_NONE) then t else first) c
      end
  end.

(** [configure_usb_device] behind [get_device_config]; the interface that it
    leaves in the device ([canonical]) is not looked at again. *)
Definition configure_found (d : usbdevice) (config : list Z) (ids : Z * Z * Z) (c : ctl) : run (Z * ctl) :=
  total ← le16 config 2;
  offs ← collect_ifaces config total;
  val ← at_ config 5;
  let '(o, c) := lift (ask d (mkReq 0 USB_REQ_SET_CONFIGURATION val 0 0) (bus c)) c in
  if decide (o = None) then Ret (0, c)
  else
    '(count, first, c) ← attach_ifaces d config total ids offs 0 USBDEV_NONE c;
    if count =? 0 then Ret (0, c) else _ ← canonical first config total offs; Ret (count, c).

Definition configure_device (d : usbdevice) (c : ctl) : run (Z * ctl) :=
  let '(o, c) := lift (ask d (get_descriptor 1 0 8) (bus c)) c in
  match o with
  | None => Ret (0, c)
  | Some dinfo =>
      mp ← at_ dinfo 7;
      mp ← max_packet (speed d) mp;
      if mp <? 8 then Ret (0, c)
      else
        let '(ok, c) := lift (realloc_pipe d mp (bus c)) c in
        if negb ok then Ret (-1, c)
        else
          let '(dd, c) := lift (ask d (get_descriptor 1 0 18) (bus c)) c in
          ids ← device_ids dd;
          '(config, c) ← get_config d c;
          match config with
          | None => Ret (0, c)
          | Some config => configure_found d config ids c
          end
  end.

(** The loop until something is there. *)
Definition wait_detect (h : option usbdevice) (p detectend : Z) (w : W) : run (bool * W) :=
  loop (fun w =>
    '(ret, w) ← op_detect h p w;
    if 0 <? ret then Ret (inr (true, w))
    else if (ret <? 0) || (detectend <=? now w) then Ret (inr (false, w))
    else Ret (inl (usb_msleep 5 w))) w.

(** [done]: the device stays in memory as it is. *)
Definition port_done (d : usbdevice) (c : ctl) : ctl := mkCtl (maxaddr c) (devices c ++ [d]) (registry c) (bus c).
Definition disconnected (h : option usbdevice) (p : Z) (c : ctl) : ctl := set_bus (op_disconnect h p (bus c)) c.

(** What is added to the hub's [devcount]. *)
Definition usb_hub_port_setup (h : option usbdevice) (p detectend : Z) (c : ctl) : run (Z * ctl) :=
  let fresh := mkDevice p 0 0 (hub_addr h) in
  '(there, w) ← wait_detect h p detectend (bus c);
  let c := set_bus w c in
  if negb (there : bool) then Ret (0, port_done fresh c)
  else
    '(ret, w) ← op_reset h p (bus c);
    let c := set_bus w c in
    if ret <? 0 then Ret (0, port_done fresh (disconnected h p c))
    else
      '(r, d, c) ← usb_set_address (mkDevice p (u8 ret) 0 (hub_addr h)) c;
      if negb (r =? 0) then Ret (0, port_done d (disconnected h p (disconnected h p c)))
      else
        '(count, c) ← configure_device d c;
        let c := set_bus (free_pipe d (bus c)) c in
        let c := if count =? 0 then disconnected h p c else c in
        Ret (count, port_done d c).

(** [threads] counts the ports down, [devcount] the devices up. *)
Fixpoint enumerate_ports (h : option usbdevice) (ps : list Z) (detectend threads devcount : Z) (c : ctl) : run (Z * Z * ctl) :=
  match ps with
  | [] => Ret (threads, devcount, c)
  | p :: ps =>
      let '(ok, c) := lift (alloc_device (bus c)) c in
      if negb ok then enumerate_ports h ps detectend threads devcount c
      else '(count, c) ← usb_hub_port_setup h p detectend c; enumerate_ports h ps detectend (u32 (threads - 1)) (u32 (devcount + count)) c
  end.

Definition usb_enumerate (h : option usbdevice) (portcount : Z) (c : ctl) : run (Z * Z * ctl) :=
  enumerate_ports h (seqZ 0 portcount) (u32 (now (bus c) + usb_time_sigatt)) portcount 0 c.
End Setup.

Fixpoint power_ports (d : usbdevice) (ps : list Z) (w : W) : bool * W :=
  match ps with
  | [] => (true, w)
  | p :: ps => let '(ok, w) := set_port_feature d p USB_PORT_FEAT_POWER w in if ok then power_ports d ps w else (false, w)
  end.

(** Hubs are behind hubs: each of them took an address, so that they are nested
    at most 127 deep.  The result is 0 or not. *)
Fixpoint usb_hub_setup (depth : nat) (d : usbdevice) (c : ctl) : run (Z * ctl) :=
  match depth with
  | O => Spin
  | S depth =>
      let '(o, c) := lift (get_hub_desc d (bus c)) c in
      match o with
      | None => Ret (-1, c)
      | Some desc =>
          n ← at_ desc 2;
          good ← at_ desc 5;
          let '(ok, c) := lift (power_ports d (seqZ 0 n) (bus c)) c in
          if negb ok then Ret (-1, c)
          else
            '(_, devcount, c) ← usb_enumerate (usb_hub_setup depth) (Some d) n (set_bus (usb_msleep (good * 2) (bus c)) c);
            Ret (if devcount =? 0 then -1 else 0, c)
      end
  end.

Definition HUB_DEPTH : nat := 128.

(** Enumeration of a controller's root hub. *)
Definition enumerate_root (portcount : Z) (c : ctl) : run (Z * Z * ctl) := usb_enumerate (usb_hub_setup HUB_DEPTH) None portcount c.
End Enumerate.
Arguments ctl : clear implicits.
Arguments mkCtl {W}.

(** ** What enumeration relies on *)

(** What the two loops that wait do to the bus before they look at the clock. *)
Inductive polls {W} `{!Bus W} : (W -> W) -> Prop :=
  | PollRoot p : polls (fun w => (root_detect p w).2)
  | PollHub d p : polls (fun w => (ask d (status_request p) w).2).

(** A request gives a buffer of the length that was asked for, which holds
    bytes; a configuration counts its own header; the packet size of a
    super-speed device is an exponent below 31; a reset of a root port gives
    one of the four speeds.  The clock has 32 bits and starts over: who polls
    every 5 ms sees it, sooner or later, at any given value or behind it. *)
Class BusLaws (W : Type) `{!Bus W} : Prop :=
  { ask_length d r w l : (ask d r w).1 = Some l -> length l = Z.to_nat (wLength r);
    ask_bytes d r w l : (ask d r w).1 = Some l -> Forall byte_ok l;
    config_total d w l : (ask d (get_descriptor 2 0 9) w).1 = Some l -> 9 <= nth 2 l 0 + 256 * nth 3 l 0;
    packet_exponent d w l : speed d = USB_SUPERSPEED -> (ask d (get_descriptor 1 0 8) w).1 = Some l -> nth 7 l 0 < 31;
    root_speed p w : (root_reset p w).1 < 4;
    clock_seen look w e : polls look -> 0 <= e < 2 ^ 32 ->
      exists n, Z.of_nat n < 2 ^ 60 /\ e <= now (look (Nat.iter n (fun w => usb_msleep 5 (look w)) w)) }.

(** The addresses that were given, in the order of the devices. *)
Definition addresses (ds : list usbdevice) : list Z := filter (fun a => a <> 0) (devaddr <$> ds).

(** From [c] to [c'] the devices [ds] came, each on the hub with address [a] or
    on a hub that came with them, and the controller's next addresses went to
    them, each once. *)
Record found {W} (a : Z) (c c' : ctl W) (ds : list usbdevice) : Prop :=
  { fo_devices : devices c' = devices c ++ ds;
    fo_max : maxaddr c <= maxaddr c' <= USB_MAXADDR;
    fo_addresses : addresses ds ≡ₚ seqZ (maxaddr c + 1) (maxaddr c' - maxaddr c);
    fo_hubs : Forall (fun d => hub d = a \/ maxaddr c < hub d <= maxaddr c') ds }.

(** Only the bus and the registry changed. *)
Definition kept {W} (c c' : ctl W) : Prop := maxaddr c' = maxaddr c /\ devices c' = devices c.

Section Laws.
Context {W : Type} `{!Bus W} `{!BusLaws W}.

Lemma kept_refl (c : ctl W) : kept c c.
Proof. done. Qed.
Lemma kept_bus w (c : ctl W) : kept c (set_bus w c).
Proof. done. Qed.
Lemma kept_trans (c1 c2 c3 : ctl W) : kept c1 c2 -> kept c2 c3 -> kept c1 c3.
Proof. unfold kept. intros [-> ->] [-> ->]. done. Qed.
Lemma kept_found a (c c' : ctl W) : maxaddr c <= USB_MAXADDR -> kept c c' -> found a c c' [].
Proof. intros Hm [E1 E2]. constructor; [by rewrite E2, app_nil_r|lia|rewrite E1, Z.sub_diag; done|done]. Qed.

Lemma addresses_app ds es : addresses (ds ++ es) = addresses ds ++ addresses es.
Proof. unfold addresses. by rewrite fmap_app, filter_app. Qed.

Lemma found_trans a (c1 c2 c3 : ctl W) ds es : found a c1 c2 ds -> found a c2 c3 es -> found a c1 c3 (ds ++ es).
Proof.
  intros [D1 M1 A1 H1] [D2 M2 A2 H2]. constructor; [by rewrite D2, D1, app_assoc|lia| |].
  - rewrite addresses_app, A1, A2. replace (maxaddr c3 - maxaddr c1) with ((maxaddr c2 - maxaddr c1) + (maxaddr c3 - maxaddr c2)) by lia.
    rewrite seqZ_app by lia. replace (maxaddr c1 + 1 + (maxaddr c2 - maxaddr c1)) with (maxaddr c2 + 1) by lia. done.
  - apply Forall_app. split; (eapply Forall_impl; [eassumption|]); cbn; lia.
Qed.

Lemma found_kept a (c1 c2 c3 : ctl W) ds : found a c1 c2 ds -> kept c2 c3 -> found a c1 c3 ds.
Proof. intros Hf Hk. rewrite <- (app_nil_r ds). eapply found_trans; [exact Hf|]. apply kept_found; [apply Hf|done]. Qed.
Lemma kept_found_trans a (c1 c2 c3 : ctl W) ds : kept c1 c2 -> found a c2 c3 ds -> found a c1 c3 ds.
Proof. intros [E1 E2] [D M A H]. rewrite E1, ?E2 in *. by constructor. Qed.

(** A port that gave no address. *)
Lemma found_none a (c c' : ctl W) d : maxaddr c <= USB_MAXADDR -> kept c c' -> devaddr d = 0 -> hub d = a -> found a c (port_done d c') [d].
Proof.
  intros Hm [E1 E2] Hd Hh. constructor; cbn; [by rewrite E2|lia| |by constructor; [left|]].
  rewrite E1, Z.sub_diag. cbn. unfold addresses. cbn. rewrite Hd. done.
Qed.

(** A port that gave the next address, with what came behind its device. *)
Lemma found_port a (c c1 c2 : ctl W) d ds :
  0 <= maxaddr c -> devices c1 = devices c -> maxaddr c1 = maxaddr c + 1 -> devaddr d = maxaddr c1 -> hub d = a -> found (devaddr d) c1 c2 ds ->
  found a c (port_done d c2) (ds ++ [d]).
Proof.
  intros H0 Hd Hm Ha Hh [D M A H]. constructor; cbn; [by rewrite D, Hd, app_assoc|lia| |].
  - rewrite addresses_app, A. assert (addresses [d] = [maxaddr c + 1]) as ->.
    { unfold addresses. change (devaddr <$> [d]) with [devaddr d]. rewrite filter_cons, filter_nil, decide_True by lia. by rewrite Ha, Hm. }
    rewrite Hm. replace (maxaddr c2 - maxaddr c) with (Z.succ (maxaddr c2 - (maxaddr c + 1))) by lia. rewrite (seqZ_cons (maxaddr c + 1)) by lia.
    rewrite Z.pred_succ, Permutation_app_comm. cbn. by rewrite (Z.add_1_r (maxaddr c + 1)).
  - apply Forall_app. split; [|by constructor; [left|]]. eapply Forall_impl; [exact H|]. cbn. lia.
Qed.

(** ** The loops that wait *)

(** A loop that polls and sleeps until [e], or until it has seen enough. *)
Lemma poll_leaves {A} (look : W -> W) (body : W -> run (W + A)) e w :
  polls look -> 0 <= e < 2 ^ 32 ->
  (forall w, (body w = Ret (inl (usb_msleep 5 (look w))) /\ now (look w) < e) \/ exists a, body w = Ret (inr a)) -> exists a, loop body w = Ret a.
Proof.
  intros Hp He Hb. destruct (clock_seen look w e Hp He) as (n & Hn & Hnow). apply (loop_leaves (fun w => usb_msleep 5 (look w)) body w n); [|lia|].
  - intros w1. destruct (Hb w1) as [[-> _]|]; [by left|by right].
  - destruct (Hb (Nat.iter n (fun w => usb_msleep 5 (look w)) w)) as [[_ ?]|]; [lia|done].
Qed.

Lemma le16_buffer (l : list Z) o : 0 <= o -> o + 2 <= Z.of_nat (length l) -> le16 l o = Ret (nth (Z.to_nat o) l 0 + 256 * nth (Z.to_nat (o + 1)) l 0).
Proof. intros H0 Hl. unfold le16. by rewrite !at_nth, !bind_ret by lia. Qed.

Lemma status_spec d p w : exists o, get_port_status d p w = Ret (o, (ask d (status_request p) w).2).
Proof.
  unfold get_port_status. pose proof (ask_length d (status_request p) w) as Hl. destruct (ask d (status_request p) w) as [[l|] w1]; cbn [fst snd wLength status_request] in *; [|by exists None].
  specialize (Hl l eq_refl). rewrite le16_buffer, bind_ret by lia. by eexists.
Qed.

Lemma wait_detect_returns h p e w : 0 <= e < 2 ^ 32 -> exists r, wait_detect h p e w = Ret r.
Proof.
  intros He. unfold wait_detect. destruct h as [d|]; cbn [op_detect].
  - apply (poll_leaves _ _ e w (PollHub d p) He). intros w1. unfold usb_hub_detect. destruct (status_spec d p w1) as [o ->]. rewrite !bind_ret. set (ret := match o with Some _ => _ | None => -1 end).
    destruct (0 <? ret); [right; by eexists|]. destruct (ret <? 0); [right; by eexists|]. cbn [orb]. destruct (Z.leb_spec e (now (ask d (status_request p) w1).2)); [right; by eexists|]. left. split; [done|lia].
  - apply (poll_leaves _ _ e w (PollRoot p) He). intros w1. rewrite bind_ret. destruct (root_detect p w1) as [ret w2]. cbn [snd].
    destruct (0 <? ret); [right; by eexists|]. destruct (ret <? 0); [right; by eexists|]. cbn [orb]. destruct (Z.leb_spec e (now w2)); [right; by eexists|]. left. split; [done|lia].
Qed.

Lemma port_speed_bound v : 0 <= Z.shiftr (Z.land v (Z.shiftl 3 9)) 9 < 4.
Proof. change (Z.shiftl 3 9) with (Z.shiftl (Z.ones 2) 9). rewrite Z.shiftr_land, Z.shiftr_shiftl_l, Z.sub_diag, Z.shiftl_0_r, Z.land_ones by lia. apply Z.mod_pos_bound. lia. Qed.

(** A reset ends and gives one of the four speeds or -1. *)
Lemma hub_reset_returns d p w : exists rc w', usb_hub_reset d p w = Ret (rc, w') /\ -1 <= rc < 4.
Proof.
  unfold usb_hub_reset. destruct (set_port_feature d p USB_PORT_FEAT_RESET w) as [[] w1]; cbn [negb]; [|eexists _, _; split; [done|lia]].
  set (e := u32 (now w1 + _)). assert (0 <= e < 2 ^ 32) as He by apply u32_range. unfold reset_wait.
  match goal with |- context [loop ?b w1] => destruct (poll_leaves (fun w => (ask d (status_request p) w).2) b e w1) as [[o w2] ->]; [apply PollHub|exact He| |] end.
  - intros w2. destruct (status_spec d p w2) as [o ->]. rewrite bind_ret. destruct o as [v|]; [|right; by eexists]. destruct (Z.land v 0x10 =? 0); [right; by eexists|].
    match goal with |- context [e <=? ?t] => destruct (Z.leb_spec e t) end; [right; by eexists|]. left. split; [done|lia].
  - rewrite bind_ret. destruct o as [v|]; [|eexists _, _; split; [done|lia]]. pose proof (port_speed_bound v). destruct (Z.land v 1 =? 0); eexists _, _; (split; [done|lia]).
Qed.

Lemma op_reset_returns h p w : exists rc w', op_reset h p w = Ret (rc, w') /\ rc < 4.
Proof.
  destruct h as [d|]; cbn [op_reset].
  - destruct (hub_reset_returns d p w) as (rc & w' & -> & ?). eexists _, _. split; [done|lia].
  - pose proof (root_speed p w). destruct (root_reset p w) as [rc w']. by eexists _, _.
Qed.

(** ** One device *)

Lemma set_address_spec d (c : ctl W) :
  0 <= maxaddr c <= USB_MAXADDR -> 0 <= speed d < 4 ->
  exists r d' c', usb_set_address d c = Ret (r, d', c') /\ port d' = port d /\ speed d' = speed d /\ hub d' = hub d /\ devices c' = devices c /\
    ((r <> 0 /\ d' = d /\ maxaddr c' = maxaddr c) \/ (maxaddr c' = maxaddr c + 1 /\ maxaddr c' <= USB_MAXADDR /\ devaddr d' = maxaddr c')).
Proof.
  intros Hm Hs. unfold usb_set_address, USB_MAXADDR in *. destruct (Z.leb_spec 127 (maxaddr c)); [eexists _, d, c; split; [done|]; split_and!; auto; left; done|].
  rewrite (proj2 (Z.ltb_ge (speed d) 0)) by lia. destruct (lookup_lt_is_Some_2 speed_to_ctlsize (Z.to_nat (speed d))) as [size ->]; [cbn; lia|]. cbn [of_option]. rewrite bind_ret.
  unfold lift. destruct (alloc_pipe _ _ _) as [[] w1]; cbn [negb fst snd]; [|eexists _, _, _; split; [done|]; split_and!; auto; by left].
  destruct (ask d _ _) as [o w2]. cbn [fst snd]. destruct (decide (o = None)); [eexists _, _, _; split; [done|]; split_and!; auto; by left|].
  cbn [set_bus maxaddr]. rewrite u8_small by lia. destruct (realloc_pipe _ _ _) as [ok w3]. eexists _, _, _. split; [done|]. split_and!; auto. right. cbn. lia.
Qed.

(** A configuration of so many bytes. *)
Definition whole (config : list Z) (total : Z) : Prop := le16 config 2 = Ret total /\ 9 <= total < 65536 /\ Z.of_nat (length config) = total /\ Forall byte_ok config.

Lemma byte_nth_range (l : list Z) i : Forall byte_ok l -> 0 <= nth i l 0 < 256.
Proof.
  intros Hl. destruct (decide (i < length l)%nat) as [Hi|Hi]; [|rewrite nth_overflow; lia]. destruct (lookup_lt_is_Some_2 l i Hi) as [x Hx]. rewrite (nth_lookup_Some _ _ _ _ Hx).
  by eapply Forall_lookup_1 in Hl; [|exact Hx].
Qed.

Lemma get_config_spec d (c : ctl W) : exists o c', get_config d c = Ret (o, c') /\ kept c c' /\ forall config, o = Some config -> exists total, whole config total.
Proof.
  unfold get_config, lift. set (r := get_descriptor 2 0 9). pose proof (ask_length d r (bus c)) as Hl. pose proof (ask_bytes d r (bus c)) as Hb. pose proof (config_total d (bus c)) as Ht. fold r in Ht.
  destruct (ask d r (bus c)) as [[cfg|] w1]; cbn [fst snd] in *; [|by exists None, (set_bus w1 c)]. specialize (Hl cfg eq_refl). specialize (Hb cfg eq_refl). specialize (Ht cfg eq_refl). cbn in Hl.
  rewrite le16_buffer, bind_ret by lia. change (Z.to_nat 2) with 2%nat. change (Z.to_nat (2 + 1)) with 3%nat. set (total := nth 2 cfg 0 + 256 * nth 3 cfg 0) in *.
  assert (total < 65536) as Hlt by (pose proof (byte_nth_range cfg 2 Hb); pose proof (byte_nth_range cfg 3 Hb); lia). clearbody total.
  destruct (alloc_bytes _ _) as [[] w2]; cbn [fst snd negb]; [|by eexists None, _]. set (r2 := get_descriptor 2 0 total). set (w := bus _). pose proof (ask_length d r2 w) as Hl2. pose proof (ask_bytes d r2 w) as Hb2.
  destruct (ask d r2 w) as [[config|] w3]; cbn [fst snd] in *; [|by eexists None, _]. specialize (Hl2 config eq_refl). specialize (Hb2 config eq_refl). cbn in Hl2.
  assert (exists t, le16 config 2 = Ret t) as [t Et] by (eexists; apply le16_buffer; lia). rewrite Et, bind_ret. eexists _, _. split; [done|]. split; [done|].
  destruct (Z.eqb_spec t total) as [->|]; [|done]. cbn [negb]. intros ? [= <-]. exists total. split; [done|]. split; [lia|]. split; [lia|done].
Qed.

Lemma ids_spec d w : exists ids, device_ids (ask d (get_descriptor 1 0 18) w).1 = Ret ids.
Proof.
  pose proof (ask_length d (get_descriptor 1 0 18) w) as Hl. destruct (ask _ _ _) as [[dd|] w1]; cbn [fst] in *; [|by eexists]. specialize (Hl dd eq_refl). cbn in Hl.
  unfold device_ids, le16. rewrite !at_nth, !bind_ret by lia. destruct (_ <=? _); by eexists.
Qed.

Lemma enter_spec d config iface t ids (c : ctl W) : 0 <= iface -> iface + 9 <= Z.of_nat (length config) -> exists c', enter d config iface t ids c = Ret c' /\ kept c c'.
Proof.
  intros H0 Hi. unfold enter. destruct ids as [[vid pid] iprod]. destruct (_ <=? _)%nat; [by exists c|]. rewrite at_nth, bind_ret by lia.
  assert (exists o c1, (if iprod =? 0 then (None, c) else lift (ask d (get_descriptor 3 iprod 64) (bus c)) c) = (o, c1) /\ (forall buf, o = Some buf -> (64 <= length buf)%nat) /\ kept c c1) as (o & c1 & -> & Ho & Hk).
  { destruct (iprod =? 0); [by eexists _, _|]. eexists _, _. split; [reflexivity|]. split; [|done]. intros buf Hbuf%ask_length. cbn in Hbuf. lia. }
  destruct (read_string_total o iprod PRODUCT_SIZE Ho ltac:(done)) as [prod ->]. rewrite bind_ret. by eexists.
Qed.

Section Device.
Context (setup : usbdevice -> ctl W -> run (Z * ctl W)) (low : Z).
(** The driver of a hub that was given an address above [low]. *)
Hypothesis setup_spec : forall d c, 0 <= low < maxaddr c -> maxaddr c <= USB_MAXADDR -> 0 < devaddr d <= maxaddr c ->
  exists r c' ds, setup d c = Ret (r, c') /\ found (devaddr d) c c' ds.

Lemma attach_spec d config o n (c : ctl W) :
  0 <= low < maxaddr c -> maxaddr c <= USB_MAXADDR -> 0 < devaddr d <= maxaddr c -> 0 <= o -> o + 9 <= Z.of_nat (length config) ->
  exists r c' ds, attach setup d config o n c = Ret (r, c') /\ found (devaddr d) c c' ds.
Proof.
  intros Hlow Hm Ha Ho Hl. unfold attach. rewrite classify_nth, bind_ret by done.
  assert (forall r c', kept c c' -> exists r' c'' ds, (Ret (r, c') : run (option usbdev_type * ctl W)) = Ret (r', c'') /\ found (devaddr d) c c'' ds) as Hk.
  { intros r c' Hk. eexists _, _, []. split; [done|]. by apply kept_found. }
  destruct (class_of config o); try (by apply Hk); try (unfold lift; destruct (driver _ _ _ _ _ _) as [ok w]; by apply Hk).
  destruct (setup_spec d c Hlow Hm Ha) as (r & c' & ds & -> & Hf). rewrite bind_ret. by eexists _, _, ds.
Qed.

Lemma attach_ifaces_spec d config end_ ids offs count first (c : ctl W) :
  0 <= low < maxaddr c -> maxaddr c <= USB_MAXADDR -> 0 < devaddr d <= maxaddr c -> Forall (fun o => 9 <= o /\ o + 9 <= Z.of_nat (length config)) offs ->
  exists n t c' ds, attach_ifaces setup d config end_ ids offs count first c = Ret (n, t, c') /\ found (devaddr d) c c' ds.
Proof.
  revert count first c. induction offs as [|o rest IH]; intros count first c Hlow Hm Ha Hf; cbn [attach_ifaces].
  { eexists _, _, _, []. split; [done|]. by apply kept_found. }
  apply Forall_cons in Hf as [Ho Hf]. set (next := match rest with [] => end_ | n :: _ => n end).
  destruct (attach_spec d config o (next - o) c Hlow Hm Ha ltac:(lia) ltac:(lia)) as (r & c1 & ds & -> & H1). rewrite bind_ret. pose proof (fo_max _ _ _ _ H1) as Hm1.
  assert (forall count first c2, kept c1 c2 -> exists n t c' ds, attach_ifaces setup d config end_ ids rest count first c2 = Ret (n, t, c') /\ found (devaddr d) c c' ds) as go.
  { intros n f c2 Hk. destruct (Hk) as [E _]. destruct (IH n f c2) as (n' & t & c' & es & -> & H2); [lia|lia|lia|done|]. eexists _, _, _, (ds ++ es). split; [done|].
    eapply found_trans; [exact H1|]. by eapply kept_found_trans. }
  destruct r as [t|]; [|by apply go]. destruct (enter_spec d config o t ids c1 ltac:(lia) ltac:(lia)) as (c2 & -> & Hk). rewrite bind_ret. by apply go.
Qed.

Lemma configure_found_spec d config total ids (c : ctl W) :
  0 <= low < maxaddr c -> maxaddr c <= USB_MAXADDR -> 0 < devaddr d <= maxaddr c -> whole config total ->
  exists n c' ds, configure_found setup d config ids c = Ret (n, c') /\ found (devaddr d) c c' ds.
Proof.
  intros Hlow Hm Ha (Et & Ht & Hlen & Hb). unfold configure_found. rewrite Et, bind_ret. destruct (collect_total config total Hb) as (offs & -> & _ & Hoffs); [lia|lia|]. rewrite bind_ret, at_nth, bind_ret by lia.
  assert (Forall (fun o => 9 <= o /\ o + 9 <= Z.of_nat (length config)) offs) as Hin by (eapply Forall_impl; [exact Hoffs|]; cbn; lia).
  unfold lift. destruct (ask d _ _) as [o w1]. cbn [fst snd]. destruct (decide (o = None)); [eexists _, _, []; split; [done|]; by apply kept_found|].
  destruct (attach_ifaces_spec d config total ids offs 0 USBDEV_NONE (set_bus w1 c) Hlow Hm Ha Hin) as (k & t & c' & ds & -> & Hf). rewrite bind_ret.
  apply (kept_found_trans _ c) in Hf; [|done].
  destruct (k =? 0); [by eexists _, _, ds|]. unfold canonical. destruct (primary_total config offs) as [x Hx]; [eapply Forall_impl; [exact Hin|]; unfold in_config; cbn; lia|].
  destruct (decide (t = USBDEV_HUB)); [rewrite Hx|]; rewrite !bind_ret; by eexists _, _, ds.
Qed.

Lemma configure_spec d (c : ctl W) :
  0 <= low < maxaddr c -> maxaddr c <= USB_MAXADDR -> 0 < devaddr d <= maxaddr c ->
  exists n c' ds, configure_device setup d c = Ret (n, c') /\ found (devaddr d) c c' ds.
Proof.
  intros Hlow Hm Ha. assert (forall n c', kept c c' -> exists n' c'' ds, (Ret (n, c') : run (Z * ctl W)) = Ret (n', c'') /\ found (devaddr d) c c'' ds) as Hk.
  { intros n c' Hk. eexists _, _, []. split; [done|]. by apply kept_found. }
  unfold configure_device, lift. pose proof (ask_length d (get_descriptor 1 0 8) (bus c)) as Hl. pose proof (packet_exponent d (bus c)) as He.
  destruct (ask d _ _) as [[dinfo|] w1]; cbn [fst snd] in *; [|by apply Hk]. specialize (Hl dinfo eq_refl). cbn in Hl. rewrite at_nth, bind_ret by lia. change (Z.to_nat 7) with 7%nat.
  assert (exists mp, max_packet (speed d) (nth 7 dinfo 0) = Ret mp) as [mp ->].
  { unfold max_packet. destruct (Z.eqb_spec (speed d) USB_SUPERSPEED) as [E|E]; [|by eexists]. destruct (_ <? _); cbn [andb]; [|by eexists]. rewrite (proj2 (Z.leb_gt 31 _)) by auto. by eexists. }
  rewrite bind_ret. destruct (mp <? 8); [by apply Hk|]. destruct (realloc_pipe _ _ _) as [[] w2]; cbn [fst snd negb]; [|by apply Hk].
  destruct (ids_spec d (bus (set_bus w2 (set_bus w1 c)))) as [ids Eids]. rewrite Eids, bind_ret. destruct (get_config_spec d (set_bus (ask d (get_descriptor 1 0 18) (bus (set_bus w2 (set_bus w1 c)))).2 (set_bus w2 (set_bus w1 c)))) as (o & c3 & -> & [Em Ed] & Hw).
  rewrite bind_ret. cbn in Em, Ed. destruct o as [config|]; [|by apply Hk]. destruct (Hw config eq_refl) as [total Htot].
  destruct (configure_found_spec d config total ids c3) as (n & c' & ds & -> & Hf); [lia|lia|lia|done|]. eexists _, _, ds. split; [done|]. by eapply kept_found_trans.
Qed.

(** ** A port, a hub and the tree *)

(** The devices on the hub itself. *)
Definition on_hub (a : Z) (ds : list usbdevice) : list usbdevice := filter (fun d => hub d = a) ds.

Lemma on_hub_none a ds : Forall (fun d => hub d <> a) ds -> on_hub a ds = [].
Proof. unfold on_hub. induction 1 as [|d ds Hd _ IH]; [done|]. by rewrite filter_cons, decide_False. Qed.

Lemma port_setup_spec h p e (c : ctl W) :
  0 <= e < 2 ^ 32 -> 0 <= low <= maxaddr c -> maxaddr c <= USB_MAXADDR -> 0 <= hub_addr h <= maxaddr c ->
  exists n c' ds d, usb_hub_port_setup setup h p e c = Ret (n, c') /\ found (hub_addr h) c c' ds /\ on_hub (hub_addr h) ds = [d] /\ port d = p.
Proof.
  intros He Hlow Hm Hh. unfold usb_hub_port_setup. destruct (wait_detect_returns h p e (bus c) He) as [[there w1] ->]. rewrite bind_ret.
  assert (forall n d c', kept c c' -> port d = p -> devaddr d = 0 -> hub d = hub_addr h ->
    exists n' c'' ds d', (Ret (n, port_done d c') : run (Z * ctl W)) = Ret (n', c'') /\ found (hub_addr h) c c'' ds /\ on_hub (hub_addr h) ds = [d'] /\ port d' = p) as none.
  { intros n d c' Hk Hp Hd Ehub. eexists _, _, [d], d. split; [done|]. split; [by apply found_none|]. split; [|done]. unfold on_hub. by rewrite filter_cons, decide_True, filter_nil. }
  destruct there; cbn [negb]; [|by apply none]. destruct (op_reset_returns h p (bus (set_bus w1 c))) as (ret & w2 & -> & Hr). rewrite bind_ret. destruct (Z.ltb_spec ret 0); [by apply none|].
  rewrite u8_small by lia. destruct (set_address_spec (mkDevice p ret 0 (hub_addr h)) (set_bus w2 (set_bus w1 c))) as (r & d & c1 & -> & Hp & _ & Ehub & Hd & Hcase); [cbn; lia|cbn; lia|]. rewrite bind_ret.
  cbn in Hp, Ehub, Hd. destruct Hcase as [(Hr0 & -> & Em)|(Em & Hm1 & Ea)].
  { rewrite (proj2 (Z.eqb_neq r 0)) by done. cbn [negb]. by apply none. }
  cbn in Em. assert (forall n c2 ds, found (devaddr d) c1 c2 ds ->
    exists n' c'' ds d', (Ret (n, port_done d c2) : run (Z * ctl W)) = Ret (n', c'') /\ found (hub_addr h) c c'' ds /\ on_hub (hub_addr h) ds = [d'] /\ port d' = p) as some.
  { intros n c2 ds Hf. eexists _, _, (ds ++ [d]), d. split; [done|]. split; [eapply found_port; try done; lia|]. split; [|done]. unfold on_hub. rewrite filter_app, filter_cons, decide_True, filter_nil by done.
    fold (on_hub (hub_addr h) ds). rewrite on_hub_none; [done|]. eapply Forall_impl; [apply (fo_hubs _ _ _ _ Hf)|]. cbn. lia. }
  destruct (r =? 0); cbn [negb]; [|apply (some _ _ []); by apply kept_found].
  destruct (configure_spec d c1) as (n & c2 & ds & -> & Hf); [lia|lia|lia|]. rewrite bind_ret. apply (some _ _ ds). eapply found_kept; [exact Hf|]. by destruct (n =? 0).
Qed.

Lemma enumerate_ports_spec h ps e threads devcount (c : ctl W) :
  0 <= e < 2 ^ 32 -> 0 <= low <= maxaddr c -> maxaddr c <= USB_MAXADDR -> 0 <= hub_addr h <= maxaddr c -> Z.of_nat (length ps) <= threads < 2 ^ 32 ->
  exists n c' ds, enumerate_ports setup h ps e threads devcount c = Ret (threads - Z.of_nat (length (on_hub (hub_addr h) ds)), n, c') /\ found (hub_addr h) c c' ds /\
    (port <$> on_hub (hub_addr h) ds) `sublist_of` ps /\ ((forall w : W, (alloc_device w).1 = true) -> port <$> on_hub (hub_addr h) ds = ps).
Proof.
  intros He. revert threads devcount c. induction ps as [|p ps IH]; intros threads devcount c Hlow Hm Hh Ht; cbn [enumerate_ports].
  { eexists _, c, []. cbn. rewrite Z.sub_0_r. split_and!; try done. by apply kept_found. }
  cbn [length] in Ht. unfold lift. destruct (alloc_device (bus c)) as [ok w] eqn:Ea. cbn [fst snd]. destruct ok; cbn [negb].
  - destruct (port_setup_spec h p e (set_bus w c) He Hlow Hm Hh) as (n & c1 & ds & d & -> & Hf & Hd & Hp). rewrite bind_ret. apply (kept_found_trans _ c) in Hf; [|done]. pose proof (fo_max _ _ _ _ Hf) as Hm1.
    rewrite (u32_small (threads - 1)) by lia. destruct (IH (threads - 1) (u32 (devcount + n)) c1) as (n' & c' & es & -> & Hf' & Hs & Hall); [lia..|]. eexists _, c', (ds ++ es).
    unfold on_hub in *. rewrite filter_app, Hd, length_app. cbn [length app]. split; [do 3 f_equal; lia|]. split; [by eapply found_trans|]. cbn. rewrite Hp. split; [by constructor|]. intros Hal. f_equal. by apply Hall.
  - destruct (IH threads devcount (set_bus w c)) as (n' & c' & es & -> & Hf' & Hs & Hall); [done|done|done|lia|]. eexists _, c', es. split; [done|]. split; [by apply (kept_found_trans _ c (set_bus w c))|]. split; [by constructor|].
    intros Hal. specialize (Hal (bus c)). by rewrite Ea in Hal.
Qed.
End Device.

Lemma enumerate_hub_spec setup low h portcount (c : ctl W) :
  (forall d c, 0 <= low < maxaddr c -> maxaddr c <= USB_MAXADDR -> 0 < devaddr d <= maxaddr c -> exists r c' ds, setup d c = Ret (r, c') /\ found (devaddr d) c c' ds) ->
  0 <= low <= maxaddr c -> maxaddr c <= USB_MAXADDR -> 0 <= hub_addr h <= maxaddr c -> 0 <= portcount < 2 ^ 32 ->
  exists n c' ds, usb_enumerate setup h portcount c = Ret (portcount - Z.of_nat (length (on_hub (hub_addr h) ds)), n, c') /\ found (hub_addr h) c c' ds /\
    (port <$> on_hub (hub_addr h) ds) `sublist_of` seqZ 0 portcount /\ ((forall w : W, (alloc_device w).1 = true) -> port <$> on_hub (hub_addr h) ds = seqZ 0 portcount).
Proof. intros Hs Hlow Hm Hh Hn. unfold usb_enumerate. apply (enumerate_ports_spec setup low Hs); try done; [apply u32_range|rewrite length_seqZ; lia]. Qed.

(** Depth for all the addresses that are left is enough. *)
Lemma hub_setup_spec depth d (c : ctl W) :
  USB_MAXADDR < Z.of_nat depth + maxaddr c -> 0 < devaddr d <= maxaddr c -> maxaddr c <= USB_MAXADDR -> exists r c' ds, usb_hub_setup depth d c = Ret (r, c') /\ found (devaddr d) c c' ds.
Proof.
  revert d c. induction depth as [|depth IH]; intros d c Hd Ha Hm; [lia|]. cbn [usb_hub_setup].
  assert (forall r c', kept c c' -> exists r' c'' ds, (Ret (r, c') : run (Z * ctl W)) = Ret (r', c'') /\ found (devaddr d) c c'' ds) as Hk.
  { intros r c' Hk. eexists _, _, []. split; [done|]. by apply kept_found. }
  unfold get_hub_desc, lift. set (r := mkReq _ _ _ _ _). pose proof (ask_length d r (bus c)) as Hl. pose proof (ask_bytes d r (bus c)) as Hb. destruct (ask d r (bus c)) as [[desc|] w1]; cbn [fst snd] in *; [|by apply Hk].
  specialize (Hl desc eq_refl). specialize (Hb desc eq_refl). cbn in Hl. rewrite !at_nth, !bind_ret by lia. destruct (power_ports _ _ _) as [[] w2]; cbn [fst snd negb]; [|by apply Hk].
  set (c2 := set_bus (usb_msleep _ _) _). pose proof (byte_nth_range desc (Z.to_nat 2) Hb). destruct (enumerate_hub_spec (usb_hub_setup depth) (maxaddr c) (Some d) (nth (Z.to_nat 2) desc 0) c2) as (n & c' & ds & -> & Hf & _).
  - intros d1 c1 H1 H2 H3. apply IH; lia.
  - cbn. lia.
  - done.
  - cbn. lia.
  - lia.
  - rewrite bind_ret. eexists _, c', ds. split; [done|]. by apply (kept_found_trans _ c c2).
Qed.
End Laws.


(** A bus whose state is the clock: a hub with two ports on the first root
    port, keyboards everywhere else.  [fails]: no pipe for packets of 16 bytes. *)
Definition demo_reply (d : usbdevice) (r : usb_ctrlrequest) : list Z :=
  let is_hub := (port d =? 0) && (hub d =? 0) in
  if bRequestType r =? 0xA0 then [7; 0x29; 2; 0; 0; 1; 0]
  else if bRequestType r =? 0xA3 then [1; 0; 0; 0]
  else if wValue r =? 256 then [18; 1; 0; 2; 0; 0; 0; 16; 0x6D; 4; 0x1C; 0xC3; 0; 1; 1; 2; 0; 1]
  else if is_hub then [9; 2; 18; 0; 1; 1; 0; 0xE0; 0; 9; 4; 0; 0; 1; 9; 0; 0; 0]
  else [9; 2; 18; 0; 1; 1; 0; 0xA0; 50; 9; 4; 0; 0; 1; 3; 1; 1; 0].

#[export] Instance demo_bus (fails : bool) : Bus N :=
  {| cntl_type := 4; root_detect _ w := (1, w); root_reset _ w := (2, w); root_disconnect _ w := w;
     ask d r w := (Some (take (Z.to_nat (wLength r)) (demo_reply d r ++ replicate (Z.to_nat (wLength r)) 0)), w);
     alloc_pipe _ _ w := (true, w); realloc_pipe _ size w := (negb (fails && (size =? 16)), w); free_pipe _ w := w; alloc_bytes _ w := (true, w); alloc_device w := (true, w);
     driver _ _ _ _ _ w := (true, w); tsc_ms w := Z.of_N w; usb_msleep n w := (w + Z.to_N n)%N |}.

Lemma iter_sleep n w : Z.of_N (Nat.iter n (fun w => w + Z.to_N 5)%N w) = Z.of_N w + 5 * Z.of_nat n.
Proof. induction n as [|n IH]; [cbn; lia|]. change (Nat.iter (S n) ?f w) with (f (Nat.iter n f w)). cbn beta. lia. Qed.

(** 3435973837 is the inverse of 5 modulo 2^32. *)
Lemma step_five w : exists n, Z.of_nat n < 2 ^ 60 /\ u32 (w + 5 * Z.of_nat n) = 2 ^ 32 - 1.
Proof.
  set (k := ((2 ^ 32 - 1 - w) * 3435973837) mod 2 ^ 32). assert (0 <= k < 2 ^ 32) as Hk by (apply Z.mod_pos_bound; lia). exists (Z.to_nat k). rewrite Z2Nat.id by lia. split; [lia|].
  assert (exists q, (2 ^ 32 - 1 - w) * 3435973837 = 2 ^ 32 * q + k) as [q Hq] by (eexists; apply Z.div_mod; lia). unfold u32. symmetry. apply (Z.mod_unique_pos _ _ (4 * (2 ^ 32 - 1 - w) - 5 * q)); lia.
Qed.

#[export] Instance demo_laws fails : BusLaws N (Bus0 := demo_bus fails).
Proof.
  constructor; cbn.
  - intros d r w l [= <-]. rewrite length_take, length_app, length_replicate. lia.
  - intros d r w l [= <-]. apply Forall_take, Forall_app. split; [|apply Forall_replicate; unfold byte_ok; lia]. unfold demo_reply, byte_ok. repeat case_match; repeat constructor; lia.
  - intros d w l [= <-]. unfold demo_reply. cbn. by destruct (_ && _).
  - by intros d w l _ [= <-].
  - intros. lia.
  - intros look w e Hp He. assert (forall f, (forall w, look w = w) -> f = (fun w => w + Z.to_N 5)%N -> exists n, Z.of_nat n < 2 ^ 60 /\ e <= usb_now_ms (Z.of_N (look (Nat.iter n f w)))) as H.
    { intros f Hl ->. destruct (step_five (Z.of_N w)) as (n & Hn & E). exists n. split; [done|]. rewrite Hl, iter_sleep. unfold usb_now_ms. rewrite E. lia. }
    destruct Hp; by apply H.
Qed.


(** The hub's devices have their addresses before the next root port. *)
Lemma tree_addresses : exists c', enumerate_root (Bus0 := demo_bus false) 2 (mkCtl 3 [] [] 100%N) = Ret (0, 2, c') /\
  (fun d => (hub d, port d, devaddr d)) <$> devices c' = [(4, 0, 5); (4, 1, 6); (0, 0, 4); (0, 1, 7)].
Proof. eexists. split; [vm_compute; reflexivity|]. by vm_compute. Qed.

(** A device whose pipe cannot be set up makes [configure_usb_device] return -1,
    which is added to the number of devices. *)
Lemma failure_counts_down : exists c', enumerate_root (Bus0 := demo_bus true) 1 (mkCtl 0 [] [] 100%N) = Ret (0, 2 ^ 32 - 1, c').
Proof. eexists. vm_compute. reflexivity. Qed.
