(* ===== verification/DmaPool.v ===== *)
(** * The memory pool that the host controllers' drivers use

    What core/usb.c promises the drivers, as an interface: blocks of zeroed
    memory that do not overlap.  The pool of Usb.v implements it. *)

From S2P Require Import Prelude Pmm Paging Usb.
Import Pmm.Pmm Vm.

(** [usb_dma_alloc] and [usb_dma_alloc_aligned]; 0 is null. *)
Class DmaPool (P : Type) :=
  { pool_alloc : Z -> P -> run (Z * P);
    pool_aligned : Z -> Z -> P -> run (Z * P) }.

(** A block of at least [n] bytes that is apart from those handed out before. *)
Definition new_block {P : Type} (rel : P -> list (Z * Z) -> Prop) (n va : Z) (p' : P) (live : list (Z * Z)) : Prop :=
  0 < va < 2 ^ 32 /\ va mod 256 = 0 /\ exists b, b.1 = va /\ n <= b.2 /\ rel p' (b :: live) /\ Forall (apart b) live.

(** [pool_rel p live]: [live] are the blocks that were handed out. *)
Class PoolLaws (P : Type) `{!DmaPool P} :=
  { pool_rel : P -> list (Z * Z) -> Prop;
    pool_alloc_spec : forall n p live, pool_rel p live -> 0 < n <= 4096 ->
      exists va p', pool_alloc n p = Ret (va, p') /\ ((va = 0 /\ pool_rel p' live) \/ new_block pool_rel n va p' live);
    pool_aligned_spec : forall n a p live, pool_rel p live -> 0 < n <= 4096 -> a <= 256 ->
      exists va p', pool_aligned n a p = Ret (va, p') /\ ((va = 0 /\ pool_rel p' live) \/ new_block pool_rel n va p' live) }.

#[global] Instance dma_pool (A : Type) `{!FrameAllocator A} : DmaPool (dma A) :=
  {| pool_alloc := usb_dma_alloc; pool_aligned := usb_dma_alloc_aligned |}.

(** Either kind of request is served by a block of its own. *)
Lemma serve_block {A : Type} `{!FrameAllocator A} q (p : dma A) live :
  pool_ok p live -> req_ok q -> exists va p', serve q p = Ret (va, p') /\ ((va = 0 /\ pool_ok p' live) \/ new_block pool_ok (req_size q) va p' live).
Proof.
  intros Hok Hq. pose proof (req_log_bounds q Hq) as Hl. destruct (serve_spec q p live Hok Hq) as (va & p' & E & _ & H). exists va, p'. split; [exact E|].
  destruct H as [(-> & H & _)|(Hv & Hm & H & _)]; [by left|right]. split; [unfold PMM_MAX_ADDR in Hv; lia|]. split.
  - replace (req_log q) with (8 + (req_log q - 8)) in Hm by lia. rewrite Z.pow_add_r in Hm by lia. change (2 ^ 8) with 256 in Hm.
    apply Z.mod_divide in Hm as [k ->]; [|lia]. apply Z.mod_divide; [lia|]. exists (k * 2 ^ (req_log q - 8)). lia.
  - exists (Usb.block q va). split; [done|]. split; [cbn; pose proof (round_up_bounds (req_log q) (req_size q) ltac:(lia)); lia|]. split; [done|].
    pose proof (pool_apart _ _ H) as Ha. by inversion Ha.
Qed.

#[global] Instance dma_pool_laws (A : Type) `{!FrameAllocator A} : PoolLaws (dma A).
Proof.
  refine {| pool_rel := pool_ok |}.
  - intros n p live Hok Hn. by apply (serve_block (Alloc n)).
  - intros n a p live Hok Hn Ha. apply (serve_block (Aligned n a)); [done|]. split; [done|by left].
Defined.
