(* ===== verification/XhciPipe.v ===== *)
(** * iokit/IOUSBFamily: pipes of usb3/xhci.c and the pipe helpers of core/usb.c

    To open a pipe the driver takes a ring and an input context from the memory
    pool, describes the endpoint in the context and sends the controller a
    command that points to it.  The pool is the interface of DmaPool.v.  Shown: whatever a controller
    that keeps to the event protocol answers, opening a pipe returns, and an
    opened pipe has a fresh ring of its own and a context whose fields, read as
    the xHCI specification lays them out, are those of the device and the
    endpoint; and where the interval of interrupt endpoints ends up. *)

From S2P Require Import Prelude Pmm Paging Usb DmaPool Xhci UsbHub.
Import Pmm.Pmm Vm.

(** ** State *)

Record usb_endpoint_descriptor := mkEpDesc { bEndpointAddress : Z; bmAttributes : Z; wMaxPacketSize : Z; bInterval : Z }.

(** [hc]: rings, ports and the clock; [ctxs]: input contexts as words, by
    address; [devs]: the entries of the device table, from slot 0 on; [context64]: contexts have 64 bytes; the
    generic half of a pipe is in [upipes], the controller's half in [xpipes],
    both at the address of the pipe; [cntl]: the controller's address. *)
Record ctl (P : Type) := mkCtl
  { hc : xhci; pool : P; ctxs : gmap Z (list Z); devs : list (Z * Z); context64 : bool; upipes : pipes; xpipes : gmap Z xhci_pipe; cntl : Z }.
Arguments mkCtl {P}.
Arguments hc {P}. Arguments pool {P}. Arguments ctxs {P}. Arguments devs {P}.
Arguments context64 {P}. Arguments upipes {P}. Arguments xpipes {P}. Arguments cntl {P}.

Definition USB_TYPE_XHCI : Z := 4.
Definition USB_ENDPOINT_XFER_CONTROL : Z := 0.
Definition USB_ENDPOINT_XFER_INT : Z := 3.
Definition SIZEOF_XHCI_PIPE : Z := 328.
Definition speed_to_xhci : list Z := [1; 2; 3; 4].

Definition usb_xfer_time (p : usb_pipe) : Z := if Usb.devaddr p =? 0 then 50 + 100 else 5000 + 100.

Definition ctx_or (i v : Z) (l : list Z) : run (list Z) := w ← of_option (l !! Z.to_nat i); Ret (<[Z.to_nat i := Z.lor w v]> l).
Definition ctx_set (i v : Z) (l : list Z) : run (list Z) := _ ← of_option (l !! Z.to_nat i); Ret (<[Z.to_nat i := v]> l).

(** [log2] of the service interval, bounded to 2, 4 and 6. *)
Definition int_interval (spd interval : Z) : run Z :=
  i ← (if (spd =? 2) || (spd =? 3) then Ret interval else f ← fls interval; Ret (u32 (f + 4)));
  let i := Z.land i (u32 (Z.lnot 1)) in
  let i := if i <? 2 then 2 else i in
  Ret (if 6 <? i then 6 else i).

Definition ep_id (e : usb_endpoint_descriptor) : Z :=
  if bEndpointAddress e =? 0 then 1
  else Z.land (bEndpointAddress e) 0x0f * 2 + (if Z.land (bEndpointAddress e) 0x80 =? 0 then 0 else 1).
Definition ep_type (e : usb_endpoint_descriptor) : Z := Z.land (bmAttributes e) 3.

(** ** Opening pipes *)

(** A fresh input context with its slot context, [n] words each. *)
Definition slot_words (d : usbdevice) (maxepid n : Z) : run (list Z) :=
  v ← of_option (if speed d <? 0 then None else speed_to_xhci !! Z.to_nat (speed d));
  c ← ctx_or n (u32 (Z.shiftl maxepid 27)) (replicate (Z.to_nat (33 * (4 * n) / 4)) 0);
  c ← ctx_or n (u32 (Z.shiftl v 20)) c;
  ctx_or (n + 1) (u32 (Z.shiftl (port d + 1) 16)) c.

(** The context of the endpoint, at word [o]. *)
Definition fill_ep (d : usbdevice) (e : usb_endpoint_descriptor) (va o : Z) (c : list Z) : run (list Z) :=
  let t := ep_type e in
  c ← (if t =? USB_ENDPOINT_XFER_INT then
         i ← int_interval (speed d) (bInterval e); ctx_set o (Z.lor (Z.shiftl i 12) (Z.shiftl 3 16)) c
       else Ret c);
  c ← ctx_or (o + 1) (Z.shiftl t 3) c;
  c ← (if negb (Z.land (bEndpointAddress e) 0x80 =? 0) || (t =? USB_ENDPOINT_XFER_CONTROL) then ctx_or (o + 1) (Z.shiftl 1 5) c else Ret c);
  c ← ctx_or (o + 1) (Z.shiftl (wMaxPacketSize e) 16) c;
  c ← ctx_set (o + 2) (u32 (Z.lor va 1)) c;
  c ← ctx_set (o + 3) (u32 (Z.shiftr (Z.lor va 1) 32)) c;
  ctx_set (o + 4) (wMaxPacketSize e) c.

(** The flags of the context, and its endpoint. *)
Definition ep_words (d : usbdevice) (e : usb_endpoint_descriptor) (va n : Z) (c : list Z) : run (list Z) :=
  c ← ctx_set 1 (Z.lor 1 (u32 (Z.shiftl 1 (ep_id e)))) c;
  fill_ep d e va ((ep_id e + 1) * n) c.

Section Pipes.
Context {P : Type} `{!DmaPool P} (usb_msleep : Z -> xhci -> xhci).
Implicit Types s : ctl P.

Definition set_hc (h : xhci) s : ctl P := mkCtl h (pool s) (ctxs s) (devs s) (context64 s) (upipes s) (xpipes s) (cntl s).
Definition set_pool (p : P) s : ctl P := mkCtl (hc s) p (ctxs s) (devs s) (context64 s) (upipes s) (xpipes s) (cntl s).
Definition set_ctx (a : Z) (l : list Z) s : ctl P := mkCtl (hc s) (pool s) (<[a := l]> (ctxs s)) (devs s) (context64 s) (upipes s) (xpipes s) (cntl s).
Definition set_devs (l : list (Z * Z)) s : ctl P := mkCtl (hc s) (pool s) (ctxs s) l (context64 s) (upipes s) (xpipes s) (cntl s).
Definition set_upipes (u : pipes) s : ctl P := mkCtl (hc s) (pool s) (ctxs s) (devs s) (context64 s) u (xpipes s) (cntl s).
Definition set_xpipe (a : Z) (x : xhci_pipe) s : ctl P := mkCtl (hc s) (pool s) (ctxs s) (devs s) (context64 s) (upipes s) (<[a := x]> (xpipes s)) (cntl s).

Definition take_mem (n : Z) s : run (Z * ctl P) := '(va, p) ← pool_alloc n (pool s); Ret (va, set_pool p s).

Definition usb_desc2pipe (pipe : Z) (d : usbdevice) (e : usb_endpoint_descriptor) s : ctl P :=
  let p := Usb.mkPipe (cntl s) (ep_type e) (Z.land (bEndpointAddress e) 0x0f) (devaddr d) (speed d) (wMaxPacketSize e) USB_TYPE_XHCI in
  set_upipes (mkPipes (<[pipe := p]> (heap (upipes s))) (freelist (upipes s))) s.

(** Words of a context. *)
Definition ctx_words s : Z := if context64 s then 16 else 8.

Definition xhci_alloc_inctx (d : usbdevice) (maxepid : Z) s : run (Z * ctl P) :=
  let size := 33 * (4 * ctx_words s) in
  '(va, s) ← take_mem size s;
  if va =? 0 then Ret (0, s)
  else
    c ← slot_words d maxepid (ctx_words s);
    Ret (va, set_ctx va c s).

(** The argument of a command: the context's address and the word of its slot
    context that [xhci_cmd_submit] looks at. *)
Definition inctx_arg (a : Z) s : run (Z * Z) :=
  c ← of_option (ctxs s !! a); w ← of_option (c !! Z.to_nat (ctx_words s + 1)); Ret (a, w).

(** Endpoint 0: a slot for the device, and its address.  0 is null. *)
Definition open_slot (va inn : Z) s : run (Z * ctl P) :=
  '(dev, s) ← take_mem (32 * (4 * ctx_words s)) s;
  if dev =? 0 then Ret (0, s)
  else
    '(slot, h) ← xhci_cmd_enable_slot usb_msleep (hc s);
    let s := set_hc h s in
    if slot <? 0 then Ret (0, s)
    else
      _ ← of_option (devs s !! Z.to_nat slot);
      let s := set_devs (<[Z.to_nat slot := (u32 dev, u32 (Z.shiftr dev 32))]> (devs s)) s in
      arg ← inctx_arg inn s;
      '(cc, h) ← xhci_cmd_address_device usb_msleep slot arg (hc s);
      let s := set_hc h s in
      if negb (cc =? CC_SUCCESS) then
        '(_, h) ← xhci_cmd_disable_slot usb_msleep slot (hc s);
        let s := set_hc h s in
        d ← of_option (devs s !! Z.to_nat slot);
        Ret (0, set_devs (<[Z.to_nat slot := (0, d.2)]> (devs s)) s)
      else
        x ← of_option (xpipes s !! va);
        Ret (va, set_xpipe va (Xhci.mkPipe (reqs x) slot (epid x) (Xhci.maxpacket x) (buf x) (bufused x)) s).

(** The other endpoints, through the slot of the device's default pipe. *)
Definition open_endpoint (va inn defpipe : Z) s : run (Z * ctl P) :=
  dp ← of_option (xpipes s !! defpipe);
  x ← of_option (xpipes s !! va);
  let s := set_xpipe va (Xhci.mkPipe (reqs x) (slotid dp) (epid x) (Xhci.maxpacket x) (buf x) (bufused x)) s in
  arg ← inctx_arg inn s;
  '(cc, h) ← xhci_cmd_configure_endpoint usb_msleep (slotid dp) arg (hc s);
  Ret (if cc =? CC_SUCCESS then va else 0, set_hc h s).

(** Filling in the input context and sending it. *)
Definition open_context (d : usbdevice) (defpipe : Z) (e : usb_endpoint_descriptor) (va : Z) s : run (Z * ctl P) :=
  let id := ep_id e in
  '(inn, s) ← xhci_alloc_inctx d id s;
  if inn =? 0 then Ret (0, s)
  else
    c ← of_option (ctxs s !! inn);
    c ← ep_words d e va (ctx_words s) c;
    let s := set_ctx inn c s in
    if id =? 1 then open_slot va inn s else open_endpoint va inn defpipe s.

Definition xhci_alloc_pipe (d : usbdevice) (defpipe : Z) (e : usb_endpoint_descriptor) s : run (Z * ctl P) :=
  '(va, s) ← take_mem SIZEOF_XHCI_PIPE s;
  if va =? 0 then Ret (0, s)
  else
    let s := usb_desc2pipe va d e s in
    let s := set_hc (set_ring_at va new_ring (hc s)) s in
    let x b := Xhci.mkPipe va 0 (ep_id e) (wMaxPacketSize e) b false in
    if ep_type e =? USB_ENDPOINT_XFER_INT then
      '(b, s) ← take_mem (wMaxPacketSize e) (set_xpipe va (x 0) s);
      if b =? 0 then Ret (0, s) else open_context d defpipe e va (set_xpipe va (x b) s)
    else open_context d defpipe e va (set_xpipe va (x 0) s).

(** The maximal packet of a control endpoint has changed. *)
Definition reconfigure (d : usbdevice) (upipe : Z) (x : xhci_pipe) (mp : Z) s : run (Z * ctl P) :=
  '(inn, s) ← xhci_alloc_inctx d 1 s;
  if inn =? 0 then Ret (upipe, s)
  else
    c ← of_option (ctxs s !! inn);
    c ← ctx_set 1 2 c;
    c ← ctx_or (2 * ctx_words s + 1) (Z.shiftl mp 16) c;
    let s := set_ctx inn c s in
    arg ← inctx_arg inn s;
    '(_, h) ← xhci_cmd_evaluate_context usb_msleep (slotid x) arg (hc s);
    Ret (upipe, set_hc h s).

Definition xhci_realloc_pipe (d : usbdevice) (defpipe upipe : Z) (epdesc : option usb_endpoint_descriptor) s : run (Z * ctl P) :=
  match epdesc with
  | None => u ← usb_add_freelist upipe (upipes s); Ret (0, set_upipes u s)
  | Some e =>
      if upipe =? 0 then xhci_alloc_pipe d defpipe e s
      else
        old ← of_option (heap (upipes s) !! upipe);
        x ← of_option (xpipes s !! upipe);
        let s := usb_desc2pipe upipe d e s in
        let mp := wMaxPacketSize e in
        let x := Xhci.mkPipe (reqs x) (slotid x) (epid x) mp (buf x) (bufused x) in
        let s := set_xpipe upipe x s in
        if negb (ep_type e =? USB_ENDPOINT_XFER_CONTROL) || (mp =? Usb.maxpacket old) then Ret (upipe, s)
        else reconfigure d upipe x mp s
  end.
End Pipes.

(** ** Words of a context *)

Definition word (l : list Z) (i : Z) : Z := nth (Z.to_nat i) l 0.
Definition field (w k n : Z) : Z := Z.land (Z.shiftr w k) (Z.ones n).

Lemma word_put l i v j : 0 <= i < Z.of_nat (length l) -> 0 <= j -> word (<[Z.to_nat i := v]> l) j = if i =? j then v else word l j.
Proof.
  intros Hi Hj. unfold word. rewrite !nth_lookup. destruct (Z.eqb_spec i j) as [<-|Hne]; [by rewrite list_lookup_insert_eq by lia|].
  by rewrite list_lookup_insert_ne by lia.
Qed.

Lemma word_lookup l i : 0 <= i < Z.of_nat (length l) -> l !! Z.to_nat i = Some (word l i).
Proof. intros Hi. destruct (lookup_lt_is_Some_2 l (Z.to_nat i)) as [w Hw]; [lia|]. unfold word. by rewrite nth_lookup, Hw. Qed.

Lemma ctx_or_spec i v l : 0 <= i < Z.of_nat (length l) -> ctx_or i v l = Ret (<[Z.to_nat i := Z.lor (word l i) v]> l).
Proof.
  intros Hi. unfold ctx_or. rewrite (word_lookup l i Hi). cbn [of_option]. by rewrite bind_ret.
Qed.

Lemma ctx_set_spec i v l : 0 <= i < Z.of_nat (length l) -> ctx_set i v l = Ret (<[Z.to_nat i := v]> l).
Proof. intros Hi. unfold ctx_set. rewrite (word_lookup l i Hi). cbn [of_option]. by rewrite bind_ret. Qed.

Lemma word_zeros n i : word (replicate n 0) i = 0.
Proof. unfold word. generalize (Z.to_nat i). induction n; intros [|k]; cbn; done. Qed.

(** Bits below a shifted value. *)
Lemma shl_land x k m : 0 <= k -> 0 <= m < 2 ^ k -> Z.land (Z.shiftl x k) m = 0.
Proof.
  intros Hk Hm. apply Z.bits_inj'. intros i Hi. rewrite Z.land_spec, Z.bits_0. destruct (Z.lt_ge_cases i k) as [Hik|Hik]; [by rewrite Z.shiftl_spec_low|].
  destruct (decide (m = 0)) as [->|Hm0]; [by rewrite Z.bits_0, andb_false_r|]. rewrite (Z.bits_above_log2 m i), andb_false_r; [done|lia|].
  apply Z.lt_le_trans with k; [|done]. apply Z.log2_lt_pow2; lia.
Qed.

(** The upper and the lower part of two joined fields. *)
Lemma field_high lo x k n : 0 <= k -> 0 <= n -> 0 <= lo < 2 ^ k -> 0 <= x < 2 ^ n -> field (Z.lor lo (Z.shiftl x k)) k n = x.
Proof.
  intros Hk Hn Hlo Hx. unfold field. rewrite Z.shiftr_lor, Z.shiftr_shiftl_l, Z.sub_diag, Z.shiftl_0_r by lia. rewrite (Z.shiftr_div_pow2 lo), Z.div_small by lia.
  by rewrite Z.lor_0_l, Z.land_ones, Z.mod_small by lia.
Qed.

Lemma field_low lo x k j n : 0 <= j -> 0 <= n -> j + n <= k -> field (Z.lor lo (Z.shiftl x k)) j n = field lo j n.
Proof.
  intros Hj Hn Hk. unfold field. rewrite Z.shiftr_lor, Z.shiftr_shiftl_l, Z.land_lor_distr_l by lia. rewrite (shl_land x (k - j) (Z.ones n)), Z.lor_0_r; [done|lia|].
  rewrite Z.ones_equiv. assert (2 ^ n <= 2 ^ (k - j)) by (apply Z.pow_le_mono_r; lia). lia.
Qed.

(** ** What a context says *)

(** The fields of an input context as the xHCI specification lays them out: the
    flags of the slot and of the endpoint; entries, speed and port in the slot
    context; type, packet size, dequeue pointer with its cycle bit and the
    average length in the endpoint context; nothing else.  The first word of the
    endpoint, whose bits 16 to 23 are the interval by the specification, is as
    the code fills it: for interrupt endpoints the interval in bits 12 to 15
    and a 3 in the place of the interval. *)
Record describes (n : Z) (d : usbdevice) (e : usb_endpoint_descriptor) (va : Z) (c : list Z) : Prop :=
  { ds_length : Z.of_nat (length c) = 33 * n;
    ds_add : word c 1 = 1 + 2 ^ ep_id e;
    ds_entries : field (word c n) 27 5 = ep_id e;
    ds_speed : field (word c n) 20 4 = speed d + 1;
    ds_port : field (word c (n + 1)) 16 8 = port d + 1;
    ds_first : if decide (ep_type e = USB_ENDPOINT_XFER_INT)
               then exists v, int_interval (speed d) (bInterval e) = Ret v /\ (v = 2 \/ v = 4 \/ v = 6) /\
                    word c ((ep_id e + 1) * n) = v * 2 ^ 12 + 3 * 2 ^ 16
               else word c ((ep_id e + 1) * n) = 0;
    ds_type : field (word c ((ep_id e + 1) * n + 1)) 3 3 =
      ep_type e + (if decide (Z.land (bEndpointAddress e) 0x80 <> 0 \/ ep_type e = USB_ENDPOINT_XFER_CONTROL) then 4 else 0);
    ds_packet : field (word c ((ep_id e + 1) * n + 1)) 16 16 = wMaxPacketSize e;
    ds_dequeue : word c ((ep_id e + 1) * n + 2) + 2 ^ 32 * word c ((ep_id e + 1) * n + 3) = va + 1;
    ds_average : word c ((ep_id e + 1) * n + 4) = wMaxPacketSize e;
    ds_rest : forall i, 0 <= i -> i <> 1 -> i <> n -> i <> n + 1 -> ~ (ep_id e + 1) * n <= i <= (ep_id e + 1) * n + 4 -> word c i = 0 }.

Definition device_ok (d : usbdevice) : Prop := 0 <= speed d < 4 /\ 0 <= port d < 255.
Definition ep_ok (e : usb_endpoint_descriptor) : Prop :=
  byte_ok (bEndpointAddress e) /\ (bEndpointAddress e = 0 \/ Z.land (bEndpointAddress e) 0x0f <> 0) /\ 0 <= bmAttributes e /\
  0 < wMaxPacketSize e <= 4096 /\ byte_ok (bInterval e).

Lemma ep_id_bounds e : ep_ok e -> 1 <= ep_id e <= 31.
Proof.
  intros (_ & Ha & _). unfold ep_id. destruct (Z.eqb_spec (bEndpointAddress e) 0); [lia|]. destruct Ha as [?|Ha]; [done|].
  pose proof (land_bound (bEndpointAddress e) 0x0f 4 ltac:(lia) ltac:(lia)). destruct (Z.land (bEndpointAddress e) 0x80 =? 0); lia.
Qed.
Lemma ep_type_bounds e : 0 <= ep_type e < 4.
Proof. apply (land_bound _ _ 2); lia. Qed.

Lemma fls_returns w : 0 <= w < 256 -> exists f, fls w = Ret f /\ -1 <= f < 8.
Proof.
  intros Hw. assert (Forall (fun w => exists f, fls w = Ret f /\ -1 <= f < 8) (seqZ 0 256)) as H; [|by apply (proj1 (Forall_forall _ _) H), elem_of_seqZ; lia].
  assert (forallb (fun w => match fls w with Ret f => (-1 <=? f) && (f <? 8) | _ => false end) (seqZ 0 256) = true) as Hc by (vm_compute; reflexivity).
  apply Forall_forall. intros x Hx%list_elem_of_In. rewrite forallb_forall in Hc. specialize (Hc x Hx). destruct (fls x) as [f| |]; try done. exists f. split; [done|]. apply andb_prop in Hc as [? ?]. lia.
Qed.

(** Whatever the descriptor says, the interval is 2, 4 or 6. *)
Lemma interval_returns spd i : byte_ok i -> exists v, int_interval spd i = Ret v /\ (v = 2 \/ v = 4 \/ v = 6).
Proof.
  intros Hi. assert (Hc : forallb (fun w => let v := Z.land w (u32 (Z.lnot 1)) in let v := if v <? 2 then 2 else v in let v := if 6 <? v then 6 else v in (v =? 2) || (v =? 4) || (v =? 6)) (seqZ 0 256) = true) by (vm_compute; reflexivity).
  assert (Hcase : forall w, 0 <= w < 256 -> exists v, (let v := Z.land w (u32 (Z.lnot 1)) in let v := if v <? 2 then 2 else v in Ret (if 6 <? v then 6 else v)) = Ret v /\ (v = 2 \/ v = 4 \/ v = 6)).
  { intros w Hw. eexists. split; [done|]. rewrite forallb_forall in Hc. specialize (Hc w). cbn zeta in Hc |- *. assert (In w (seqZ 0 256)) as Hin by (apply list_elem_of_In, elem_of_seqZ; lia). specialize (Hc Hin). lia. }
  unfold int_interval. destruct ((spd =? 2) || (spd =? 3)); [rewrite bind_ret; apply Hcase; unfold byte_ok in Hi; lia|].
  destruct (fls_returns i) as (f & -> & Hf); [unfold byte_ok in Hi; lia|]. rewrite !bind_ret. apply Hcase. rewrite u32_small by lia. lia.
Qed.

Lemma lor_even va : va mod 2 = 0 -> Z.lor va 1 = va + 1.
Proof.
  intros H. pose proof (Z.add_lor_land va 1) as E. assert (Z.land va 1 = 0) as E0 by (change (Z.land va (Z.ones 1) = 0); by rewrite Z.land_ones, Z.pow_1_r by lia). lia.
Qed.

Lemma lor_one_bit k : 1 <= k -> Z.lor 1 (2 ^ k) = 1 + 2 ^ k.
Proof.
  intros Hk. pose proof (Z.add_lor_land 1 (2 ^ k)) as E. rewrite Z.land_comm, <- (Z.mul_1_l (2 ^ k)), <- Z.shiftl_mul_pow2, (shl_land 1 k 1) in E; [|lia| |lia].
  - rewrite Z.shiftl_mul_pow2, Z.mul_1_l in E by lia. lia.
  - split; [lia|]. apply Z.lt_le_trans with (2 ^ 1); [lia|apply Z.pow_le_mono_r; lia].
Qed.

(** The slot context is filled in. *)
Record slot_filled (n : Z) (d : usbdevice) (id : Z) (c : list Z) : Prop :=
  { sf_length : Z.of_nat (length c) = 33 * n;
    sf_slot0 : word c n = Z.lor (Z.shiftl id 27) (Z.shiftl (speed d + 1) 20);
    sf_slot1 : word c (n + 1) = Z.shiftl (port d + 1) 16;
    sf_rest : forall i, 0 <= i -> i <> n -> i <> n + 1 -> word c i = 0 }.

Lemma shiftl_small x k n : 0 <= k -> 0 <= x < 2 ^ n -> 0 <= n -> 0 <= Z.shiftl x k < 2 ^ (n + k).
Proof. intros Hk Hx Hn. rewrite Z.shiftl_mul_pow2, Z.pow_add_r by lia. assert (0 < 2 ^ k) by lia. nia. Qed.

Ltac words := rewrite ?length_insert; lia.

Lemma fill_slot n d id :
  n = 8 \/ n = 16 -> device_ok d -> 1 <= id <= 31 ->
  exists c, slot_words d id n = Ret c /\ slot_filled n d id c.
Proof.
  intros Hn [Hs Hp] Hid. unfold slot_words. replace (33 * (4 * n) / 4) with (33 * n) by (Z.div_mod_to_equations; lia).
  assert ((if speed d <? 0 then None else speed_to_xhci !! Z.to_nat (speed d)) = Some (speed d + 1)) as ->.
  { assert (speed d = 0 \/ speed d = 1 \/ speed d = 2 \/ speed d = 3) as [->|[->|[->| ->]]] by lia; done. }
  cbn [of_option]. rewrite bind_ret. pose proof (shiftl_small id 27 5 ltac:(lia) ltac:(lia) ltac:(lia)). pose proof (shiftl_small (speed d + 1) 20 4 ltac:(lia) ltac:(lia) ltac:(lia)). pose proof (shiftl_small (port d + 1) 16 8 ltac:(lia) ltac:(lia) ltac:(lia)).
  rewrite !u32_small by lia. rewrite ctx_or_spec, bind_ret by (rewrite length_replicate; lia). rewrite ctx_or_spec, bind_ret by (rewrite length_insert, length_replicate; lia).
  rewrite ctx_or_spec by (rewrite !length_insert, length_replicate; lia). eexists. split; [done|].
  assert (forall i, 0 <= i -> word (replicate (Z.to_nat (33 * n)) 0) i = 0) as Hz by (intros; apply word_zeros).
  constructor; [rewrite !length_insert, length_replicate; lia|..]; intros; rewrite !word_put by (rewrite ?length_insert, ?length_replicate; lia); rewrite ?Z.eqb_refl.
  - rewrite (proj2 (Z.eqb_neq (n + 1) n)), Hz, Z.lor_0_l by lia. done.
  - rewrite (proj2 (Z.eqb_neq n (n + 1))), Hz, Z.lor_0_l by lia. done.
  - by rewrite (proj2 (Z.eqb_neq (n + 1) i)), (proj2 (Z.eqb_neq n i)), Hz by lia.
Qed.

(** The word with the endpoint's type and packet size. *)
Lemma type_word t mp b :
  0 <= t < 4 -> 0 <= mp < 2 ^ 16 ->
  let w := Z.lor (if (b : bool) then Z.lor (Z.shiftl t 3) (Z.shiftl 1 5) else Z.shiftl t 3) (Z.shiftl mp 16) in
  field w 3 3 = t + (if b then 4 else 0) /\ field w 16 16 = mp.
Proof.
  intros Ht Hm w. assert (t = 0 \/ t = 1 \/ t = 2 \/ t = 3) as Hc by lia. unfold w. split.
  - rewrite field_low by lia. by destruct Hc as [->|[->|[->| ->]]], b.
  - apply field_high; try lia. by destruct Hc as [->|[->|[->| ->]]], b.
Qed.

(** The type bits, with the bit for input and control endpoints. *)
Definition type_bits (e : usb_endpoint_descriptor) : Z :=
  if negb (Z.land (bEndpointAddress e) 128 =? 0) || (ep_type e =? USB_ENDPOINT_XFER_CONTROL) then Z.lor (Z.shiftl (ep_type e) 3) (Z.shiftl 1 5) else Z.shiftl (ep_type e) 3.

(** The first word of an endpoint's context, which was [old]. *)
Definition first_word (d : usbdevice) (e : usb_endpoint_descriptor) (old w : Z) : Prop :=
  if decide (ep_type e = USB_ENDPOINT_XFER_INT)
  then exists v, int_interval (speed d) (bInterval e) = Ret v /\ (v = 2 \/ v = 4 \/ v = 6) /\ w = v * 2 ^ 12 + 3 * 2 ^ 16
  else w = old.

(** The words that filling in an endpoint at [o] writes. *)
Lemma fill_ep_words d e va o c :
  ep_ok e -> 0 <= o -> o + 4 < Z.of_nat (length c) -> 0 < va < 2 ^ 32 -> va mod 256 = 0 -> word c (o + 1) = 0 ->
  exists c' w0, fill_ep d e va o c = Ret c' /\ length c' = length c /\ first_word d e (word c o) w0 /\
    forall i, 0 <= i -> word c' i =
      if o + 4 =? i then wMaxPacketSize e else if o + 3 =? i then 0 else if o + 2 =? i then va + 1
      else if o + 1 =? i then Z.lor (type_bits e) (Z.shiftl (wMaxPacketSize e) 16) else if o =? i then w0 else word c i.
Proof.
  intros (_ & _ & _ & Hw & Hi) Ho Hl Hva Hm Hz. unfold fill_ep.
  assert (exists w c1, (if ep_type e =? USB_ENDPOINT_XFER_INT then i ← int_interval (speed d) (bInterval e); ctx_set o (Z.lor (Z.shiftl i 12) (Z.shiftl 3 16)) c else Ret c) = Ret c1 /\
    length c1 = length c /\ first_word d e (word c o) w /\ forall i, 0 <= i -> word c1 i = if o =? i then w else word c i) as (w0 & c1 & -> & Hl1 & Hfw & Hc1).
  { unfold first_word. destruct (Z.eqb_spec (ep_type e) USB_ENDPOINT_XFER_INT) as [Ei|Ei].
    - destruct (interval_returns (speed d) (bInterval e) Hi) as (v & Ev & Hv). rewrite Ev, bind_ret, ctx_set_spec by words. eexists _, _. split; [done|]. rewrite !length_insert. split; [done|]. split; [|intros i Hi0; by rewrite !word_put by words].
      rewrite decide_True by done. exists v. split; [done|]. split; [done|]. by destruct Hv as [->|[->| ->]].
    - exists (word c o), c. split_and!; try done; [by rewrite decide_False|]. intros i Hi0. by destruct (Z.eqb_spec o i) as [<-|_]. }
  rewrite bind_ret, ctx_or_spec, bind_ret by words. rewrite Hc1, (proj2 (Z.eqb_neq o (o + 1))), Hz, Z.lor_0_l by lia.
  set (b := negb (Z.land (bEndpointAddress e) 128 =? 0) || (ep_type e =? USB_ENDPOINT_XFER_CONTROL)). set (t0 := Z.shiftl (ep_type e) 3).
  assert (exists c2, (if b then ctx_or (o + 1) (Z.shiftl 1 5) (<[Z.to_nat (o + 1) := t0]> c1) else Ret (<[Z.to_nat (o + 1) := t0]> c1)) = Ret c2 /\
    length c2 = length c /\ forall i, 0 <= i -> word c2 i = if o + 1 =? i then type_bits e else word c1 i) as (c2 & -> & Hl2 & Hc2).
  { unfold type_bits. fold b t0. destruct b.
    - rewrite ctx_or_spec by words. eexists. split; [done|]. rewrite !length_insert. split; [done|]. intros i Hi0. rewrite !word_put by words. rewrite Z.eqb_refl. by destruct (o + 1 =? i).
    - eexists. split; [done|]. rewrite length_insert. split; [done|]. intros i Hi0. by rewrite word_put by words. }
  rewrite bind_ret, ctx_or_spec, bind_ret by words. rewrite Hc2, Z.eqb_refl by lia. rewrite lor_even by (Z.div_mod_to_equations; lia).
  rewrite (u32_small (va + 1)) by (Z.div_mod_to_equations; lia). rewrite (Z.shiftr_div_pow2 (va + 1) 32), (Z.div_small (va + 1)) by (Z.div_mod_to_equations; lia). change (u32 0) with 0.
  rewrite ctx_set_spec, bind_ret by words. rewrite ctx_set_spec, bind_ret by words. rewrite ctx_set_spec by words.
  eexists _, w0. split; [done|]. split; [by rewrite !length_insert|]. split; [done|]. intros i Hi0. rewrite !word_put by words. rewrite Hc2, Hc1 by done. by destruct (o + 1 =? i).
Qed.

Ltac at_word Hw := rewrite Hw by lia; repeat (first [rewrite Z.eqb_refl | rewrite (proj2 (Z.eqb_neq _ _)) by lia]).

Lemma fill_ep_spec n d e va c :
  n = 8 \/ n = 16 -> device_ok d -> ep_ok e -> 0 < va < 2 ^ 32 -> va mod 256 = 0 -> slot_filled n d (ep_id e) c ->
  exists c', ep_words d e va n c = Ret c' /\ describes n d e va c' /\ word c' (n + 1) = Z.shiftl (port d + 1) 16.
Proof.
  intros Hn [Hs Hp] He Hva Hm [Hl H0 H1 Hr]. unfold ep_words. pose proof (ep_id_bounds e He) as Hid. pose proof (ep_type_bounds e) as Ht. pose proof He as (_ & _ & _ & Hw & _).
  set (id := ep_id e) in *. set (o := (id + 1) * n) in *. assert (2 * n <= o /\ o + n <= 33 * n) as Ho by (subst o; nia).
  rewrite Z.shiftl_mul_pow2, Z.mul_1_l by lia. assert (2 ^ 1 <= 2 ^ id <= 2 ^ 31) as Hpw by (split; apply Z.pow_le_mono_r; lia). rewrite u32_small, lor_one_bit by lia.
  rewrite ctx_set_spec, bind_ret by lia. set (c0 := <[Z.to_nat 1 := 1 + 2 ^ id]> c).
  assert (forall i, 0 <= i -> word c0 i = if 1 =? i then 1 + 2 ^ id else word c i) as Hc0 by (intros i Hi0; unfold c0; by rewrite word_put by lia).
  destruct (fill_ep_words d e va o c0 He ltac:(lia) ltac:(unfold c0; words) Hva Hm) as (c' & w0 & -> & Hl' & Hfw & Hw'); [at_word Hc0; apply Hr; lia|].
  exists c'. split; [done|]. destruct (type_word (ep_type e) (wMaxPacketSize e) (negb (Z.land (bEndpointAddress e) 128 =? 0) || (ep_type e =? USB_ENDPOINT_XFER_CONTROL)) Ht ltac:(lia)) as [T1 T2]. fold (type_bits e) in T1, T2.
  pose proof (shiftl_small (speed d + 1) 20 4 ltac:(lia) ltac:(lia) ltac:(lia)) as Hsp. change (2 ^ (4 + 20)) with (2 ^ 24) in Hsp.
  assert (word c' n = word c n /\ word c' (n + 1) = word c (n + 1) /\ word c' 1 = 1 + 2 ^ id) as (Wn & Wn1 & W1) by (split_and!; at_word Hw'; by at_word Hc0).
  split; [constructor; fold id o|].
  - rewrite Hl'. unfold c0. rewrite length_insert. lia.
  - done.
  - rewrite Wn, H0, Z.lor_comm. apply field_high; lia.
  - rewrite Wn, H0, Z.lor_comm, field_low by lia. rewrite <- (Z.lor_0_l (Z.shiftl _ 20)). apply field_high; lia.
  - rewrite Wn1, H1, <- (Z.lor_0_l (Z.shiftl _ 16)). apply field_high; lia.
  - assert (word c' o = w0) as -> by (by at_word Hw'). unfold first_word in Hfw. case_decide; [done|]. rewrite Hfw. at_word Hc0. apply Hr; lia.
  - at_word Hw'. rewrite T1. f_equal. case_decide; case_match; try done; lia.
  - by at_word Hw'.
  - assert (word c' (o + 2) = va + 1) as -> by (by at_word Hw'). assert (word c' (o + 3) = 0) as -> by (by at_word Hw'). lia.
  - by at_word Hw'.
  - intros i Hi0 Hi1 Hi2 Hi3 Hi4. at_word Hw'. at_word Hc0. by apply Hr.
  - by rewrite Wn1.
Qed.

(** ** A controller that keeps to the protocol *)

Definition slot_of (t : xhci_trb) : Z := Z.land (Z.shiftr (trb_control t) 24) 0xff.

(** The rest of the event ring is from the lap before. *)
Record lap_ok (es : list xhci_trb) (e : xhci_ring) : Prop :=
  { lo_posted : posted es e;
    lo_old : forall j, (length es <= j < 16)%nat -> exists t, ring e !! Z.to_nat (place e j) = Some t /\ Z.land (trb_control t) TRB_C <> lap_bit e j }.

Definition request_ring (r : xhci_ring) : Prop := length (ring r) = 16%nat /\ 0 <= nidx r <= 15 /\ (cs r = 0 \/ cs r = 1).

(** [nslots]: the slots of the controller and slot 0. *)
Record running (nslots : Z) (h : xhci) : Prop :=
  { rn_ms : 0 <= ms h;
    rn_ne : cmds h <> evts h;
    rn_cmds : exists r, rings h !! cmds h = Some r /\ request_ring r /\ slot_of (evt r) < nslots;
    rn_evts : exists e es, rings h !! evts h = Some e /\ lap_ok es e /\ Forall (event_ok h) es /\ Forall (fun t => slot_of t < nslots) es }.

(** Only event rings and the marks of what has completed change. *)
Definition same_requests (r r' : xhci_ring) : Prop := ring r' = ring r /\ nidx r' = nidx r /\ cs r' = cs r.
Definition kept (h h' : xhci) : Prop :=
  cmds h' = cmds h /\ evts h' = evts h /\ length (portscs h') = length (portscs h) /\
  forall a, a <> evts h -> option_Forall2 same_requests (rings h !! a) (rings h' !! a).

#[global] Instance same_requests_preorder : PreOrder same_requests.
Proof. split; [by intros r|]. intros r1 r2 r3 (? & ? & ?) (? & ? & ?). unfold same_requests. by split_and!; etrans. Qed.
#[global] Instance kept_preorder : PreOrder kept.
Proof.
  split; [intros h; unfold kept; by split_and!|]. intros h1 h2 h3 (A1 & A2 & A3 & A4) (B1 & B2 & B3 & B4). split_and!; try congruence.
  intros a Ha. etrans; [by apply A4|]. apply B4. by rewrite A2.
Qed.

(** The same with the command ring left out. *)
Definition others (h h' : xhci) : Prop :=
  cmds h' = cmds h /\ evts h' = evts h /\ length (portscs h') = length (portscs h) /\
  forall a, a <> evts h -> a <> cmds h -> option_Forall2 same_requests (rings h !! a) (rings h' !! a).
#[global] Instance others_preorder : PreOrder others.
Proof.
  split; [intros h; unfold others; by split_and!|]. intros h1 h2 h3 (A1 & A2 & A3 & A4) (B1 & B2 & B3 & B4). split_and!; try congruence.
  intros a Ha Ha'. etrans; [by apply A4|]. apply B4; congruence.
Qed.
Lemma kept_others h h' : kept h h' -> others h h'.
Proof. intros (? & ? & ? & H). split_and!; try done. intros a Ha _. by apply H. Qed.

(** The lower 32 bits of the clock do not wrap around for [k] milliseconds. *)
Definition clock_left (k : Z) (h : xhci) : Prop := usb_now_ms (ms h) + k < 2 ^ 32.

Lemma clock_left_later k t h h' : 0 <= k -> clock_left (k + t) h -> ms h <= ms h' <= ms h + t -> clock_left k h'.
Proof. unfold clock_left. intros Hk Hc Hm. rewrite (usb_now_later (ms h) (ms h')) by lia. lia. Qed.

(** While the driver sleeps the controller may post events, and time passes. *)
Class Controller (nslots : Z) (sleep : Z -> xhci -> xhci) : Prop :=
  { sleep_running : forall n h, 0 < n -> running nslots h -> running nslots (sleep n h);
    sleep_kept : forall n h, 0 < n -> running nslots h -> kept h (sleep n h);
    sleep_ms : forall n h, 0 < n -> running nslots h -> slept n (ms h) (ms (sleep n h)) }.

Lemma lap_ok_moved es e : lap_ok es e -> lap_ok [] (moved e (length es)).
Proof.
  intros [[Hn Hc Hr Hev Hnx] Hold]. assert (forall j, (j < 16)%nat -> exists t, ring e !! Z.to_nat (place (moved e (length es)) j) = Some t /\ Z.land (trb_control t) TRB_C <> lap_bit (moved e (length es)) j) as Hall.
  { intros j Hj. set (k := length es) in *. assert (place (moved e k) j = (place e k + Z.of_nat j) mod 16) as -> by done.
    assert (lap_bit (moved e k) j = if place e k + Z.of_nat j <? 16 then lap_bit e k else 1 - lap_bit e k) as -> by done.
    assert ((place e k + Z.of_nat j) mod 16 = place e (if decide (k + j < 16)%nat then k + j else k + j - 16)) as ->.
    { unfold place. case_decide; Z.div_mod_to_equations; lia. }
    assert ((if place e k + Z.of_nat j <? 16 then lap_bit e k else 1 - lap_bit e k) = if decide (k + j < 16)%nat then lap_bit e (k + j) else 1 - lap_bit e (k + j - 16)) as ->.
    { unfold place, lap_bit. pose proof (Z.mod_pos_bound (nidx e + Z.of_nat k) 16 ltac:(lia)).
      assert ((nidx e + Z.of_nat k) mod 16 = if nidx e + Z.of_nat k <? 16 then nidx e + Z.of_nat k else nidx e + Z.of_nat k - 16) as -> by (destruct (Z.ltb_spec (nidx e + Z.of_nat k) 16); Z.div_mod_to_equations; lia).
      case_decide; repeat match goal with |- context [?a <? ?b] => destruct (Z.ltb_spec a b) end; lia. }
    case_decide; [apply Hold; lia|]. destruct (lookup_lt_is_Some_2 es (k + j - 16)) as [t Ht]; [lia|]. destruct (Hev _ _ Ht) as [H1 H2]. exists t. split; [done|]. rewrite H2. unfold lap_bit. case_match; lia. }
  split; [|intros j Hj; by apply Hall; cbn in *; lia]. constructor; cbn [length]; [|..].
  - cbn. unfold place. apply Z.mod_pos_bound. lia.
  - cbn. unfold lap_bit. case_match; lia.
  - lia.
  - done.
  - apply Hall. lia.
Qed.

Lemma after_same a es r : same_requests r (after a es r).
Proof.
  unfold after. revert r. induction es as [|t es IH]; intros r; cbn [foldl]; [done|]. etrans; [|apply IH]. unfold noted. by case_match.
Qed.

Lemma after_slot n a es r : slot_of (evt r) < n -> Forall (fun t => slot_of t < n) es -> slot_of (evt (after a es r)) < n.
Proof.
  intros Hr Hes. revert r Hr. unfold after. induction Hes as [|t es Ht _ IH]; intros r Hr; cbn [foldl]; [done|]. apply IH. unfold noted. by case_match.
Qed.

Section Waits.
Context (nslots : Z) (sleep : Z -> xhci -> xhci) `{!Controller nslots sleep}.

Lemma process_running h : running nslots h -> exists h', xhci_process_events h = Ret h' /\ running nslots h' /\ kept h h' /\ ms h' = ms h.
Proof.
  intros [Hms Hne (r & Hr & Hq & Hsl) (e & es & He & Hlap & Hok & Hes)]. destruct (process_events_returns h e es He (lo_posted _ _ Hlap) Hok) as (h' & Ep & [E1 E2 E3 E4 (E5 & _ & E6)]).
  exists h'. split; [done|]. split; [|split; [|done]].
  - constructor.
    + by rewrite E6.
    + by rewrite E1, E5.
    + rewrite E5, (E3 _ Hne), Hr. exists (after (cmds h) es r). split; [done|]. destruct (after_same (cmds h) es r) as (A1 & A2 & A3). split; [unfold request_ring in *; by rewrite A1, A2, A3|by apply after_slot].
    + rewrite E1, E2. exists (moved e (length es)), []. split_and!; try done. by apply lap_ok_moved.
  - split_and!; try done. intros a Ha. rewrite (E3 a Ha). destruct (rings h !! a) as [x|]; constructor. apply after_same.
Qed.

Lemma event_wait_returns a timeout h :
  running nslots h -> a <> evts h -> is_Some (rings h !! a) -> 0 <= timeout -> clock_left (timeout + 1001) h ->
  exists rc h', xhci_event_wait sleep a timeout h = Ret (rc, h') /\ running nslots h' /\ kept h h' /\ -1 <= rc < 256 /\ ms h <= ms h' <= ms h + timeout + 1001.
Proof.
  intros Hrun Ha Hs Ht Hclk. unfold clock_left in Hclk. unfold xhci_event_wait. pose proof (usb_now_range (ms h)) as Hnow. rewrite u32_small by lia. set (end_ := usb_now_ms (ms h) + timeout) in *.
  loop_with (fun h1 => running nslots h1 /\ kept h h1 /\ ms h <= ms h1 <= ms h + timeout + 1001) (fun '(rc, h') => running nslots h' /\ kept h h' /\ -1 <= rc < 256 /\ ms h <= ms h' <= ms h + timeout + 1001)
    (fun h1 => Z.max 0 (ms h + timeout - ms h1)) as ([rc h'] & -> & H'); [| | |by exists rc, h'].
  - intros h1 (R1 & K1 & T1). destruct (process_running h1 R1) as (h2 & E2 & R2 & K2 & M2). unfold wait_round. rewrite E2, bind_ret. assert (kept h h2) as K by (by etrans).
    pose proof K as (_ & _ & _ & K4). specialize (K4 a Ha). destruct Hs as [x Hx]. rewrite Hx in K4. inversion K4 as [? y _ Hxy Hy|]. subst. cbn [of_option]. rewrite bind_ret. rewrite (usb_now_later (ms h) (ms h2)) by lia.
    destruct (xhci_ring_busy y); cbn [negb]; [|right; eexists (_, _); split; [done|]; split; [done|]; split; [done|]; pose proof (land_bound (Z.shiftr (status (evt y)) 24) 0xff 8 ltac:(lia) ltac:(lia)); lia].
    destruct (Z.leb_spec end_ (usb_now_ms (ms h) + (ms h2 - ms h))); [right; eexists (_, _); split; [done|]; split; [done|]; split; [done|]; lia|].
    left. eexists. split; [done|]. pose proof (sleep_ms 1 h2 ltac:(lia) R2) as Hsl. unfold slept in Hsl. split; [|lia]. split; [by apply sleep_running|]. split; [etrans; [done|]; by apply sleep_kept|lia].
  - split; [done|]. split; [done|lia].
  - lia.
Qed.

(** The last command in the ring points to [p]. *)
Definition last_command (p flags : Z) (h : xhci) : Prop :=
  exists r, rings h !! cmds h = Some r /\ 1 <= nidx r /\ ring r !! Z.to_nat (nidx r - 1) = Some (mkTrb (u32 p) 0 0 (Z.lor flags (cs r))).

Lemma queue_command base r p len flags :
  request_ring r -> Z.land flags TRB_TR_IDT = 0 ->
  exists r', xhci_trb_queue base r (At p) len flags = Ret r' /\ request_ring r' /\ evt r' = evt r /\ 1 <= nidx r' /\
    ring r' !! Z.to_nat (nidx r' - 1) = Some (mkTrb (u32 p) 0 (u32 len) (Z.lor flags (cs r'))).
Proof.
  intros (Hl & Hn & Hc) Hf. assert (Hfill : forall r q n f, length (ring r) = 16%nat -> 0 <= nidx r <= 15 -> cs r = 0 \/ cs r = 1 -> Z.land f TRB_TR_IDT = 0 ->
    xhci_trb_fill r (At q) n f = Ret (mkRing (<[Z.to_nat (nidx r) := mkTrb (u32 q) 0 (u32 n) (Z.lor f (cs r))]> (ring r)) (evt r) (eidx r) (nidx r) (cs r))).
  { intros x q n f Hlx Hnx Hcx Hfx. rewrite trb_fill_spec by (done || lia). cbn. by destruct Hcx as [-> | ->]. }
  unfold xhci_trb_queue. change (Z.of_nat XHCI_RING_ITEMS - 1) with 15. destruct (Z.leb_spec 15 (nidx r)).
  - rewrite (Hfill r), bind_ret by done. cbn [ring evt eidx cs]. rewrite bind_ret. rewrite Hfill; cbn [ring nidx cs evt eidx]; [|by rewrite length_insert|lia|destruct Hc as [-> | ->]; [by right|by left]|done].
    rewrite bind_ret. eexists. split; [done|]. unfold request_ring. cbn [ring nidx cs evt eidx]. change (u32 (0 + 1)) with 1. rewrite !length_insert. split; [|split; [done|split; [lia|]]].
    + split; [done|]. split; [lia|]. destruct Hc as [-> | ->]; [by right|by left].
    + by rewrite list_lookup_insert_eq by (rewrite length_insert; cbn; lia).
  - rewrite bind_ret, Hfill, bind_ret by (done || lia). eexists. split; [done|]. unfold request_ring. cbn [ring nidx cs evt eidx]. rewrite (u32_small (nidx r + 1)), length_insert by lia. split; [|split; [done|split; [lia|]]].
    + split; [done|]. split; [lia|done].
    + replace (Z.to_nat (nidx r + 1 - 1)) with (Z.to_nat (nidx r)) by lia. by rewrite list_lookup_insert_eq by lia.
Qed.

Lemma event_ok_mono h h' t :
  evts h' = evts h -> length (portscs h') = length (portscs h) -> (forall a, is_Some (rings h !! a) -> is_Some (rings h' !! a)) -> event_ok h t -> event_ok h' t.
Proof. unfold event_ok. intros -> -> Hr. destruct (is_completion t); [|done]. intros [? ?]. auto. Qed.

(** A new or changed request ring does not disturb the events. *)
Lemma running_set_ring h a r :
  running nslots h -> a <> evts h -> request_ring r -> slot_of (evt r) < nslots -> running nslots (set_ring_at a r h).
Proof.
  intros [Hms Hne (x & Hx & Hq & Hsl) (e & es & He & Hlap & Hok & Hes)] Ha Hr Hs. constructor; cbn [set_ring_at set_rings rings cmds evts ms]; try done.
  - destruct (decide (a = cmds h)) as [->|Hac]; [rewrite lookup_insert_eq; by exists r|rewrite lookup_insert_ne by done; by exists x].
  - rewrite lookup_insert_ne by done. exists e, es. split_and!; try done. eapply Forall_impl; [exact Hok|]. intros t. apply event_ok_mono; try done. intros b Hb. cbn. rewrite lookup_insert_is_Some'. auto.
Qed.

Lemma cmd_submit_returns k inctx flags h :
  running nslots h -> 0 <= k -> clock_left (k + 2001) h -> Z.land flags TRB_TR_IDT = 0 ->
  (forall p w, inctx = Some (p, w) -> 0 < Z.land (Z.shiftr w 16) 0xff <= Z.of_nat (length (portscs h))) ->
  exists rc h', xhci_cmd_submit sleep inctx flags h = Ret (rc, h') /\ running nslots h' /\ clock_left k h' /\ others h h' /\ -1 <= rc < 256 /\
    (rc <> -1 -> last_command (from_option fst 0 inctx) flags h').
Proof.
  intros Hrun Hk Hclk Hf Hin. assert (Hsend : forall p, exists rc h', (s ← queue_at (cmds h) (At p) 0 flags h; xhci_event_wait sleep (cmds s) 1000 (xhci_doorbell 0 0 s)) = Ret (rc, h') /\
    running nslots h' /\ clock_left k h' /\ others h h' /\ -1 <= rc < 256 /\ last_command p flags h').
  { intros p. pose proof Hrun as [_ Hne (r & Hr & Hq & Hsl) _]. destruct (queue_command (cmds h) r p 0 flags Hq Hf) as (r' & Er & Hq' & Ev & Hn & Hlast).
    unfold queue_at. rewrite Hr. cbn [of_option]. rewrite bind_ret, Er, !bind_ret. set (h1 := xhci_doorbell 0 0 (set_ring_at (cmds h) r' h)).
    assert (running nslots h1) as R1. { pose proof (running_set_ring h (cmds h) r' Hrun Hne Hq' ltac:(by rewrite Ev)) as [A B C D]. by constructor. }
    assert (rings h1 !! cmds h = Some r') as Hr1 by (cbn; by rewrite lookup_insert_eq).
    destruct (event_wait_returns (cmds h) 1000 h1 R1 Hne ltac:(by eexists) ltac:(lia)) as (rc & h2 & E2 & R2 & K2 & Hrc & Hms); [unfold clock_left in *; change (ms h1) with (ms h); lia|]. exists rc, h2. split; [exact E2|]. split; [done|].
    split; [apply (clock_left_later k 2001 h); [done|done|change (ms h1) with (ms h) in Hms; lia]|]. pose proof K2 as (K21 & K22 & K23 & K24).
    split. { split_and!; try done. intros a Ha Hac. specialize (K24 a Ha). cbn in K24. by rewrite lookup_insert_ne in K24. }
    split; [done|]. specialize (K24 (cmds h) Hne). rewrite Hr1 in K24. inversion K24 as [? r2 HS E0 Hr2|]; subst. destruct HS as (S1 & S2 & S3). exists r2. rewrite K21. change (cmds h1) with (cmds h). rewrite S1, S2, S3. done. }
  unfold xhci_cmd_submit. destruct inctx as [[p w]|].
  - specialize (Hin p w eq_refl). cbn zeta. pose proof (land_bound (Z.shiftr w 16) 0xff 8 ltac:(lia) ltac:(lia)). rewrite u32_small by lia.
    destruct (lookup_lt_is_Some_2 (portscs h) (Z.to_nat (Z.land (Z.shiftr w 16) 255 - 1))) as [v ->]; [lia|]. cbn [of_option]. rewrite bind_ret.
    destruct (Z.land v XHCI_PORTSC_CCS =? 0); [exists (-1), h; split_and!; try done; try lia; unfold clock_left in *; lia|]. destruct (Hsend p) as (rc & h' & -> & ? & ? & ? & ? & ?). by exists rc, h'.
  - destruct (Hsend 0) as (rc & h' & -> & ? & ? & ? & ? & ?). by exists rc, h'.
Qed.
End Waits.

(** ** Opening a pipe *)

Lemma command_flags cr slot : 0 <= slot < 256 -> Z.land (Z.lor (Z.shiftl cr 10) (u32 (Z.shiftl slot 24))) TRB_TR_IDT = 0.
Proof.
  intros Hs. pose proof (shiftl_small slot 24 8 ltac:(lia) ltac:(lia) ltac:(lia)). rewrite u32_small, Z.land_lor_distr_l by lia.
  by rewrite !shl_land by (unfold TRB_TR_IDT; lia).
Qed.

Section Opening.
Context {P : Type} `{!DmaPool P} `{!PoolLaws P} (nslots : Z) (sleep : Z -> xhci -> xhci) `{!Controller nslots sleep}.
Implicit Types s : ctl P.

(** Everything lies in blocks of the pool. *)
Record ctl_ok s (live : list (Z * Z)) : Prop :=
  { ck_run : running nslots (hc s);
    ck_pool : pool_rel (pool s) live;
    ck_blocks : forall a, is_Some (rings (hc s) !! a) \/ is_Some (ctxs s !! a) \/ is_Some (xpipes s !! a) \/ is_Some (heap (upipes s) !! a) -> exists n, (a, n) ∈ live /\ 0 < n;
    ck_devs : Z.of_nat (length (devs s)) = nslots }.

(** At [a] there is nothing. *)
Definition fresh (a : Z) s : Prop := rings (hc s) !! a = None /\ ctxs s !! a = None /\ xpipes s !! a = None /\ heap (upipes s) !! a = None.

Lemma take_mem_spec n s live :
  ctl_ok s live -> 0 < n <= 4096 ->
  exists va p' live', take_mem n s = Ret (va, set_pool p' s) /\ ctl_ok (set_pool p' s) live' /\ (forall b, b ∈ live -> b ∈ live') /\
    (va = 0 \/ 0 < va < 2 ^ 32 /\ va mod 256 = 0 /\ fresh va s /\ exists m, (va, m) ∈ live' /\ 0 < m).
Proof.
  intros [Hr Hp Hb Hd] Hn. destruct (pool_alloc_spec n (pool s) live Hp Hn) as (va & p' & E & H). unfold take_mem. rewrite E, bind_ret.
  destruct H as [(-> & H)|(Hv & Hm & [a m] & E1 & Hsz & H & Hap)].
  - exists 0, p', live. split; [done|]. split; [by constructor|]. split; [done|by left].
  - cbn in E1, Hsz. subst a. exists va, p', ((va, m) :: live). split; [done|]. split.
    { constructor; try done. cbn. intros a Ha. destruct (Hb a Ha) as (k & Hk & Hk0). exists k. split; [by right|done]. }
    split; [by right|]. right. split_and!; try done; try lia.
    + assert (forall k, (va, k) ∈ live -> 0 < k -> False) as Hno. { intros k Hk Hk0. rewrite Forall_forall in Hap. specialize (Hap _ Hk). unfold apart in Hap. cbn in Hap. lia. }
      split_and!; apply eq_None_not_Some; intros HS; destruct (Hb va) as (k & ? & ?); eauto.
    + exists m. split; [by left|lia].
Qed.

Lemma take_mem_pool n s t va p' : take_mem n s = Ret (va, set_pool p' s) -> pool t = pool s -> take_mem n t = Ret (va, set_pool p' t).
Proof.
  unfold take_mem. intros E ->. destruct (pool_alloc n (pool s)) as [[v q]| |]; [|done..]. rewrite bind_ret in E. injection E as -> ->. by rewrite bind_ret.
Qed.

(** The controller was sent [cr] with the context [inn], and the pipe [va] has
    got a slot. *)
Definition sent (cr va inn : Z) (x : xhci_pipe) s : Prop :=
  exists slot, 0 <= slot < 256 /\ xpipes s !! va = Some (Xhci.mkPipe (reqs x) slot (epid x) (Xhci.maxpacket x) (buf x) (bufused x)) /\
    last_command inn (Z.lor (Z.shiftl cr 10) (u32 (Z.shiftl slot 24))) (hc s).

(** What commands for the pipe [va] leave alone. *)
Record only_pipe (va : Z) s s' : Prop :=
  { op_hc : others (hc s) (hc s');
    op_ctxs : ctxs s' = ctxs s;
    op_upipes : upipes s' = upipes s;
    op_xpipes : forall a, a <> va -> xpipes s' !! a = xpipes s !! a;
    op_xpipe : is_Some (xpipes s !! va) -> is_Some (xpipes s' !! va);
    op_rest : context64 s' = context64 s /\ cntl s' = cntl s /\ length (devs s') = length (devs s) }.

Lemma only_pipe_ok va s s' live live' :
  ctl_ok s live -> only_pipe va s s' -> (is_Some (xpipes s' !! va) -> is_Some (xpipes s !! va)) -> running nslots (hc s') -> pool_rel (pool s') live' -> (forall b, b ∈ live -> b ∈ live') -> ctl_ok s' live'.
Proof.
  intros [Hr _ Hb Hd] [(H1 & H2 & _ & H3) Hc Hu Hx Hxv (_ & _ & Hdv)] Hv Hr' Hp' Hl. constructor; try done; [|by rewrite Hdv].
  rewrite Hc, Hu. intros a Ha. assert (exists n, (a, n) ∈ live /\ 0 < n) as (n & Hn & Hn0); [|exists n; auto]. apply Hb. destruct Ha as [Ha|[Ha|[Ha|Ha]]]; [|auto| |auto].
  - left. destruct (decide (a = evts (hc s))) as [->|He]; [by destruct Hr as [_ _ _ (e & es & -> & _)]|]. destruct (decide (a = cmds (hc s))) as [->|Hcm]; [by destruct Hr as [_ _ (r & -> & _) _]|].
    specialize (H3 a He Hcm). destruct Ha as [y Hy]. rewrite Hy in H3. inversion H3. done.
  - right; right; left. destruct (decide (a = va)) as [->|Hav]; [by apply Hv|]. by rewrite <- (Hx a Hav).
Qed.
Lemma cmd_returns k cr inctx slot h :
  running nslots h -> 0 <= k -> clock_left (k + 2001) h -> 0 <= slot < 256 -> (forall p w, inctx = Some (p, w) -> 0 < Z.land (Z.shiftr w 16) 0xff <= Z.of_nat (length (portscs h))) ->
  exists rc h', xhci_cmd sleep cr inctx slot h = Ret (rc, h') /\ running nslots h' /\ clock_left k h' /\ others h h' /\
    (rc <> -1 -> last_command (from_option fst 0 inctx) (Z.lor (Z.shiftl cr 10) (u32 (Z.shiftl slot 24))) h').
Proof.
  intros Hr Hk Hc Hs Hin. destruct (cmd_submit_returns nslots sleep k inctx _ h Hr Hk Hc (command_flags cr slot Hs) Hin) as (rc & h' & E & ? & ? & ? & _ & ?). by exists rc, h'.
Qed.

Lemma enable_slot_returns k h :
  running nslots h -> 0 <= k -> clock_left (k + 2001) h ->
  exists rc h', xhci_cmd_enable_slot sleep h = Ret (rc, h') /\ running nslots h' /\ clock_left k h' /\ others h h' /\ (rc = -1 \/ 0 <= rc < 256 /\ rc < nslots).
Proof.
  intros Hr Hk Hc. destruct (cmd_submit_returns nslots sleep k None (Z.shiftl CR_ENABLE_SLOT 10) h Hr Hk Hc eq_refl ltac:(done)) as (cc & h' & E & R & C & O & _ & _).
  unfold xhci_cmd_enable_slot. rewrite E, bind_ret. destruct (cc =? CC_SUCCESS); cbn [negb]; [|exists (-1), h'; split_and!; try done; by left].
  pose proof R as [_ _ (r & -> & _ & Hsl) _]. cbn [of_option]. rewrite bind_ret. eexists _, h'. split_and!; try done. right. split; [|done]. apply (land_bound _ _ 8); lia.
Qed.

(** The port that a command's context names. *)
Definition names_port s (inn : Z) : Prop :=
  exists c w, ctxs s !! inn = Some c /\ c !! Z.to_nat (ctx_words s + 1) = Some w /\ 0 < Z.land (Z.shiftr w 16) 0xff <= Z.of_nat (length (portscs (hc s))).

Lemma inctx_arg_spec inn s : names_port s inn -> exists w, inctx_arg inn s = Ret (inn, w) /\ 0 < Z.land (Z.shiftr w 16) 0xff <= Z.of_nat (length (portscs (hc s))).
Proof. intros (c & w & Hc & Hw & Hb). exists w. split; [|done]. unfold inctx_arg. rewrite Hc. cbn [of_option]. rewrite bind_ret, Hw. cbn [of_option]. by rewrite bind_ret. Qed.

Lemma names_port_word d inn c s :
  ctxs s !! inn = Some c -> 0 <= ctx_words s + 1 < Z.of_nat (length c) -> word c (ctx_words s + 1) = Z.shiftl (port d + 1) 16 ->
  device_ok d -> port d < Z.of_nat (length (portscs (hc s))) -> names_port s inn.
Proof.
  intros Hc Hl Hw [_ Hp] Hpt. exists c, (word c (ctx_words s + 1)). split; [done|]. split; [by apply word_lookup|].
  rewrite Hw, <- (Z.lor_0_l (Z.shiftl _ 16)). change (0xff) with (Z.ones 8). pose proof (field_high 0 (port d + 1) 16 8 ltac:(lia) ltac:(lia) ltac:(lia) ltac:(lia)) as Ef. unfold field in Ef. rewrite Ef. lia.
Qed.

Lemma open_endpoint_spec va inn defpipe x dp s live :
  ctl_ok s live -> clock_left 2001 (hc s) -> names_port s inn -> va <> 0 -> xpipes s !! va = Some x -> xpipes s !! defpipe = Some dp -> 0 <= slotid dp < 256 ->
  exists rc s', open_endpoint sleep va inn defpipe s = Ret (rc, s') /\ ctl_ok s' live /\ only_pipe va s s' /\ (rc = 0 \/ rc = va /\ sent CR_CONFIGURE_ENDPOINT va inn x s').
Proof.
  intros Hok Hclk Hp Hva Hx Hdp Hs. unfold open_endpoint. rewrite Hdp, Hx. cbn [of_option]. rewrite !bind_ret. set (s1 := set_xpipe va _ s).
  destruct (inctx_arg_spec inn s1 Hp) as (w & -> & Hw). rewrite bind_ret.
  destruct (cmd_returns 0 CR_CONFIGURE_ENDPOINT (Some (inn, w)) (slotid dp) (hc s1) (ck_run _ _ Hok) ltac:(lia) Hclk Hs) as (cc & h' & E & R & _ & O & L); [by intros ? ? [= <- <-]|].
  unfold xhci_cmd_configure_endpoint. rewrite E, bind_ret. eexists _, _. split; [done|].
  assert (only_pipe va s (set_hc h' s1)) as Hop. { constructor; try done; cbn; [intros a Ha; by rewrite lookup_insert_ne|intros _; by rewrite lookup_insert_eq]. }
  split; [apply (only_pipe_ok va s _ live live); try done; by destruct Hok|]. split; [done|]. destruct (Z.eqb_spec cc CC_SUCCESS) as [->|_]; [right|by left].
  split; [done|]. exists (slotid dp). split; [done|]. split; [cbn; by rewrite lookup_insert_eq|]. by apply L.
Qed.

Lemma open_slot_spec va inn x s live :
  ctl_ok s live -> clock_left 6003 (hc s) -> names_port s inn -> va <> 0 -> xpipes s !! va = Some x ->
  exists rc s' live', open_slot sleep va inn s = Ret (rc, s') /\ ctl_ok s' live' /\ only_pipe va s s' /\ (rc = 0 \/ rc = va /\ sent CR_ADDRESS_DEVICE va inn x s').
Proof.
  intros Hok Hclk Hp Hva Hx. unfold open_slot. assert (ctx_words s = 8 \/ ctx_words s = 16) as Hn by (unfold ctx_words; destruct (context64 s); auto).
  destruct (take_mem_spec (32 * (4 * ctx_words s)) s live Hok ltac:(lia)) as (dev & p' & live' & -> & Hok1 & _ & _). rewrite bind_ret. set (s1 := set_pool p' s) in *.
  assert (forall h dv, others (hc s1) h -> length dv = length (devs s) -> running nslots h -> only_pipe va s (set_hc h (set_devs dv s1)) /\ ctl_ok (set_hc h (set_devs dv s1)) live') as Hst.
  { intros h dv O Hl R. assert (forall t, t = s \/ t = s1 -> only_pipe va t (set_hc h (set_devs dv s1))) as Hop by (intros t [-> | ->]; by constructor). split; [by apply Hop; left|].
    apply (only_pipe_ok va s1 _ live' live'); try done; try (by apply Hop; right); by destruct Hok1. }
  destruct (dev =? 0).
  { exists 0, s1, live'. split; [done|]. split; [done|]. split; [by constructor|by left]. }
  destruct (enable_slot_returns 4002 (hc s1) (ck_run _ _ Hok1) ltac:(lia) Hclk) as (slot & h1 & -> & R1 & T1 & O1 & Hsl). rewrite bind_ret. destruct Hsl as [->|[Hsl Hsn]].
  { destruct (Hst h1 (devs s) O1 eq_refl R1) as [H1 H2]. exists 0, (set_hc h1 s1), live'. split; [done|]. split; [done|]. split; [done|by left]. }
  rewrite (proj2 (Z.ltb_ge slot 0)) by lia. pose proof (ck_devs _ _ Hok) as Hd. cbn [set_hc devs s1 set_pool]. destruct (lookup_lt_is_Some_2 (devs s) (Z.to_nat slot)) as [old Hold]; [lia|]. rewrite Hold. cbn [of_option]. rewrite bind_ret.
  set (dv := <[Z.to_nat slot := _]> (devs s)). assert (length dv = length (devs s)) as Hdv by apply length_insert. set (s2 := set_devs dv _).
  assert (names_port s2 inn) as Hp2. { destruct Hp as (c & w & ? & ? & ?). exists c, w. split; [done|]. split; [done|]. destruct O1 as (_ & _ & El & _). change (hc s2) with h1. by rewrite El. }
  destruct (inctx_arg_spec inn s2 Hp2) as (w & -> & Hw). rewrite bind_ret.
  destruct (cmd_returns 2001 CR_ADDRESS_DEVICE (Some (inn, w)) slot (hc s2) R1 ltac:(lia) T1 Hsl) as (cc & h2 & E2 & R2 & T2 & O2 & L2); [by intros ? ? [= <- <-]|].
  unfold xhci_cmd_address_device. rewrite E2, bind_ret. assert (others (hc s1) h2) as O12 by (by etrans). destruct (Z.eqb_spec cc CC_SUCCESS) as [->|_]; cbn [negb].
  - cbn [set_hc xpipes s2 set_devs s1 set_pool]. rewrite Hx. cbn [of_option]. rewrite bind_ret. destruct (Hst h2 dv O12 Hdv R2) as [H1 H2]. eexists _, _, live'. split; [done|].
    assert (only_pipe va s (set_xpipe va (Xhci.mkPipe (reqs x) slot (epid x) (Xhci.maxpacket x) (buf x) (bufused x)) (set_hc h2 (set_devs dv s1)))) as Hop.
    { destruct H1. constructor; try done; cbn; [intros a Ha; by rewrite lookup_insert_ne|intros _; by rewrite lookup_insert_eq]. }
    split; [|split; [exact Hop|right; split; [done|]]].
    + destruct H2 as [A1 A2 A3 A4]. constructor; try done. intros a Ha. apply A3. destruct Ha as [Ha|[Ha|[Ha|Ha]]]; auto. right; right; left. cbn in Ha |- *. apply lookup_insert_is_Some' in Ha as [<-|?]; [by eexists|done].
    + exists slot. split; [done|]. split; [cbn; by rewrite lookup_insert_eq|]. by apply L2.
  - destruct (cmd_returns 0 CR_DISABLE_SLOT None slot h2 R2 ltac:(lia) T2 Hsl ltac:(done)) as (cc3 & h3 & E3 & R3 & _ & O3 & _). unfold xhci_cmd_disable_slot. cbn [hc set_hc]. rewrite E3, bind_ret.
    cbn [devs set_hc s2 set_devs]. destruct (lookup_lt_is_Some_2 dv (Z.to_nat slot)) as [q ->]; [lia|]. cbn [of_option]. rewrite bind_ret.
    assert (others (hc s1) h3) as O13 by (by etrans). destruct (Hst h3 (<[Z.to_nat slot := (0, q.2)]> dv) O13 ltac:(by rewrite length_insert) R3) as [H1 H2].
    eexists 0, _, live'. split; [done|]. split; [exact H2|]. split; [exact H1|by left].
Qed.
(** What opening the pipe [va] leaves alone, its ring apart. *)
Record opening (va : Z) s s' : Prop :=
  { og_hc : others (hc s) (hc s');
    og_upipes : upipes s' = upipes s;
    og_xpipes : forall a, a <> va -> xpipes s' !! a = xpipes s !! a;
    og_ctxs : ctxs s ⊆ ctxs s';
    og_rest : context64 s' = context64 s /\ cntl s' = cntl s }.

(** The context that the controller was sent. *)
Definition told (d : usbdevice) (e : usb_endpoint_descriptor) (va : Z) (x : xhci_pipe) s s' : Prop :=
  exists inn c, ctxs s !! inn = None /\ ctxs s' !! inn = Some c /\ describes (ctx_words s) d e va c /\
    sent (if ep_id e =? 1 then CR_ADDRESS_DEVICE else CR_CONFIGURE_ENDPOINT) va inn x s'.

Definition default_pipe (e : usb_endpoint_descriptor) (defpipe : Z) s : Prop :=
  ep_id e <> 1 -> exists dp, xpipes s !! defpipe = Some dp /\ 0 <= slotid dp < 256.

Lemma open_context_spec d defpipe e va x s live :
  ctl_ok s live -> clock_left 6003 (hc s) -> device_ok d -> port d < Z.of_nat (length (portscs (hc s))) -> ep_ok e -> 0 < va < 2 ^ 32 -> va mod 256 = 0 -> xpipes s !! va = Some x -> default_pipe e defpipe s ->
  exists rc s' live', open_context sleep d defpipe e va s = Ret (rc, s') /\ ctl_ok s' live' /\ opening va s s' /\ (rc = 0 \/ rc = va /\ told d e va x s s').
Proof.
  intros Hok Hclk Hd Hpt He Hva Hm Hx Hdp. assert (ctx_words s = 8 \/ ctx_words s = 16) as Hn by (unfold ctx_words; destruct (context64 s); auto). unfold open_context, xhci_alloc_inctx.
  destruct (take_mem_spec (33 * (4 * ctx_words s)) s live Hok ltac:(lia)) as (inn & p' & live' & -> & Hok1 & _ & Hinn). rewrite bind_ret. set (s1 := set_pool p' s) in *. destruct Hinn as [->|(Hi & _ & (_ & Hfr & _) & m & Hlm & Hm0)].
  { cbn [Z.eqb]. rewrite bind_ret. cbn [Z.eqb]. exists 0, s1, live'. split; [done|]. split; [done|]. split; [by constructor|by left]. }
  rewrite (proj2 (Z.eqb_neq inn 0)) by lia. change (ctx_words s1) with (ctx_words s). destruct (fill_slot (ctx_words s) d (ep_id e) Hn Hd (ep_id_bounds e He)) as (c0 & -> & Hc0). rewrite !bind_ret, (proj2 (Z.eqb_neq inn 0)) by lia.
  cbn [ctxs set_ctx]. rewrite lookup_insert_eq. cbn [of_option]. rewrite bind_ret. change (ctx_words (set_ctx inn c0 s1)) with (ctx_words s).
  destruct (fill_ep_spec (ctx_words s) d e va c0 Hn Hd He Hva Hm Hc0) as (c & -> & Hds & Hw). rewrite bind_ret. set (s2 := set_ctx inn c (set_ctx inn c0 s1)).
  assert (ctxs s2 !! inn = Some c) as Hc by (cbn; by rewrite lookup_insert_eq).
  assert (ctl_ok s2 live') as Hok2. { destruct Hok1 as [A1 A2 A3 A4]. constructor; try done. intros a Ha. destruct (decide (a = inn)) as [->|Hai]; [by exists m|]. apply A3. cbn in Ha. by rewrite !lookup_insert_ne in Ha. }
  assert (names_port s2 inn) as Hp2 by (apply (names_port_word d inn c); [done|pose proof (ds_length _ _ _ _ _ Hds); change (ctx_words s2) with (ctx_words s); lia|done|done|done]).
  assert (forall s3 cr rc, only_pipe va s2 s3 -> (rc = 0 \/ rc = va /\ sent cr va inn x s3) -> cr = (if ep_id e =? 1 then CR_ADDRESS_DEVICE else CR_CONFIGURE_ENDPOINT) -> opening va s s3 /\ (rc = 0 \/ rc = va /\ told d e va x s s3)) as Hend.
  { intros s3 cr rc [B1 B2 B3 B4 B5 (B6 & B7 & B8)] Hrc ->. split.
    - constructor; try done. rewrite B2. cbn. rewrite insert_insert_eq. by apply insert_subseteq.
    - destruct Hrc as [?|[-> Hs]]; [by left|right]. split; [done|]. exists inn, c. by rewrite B2. }
  destruct (Z.eqb_spec (ep_id e) 1) as [E1|E1].
  - destruct (open_slot_spec va inn x s2 live' Hok2 Hclk Hp2 ltac:(lia) Hx) as (rc & s3 & live3 & -> & Hok3 & Hop & Hrc). destruct (Hend s3 _ rc Hop Hrc eq_refl). by exists rc, s3, live3.
  - destruct (Hdp E1) as (dp & Hdpx & Hsl). destruct (open_endpoint_spec va inn defpipe x dp s2 live' Hok2 ltac:(unfold clock_left in *; change (hc s2) with (hc s); lia) Hp2 ltac:(lia) Hx Hdpx Hsl) as (rc & s3 & -> & Hok3 & Hop & Hrc). destruct (Hend s3 _ rc Hop Hrc eq_refl). by exists rc, s3, live'.
Qed.
(** The size of the default pipe's packets is changed: the pipe stays whatever
    the controller answers, and what it was sent names the new size. *)
Lemma reconfigure_spec d upipe x mp s live :
  ctl_ok s live -> clock_left 2001 (hc s) -> device_ok d -> port d < Z.of_nat (length (portscs (hc s))) -> 0 <= mp < 2 ^ 16 -> 0 <= slotid x < 256 ->
  exists s' live', reconfigure sleep d upipe x mp s = Ret (upipe, s') /\ ctl_ok s' live' /\ opening upipe s s' /\
    (ctxs s' = ctxs s \/ exists inn c, ctxs s' = <[inn := c]> (ctxs s) /\ word c 1 = 2 /\ field (word c (2 * ctx_words s + 1)) 16 16 = mp).
Proof.
  intros Hok Hclk Hd Hpt Hmp Hs. assert (ctx_words s = 8 \/ ctx_words s = 16) as Hn by (unfold ctx_words; destruct (context64 s); auto). unfold reconfigure, xhci_alloc_inctx.
  destruct (take_mem_spec (33 * (4 * ctx_words s)) s live Hok ltac:(lia)) as (inn & p' & live' & -> & Hok1 & _ & Hinn). rewrite bind_ret. set (s1 := set_pool p' s) in *. destruct Hinn as [->|(Hi & _ & (_ & Hfr & _) & m & Hlm & Hm0)].
  { cbn [Z.eqb]. rewrite bind_ret. cbn [Z.eqb]. exists s1, live'. split; [done|]. split; [done|]. split; [by constructor|by left]. }
  rewrite (proj2 (Z.eqb_neq inn 0)) by lia. change (ctx_words s1) with (ctx_words s). destruct (fill_slot (ctx_words s) d 1 Hn Hd ltac:(lia)) as (c0 & -> & [Hl0 _ Hw0 Hr0]). rewrite !bind_ret, (proj2 (Z.eqb_neq inn 0)) by lia.
  cbn [ctxs set_ctx]. rewrite lookup_insert_eq. cbn [of_option]. rewrite bind_ret. change (ctx_words (set_ctx inn c0 s1)) with (ctx_words s). set (n := ctx_words s) in *.
  rewrite ctx_set_spec, bind_ret by lia. rewrite ctx_or_spec, bind_ret by words. rewrite word_put, (proj2 (Z.eqb_neq 1 _)), Hr0, Z.lor_0_l by lia. set (c := <[Z.to_nat (2 * n + 1) := _]> _). set (s2 := set_ctx inn c _).
  assert (forall i, 0 <= i -> word c i = if 2 * n + 1 =? i then Z.shiftl mp 16 else if 1 =? i then 2 else word c0 i) as Hw by (intros i Hi0; unfold c; by rewrite !word_put by words).
  assert (ctxs s2 = <[inn := c]> (ctxs s)) as Hcx by (cbn; by rewrite insert_insert_eq).
  assert (ctl_ok s2 live') as Hok2. { destruct Hok1 as [A1 A2 A3 A4]. constructor; try done. intros a Ha. destruct (decide (a = inn)) as [->|Hai]; [by exists m|]. apply A3. rewrite Hcx in Ha. cbn. by rewrite lookup_insert_ne in Ha. }
  assert (names_port s2 inn) as Hp2. { apply (names_port_word d inn c); try done; change (ctx_words s2) with n; [by rewrite Hcx, lookup_insert_eq|unfold c; words|by at_word Hw]. }
  destruct (inctx_arg_spec inn s2 Hp2) as (w & -> & Hwp). rewrite bind_ret.
  destruct (cmd_returns 0 CR_EVALUATE_CONTEXT (Some (inn, w)) (slotid x) (hc s2) (ck_run _ _ Hok2) ltac:(lia) Hclk Hs) as (cc & h' & E & R & _ & O & _); [by intros ? ? [= <- <-]|]. unfold xhci_cmd_evaluate_context. rewrite E, bind_ret.
  eexists _, live'. split; [done|]. split; [|split].
  - apply (only_pipe_ok upipe s2 _ live' live'); try done; by destruct Hok2.
  - constructor; try done. change (ctxs (set_hc h' s2)) with (ctxs s2). rewrite Hcx. by apply insert_subseteq.
  - right. exists inn, c. change (ctxs (set_hc h' s2)) with (ctxs s2). split; [done|]. split; [by at_word Hw|]. at_word Hw. rewrite <- (Z.lor_0_l (Z.shiftl mp 16)). apply field_high; lia.
Qed.

(** The pipe with its ring, before anything is sent. *)
Definition with_pipe (va : Z) (d : usbdevice) (e : usb_endpoint_descriptor) (x : xhci_pipe) s : ctl P :=
  set_xpipe va x (set_hc (set_ring_at va new_ring (hc s)) (usb_desc2pipe va d e s)).

Lemma fresh_not_events va s live : ctl_ok s live -> fresh va s -> va <> evts (hc s) /\ va <> cmds (hc s).
Proof. intros [[_ _ (r & Hr & _) (e & es & He & _)] _ _ _] (Hn & _). split; intros ->; congruence. Qed.

Lemma with_pipe_ok va m d e x s live : ctl_ok s live -> fresh va s -> (va, m) ∈ live -> 0 < m -> ctl_ok (with_pipe va d e x s) live.
Proof.
  intros Hok Hf Hm Hm0. destruct (fresh_not_events va s live Hok Hf) as [Hne _]. destruct Hok as [R Pl B D]. constructor; try done.
  - apply running_set_ring; try done; [split_and!; cbn; try done; lia|]. pose proof R as [_ _ (r & _ & _ & Hsl) _]. pose proof (land_bound (Z.shiftr (trb_control (evt r)) 24) 0xff 8 ltac:(lia) ltac:(lia)). unfold slot_of in *. change (0 < nslots). lia.
  - intros a Ha. destruct (decide (a = va)) as [->|Hav]; [by exists m|]. apply B. cbn in Ha. by rewrite !lookup_insert_ne in Ha.
Qed.

(** What was there is still there, with its requests. *)
Record untouched s s' : Prop :=
  { un_rings : forall a r, rings (hc s) !! a = Some r -> a <> evts (hc s) -> a <> cmds (hc s) -> exists r', rings (hc s') !! a = Some r' /\ same_requests r r';
    un_ctxs : ctxs s ⊆ ctxs s';
    un_xpipes : xpipes s ⊆ xpipes s';
    un_heap : heap (upipes s) ⊆ heap (upipes s') }.

Lemma opening_untouched va d e x s s' live : ctl_ok s live -> fresh va s -> opening va (with_pipe va d e x s) s' -> untouched s s'.
Proof.
  intros Hok Hf [(H1 & H2 & _ & H3) U X C _]. destruct Hf as (F1 & F2 & F3 & F4). constructor.
  - intros a r Ha He Hc. specialize (H3 a He Hc). cbn in H3. assert (a <> va) as Hav by congruence. rewrite lookup_insert_ne, Ha in H3 by done. inversion H3 as [? r' Hs E0 Hr'|]. subst. by exists r'.
  - done.
  - apply map_subseteq_spec. intros a y Ha. assert (a <> va) as Hav by congruence. rewrite X by done. cbn. by rewrite lookup_insert_ne.
  - rewrite U. cbn. by apply insert_subseteq.
Qed.

(** A pipe that is open: both its halves, its ring as new, and the context that
    the controller has been sent. *)
Definition opened (d : usbdevice) (e : usb_endpoint_descriptor) (va : Z) s s' : Prop :=
  exists b r slot inn c,
    xpipes s' !! va = Some (Xhci.mkPipe va slot (ep_id e) (wMaxPacketSize e) b false) /\
    heap (upipes s') !! va = Some (Usb.mkPipe (cntl s) (ep_type e) (Z.land (bEndpointAddress e) 0x0f) (devaddr d) (speed d) (wMaxPacketSize e) USB_TYPE_XHCI) /\
    rings (hc s') !! va = Some r /\ same_requests new_ring r /\
    ctxs s !! inn = None /\ ctxs s' !! inn = Some c /\ describes (ctx_words s) d e va c /\
    last_command inn (Z.lor (Z.shiftl (if ep_id e =? 1 then CR_ADDRESS_DEVICE else CR_CONFIGURE_ENDPOINT) 10) (u32 (Z.shiftl slot 24))) (hc s').

Lemma open_with_pipe d defpipe e va m x b s live :
  ctl_ok s live -> clock_left 6003 (hc s) -> device_ok d -> port d < Z.of_nat (length (portscs (hc s))) -> ep_ok e -> 0 < va < 2 ^ 32 -> va mod 256 = 0 -> fresh va s -> (va, m) ∈ live -> 0 < m -> default_pipe e defpipe s ->
  x = Xhci.mkPipe va 0 (ep_id e) (wMaxPacketSize e) b false ->
  exists rc s' live', open_context sleep d defpipe e va (with_pipe va d e x s) = Ret (rc, s') /\ ctl_ok s' live' /\ untouched s s' /\ (rc = 0 \/ rc = va /\ opened d e va s s').
Proof.
  intros Hok Hclk Hd Hpt He Hva Hm Hf Hl Hm0 Hdp ->. set (x := Xhci.mkPipe _ _ _ _ _ _). pose proof (with_pipe_ok va m d e x s live Hok Hf Hl Hm0) as Hok2. destruct (fresh_not_events va s live Hok Hf) as [Hne Hnc].
  assert (default_pipe e defpipe (with_pipe va d e x s)) as Hdp2. { intros E1. destruct (Hdp E1) as (dp & Hp & ?). exists dp. split; [|done]. destruct Hf as (_ & _ & Hx & _). cbn. rewrite lookup_insert_ne; [done|congruence]. }
  destruct (open_context_spec d defpipe e va x _ live Hok2 Hclk Hd Hpt He Hva Hm ltac:(cbn; by rewrite lookup_insert_eq) Hdp2) as (rc & s' & live' & E & Hok' & Hop & Hrc).
  exists rc, s', live'. split; [exact E|]. split; [done|]. split; [by eapply (opening_untouched va)|]. destruct Hrc as [?|[-> (inn & c & H1 & H2 & H3 & slot & H4 & H5 & H6)]]; [by left|right]. split; [done|].
  destruct Hop as [(_ & _ & _ & O) U _ _ _]. specialize (O va Hne Hnc). cbn in O. rewrite lookup_insert_eq in O. inversion O as [? r Hs E0 Hr|]. subst.
  exists b, r, slot, inn, c. split_and!; try done. rewrite U. cbn. by rewrite lookup_insert_eq.
Qed.
End Opening.


(** ** A pool and a controller *)

(** The pool after the command and the event ring were taken from it. *)
Definition demo_requests : list request := [Alloc 284; Alloc 284].
Definition demo_start : dma pmm := match serve_all demo_requests demo_pool with Ret (_, s) => s | _ => demo_pool end.

Lemma demo_start_ok : pool_ok demo_start [(0x8200, 512); (0x8000, 512)].
Proof.
  destruct (serve_all_spec demo_requests demo_pool [] demo_pool_ok) as (vs & s' & H1 & _ & H3 & _); [repeat constructor; cbn; lia|].
  assert (('(vs, _) ← serve_all demo_requests demo_pool; Ret vs) = Ret [0x8000; 0x8200]) as E by (vm_compute; reflexivity).
  unfold demo_start. rewrite H1 in E |- *. rewrite bind_ret in E. injection E as ->. exact H3.
Qed.

(** A controller that completes a command while the driver sleeps, when the
    event ring has room: it reports success and slot 1. *)
Definition reply (h : xhci) : option (xhci_ring * xhci_trb) :=
  r ← rings h !! cmds h;
  e ← rings h !! evts h;
  t ← ring e !! Z.to_nat (nidx e);
  let ptr := cmds h + 16 * (nidx r - 1) in
  if xhci_ring_busy r && negb (Z.land (trb_control t) TRB_C =? cs e) && (XHCI_RING ptr =? cmds h)
  then Some (e, mkTrb ptr 0 (Z.shiftl CC_SUCCESS 24) (Z.lor (Z.lor (Z.shiftl ER_COMMAND_COMPLETE 10) (Z.shiftl 1 24)) (cs e))) else None.
Definition later (n : Z) (h : xhci) : xhci := mkXhci (rings h) (cmds h) (evts h) (portscs h) (erdp h) (doorbells h) (ms h + n).
Definition replies (n : Z) (h : xhci) : xhci :=
  match reply h with
  | None => later n h
  | Some (e, t) => later n (set_ring_at (evts h) (mkRing (<[Z.to_nat (nidx e) := t]> (ring e)) (evt e) (eidx e) (nidx e) (cs e)) h)
  end.

Lemma running_later nslots n h : 0 < n -> running nslots h -> running nslots (later n h).
Proof. intros Hn [A B C D]. constructor; try done. cbn. lia. Qed.

(** Posting behind a driver that has taken everything. *)
Lemma lap_ok_post e t t0 es :
  lap_ok es e -> ring e !! Z.to_nat (nidx e) = Some t0 -> Z.land (trb_control t0) TRB_C <> cs e -> Z.land (trb_control t) TRB_C = cs e ->
  lap_ok [t] (mkRing (<[Z.to_nat (nidx e) := t]> (ring e)) (evt e) (eidx e) (nidx e) (cs e)).
Proof.
  intros [[Hn Hc Hr Hev _] Hold] H0 Hb Ht. assert (place e 0 = nidx e) as P0 by (unfold place; rewrite Z.add_0_r; apply Z.mod_small; lia). assert (lap_bit e 0 = cs e) as B0 by (unfold lap_bit; by rewrite (proj2 (Z.ltb_lt _ _)) by lia).
  destruct es as [|u es]. 2: { destruct (Hev 0%nat u eq_refl) as [H1 H2]. rewrite P0, H0 in H1. injection H1 as ->. by rewrite B0 in H2. }
  pose proof (lookup_lt_Some _ _ _ H0) as Hlt. set (e' := mkRing _ _ _ _ _).
  assert (forall j, (1 <= j < 16)%nat -> exists x, ring e' !! Z.to_nat (place e' j) = Some x /\ Z.land (trb_control x) TRB_C <> lap_bit e' j) as Hrest.
  { intros j Hj. change (place e' j) with (place e j). change (lap_bit e' j) with (lap_bit e j). cbn [ring e']. rewrite list_lookup_insert_ne; [apply Hold; cbn; lia|]. unfold place. Z.div_mod_to_equations. lia. }
  split; [|intros j Hj; apply Hrest; cbn in Hj; lia]. constructor; [done|done|cbn; lia| |apply (Hrest 1%nat); lia].
  intros [|j] x Hx; [|done]. injection Hx as <-. change (place e' 0) with (place e 0). change (lap_bit e' 0) with (lap_bit e 0). rewrite P0, B0. cbn [ring e']. by rewrite list_lookup_insert_eq.
Qed.

#[global] Instance replies_controller : Controller 2 replies.
Proof.
  assert (Hall : forall n h, 0 < n -> running 2 h -> running 2 (replies n h) /\ kept h (replies n h) /\ slept n (ms h) (ms (replies n h))).
  { intros n h Hn R. unfold replies. destruct (reply h) as [[e t]|] eqn:Er; [|split; [by apply running_later|split; [done|unfold slept; cbn; lia]]].
    pose proof R as [Hms Hne (r & Hr & Hq & Hsl) (e' & es & He & Hlap & Hok & Hes)]. unfold reply in Er. rewrite Hr, He in Er. cbn [mbind option_bind] in Er. destruct (ring e' !! Z.to_nat (nidx e')) as [t0|] eqn:E0; [|done].
    cbn [mbind option_bind] in Er. destruct (xhci_ring_busy r && negb (Z.land (trb_control t0) TRB_C =? cs e') && (XHCI_RING (cmds h + 16 * (nidx r - 1)) =? cmds h)) eqn:Eb; [|done].
    injection Er as -> Et. subst t. set (t := mkTrb _ _ _ _). apply andb_prop in Eb as [[_ Hb]%andb_prop Hp%Z.eqb_eq]. apply negb_true_iff, Z.eqb_neq in Hb.
    assert (Hbits : Z.land (trb_control t) TRB_C = cs e /\ is_completion t = true /\ slot_of t = 1). { pose proof (po_cs _ _ (lo_posted _ _ Hlap)) as Hc. subst t. destruct e as [a b c d k]. cbn in Hc |- *. by destruct Hc as [-> | ->]. }
    destruct Hbits as (T1 & T2 & T3). split; [|split; [|unfold slept; cbn; lia]].
    - apply running_later; [done|]. constructor; cbn [set_ring_at set_rings rings cmds evts ms]; try done; [rewrite lookup_insert_ne by done; by exists r|].
      rewrite lookup_insert_eq. eexists _, [t]. split; [done|]. split; [by eapply lap_ok_post|]. split; (constructor; [|by constructor]); [|rewrite T3; lia].
      unfold event_ok. rewrite T2. change (ptr_low t) with (cmds h + 16 * (nidx r - 1)). rewrite Hp. cbn. split; [done|]. rewrite lookup_insert_ne by done. by eexists.
    - split_and!; try done. intros a Ha. cbn. by rewrite lookup_insert_ne. }
  constructor; intros n h Hn R; by apply Hall.
Qed.

Definition demo_hc : xhci := mkXhci (<[0x8000 := new_ring]> (<[0x8200 := new_ring]> ∅)) 0x8000 0x8200 [0x603; 0x603] 0 [] 7.
Definition demo_ctl : ctl (dma pmm) := mkCtl demo_hc demo_start ∅ [(0, 0); (0, 0)] true (mkPipes ∅ ∅) ∅ 0x9000.

Lemma demo_ctl_ok : ctl_ok 2 demo_ctl [(0x8200, 512); (0x8000, 512)].
Proof.
  constructor; [|exact demo_start_ok| |done].
  - constructor; cbn; [lia|done| |].
    + exists new_ring. split; [done|]. split; [|done]. split; [done|]. split; [cbn; lia|by right].
    + exists new_ring, []. split; [done|]. split; [|by split]. assert (forall j, (j < 16)%nat -> exists t, ring new_ring !! Z.to_nat (place new_ring j) = Some t /\ Z.land (trb_control t) TRB_C <> lap_bit new_ring j) as H.
      { intros j Hj. exists zero_trb. unfold place, lap_bit. change (nidx new_ring) with 0; change (cs new_ring) with 1. rewrite Z.mod_small, (proj2 (Z.ltb_lt _ 16)) by lia. split; [|done]. cbn [ring]. apply lookup_replicate. unfold XHCI_RING_ITEMS. split; [done|lia]. }
      split; [|intros j Hj; apply H; lia]. constructor; [cbn; lia|by right|cbn; lia|done|apply (H 0%nat); lia].
  - intros a. cbn. rewrite !lookup_empty. intros [Ha|[[? ?]|[[? ?]|[? ?]]]]; try done. rewrite !lookup_insert_is_Some', lookup_empty in Ha. destruct Ha as [<-|[<-|[? ?]]]; [| |done].
    + exists 512. split; [right; left|lia].
    + exists 512. split; [left|lia].
Qed.

(** A full-speed device on the second port: its default pipe. *)
Definition demo_device : usbdevice := mkDevice 1 0 0 0.
Definition demo_ep : usb_endpoint_descriptor := mkEpDesc 0 0 8 0.


(** It is opened, in slot 1. *)
Lemma demo_pipe_opens :
  ('(va, s) ← xhci_alloc_pipe replies demo_device 0 demo_ep demo_ctl; Ret (va, slotid <$> xpipes s !! va, doorbells (hc s))) = Ret (0x8400, Some 1, [(0, 0); (0, 0)]).
Proof. vm_compute. reflexivity. Qed.

(** The first word of an interrupt endpoint: the specification has the interval
    in bits 16 to 23 and the size of the stream array in bits 10 to 14; what is
    written reads as an interval of 3 for every endpoint, with streams. *)
Lemma interval_misplaced spd i :
  byte_ok i -> exists v, int_interval spd i = Ret v /\
    field (Z.lor (Z.shiftl v 12) (Z.shiftl 3 16)) 16 8 = 3 /\ field (Z.lor (Z.shiftl v 12) (Z.shiftl 3 16)) 10 5 = 4 * v /\ 0 < v.
Proof. intros Hi. destruct (interval_returns spd i Hi) as (v & E & [->|[->| ->]]); eexists; (split; [exact E|]); by vm_compute. Qed.
