(* ===== verification/Uhci.v ===== *)
(** * iokit/IOUSBFamily/usb1/uhci.c: the USB 1 host controller

    A transfer is a chain of descriptors in memory, one for each packet, that the
    driver hangs into the queue of the controller and waits for.  [transactions]
    is what a controller reads when it follows the links.  Shown: the chain of a
    bulk transfer covers the buffer exactly, in packets of at most the maximal
    size, with alternating data toggles, and each token names the device, the
    endpoint, the direction and the length; a control transfer is a chain of two
    or three; transfers return; polling arms an interrupt pipe again with the
    other toggle; and what keeps the driver from working: a frame list the
    controller is not told of, resets of ports that are never ended, addresses
    that are never taken over, interrupt queues that are never hung in, the bit
    for slow devices that is cut off, and pipes that cannot be freed. *)

From S2P Require Import Prelude Pmm Paging Usb DmaPool Xhci UsbHub XhciPipe.

Definition UHCI_USBCMD : Z := 0.
Definition USBCMD_RS : Z := 1.
Definition USBCMD_HCRESET : Z := 2.
Definition USBCMD_CF : Z := 0x40.
Definition USBCMD_MAXP : Z := 0x80.
Definition UHCI_USBINTR : Z := 4.
Definition UHCI_USBFLBASEADD : Z := 8.
Definition UHCI_USBPORTSC1 : Z := 16.
Definition PORTSC_CCS : Z := 1.
Definition PORTSC_PE : Z := 4.
Definition PORTSC_RES1 : Z := 0x80.
Definition PORTSC_LSDA : Z := 0x100.
Definition PORTSC_PR : Z := 0x200.
Definition TD_CTRL_SPD : Z := 0x20000000.
Definition TD_CTRL_C_ERR3 : Z := 0x18000000.
Definition TD_CTRL_LS : Z := 0x4000000.
Definition TD_CTRL_IOC : Z := 0x1000000.
Definition TD_CTRL_ACTIVE : Z := 0x800000.
Definition TD_ERR_MASK : Z := 0x760000.
Definition TD_TOKEN_TOGGLE : Z := 0x80000.
Definition USB_PID_OUT : Z := 0xE1.
Definition USB_PID_IN : Z := 0x69.
Definition USB_PID_SETUP : Z := 0x2D.
Definition UHCI_PTR_TERM : Z := 1.
Definition UHCI_PTR_QH : Z := 2.
Definition UHCI_NUMFRAMES : nat := 1024.

(** A descriptor's own address is where it lies. *)
Record uhci_td := mkTd { td_link : Z; td_status : Z; td_token : Z; td_buffer : Z }.

(** The queue of an interrupt pipe is [qh]; [toggle] and [lowspeed] are bytes. *)
Record uhci_qh := mkQh { qh_link : Z; qh_element : Z; qh_dma : Z }.
Record uhci_pipe := mkUpipe { generic : usb_pipe; qh : uhci_qh; td : Z; data : Z; toggle : Z; lowspeed : bool }.

(** The I/O ports by number, the controller's from [io] on; [frame]: the frame
    list at [frame_dma]; [int_head]: the [dma] field of the first interrupt
    queue, [None] for a null pointer. *)
Record uhci (P : Type) := mkUhci
  { io : Z; regs : gmap Z Z; frame_dma : Z; frame : list Z; async_qh : uhci_qh; int_head : option Z; tds : gmap Z uhci_td; upool : P; ums : Z }.
Arguments mkUhci {P}. Arguments io {P}. Arguments frame_dma {P}. Arguments regs {P}. Arguments frame {P}. Arguments async_qh {P}. Arguments int_head {P}.
Arguments tds {P}. Arguments upool {P}. Arguments ums {P}.

(** The token: identification of the packet, device, endpoint, toggle, and the
    length less one, all ones for none. *)
Definition uhci_explen (len : Z) : Z := Z.shiftl (Z.land (len - 1) 0x7FF) 21.
Definition uhci_actual (len : Z) : Z := Z.land (len + 1) 0x7FF.
Definition uhci_tok (devaddr ep tog pid len : Z) : Z :=
  let t := Z.lor (Z.lor (Z.lor (Z.shiftl devaddr 8) (Z.shiftl ep 15)) (if tog =? 0 then 0 else TD_TOKEN_TOGGLE)) (Z.land pid 0xFF) in
  Z.lor t (if 0 <? len then uhci_explen len else Z.shiftl 0x7FF 21).

Section Driver.
Context {P : Type} `{!DmaPool P} (usb_msleep : Z -> uhci P -> uhci P).
Implicit Types s : uhci P.

Definition set_regs (r : gmap Z Z) s : uhci P := mkUhci (io s) r (frame_dma s) (frame s) (async_qh s) (int_head s) (tds s) (upool s) (ums s).
Definition set_async (q : uhci_qh) s : uhci P := mkUhci (io s) (regs s) (frame_dma s) (frame s) q (int_head s) (tds s) (upool s) (ums s).
Definition set_tds (m : gmap Z uhci_td) s : uhci P := mkUhci (io s) (regs s) (frame_dma s) (frame s) (async_qh s) (int_head s) m (upool s) (ums s).
Definition set_upool (p : P) s : uhci P := mkUhci (io s) (regs s) (frame_dma s) (frame s) (async_qh s) (int_head s) (tds s) p (ums s).

Definition urd (r : Z) s : run Z := of_option (regs s !! u16 (io s + r)).
Definition uwr (r v : Z) s : uhci P := set_regs (<[u16 (io s + r) := u16 v]> (regs s)) s.
(** [outl(port, value)] *)
Definition outl (port v : Z) s : uhci P := set_regs (<[u16 port := u32 v]> (regs s)) s.

(** [memset] and the fields that are set: the descriptor is in the map. *)
Definition uhci_alloc_td s : run (Z * uhci P) :=
  '(va, p) ← pool_aligned 32 16 (upool s);
  if va =? 0 then Ret (0, set_upool p s)
  else Ret (va, set_tds (<[va := mkTd UHCI_PTR_TERM 0 0 0]> (tds s)) (set_upool p s)).

Definition uhci_fill_td (va status token buf : Z) s : run (uhci P) :=
  _ ← of_option (tds s !! va);
  Ret (set_tds (<[va := mkTd UHCI_PTR_TERM status token (u32 buf)]> (tds s)) s).

(** [prev->link = (u32)next->dma] *)
Definition link_td (prev next : Z) s : run (uhci P) :=
  t ← of_option (tds s !! prev);
  Ret (set_tds (<[prev := mkTd (u32 next) (td_status t) (td_token t) (td_buffer t)]> (tds s)) s).

(** ** Bring-up and ports *)

Definition uhci_reset s : run (uhci P) :=
  let s := uwr UHCI_USBCMD USBCMD_HCRESET s in
  let end_ := u32 (usb_now_ms (ums s) + 500) in
  loop (fun s =>
    v ← urd UHCI_USBCMD s;
    if Z.land v USBCMD_HCRESET =? 0 then Ret (inr s)
    else if end_ <=? usb_now_ms (ums s) then Ret (inr s) else Ret (inl (usb_msleep 1 s))) s.

Definition uhci_start s : uhci P :=
  let f := replicate UHCI_NUMFRAMES (Z.lor (u32 (qh_dma (async_qh s))) UHCI_PTR_QH) in
  let s := mkUhci (io s) (regs s) (frame_dma s) f (mkQh UHCI_PTR_TERM UHCI_PTR_TERM (qh_dma (async_qh s))) (int_head s) (tds s) (upool s) (ums s) in
  let s := outl (u32 (frame_dma s)) (io s + UHCI_USBFLBASEADD) s in
  uwr UHCI_USBCMD (Z.lor (Z.lor USBCMD_RS USBCMD_CF) USBCMD_MAXP) (uwr UHCI_USBINTR 0 s).

Fixpoint probe_ports (ps : list Z) (n : Z) s : run Z :=
  match ps with
  | [] => Ret n
  | p :: ps => v ← urd (UHCI_USBPORTSC1 + 2 * p) s; probe_ports ps (if Z.land v PORTSC_RES1 =? 0 then n else p + 1) s
  end.
Definition uhci_probe_ports s : run Z := probe_ports (seqZ 0 8) 0 s.

Definition uhci_hub_detect (port : Z) s : run Z :=
  v ← urd (UHCI_USBPORTSC1 + 2 * port) s; Ret (if Z.land v PORTSC_CCS =? 0 then 0 else 1).
Definition uhci_hub_disconnect (port : Z) s : uhci P := uwr (UHCI_USBPORTSC1 + 2 * port) (Z.lor PORTSC_CCS PORTSC_LSDA) s.

(** The loop of a reset: whether it ended. *)
Definition port_reset_wait (reg end_ : Z) s : run (bool * uhci P) :=
  loop (fun s =>
    sts ← urd reg s;
    if Z.land sts PORTSC_PR =? 0 then Ret (inr (true, s))
    else if end_ <=? usb_now_ms (ums s) then Ret (inr (false, s)) else Ret (inl (usb_msleep 1 s))) s.

Definition uhci_hub_reset (port : Z) s : run (Z * uhci P) :=
  let reg := UHCI_USBPORTSC1 + 2 * port in
  let s := uwr reg PORTSC_PR s in
  '(ok, s) ← port_reset_wait reg (u32 (usb_now_ms (ums s) + 50 * 2)) s;
  if negb (ok : bool) then Ret (-1, s)
  else
    sts ← urd reg s;
    if negb (Z.land sts (Z.lor PORTSC_CCS PORTSC_PE) =? Z.lor PORTSC_CCS PORTSC_PE) then Ret (-1, s)
    else Ret (if Z.land sts PORTSC_LSDA =? 0 then 0 else 1, s).

(** ** Pipes *)

Definition armed (ls : bool) : Z := Z.lor (Z.lor TD_CTRL_ACTIVE TD_CTRL_C_ERR3) (if ls then TD_CTRL_LS else 0).

(** The descriptor, the buffer and the queue of an interrupt pipe; [None]: null
    is returned (and a pipe that existed before is left with the descriptor but
    no buffer). *)
Definition interrupt_queue (e : usb_endpoint_descriptor) (u : uhci_pipe) s : run (option uhci_pipe * uhci P) :=
  '(t, s) ← uhci_alloc_td s;
  if t =? 0 then Ret (None, s)
  else
    '(b, p) ← pool_alloc (Usb.maxpacket (generic u)) (upool s);
    let s := set_upool p s in
    if b =? 0 then Ret (None, s)
    else
      x ← of_option (tds s !! t);
      let tok := uhci_tok (Usb.devaddr (generic u)) (Z.land (bEndpointAddress e) 0x0f) 0 USB_PID_IN (Usb.maxpacket (generic u)) in
      let s := set_tds (<[t := mkTd (td_link x) (armed (lowspeed u)) tok (u32 b)]> (tds s)) s in
      let l := match int_head s with Some d => Z.lor (u32 d) UHCI_PTR_QH | None => UHCI_PTR_TERM end in
      let q := mkQh l (u32 t) (qh_dma (qh u)) in
      let a := mkQh (Z.lor (u32 (qh_dma q)) UHCI_PTR_QH) (qh_element (async_qh s)) (qh_dma (async_qh s)) in
      let s := mkUhci (io s) (regs s) (frame_dma s) (frame s) a (Some (qh_dma q)) (tds s) (upool s) (ums s) in
      Ret (Some (mkUpipe (generic u) q t b (toggle u) (lowspeed u)), s).

(** A new pipe ([None]) or one there is; a null descriptor is read through. *)
Definition uhci_realloc_pipe (cntl : Z) (d : usbdevice) (upipe : option uhci_pipe) (epdesc : option usb_endpoint_descriptor) s : run (option uhci_pipe * uhci P) :=
  '(u, s) ← match upipe with
            | Some u => Ret (Some u, s)
            | None =>
                '(va, p) ← pool_aligned 72 16 (upool s);
                let s := set_upool p s in
                if va =? 0 then Ret (None, s)
                else
                  e ← of_option epdesc;
                  let g := Usb.mkPipe cntl (ep_type e) (Z.land (bEndpointAddress e) 0x0f) (devaddr d) (speed d) (wMaxPacketSize e) 1 in
                  Ret (Some (mkUpipe g (mkQh 0 0 0) 0 0 0 (speed d =? 1)), s)
            end;
  match u with
  | None => Ret (None, s)
  | Some u =>
      e ← of_option epdesc;
      if (ep_type e =? USB_ENDPOINT_XFER_INT) && (td u =? 0) then interrupt_queue e u s else Ret (Some u, s)
  end.

(** ** Transfers *)

(** The status word of a descriptor; [ls] is kept in a byte. *)
Definition td_flags (ls : bool) (extra : Z) : Z := Z.lor (Z.lor (Z.lor TD_CTRL_ACTIVE TD_CTRL_C_ERR3) (u8 (if ls then TD_CTRL_LS else 0))) extra.

Definition new_td (flags token buf : Z) s : run (Z * uhci P) :=
  '(t, s) ← uhci_alloc_td s;
  if t =? 0 then Ret (0, s) else s ← uhci_fill_td t flags token buf s; Ret (t, s).

(** Setup, data and status: the first and the last descriptor; [None]: -1. *)
Definition control_chain (u : uhci_pipe) (inn : bool) (cmd buf datasize : Z) s : run (option (Z * Z) * uhci P) :=
  let dev := Usb.devaddr (generic u) in
  let ls := lowspeed u in
  '(first, s) ← new_td (td_flags ls 0) (uhci_tok dev 0 0 USB_PID_SETUP 8) cmd s;
  if first =? 0 then Ret (None, s)
  else
    '(prev, s) ← (if 0 <? datasize then
                    '(d, s) ← new_td (td_flags ls TD_CTRL_SPD) (uhci_tok dev 0 1 (if inn then USB_PID_IN else USB_PID_OUT) datasize) buf s;
                    if d =? 0 then Ret (0, s) else s ← link_td first d s; Ret (d, s)
                  else Ret (first, s));
    if prev =? 0 then Ret (None, s)
    else
      '(st, s) ← new_td (td_flags ls TD_CTRL_IOC) (uhci_tok dev 0 1 (if inn then USB_PID_OUT else USB_PID_IN) 0) 0 s;
      if st =? 0 then Ret (None, s) else s ← link_td prev st s; Ret (Some (first, st), s).

(** One packet of a bulk transfer: what remains, the toggle, the first and the
    last descriptor so far. *)
Definition bulk_round (u : uhci_pipe) (inn : bool) (buf datasize : Z) (st : Z * Z * Z * Z * uhci P)
    : run (Z * Z * Z * Z * uhci P + option (Z * Z * Z) * uhci P) :=
  let '(rem, tog, first, last, s) := st in
  if negb (0 <? rem) then Ret (inr (Some (first, last, tog), s))
  else
    let mp := Usb.maxpacket (generic u) in
    let chunk := if mp <? rem then mp else rem in
    '(t, s) ← new_td (td_flags (lowspeed u) TD_CTRL_SPD)
                (uhci_tok (Usb.devaddr (generic u)) (Usb.ep (generic u)) tog (if inn then USB_PID_IN else USB_PID_OUT) chunk) (buf + (datasize - rem)) s;
    if t =? 0 then Ret (inr (None, s))
    else
      s ← (if first =? 0 then Ret s else link_td last t s);
      Ret (inl (rem - chunk, Z.lxor tog 1, if first =? 0 then t else first, t, s)).

Definition bulk_chain (u : uhci_pipe) (inn : bool) (buf datasize : Z) s : run (option (Z * Z * Z) * uhci P) :=
  loop (bulk_round u inn buf datasize) (datasize, toggle u, 0, 0, s).

Definition uhci_wait_td (last to_ms : Z) s : run (Z * uhci P) :=
  let end_ := u32 (usb_now_ms (ums s) + to_ms) in
  loop (fun s =>
    t ← of_option (tds s !! last);
    if Z.land (td_status t) TD_CTRL_ACTIVE =? 0 then Ret (inr (0, s))
    else if end_ <=? usb_now_ms (ums s) then Ret (inr (-1, s)) else Ret (inl (usb_msleep 1 s))) s.

Definition set_element (v : Z) s : uhci P := set_async (mkQh (qh_link (async_qh s)) v (qh_dma (async_qh s))) s.

(** Hang the chain in, wait, take it out. *)
Definition run_chain (u : uhci_pipe) (first last : Z) s : run (Z * uhci P) :=
  if (first =? 0) || (last =? 0) then Ret (-1, s)
  else
    '(w, s) ← uhci_wait_td last (usb_xfer_time (generic u)) (set_element (u32 first) s);
    t ← of_option (tds s !! last);
    Ret (if (w =? 0) && (Z.land (td_status t) TD_ERR_MASK =? 0) then 0 else -1, set_element UHCI_PTR_TERM s).

(** [cmd]: the address of a request; 0 is null. *)
Definition uhci_send_pipe (u : uhci_pipe) (inn : bool) (cmd buf datasize : Z) s : run (Z * uhci_pipe * uhci P) :=
  if negb (cmd =? 0) then
    '(c, s) ← control_chain u inn cmd buf datasize s;
    match c with
    | None => Ret (-1, u, s)
    | Some (first, last) => '(rc, s) ← run_chain u first last s; Ret (rc, u, s)
    end
  else
    '(c, s) ← bulk_chain u inn buf datasize s;
    match c with
    | None => Ret (-1, u, s)
    | Some (first, last, tog) =>
        '(rc, s) ← run_chain u first last s;
        Ret (rc, mkUpipe (generic u) (qh u) (td u) (data u) tog (lowspeed u), s)
    end.

(** The number of bytes that were copied from the pipe's buffer, and the result. *)
Definition uhci_poll_intr (u : uhci_pipe) s : run (Z * Z * uhci_pipe * uhci P) :=
  if td u =? 0 then Ret (0, -1, u, s)
  else
    t ← of_option (tds s !! td u);
    let again tok tog :=
      (mkUpipe (generic u) (mkQh (qh_link (qh u)) (u32 (td u)) (qh_dma (qh u))) (td u) (data u) tog (lowspeed u),
       set_tds (<[td u := mkTd (td_link t) (armed (lowspeed u)) tok (td_buffer t)]> (tds s)) s) in
    if negb (Z.land (td_status t) TD_CTRL_ACTIVE =? 0) then Ret (0, -1, u, s)
    else if negb (Z.land (td_status t) TD_ERR_MASK =? 0) then let '(u, s) := again (td_token t) (toggle u) in Ret (0, -1, u, s)
    else
      let len := uhci_actual (Z.land (td_status t) 0x7FF) in
      let tog := Z.lxor (toggle u) 1 in
      let tok := Z.lor (Z.land (td_token t) (u32 (Z.lnot (Z.shiftl 1 19)))) (if tog =? 0 then 0 else TD_TOKEN_TOGGLE) in
      let '(u, s) := again tok tog in
      Ret (len, if 0 <? len then 0 else -1, u, s).
End Driver.

(** ** What the controller reads *)

(** A transaction on the bus, as the UHCI specification lays out a token. *)
Record transaction := mkTransaction { x_pid : Z; x_dev : Z; x_ep : Z; x_toggle : Z; x_len : Z; x_buffer : Z }.

Definition transaction_of (t : uhci_td) : transaction :=
  let w := td_token t in
  mkTransaction (field w 0 8) (field w 8 7) (field w 15 4) (field w 19 1) ((field w 21 11 + 1) mod 2048) (td_buffer t).

(** The transactions of the descriptors from [p] on; [None]: the links lead
    nowhere, or further than [n] descriptors. *)
Fixpoint transactions (n : nat) (m : gmap Z uhci_td) (p : Z) : option (list transaction) :=
  if p =? UHCI_PTR_TERM then Some []
  else match n with
       | O => None
       | S n => t ← m !! p; l ← transactions n m (td_link t); Some (transaction_of t :: l)
       end.

(** The fields of a token do not run into each other. *)
Lemma tok_fields dev ep tog pid len link st b :
  0 <= dev < 128 -> 0 <= ep < 16 -> 0 <= tog < 2 -> 0 <= pid < 256 -> 0 <= len < 2048 ->
  transaction_of (mkTd link st (uhci_tok dev ep tog pid len) b) = mkTransaction pid dev ep tog len b.
Proof.
  intros Hd He Ht Hp Hl. assert (E : uhci_tok dev ep tog pid len =
    Z.lor (Z.lor (Z.lor (Z.lor (Z.lor 0 (Z.shiftl pid 0)) (Z.shiftl dev 8)) (Z.shiftl ep 15)) (Z.shiftl tog 19)) (Z.shiftl ((len - 1) mod 2048) 21)).
  { unfold uhci_tok, uhci_explen. change 0x7FF with (Z.ones 11). rewrite (Z.land_ones (len - 1)) by lia. change 0xFF with (Z.ones 8). rewrite (Z.land_ones pid), (Z.mod_small pid) by lia. rewrite Z.shiftl_0_r, Z.lor_0_l.
    assert ((if tog =? 0 then 0 else TD_TOKEN_TOGGLE) = Z.shiftl tog 19) as -> by (assert (tog = 0 \/ tog = 1) as [-> | ->] by lia; done).
    assert ((if 0 <? len then Z.shiftl ((len - 1) mod 2 ^ 11) 21 else Z.shiftl (Z.ones 11) 21) = Z.shiftl ((len - 1) mod 2048) 21) as ->.
    { destruct (Z.ltb_spec 0 len); [done|]. by replace len with 0 by lia. }
    f_equal. rewrite <- !Z.lor_assoc, (Z.lor_comm pid), <- !Z.lor_assoc. done. }
  pose proof (Z.mod_pos_bound (len - 1) 2048 ltac:(lia)) as Hm. pose proof (shiftl_small dev 8 7 ltac:(lia) ltac:(lia) ltac:(lia)). pose proof (shiftl_small ep 15 4 ltac:(lia) ltac:(lia) ltac:(lia)).
  pose proof (shiftl_small tog 19 1 ltac:(lia) ltac:(lia) ltac:(lia)).
  assert (forall a b n, 0 <= a < 2 ^ n -> 0 <= b < 2 ^ n -> 0 <= n -> 0 <= Z.lor a b < 2 ^ n) as Hor by (intros; by apply lor_bound).
  unfold transaction_of. cbn [td_token td_buffer]. rewrite E. rewrite !Z.shiftl_0_r, Z.lor_0_l.
  assert (0 <= Z.lor pid (Z.shiftl dev 8) < 2 ^ 15) by (apply Hor; lia). assert (0 <= Z.lor (Z.lor pid (Z.shiftl dev 8)) (Z.shiftl ep 15) < 2 ^ 19) by (apply Hor; lia).
  assert (0 <= Z.lor (Z.lor (Z.lor pid (Z.shiftl dev 8)) (Z.shiftl ep 15)) (Z.shiftl tog 19) < 2 ^ 21) by (apply Hor; lia).
  rewrite !(field_low _ ((len - 1) mod 2048)) by lia. rewrite (field_high _ ((len - 1) mod 2048) 21 11) by lia. rewrite !(field_low _ tog 19) by lia. rewrite (field_high _ tog 19 1) by lia.
  rewrite !(field_low _ ep 15) by lia. rewrite (field_high _ ep 15 4) by lia. rewrite (field_low _ dev 8) by lia. rewrite (field_high _ dev 8 7) by lia.
  assert (field pid 0 8 = pid) as -> by (unfold field; by rewrite Z.shiftr_0_r, Z.land_ones, Z.mod_small by lia).
  f_equal. rewrite Z.add_mod_idemp_l by lia. replace (len - 1 + 1) with len by lia. by apply Z.mod_small.
Qed.

(** Status, token and buffer of a descriptor. *)
Definition td_of (link : Z) (x : Z * Z * Z) : uhci_td := mkTd link x.1.1 x.1.2 x.2.

(** The links from [p] on lead through the descriptors [l], with their addresses,
    to the end mark. *)
Fixpoint chain (m : gmap Z uhci_td) (p : Z) (l : list (Z * (Z * Z * Z))) : Prop :=
  match l with
  | [] => p = UHCI_PTR_TERM
  | (a, x) :: l => p = a /\ p <> UHCI_PTR_TERM /\ exists k, m !! a = Some (td_of k x) /\ chain m k l
  end.

Lemma td_chain_other m p l a t : a ∉ l.*1 -> chain m p l -> chain (<[a := t]> m) p l.
Proof.
  revert p. induction l as [|[b x] l IH]; intros p Ha; [done|]. cbn in Ha. apply not_elem_of_cons in Ha as [Hne Ha].
  intros (-> & Hp & k & Hk & Hc). split; [done|]. split; [done|]. exists k. rewrite lookup_insert_ne by done. auto.
Qed.

(** Another descriptor behind the last. *)
Lemma chain_snoc m p l a x b y :
  NoDup (l ++ [(a, x)]).*1 -> b ∉ (l ++ [(a, x)]).*1 -> b <> UHCI_PTR_TERM -> m !! b = Some (td_of UHCI_PTR_TERM y) ->
  chain m p (l ++ [(a, x)]) -> chain (<[a := td_of b x]> m) p (l ++ [(a, x)] ++ [(b, y)]).
Proof.
  revert p. induction l as [|[c z] l IH]; intros p; cbn.
  - intros _ Hb Ht Hy (-> & Hp & k & Hk & ->). split; [done|]. split; [done|]. exists b. rewrite lookup_insert_eq. split; [done|]. split; [done|]. split; [done|].
    exists UHCI_PTR_TERM. rewrite lookup_insert_ne; [done|]. intros ->. apply Hb. by left.
  - intros [Hc Hn]%NoDup_cons Hb Ht Hy (-> & Hp & k & Hk & Hch). apply not_elem_of_cons in Hb as [_ Hb]. split; [done|]. split; [done|]. exists k.
    rewrite lookup_insert_ne; [split; [done|by apply IH]|]. intros ->. apply Hc. rewrite fmap_app. apply elem_of_app. right. by left.
Qed.

Lemma chain_last m p l a x : chain m p (l ++ [(a, x)]) -> exists k, m !! a = Some (td_of k x).
Proof. revert p. induction l as [|[b y] l IH]; intros p; [intros (_ & _ & k & Hk & _); by exists k|]. intros (_ & _ & k & _ & Hc). by apply (IH k). Qed.

(** The controller gets the transactions of the descriptors. *)
Lemma chain_transactions m p l : chain m p l -> transactions (length l) m p = Some ((fun x => transaction_of (td_of 0 x.2)) <$> l).
Proof.
  revert p. induction l as [|[a x] l IH]; intros p; cbn; [by intros ->|]. intros (-> & Hp & k & Hk & Hc). rewrite (proj2 (Z.eqb_neq _ _)) by done.
  rewrite Hk. cbn. by rewrite (IH k Hc).
Qed.

(** ** Chains that the driver builds *)

Section Chains.
Context {P : Type} `{!DmaPool P} `{!PoolLaws P} (clock : Z).
Implicit Types s : uhci P.

(** [l]: the descriptors so far, each in a block of its own; building them takes
    no time. *)
Record laid (l : list (Z * (Z * Z * Z))) (first last : Z) s (live : list (Z * Z)) : Prop :=
  { la_now : ums s = clock;
    la_pool : pool_rel (upool s) live;
    la_live : Forall (fun a => 1 < a < 2 ^ 32 /\ exists n, 32 <= n /\ (a, n) ∈ live) l.*1;
    la_nodup : NoDup l.*1;
    la_chain : l = [] /\ first = 0 \/ exists l0 x, l = l0 ++ [(last, x)] /\ chain (tds s) first l }.

Lemma laid_first l first last s live : laid l first last s live -> l <> [] -> 1 < first < 2 ^ 32 /\ 1 < last < 2 ^ 32.
Proof.
  intros [_ _ Hl _ [[-> _]|(l0 & x & -> & Hc)]] Hne; [done|]. split.
  - destruct l0 as [|[a y] l0]; cbn in Hc, Hl; destruct Hc as [-> _]; by inversion Hl as [|? ? [H _]].
  - rewrite fmap_app in Hl. apply Forall_app in Hl as [_ Hl]. by inversion Hl as [|? ? [H _]].
Qed.

Lemma laid_transactions l first last s live :
  laid l first last s live -> l <> [] -> transactions (length l) (tds s) first = Some ((fun x => transaction_of (td_of 0 x.2)) <$> l) /\ is_Some (tds s !! last).
Proof.
  intros La Hne. destruct (la_chain _ _ _ _ _ La) as [[-> _]|(l0 & x & -> & Hc)]; [done|]. split; [by apply chain_transactions|]. destruct (chain_last _ _ _ _ _ Hc) as [k ->]. by eexists.
Qed.

(** Allocating a descriptor failed. *)
Definition pool_out s : Prop := exists p, pool_aligned 32 16 p = Ret (0, upool s).

(** One more descriptor, or none when the pool is out of memory. *)
Lemma new_td_spec flags token buf l first last s live :
  laid l first last s live -> 0 <= buf < 2 ^ 32 ->
  exists t s', new_td flags token buf s = Ret (t, s') /\ (t = 0 /\ pool_out s' \/
    t <> 0 /\ exists s2 live', (if first =? 0 then Ret s' else link_td last t s') = Ret s2 /\
      laid (l ++ [(t, (flags, token, buf))]) (if first =? 0 then t else first) t s2 live').
Proof.
  intros La Hb. destruct La as [Hnow Hp Hl Hn Hc] eqn:E. clear E. unfold new_td, uhci_alloc_td. destruct (pool_aligned_spec 32 16 (upool s) live Hp) as (va & p' & E & H); [lia..|].
  rewrite E, !bind_ret. destruct H as [[-> Hp']|(Hva & Hm & b & <- & Hs & Hp' & Hap)].
  - cbn. eexists _, _. split; [done|]. left. split; [done|]. by eexists.
  - destruct (Z.eqb_spec b.1 0); [lia|]. rewrite bind_ret. cbn. rewrite (proj2 (Z.eqb_neq b.1 0)) by done. unfold uhci_fill_td. cbn. rewrite lookup_insert_eq. cbn. rewrite u32_small by done.
    eexists _, _. split; [done|]. right. split; [done|]. set (y := (flags, token, buf)). set (m := <[b.1 := _]> (<[b.1 := _]> (tds s))).
    assert (Hy : m !! b.1 = Some (td_of UHCI_PTR_TERM y)) by (unfold m; by rewrite lookup_insert_eq).
    assert (Hf : b.1 ∉ l.*1). { intros Hin. destruct (proj1 (Forall_forall _ _) Hl _ Hin) as (_ & n' & Hn' & Hin'). pose proof (proj1 (Forall_forall _ _) Hap _ Hin') as [Ha|Ha]; cbn in Ha; lia. }
    assert (Hb1 : 1 < b.1 < 2 ^ 32) by (Z.div_mod_to_equations; lia).
    assert (Hl' : Forall (fun a => 1 < a < 2 ^ 32 /\ exists n, 32 <= n /\ (a, n) ∈ b :: live) (l ++ [(b.1, y)]).*1).
    { rewrite fmap_app. apply Forall_app. split; [eapply Forall_impl; [exact Hl|]; intros a (? & k & ? & ?); split; [done|]; exists k; split; [done|by right]|].
      constructor; [|done]. split; [done|]. exists b.2. split; [done|]. destruct b; by left. }
    assert (Hn' : NoDup (l ++ [(b.1, y)]).*1).
    { rewrite fmap_app. apply NoDup_app. split; [done|]. split; [|apply NoDup_singleton]. intros a Ha Ha'%list_elem_of_singleton. by subst. }
    destruct Hc as [[-> ->]|(l0 & x & -> & Hc)].
    + eexists _, (b :: live). split; [done|]. constructor; [done..|]. right. exists [], y. split; [done|]. cbn. split; [done|]. split; [unfold UHCI_PTR_TERM; lia|]. exists UHCI_PTR_TERM. split; [exact Hy|done].
    + destruct (laid_first _ _ _ _ _ La) as [Hf1 Hl1]; [by destruct l0|]. rewrite (proj2 (Z.eqb_neq first 0)) by lia.
      assert (Hne : last <> b.1). { intros ->. apply Hf. rewrite fmap_app. apply elem_of_app. right. by left. }
      destruct (chain_last _ _ _ _ _ Hc) as [k Hk]. unfold link_td. cbn. unfold m. rewrite !lookup_insert_ne, Hk by done. cbn. rewrite u32_small by lia. eexists _, (b :: live). split; [done|]. constructor; [done..|].
      right. eexists (l0 ++ [(last, x)]), y. split; [done|]. cbn. rewrite <- app_assoc. apply (chain_snoc m first l0 last x b.1 y Hn Hf); [unfold UHCI_PTR_TERM; lia|done|].
      unfold m. apply td_chain_other; [done|]. by apply td_chain_other.
Qed.

(** ** Bulk transfers *)

Section Bulk.
Context (u : uhci_pipe) (inn : bool) (buf datasize : Z).
Let mp : Z := Usb.maxpacket (generic u).
Let pid : Z := if inn then USB_PID_IN else USB_PID_OUT.

(** A pipe whose fields fit the fields of a token. *)
Definition pipe_ok : Prop :=
  0 <= Usb.devaddr (generic u) < 128 /\ 0 <= Usb.ep (generic u) < 16 /\ 0 < mp < 2048 /\ 0 <= toggle u < 2.

(** The packets of a transfer: from where, how many bytes, with which toggle. *)
Definition packets : Z := (datasize + mp - 1) / mp.
Definition packet (i : Z) : transaction :=
  mkTransaction pid (Usb.devaddr (generic u)) (Usb.ep (generic u)) ((toggle u + i) mod 2) (Z.min mp (datasize - i * mp)) (buf + i * mp).
Definition packet_td (i : Z) : Z * Z * Z :=
  (td_flags (lowspeed u) TD_CTRL_SPD, uhci_tok (Usb.devaddr (generic u)) (Usb.ep (generic u)) ((toggle u + i) mod 2) pid (Z.min mp (datasize - i * mp)), buf + i * mp).

Lemma packet_transaction i : pipe_ok -> 0 <= i -> i * mp < datasize -> transaction_of (td_of 0 (packet_td i)) = packet i.
Proof.
  intros (Hd & He & Hm & Ht) Hi Hlt. apply tok_fields; try done; [apply Z.mod_pos_bound; lia| |lia]. unfold pid, USB_PID_IN, USB_PID_OUT. destruct inn; lia.
Qed.

(** After [k] rounds. *)
Definition bulk_inv (k : Z) (st : Z * Z * Z * Z * uhci P) : Prop :=
  let '(rem, tog, first, last, s) := st in
  exists l live, laid l first last s live /\ l.*2 = packet_td <$> seqZ 0 k /\ rem = Z.max 0 (datasize - k * mp) /\ tog = (toggle u + k) mod 2 /\
    0 <= k /\ (k = 0 \/ (k - 1) * mp < datasize).

(** A chain of descriptors that is ready for the controller. *)
Definition bulk_ready (r : option (Z * Z * Z)) s : Prop :=
  match r with
  | None => pool_out s
  | Some (first, last, tog) =>
      exists l live, laid l first last s live /\ l.*2 = packet_td <$> seqZ 0 packets /\ tog = (toggle u + packets) mod 2
  end.

Lemma lxor_toggle x : 0 <= x -> Z.lxor (x mod 2) 1 = (x + 1) mod 2.
Proof. intros Hx. rewrite (Z.add_mod x 1 2) by lia. pose proof (Z.mod_pos_bound x 2 ltac:(lia)). assert (x mod 2 = 0 \/ x mod 2 = 1) as [-> | ->] by lia; done. Qed.

Lemma bulk_round_spec k st :
  pipe_ok -> 0 <= buf -> buf + datasize <= 2 ^ 32 -> 0 < datasize < 2 ^ 31 -> bulk_inv k st ->
  (exists st', bulk_round u inn buf datasize st = Ret (inl st') /\ bulk_inv (k + 1) st' /\ 0 <= st'.1.1.1.1 < st.1.1.1.1) \/
  (exists r, bulk_round u inn buf datasize st = Ret (inr r) /\ bulk_ready r.1 r.2).
Proof.
  intros (Hd & He & Hm & Ht) Hb0 Hb Hs. destruct st as [[[[rem tog] first] last] s]. intros (l & live & La & Hl & -> & -> & Hk & Hk').
  unfold bulk_round. fold mp pid. set (rem := Z.max 0 (datasize - k * mp)). destruct (Z.ltb_spec 0 rem) as [Hr|Hr]; cbn [negb].
  - assert (E1 : (if mp <? rem then mp else rem) = Z.min mp (datasize - k * mp)) by (destruct (Z.ltb_spec mp rem); lia). rewrite E1. assert (0 <= k * mp) by nia.
    assert (E2 : buf + (datasize - rem) = buf + k * mp) by lia. rewrite E2.
    destruct (new_td_spec (td_flags (lowspeed u) TD_CTRL_SPD) (uhci_tok (Usb.devaddr (generic u)) (Usb.ep (generic u)) ((toggle u + k) mod 2) pid (Z.min mp (datasize - k * mp))) (buf + k * mp) l first last s live La ltac:(lia))
      as (t & s1 & -> & [[-> Ho]|(Hne & s2 & live' & E3 & La')]); rewrite bind_ret; [right; by eexists (_, _)|].
    rewrite (proj2 (Z.eqb_neq t 0)), E3, bind_ret by done. left. eexists. split; [done|]. split; [|cbn; lia]. eexists _, _. split; [exact La'|].
    split_and!; [|lia|rewrite lxor_toggle by lia; f_equal; lia|lia|right; lia]. rewrite fmap_app, Hl, seqZ_app, fmap_app by lia. f_equal.
  - right. eexists (_, _). split; [done|]. cbn. exists l, live. assert (packets = k) as -> by (unfold packets; assert (k <> 0) by (intros ->; lia); Z.div_mod_to_equations; nia). done.
Qed.

Lemma bulk_chain_ready s live :
  pipe_ok -> ums s = clock -> pool_rel (upool s) live -> 0 <= buf -> buf + datasize <= 2 ^ 32 -> 0 < datasize < 2 ^ 31 ->
  exists r s', bulk_chain u inn buf datasize s = Ret (r, s') /\ bulk_ready r s'.
Proof.
  intros Hok Hnow Hp Hb0 Hb Hs. unfold bulk_chain.
  loop_with (fun st => exists k, bulk_inv k st) (fun r => bulk_ready r.1 r.2) (fun st => st.1.1.1.1) as ([r s'] & -> & Hr); [| |cbn; lia|by exists r, s'].
  - intros st [k Hk]. destruct (bulk_round_spec k st Hok Hb0 Hb Hs Hk) as [(st' & E & H & Hm)|?]; [|by right]. left. exists st'. split; [done|]. split; [by exists (k + 1)|done].
  - exists 0, [], live. split; [constructor; [done|done|constructor|constructor|by left]|]. split_and!; [done|lia| |lia|by left]. destruct Hok as (_ & _ & _ & Ht). rewrite Z.add_0_r. symmetry. by apply Z.mod_small.
Qed.

(** What the controller finds. *)
Lemma bulk_ready_reads first last tog s :
  pipe_ok -> 0 < datasize < 2 ^ 31 -> bulk_ready (Some (first, last, tog)) s ->
  transactions (Z.to_nat packets) (tds s) first = Some (packet <$> seqZ 0 packets) /\ is_Some (tds s !! last) /\ tog = (toggle u + packets) mod 2 /\
  ums s = clock /\ 1 < first /\ 1 < last.
Proof.
  intros Hok Hs (l & live' & La & Hl & ->). assert (Hn : 0 < packets) by (destruct Hok as (_ & _ & Hm & _); apply Z.div_str_pos; lia).
  assert (El : length l = Z.to_nat packets) by (rewrite <- (length_fmap snd), Hl, length_fmap, length_seqZ; done).
  assert (l <> []) as Hne by (intros ->; cbn in El; lia). destruct (laid_transactions _ _ _ _ _ La Hne) as [HT Hlast]. destruct (laid_first _ _ _ _ _ La Hne). pose proof (la_now _ _ _ _ _ La). split_and!; try done; try lia.
  rewrite <- El, HT. f_equal. transitivity ((fun x => transaction_of (td_of 0 x)) <$> l.*2); [by rewrite <- list_fmap_compose|]. rewrite Hl, <- list_fmap_compose.
  apply list_fmap_ext. intros j i Hj. apply lookup_seqZ in Hj as [-> Hj]. cbn. apply packet_transaction; [done|lia|]. destruct Hok as (_ & _ & Hm & _). unfold packets in Hj. Z.div_mod_to_equations. nia.
Qed.
End Bulk.

(** ** Control transfers *)

(** A request of 8 bytes at endpoint 0, the data in one packet when there is
    any, and an empty packet the other way. *)
Definition control_packets (u : uhci_pipe) (inn : bool) (cmd buf datasize : Z) : list transaction :=
  let x pid tog len b := mkTransaction pid (Usb.devaddr (generic u)) 0 tog len b in
  x USB_PID_SETUP 0 8 cmd ::
  (if 0 <? datasize then [x (if inn then USB_PID_IN else USB_PID_OUT) 1 datasize buf] else []) ++
  [x (if inn then USB_PID_OUT else USB_PID_IN) 1 0 0].

Lemma control_chain_spec u inn cmd buf datasize s live :
  0 <= Usb.devaddr (generic u) < 128 -> ums s = clock -> pool_rel (upool s) live -> 0 <= cmd < 2 ^ 32 -> 0 <= buf < 2 ^ 32 -> datasize < 2048 ->
  exists r s', control_chain u inn cmd buf datasize s = Ret (r, s') /\
    match r with
    | None => pool_out s'
    | Some (first, last) =>
        exists l live', laid l first last s' live' /\ l <> [] /\ (fun x => transaction_of (td_of 0 x.2)) <$> l = control_packets u inn cmd buf datasize
    end.
Proof.
  intros Hd Hnow Hp Hc Hb Hs. assert (laid [] 0 0 s live) as L0 by (constructor; [done|done|constructor|constructor|by left]). unfold control_chain.
  assert (Hpid : forall b, 0 <= (if b : bool then USB_PID_IN else USB_PID_OUT) < 256 /\ 0 <= (if b then USB_PID_OUT else USB_PID_IN) < 256) by (unfold USB_PID_IN, USB_PID_OUT; intros []; lia).
  edestruct (new_td_spec (td_flags (lowspeed u) 0) (uhci_tok (Usb.devaddr (generic u)) 0 0 USB_PID_SETUP 8) cmd _ _ _ _ _ L0 Hc) as (t & s1 & -> & [[-> Ho]|(Ht & s1' & live1 & E & L1)]); rewrite bind_ret; [by eexists None, _|].
  rewrite (proj2 (Z.eqb_neq t 0)) by done. injection E as <-. cbn [app Z.eqb] in L1. destruct (laid_first _ _ _ _ _ L1 ltac:(done)) as [Hf _].
  destruct (Z.ltb_spec 0 datasize) as [Hz|Hz].
  - edestruct (new_td_spec (td_flags (lowspeed u) TD_CTRL_SPD) (uhci_tok (Usb.devaddr (generic u)) 0 1 (if inn then USB_PID_IN else USB_PID_OUT) datasize) buf _ _ _ _ _ L1 Hb) as (d & s2 & -> & [[-> Ho]|(Hd0 & s2' & live2 & E & L2)]); rewrite bind_ret; [by eexists None, _|].
    rewrite (proj2 (Z.eqb_neq d 0)) by done. rewrite (proj2 (Z.eqb_neq t 0)) in E, L2 by done. rewrite E, !bind_ret. rewrite (proj2 (Z.eqb_neq d 0)) by done.
    edestruct (new_td_spec (td_flags (lowspeed u) TD_CTRL_IOC) (uhci_tok (Usb.devaddr (generic u)) 0 1 (if inn then USB_PID_OUT else USB_PID_IN) 0) 0 _ _ _ _ _ L2 ltac:(lia)) as (st & s3 & -> & [[-> Ho]|(Hd1 & s3' & live3 & E3 & L3)]); rewrite bind_ret; [by eexists None, _|].
    rewrite (proj2 (Z.eqb_neq st 0)) by done. rewrite (proj2 (Z.eqb_neq t 0)) in E3, L3 by done. rewrite E3, bind_ret. eexists (Some _), _. split; [done|].
    eexists _, _. split; [exact L3|]. split; [done|]. unfold control_packets. rewrite (proj2 (Z.ltb_lt 0 datasize)) by done. cbn -[uhci_tok transaction_of td_of]; unfold td_of; cbn [fst snd]. destruct (Hpid inn).
    by rewrite !tok_fields by (done || (unfold USB_PID_SETUP; lia)).
  - rewrite bind_ret. rewrite (proj2 (Z.eqb_neq t 0)) by done.
    edestruct (new_td_spec (td_flags (lowspeed u) TD_CTRL_IOC) (uhci_tok (Usb.devaddr (generic u)) 0 1 (if inn then USB_PID_OUT else USB_PID_IN) 0) 0 _ _ _ _ _ L1 ltac:(lia)) as (st & s3 & -> & [[-> Ho]|(Hd1 & s3' & live3 & E3 & L3)]); rewrite bind_ret; [by eexists None, _|].
    rewrite (proj2 (Z.eqb_neq st 0)) by done. rewrite (proj2 (Z.eqb_neq t 0)) in E3, L3 by done. rewrite E3, bind_ret. eexists (Some _), _. split; [done|].
    eexists _, _. split; [exact L3|]. split; [done|]. unfold control_packets. rewrite (proj2 (Z.ltb_ge 0 datasize)) by done. cbn -[uhci_tok transaction_of td_of]; unfold td_of; cbn [fst snd]. destruct (Hpid inn).
    by rewrite !tok_fields by (done || (unfold USB_PID_SETUP; lia)).
Qed.
End Chains.

(** C21: The descriptors of a bulk transfer.  Whatever the size, building them
    ends, without memory only when the pool gives none; and a controller that
    follows the links from the first descriptor finds exactly the packets of the
    transfer, in order: the buffer without gaps, at most the pipe's packet size
    each, the data toggle alternating from the pipe's on, and the pipe's device
    and endpoint in each.  The toggle that is left is the one the next packet
    needs. *)
Theorem bulk_chain_covers {P : Type} `{!DmaPool P} `{!PoolLaws P} u inn buf datasize (s : uhci P) live :
  pipe_ok u -> pool_rel (upool s) live -> 0 <= buf -> buf + datasize <= 2 ^ 32 -> 0 < datasize < 2 ^ 31 ->
  exists r s', bulk_chain u inn buf datasize s = Ret (r, s') /\
    match r with
    | None => exists p, pool_aligned 32 16 p = Ret (0, upool s')
    | Some (first, last, tog) =>
        transactions (Z.to_nat (packets u datasize)) (tds s') first = Some (packet u inn buf datasize <$> seqZ 0 (packets u datasize)) /\ is_Some (tds s' !! last) /\ tog = (toggle u + packets u datasize) mod 2
    end.
Proof.
  intros Hok Hp Hb0 Hb Hs. destruct (bulk_chain_ready (ums s) u inn buf datasize s live Hok eq_refl Hp Hb0 Hb Hs) as (r & s' & -> & Hr). exists r, s'. split; [done|].
  destruct r as [[[first last] tog]|]; [|done]. destruct (bulk_ready_reads _ _ _ _ _ _ _ _ _ Hok Hs Hr) as (? & ? & ? & _). done.
Qed.

(** A pool, and a mass storage device's pipe. *)
Definition demo_uhci : uhci (dma Pmm.pmm) := mkUhci 0xC000 (<[0xC010 := 0x85]> (<[0xC008 := 0]> ∅)) 0x6000 [] (mkQh 1 1 0x5000) None ∅ demo_start 7.
Definition demo_upipe : uhci_pipe := mkUpipe (Usb.mkPipe 0x9000 2 1 5 0 64 1) (mkQh 0 0 0) 0 0 1 false.

Lemma bulk_chain_covers_witness :
  exists r s', bulk_chain demo_upipe true 0x100000 150 demo_uhci = Ret (r, s') /\
    match r with
    | None => exists p, pool_aligned 32 16 p = Ret (0, upool s')
    | Some (first, last, tog) =>
        transactions 3 (tds s') first = Some (packet demo_upipe true 0x100000 150 <$> seqZ 0 3) /\ is_Some (tds s' !! last) /\ tog = 0
    end.
Proof. apply (bulk_chain_covers demo_upipe true 0x100000 150 demo_uhci [(0x8200, 512); (0x8000, 512)]); [unfold pipe_ok; cbn; lia|exact demo_start_ok|lia..]. Defined.

(** Three packets, the last of 22 bytes. *)
Lemma demo_bulk_chain :
  ('(r, s) ← bulk_chain demo_upipe true 0x100000 150 demo_uhci; Ret (p ← r; transactions 3 (tds s) p.1.1)) =
  Ret (Some [mkTransaction 0x69 5 1 1 64 0x100000; mkTransaction 0x69 5 1 0 64 0x100040; mkTransaction 0x69 5 1 1 22 0x100080]).
Proof. vm_compute. reflexivity. Qed.

(** ** Waiting *)

Section Waiting.
Context {P : Type} `{!DmaPool P} `{!PoolLaws P} (usb_msleep : Z -> uhci P -> uhci P).
Implicit Types s : uhci P.
(** The clock goes on, and descriptors stay where they are. *)
Hypothesis sleep_later : forall s, slept 1 (ums s) (ums (usb_msleep 1 s)).
Hypothesis sleep_tds : forall s a, is_Some (tds s !! a) -> is_Some (tds (usb_msleep 1 s) !! a).

Definition active (t : uhci_td) : bool := negb (Z.land (td_status t) TD_CTRL_ACTIVE =? 0).

Lemma wait_td_returns last to_ms s :
  is_Some (tds s !! last) -> 0 <= to_ms -> usb_now_ms (ums s) + to_ms + 1001 < 2 ^ 32 ->
  exists rc s' t, uhci_wait_td usb_msleep last to_ms s = Ret (rc, s') /\ tds s' !! last = Some t /\
    (rc = 0 /\ active t = false \/ rc = -1 /\ active t = true /\ ums s + to_ms <= ums s').
Proof.
  intros Hl Ht Hw. unfold uhci_wait_td. pose proof (usb_now_range (ums s)). rewrite u32_small by lia. set (end_ := usb_now_ms (ums s) + to_ms) in *.
  loop_with (fun s1 => is_Some (tds s1 !! last) /\ ums s <= ums s1 <= ums s + to_ms + 1001) (fun '(rc, s') => exists t, tds s' !! last = Some t /\ (rc = 0 /\ active t = false \/ rc = -1 /\ active t = true /\ ums s + to_ms <= ums s'))
    (fun s1 => Z.max 0 (ums s + to_ms - ums s1)) as ([rc s'] & -> & t & H'); [|split; [done|lia]|lia|by exists rc, s', t].
  intros s1 [[t Hs1] Hms]. rewrite Hs1. cbn [of_option]. rewrite bind_ret. unfold active. destruct (Z.land (td_status t) TD_CTRL_ACTIVE =? 0) eqn:Ea.
  - right. eexists (_, _). split; [done|]. exists t. split; [done|]. left. by rewrite Ea.
  - rewrite (usb_now_later (ums s) (ums s1)) by lia. destruct (Z.leb_spec end_ (usb_now_ms (ums s) + (ums s1 - ums s))) as [Hend|Hend]; [right; eexists (_, _); split; [done|]; exists t; split; [done|]; right; rewrite Ea; split_and!; [done..|lia]|].
    left. eexists. split; [done|]. pose proof (sleep_later s1) as Hsl. unfold slept in Hsl. split; [split; [by apply sleep_tds|lia]|lia].
Qed.

Lemma xfer_time_bounds p : 0 <= usb_xfer_time p <= 5100.
Proof. unfold usb_xfer_time. destruct (Usb.devaddr p =? 0); lia. Qed.

(** Success means that the controller has done the last descriptor without an
    error; afterwards the queue is empty again. *)
Lemma run_chain_returns u first last s :
  first <> 0 -> last <> 0 -> is_Some (tds s !! last) -> usb_now_ms (ums s) + 6101 < 2 ^ 32 ->
  exists rc s' t, run_chain usb_msleep u first last s = Ret (rc, s') /\ qh_element (async_qh s') = UHCI_PTR_TERM /\ tds s' !! last = Some t /\
    (rc = 0 /\ active t = false /\ Z.land (td_status t) TD_ERR_MASK = 0 \/
     rc = -1 /\ (active t = true /\ ums s + usb_xfer_time (generic u) <= ums s' \/ Z.land (td_status t) TD_ERR_MASK <> 0)).
Proof.
  intros Hf Hl Ht Hw. unfold run_chain. rewrite (proj2 (Z.eqb_neq first 0)), (proj2 (Z.eqb_neq last 0)) by done. cbn [orb]. pose proof (xfer_time_bounds (generic u)).
  destruct (wait_td_returns last (usb_xfer_time (generic u)) (set_element (u32 first) s)) as (rc & s' & t & -> & Hs & H1); [done|lia|cbn; lia|].
  rewrite bind_ret, Hs. cbn [of_option]. rewrite bind_ret. eexists _, _, t. split; [done|]. split; [done|]. split; [done|].
  destruct H1 as [[-> Ha]|(-> & Ha & Hn)]; [|right; split; [done|]; by left].
  destruct (Z.eqb_spec (Z.land (td_status t) TD_ERR_MASK) 0); [by left|]. right. split; [done|]. by right.
Qed.

(** Every bulk transfer ends; unless the pool was out of memory the toggle goes
    on by the number of packets, even when the transfer failed. *)
Lemma send_bulk_returns u inn buf datasize s live :
  pipe_ok u -> pool_rel (upool s) live -> 0 <= buf -> buf + datasize <= 2 ^ 32 -> 0 < datasize < 2 ^ 31 -> usb_now_ms (ums s) + 6101 < 2 ^ 32 ->
  exists rc u' s', uhci_send_pipe usb_msleep u inn 0 buf datasize s = Ret (rc, u', s') /\ (rc = 0 \/ rc = -1) /\
    (u' = u /\ rc = -1 \/ toggle u' = (toggle u + packets u datasize) mod 2 /\ qh_element (async_qh s') = UHCI_PTR_TERM).
Proof.
  intros Hok Hp Hb0 Hb Hs Hw. unfold uhci_send_pipe. cbn [Z.eqb negb]. destruct (bulk_chain_ready (ums s) u inn buf datasize s live Hok eq_refl Hp Hb0 Hb Hs) as (r & s1 & -> & Hr). rewrite bind_ret.
  destruct r as [[[first last] tog]|]; [|eexists _, _, _; split; [done|]; split; [by right|by left]].
  destruct (bulk_ready_reads _ _ _ _ _ _ _ _ _ Hok Hs Hr) as (_ & Hl & -> & Hn & ? & ?).
  destruct (run_chain_returns u first last s1) as (rc & s' & t & -> & He & _ & Hrc); [lia|lia|done|congruence|]. rewrite bind_ret. eexists _, _, _. split; [done|]. split; [|by right].
  destruct Hrc as [[-> _]|[-> _]]; auto.
Qed.

(** So does every control transfer. *)
Lemma send_control_returns u inn cmd buf datasize s live :
  0 <= Usb.devaddr (generic u) < 128 -> pool_rel (upool s) live -> 0 < cmd < 2 ^ 32 -> 0 <= buf < 2 ^ 32 -> datasize < 2048 -> usb_now_ms (ums s) + 6101 < 2 ^ 32 ->
  exists rc s', uhci_send_pipe usb_msleep u inn cmd buf datasize s = Ret (rc, u, s') /\ (rc = 0 \/ rc = -1).
Proof.
  intros Hd Hp Hc Hb Hs Hw. unfold uhci_send_pipe. rewrite (proj2 (Z.eqb_neq cmd 0)) by lia. cbn [negb].
  destruct (control_chain_spec (ums s) u inn cmd buf datasize s live Hd eq_refl Hp ltac:(lia) Hb Hs) as (r & s1 & -> & Hr). rewrite bind_ret.
  destruct r as [[first last]|]; [|eexists _, _; split; [done|by right]]. destruct Hr as (l & live' & La & Hne & _).
  destruct (laid_first _ _ _ _ _ _ La Hne). destruct (laid_transactions _ _ _ _ _ _ La Hne) as [_ Hl]. pose proof (la_now _ _ _ _ _ _ La).
  destruct (run_chain_returns u first last s1) as (rc & s' & t & -> & _ & _ & Hrc); [lia|lia|done|congruence|]. rewrite bind_ret. eexists _, _. split; [done|].
  destruct Hrc as [[-> _]|[-> _]]; auto.
Qed.
End Waiting.

(** ** Interrupt pipes *)

(** The toggle of a token is replaced, the rest stays. *)
Lemma set_toggle dev ep tog pid len tog' :
  0 <= dev < 128 -> 0 <= ep < 16 -> 0 <= tog < 2 -> 0 <= pid < 256 -> 0 <= len < 2048 -> 0 <= tog' < 2 ->
  Z.lor (Z.land (uhci_tok dev ep tog pid len) (u32 (Z.lnot (Z.shiftl 1 19)))) (if tog' =? 0 then 0 else TD_TOKEN_TOGGLE) = uhci_tok dev ep tog' pid len.
Proof.
  intros Hd He Ht Hp Hl Ht'. unfold uhci_tok. set (a := Z.shiftl dev 8). set (b := Z.shiftl ep 15). set (c := Z.land pid 0xFF). set (d := if 0 <? len then uhci_explen len else Z.shiftl 0x7FF 21).
  set (M := u32 (Z.lnot (Z.shiftl 1 19))). assert (HM : M = Z.lor (Z.ones 19) (Z.shiftl (Z.ones 12) 20)) by (unfold M; by vm_compute).
  assert (Hlow : forall x, 0 <= x < 2 ^ 19 -> Z.land x M = x).
  { intros x Hx. rewrite HM, Z.land_lor_distr_r, Z.land_ones, Z.mod_small, Z.land_comm, (shl_land _ 20) by lia. apply Z.lor_0_r. }
  assert (Hd' : Z.land d M = d).
  { unfold d, uhci_explen. change 0x7FF with (Z.ones 11). assert (forall x, 0 <= x < 2 ^ 11 -> Z.land (Z.shiftl x 21) M = Z.shiftl x 21) as H.
    { intros x Hx. replace M with (Z.lor (Z.lor (Z.ones 19) (Z.shiftl 1 20)) (Z.shiftl (Z.ones 11) 21)) by (unfold M; by vm_compute).
      rewrite Z.land_lor_distr_r, (shl_land x 21), Z.lor_0_l, <- Z.shiftl_land, Z.land_ones, Z.mod_small by (done || lia). done. }
    destruct (0 <? len); [rewrite Z.land_ones by lia; apply H, Z.mod_pos_bound; lia|by apply H]. }
  assert (Ha : Z.land a M = a) by (apply Hlow; pose proof (shiftl_small dev 8 7 ltac:(lia) ltac:(lia) ltac:(lia)); unfold a; lia).
  assert (Hb : Z.land b M = b) by (apply Hlow; pose proof (shiftl_small ep 15 4 ltac:(lia) ltac:(lia) ltac:(lia)); unfold b; lia).
  assert (Hc : Z.land c M = c) by (apply Hlow; pose proof (land_bound pid 0xFF 8 ltac:(lia) ltac:(lia)); unfold c; lia).
  rewrite !Z.land_lor_distr_l, Ha, Hb, Hc, Hd'. assert (Z.land (if tog =? 0 then 0 else TD_TOKEN_TOGGLE) M = 0) as -> by (unfold M; by destruct (tog =? 0)).
  set (x := if tog' =? 0 then 0 else TD_TOKEN_TOGGLE). rewrite Z.lor_0_r, <- !Z.lor_assoc. do 2 f_equal. by rewrite (Z.lor_comm d), !Z.lor_assoc, (Z.lor_comm c).
Qed.

(** The descriptor of an interrupt pipe, as it was set up and as polling leaves
    it. *)
Definition interrupt_token (u : uhci_pipe) : Z :=
  uhci_tok (Usb.devaddr (generic u)) (Usb.ep (generic u)) (toggle u) USB_PID_IN (Usb.maxpacket (generic u)).

(** Once the controller has done the descriptor without an error it is armed
    again with the other toggle, and the count of its bytes is what is copied. *)
Lemma poll_intr_rearms {P} (u : uhci_pipe) (s : uhci P) t :
  pipe_ok u -> td u <> 0 -> tds s !! td u = Some t -> td_token t = interrupt_token u -> active t = false -> Z.land (td_status t) TD_ERR_MASK = 0 ->
  let len := (Z.land (td_status t) 0x7FF + 1) mod 2048 in
  exists u' s' t', uhci_poll_intr u s = Ret (len, if 0 <? len then 0 else -1, u', s') /\
    tds s' !! td u' = Some t' /\ active t' = true /\ td_token t' = interrupt_token u' /\ td_buffer t' = td_buffer t /\
    toggle u' = (toggle u + 1) mod 2 /\ qh_element (qh u') = u32 (td u) /\ generic u' = generic u /\ pipe_ok u'.
Proof.
  intros (Hd & He & Hm & Ht) Htd Hs Htok Hact Herr len. unfold uhci_poll_intr. rewrite (proj2 (Z.eqb_neq _ _)) by done. rewrite Hs. cbn [of_option]. rewrite bind_ret.
  unfold active in Hact. rewrite negb_false_iff in Hact. rewrite Hact, Herr. cbn [negb Z.eqb].
  assert (Elen : uhci_actual (Z.land (td_status t) 0x7FF) = len) by (unfold uhci_actual, len; change 0x7FF with (Z.ones 11) at 2; by rewrite Z.land_ones by lia). rewrite Elen.
  assert (Et : Z.lxor (toggle u) 1 = (toggle u + 1) mod 2) by (assert (toggle u = 0 \/ toggle u = 1) as [-> | ->] by lia; done). rewrite Et.
  pose proof (Z.mod_pos_bound (toggle u + 1) 2 ltac:(lia)) as Hb. rewrite Htok. unfold interrupt_token at 1. rewrite set_toggle by (done || (unfold USB_PID_IN; lia)).
  eexists _, _, _. split; [done|]. cbn [tds set_tds td]. rewrite lookup_insert_eq. split_and!; try done. by destruct (lowspeed u).
Qed.

(** ** What keeps the driver from working *)

(** A controller that only lets time pass, and one that does every descriptor. *)
Definition idles {P} (n : Z) (s : uhci P) : uhci P := mkUhci (io s) (regs s) (frame_dma s) (frame s) (async_qh s) (int_head s) (tds s) (upool s) (ums s + n).
Definition completes {P} (n : Z) (s : uhci P) : uhci P :=
  let done t := mkTd (td_link t) (Z.land (td_status t) (u32 (Z.lnot TD_CTRL_ACTIVE))) (td_token t) (td_buffer t) in
  mkUhci (io s) (regs s) (frame_dma s) (frame s) (async_qh s) (int_head s) (done <$> tds s) (upool s) (ums s + n).

(** A transfer succeeds, or is given up after its time; both move the toggle on. *)
Lemma demo_transfers :
  ('(rc, u, s) ← uhci_send_pipe completes demo_upipe true 0 0x100000 150 demo_uhci; Ret (rc, toggle u, ums s)) = Ret (0, 0, 8) /\
  ('(rc, u, s) ← uhci_send_pipe idles demo_upipe true 0 0x100000 150 demo_uhci; Ret (rc, toggle u, ums s)) = Ret (-1, 0, 5107).
Proof. split; vm_compute; reflexivity. Qed.

(** [ls] is a byte: descriptors for slow devices are marked like those for fast
    ones, and only interrupt pipes have the mark. *)
Lemma lowspeed_lost extra : td_flags true extra = td_flags false extra /\ Z.testbit (td_flags true 0) 26 = false /\ Z.testbit (armed true) 26 = true.
Proof. split_and!; [|reflexivity..]. unfold td_flags. do 2 f_equal. Qed.

(** The address of the frame list is taken for the port: the base register keeps
    its value unless the address happens to end like the register's number. *)
Lemma frame_base_not_set {P} (s : uhci P) :
  0 <= io s < 2 ^ 16 - 8 -> u16 (frame_dma s) <> io s + 8 -> regs (uhci_start s) !! (io s + 8) = regs s !! (io s + 8).
Proof.
  intros Hio Hne. unfold uhci_start, uwr, outl, set_regs. cbn. unfold UHCI_USBCMD, UHCI_USBINTR. rewrite (u16_small (io s + 0)), (u16_small (io s + 4)) by lia.
  rewrite !lookup_insert_ne by lia. rewrite lookup_insert_ne; [done|]. intros E. apply Hne. rewrite <- E. symmetry. unfold u32, u16. Z.div_mod_to_equations. lia.
Qed.

(** Software ends the reset of a port of this controller; this driver waits for
    the bit to go, and gives up. *)
Lemma port_reset_times_out {P} (usb_msleep : Z -> uhci P -> uhci P) port s :
  (forall s, regs (usb_msleep 1 s) = regs s /\ io (usb_msleep 1 s) = io s /\ slept 1 (ums s) (ums (usb_msleep 1 s))) ->
  usb_now_ms (ums s) + 1101 < 2 ^ 32 -> exists s', uhci_hub_reset usb_msleep port s = Ret (-1, s').
Proof.
  intros Hs Hn. unfold uhci_hub_reset, port_reset_wait. set (reg := UHCI_USBPORTSC1 + 2 * port). pose proof (usb_now_range (ums s)). change (ums (uwr reg PORTSC_PR s)) with (ums s). rewrite u32_small by lia.
  loop_with (fun s1 => regs s1 !! u16 (io s1 + reg) = Some PORTSC_PR /\ ums s <= ums s1 <= ums s + 1101) (fun r => r.1 = false) (fun s1 => Z.max 0 (ums s + 100 - ums s1)) as ([ok s'] & -> & Hok).
  - intros s1 [H1 Hms]. unfold urd. rewrite H1. cbn [of_option]. rewrite bind_ret. change (Z.land PORTSC_PR PORTSC_PR =? 0) with false. cbn [negb]. rewrite (usb_now_later (ums s) (ums s1)) by lia.
    destruct (Z.leb_spec (usb_now_ms (ums s) + 50 * 2) (usb_now_ms (ums s) + (ums s1 - ums s))) as [Hend|Hend]; [right; by eexists (_, _)|]. left. eexists. split; [done|]. destruct (Hs s1) as (E1 & E2 & Hsl). unfold slept in Hsl. rewrite E1, E2. split; [split; [done|lia]|lia].
  - split; [cbn; by rewrite lookup_insert_eq|cbn; lia].
  - cbn. lia.
  - cbn in Hok. subst ok. rewrite bind_ret. by eexists.
Qed.

(** A pipe that exists is handed back as it is: neither the address a device was
    given nor its packet size is taken over. *)
Lemma realloc_keeps {P} `{!DmaPool P} cntl d u e (s : uhci P) :
  ep_type e <> USB_ENDPOINT_XFER_INT -> uhci_realloc_pipe cntl d (Some u) (Some e) s = Ret (Some u, s).
Proof. intros He. unfold uhci_realloc_pipe. rewrite bind_ret. cbn [of_option]. rewrite bind_ret. by rewrite (proj2 (Z.eqb_neq _ _)) by done. Qed.

(** Freeing a pipe reads through the null descriptor that asks for it. *)
Lemma free_pipe_faults {P} `{!DmaPool P} cntl d u (s : uhci P) : uhci_realloc_pipe cntl d (Some u) None s = Fault.
Proof. done. Qed.

(** The queue of an interrupt pipe never gets its address: what is hung in
    behind the queue of transfers is address 0. *)
Lemma interrupt_queue_at_zero {P} `{!DmaPool P} e u (s s' : uhci P) u' :
  qh_dma (qh u) = 0 -> interrupt_queue e u s = Ret (Some u', s') -> qh_link (async_qh s') = UHCI_PTR_QH /\ int_head s' = Some 0.
Proof.
  intros Hq. unfold interrupt_queue. destruct (uhci_alloc_td s) as [[t s1]| |]; [|done..]. rewrite bind_ret. destruct (t =? 0); [done|].
  destruct (pool_alloc _ _) as [[b p]| |]; [|done..]. rewrite bind_ret. cbn zeta. destruct (b =? 0); [done|]. destruct (tds _ !! t) as [x|]; [|done]. cbn [of_option]. rewrite bind_ret. intros [= <- <-].
  cbn. by rewrite Hq.
Qed.

(** A transfer of no bytes is refused. *)
Lemma empty_bulk_refused {P} `{!DmaPool P} (usb_msleep : Z -> uhci P -> uhci P) u inn buf (s : uhci P) :
  exists u', uhci_send_pipe usb_msleep u inn 0 buf 0 s = Ret (-1, u', s).
Proof.
  assert (bulk_chain u inn buf 0 s = Ret (Some (0, 0, toggle u), s)) as E.
  { unfold bulk_chain. loop_with (fun st => st = (0, toggle u, 0, 0, s)) (fun r => r = (Some (0, 0, toggle u), s)) (fun _ => 0) as (r & -> & ->); [|done..]. intros ? ->. right. by eexists. }
  unfold uhci_send_pipe. cbn [Z.eqb negb]. rewrite E, bind_ret. cbn [run_chain Z.eqb orb]. unfold run_chain. cbn [Z.eqb orb]. rewrite bind_ret. by eexists.
Qed.
